(* ===== verification/_CoqProject ===== *)
-Q . S2P
Prelude.v
GoStd.v
Json.v
JsonFacts.v
JsonDecode.v
NetIP.v
NetIPFacts.v
Validation.v
SiteConfig.v
DestinationRoute.v
Prog.v
Api.v
PlatformConfig.v
LocalConfig.v
Kube.v
Phases.v
GlobalApi.v
GlobalConfig.v
GlobalPlan.v
GlobalPlanFacts.v
SitePlan.v
Infra.v
InfraFacts.v
Domain.v
DomainFacts.v
GlobalReconciler.v
GlobalSafety.v
DomainSystem.v
SiteReconciler.v
SiteSafety.v
Subprocess.v
ProviderExec.v
GatewayExec.v
Ovn.v
OvnFacts.v
OvnBFD.v
OvnBFDFacts.v
OvnBFDSafety.v
PlatformPlan.v
PlatformPlanFacts.v
PlanWitness.v
NetworkID.v
NetworkIDSystem.v
NetworkIDFacts.v
NetworkIDWitness.v
PlatformReconciler.v
PlatformSafety.v
PlatformWitness.v
Allocation.v
AllocationFacts.v
Sync.v
SyncWitness.v
LocalReconciler.v
LocalSafety.v
LocalPass.v
GatewayRegistry.v
GatewayRegistryFacts.v
X25519.v
GatewayRender.v
GatewayReconciler.v
GatewayDeleteFacts.v
GatewayEnsure.v
GatewayEnsureFacts.v
LocalWorld.v
LocalWitness.v
GatewayWitness.v
InfraWorld.v
GlobalWitness.v
DomainWitness.v
SiteWitness.v
OvnWitness.v
NativePlan.v
NativeLifecycle.v
NativeSafety.v
NativeHook.v
UserCommands.v
NativeWitness.v
RouteWriter.v
RouteFacts.v
CommandLine.v
