(* ===== verification/Prelude.v ===== *)
(** * Global VPC for Kube-OVN: a verification development

    The program connects the networks of one VPC across Kubernetes clusters. A
    platform controller turns VPC and Subnet objects into one [NetworkBinding]
    snapshot per location; in every location a local controller copies its snapshot,
    reserves addresses for it, realizes it in the native network API and runs a pair
    of gateway Pods. The earlier API has two controllers of its own: one authority
    over all clusters of an OVN-IC domain (GlobalVpc), and one per site that attaches
    it on its own (SiteVpc). This development translates the Go code of these parts into
    executable definitions and proves what makes them correct.

    ** How the code is modelled

    - Go values: [GoStd] (strings, strconv, SHA-256), [Json], [JsonFacts],
      [JsonDecode] (encoding/json, with the round trip [Unmarshal_Marshal]), [NetIP],
      [NetIPFacts] (net/netip), [X25519] (crypto/ecdh, base64). Integers are [Z] with
      their bounds written out; a Go map is a [gmap]; a Go error is an [error] and a
      fallible function returns a [res] (this file).
    - Effects: [Prog]. A handler is a tree of calls; the answers are not computed by
      the model, so a statement about [exec] holds for every API server, every
      interleaved writer, every lost response and every point where a pass stops.
      [wp] is the backward reasoning principle and [called_permitted] reads a safety
      property off a contract; [okp] is its form for code that ends at its first failure.
      [Kube] has the calls of the Kubernetes client and the
      code's object kinds and their proof rules. The validators and helpers
      of apimachinery, controller-runtime and client-go are classes ([Validation],
      [Finalizers], [Retry], ...): parameters, with their documented laws as fields.

    ** The parts

    - [SiteConfig], [PlatformConfig], [LocalConfig] (src/internal/siteconfig,
      platformconfig, localconfig): the address boundary [Prefix]/[Host] all parts
      share, and the validation of configurations.
    - [DestinationRoute] (src/integration/kube-ovn/destinationroute/plan.go):
      [Compile] against its specification [plan_of]; [Children], [ReachableGateway].
    - [Api] (src/api/v1alpha2/types.go): the objects the controllers exchange.
    - [PlatformPlan] (src/internal/platformplan/plan.go): [Build] and [Revision].
      [PlatformPlanFacts] states what each snapshot holds, that the order of API
      lists is immaterial, and what a revision identifies.
    - [NetworkID] (src/internal/platformcontroller/networkid.go): the registry of
      network IDs. [NetworkIDSystem] runs any number of its passes concurrently
      against one store (stale reads, conflicts, lost responses, crashes), with its
      invariant; [NetworkIDFacts] proves IDs unique and permanent by a rely-guarantee
      argument.
    - [PlatformReconciler] (src/internal/platformcontroller/reconciler.go): the pass
      over one VPC. [PlatformSafety] has its contract and the safety properties read
      off it: admission before realization, no adoption, ordered deletion.
    - [Sync] (src/internal/localcontroller/sync.go): authority snapshots to local
      copies, which only move forward; omission never deletes.
    - [Allocation] (src/internal/localcontroller/allocation.go): the ledger of transit
      networks and BFD sources. [AllocationFacts]: accepted ledgers do not collide and
      a written ledger reads back; addresses are recorded before they are used, and
      nothing retained is replaced.
    - [LocalReconciler] (src/internal/localcontroller/reconciler.go): realization in
      the native API and deletion, over a [Gateway] backend it is given, with the proof
      rules of its phases and [GatewayContract], what the backend promises; [LocalSafety] the contract of a pass, phase by phase; [LocalPass] the
      theorems: native objects are guarded, live networks are kept, completion is
      reported only when it was observed.
    - [GatewayRegistry], [GatewayRender], [GatewayReconciler], [GatewayEnsure]
      (src/internal/managedgateway): that backend. The registry of control addresses
      and ports, the rendered configuration, membership, keys, Pods and rollout.
      [GatewayRegistryFacts]: claims do not collide and
      are recorded before they are used; [GatewayRender]: [render] against its
      specification; [GatewayDeleteFacts], [GatewayEnsureFacts]: ordered teardown,
      confinement, rollouts that keep the siblings running, and the contract the local
      controller relies on.

    The earlier API (v1alpha1):
    - [GlobalApi] (src/api/v1alpha1), [GlobalConfig] (src/internal/config): its
      objects, and the registration of an OVN-IC domain.
    - [GlobalPlan] (src/internal/plan/plan.go), [SitePlan]
      (src/internal/siteplan/plan.go): [Build]. [GlobalPlanFacts]: an accepted plan
      routes every address to exactly one cluster, whatever the order of its lists;
      a site's plan stays inside the administrator's grant and does
      not depend on the other tenants.
    - [Phases]: handlers that mutate their copy of the object between calls, as phases
      over that copy, with [pwp], their [wp]. [Infra]
      (src/internal/controller/resources.go): the API servers and adapters both
      controllers call, and [ResourceStore]; [InfraFacts]: what precedes each of its
      calls. The client of a store may be nil; its use is the call [Panic], which has
      no answer and so ends the pass.
    - [Domain] (src/internal/controller/domain.go): the lock of a domain and the stop
      barrier of its native IC writers. [DomainFacts]: what a pass has seen when
      [Acquire] and [SetPaused] answer true ([held], [quiet], [fenced], [resumed]).
    - [GlobalReconciler] (src/internal/controller/reconciler.go): the pass over one
      GlobalVpc. [GlobalSafety]: topology changes behind the fence, the domain handed
      back running, ordered teardown and its record, no adoption; that the API server
      keeps a UID over a status update ([keeps_uid]) is the one hypothesis of the second. [DomainSystem] runs any number of
      these passes concurrently against one lock: it excludes. The lock is no fencing
      token: a pass that stalls between the barrier and the change acts on what it
      saw, and the theorems say what it saw.
    - [SiteReconciler] (src/internal/sitecontroller/reconciler.go): the pass over one
      SiteVpc. [SiteSafety]: ordered teardown, no adoption, observed readiness.

    The adapters behind these controllers:
    - [Ovn] (src/internal/ovn/exec.go), [OvnBFD] (site_bfd.go, site_ecmp.go): the
      commands run on the OVN databases, the tables they print, and every operation
      on them. [OvnFacts]: reads of the databases, transit switches, and that
      [RoutesReady] decides exactly whether the router carries the routes; [OvnBFDFacts], [OvnBFDSafety]: rows are created
      only when absent, changed or removed only when read as owned, and never adopted.
    - [Subprocess], [ProviderExec] (src/internal/provider/exec.go), [GatewayExec]
      (src/internal/sitegateway/exec.go): one bounded run of an administrator's
      program and the strict reading of its answer: exactly the answers that keep the
      protocol are accepted, and every other end of a program that ran is an unknown
      state.
    The controllers are proved against arbitrary answers of the adapters, and the
    adapters against arbitrary answers of the databases and programs.

    The installation tool:
    - [NativePlan] (src/internal/vpcctl/native.go, native_schema.go and the pure part
      of native_lifecycle.go): bundles, plans and receipt chains, their patches, the
      acknowledgement of a VPC and the check of an OVN table. It shows that valid
      receipts lead back to the states they recorded and that the table check accepts
      exactly tables without owned rows.
    - [NativeLifecycle] (native.go, native_lifecycle.go): planning, installing,
      upgrading, verifying, draining, rolling back and uninstalling the native
      integration, as effectful code over the cluster's API, the Pods of the OVN client
      and the clock. [NativeSafety]: what each command has seen when it changes the
      schema or the image, and when it reports success.
    - [NativeHook] (native_hook.go): the same as a Helm hook, with its receipts in a
      Secret. It shows that every change is made under a receipt that is already stored,
      that the stored receipts follow their state machine, so an interrupted hook is
      resumed or reversed, and that the rollback loop ends.
    - [UserCommands] (resources.go, doctor.go, platform_hook.go): the public commands on
      VPCs and Subnets, draining, and the checks the charts run. It shows what is deleted
      and when, what a wait accepts, what each check has seen when it passes, and that
      adding locations leaves the registered ones as they were.
    - [CommandLine] (release.go, access.go, helm.go): release descriptors, the private
      file access is issued into, and Helm's command lines. It shows what a release that
      loads was checked against, that the issued file is complete or removed and holds no
      other credential, and that Helm runs what was asked and nothing else.

    Inside Kube-OVN (src/integration/kube-ovn/overlay):
    - [RouteWriter] (pkg/ovs/ovn-nb-destination-route.go,
      pkg/controller/vpc_destination_routes.go): one guarded OVSDB transaction out of a
      plan [DestinationRoute] compiled, its acknowledgement in the status of the VPC,
      and the collection of orphans, with the OVSDB library and every answer of the
      database arbitrary. [RouteFacts]: no row or session of another owner is touched, a
      pass that succeeds leaves exactly the rows of the plan, the acknowledgement
      follows the transaction, and only orphans are collected.

    The [...Witness] files, [RouteRun] in [RouteFacts] and [CommandRun] in [CommandLine]
    evaluate the theorems on concrete executions; [LocalWorld], [InfraWorld] and the
    printed database of [OvnWitness] are what they run on.

    ** Fuel

    Parsers recurse on the length of their text, the loop over certificates on that of its
    PEM data, which every block shortens ([certificates_end]). The two loops that restart
    after a lost creation race ([members], [ensureKey]) take a fuel and report
    [out_of_fuel], an error no other path gives: the code restarts without bound. The
    waits of the native lifecycle take [rounds], the ticks before their deadline and
    the round at its start, after which the context has expired. The rollback loop of
    the hook recurses on the chain of receipts; [polls] is bounded by the number of
    ticks the polling library sees.

    ** Not modelled

    Reading files, flags, clients, logging and timers; the HTTP probe of a gateway
    (its answer is a parameter); the child processes themselves and the databases they
    reach; the client and OVSDB library of Kube-OVN; of vpcctl, dispatch, flags, the bytes
    it prints and the build of a native bundle, a sequence of runs of Git, Go and Docker
    over temporary files. The formats [CommandLine] reads (URLs, PEM, X.509) are
    parameters. The site controller's gateway and network adapters are taken as
    configured. A JSON value of a database column is modelled without its spelling, so an
    escaped spelling of a tag is not told apart from the plain one; a copy through JSON is the identity, as it
    is on numbers a [float64] holds, and numbers of two configurations are compared by
    their spelling. *)
From Stdlib Require Export ZArith Lia String Ascii List Bool Permutation Sorting.Sorted.
From stdpp Require Export base tactics list gmap strings fin_maps.

(** ** Go errors and results *)

(** The status reasons of a Kubernetes API error that the code tells apart with
    [apierrors.IsNotFound], [IsAlreadyExists] and [IsConflict]. *)
Inductive reason := NotFound | AlreadyExists | Conflict | OtherAPI.

(** Go's [error]: a message built by [fmt.Errorf]/[errors.New], an error wrapped
    with [%w] after a prefix, or a Kubernetes API error. *)
Inductive error :=
| Errorf (msg : string)
| Wrapf (pre : string) (e : error)
| ErrAPI (r : reason) (msg : string).

#[export] Instance reason_eq_dec : EqDecision reason.
Proof. solve_decision. Defined.
#[export] Instance error_eq_dec : EqDecision error.
Proof. solve_decision. Defined.

(** A result pair [(T, error)] of which exactly one half is meaningful. *)
Inductive res (A : Type) :=
| Ok (a : A)
| Err (e : error).
Arguments Ok {A} a.
Arguments Err {A} e.

Declare Scope go_scope.
Delimit Scope go_scope with go.
Open Scope go_scope.

(** [x <-? e ;; k]: call [e], return its error at once, else continue. *)
Notation "x <-? e ;; k" :=
  (match e with Ok x => k | Err err => Err err end)
  (at level 60, e at next level, right associativity) : go_scope.
(** [reject c with e ;; k]: [if c { return e }] followed by [k]. *)
Notation "'reject' c 'with' e ;; k" :=
  (if c then Err e else k)
  (at level 60, c at level 59, e at level 59, right associativity) : go_scope.

Definition is_ok {A} (r : res A) : bool :=
  match r with Ok _ => true | Err _ => false end.

(** [err.Error()] *)
Fixpoint error_text (e : error) : string :=
  match e with
  | Errorf m => m
  | Wrapf p e => p ++ ": " ++ error_text e
  | ErrAPI _ m => m
  end.

(** [apierrors.IsNotFound] sees through [%w]. *)
Fixpoint api_reason (e : error) : option reason :=
  match e with
  | Errorf _ => None
  | Wrapf _ e => api_reason e
  | ErrAPI r _ => Some r
  end.
Definition IsNotFound (e : error) : bool := bool_decide (api_reason e = Some NotFound).
Definition IsAlreadyExists (e : error) : bool := bool_decide (api_reason e = Some AlreadyExists).
Definition IsConflict (e : error) : bool := bool_decide (api_reason e = Some Conflict).

(** ** Proof automation *)

Create HintDb govpc.

(** Turns boolean guards of the code into propositions. *)
Ltac breflect :=
  repeat match goal with
  | H : context [negb (negb _)] |- _ => rewrite negb_involutive in H
  | H : _ && _ = true |- _ => apply andb_true_iff in H; destruct H
  | H : _ || _ = false |- _ => apply orb_false_iff in H; destruct H
  | H : negb _ = true |- _ => apply negb_true_iff in H
  | H : negb _ = false |- _ => apply negb_false_iff in H
  | H : bool_decide _ = true |- _ => apply bool_decide_eq_true in H
  | H : bool_decide _ = false |- _ => apply bool_decide_eq_false in H
  | H : (_ =? _)%Z = true |- _ => apply Z.eqb_eq in H
  | H : (_ =? _)%Z = false |- _ => apply Z.eqb_neq in H
  | H : (_ <? _)%Z = true |- _ => apply Z.ltb_lt in H
  | H : (_ <? _)%Z = false |- _ => apply Z.ltb_ge in H
  | H : (_ <=? _)%Z = true |- _ => apply Z.leb_le in H
  | H : (_ <=? _)%Z = false |- _ => apply Z.leb_gt in H
  | H : (_ =? _)%string = true |- _ => apply String.eqb_eq in H
  | H : (_ =? _)%string = false |- _ => apply String.eqb_neq in H
  | H : (_ =? _)%nat = true |- _ => apply Nat.eqb_eq in H
  | H : (_ =? _)%nat = false |- _ => apply Nat.eqb_neq in H
  | H : (_ <? _)%nat = true |- _ => apply Nat.ltb_lt in H
  | H : (_ <? _)%nat = false |- _ => apply Nat.ltb_ge in H
  end.

(** Follows a successful run through the guards of the code that produced it:
    every [match]/[if] at the head of [H : e = Ok x] is case split, the branches
    that return an error are discharged. *)
Ltac follow_step H :=
  match type of H with
  | (match ?x with _ => _ end) = _ =>
      let E := fresh "Ef" in destruct x eqn:E; try discriminate H
  | (let '(_, _) := ?x in _) = _ =>
      let E := fresh "Ef" in destruct x eqn:E; try discriminate H
  end.
Ltac follow H :=
  repeat (follow_step H); breflect;
  repeat match goal with u : () |- _ => destruct u end.

(** ** Lists *)

Lemma Forall2_in_r {A B} (R : A -> B -> Prop) l l' y : Forall2 R l l' -> In y l' -> exists x, In x l /\ R x y.
Proof. induction 1; intros []; subst; [eexists; split; [by left|done]|]. destruct IHForall2 as (?&?&?); eauto using in_cons. Qed.
Lemma Forall2_in_l {A B} (R : A -> B -> Prop) l l' x : Forall2 R l l' -> In x l -> exists y, In y l' /\ R x y.
Proof. induction 1; intros []; subst; [eexists; split; [by left|done]|]. destruct IHForall2 as (?&?&?); eauto using in_cons. Qed.

Lemma filter_permutation {A} (f g : A -> bool) l l' : (forall x, In x l -> f x = g x) -> Permutation l l' ->
  Permutation (List.filter f l) (List.filter g l').
Proof.
  intros HE HP. assert (List.filter f l = List.filter g l) as ->.
  { clear HP. induction l as [|x l IH]; simpl; [done|]. rewrite HE by by left. rewrite IH; [done|]. intros; apply HE; by right. }
  clear HE. induction HP; simpl; repeat case_match; eauto using Permutation.
Qed.
Lemma existsb_forall {A} (f : A -> bool) l : existsb f l = false -> forall x, In x l -> f x = false.
Proof. intros H x Hx. apply not_true_iff_false. intros E. rewrite <- not_true_iff_false in H. apply H, existsb_exists. eauto. Qed.
Lemma nodup_map_inj {A B} (f : A -> B) l x y : NoDup (map f l) -> In x l -> In y l -> f x = f y -> x = y.
Proof.
  induction l as [|a l IH]; [done|]. simpl. rewrite NoDup_cons. intros [HN HD].
  assert (forall z, In z l -> f a <> f z) as Hne.
  { intros z Hz E. apply HN. rewrite E. apply list_elem_of_In. by apply in_map. }
  intros [->|Hx] [->|Hy] E; try done; [by destruct (Hne _ Hy)|by destruct (Hne _ Hx)|auto].
Qed.

(** ** Strings in Go's bytewise order *)

Lemma ascii_compare_lt_trans a b c :
  Ascii.compare a b = Lt -> Ascii.compare b c = Lt -> Ascii.compare a c = Lt.
Proof. unfold Ascii.compare. rewrite !N.compare_lt_iff. lia. Qed.

Lemma str_compare_refl s : String.compare s s = Eq.
Proof.
  induction s as [|a s IH]; [done|]. simpl.
  replace (Ascii.compare a a) with Eq; [done|]. symmetry. apply N.compare_refl.
Qed.

Lemma str_compare_lt_trans a b c :
  String.compare a b = Lt -> String.compare b c = Lt -> String.compare a c = Lt.
Proof.
  revert b c. induction a as [|x a IH]; intros [|y b] [|z c]; simpl; try done.
  destruct (Ascii.compare x y) eqn:Exy; [| |done].
  - apply Ascii.compare_eq_iff in Exy as ->. destruct (Ascii.compare y z) eqn:Eyz; eauto; done.
  - destruct (Ascii.compare y z) eqn:Eyz; intros _ H; [| |done].
    + apply Ascii.compare_eq_iff in Eyz as ->. by rewrite Exy.
    + by rewrite (ascii_compare_lt_trans _ _ _ Exy Eyz).
Qed.

Lemma str_leb_trans a b c :
  (a <=? b)%string = true -> (b <=? c)%string = true -> (a <=? c)%string = true.
Proof.
  unfold String.leb.
  destruct (String.compare a b) eqn:E1; [| |done];
  destruct (String.compare b c) eqn:E2; try done; intros _ _.
  - apply String.compare_eq_iff in E1 as ->. by rewrite E2.
  - apply String.compare_eq_iff in E1 as ->. by rewrite E2.
  - apply String.compare_eq_iff in E2 as ->. by rewrite E1.
  - by rewrite (str_compare_lt_trans _ _ _ E1 E2).
Qed.

Lemma str_leb_refl a : (a <=? a)%string = true.
Proof. unfold String.leb. by rewrite str_compare_refl. Qed.

Lemma str_ltb_leb a b : (a <? b)%string = true <-> (a <=? b)%string = true /\ a <> b.
Proof.
  unfold String.ltb, String.leb. destruct (String.compare a b) eqn:E.
  - apply String.compare_eq_iff in E as ->. naive_solver.
  - split; [|done]. intros _. split; [done|]. intros ->. by rewrite str_compare_refl in E.
  - naive_solver.
Qed.

Lemma str_app_cons c s t : (String c s ++ t)%string = String c (s ++ t).
Proof. reflexivity. Qed.
Lemma str_app_nil_l s : ("" ++ s)%string = s.
Proof. reflexivity. Qed.
Lemma str_app_nil_r s : (s ++ "")%string = s.
Proof. induction s as [|c s IH]; [done|]. by rewrite str_app_cons, IH. Qed.
Lemma str_app_assoc s t u : ((s ++ t) ++ u)%string = (s ++ (t ++ u))%string.
Proof. induction s as [|c s IH]; [done|]. by rewrite !str_app_cons, IH. Qed.
Lemma str_app_inj_l s t u : (s ++ t)%string = (s ++ u)%string -> t = u.
Proof. induction s as [|c s IH]; [done|]. rewrite !str_app_cons. intros [= H]. auto. Qed.
Lemma str_app_length s t : String.length (s ++ t) = (String.length s + String.length t)%nat.
Proof. induction s as [|c s IH]; [done|]. rewrite str_app_cons. simpl. by rewrite IH. Qed.

(** ** Sorting: [sort.Strings] and [sort.Slice] *)

Section sorting.
Context {A : Type} (le : A -> A -> bool).

Fixpoint insert_by (x : A) (l : list A) : list A :=
  match l with
  | [] => [x]
  | y :: l' => if le x y then x :: l else y :: insert_by x l'
  end.

(** A stable insertion sort. Go leaves the order of elements that compare
    equal unspecified; this model keeps their input order. *)
Definition sort_by (l : list A) : list A := foldr insert_by [] l.

Lemma insert_by_perm x l : Permutation (insert_by x l) (x :: l).
Proof.
  induction l as [|y l IH]; simpl; [done|]. destruct (le x y); [done|].
  rewrite IH. apply perm_swap.
Qed.

Lemma sort_by_perm l : Permutation (sort_by l) l.
Proof. induction l as [|x l IH]; simpl; [done|]. by rewrite insert_by_perm, IH. Qed.

Lemma sort_by_in x l : In x (sort_by l) <-> In x l.
Proof. split; apply Permutation_in; [|symmetry]; apply sort_by_perm. Qed.

Lemma sort_by_length l : length (sort_by l) = length l.
Proof. apply Permutation_length, sort_by_perm. Qed.

Lemma sort_by_nodup l : NoDup l -> NoDup (sort_by l).
Proof. intros H. by rewrite sort_by_perm. Qed.

Hypothesis le_total : forall x y, le x y = true \/ le y x = true.
Hypothesis le_trans : forall x y z, le x y = true -> le y z = true -> le x z = true.

Lemma insert_by_sorted x l :
  StronglySorted (fun a b => le a b = true) l ->
  StronglySorted (fun a b => le a b = true) (insert_by x l).
Proof.
  induction 1 as [|y l Hs IH Hf]; simpl; [repeat constructor|].
  destruct (le x y) eqn:E.
  - constructor; [by constructor|]. constructor; [done|].
    eapply List.Forall_impl; [|exact Hf]. simpl; eauto.
  - constructor; [done|]. rewrite List.Forall_forall in *. intros z Hz.
    apply (Permutation_in _ (insert_by_perm x l)) in Hz as [<-|Hz]; [|auto].
    destruct (le_total x y); congruence.
Qed.

Lemma sort_by_sorted l : StronglySorted (fun a b => le a b = true) (sort_by l).
Proof. induction l; simpl; [constructor|]. by apply insert_by_sorted. Qed.

Lemma sort_by_id l : StronglySorted (fun a b => le a b = true) l -> sort_by l = l.
Proof.
  induction 1 as [|x l Hs IH Hf]; simpl; [done|]. rewrite IH.
  destruct l as [|y l]; simpl; [done|]. inversion Hf as [|?? Hxy]; subst. by rewrite Hxy.
Qed.

(** Sorted permutations agree where [le] is antisymmetric. *)
Lemma sorted_perm_eq l1 l2 :
  (forall x y, In x l1 -> In y l1 -> le x y = true -> le y x = true -> x = y) ->
  StronglySorted (fun a b => le a b = true) l1 ->
  StronglySorted (fun a b => le a b = true) l2 ->
  Permutation l1 l2 -> l1 = l2.
Proof.
  intros Ha H1. revert l2 Ha. induction H1 as [|x l1 Hs IH Hf]; intros l2 Ha H2 HP.
  { by apply Permutation_nil in HP. }
  destruct H2 as [|y l2 Hs2 Hf2]. { by apply Permutation_sym, Permutation_nil in HP. }
  assert (x = y) as ->.
  { assert (In y (x :: l1)) as Hy by (eapply Permutation_in; [symmetry; exact HP|left; done]).
    assert (In x (y :: l2)) as Hx by (eapply Permutation_in; [exact HP|left; done]).
    destruct Hy as [|Hy]; [done|]. destruct Hx as [|Hx]; [done|].
    rewrite List.Forall_forall in Hf, Hf2. apply Ha; simpl; auto. }
  f_equal. apply IH; [|done|by eapply Permutation_cons_inv].
  intros a b Hin1 Hin2. apply Ha; by right.
Qed.

Lemma sort_by_perm_eq l1 l2 :
  (forall x y, In x l1 -> In y l1 -> le x y = true -> le y x = true -> x = y) ->
  Permutation l1 l2 -> sort_by l1 = sort_by l2.
Proof.
  intros Ha HP. apply sorted_perm_eq.
  - intros x y Hx Hy. apply Ha; by apply sort_by_in.
  - apply sort_by_sorted.
  - apply sort_by_sorted.
  - by rewrite !sort_by_perm.
Qed.
End sorting.

(** [sort.Strings] *)
Definition sort_strings : list string -> list string := sort_by String.leb.
(** [sort.Slice] with a comparison of string keys. *)
Definition sort_by_key {A} (key : A -> string) : list A -> list A :=
  sort_by (fun a b => (key a <=? key b)%string).

Lemma sort_strings_perm l : Permutation (sort_strings l) l.
Proof. apply sort_by_perm. Qed.
Lemma sort_strings_in x l : In x (sort_strings l) <-> In x l.
Proof. apply sort_by_in. Qed.
Lemma sort_strings_sorted l : StronglySorted (fun a b => (a <=? b)%string = true) (sort_strings l).
Proof. apply sort_by_sorted; [apply String.leb_total | apply str_leb_trans]. Qed.
Lemma sort_strings_perm_eq l1 l2 : Permutation l1 l2 -> sort_strings l1 = sort_strings l2.
Proof.
  apply sort_by_perm_eq; [apply String.leb_total | apply str_leb_trans |].
  intros; by apply String.leb_antisym.
Qed.

Section sort_by_key.
Context {A : Type} (key : A -> string).
Lemma sort_by_key_perm l : Permutation (sort_by_key key l) l.
Proof. apply sort_by_perm. Qed.
Lemma sort_by_key_in x l : In x (sort_by_key key l) <-> In x l.
Proof. apply sort_by_in. Qed.
Lemma sort_by_key_sorted l :
  StronglySorted (fun a b => (key a <=? key b)%string = true) (sort_by_key key l).
Proof.
  apply sort_by_sorted; [intros; apply String.leb_total |].
  intros x y z. apply str_leb_trans.
Qed.
Lemma sort_by_key_perm_eq l1 l2 :
  (forall x y, In x l1 -> In y l1 -> key x = key y -> x = y) ->
  Permutation l1 l2 -> sort_by_key key l1 = sort_by_key key l2.
Proof.
  intros Hinj. apply sort_by_perm_eq.
  - intros; apply String.leb_total.
  - intros x y z. apply str_leb_trans.
  - intros x y Hx Hy H1 H2. apply Hinj; try done. by apply String.leb_antisym.
Qed.
End sort_by_key.

#[export] Hint Resolve sort_strings_perm sort_strings_sorted sort_by_key_perm sort_by_key_sorted : govpc.
#[export] Hint Rewrite sort_strings_in @sort_by_key_in : govpc.

(** ** Entries told apart by a key *)

(** [f] tells the entries of a map apart. *)
Definition tells_apart {V} (f : string -> V -> string) (m : gmap string V) : Prop :=
  forall k1 k2 v1 v2, m !! k1 = Some v1 -> m !! k2 = Some v2 -> f k1 v1 = f k2 v2 -> k1 = k2.

Lemma tells_apart_insert {V} (f g : string -> V -> string) (m : gmap string V) k v : m !! k = None ->
  tells_apart f m -> (forall k' v', m !! k' = Some v' -> g k' v' = f k' v') ->
  (forall k' v', m !! k' = Some v' -> f k' v' <> g k v) -> tells_apart g (<[k := v]> m).
Proof.
  intros Hk HT Hg Hf k1 k2 v1 v2 H1 H2 E.
  apply lookup_insert_Some in H1 as [[<- <-]|[N1 H1]]; apply lookup_insert_Some in H2 as [[<- <-]|[N2 H2]]; try done.
  - rewrite (Hg _ _ H2) in E. by destruct (Hf _ _ H2).
  - rewrite (Hg _ _ H1) in E. by destruct (Hf _ _ H1).
  - rewrite (Hg _ _ H1), (Hg _ _ H2) in E. by eapply HT.
Qed.

(** The entries of [l] have distinct keys [f] outside [X]. *)
Definition distinct_from {A} (f : A -> string) (X : gset string) (l : list A) : Prop :=
  NoDup (map f l) /\ forall x, In x l -> f x ∉ X.
Lemma distinct_from_cons {A} (f : A -> string) X x l :
  distinct_from f X (x :: l) <-> f x ∉ X /\ distinct_from f ({[f x]} ∪ X) l.
Proof.
  unfold distinct_from. simpl. rewrite NoDup_cons. split.
  - intros [[Hn Hd] Hx]. split; [by apply Hx; left|]. split; [done|]. intros y Hy [E%elem_of_singleton|Hin]%elem_of_union.
    + apply Hn. rewrite <- E. apply list_elem_of_In. by apply in_map.
    + eapply Hx; [by right|done].
  - intros [Hx [Hd Hf]]. split; [split; [|done]|].
    + intros (y & E & Hy)%list_elem_of_In%in_map_iff. apply (Hf y Hy). rewrite E. set_solver.
    + intros y [<-|Hy]; [done|]. intros Hin. apply (Hf y Hy). set_solver.
Qed.
Lemma distinct_from_map {V} (f : string -> V -> string) (m : gmap string V) :
  distinct_from (fun kv => f (fst kv) (snd kv)) ∅ (map_to_list m) <-> tells_apart f m.
Proof.
  split.
  - intros [Hd _] k1 k2 v1 v2 H1 H2 E. apply elem_of_map_to_list, list_elem_of_In in H1, H2.
    pose proof (nodup_map_inj _ _ _ _ Hd H1 H2 E). congruence.
  - intros HT. split; [|set_solver]. apply NoDup_fmap_2_strong; [|apply NoDup_map_to_list].
    intros [k1 v1] [k2 v2] H1%elem_of_map_to_list H2%elem_of_map_to_list E.
    assert (k1 = k2) as -> by (by eapply HT). congruence.
Qed.

(** ** Maps filled by a loop *)

Section fill.
Context {A V : Type} (k : A -> string) (v : A -> V).
Definition fill (l : list A) (m : gmap string V) : gmap string V := fold_left (fun m r => <[k r := v r]> m) l m.
Lemma fill_Some l m key x : fill l m !! key = Some x ->
  (exists r, In r l /\ k r = key /\ v r = x) \/ (m !! key = Some x /\ ~ In key (map k l)).
Proof.
  revert m. induction l as [|r l IH]; intros m; cbn [fill fold_left]; [by right; split; [|intros []]|].
  intros [(y & ? & ? & ?)|[Hm Hk]]%IH; [left; exists y; split; [by right|done]|].
  apply lookup_insert_Some in Hm as [[E Ev]|[Hne Hm]]; [left; exists r; split; [by left|done]|].
  right. split; [done|]. by intros [E|Hin].
Qed.
Lemma fill_is_Some l m r : In r l -> is_Some (fill l m !! k r).
Proof.
  revert m. assert (forall l m key, is_Some (m !! key) -> is_Some (fill l m !! key)) as HK.
  { intros l0. induction l0 as [|y l0 IH]; intros m key Hm; [done|]. cbn [fill fold_left]. apply IH.
    apply lookup_insert_is_Some. destruct (decide (k y = key)); [by left|by right]. }
  induction l as [|y l IH]; intros m; [done|]. intros [<-|Hin]; cbn [fill fold_left]; [|by apply IH].
  apply HK. rewrite lookup_insert_eq. eauto.
Qed.
Lemma fill_in l m r : NoDup (map k l) -> In r l -> fill l m !! k r = Some (v r).
Proof.
  intros HD Hin. destruct (fill_is_Some l m r Hin) as [x Hx]. rewrite Hx. f_equal.
  destruct (fill_Some _ _ _ _ Hx) as [(y & Hy & E & <-)|[_ Hk]].
  - by rewrite (nodup_map_inj k l y r HD Hy Hin E).
  - destruct Hk. by apply in_map.
Qed.
End fill.
