(* ===== verification/GoStd.v ===== *)
(** * The parts of Go's standard library the controllers use on strings

    [strings], [strconv], [encoding/hex] and [crypto/sha256], on
    [String.string] read as Go's byte strings. *)
From S2P Require Import Prelude.
Open Scope Z_scope.

(** ** Bytes *)

Definition byte_of (z : Z) : ascii := ascii_of_N (Z.to_N z).
Definition byte_val (c : ascii) : Z := Z.of_N (N_of_ascii c).
Definition ch (s : string) : ascii := match s with String c _ => c | EmptyString => zero end.

Lemma byte_val_range c : 0 <= byte_val c < 256.
Proof. unfold byte_val. pose proof (N_ascii_bounded c). lia. Qed.
Lemma byte_of_val c : byte_of (byte_val c) = c.
Proof. unfold byte_of, byte_val. rewrite N2Z.id. apply ascii_N_embedding. Qed.
Lemma byte_val_of z : 0 <= z < 256 -> byte_val (byte_of z) = z.
Proof. intros. unfold byte_of, byte_val. rewrite N_ascii_embedding; lia. Qed.

Fixpoint bytes_of (s : string) : list Z :=
  match s with EmptyString => [] | String c s => byte_val c :: bytes_of s end.
Fixpoint string_of_bytes (l : list Z) : string :=
  match l with [] => EmptyString | b :: l => String (byte_of b) (string_of_bytes l) end.

(** ** [strings] *)

(** [strings.IndexByte] and the two halves around the first/last match. *)
Fixpoint cut_byte (c : ascii) (s : string) : option (string * string) :=
  match s with
  | EmptyString => None
  | String a s' =>
      if Ascii.eqb a c then Some (EmptyString, s')
      else match cut_byte c s' with
           | Some (l, r) => Some (String a l, r)
           | None => None
           end
  end.
Fixpoint cut_last_byte (c : ascii) (s : string) : option (string * string) :=
  match s with
  | EmptyString => None
  | String a s' =>
      match cut_last_byte c s' with
      | Some (l, r) => Some (String a l, r)
      | None => if Ascii.eqb a c then Some (EmptyString, s') else None
      end
  end.

Fixpoint HasPrefix (s prefix : string) {struct prefix} : bool :=
  match prefix, s with
  | EmptyString, _ => true
  | String p prefix, String c s => Ascii.eqb p c && HasPrefix s prefix
  | String _ _, EmptyString => false
  end.
Fixpoint drop (n : nat) (s : string) : string :=
  match n, s with
  | O, _ => s
  | S n, String _ s => drop n s
  | S _, EmptyString => EmptyString
  end.
Definition TrimPrefix (s prefix : string) : string :=
  if HasPrefix s prefix then drop (String.length prefix) s else s.
Definition HasSuffix (s suffix : string) : bool :=
  (String.length suffix <=? String.length s)%nat &&
  (drop (String.length s - String.length suffix) s =? suffix)%string.

(** [strings.TrimSpace] on ASCII input: tab, LF, VT, FF, CR and space. *)
Definition is_space (c : ascii) : bool :=
  let n := byte_val c in (n =? 32) || ((9 <=? n) && (n <=? 13)).
Fixpoint trim_left (s : string) : string :=
  match s with
  | String c s' => if is_space c then trim_left s' else s
  | EmptyString => EmptyString
  end.
Fixpoint trim_right (s : string) : string :=
  match s with
  | String c s' =>
      match trim_right s' with
      | EmptyString => if is_space c then EmptyString else String c EmptyString
      | r => String c r
      end
  | EmptyString => EmptyString
  end.
Definition TrimSpace (s : string) : string := trim_right (trim_left s).

Fixpoint Join (sep : string) (l : list string) : string :=
  match l with
  | [] => ""
  | [a] => a
  | a :: l => a ++ sep ++ Join sep l
  end%string.

(** Text without a slash, as Kubernetes names and UIDs are. *)
Fixpoint no_slash (s : string) : bool :=
  match s with EmptyString => true | String c s => negb (Ascii.eqb c "/") && no_slash s end.

Lemma slash_inj a b s t : no_slash a = true -> no_slash b = true ->
  (a ++ "/" ++ s)%string = (b ++ "/" ++ t)%string -> a = b /\ s = t.
Proof.
  revert b. induction a as [|c a IH]; intros [|d b]; rewrite ?str_app_cons, ?str_app_nil_l; cbn [no_slash].
  - by intros _ _ [= ->].
  - intros _ Hb [= <- _]. done.
  - intros Ha _ [= -> _]. done.
  - intros [_ Ha]%andb_true_iff [_ Hb]%andb_true_iff [= -> E].
    by destruct (IH b Ha Hb E) as [-> ->].
Qed.
Lemma cut_slash s a b : cut_byte "/" s = Some (a, b) <-> s = (a ++ "/" ++ b)%string /\ no_slash a = true.
Proof.
  revert a. induction s as [|c s IH]; intros a; cbn [cut_byte].
  - split; [done|]. intros [E _]. by destruct a.
  - destruct (Ascii.eqb c "/") eqn:Ec.
    + apply Ascii.eqb_eq in Ec as ->. split; [by intros [= <- <-]|]. intros [E Hn]. destruct a as [|d a].
      { change ("" ++ "/" ++ b)%string with (String "/" b) in E. by injection E as ->. }
      rewrite (str_app_cons d a) in E. injection E as <- _. done.
    + split.
      * destruct (cut_byte "/" s) as [[l r]|] eqn:El; [|done]. intros [= <- <-]. destruct (proj1 (IH l) eq_refl) as [-> Hn].
        rewrite (str_app_cons c l). cbn [no_slash]. by rewrite Ec.
      * intros [E Hn]. destruct a as [|d a]; [change ("" ++ "/" ++ b)%string with (String "/" b) in E; by injection E as -> _|]. rewrite (str_app_cons d a) in E. injection E as <- ->.
        cbn [no_slash] in Hn. apply andb_true_iff in Hn as [_ Hn]. by rewrite (proj2 (IH a) (conj eq_refl Hn)).
Qed.
Lemma cut_slash_none s : cut_byte "/" s = None <-> no_slash s = true.
Proof.
  induction s as [|c s IH]; cbn [cut_byte no_slash]; [done|]. destruct (Ascii.eqb c "/"); [done|]. simpl.
  rewrite <- IH. destruct (cut_byte "/" s) as [[]|]; split; congruence.
Qed.
Lemma HasPrefix_spec s p : HasPrefix s p = true <-> exists t, s = (p ++ t)%string.
Proof.
  revert s. induction p as [|c p IH]; intros s; simpl; [split; eauto|].
  destruct s as [|d s]; [split; [done|intros (t & E); by rewrite str_app_cons in E]|].
  rewrite andb_true_iff, Ascii.eqb_eq, IH. split.
  - intros [<- (t & ->)]. by exists t.
  - intros (t & E). rewrite str_app_cons in E. injection E as <- ->. eauto.
Qed.

(** Text of 7-bit bytes only, as names, UIDs and addresses are. *)
Definition ascii7 (c : ascii) : bool := byte_val c <? 128.
Fixpoint ascii_only (s : string) : bool :=
  match s with EmptyString => true | String c s => ascii7 c && ascii_only s end.

(** ** [strconv] *)

Definition digit (d : Z) : ascii := byte_of (48 + d).
Definition is_digit (c : ascii) : bool := (48 <=? byte_val c) && (byte_val c <=? 57).
Definition digit_val (c : ascii) : Z := byte_val c - 48.

(** [strconv.Itoa]/[FormatInt(_, 10)]/[FormatUint(_, 10)]; the fuel is the bit
    length, which is at least the number of decimal digits. *)
Fixpoint dec_digits (fuel : nat) (n : Z) (acc : string) : string :=
  match fuel with
  | O => acc
  | S f =>
      let acc' := String (digit (n mod 10)) acc in
      if n <? 10 then acc' else dec_digits f (n / 10) acc'
  end.
Definition utoa (n : Z) : string := dec_digits (S (Z.to_nat (Z.log2 n))) n "".
Definition Itoa (n : Z) : string := if n <? 0 then ("-" ++ utoa (- n))%string else utoa n.

Fixpoint parse_digits (s : string) (acc : Z) : option Z :=
  match s with
  | EmptyString => Some acc
  | String c s => if is_digit c then parse_digits s (acc * 10 + digit_val c) else None
  end.
(** [strconv.ParseUint(s, 10, bits)] *)
Definition ParseUint (s : string) (bits : Z) : option Z :=
  match s with
  | EmptyString => None
  | _ => match parse_digits s 0 with
         | Some n => if n <? 2 ^ bits then Some n else None
         | None => None
         end
  end.
(** [strconv.ParseInt(s, 10, 64)] and [strconv.Atoi] (64-bit [int]). *)
Definition ParseInt (s : string) : option Z :=
  let '(neg, u) := match s with
                   | String "-" u => (true, u)
                   | String "+" u => (false, u)
                   | _ => (false, s)
                   end%char in
  match ParseUint u 64 with
  | Some n => if neg then if n <=? 2 ^ 63 then Some (- n) else None
              else if n <? 2 ^ 63 then Some n else None
  | None => None
  end.
Definition Atoi := ParseInt.

(** [ParseInt] splits the sign by a dependent match on the first byte; these
    lemmas give the two readings the code uses. *)
Lemma digit_is_digit d : 0 <= d < 10 -> is_digit (digit d) = true /\ digit_val (digit d) = d.
Proof.
  intros. unfold is_digit, digit_val, digit. rewrite byte_val_of by lia.
  split; [apply andb_true_iff; split; apply Z.leb_le; lia | lia].
Qed.

(** Value of a digit string read before [acc]'s digits, weighted. *)
Lemma parse_dec_digits fuel n acc base :
  0 <= n -> n < 2 ^ Z.of_nat fuel ->
  exists w, 0 <= w /\ (n < 10 ^ w) /\
  parse_digits (dec_digits fuel n acc) base = parse_digits acc (base * 10 ^ w + n).
Proof.
  revert n acc base. induction fuel as [|f IH]; intros n acc base H0 H1.
  { exists 0. simpl in *. assert (n = 0) as -> by lia. repeat split; try lia.
    f_equal. simpl. lia. }
  simpl. destruct (digit_is_digit (n mod 10)) as [Hd Hv].
  { apply Z.mod_pos_bound. lia. }
  destruct (n <? 10) eqn:E; breflect.
  - exists 1. rewrite Z.mod_small in * by lia. repeat split; try lia.
    simpl. rewrite Hd, Hv. f_equal; lia.
  - destruct (IH (n / 10) (String (digit (n mod 10)) acc) base) as (w & Hw & Hlt & Hp).
    + apply Z.div_pos; lia.
    + rewrite Nat2Z.inj_succ, Z.pow_succ_r in H1 by lia.
      apply Z.div_lt_upper_bound; lia.
    + exists (w + 1). rewrite Z.pow_add_r by lia.
      pose proof (Z.div_mod n 10 ltac:(lia)). pose proof (Z.mod_pos_bound n 10 ltac:(lia)).
      repeat split; try lia. rewrite Hp. simpl. rewrite Hd, Hv. f_equal. lia.
Qed.

Lemma parse_utoa n : 0 <= n -> parse_digits (utoa n) 0 = Some n.
Proof.
  intros Hn. unfold utoa.
  destruct (parse_dec_digits (S (Z.to_nat (Z.log2 n))) n "" 0) as (w & _ & _ & ->); [done| |done].
  rewrite Nat2Z.inj_succ, Z2Nat.id by apply Z.log2_nonneg.
  destruct (Z.eq_dec n 0) as [->|]; [done|]. apply Z.log2_spec. lia.
Qed.

Lemma dec_digits_head fuel n acc :
  0 <= n -> exists c s, dec_digits (S fuel) n acc = String c s /\ is_digit c = true.
Proof.
  revert n acc. induction fuel as [|f IH]; intros n acc Hn; simpl.
  - destruct (n <? 10); do 2 eexists; (split; [done|]); apply digit_is_digit, Z.mod_pos_bound; lia.
  - destruct (n <? 10).
    + do 2 eexists; (split; [done|]); apply digit_is_digit, Z.mod_pos_bound; lia.
    + apply IH. apply Z.div_pos; lia.
Qed.

Lemma utoa_head n : 0 <= n -> exists c s, utoa n = String c s /\ is_digit c = true.
Proof. apply dec_digits_head. Qed.

Fixpoint all_digits (s : string) : bool :=
  match s with EmptyString => true | String c s => is_digit c && all_digits s end.
Lemma all_digits_dec fuel n acc :
  0 <= n -> all_digits acc = true -> all_digits (dec_digits fuel n acc) = true.
Proof.
  revert n acc. induction fuel as [|f IH]; intros n acc Hn Ha; [done|]. cbn [dec_digits].
  assert (all_digits (String (digit (n mod 10)) acc) = true) as Ha'.
  { simpl. rewrite Ha, andb_true_r. apply digit_is_digit, Z.mod_pos_bound. lia. }
  destruct (n <? 10); [done|]. apply IH; [apply Z.div_pos; lia|done].
Qed.
Lemma all_digits_utoa n : 0 <= n -> all_digits (utoa n) = true.
Proof. intros. by apply all_digits_dec. Qed.

Lemma ParseUint_utoa n bits : 0 <= n < 2 ^ bits -> ParseUint (utoa n) bits = Some n.
Proof.
  intros [H0 H1]. unfold ParseUint. destruct (utoa_head n H0) as (c & s & E & _).
  rewrite E, <- E, parse_utoa by done. by apply Z.ltb_lt in H1 as ->.
Qed.

Lemma ParseUint_range s bits n : ParseUint s bits = Some n -> 0 <= n < 2 ^ bits.
Proof.
  assert (forall s acc n, 0 <= acc -> parse_digits s acc = Some n -> 0 <= n) as Hpos.
  { induction s0 as [|c s0 IH]; simpl; intros acc m Ha H; [by simplify_eq|].
    destruct (is_digit c) eqn:E; [|done]. unfold is_digit in E. breflect.
    eapply IH; [|done]. unfold digit_val. lia. }
  unfold ParseUint. destruct s; [done|]. intros H.
  destruct (parse_digits _ 0) eqn:E; [|done]. destruct (z <? 2 ^ bits) eqn:E2; [|done].
  breflect. simplify_eq. split; [|done]. eapply Hpos; [|done]. done.
Qed.

Lemma ParseInt_utoa n : 0 <= n < 2 ^ 63 -> ParseInt (utoa n) = Some n.
Proof.
  intros Hn. unfold ParseInt. destruct (utoa_head n ltac:(lia)) as (c & s & E & Hc).
  assert ((match utoa n with
           | String "-" u => (true, u) | String "+" u => (false, u) | _ => (false, utoa n)
           end%char) = (false, utoa n)) as ->.
  { rewrite E. unfold is_digit in Hc. breflect.
    destruct c as [[] [] [] [] [] [] [] []]; try done; exfalso; vm_compute in *; congruence. }
  rewrite ParseUint_utoa by lia. by destruct Hn as [_ H%Z.ltb_lt]; rewrite H.
Qed.

Lemma ParseInt_Itoa n : 0 <= n < 2 ^ 63 -> ParseInt (Itoa n) = Some n.
Proof. intros Hn. unfold Itoa. replace (n <? 0) with false by (symmetry; apply Z.ltb_ge; lia). by apply ParseInt_utoa. Qed.

Lemma ParseUint_Itoa n bits : 0 <= n < 2 ^ bits -> ParseUint (Itoa n) bits = Some n.
Proof. intros Hn. unfold Itoa. replace (n <? 0) with false by (symmetry; apply Z.ltb_ge; lia). by apply ParseUint_utoa. Qed.

Lemma utoa_inj m n : 0 <= m -> 0 <= n -> utoa m = utoa n -> m = n.
Proof. intros Hm Hn E. pose proof (parse_utoa m Hm). rewrite E, parse_utoa in H by done. congruence. Qed.

Lemma Itoa_inj a b : Itoa a = Itoa b -> a = b.
Proof.
  assert (forall n m, 0 <= n -> utoa n = ("-" ++ utoa m)%string -> False) as HM.
  { intros n m Hn E. destruct (utoa_head n Hn) as (c & s & E' & Hc). rewrite E', str_app_cons in E.
    injection E as -> _. done. }
  unfold Itoa. destruct (a <? 0) eqn:Ea, (b <? 0) eqn:Eb; breflect; intros E.
  - apply str_app_inj_l in E. apply utoa_inj in E; lia.
  - exfalso. symmetry in E. by apply HM in E.
  - exfalso. by apply HM in E.
  - by apply utoa_inj in E.
Qed.

(** ** [encoding/hex] *)

Definition hex_digit (d : Z) : ascii := if d <? 10 then byte_of (48 + d) else byte_of (87 + d).
Definition hex_byte (b : Z) : string :=
  String (hex_digit (Z.shiftr b 4)) (String (hex_digit (Z.land b 15)) EmptyString).
Fixpoint hex_encode (l : list Z) : string :=
  match l with [] => "" | b :: l => (hex_byte b ++ hex_encode l)%string end.
Definition is_hex (c : ascii) : bool :=
  is_digit c || ((97 <=? byte_val c) && (byte_val c <=? 102))
             || ((65 <=? byte_val c) && (byte_val c <=? 70)).
(** [hex.DecodeString] succeeds. *)
Fixpoint hex_ok (s : string) : bool :=
  match s with
  | EmptyString => true
  | String a (String b s) => is_hex a && is_hex b && hex_ok s
  | _ => false
  end.

(** ** [crypto/sha256] *)

Module SHA256.

Definition w32 (z : Z) : Z := Z.land z (Z.ones 32).
Definition add32 (a b : Z) : Z := w32 (a + b).
Definition rotr (x n : Z) : Z := w32 (Z.lor (Z.shiftr x n) (Z.shiftl x (32 - n))).

Definition K : list Z :=
  [1116352408; 1899447441; 3049323471; 3921009573; 961987163; 1508970993; 2453635748; 2870763221;
   3624381080; 310598401; 607225278; 1426881987; 1925078388; 2162078206; 2614888103; 3248222580;
   3835390401; 4022224774; 264347078; 604807628; 770255983; 1249150122; 1555081692; 1996064986;
   2554220882; 2821834349; 2952996808; 3210313671; 3336571891; 3584528711; 113926993; 338241895;
   666307205; 773529912; 1294757372; 1396182291; 1695183700; 1986661051; 2177026350; 2456956037;
   2730485921; 2820302411; 3259730800; 3345764771; 3516065817; 3600352804; 4094571909; 275423344;
   430227734; 506948616; 659060556; 883997877; 958139571; 1322822218; 1537002063; 1747873779;
   1955562222; 2024104815; 2227730452; 2361852424; 2428436474; 2756734187; 3204031479; 3329325298].
Definition H0 : list Z :=
  [1779033703; 3144134277; 1013904242; 2773480762; 1359893119; 2600822924; 528734635; 1541459225].

Definition be32 (l : list Z) : Z := fold_left (fun a b => a * 256 + b) l 0.
Definition be_bytes (n : nat) (z : Z) : list Z :=
  map (fun i => Z.land (Z.shiftr z (8 * Z.of_nat i)) 255) (rev (seq 0 n)).

Definition pad (msg : list Z) : list Z :=
  let n := List.length msg in
  msg ++ [128] ++ List.repeat 0 (Z.to_nat ((55 - Z.of_nat n) mod 64)) ++ be_bytes 8 (8 * Z.of_nat n).

Fixpoint chunks (fuel k : nat) (l : list Z) : list (list Z) :=
  match fuel, l with
  | S f, _ :: _ => firstn k l :: chunks f k (skipn k l)
  | _, _ => []
  end.

(** The message schedule, most recent word first. *)
Fixpoint schedule (n : nat) (w : list Z) : list Z :=
  match n with
  | O => w
  | S n =>
      let at_ i := nth i w 0 in
      let s0 := let x := at_ 14%nat in Z.lxor (Z.lxor (rotr x 7) (rotr x 18)) (Z.shiftr x 3) in
      let s1 := let x := at_ 1%nat in Z.lxor (Z.lxor (rotr x 17) (rotr x 19)) (Z.shiftr x 10) in
      schedule n (w32 (at_ 15%nat + s0 + at_ 6%nat + s1) :: w)
  end.

Definition round (st : list Z) (kw : Z * Z) : list Z :=
  match st with
  | [a; b; c; d; e; f; g; h] =>
      let S1 := Z.lxor (Z.lxor (rotr e 6) (rotr e 11)) (rotr e 25) in
      let cho := Z.lxor (Z.land e f) (Z.land (Z.lxor e (Z.ones 32)) g) in
      let t1 := w32 (h + S1 + cho + fst kw + snd kw) in
      let S0 := Z.lxor (Z.lxor (rotr a 2) (rotr a 13)) (rotr a 22) in
      let maj := Z.lxor (Z.lxor (Z.land a b) (Z.land a c)) (Z.land b c) in
      [w32 (t1 + w32 (S0 + maj)); a; b; c; add32 d t1; e; f; g]
  | _ => st
  end.

Definition block (h : list Z) (bs : list Z) : list Z :=
  let w := rev (schedule 48 (rev (map be32 (chunks 16 4 bs)))) in
  map (fun '(a, b) => add32 a b) (combine h (fold_left round (combine K w) h)).

Definition sum (msg : list Z) : list Z :=
  let p := pad msg in
  concat (map (be_bytes 4) (fold_left block (chunks (List.length p) 64 p) H0)).

End SHA256.

(** [hex.EncodeToString(sha256.Sum256([]byte(s))[:])] *)
Definition sha256_hex (s : string) : string := hex_encode (SHA256.sum (bytes_of s)).
(** Go's slice expression [s[:n]]. *)
Definition take (n : nat) (s : string) : string := String.substring 0 n s.

Arguments utoa : simpl never.
Arguments Itoa : simpl never.
Arguments ParseInt : simpl never.
Arguments ParseUint : simpl never.
Arguments sha256_hex : simpl never.
Arguments take : simpl never.

Example sha256_abc :
  sha256_hex "abc" = "ba7816bf8f01cfea414140de5dae2223b00361a396177a9cb410ff61f20015ad"%string.
Proof. vm_compute. reflexivity. Qed.
Example sha256_two_blocks :
  sha256_hex "abcdbcdecdefdefgefghfghighijhijkijkljklmklmnlmnomnopnopq" =
  "248d6a61d20638b8e5c026930c3e6039a33ce45964ff2167f6ecedd419db06c1"%string.
Proof. vm_compute. reflexivity. Qed.
