(* ===== verification/Json.v ===== *)
(** * [encoding/json]

    Values, [json.Marshal] of the integer/string/array/object data the controllers
    persist and hash, and the parser behind [json.Unmarshal]. Numbers keep their
    literal text, objects their members in order. *)
From S2P Require Import Prelude GoStd.
Open Scope Z_scope.

Inductive json :=
| JNull
| JBool (b : bool)
| JNum (lit : string)
| JStr (s : string)
| JArr (l : list json)
| JObj (l : list (string * json)).

Definition JInt (z : Z) : json := JNum (Itoa z).

(** ** UTF-8 *)

Definition in_range (lo hi : Z) (c : ascii) : bool := (lo <=? byte_val c) && (byte_val c <=? hi).
Definition cont := in_range 128 191.
(** Length of the valid multi-byte rune starting with [c], [0] if there is none
    ([utf8.DecodeRune] then reports [RuneError] with width 1). *)
Definition rune_len (c : ascii) (s : string) : nat :=
  match s with
  | String c1 s1 =>
      if in_range 194 223 c then (if cont c1 then 2 else 0)
      else match s1 with
           | String c2 s2 =>
               if (in_range 224 224 c && in_range 160 191 c1 && cont c2) ||
                  ((in_range 225 236 c || in_range 238 239 c) && cont c1 && cont c2) ||
                  (in_range 237 237 c && in_range 128 159 c1 && cont c2) then 3
               else match s2 with
                    | String c3 _ =>
                        if (in_range 240 240 c && in_range 144 191 c1 && cont c2 && cont c3) ||
                           (in_range 241 243 c && cont c1 && cont c2 && cont c3) ||
                           (in_range 244 244 c && in_range 128 143 c1 && cont c2 && cont c3) then 4 else 0
                    | EmptyString => 0
                    end
           | EmptyString => 0
           end
  | EmptyString => 0
  end%nat.

(** ** [json.Marshal] *)

Definition quote_char : ascii := Ascii.ascii_of_nat 34.
Definition backslash : ascii := Ascii.ascii_of_nat 92.
Definition esc2 (c : ascii) : string := String backslash (String c EmptyString).
(** One ASCII byte of a JSON string, with HTML escaping on. *)
Definition escape (c : ascii) : string :=
  let n := byte_val c in
  if (n =? 34) || (n =? 92) then esc2 c
  else if n =? 8 then esc2 "b" else if n =? 12 then esc2 "f"
  else if n =? 10 then esc2 "n" else if n =? 13 then esc2 "r" else if n =? 9 then esc2 "t"
  else if (n <? 32) || (n =? 60) || (n =? 62) || (n =? 38)
       then (esc2 "u" ++ "00" ++ hex_byte n)%string
  else String c EmptyString.

(** [skip] bytes of the current multi-byte rune are still to be copied or dropped. *)
Fixpoint quote_body (skip : nat) (copy : bool) (s : string) : string :=
  match s with
  | EmptyString => EmptyString
  | String c s' =>
      match skip with
      | S k => if copy then String c (quote_body k copy s') else quote_body k copy s'
      | O =>
          if ascii7 c then (escape c ++ quote_body 0 true s')%string
          else match rune_len c s' with
               | S n =>
                   let sep := match s' with
                              | String c1 (String c2 _) =>
                                  if (byte_val c =? 226) && (byte_val c1 =? 128) && in_range 168 169 c2
                                  then Some c2 else None
                              | _ => None
                              end in
                   match sep with
                   | Some c2 => (esc2 "u" ++ "202" ++ String (hex_digit (Z.land (byte_val c2) 15)) (quote_body n false s'))%string
                   | None => String c (quote_body n true s')
                   end
               | O => (esc2 "u" ++ "fffd" ++ quote_body 0 true s')%string
               end
      end
  end.
Definition quote (s : string) : string :=
  String quote_char (quote_body 0 true s ++ String quote_char EmptyString).

Fixpoint Marshal (j : json) : string :=
  match j with
  | JNull => "null"
  | JBool b => if b then "true" else "false"
  | JNum lit => lit
  | JStr s => quote s
  | JArr l =>
      "[" ++ (fix go l := match l with
                          | [] => ""
                          | [x] => Marshal x
                          | x :: l => Marshal x ++ "," ++ go l
                          end) l ++ "]"
  | JObj l =>
      "{" ++ (fix go l := match l with
                          | [] => ""
                          | [(k, x)] => quote k ++ ":" ++ Marshal x
                          | (k, x) :: l => quote k ++ ":" ++ Marshal x ++ "," ++ go l
                          end) l ++ "}"
  end%string.

(** ** [json.Unmarshal]: the parser *)

Definition hex4 (a b c d : ascii) : option Z :=
  let h x := let n := byte_val x in
             if is_digit x then Some (n - 48) else if in_range 97 102 x then Some (n - 87)
             else if in_range 65 70 x then Some (n - 55) else None in
  match h a, h b, h c, h d with
  | Some a, Some b, Some c, Some d => Some (((a * 16 + b) * 16 + c) * 16 + d)
  | _, _, _, _ => None
  end.
Definition utf8_encode (r : Z) : list Z :=
  if r <? 128 then [r]
  else if r <? 2048 then [192 + Z.shiftr r 6; 128 + Z.land r 63]
  else if r <? 65536 then [224 + Z.shiftr r 12; 128 + Z.land (Z.shiftr r 6) 63; 128 + Z.land r 63]
  else [240 + Z.shiftr r 18; 128 + Z.land (Z.shiftr r 12) 63; 128 + Z.land (Z.shiftr r 6) 63; 128 + Z.land r 63].
Definition rune (r : Z) : string := string_of_bytes (utf8_encode r).
Definition replacement : Z := 65533.
Definition surrogate (r : Z) : bool := (55296 <=? r) && (r <? 57344).
(** [utf16.DecodeRune]: a high surrogate followed by a low one. *)
Definition decode_pair (r1 r2 : Z) : option Z :=
  if (55296 <=? r1) && (r1 <? 56320) && (56320 <=? r2) && (r2 <? 57344)
  then Some ((r1 - 55296) * 1024 + (r2 - 56320) + 65536) else None.

Definition simple_escape (c : ascii) : option ascii :=
  let n := byte_val c in
  if (n =? 34) || (n =? 92) || (n =? 47) then Some c
  else if n =? 98 then Some (byte_of 8) else if n =? 102 then Some (byte_of 12)
  else if n =? 110 then Some (byte_of 10) else if n =? 114 then Some (byte_of 13)
  else if n =? 116 then Some (byte_of 9) else None.

Definition cons_str (p : string) (o : option (string * string)) : option (string * string) :=
  match o with Some (s, r) => Some ((p ++ s)%string, r) | None => None end.

(** The text after an opening quote: the decoded string and what follows the
    closing quote. *)
Fixpoint unquote (skip : nat) (s : string) : option (string * string) :=
  match s with
  | EmptyString => None
  | String c s' =>
      match skip with
      | S k => cons_str (String c EmptyString) (unquote k s')
      | O =>
          if Ascii.eqb c quote_char then Some (EmptyString, s')
          else if Ascii.eqb c backslash then
            match s' with
            | EmptyString => None
            | String e s2 =>
                match simple_escape e with
                | Some x => cons_str (String x EmptyString) (unquote 0 s2)
                | None =>
                    if negb (Ascii.eqb e "u"%char) then None else
                    match s2 with
                    | String a (String b (String c' (String d s3))) =>
                        match hex4 a b c' d with
                        | None => None
                        | Some r =>
                            if surrogate r then
                              match s3 with
                              | String b1 (String u1 (String a2 (String b2 (String c2 (String d2 s4))))) =>
                                  match (if Ascii.eqb b1 backslash && Ascii.eqb u1 "u"%char
                                         then match hex4 a2 b2 c2 d2 with Some r2 => decode_pair r r2 | None => None end
                                         else None) with
                                  | Some x => cons_str (rune x) (unquote 0 s4)
                                  | None => cons_str (rune replacement) (unquote 0 s3)
                                  end
                              | _ => cons_str (rune replacement) (unquote 0 s3)
                              end
                            else cons_str (rune r) (unquote 0 s3)
                        end
                    | _ => None
                    end
                end
            end
          else if byte_val c <? 32 then None
          else if ascii7 c then cons_str (String c EmptyString) (unquote 0 s')
          else match rune_len c s' with
               | S n => cons_str (String c EmptyString) (unquote n s')
               | O => cons_str (rune replacement) (unquote 0 s')
               end
      end
  end.

Definition is_ws (c : ascii) : bool :=
  let n := byte_val c in (n =? 32) || (n =? 9) || (n =? 10) || (n =? 13).
Fixpoint skip_ws (s : string) : string :=
  match s with String c s' => if is_ws c then skip_ws s' else s | EmptyString => s end.

Fixpoint span_digits (s : string) : string * string :=
  match s with
  | String c s' => if is_digit c then let '(d, r) := span_digits s' in (String c d, r) else (EmptyString, s)
  | EmptyString => (EmptyString, EmptyString)
  end.
(** A number literal: sign, integer without leading zeros, fraction, exponent. *)
Definition scan_number (s : string) : option (string * string) :=
  let '(sign, s) := match s with String "-" s' => ("-"%string, s') | _ => (EmptyString, s) end%char in
  let '(int, s) := match s with
                   | String "0" s' => ("0"%string, s')
                   | _ => span_digits s
                   end%char in
  if (int =? "")%string then None else
  let frac := match s with
              | String "." s' => let '(d, r) := span_digits s' in
                                 if (d =? "")%string then None else Some (String "." d, r)
              | _ => Some (EmptyString, s)
              end%char in
  match frac with
  | None => None
  | Some (f, s) =>
      let expo := match s with
                  | String e s' =>
                      if Ascii.eqb e "e"%char || Ascii.eqb e "E"%char then
                        let '(sg, s'') := match s' with
                                          | String "+" t => ("+"%string, t)
                                          | String "-" t => ("-"%string, t)
                                          | _ => (EmptyString, s')
                                          end%char in
                        let '(d, r) := span_digits s'' in
                        if (d =? "")%string then None else Some (String e (sg ++ d), r)
                      else Some (EmptyString, s)
                  | EmptyString => Some (EmptyString, s)
                  end%string in
      match expo with
      | None => None
      | Some (x, s) => Some ((sign ++ int ++ f ++ x)%string, s)
      end
  end.

(** The fuel bounds the nesting plus the number of elements; [Unmarshal] gives
    the length of the text, which every value and separator consumes. *)
Fixpoint parse_value (fuel : nat) (s : string) : option (json * string) :=
  match fuel with
  | O => None
  | S f =>
      match skip_ws s with
      | String c s' =>
          if Ascii.eqb c quote_char then
            match unquote 0 s' with Some (x, r) => Some (JStr x, r) | None => None end
          else if Ascii.eqb c "["%char then
            match skip_ws s' with
            | String "]" r => Some (JArr [], r)
            | _ => match parse_elems f s' with Some (l, r) => Some (JArr l, r) | None => None end
            end%char
          else if Ascii.eqb c "{"%char then
            match skip_ws s' with
            | String "}" r => Some (JObj [], r)
            | _ => match parse_members f s' with Some (l, r) => Some (JObj l, r) | None => None end
            end%char
          else if HasPrefix (String c s') "true" then Some (JBool true, drop 4 (String c s'))
          else if HasPrefix (String c s') "false" then Some (JBool false, drop 5 (String c s'))
          else if HasPrefix (String c s') "null" then Some (JNull, drop 4 (String c s'))
          else match scan_number (String c s') with
               | Some (lit, r) => Some (JNum lit, r)
               | None => None
               end
      | EmptyString => None
      end
  end
with parse_elems (fuel : nat) (s : string) : option (list json * string) :=
  match fuel with
  | O => None
  | S f =>
      match parse_value f s with
      | None => None
      | Some (x, r) =>
          match skip_ws r with
          | String "," r' => match parse_elems f r' with Some (l, r'') => Some (x :: l, r'') | None => None end
          | String "]" r' => Some ([x], r')
          | _ => None
          end%char
      end
  end
with parse_members (fuel : nat) (s : string) : option (list (string * json) * string) :=
  match fuel with
  | O => None
  | S f =>
      match skip_ws s with
      | String q s' =>
          if negb (Ascii.eqb q quote_char) then None else
          match unquote 0 s' with
          | None => None
          | Some (k, r) =>
              match skip_ws r with
              | String ":" r1 =>
                  match parse_value f r1 with
                  | None => None
                  | Some (x, r2) =>
                      match skip_ws r2 with
                      | String "," r3 => match parse_members f r3 with
                                         | Some (l, r4) => Some ((k, x) :: l, r4)
                                         | None => None
                                         end
                      | String "}" r3 => Some ([(k, x)], r3)
                      | _ => None
                      end%char
                  end
              | _ => None
              end%char
          end
      | EmptyString => None
      end
  end.

Definition Unmarshal (s : string) : option json :=
  match parse_value (S (String.length s)) s with
  | Some (j, r) => match skip_ws r with EmptyString => Some j | _ => None end
  | None => None
  end.

Definition dq (s : string) : string := String quote_char (s ++ String quote_char EmptyString).
Example unmarshal_examples :
  map (fun s => option_map Marshal (Unmarshal s))
    ["{}"; " [1, -2.5e+3 ,true,null] "; "[01]"; "{" ++ dq "a" ++ " : " ++ dq "x\u003c\n\ud83d\ude00" ++ "}"; "[1,]"; "x"]%string =
  [Some "{}"; Some "[1,-2.5e+3,true,null]"; None;
   Some ("{" ++ dq "a" ++ ":" ++ dq ("x\u003c\n" ++ string_of_bytes [240; 159; 152; 128]%Z) ++ "}"); None; None]%string.
Proof. vm_compute. reflexivity. Qed.
