(* ===== verification/JsonFacts.v ===== *)
(** * Printing JSON and reading it back

    [Unmarshal (Marshal j) = Some j] for values whose strings are ASCII (names,
    UIDs, addresses, digests) and whose numbers are integers. *)
From S2P Require Import Prelude GoStd Json.
Open Scope Z_scope.

(** The values the controllers print. *)
Fixpoint printable (j : json) : Prop :=
  match j with
  | JNull | JBool _ => True
  | JNum lit => exists z, lit = Itoa z
  | JStr s => ascii_only s = true
  | JArr l => (fix go l := match l with [] => True | x :: l => printable x /\ go l end) l
  | JObj l => (fix go l := match l with
                           | [] => True
                           | (k, x) :: l => ascii_only k = true /\ printable x /\ go l
                           end) l
  end.

Section json_ind.
Variable P : json -> Prop.
Hypothesis Hnull : P JNull.
Hypothesis Hbool : forall b, P (JBool b).
Hypothesis Hnum : forall s, P (JNum s).
Hypothesis Hstr : forall s, P (JStr s).
Hypothesis Harr : forall l, Forall P l -> P (JArr l).
Hypothesis Hobj : forall l, Forall (fun kx => P (snd kx)) l -> P (JObj l).
Fixpoint json_nested_ind (j : json) : P j :=
  match j with
  | JNull => Hnull
  | JBool b => Hbool b
  | JNum s => Hnum s
  | JStr s => Hstr s
  | JArr l => Harr l ((fix go l : Forall P l :=
                         match l with
                         | [] => List.Forall_nil _
                         | x :: l => List.Forall_cons _ _ _ (json_nested_ind x) (go l)
                         end) l)
  | JObj l => Hobj l ((fix go l : Forall (fun kx => P (snd kx)) l :=
                         match l with
                         | [] => List.Forall_nil _
                         | kx :: l => List.Forall_cons _ _ _ (json_nested_ind (snd kx)) (go l)
                         end) l)
  end.
End json_ind.

(** The element and member lists of [Marshal], named. *)
Fixpoint elems_text (l : list json) : string :=
  match l with
  | [] => "" | [x] => Marshal x | x :: l => Marshal x ++ "," ++ elems_text l
  end%string.
Fixpoint members_text (l : list (string * json)) : string :=
  match l with
  | [] => ""
  | [(k, x)] => quote k ++ ":" ++ Marshal x
  | (k, x) :: l => quote k ++ ":" ++ Marshal x ++ "," ++ members_text l
  end%string.
Lemma Marshal_arr l : Marshal (JArr l) = ("[" ++ elems_text l ++ "]")%string.
Proof. reflexivity. Qed.
Lemma Marshal_obj l : Marshal (JObj l) = ("{" ++ members_text l ++ "}")%string.
Proof. reflexivity. Qed.
Lemma printable_arr l : printable (JArr l) <-> Forall printable l.
Proof.
  induction l as [|x l IH]; [split; [constructor|done]|]. simpl in *. rewrite List.Forall_cons_iff. tauto.
Qed.
Lemma printable_obj l :
  printable (JObj l) <-> Forall (fun kx => ascii_only (fst kx) = true /\ printable (snd kx)) l.
Proof.
  induction l as [|[k x] l IH]; [split; [constructor|done]|]. simpl in *. rewrite List.Forall_cons_iff. simpl. tauto.
Qed.

(** ** Strings *)

Lemma unquote_escape c t : ascii7 c = true ->
  unquote 0 (escape c ++ t) = cons_str (String c EmptyString) (unquote 0 t).
Proof. destruct c as [[] [] [] [] [] [] [] []]; intros H; try discriminate H; reflexivity. Qed.

Lemma unquote_body s rest : ascii_only s = true ->
  unquote 0 (quote_body 0 true s ++ String quote_char rest) = Some (s, rest).
Proof.
  induction s as [|c s IH]; [reflexivity|]. cbn [ascii_only quote_body].
  intros [Hc Hs]%andb_true_iff. rewrite Hc, str_app_assoc, unquote_escape, IH by assumption. reflexivity.
Qed.

Lemma unquote_quote s rest : ascii_only s = true ->
  exists t, (quote s ++ rest)%string = String quote_char t /\ unquote 0 t = Some (s, rest).
Proof.
  intros Hs. exists (quote_body 0 true s ++ String quote_char rest)%string. split; [|by apply unquote_body].
  unfold quote. rewrite str_app_cons, str_app_assoc. reflexivity.
Qed.

(** ** Numbers *)

(** What may follow a value inside a container or at the end of the text. *)
Definition stops (s : string) : Prop :=
  match s with
  | EmptyString => True
  | String c _ => c = ","%char \/ c = "]"%char \/ c = "}"%char
  end.

Lemma span_digits_app ds rest : all_digits ds = true -> stops rest -> span_digits (ds ++ rest) = (ds, rest).
Proof.
  intros Hd Hr. induction ds as [|c ds IH].
  - change ("" ++ rest)%string with rest. destruct rest as [|c r]; [reflexivity|].
    cbn [span_digits]. destruct Hr as [->|[->| ->]]; reflexivity.
  - cbn [all_digits] in Hd. apply andb_true_iff in Hd as [Hc Hd].
    rewrite str_app_cons. cbn [span_digits]. by rewrite Hc, IH.
Qed.

Lemma dec_digits_lead fuel n acc : 0 < n < 2 ^ Z.of_nat fuel ->
  exists d s, 1 <= d <= 9 /\ dec_digits fuel n acc = String (digit d) s.
Proof.
  revert n acc. induction fuel as [|f IH]; intros n acc Hn; [simpl in Hn; lia|]. cbn [dec_digits].
  destruct (n <? 10) eqn:E; breflect.
  - exists (n mod 10). rewrite Z.mod_small by lia. eexists. split; [lia|reflexivity].
  - apply IH. rewrite Nat2Z.inj_succ, Z.pow_succ_r in Hn by lia. split.
    + apply Z.div_str_pos. lia.
    + apply Z.div_lt_upper_bound; lia.
Qed.
Lemma utoa_lead n : 0 < n -> exists d s, 1 <= d <= 9 /\ utoa n = String (digit d) s.
Proof.
  intros Hn. apply dec_digits_lead. split; [done|].
  rewrite Nat2Z.inj_succ, Z2Nat.id by apply Z.log2_nonneg. by apply Z.log2_spec.
Qed.

Lemma scan_number_utoa n rest sign : 0 <= n -> stops rest ->
  sign = EmptyString \/ sign = "-"%string ->
  scan_number (sign ++ utoa n ++ rest) = Some (sign ++ utoa n, rest)%string.
Proof.
  intros Hn Hr Hs. unfold scan_number.
  assert (exists d s, 0 <= d <= 9 /\ utoa n = String (digit d) s) as (d & s & Hd & E).
  { destruct (Z.eq_dec n 0) as [->|]; [exists 0, EmptyString; split; [lia|reflexivity]|].
    destruct (utoa_lead n) as (d & s & Hd & E); [lia|]. exists d, s. split; [lia|done]. }
  assert ((match (sign ++ utoa n ++ rest)%string with
           | String "-" s' => ("-"%string, s') | _ => (EmptyString, (sign ++ utoa n ++ rest)%string)
           end)%char = (sign, (utoa n ++ rest)%string)) as ->.
  { destruct Hs as [-> | ->]; [|reflexivity]. change ("" ++ ?x)%string with x. rewrite E, str_app_cons.
    assert (d = 0 \/ d = 1 \/ d = 2 \/ d = 3 \/ d = 4 \/ d = 5 \/ d = 6 \/ d = 7 \/ d = 8 \/ d = 9) as Hc by lia.
    repeat destruct Hc as [-> | Hc]; try reflexivity. by rewrite Hc. }
  assert ((match (utoa n ++ rest)%string with
           | String "0" s' => ("0"%string, s') | _ => span_digits (utoa n ++ rest)
           end)%char = (utoa n, rest)) as ->.
  { destruct (Z.eq_dec n 0) as [->|Hn0]; [reflexivity|].
    - rewrite <- (span_digits_app (utoa n) rest); [|by apply all_digits_utoa|done].
      clear E. destruct (utoa_lead n) as (d' & s' & Hd' & E); [lia|]. rewrite E, str_app_cons.
      assert (d' = 1 \/ d' = 2 \/ d' = 3 \/ d' = 4 \/ d' = 5 \/ d' = 6 \/ d' = 7 \/ d' = 8 \/ d' = 9) as Hc by lia.
      repeat destruct Hc as [-> | Hc]; try reflexivity. by rewrite Hc. }
  assert ((utoa n =? "")%string = false) as -> by (rewrite E; reflexivity).
  destruct rest as [|c r]; cbn [stops] in Hr; [|destruct Hr as [->|[->| ->]]]; cbn; by rewrite !str_app_nil_r.
Qed.

Lemma scan_number_Itoa z rest : stops rest -> scan_number (Itoa z ++ rest) = Some (Itoa z, rest).
Proof.
  intros Hr. unfold Itoa. destruct (z <? 0) eqn:E; breflect.
  - rewrite str_app_assoc. apply scan_number_utoa; [lia|done|by right].
  - change (utoa z ++ rest)%string with ("" ++ utoa z ++ rest)%string.
    change (utoa z) with ("" ++ utoa z)%string at 2. apply scan_number_utoa; [lia|done|by left].
Qed.

Lemma Itoa_head z : exists c s, Itoa z = String c s /\ (is_digit c = true \/ c = "-"%char).
Proof.
  unfold Itoa. destruct (z <? 0) eqn:E; breflect.
  - exists "-"%char, (utoa (- z)). split; [reflexivity|by right].
  - destruct (utoa_head z) as (c & s & -> & Hc); [lia|]. eauto.
Qed.

(** ** Values *)

Fixpoint need (j : json) : nat :=
  match j with
  | JArr l => S ((fix go l := match l with [] => O | x :: l => S (Nat.max (need x) (go l)) end) l)
  | JObj l => S ((fix go l := match l with [] => O | (_, x) :: l => S (Nat.max (need x) (go l)) end) l)
  | _ => 1%nat
  end.
Fixpoint need_list (l : list json) : nat :=
  match l with [] => O | x :: l => S (Nat.max (need x) (need_list l)) end.
Definition need_members (l : list (string * json)) : nat := need_list (map snd l).
Lemma need_arr l : need (JArr l) = S (need_list l).
Proof. reflexivity. Qed.
Lemma need_obj l : need (JObj l) = S (need_members l).
Proof.
  simpl. f_equal. induction l as [|[k x] l IH]; [done|]. unfold need_members in *. simpl. by rewrite IH.
Qed.

(** First byte of a printed value: never white space, and each kind's own. *)
Lemma Marshal_head j : printable j -> exists c s, Marshal j = String c s /\ is_ws c = false /\
  c <> "]"%char /\ c <> "}"%char.
Proof.
  destruct j as [|[]|lit|s|l|l].
  - do 2 eexists; split; [reflexivity|]; by repeat split.
  - do 2 eexists; split; [reflexivity|]; by repeat split.
  - do 2 eexists; split; [reflexivity|]; by repeat split.
  - intros [z ->]. destruct (Itoa_head z) as (c & s & E & Hc). exists c, s. split; [exact E|].
    destruct c as [[] [] [] [] [] [] [] []]; destruct Hc as [Hc|Hc]; try discriminate Hc; by repeat split.
  - intros _. exists quote_char. eexists. split; [reflexivity|]; by repeat split.
  - do 2 eexists; split; [reflexivity|]; by repeat split.
  - do 2 eexists; split; [reflexivity|]; by repeat split.
Qed.

Lemma skip_ws_Marshal j t : printable j -> skip_ws (Marshal j ++ t) = (Marshal j ++ t)%string.
Proof.
  intros Hp. destruct (Marshal_head j Hp) as (c & s & -> & Hw & _). rewrite str_app_cons. cbn. by rewrite Hw.
Qed.
Lemma skip_ws_stops s : stops s -> skip_ws s = s.
Proof. destruct s as [|c s]; [done|]. intros [->|[->| ->]]; reflexivity. Qed.

(** The three parsers invert the three printers, given enough fuel. *)
Definition reads (j : json) : Prop := forall fuel rest, printable j -> stops rest ->
  (need j <= fuel)%nat -> parse_value fuel (Marshal j ++ rest) = Some (j, rest).

Lemma parse_elems_ok l : l <> [] -> Forall reads l -> Forall printable l ->
  forall fuel rest, (need_list l <= fuel)%nat ->
  parse_elems fuel (elems_text l ++ String "]" rest) = Some (l, rest).
Proof.
  intros Hne HR HP. induction l as [|x l IH]; [done|]. inversion HR; inversion HP; subst.
  intros [|f] rest Hf; cbn [need_list] in Hf; [lia|]. cbn [parse_elems].
  destruct l as [|y l].
  - cbn [elems_text]. rewrite H1; [|done|simpl; auto|lia]. reflexivity.
  - replace (elems_text (x :: y :: l) ++ String "]" rest)%string
      with (Marshal x ++ String "," (elems_text (y :: l) ++ String "]" rest))%string
      by (cbn [elems_text]; by rewrite !str_app_assoc).
    rewrite H1; [|done|simpl; auto|lia].
    change (skip_ws (String "," ?z)) with (String "," z). cbv iota.
    rewrite IH by (done || lia). reflexivity.
Qed.

Lemma parse_members_ok l : l <> [] -> Forall (fun kx => reads (snd kx)) l ->
  Forall (fun kx => ascii_only (fst kx) = true /\ printable (snd kx)) l ->
  forall fuel rest, (need_members l <= fuel)%nat ->
  parse_members fuel (members_text l ++ String "}" rest) = Some (l, rest).
Proof.
  intros Hne HR HP. induction l as [|[k x] l IH]; [done|].
  inversion HR as [|?? R1 R2]; inversion HP as [|?? [A1 P1] P2]; subst; simpl in R1, A1, P1.
  intros [|f] rest Hf; unfold need_members in *; cbn [need_list map snd] in Hf; [lia|]. cbn [parse_members].
  set (tail := match l with [] => String "}" rest | _ => String "," (members_text l ++ String "}" rest) end).
  replace (members_text ((k, x) :: l) ++ String "}" rest)%string
    with (quote k ++ String ":" (Marshal x ++ tail))%string
    by (subst tail; destruct l; cbn [members_text]; rewrite !str_app_assoc; reflexivity).
  destruct (unquote_quote k (String ":" (Marshal x ++ tail)) A1) as (t & -> & Et).
  cbn [skip_ws]. change (is_ws quote_char) with false. cbv iota.
  rewrite Ascii.eqb_refl. cbn [negb]. rewrite Et.
  change (skip_ws (String ":" ?z)) with (String ":" z). cbv iota.
  rewrite R1; [|done|subst tail; destruct l; simpl; auto|lia].
  rewrite skip_ws_stops by (subst tail; destruct l; simpl; auto).
  subst tail. destruct l as [|y l]; [reflexivity|]. cbv iota. rewrite IH by (done || lia). reflexivity.
Qed.

Lemma parse_value_number f z rest : stops rest ->
  parse_value (S f) (Itoa z ++ rest) = Some (JNum (Itoa z), rest).
Proof.
  intros Hr. cbn [parse_value]. pose proof (scan_number_Itoa z rest Hr) as HS.
  destruct (Itoa_head z) as (c & s & E & Hc). rewrite E in *. rewrite str_app_cons in *.
  assert (is_ws c = false /\ Ascii.eqb c quote_char = false /\ Ascii.eqb c "["%char = false /\ Ascii.eqb c "{"%char = false /\
    (forall t, HasPrefix (String c t) "true" = false /\ HasPrefix (String c t) "false" = false /\
               HasPrefix (String c t) "null" = false)) as (H1 & H2 & H3 & H4 & H5).
  { clear - Hc. destruct c as [[] [] [] [] [] [] [] []]; destruct Hc as [Hc|Hc]; try discriminate Hc; by repeat split. }
  destruct (H5 (s ++ rest)%string) as (P1 & P2 & P3).
  cbn [skip_ws]. by rewrite H1, H2, H3, H4, P1, P2, P3, HS.
Qed.

Lemma reads_all j : reads j.
Proof.
  induction j as [|b|lit|s|l IH|l IH] using json_nested_ind; intros [|f] rest Hp Hr Hf;
    try (exfalso; simpl in Hf; lia).
  - reflexivity.
  - destruct b; reflexivity.
  - destruct Hp as [z ->]. by apply parse_value_number.
  - destruct (unquote_quote s rest Hp) as (t & E & Et). cbn [Marshal parse_value]. rewrite E.
    cbn [skip_ws]. change (is_ws quote_char) with false. cbv iota. by rewrite Ascii.eqb_refl, Et.
  - apply printable_arr in Hp. rewrite need_arr in Hf. rewrite Marshal_arr, !str_app_assoc.
    cbn [parse_value]. change (skip_ws ("[" ++ ?z)) with (String "[" z). cbv iota.
    change (Ascii.eqb "[" quote_char) with false. change (Ascii.eqb "[" "[") with true. cbv iota.
    destruct l as [|x l]; [reflexivity|].
    change ("]" ++ rest)%string with (String "]" rest).
    rewrite (parse_elems_ok (x :: l)) by (done || lia).
    assert (exists c t, (elems_text (x :: l) ++ String "]" rest)%string = String c t /\ is_ws c = false /\ c <> "]"%char)
      as (c & t & -> & Hw & Hc).
    { inversion Hp; subst. destruct (Marshal_head x) as (c & s & E & Hw & Hc & _); [done|].
      destruct l; cbn [elems_text]; rewrite E, ?str_app_assoc, str_app_cons; eauto. }
    cbn [skip_ws]. rewrite Hw. destruct c as [[] [] [] [] [] [] [] []]; try reflexivity. done.
  - apply printable_obj in Hp. rewrite need_obj in Hf. rewrite Marshal_obj, !str_app_assoc.
    cbn [parse_value]. change (skip_ws ("{" ++ ?z)) with (String "{" z). cbv iota.
    change (Ascii.eqb "{" quote_char) with false. change (Ascii.eqb "{" "[") with false.
    change (Ascii.eqb "{" "{") with true. cbv iota.
    destruct l as [|[k x] l]; [reflexivity|].
    change ("}" ++ rest)%string with (String "}" rest).
    rewrite (parse_members_ok ((k, x) :: l)) by (done || lia).
    assert (exists t, (members_text ((k, x) :: l) ++ String "}" rest)%string = String quote_char t) as (t & ->).
    { destruct l; cbn [members_text]; unfold quote; rewrite !str_app_cons; eauto. }
    reflexivity.
Qed.

Lemma need_length j : printable j -> (need j <= String.length (Marshal j))%nat.
Proof.
  induction j as [|b|lit|s|l IH|l IH] using json_nested_ind; intros Hp.
  - simpl. lia.
  - destruct b; simpl; lia.
  - destruct Hp as [z ->]. destruct (Itoa_head z) as (c & s & E & _). cbn [Marshal need]. rewrite E. simpl. lia.
  - simpl. lia.
  - apply printable_arr in Hp. rewrite need_arr, Marshal_arr, !str_app_length. simpl String.length.
    enough (need_list l <= String.length (elems_text l) + 1)%nat by lia.
    induction l as [|x l IHl]; [simpl; lia|]. inversion IH; inversion Hp; subst. cbn [need_list].
    specialize (IHl ltac:(done) ltac:(done)). specialize (H1 ltac:(done)).
    destruct l as [|y l]; [simpl in *; lia|].
    change (elems_text (x :: y :: l)) with (Marshal x ++ "," ++ elems_text (y :: l))%string.
    rewrite !str_app_length. simpl (String.length ","). lia.
  - apply printable_obj in Hp. rewrite need_obj, Marshal_obj, !str_app_length. simpl String.length.
    enough (need_members l <= String.length (members_text l) + 1)%nat by lia. unfold need_members.
    induction l as [|[k x] l IHl]; [simpl; lia|]. inversion IH; inversion Hp as [|?? [? ?]]; subst. cbn [need_list map snd].
    specialize (IHl ltac:(done) ltac:(done)). specialize (H1 ltac:(done)). simpl in H1.
    destruct l as [|y l]; [cbn [members_text need_list map] in *; rewrite !str_app_length; simpl; lia|].
    change (members_text ((k, x) :: y :: l)) with (quote k ++ ":" ++ Marshal x ++ "," ++ members_text (y :: l))%string.
    rewrite !str_app_length. simpl (String.length ","). simpl (String.length ":"). lia.
Qed.

Lemma Unmarshal_Marshal j : printable j -> Unmarshal (Marshal j) = Some j.
Proof.
  intros Hp. unfold Unmarshal. rewrite <- (str_app_nil_r (Marshal j)) at 2.
  pose proof (need_length j Hp). rewrite reads_all; [reflexivity|done|done|lia].
Qed.

Lemma Marshal_inj j1 j2 : printable j1 -> printable j2 -> Marshal j1 = Marshal j2 -> j1 = j2.
Proof.
  intros H1 H2 E. pose proof (Unmarshal_Marshal j1 H1) as R. rewrite E, Unmarshal_Marshal in R by done. congruence.
Qed.
