(* ===== verification/JsonDecode.v ===== *)
(** * [json.Unmarshal] into typed Go values

    Struct members match a field by exact name, else by Go's case folding; unknown
    members are ignored, [null] leaves a scalar alone and makes a map or slice nil,
    and any type mismatch makes the whole decode fail. A decoder takes the old value
    and returns the new one. *)
From S2P Require Import Prelude GoStd Json.
Open Scope Z_scope.

Definition decoder (A : Type) : Type := json -> A -> option A.

(** Go folds ASCII letters, the long s and the Kelvin sign. *)
Definition upper (c : ascii) : ascii := if in_range 97 122 c then byte_of (byte_val c - 32) else c.
Fixpoint fold_name (s : string) : string :=
  match s with
  | EmptyString => EmptyString
  | String c s' =>
      match s' with
      | String d s'' =>
          if (byte_val c =? 197) && (byte_val d =? 191) then String "S" (fold_name s'')
          else match s'' with
               | String e s''' =>
                   if (byte_val c =? 226) && (byte_val d =? 132) && (byte_val e =? 170)
                   then String "K" (fold_name s''')
                   else String (upper c) (fold_name s')
               | EmptyString => String (upper c) (fold_name s')
               end
      | EmptyString => String (upper c) (fold_name s')
      end
  end.

(** A struct is its list of field names with their decoders. *)
Definition struct_fields (A : Type) := list (string * decoder A).
Fixpoint field_exact {A} (k : string) (fs : struct_fields A) : option (decoder A) :=
  match fs with
  | [] => None
  | (n, d) :: fs => if (n =? k)%string then Some d else field_exact k fs
  end.
Fixpoint field_folded {A} (k : string) (fs : struct_fields A) : option (decoder A) :=
  match fs with
  | [] => None
  | (n, d) :: fs => if (fold_name n =? fold_name k)%string then Some d else field_folded k fs
  end.
Definition field_of {A} (fs : struct_fields A) (k : string) : option (decoder A) :=
  match field_exact k fs with Some d => Some d | None => field_folded k fs end.

Fixpoint decode_object {A} (fs : struct_fields A) (l : list (string * json)) (a : A) : option A :=
  match l with
  | [] => Some a
  | (k, j) :: rest =>
      match field_of fs k with
      | None => decode_object fs rest a
      | Some d => match d j a with Some a' => decode_object fs rest a' | None => None end
      end
  end.
Definition decode_struct {A} (fs : struct_fields A) : decoder A := fun j a =>
  match j with JObj l => decode_object fs l a | JNull => Some a | _ => None end.

Definition decode_string : decoder string := fun j old =>
  match j with JStr s => Some s | JNull => Some old | _ => None end.
Definition decode_bool : decoder bool := fun j old =>
  match j with JBool b => Some b | JNull => Some old | _ => None end.
(** [int], [int32] and [uint32] *)
Definition decode_int : decoder Z := fun j old =>
  match j with JNum lit => ParseInt lit | JNull => Some old | _ => None end.
Definition decode_int32 : decoder Z := fun j old =>
  match j with
  | JNum lit => match ParseInt lit with
                | Some n => if (- 2 ^ 31 <=? n) && (n <? 2 ^ 31) then Some n else None
                | None => None
                end
  | JNull => Some old | _ => None
  end.
Definition decode_uint32 : decoder Z := fun j old =>
  match j with JNum lit => ParseUint lit 32 | JNull => Some old | _ => None end.

(** A Go map is [None] when nil; members are decoded from the zero value. *)
Fixpoint decode_entries {V} (dec : decoder V) (zero : V) (l : list (string * json)) (m : gmap string V)
    : option (gmap string V) :=
  match l with
  | [] => Some m
  | (k, j) :: rest => match dec j zero with Some v => decode_entries dec zero rest (<[k := v]> m) | None => None end
  end.
Definition decode_map {V} (dec : decoder V) (zero : V) : decoder (option (gmap string V)) := fun j old =>
  match j with
  | JObj l => option_map Some (decode_entries dec zero l (default ∅ old))
  | JNull => Some None
  | _ => None
  end.

(** Elements of the old slice are decoded over, further ones from zero. *)
Fixpoint decode_elements {A} (dec : decoder A) (zero : A) (l : list json) (old : list A) : option (list A) :=
  match l with
  | [] => Some []
  | j :: rest =>
      match dec j (match old with x :: _ => x | [] => zero end), decode_elements dec zero rest (tl old) with
      | Some a, Some as' => Some (a :: as')
      | _, _ => None
      end
  end.
Definition decode_slice {A} (dec : decoder A) (zero : A) : decoder (list A) := fun j old =>
  match j with JArr l => decode_elements dec zero l old | JNull => Some [] | _ => None end.

(** A field of a struct, by its getter and setter. *)
Definition field {A F} (name : string) (get : A -> F) (set : F -> A -> A) (dec : decoder F) : string * decoder A :=
  (name, fun j a => option_map (fun f => set f a) (dec j (get a))).

(** [json.Unmarshal(raw, &v)] with [v] zero; [None] is a non-nil error. *)
Definition UnmarshalInto {A} (dec : decoder A) (zero : A) (raw : string) : option A :=
  match Unmarshal raw with Some j => dec j zero | None => None end.

(** [json.Marshal] of a map: sorted by key; a nil map is [null]. *)
Definition map_json {V} (f : V -> json) (m : gmap string V) : json :=
  JObj (map (fun kv => (fst kv, f (snd kv))) (sort_by_key fst (map_to_list m))).
Definition opt_map_json {V} (f : V -> json) (m : option (gmap string V)) : json :=
  match m with Some m => map_json f m | None => JNull end.

(** ** Round trips *)

Lemma decode_entries_to {V} (dec : decoder V) zero (f : V -> json) l m :
  (forall v, In v (map snd l) -> dec (f v) zero = Some v) ->
  decode_entries dec zero (map (fun kv => (fst kv, f (snd kv))) l) m =
  Some (foldl (fun m kv => <[fst kv := snd kv]> m) m l).
Proof.
  revert m. induction l as [|[k v] l IH]; intros m HD; simpl; [done|].
  rewrite HD by by left. apply IH. intros w Hw. apply HD. by right.
Qed.

Lemma foldl_insert_list_to_map {V} (l : list (string * V)) (m : gmap string V) : NoDup (map fst l) ->
  foldl (fun m kv => <[fst kv := snd kv]> m) m l = list_to_map l ∪ m.
Proof.
  revert m. induction l as [|[k v] l IH]; intros m; simpl; [by rewrite (left_id_L ∅ (∪))|].
  rewrite NoDup_cons. intros [Hk Hn]. rewrite IH by done. rewrite <- insert_union_l. symmetry.
  rewrite insert_union_r; [done|]. by apply not_elem_of_list_to_map.
Qed.

Lemma decode_map_json {V} (dec : decoder V) zero (f : V -> json) (m : gmap string V) :
  (forall k v, m !! k = Some v -> dec (f v) zero = Some v) ->
  decode_map dec zero (map_json f m) None = Some (Some m).
Proof.
  intros HD. unfold decode_map, map_json. simpl default.
  rewrite decode_entries_to.
  2:{ intros v ([k w] & <- & Hin)%in_map_iff. apply sort_by_key_in, list_elem_of_In, elem_of_map_to_list in Hin. eauto. }
  simpl. do 2 f_equal. rewrite foldl_insert_list_to_map.
  - rewrite (right_id_L ∅ (∪)). rewrite (list_to_map_proper _ (map_to_list m)).
    + apply list_to_map_to_list.
    + rewrite (sort_by_key_perm fst). apply NoDup_fst_map_to_list.
    + apply sort_by_key_perm.
  - rewrite (sort_by_key_perm fst). apply NoDup_fst_map_to_list.
Qed.

Lemma decode_elements_map {A} (dec : decoder A) zero (f : A -> json) l :
  (forall a, In a l -> dec (f a) zero = Some a) -> decode_elements dec zero (map f l) [] = Some l.
Proof.
  induction l as [|a l IH]; intros HD; simpl; [done|]. rewrite HD by by left.
  rewrite IH; [done|]. intros b Hb. apply HD. by right.
Qed.

Lemma printable_map_json {V} (f : V -> json) (m : gmap string V) printable' :
  (forall k v, m !! k = Some v -> ascii_only k = true /\ printable' (f v)) ->
  Forall (fun kx : string * json => ascii_only (fst kx) = true /\ printable' (snd kx))
    (map (fun kv => (fst kv, f (snd kv))) (sort_by_key fst (map_to_list m))).
Proof.
  intros H. apply List.Forall_forall. intros kx ([k v] & <- & Hin)%in_map_iff.
  apply sort_by_key_in, list_elem_of_In, elem_of_map_to_list in Hin. simpl. by apply H.
Qed.
