(* ===== verification/NetIP.v ===== *)
(** * [net/netip]: addresses and prefixes

    The value types [Addr] and [Prefix] of Go's standard library with the
    operations the controllers call. An IPv4 address is its 32-bit value, an
    IPv6 address its 128-bit value and zone; [AddrZero] is the invalid
    [netip.Addr{}]. *)
From S2P Require Import Prelude GoStd.
Open Scope Z_scope.

Inductive Addr := AddrZero | Addr4 (v : Z) | Addr6 (v : Z) (zone : string).
(** [Bits] is [-1] for an invalid prefix, as [Prefix.Bits] reports it. *)
Record Prefix := mkPrefix { paddr : Addr; pbits : Z }.

#[export] Instance Addr_eq_dec : EqDecision Addr.
Proof. solve_decision. Defined.
#[export] Instance Prefix_eq_dec : EqDecision Prefix.
Proof. solve_decision. Defined.

(** ** Addresses *)

Definition Is4 (a : Addr) : bool := match a with Addr4 _ => true | _ => false end.
Definition IsValid (a : Addr) : bool := match a with AddrZero => false | _ => true end.
Definition BitLen (a : Addr) : Z := match a with AddrZero => 0 | Addr4 _ => 32 | Addr6 _ _ => 128 end.

(** Octet [i] (from the left) of an IPv4 value, 16-bit group of an IPv6 value. *)
Definition octet (v : Z) (i : Z) : Z := Z.land (Z.shiftr v (8 * (3 - i))) 255.
Definition group (v : Z) (i : Z) : Z := Z.land (Z.shiftr v (16 * (7 - i))) 65535.
(** [As4] of an IPv4 address and [AddrFrom4]. *)
Definition As4 (v : Z) : Z * Z * Z * Z := (octet v 0, octet v 1, octet v 2, octet v 3).
Definition AddrFrom4 (b : Z * Z * Z * Z) : Addr :=
  let '(b0, b1, b2, b3) := b in
  Addr4 (Z.lor (Z.lor (Z.shiftl b0 24) (Z.shiftl b1 16)) (Z.lor (Z.shiftl b2 8) b3)).

Definition unmap (a : Addr) : Addr :=
  match a with
  | Addr6 v _ => if Z.shiftr v 32 =? 65535 then Addr4 (Z.land v (Z.ones 32)) else a
  | _ => a
  end.
Definition IsLoopback (a : Addr) : bool :=
  match unmap a with
  | Addr4 v => octet v 0 =? 127
  | Addr6 v _ => v =? 1
  | AddrZero => false
  end.
Definition IsMulticast (a : Addr) : bool :=
  match unmap a with
  | Addr4 v => Z.land (octet v 0) 240 =? 224
  | Addr6 v _ => Z.shiftr (group v 0) 8 =? 255
  | AddrZero => false
  end.
Definition IsLinkLocalUnicast (a : Addr) : bool :=
  match unmap a with
  | Addr4 v => (octet v 0 =? 169) && (octet v 1 =? 254)
  | Addr6 v _ => Z.land (group v 0) 65472 =? 65152
  | AddrZero => false
  end.
Definition IsGlobalUnicast (a : Addr) : bool :=
  match a with
  | AddrZero => false
  | Addr4 v => negb ((v =? 0) || (v =? 4294967295)) &&
               negb (IsLoopback a) && negb (IsMulticast a) && negb (IsLinkLocalUnicast a)
  | Addr6 v z => negb ((v =? 0) && (z =? "")%string) &&
               negb (IsLoopback a) && negb (IsMulticast a) && negb (IsLinkLocalUnicast a)
  end.

Definition Next (a : Addr) : Addr :=
  match a with
  | Addr4 v => if v =? 4294967295 then AddrZero else Addr4 (v + 1)
  | Addr6 v z => if v =? Z.ones 128 then AddrZero else Addr6 (v + 1) z
  | AddrZero => AddrZero
  end.
Definition Prev (a : Addr) : Addr :=
  match a with
  | Addr4 v => if v =? 0 then AddrZero else Addr4 (v - 1)
  | Addr6 v z => if v =? 0 then AddrZero else Addr6 (v - 1) z
  | AddrZero => AddrZero
  end.

(** [Addr.Compare]: by bit length, then value, then zone. *)
Definition Compare (a b : Addr) : comparison :=
  match BitLen a ?= BitLen b with
  | Eq => match a, b with
          | Addr4 x, Addr4 y => x ?= y
          | Addr6 x zx, Addr6 y zy => match x ?= y with Eq => String.compare zx zy | c => c end
          | _, _ => Eq
          end
  | c => c
  end.
Definition Less (a b : Addr) : bool := match Compare a b with Lt => true | _ => false end.

(** *** Printing *)

Definition string4 (v : Z) : string :=
  (utoa (octet v 0) ++ "." ++ utoa (octet v 1) ++ "." ++ utoa (octet v 2) ++ "." ++ utoa (octet v 3))%string.

Fixpoint hex_group_digits (fuel : nat) (n : Z) (acc : string) : string :=
  match fuel with
  | O => acc
  | S f =>
      let acc' := String (hex_digit (n mod 16)) acc in
      if n <? 16 then acc' else hex_group_digits f (n / 16) acc'
  end.
Definition hex_group (n : Z) : string := hex_group_digits 4 n "".
(** Longest run of at least two zero groups, the first one on a tie. *)
Fixpoint zero_run (v : Z) (fuel : nat) (i : Z) : Z :=
  match fuel with
  | O => i
  | S f => if (i <? 8) && (group v i =? 0) then zero_run v f (i + 1) else i
  end.
Definition longest_zero_run (v : Z) : Z * Z :=
  fold_left (fun '(s, e) i =>
    let j := zero_run v 8 i in
    if (2 <=? j - i) && (e - s <? j - i) then (i, j) else (s, e))
    [0; 1; 2; 3; 4; 5; 6; 7] (255, 255).
Fixpoint groups_string (v s e : Z) (fuel : nat) (i : Z) : string :=
  match fuel with
  | O => ""
  | S f =>
      if 8 <=? i then "" else
      if i =? s then
        if 8 <=? e then "::" else ("::" ++ hex_group (group v e) ++ groups_string v s e f (e + 1))%string
      else ((if (0 <? i)%Z then ":" else "") ++ hex_group (group v i) ++ groups_string v s e f (i + 1))%string
  end.
Definition String6 (v : Z) : string :=
  let '(s, e) := longest_zero_run v in groups_string v s e 8 0.
Definition AddrString (a : Addr) : string :=
  match a with
  | AddrZero => "invalid IP"
  | Addr4 v => string4 v
  | Addr6 v z =>
      ((if (Z.shiftr v 32 =? 65535)%Z then "::ffff:" ++ string4 (Z.land v (Z.ones 32)) else String6 v) ++
       (if z =? "" then "" else "%" ++ z))%string
  end.

(** *** Parsing *)

(** [parseIPv4Fields]: [first] is set at the start of the text, [prevdot] after
    a dot, [val]/[len] describe the current octet, [pos] octets are complete. *)
Fixpoint parse4_fields (s : string) (first prevdot : bool) (val len : Z) (acc : list Z) : option (list Z) :=
  match s with
  | EmptyString => if (List.length acc =? 3)%nat then Some (acc ++ [val]) else None
  | String c s' =>
      if is_digit c then
        if (len =? 1) && (val =? 0) then None else
        let val' := val * 10 + digit_val c in
        if 255 <? val' then None else parse4_fields s' false false val' (len + 1) acc
      else if Ascii.eqb c "."%char then
        if first || (match s' with EmptyString => true | _ => false end) || prevdot then None else
        if (List.length acc =? 3)%nat then None else
        parse4_fields s' false true 0 0 (acc ++ [val])
      else None
  end.
Definition parse4 (s : string) : option Z :=
  match parse4_fields s true false 0 0 [] with
  | Some [a; b; c; d] => Some (a * 2 ^ 24 + b * 2 ^ 16 + c * 2 ^ 8 + d)
  | _ => None
  end.

Definition hex_val (c : ascii) : option Z :=
  let n := byte_val c in
  if is_digit c then Some (n - 48)
  else if (97 <=? n) && (n <=? 102) then Some (n - 87)
  else if (65 <=? n) && (n <=? 70) then Some (n - 55)
  else None.
(** The leading hex digits of a group: [None] when there are more than four. *)
Fixpoint scan_hex (s : string) (off acc : Z) : option (Z * Z * string) :=
  match s with
  | EmptyString => Some (off, acc, s)
  | String c s' =>
      match hex_val c with
      | Some d => if 3 <? off then None else scan_hex s' (off + 1) (acc * 16 + d)
      | None => Some (off, acc, s)
      end
  end.
(** The group loop of [parseIPv6]: the 16-bit groups read so far (in order), the
    index of the ellipsis and the rest of the text. *)
Fixpoint parse6_groups (fuel : nat) (s : string) (acc : list Z) (ell : option nat)
  : option (list Z * option nat * string) :=
  match fuel with
  | O => Some (acc, ell, s)
  | S f =>
      match scan_hex s 0 0 with
      | None => None
      | Some (off, v, rest) =>
          if off =? 0 then None else
          match rest with
          | String "." _ =>
              if (match ell with None => negb (List.length acc =? 6)%nat | _ => false end) then None else
              if (6 <? List.length acc)%nat then None else
              match parse4 s with
              | Some q => Some (acc ++ [Z.shiftr q 16; Z.land q 65535], ell, EmptyString)
              | None => None
              end
          | EmptyString => Some (acc ++ [v], ell, EmptyString)
          | String ":" EmptyString => None
          | String ":" (String ":" rest') =>
              match ell with
              | Some _ => None
              | None => match rest' with
                        | EmptyString => Some (acc ++ [v], Some (S (List.length acc)), EmptyString)
                        | _ => parse6_groups f rest' (acc ++ [v]) (Some (S (List.length acc)))
                        end
              end
          | String ":" rest' => parse6_groups f rest' (acc ++ [v]) ell
          | _ => None
          end%char
      end
  end.
Definition value6 (gs : list Z) : Z := fold_left (fun a g => a * 65536 + g) gs 0.
Definition parse6 (s : string) : option Addr :=
  match (match cut_byte "%"%char s with
         | Some (l, EmptyString) => None
         | Some (l, z) => Some (l, z)
         | None => Some (s, EmptyString)
         end) with
  | None => None
  | Some (body, zone) =>
      let '(body, ell) := match body with
                          | String ":" (String ":" r) => (r, Some 0%nat)
                          | _ => (body, None)
                          end%char in
      match ell, body with
      | Some _, EmptyString => Some (Addr6 0 zone)
      | _, _ =>
          match parse6_groups 8 body [] ell with
          | Some (gs, ell, EmptyString) =>
              let n := List.length gs in
              if (n <? 8)%nat then
                match ell with
                | None => None
                | Some e => Some (Addr6 (value6 (firstn e gs ++ List.repeat 0 (8 - n) ++ skipn e gs)) zone)
                end
              else match ell with
                   | Some _ => None
                   | None => Some (Addr6 (value6 gs) zone)
                   end
          | _ => None
          end
      end
  end.

(** [netip.ParseAddr] dispatches on the first of ['.'], [':'], ['%']. *)
Fixpoint addr_kind (s : string) : option ascii :=
  match s with
  | EmptyString => None
  | String c s' =>
      if Ascii.eqb c "."%char || Ascii.eqb c ":"%char || Ascii.eqb c "%"%char then Some c else addr_kind s'
  end.
Definition ParseAddr (s : string) : option Addr :=
  match addr_kind s with
  | Some "." => option_map Addr4 (parse4 s)
  | Some ":" => parse6 s
  | _ => None
  end%char.
(** [a, _ := netip.ParseAddr(s)] *)
Definition ParseAddr_ (s : string) : Addr := match ParseAddr s with Some a => a | None => AddrZero end.

(** ** Prefixes *)

Definition withoutZone (a : Addr) : Addr := match a with Addr6 v _ => Addr6 v "" | _ => a end.
Definition PrefixFrom (a : Addr) (bits : Z) : Prefix :=
  mkPrefix (withoutZone a)
    (if IsValid a && (0 <=? bits) && (bits <=? BitLen a) then bits else -1).
Definition PrefixZero : Prefix := mkPrefix AddrZero (-1).
Definition PrefixIsValid (p : Prefix) : bool := 0 <=? pbits p.

(** Clear the host bits of a [w]-bit value. *)
Definition mask_value (w v bits : Z) : Z := Z.shiftl (Z.shiftr v (w - bits)) (w - bits).
(** [Addr.Prefix(b)] *)
Definition AddrPrefix (a : Addr) (b : Z) : option Prefix :=
  if b <? 0 then None else
  match a with
  | AddrZero => Some PrefixZero
  | Addr4 v => if 32 <? b then None else Some (PrefixFrom (Addr4 (mask_value 32 v b)) b)
  | Addr6 v _ => if 128 <? b then None else Some (PrefixFrom (Addr6 (mask_value 128 v b) "") b)
  end.
Definition Masked (p : Prefix) : Prefix :=
  match AddrPrefix (paddr p) (pbits p) with Some m => m | None => PrefixZero end.

Definition Contains (p : Prefix) (a : Addr) : bool :=
  PrefixIsValid p &&
  match a, paddr p with
  | Addr4 x, Addr4 y => Z.shiftr (Z.lxor x y) (32 - pbits p) =? 0
  | Addr6 x "", Addr6 y _ => Z.shiftr (Z.lxor x y) (128 - pbits p) =? 0
  | _, _ => false
  end.

Definition Overlaps (p o : Prefix) : bool :=
  if negb (PrefixIsValid p) || negb (PrefixIsValid o) then false else
  if bool_decide (p = o) then true else
  if negb (Bool.eqb (Is4 (paddr p)) (Is4 (paddr o))) then false else
  let minBits := Z.min (pbits p) (pbits o) in
  if minBits =? 0 then true else
  match AddrPrefix (paddr p) minBits, AddrPrefix (paddr o) minBits with
  | Some p', Some o' => bool_decide (paddr p' = paddr o')
  | _, _ => false
  end.

Definition PrefixString (p : Prefix) : string :=
  if PrefixIsValid p then (AddrString (paddr p) ++ "/" ++ Itoa (pbits p))%string else "invalid Prefix".

Definition ParsePrefix (s : string) : option Prefix :=
  match cut_last_byte "/"%char s with
  | None => None
  | Some (l, bitsStr) =>
      match ParseAddr l with
      | None => None
      | Some a =>
          if (match a with Addr6 _ z => negb (z =? "")%string | _ => false end) then None else
          if (1 <? String.length bitsStr)%nat &&
             ((byte_val (ch bitsStr) <? 49) || (57 <? byte_val (ch bitsStr))) then None else
          match Atoi bitsStr with
          | None => None
          | Some bits =>
              if (bits <? 0) || (BitLen a <? bits) then None else Some (PrefixFrom a bits)
          end
      end
  end.
(** [p, _ := netip.ParsePrefix(s)] *)
Definition ParsePrefix_ (s : string) : Prefix := match ParsePrefix s with Some p => p | None => PrefixZero end.

Arguments octet : simpl never.
Arguments IsGlobalUnicast : simpl never.
Arguments IsLoopback : simpl never.
Arguments IsMulticast : simpl never.
Arguments IsLinkLocalUnicast : simpl never.
Arguments group : simpl never.
Arguments string4 : simpl never.
Arguments String6 : simpl never.
Arguments parse4 : simpl never.
Arguments parse6 : simpl never.
Arguments ParseAddr : simpl never.
Arguments ParsePrefix : simpl never.
Arguments AddrString : simpl never.
Arguments PrefixString : simpl never.
Arguments mask_value : simpl never.
Arguments Contains : simpl never.
Arguments Overlaps : simpl never.

Example parse_examples :
  map (fun s => option_map AddrString (ParseAddr s))
    ["10.0.0.1"; "255.255.255.255"; "01.2.3.4"; "1.2.3"; "1.2.3.4.5"; "::1"; "fe80::1%eth0";
     "2001:db8::ff00:42:8329"; "1:2:3:4:5:6:7:8"; "::ffff:1.2.3.4"; "1::2::3"; ""; "1.2.3.256";
     "0:0:1:0:0:0:0:1"; "1:0:0:2:0:0:0:3"; "::"]%string =
  [Some "10.0.0.1"; Some "255.255.255.255"; None; None; None; Some "::1"; Some "fe80::1%eth0";
   Some "2001:db8::ff00:42:8329"; Some "1:2:3:4:5:6:7:8"; Some "::ffff:1.2.3.4"; None; None; None;
   Some "0:0:1::1"; Some "1:0:0:2::3"; Some "::"]%string.
Proof. vm_compute. reflexivity. Qed.
Example parse_prefix_examples :
  map (fun s => option_map PrefixString (ParsePrefix s))
    ["10.0.0.0/8"; "10.0.0.1/24"; "10.0.0.0/08"; "10.0.0.0/33"; "10.0.0.0/+8"; "10.0.0.0"; "2001:db8::/32"; "10.0.0.0/0"]%string =
  [Some "10.0.0.0/8"; Some "10.0.0.1/24"; None; None; None; None; Some "2001:db8::/32"; Some "10.0.0.0/0"]%string.
Proof. vm_compute. reflexivity. Qed.
