(* ===== verification/NetIPFacts.v ===== *)
(** * Facts about IPv4 addresses and prefixes

    Parsing and printing are inverse on IPv4 addresses, [Contains] and [Overlaps]
    are the arithmetic of blocks of addresses, and masking is idempotent. *)
From S2P Require Import Prelude GoStd NetIP.
Open Scope Z_scope.

Definition u32 (v : Z) : Prop := 0 <= v < 2 ^ 32.
(** A valid IPv4 prefix, as [netip.ParsePrefix] produces it. *)
Definition prefix4 (p : Prefix) (v b : Z) : Prop := p = mkPrefix (Addr4 v) b /\ u32 v /\ 0 <= b <= 32.

(** ** Octets *)

Lemma octet_div v i : 0 <= i <= 3 -> octet v i = (v / 2 ^ (8 * (3 - i))) mod 256.
Proof.
  intros Hi. unfold octet. rewrite Z.shiftr_div_pow2 by lia.
  change 255 with (Z.ones 8). rewrite Z.land_ones by lia. done.
Qed.
Lemma octet_range v i : 0 <= i <= 3 -> 0 <= octet v i < 256.
Proof. intros. rewrite octet_div by done. apply Z.mod_pos_bound. lia. Qed.

Lemma octets_value v : u32 v ->
  octet v 0 * 2 ^ 24 + octet v 1 * 2 ^ 16 + octet v 2 * 2 ^ 8 + octet v 3 = v.
Proof.
  unfold u32. intros H. rewrite !octet_div by lia. simpl (8 * _).
  change (2 ^ 24) with 16777216. change (2 ^ 16) with 65536. change (2 ^ 8) with 256.
  change (2 ^ 0) with 1. change (2 ^ 32) with 4294967296 in H.
  Z.div_mod_to_equations. lia.
Qed.

(** The recombinations the source writes with shifts and [|]. *)
Lemma land_shiftl_low a b n : 0 <= n -> 0 <= b < 2 ^ n -> Z.land (Z.shiftl a n) b = 0.
Proof.
  intros Hn Hb. apply Z.bits_inj'. intros i Hi.
  rewrite Z.land_spec, Z.bits_0, Z.shiftl_spec by done.
  destruct (Z.ltb_spec i n); [by rewrite Z.testbit_neg_r by lia|].
  replace b with (b mod 2 ^ n) by (apply Z.mod_small; lia).
  rewrite Z.mod_pow2_bits_high by lia. apply andb_false_r.
Qed.
Lemma lor_shiftl_low a b n : 0 <= n -> 0 <= b < 2 ^ n -> Z.lor (Z.shiftl a n) b = a * 2 ^ n + b.
Proof.
  intros Hn Hb. pose proof (Z.add_lor_land (Z.shiftl a n) b).
  rewrite land_shiftl_low in H by done. rewrite Z.shiftl_mul_pow2 in H by done.
  rewrite Z.shiftl_mul_pow2 by done. lia.
Qed.
Lemma lor_aligned v m k : 0 <= k -> v mod 2 ^ k = 0 -> 0 <= m < 2 ^ k -> Z.lor v m = v + m.
Proof.
  intros Hk Hv Hm. pose proof (Z.div_mod v (2 ^ k) ltac:(lia)) as E.
  rewrite Hv in E. rewrite Z.add_0_r, Z.mul_comm in E. rewrite E at 1.
  rewrite <- Z.shiftl_mul_pow2, lor_shiftl_low by done. lia.
Qed.

Lemma AddrFrom4_octets v : u32 v -> AddrFrom4 (As4 v) = Addr4 v.
Proof.
  intros H. unfold AddrFrom4, As4.
  pose proof (octet_range v 0 ltac:(lia)). pose proof (octet_range v 1 ltac:(lia)).
  pose proof (octet_range v 2 ltac:(lia)). pose proof (octet_range v 3 ltac:(lia)).
  rewrite (lor_shiftl_low (octet v 2)) by lia.
  rewrite <- (octets_value v H) at 5. f_equal.
  replace (Z.shiftl (octet v 0) 24) with (Z.shiftl (Z.shiftl (octet v 0) 8) 16)
    by (rewrite Z.shiftl_shiftl by lia; done).
  rewrite <- Z.shiftl_lor, (lor_shiftl_low (octet v 0)) by lia.
  rewrite lor_shiftl_low by lia. lia.
Qed.

Lemma As4_value v : u32 v ->
  Z.lor (Z.lor (Z.lor (Z.shiftl (octet v 0) 24) (Z.shiftl (octet v 1) 16)) (Z.shiftl (octet v 2) 8)) (octet v 3) = v.
Proof.
  intros H. pose proof (AddrFrom4_octets v H) as E. unfold AddrFrom4, As4 in E. injection E as E.
  by rewrite <- Z.lor_assoc.
Qed.

Lemma AddrFrom4_bytes v : u32 v ->
  AddrFrom4 (Z.land (Z.shiftr v 24) 255, Z.land (Z.shiftr v 16) 255, Z.land (Z.shiftr v 8) 255, Z.land v 255) = Addr4 v.
Proof.
  intros H. etransitivity; [|exact (AddrFrom4_octets v H)]. unfold As4, octet. simpl (8 * _).
  by rewrite Z.shiftr_0_r.
Qed.

(** ** Printing then parsing *)

Lemma forall_byte (P : Z -> Prop) :
  Forall P (map Z.of_nat (seq 0 256)) -> forall o, 0 <= o < 256 -> P o.
Proof.
  intros HF o Ho. rewrite List.Forall_forall in HF. apply HF. apply in_map_iff.
  exists (Z.to_nat o). split; [lia|]. apply in_seq. lia.
Qed.

Lemma parse4_octet o : 0 <= o < 256 -> forall first pd acc rest,
  parse4_fields (utoa o ++ rest) first pd 0 0 acc =
  parse4_fields rest false false o (Z.of_nat (String.length (utoa o))) acc.
Proof. revert o. refine (forall_byte _ _). repeat constructor. Qed.

Lemma utoa_octet_nonempty o : 0 <= o < 256 -> exists c s, utoa o = String c s.
Proof. intros. destruct (utoa_head o ltac:(lia)) as (c & s & E & _). eauto. Qed.

Lemma parse4_dot s val len acc : (List.length acc < 3)%nat -> s <> EmptyString ->
  parse4_fields (String "." s) false false val len acc = parse4_fields s false true 0 0 (acc ++ [val]).
Proof.
  intros Hl Hs. simpl. destruct s; [done|]. simpl.
  destruct (List.length acc =? 3)%nat eqn:E; [breflect; lia|done].
Qed.

Lemma parse4_string4 v : u32 v -> parse4 (string4 v) = Some v.
Proof.
  intros H. unfold parse4, string4.
  assert (forall i, 0 <= i <= 3 -> 0 <= octet v i < 256) as Ho by (intros; by apply octet_range).
  assert (forall i t, 0 <= i <= 3 -> (utoa (octet v i) ++ t)%string <> EmptyString) as Hne.
  { intros i t Hi. destruct (utoa_octet_nonempty (octet v i) (Ho i Hi)) as (c & s & ->). done. }
  assert (utoa (octet v 3) <> EmptyString) as Hne3.
  { destruct (utoa_octet_nonempty (octet v 3) ltac:(apply Ho; lia)) as (c & s & ->). done. }
  rewrite parse4_octet by (apply Ho; lia).
  change ("." ++ ?s)%string with (String "." s). rewrite parse4_dot by (try apply Hne; simpl; lia).
  rewrite parse4_octet by (apply Ho; lia).
  change ("." ++ ?s)%string with (String "." s). rewrite parse4_dot by (try apply Hne; simpl; lia).
  rewrite parse4_octet by (apply Ho; lia).
  change ("." ++ ?s)%string with (String "." s). rewrite parse4_dot by (try done; simpl; lia).
  replace (utoa (octet v 3)) with (utoa (octet v 3) ++ "")%string
    by apply str_app_nil_r.
  rewrite parse4_octet by (apply Ho; lia). simpl. by rewrite octets_value.
Qed.

Lemma addr_kind_digits s t :
  all_digits s = true -> addr_kind (s ++ String "." t) = Some "."%char.
Proof.
  induction s as [|c s IH]; [done|]. cbn [all_digits]. intros [Hc Hs]%andb_true_iff.
  rewrite str_app_cons. cbn [addr_kind]. rewrite IH by done.
  assert (forall d, is_digit d = false -> Ascii.eqb c d = false) as Hne.
  { intros d Hd. apply Ascii.eqb_neq. intros ->. congruence. }
  by rewrite !Hne.
Qed.

Lemma addr_kind_string4 v : u32 v -> addr_kind (string4 v) = Some "."%char.
Proof.
  intros _. unfold string4. pose proof (octet_range v 0 ltac:(lia)) as H.
  apply addr_kind_digits. apply all_digits_utoa. lia.
Qed.

Lemma ParseAddr_string v : u32 v -> ParseAddr (AddrString (Addr4 v)) = Some (Addr4 v).
Proof.
  intros H. unfold ParseAddr, AddrString. rewrite addr_kind_string4 by done.
  by rewrite parse4_string4.
Qed.

Lemma AddrString_inj v w : u32 v -> u32 w -> AddrString (Addr4 v) = AddrString (Addr4 w) -> v = w.
Proof.
  intros Hv Hw E. pose proof (ParseAddr_string v Hv) as P. rewrite E, ParseAddr_string in P by done.
  congruence.
Qed.

(** ** Ranges of parsed values *)

Lemma parse4_fields_range s first pd val len acc out :
  0 <= val < 256 -> Forall (fun o => 0 <= o < 256) acc ->
  parse4_fields s first pd val len acc = Some out ->
  Forall (fun o => 0 <= o < 256) out /\ List.length out = 4%nat.
Proof.
  revert first pd val len acc. induction s as [|c s IH]; intros first pd val len acc Hv Ha; simpl.
  - destruct (List.length acc =? 3)%nat eqn:E; [|done]. breflect. intros [= <-].
    split; [apply Forall_app; split; [done|constructor; [done|constructor]]|]. rewrite length_app. simpl. lia.
  - destruct (is_digit c) eqn:Ed.
    + destruct ((len =? 1) && (val =? 0)); [done|].
      destruct (255 <? val * 10 + digit_val c) eqn:E2; [done|]. breflect.
      apply IH; [|done]. unfold is_digit in Ed. breflect. unfold digit_val in *. lia.
    + destruct (Ascii.eqb c "."); [|done].
      destruct (first || _ || pd); [done|]. destruct (List.length acc =? 3)%nat; [done|].
      apply IH; [lia|]. apply Forall_app. split; [done|constructor; [done|constructor]].
Qed.

Lemma parse4_range s v : parse4 s = Some v -> u32 v.
Proof.
  unfold parse4. destruct (parse4_fields s true false 0 0 []) as [out|] eqn:E; [|done].
  apply parse4_fields_range in E as [HF HL]; [|lia|constructor].
  destruct out as [|a [|b [|c [|d [|]]]]]; try done. intros [= <-].
  repeat (apply Forall_cons in HF as [? HF]). unfold u32. lia.
Qed.

Lemma parse6_not4 s a : parse6 s = Some a -> Is4 a = false.
Proof.
  unfold parse6. intros H.
  repeat (match type of H with
          | context [match ?x with _ => _ end] => destruct x; try discriminate H
          end); by simplify_eq.
Qed.

Lemma ParseAddr_is4 s a : ParseAddr s = Some a -> Is4 a = true -> exists v, a = Addr4 v /\ u32 v.
Proof.
  unfold ParseAddr. destruct (addr_kind s) as [c|]; [|done]. intros H Hi.
  destruct (decide (c = "."%char)) as [->|N1].
  { destruct (parse4 s) as [v|] eqn:E; simplify_eq/=. exists v. split; [done|]. by eapply parse4_range. }
  destruct (decide (c = ":"%char)) as [->|N2].
  { apply parse6_not4 in H. congruence. }
  destruct c as [[] [] [] [] [] [] [] []]; try discriminate H; done.
Qed.

Lemma ParsePrefix_is4 s p : ParsePrefix s = Some p -> Is4 (paddr p) = true ->
  exists v b, prefix4 p v b.
Proof.
  unfold ParsePrefix. intros H Hi. follow H. simplify_eq.
  unfold PrefixFrom in *. simpl in *.
  match goal with HP : ParseAddr _ = Some ?a |- _ => destruct a; try done;
    eapply ParseAddr_is4 in HP as (w & [= <-] & Hw); [|done] end.
  simpl in *. do 2 eexists. unfold prefix4. split; [|done].
  match goal with |- context [(0 <=? ?z) && (?z <=? 32)] =>
    replace ((0 <=? z) && (z <=? 32)) with true; [done|] end.
  symmetry. apply andb_true_iff. split; apply Z.leb_le; lia.
Qed.

(** ** Blocks of addresses *)

(** [block v b] is the first address of the [/b] block that holds [v]. *)
Definition block (v b : Z) : Z := v / 2 ^ (32 - b) * 2 ^ (32 - b).

Lemma mask_value_block v b : 0 <= b <= 32 -> mask_value 32 v b = block v b.
Proof. intros. unfold mask_value, block. by rewrite Z.shiftl_mul_pow2, Z.shiftr_div_pow2 by lia. Qed.

Lemma block_range v b : 0 <= b <= 32 -> block v b <= v < block v b + 2 ^ (32 - b).
Proof.
  intros. unfold block. pose proof (Z.div_mod v (2 ^ (32 - b)) ltac:(lia)).
  pose proof (Z.mod_pos_bound v (2 ^ (32 - b)) ltac:(lia)). lia.
Qed.
Lemma block_aligned v b : 0 <= b <= 32 -> block v b mod 2 ^ (32 - b) = 0.
Proof. intros. unfold block. apply Z.mod_mul. lia. Qed.
Lemma block_u32 v b : 0 <= b <= 32 -> u32 v -> u32 (block v b) /\ block v b + 2 ^ (32 - b) <= 2 ^ 32.
Proof.
  unfold u32, block. intros Hb Hv.
  replace (2 ^ 32) with (2 ^ b * 2 ^ (32 - b)) in * by (rewrite <- Z.pow_add_r by lia; f_equal; lia).
  assert (0 < 2 ^ (32 - b)) by lia.
  assert (0 <= v / 2 ^ (32 - b)) by (apply Z.div_pos; lia).
  assert (v / 2 ^ (32 - b) < 2 ^ b) by (apply Z.div_lt_upper_bound; lia).
  nia.
Qed.
Lemma block_idem v b : 0 <= b <= 32 -> block (block v b) b = block v b.
Proof. intros. unfold block at 1. unfold block. by rewrite Z.div_mul by lia. Qed.
Lemma block_eq_iff x v b : 0 <= b <= 32 ->
  block x b = block v b <-> block v b <= x < block v b + 2 ^ (32 - b).
Proof.
  intros Hb. split.
  - intros <-. by apply block_range.
  - intros Hx. unfold block in *. f_equal.
    symmetry. apply Z.div_unique with (x - v / 2 ^ (32 - b) * 2 ^ (32 - b)); lia.
Qed.
(** A shorter prefix groups longer ones. *)
Lemma block_mono x y b c : 0 <= c <= b -> b <= 32 -> block x b = block y b -> block x c = block y c.
Proof.
  intros Hc Hb E. unfold block in *.
  assert (x / 2 ^ (32 - b) = y / 2 ^ (32 - b)) as E' by nia.
  replace (2 ^ (32 - c)) with (2 ^ (32 - b) * 2 ^ (b - c)) by (rewrite <- Z.pow_add_r by lia; f_equal; lia).
  by rewrite <- !Z.div_div, E' by lia.
Qed.
Lemma block_block v b c : 0 <= c <= b -> b <= 32 -> block (block v b) c = block v c.
Proof. intros. apply (block_mono _ _ b); [done|done|]. apply block_idem. lia. Qed.

Lemma shiftr_lxor_zero x y n : 0 <= n ->
  (Z.shiftr (Z.lxor x y) n =? 0) = (x / 2 ^ n =? y / 2 ^ n).
Proof.
  intros. rewrite Z.shiftr_lxor, !Z.shiftr_div_pow2 by done. apply Bool.eq_iff_eq_true.
  rewrite !Z.eqb_eq. apply Z.lxor_eq_0_iff.
Qed.

Lemma Contains_block p v b x : prefix4 p v b ->
  Contains p (Addr4 x) = (block x b =? block v b).
Proof.
  intros (-> & Hv & Hb). unfold Contains, PrefixIsValid. simpl.
  replace (0 <=? b) with true by (symmetry; apply Z.leb_le; lia). simpl.
  rewrite shiftr_lxor_zero by lia. unfold block. apply Bool.eq_iff_eq_true. rewrite !Z.eqb_eq.
  split; [by intros ->|]. intros E. assert (0 < 2 ^ (32 - b)) by lia. nia.
Qed.

Lemma Contains_range p v b x : prefix4 p v b ->
  Contains p (Addr4 x) = true <-> block v b <= x < block v b + 2 ^ (32 - b).
Proof.
  intros Hp. rewrite (Contains_block _ _ _ _ Hp), Z.eqb_eq. apply block_eq_iff. by destruct Hp as (_&_&?).
Qed.

Lemma AddrPrefix_block v b : 0 <= b <= 32 ->
  AddrPrefix (Addr4 v) b = Some (mkPrefix (Addr4 (block v b)) b).
Proof.
  intros. unfold AddrPrefix, PrefixFrom. rewrite mask_value_block by done.
  replace (b <? 0) with false by (symmetry; apply Z.ltb_ge; lia).
  replace (32 <? b) with false by (symmetry; apply Z.ltb_ge; lia).
  simpl. replace ((0 <=? b) && (b <=? 32)) with true; [done|].
  symmetry. apply andb_true_iff; split; apply Z.leb_le; lia.
Qed.

Lemma Masked_block p v b : prefix4 p v b -> Masked p = mkPrefix (Addr4 (block v b)) b.
Proof. intros (-> & Hv & Hb). unfold Masked. simpl. by rewrite AddrPrefix_block. Qed.

Lemma Masked_prefix4 p v b : prefix4 p v b -> prefix4 (Masked p) (block v b) b.
Proof.
  intros Hp. rewrite (Masked_block _ _ _ Hp). destruct Hp as (_ & Hv & Hb).
  split; [done|]. split; [|done]. by apply block_u32.
Qed.

Lemma Overlaps_block p q v w b c : prefix4 p v b -> prefix4 q w c ->
  Overlaps p q = (block v (Z.min b c) =? block w (Z.min b c)).
Proof.
  intros (-> & Hv & Hb) (-> & Hw & Hc). unfold Overlaps, PrefixIsValid. simpl.
  replace (0 <=? b) with true by (symmetry; apply Z.leb_le; lia).
  replace (0 <=? c) with true by (symmetry; apply Z.leb_le; lia). simpl.
  case_bool_decide as E.
  { simplify_eq. symmetry. by apply Z.eqb_eq. }
  destruct (Z.min b c =? 0) eqn:E0; breflect.
  { rewrite E0. symmetry. apply Z.eqb_eq. unfold block, u32 in *.
    rewrite !(Z.div_small _ (2 ^ (32 - 0))) by (simpl; lia). done. }
  rewrite !AddrPrefix_block by lia. simpl. apply Bool.eq_iff_eq_true.
  rewrite bool_decide_eq_true, Z.eqb_eq. split; [by intros [= ->]|by intros ->].
Qed.

(** [Overlaps] decides whether the two blocks share an address. *)
Lemma Overlaps_common p q v w b c : prefix4 p v b -> prefix4 q w c ->
  Overlaps p q = true <->
  exists x, u32 x /\ Contains p (Addr4 x) = true /\ Contains q (Addr4 x) = true.
Proof.
  intros Hp Hq. rewrite (Overlaps_block _ _ _ _ _ _ Hp Hq), Z.eqb_eq.
  setoid_rewrite (Contains_block _ _ _ _ Hp). setoid_rewrite (Contains_block _ _ _ _ Hq).
  destruct Hp as (-> & Hv & Hb), Hq as (-> & Hw & Hc). setoid_rewrite Z.eqb_eq. split.
  - intros E. destruct (Z.le_gt_cases b c).
    + rewrite Z.min_l in E by lia. exists w. split; [done|]. by split.
    + rewrite Z.min_r in E by lia. exists v. split; [done|]. by split.
  - intros (x & _ & E1 & E2). transitivity (block x (Z.min b c)).
    + symmetry. apply (block_mono _ _ b); [lia|lia|done].
    + apply (block_mono _ _ c); [lia|lia|done].
Qed.

Lemma Overlaps_sym p q v w b c : prefix4 p v b -> prefix4 q w c -> Overlaps p q = Overlaps q p.
Proof.
  intros Hp Hq. rewrite (Overlaps_block _ _ _ _ _ _ Hp Hq), (Overlaps_block _ _ _ _ _ _ Hq Hp).
  rewrite Z.min_comm. apply Z.eqb_sym.
Qed.

(** ** Printing prefixes *)

Lemma cut_last_byte_app c s t :
  cut_last_byte c t = None -> cut_last_byte c (s ++ String c t) = Some (s, t).
Proof.
  intros Ht. induction s as [|a s IH].
  - change ("" ++ ?x)%string with x. cbn [cut_last_byte]. by rewrite Ht, Ascii.eqb_refl.
  - rewrite str_app_cons. cbn [cut_last_byte]. by rewrite IH.
Qed.
Lemma cut_last_byte_digits c s : is_digit c = false -> all_digits s = true -> cut_last_byte c s = None.
Proof.
  intros Hc. induction s as [|a s IH]; [done|]. cbn [all_digits cut_last_byte].
  intros [Ha Hs]%andb_true_iff. rewrite IH by done.
  destruct (Ascii.eqb a c) eqn:E; [|done]. apply Ascii.eqb_eq in E as ->. congruence.
Qed.

Lemma PrefixString_eq v b : 0 <= b <= 32 ->
  PrefixString (mkPrefix (Addr4 v) b) = (string4 v ++ String "/" (utoa b))%string.
Proof.
  intros Hb. unfold PrefixString, PrefixIsValid, Itoa. simpl.
  replace (0 <=? b) with true by (symmetry; apply Z.leb_le; lia).
  by replace (b <? 0) with false by (symmetry; apply Z.ltb_ge; lia).
Qed.

Lemma bits_text b : 0 <= b <= 32 ->
  (1 <? String.length (utoa b))%nat && ((byte_val (ch (utoa b)) <? 49) || (57 <? byte_val (ch (utoa b)))) = false.
Proof.
  intros Hb.
  set (f b := (1 <? String.length (utoa b))%nat && ((byte_val (ch (utoa b)) <? 49) || (57 <? byte_val (ch (utoa b))))).
  assert (forallb (fun b => negb (f b)) (map Z.of_nat (seq 0 33)) = true) as HF by (vm_compute; reflexivity).
  rewrite forallb_forall in HF. change (f b = false). apply negb_true_iff, HF.
  apply in_map_iff. exists (Z.to_nat b). split; [lia|]. apply in_seq. lia.
Qed.

Lemma ParsePrefix_string p v b : prefix4 p v b -> ParsePrefix (PrefixString p) = Some p.
Proof.
  intros (-> & Hv & Hb). rewrite PrefixString_eq by done. unfold ParsePrefix.
  rewrite cut_last_byte_app by (apply cut_last_byte_digits; [done|apply all_digits_utoa; lia]).
  replace (string4 v) with (AddrString (Addr4 v)) by done. rewrite ParseAddr_string by done.
  simpl. rewrite bits_text by done. unfold Atoi. rewrite ParseInt_utoa by lia.
  replace ((b <? 0) || (32 <? b)) with false by (symmetry; apply orb_false_iff; split; apply Z.ltb_ge; lia).
  unfold PrefixFrom. simpl. replace ((0 <=? b) && (b <=? 32)) with true; [done|].
  symmetry. apply andb_true_iff; split; apply Z.leb_le; lia.
Qed.

Lemma PrefixString_inj p q v w b c : prefix4 p v b -> prefix4 q w c ->
  PrefixString p = PrefixString q -> p = q.
Proof.
  intros Hp Hq E. pose proof (ParsePrefix_string _ _ _ Hp) as H.
  rewrite E, (ParsePrefix_string _ _ _ Hq) in H. congruence.
Qed.

(** ** Neighbours *)

Lemma Next4 v : u32 v -> v + 1 < 2 ^ 32 -> Next (Addr4 v) = Addr4 (v + 1).
Proof. unfold u32. intros. simpl. destruct (v =? 4294967295) eqn:E; breflect; [lia|done]. Qed.
Lemma Prev4 v : u32 v -> 0 < v -> Prev (Addr4 v) = Addr4 (v - 1).
Proof. unfold u32. intros. simpl. destruct (v =? 0) eqn:E; breflect; [lia|done]. Qed.
Lemma Less4 a b : Less (Addr4 a) (Addr4 b) = (a <? b).
Proof. unfold Less, Compare. simpl. unfold Z.ltb. by destruct (a ?= b). Qed.

#[export] Hint Resolve block_u32 Masked_prefix4 : govpc.

(** ** ASCII text of addresses *)

Lemma ascii_only_app s t : ascii_only s = true -> ascii_only t = true -> ascii_only (s ++ t) = true.
Proof. induction s as [|c s IH]; [done|]. rewrite str_app_cons. cbn [ascii_only]. intros [-> H]%andb_true_iff Ht. simpl. auto. Qed.
Lemma ascii_only_digits s : all_digits s = true -> ascii_only s = true.
Proof.
  induction s as [|c s IH]; [done|]. cbn [all_digits ascii_only]. intros [Hc Hs]%andb_true_iff. rewrite IH by done.
  unfold is_digit, ascii7 in *. breflect. rewrite andb_true_r. apply Z.ltb_lt. lia.
Qed.
Lemma ascii_utoa n : 0 <= n -> ascii_only (utoa n) = true.
Proof. intros. by apply ascii_only_digits, all_digits_utoa. Qed.
Lemma ascii_Addr4 v : ascii_only (AddrString (Addr4 v)) = true.
Proof.
  unfold AddrString, string4.
  repeat (apply ascii_only_app; [by first [reflexivity|apply ascii_utoa; apply octet_range; lia]|]).
  apply ascii_utoa. apply octet_range. lia.
Qed.
Lemma ascii_Prefix4 p v b : prefix4 p v b -> ascii_only (PrefixString p) = true.
Proof.
  intros (-> & _ & Hb). rewrite PrefixString_eq by done. apply ascii_only_app; [apply ascii_Addr4|].
  cbn [ascii_only]. apply andb_true_iff. split; [done|]. apply ascii_utoa; lia.
Qed.

(** From here on these are used through their lemmas; evaluation by the virtual
    machine still runs them. *)
#[global] Opaque utoa Itoa string4 AddrString PrefixString ParseAddr ParsePrefix sha256_hex
  mask_value octet parse4 parse6 ParseInt ParseUint.
