(* ===== verification/Validation.v ===== *)
(** * The validation functions of Kubernetes' apimachinery

    [k8s.io/apimachinery] is not part of the repository: its validators are
    operations of the class [Validation], an argument of every definition that
    calls them. Each returns the list of problems, empty for a valid value. *)
From S2P Require Import Prelude.

(** [metav1.LabelSelector] *)
Record LabelSelectorRequirement := mkReq {
  lsr_Key : string; lsr_Operator : string; lsr_Values : list string }.
Record LabelSelector := mkSelector {
  ls_MatchLabels : gmap string string; ls_MatchExpressions : list LabelSelectorRequirement }.

#[export] Instance LabelSelectorRequirement_eq_dec : EqDecision LabelSelectorRequirement.
Proof. solve_decision. Defined.
#[export] Instance LabelSelector_eq_dec : EqDecision LabelSelector.
Proof. solve_decision. Defined.

Class Validation := {
  IsDNS1123Label : string -> list string;
  IsDNS1123Subdomain : string -> list string;
  IsValidLabelValue : string -> list string;
  IsQualifiedName : string -> list string;
  (** [metavalidation.ValidateLabelSelector] of an optional selector. *)
  ValidateLabelSelector : option LabelSelector -> list string;
}.

(** [len(problems) != 0] *)
Definition bad (problems : list string) : bool := negb (bool_decide (problems = [])).

Lemma bad_false l : bad l = false -> l = [].
Proof. unfold bad. intros H. breflect. done. Qed.
