(* ===== verification/SiteConfig.v ===== *)
(** * [internal/siteconfig]: administrator-owned local grants

    The conservative IPv4 boundary [Prefix]/[Host]/[LastAddress] that every other
    component shares, and the validation of a site's configuration. *)
From S2P Require Import Prelude GoStd NetIP NetIPFacts Validation.
Open Scope Z_scope.

Record Cluster := mkCluster {
  cl_Name : string; cl_UID : string; cl_Kubeconfig : string;
  cl_NBCommand : list string; cl_SBCommand : list string }.
Record Gateway := mkGateway { gw_ID : string; gw_IP : string }.
Record BFD := mkBFD {
  bfd_SourceIP : string; bfd_MinRX : Z; bfd_MinTX : Z; bfd_Multiplier : Z;
  bfd_NodeSelector : option LabelSelector }.
Record Grant := mkGrant {
  gr_GlobalVpcID : string; gr_DelegatedPrefixes : list string; gr_TransitCIDR : string;
  gr_RouterIP : string; gr_GatewayIP : string; gr_Gateways : list Gateway; gr_BFD : option BFD }.
Record Config := mkConfig {
  cfg_SiteID : string; cfg_AttachmentID : string; cfg_Cluster : Cluster;
  cfg_GatewayCommand : list string; cfg_GatewayRevision : string; cfg_Grants : list Grant;
  cfg_BFDTransactionCommand : list string }.

(** ** The shared IPv4 boundary *)

Definition LastAddress (p : NetIP.Prefix) : Addr :=
  match paddr p with
  | Addr4 a =>
      let '(b0, b1, b2, b3) := As4 a in
      let v := Z.lor (Z.lor (Z.lor (Z.shiftl b0 24) (Z.shiftl b1 16)) (Z.shiftl b2 8)) b3 in
      let v := Z.lor v (Z.shiftr 4294967295 (pbits p)) in
      AddrFrom4 (Z.land (Z.shiftr v 24) 255, Z.land (Z.shiftr v 16) 255, Z.land (Z.shiftr v 8) 255, Z.land v 255)
  | _ => AddrZero (* [As4] panics: every caller has checked [Is4] *)
  end.

Definition Prefix (raw : string) : res NetIP.Prefix :=
  let msg := "must be a canonical IPv4 network from /8 through /30" in
  match ParsePrefix raw with
  | None => Err (Errorf msg)
  | Some p =>
      reject negb (Is4 (paddr p)) || (pbits p <? 8) || (30 <? pbits p) ||
             negb (PrefixString (Masked p) =? raw)%string with Errorf msg ;;
      reject negb (IsGlobalUnicast (paddr p)) || negb (IsGlobalUnicast (LastAddress p)) ||
             IsLoopback (paddr p) || IsLinkLocalUnicast (paddr p)
        with Errorf "must be a unicast subnet outside loopback and link-local ranges" ;;
      Ok p
  end.

Definition Host (raw : string) (p : NetIP.Prefix) : res Addr :=
  let msg := "must be a usable IPv4 host in its subnet, excluding network and broadcast" in
  match ParseAddr raw with
  | None => Err (Errorf msg)
  | Some a =>
      reject negb (Is4 a) || negb (AddrString a =? raw)%string || negb (Contains p a) ||
             bool_decide (a = paddr p) || bool_decide (a = LastAddress p) || negb (IsGlobalUnicast a)
        with Errorf msg ;;
      Ok a
  end.

Definition command (argv : list string) : bool :=
  match argv with a :: _ => negb (a =? "")%string | [] => false end.

(** ** Validation of grants *)

Section validate.
Context {VAL : Validation}.

(** The loop over [g.Gateways] with its [ids] and [ips] sets. *)
Fixpoint validateMembers (transit : NetIP.Prefix) (ids ips : gset string) (members : list Gateway)
  : res unit :=
  match members with
  | [] => Ok tt
  | m :: rest =>
      reject bad (IsDNS1123Label (gw_ID m)) || bool_decide (gw_ID m ∈ ids)
        with Errorf "gateway IDs must be unique DNS labels" ;;
      reject negb (is_ok (Host (gw_IP m) transit)) || bool_decide (gw_IP m ∈ ips)
        with Errorf "gateway IPs must be unique usable transit hosts distinct from routerIP" ;;
      validateMembers transit ({[gw_ID m]} ∪ ids) ({[gw_IP m]} ∪ ips) rest
  end.

Definition validateGateways (g : Grant) (transit : NetIP.Prefix) : res unit :=
  match gr_Gateways g with
  | [] =>
      reject (match gr_BFD g with Some _ => true | None => false end)
        with Errorf "BFD requires HA gateways" ;;
      match Host (gr_GatewayIP g) transit with
      | Err e => Err (Wrapf "grant gatewayIP" e)
      | Ok _ =>
          reject (gr_RouterIP g =? gr_GatewayIP g)%string
            with Errorf "grant routerIP and gatewayIP must differ" ;;
          Ok tt
      end
  | _ =>
      let n := List.length (gr_Gateways g) in
      match gr_BFD g with
      | None => Err (Errorf "HA requires 2 through 8 gateways and BFD, without legacy gatewayIP")
      | Some b =>
          reject negb (gr_GatewayIP g =? "")%string || (n <? 2)%nat || (8 <? n)%nat
            with Errorf "HA requires 2 through 8 gateways and BFD, without legacy gatewayIP" ;;
          _ <-? validateMembers transit ∅ {[gr_RouterIP g]} (gr_Gateways g) ;;
          reject (match ParseAddr (bfd_SourceIP b) with
                  | None => true
                  | Some a => negb (Is4 a) || negb (AddrString a =? bfd_SourceIP b)%string ||
                              negb (IsGlobalUnicast a) || IsLoopback a || IsLinkLocalUnicast a
                  end)
            with Errorf "BFD sourceIP must be a canonical unicast IPv4 address outside loopback and link-local ranges" ;;
          reject (bfd_MinRX b <? 100) || (60000 <? bfd_MinRX b) || (bfd_MinTX b <? 100) ||
                 (60000 <? bfd_MinTX b) || (bfd_Multiplier b <? 2) || (255 <? bfd_Multiplier b)
            with Errorf "BFD minRX/minTX must be 100 through 60000 milliseconds and multiplier 2 through 255" ;;
          let errors := ValidateLabelSelector (bfd_NodeSelector b) in
          reject bad errors with Errorf ("BFD nodeSelector is invalid: " ++ Join ", " errors) ;;
          Ok tt
      end
  end.

(** The loop over [g.DelegatedPrefixes]; [seen] starts with the transit. *)
Fixpoint validateDelegated (seen : list NetIP.Prefix) (raws : list string) : res (list NetIP.Prefix) :=
  match raws with
  | [] => Ok seen
  | raw :: rest =>
      match Prefix raw with
      | Err e => Err (Wrapf "delegated prefix" e)
      | Ok p =>
          reject existsb (fun previous => Overlaps p previous) seen
            with Errorf "delegated prefixes and local transit must not overlap within a tenant" ;;
          validateDelegated (seen ++ [p]) rest
      end
  end.

Definition validateGrant (c : Config) (ids : gset string) (g : Grant) : res unit :=
  reject bad (IsDNS1123Subdomain (gr_GlobalVpcID g)) || bool_decide (gr_GlobalVpcID g ∈ ids)
    with Errorf "grant globalVpcID must be a unique DNS subdomain" ;;
  match Prefix (gr_TransitCIDR g) with
  | Err e => Err (Wrapf "grant transitCIDR" e)
  | Ok transit =>
      match Host (gr_RouterIP g) transit with
      | Err e => Err (Wrapf "grant routerIP" e)
      | Ok _ =>
          _ <-? validateGateways g transit ;;
          reject negb (bool_decide (gr_Gateways g = [])) && negb (command (cfg_BFDTransactionCommand c))
            with Errorf "HA requires a local BFD transaction command" ;;
          reject bool_decide (gr_DelegatedPrefixes g = []) with Errorf "grant requires delegated prefixes" ;;
          seen <-? validateDelegated [transit] (gr_DelegatedPrefixes g) ;;
          match gr_BFD g with
          | None => Ok tt
          | Some b =>
              let source := ParseAddr_ (bfd_SourceIP b) in
              reject existsb (fun p => Contains p source) seen
                with Errorf "BFD sourceIP must be outside local delegated prefixes and transit" ;;
              Ok tt
          end
      end
  end.

Fixpoint validateGrants (c : Config) (ids : gset string) (gs : list Grant) : res unit :=
  match gs with
  | [] => Ok tt
  | g :: rest =>
      _ <-? validateGrant c ids g ;;
      validateGrants c ({[gr_GlobalVpcID g]} ∪ ids) rest
  end.

Definition Validate (c : Config) : res unit :=
  reject bad (IsDNS1123Label (cfg_SiteID c)) || bad (IsDNS1123Label (cfg_AttachmentID c))
    with Errorf "siteID and attachmentID must be DNS labels" ;;
  reject bad (IsDNS1123Subdomain (cl_Name (cfg_Cluster c))) || (cl_UID (cfg_Cluster c) =? "")%string ||
         bad (IsValidLabelValue (cl_UID (cfg_Cluster c))) || (cl_Kubeconfig (cfg_Cluster c) =? "")%string
    with Errorf "local cluster name, UID and kubeconfig are required" ;;
  reject negb (command (cl_NBCommand (cfg_Cluster c))) || negb (command (cl_SBCommand (cfg_Cluster c))) ||
         negb (command (cfg_GatewayCommand c))
    with Errorf "local NB, SB and gateway commands are required" ;;
  reject bad (IsDNS1123Label (cfg_GatewayRevision c))
    with Errorf "gatewayRevision must be a DNS label matching the local backend registration" ;;
  reject bool_decide (cfg_Grants c = []) with Errorf "at least one local tenant grant is required" ;;
  validateGrants c ∅ (cfg_Grants c).
End validate.

Arguments LastAddress : simpl never.
Arguments Prefix : simpl never.
Arguments Host : simpl never.

(** ** What [Prefix], [Host] and [LastAddress] accept *)

Lemma LastAddress_block p v b : prefix4 p v b -> b <= 31 -> block v b = v ->
  LastAddress p = Addr4 (v + 2 ^ (32 - b) - 1).
Proof.
  intros (-> & Hv & Hb) Hb31 Hal. unfold LastAddress. simpl paddr. simpl pbits.
  unfold As4 at 1. cbv beta iota zeta. rewrite As4_value by done.
  replace (Z.shiftr 4294967295 b) with (2 ^ (32 - b) - 1).
  2:{ change 4294967295 with (Z.ones 32). rewrite Z.ones_equiv, Z.shiftr_div_pow2 by lia.
      replace (Z.pred (2 ^ 32)) with ((2 ^ (32 - b) - 1) * 2 ^ b + (2 ^ b - 1)).
      2:{ replace (2 ^ 32) with (2 ^ (32 - b) * 2 ^ b) by (rewrite <- Z.pow_add_r by lia; f_equal; lia). lia. }
      rewrite Z.div_add_l by lia. rewrite Z.div_small by lia. lia. }
  rewrite (lor_aligned v _ (32 - b)); [|lia|rewrite <- Hal; by apply block_aligned|lia].
  replace (v + (2 ^ (32 - b) - 1)) with (v + 2 ^ (32 - b) - 1) by lia.
  apply AddrFrom4_bytes.
  pose proof (block_u32 v b Hb Hv) as [_ Hr]. rewrite Hal in Hr. unfold u32 in *. lia.
Qed.

(** The facts a successful [Prefix] establishes. *)
Lemma Prefix_ok raw p : Prefix raw = Ok p ->
  exists v b, prefix4 p v b /\ 8 <= b <= 30 /\ block v b = v /\ PrefixString p = raw /\
    IsGlobalUnicast (Addr4 v) = true /\ IsGlobalUnicast (Addr4 (v + 2 ^ (32 - b) - 1)) = true.
Proof.
  unfold Prefix. intros H. follow H. injection H as ->.
  match goal with HP : ParsePrefix raw = _ |- _ =>
    destruct (ParsePrefix_is4 _ _ HP) as (v & b & Hp); [done|]; rename HP into EP end.
  match goal with HM : PrefixString (Masked p) = raw |- _ => rename HM into EM end.
  pose proof (Masked_block _ _ _ Hp) as HM.
  pose proof (ParsePrefix_string _ _ _ (Masked_prefix4 _ _ _ Hp)) as Hmask.
  rewrite EM, EP, HM in Hmask. pose proof Hp as (-> & Hv & Hb). simpl in *.
  injection Hmask as Hal. symmetry in Hal. rewrite HM, Hal in EM.
  exists v, b. rewrite <- (LastAddress_block _ _ _ Hp) by (assumption || lia).
  split; [assumption|]. split; [lia|]. do 2 (split; [assumption|]). split; assumption.
Qed.

Lemma Host_ok raw p v b a : prefix4 p v b -> b <= 30 -> block v b = v -> Host raw p = Ok a ->
  exists x, a = Addr4 x /\ raw = AddrString (Addr4 x) /\ v < x < v + 2 ^ (32 - b) - 1 /\
            IsGlobalUnicast (Addr4 x) = true.
Proof.
  intros Hp Hb30 Hal. unfold Host. intros H. follow H. injection H as ->.
  match goal with HP : ParseAddr _ = Some a |- _ =>
    destruct (ParseAddr_is4 _ _ HP) as (x & -> & Hx); [assumption|] end.
  match goal with HC : Contains p _ = true |- _ =>
    apply (Contains_range _ _ _ _ Hp) in HC; rewrite Hal in HC end.
  pose proof Hp as (E & Hv & Hb). rewrite (LastAddress_block _ _ _ Hp) in * by (assumption || lia).
  assert (paddr p = Addr4 v) as E' by by rewrite E. rewrite E' in *.
  assert (x <> v) by congruence. assert (x <> v + 2 ^ (32 - b) - 1) by congruence.
  exists x. split; [reflexivity|]. split; [by symmetry|]. split; [lia|assumption].
Qed.

(** A parsed prefix determines its text: distinct texts never alias. *)
Lemma Prefix_inj r1 r2 p : Prefix r1 = Ok p -> Prefix r2 = Ok p -> r1 = r2.
Proof.
  intros (v & b & _ & _ & _ & E1 & _)%Prefix_ok (w & c & _ & _ & _ & E2 & _)%Prefix_ok. congruence.
Qed.

(** Two accepted prefixes overlap exactly when they share an address. *)
Lemma Prefix_overlap r1 r2 p q : Prefix r1 = Ok p -> Prefix r2 = Ok q ->
  Overlaps p q = true <-> exists x, u32 x /\ Contains p (Addr4 x) = true /\ Contains q (Addr4 x) = true.
Proof.
  intros (v & b & Hp & _)%Prefix_ok (w & c & Hq & _)%Prefix_ok. by eapply Overlaps_common.
Qed.

(** *** Unicast *)

Lemma global_unicast4 x : u32 x ->
  IsGlobalUnicast (Addr4 x) = true <->
  x <> 0 /\ x <> 4294967295 /\ x / 2 ^ 24 <> 127 /\ ~ 224 <= x / 2 ^ 24 < 240 /\ x / 2 ^ 16 <> 169 * 256 + 254.
Proof.
  intros Hx. unfold IsGlobalUnicast, IsLoopback, IsMulticast, IsLinkLocalUnicast. simpl unmap. cbv beta iota.
  pose proof (octet_range x 0 ltac:(lia)) as H0. pose proof (octet_range x 1 ltac:(lia)) as H1.
  assert (octet x 0 = x / 2 ^ 24) as E0.
  { rewrite octet_div by lia. simpl (8 * _). apply Z.mod_small. unfold u32 in Hx. split.
    - apply Z.div_pos; lia. - apply Z.div_lt_upper_bound; lia. }
  assert (x / 2 ^ 16 = octet x 0 * 256 + octet x 1) as E1.
  { rewrite E0, (octet_div x 1) by lia. simpl (8 * _). clear.
    change (2 ^ 24) with (65536 * 256). change (2 ^ 16) with 65536. rewrite <- Z.div_div by lia.
    rewrite Z.mul_comm. apply Z.div_mod. lia. }
  assert (Z.land (octet x 0) 240 = 224 <-> 224 <= octet x 0 < 240) as E2.
  { clear - H0. revert H0. generalize (octet x 0). intros o Ho.
    assert (forallb (fun o => Bool.eqb (Z.land o 240 =? 224) ((224 <=? o) && (o <? 240))) (map Z.of_nat (seq 0 256)) = true) as HF
      by (vm_compute; reflexivity).
    rewrite forallb_forall in HF. specialize (HF o).
    rewrite <- Z.eqb_eq. assert (In o (map Z.of_nat (seq 0 256))) as Hin.
    { apply in_map_iff. exists (Z.to_nat o). split; [lia|]. apply in_seq. lia. }
    apply HF in Hin. apply Bool.eqb_prop in Hin. rewrite Hin, andb_true_iff, Z.leb_le, Z.ltb_lt. lia. }
  rewrite E1, <- E0. rewrite !andb_true_iff, !negb_true_iff, orb_false_iff, andb_false_iff, !Z.eqb_neq, E2. lia.
Qed.

(** A prefix that reaches no link-local address; [Prefix] only looks at its two ends. *)
Definition clear_of_link_local (p : NetIP.Prefix) : Prop :=
  forall x, u32 x -> Contains p (Addr4 x) = true -> x / 2 ^ 16 <> 169 * 256 + 254.

(** The addresses of an accepted prefix share their leading bits. *)
Lemma Prefix_leading raw p v b x k : Prefix raw = Ok p -> prefix4 p v b -> Contains p (Addr4 x) = true ->
  32 - b <= k <= 32 -> v <= x < v + 2 ^ (32 - b) /\ u32 x /\ x / 2 ^ k = v / 2 ^ k.
Proof.
  intros HP Hp HC Hk. apply Prefix_ok in HP as (v' & b' & Hp' & Hr & Hal & _ & _ & _).
  assert (v' = v /\ b' = b) as [-> ->] by (destruct Hp as (-> & _), Hp' as (E & _); by inversion E).
  apply (Contains_range _ _ _ _ Hp) in HC. rewrite Hal in HC. destruct Hp as (_ & Hv & _).
  pose proof (block_u32 v b ltac:(lia) Hv) as [_ Hle]. rewrite Hal in Hle. split; [done|].
  split; [unfold u32 in *; lia|].
  assert (block x (32 - k) = block v (32 - k)) as E.
  { apply (block_mono _ _ b); [lia|lia|]. apply block_eq_iff; [lia|]. rewrite Hal. lia. }
  unfold block in E. replace (32 - (32 - k)) with k in E by lia. assert (0 < 2 ^ k) by lia. nia.
Qed.

(** Every address of an accepted prefix outside the link-local block is global unicast. *)
Lemma Prefix_unicast_clear raw p x : Prefix raw = Ok p -> clear_of_link_local p ->
  Contains p (Addr4 x) = true -> u32 x /\ IsGlobalUnicast (Addr4 x) = true.
Proof.
  intros HP HL HC. pose proof HP as HP'. apply Prefix_ok in HP' as (v & b & Hp & Hr & Hal & _ & G1 & G2).
  destruct (Prefix_leading _ _ _ _ _ 24 HP Hp HC) as (Hx & Hu & E24); [lia|].
  split; [done|]. pose proof (HL x Hu HC). destruct Hp as (_ & Hv & _).
  pose proof (block_u32 v b ltac:(lia) Hv) as [_ Hle]. rewrite Hal in Hle.
  assert (u32 (v + 2 ^ (32 - b) - 1)) as Hl by (unfold u32 in *; lia).
  apply (global_unicast4 _ Hv) in G1. apply (global_unicast4 _ Hl) in G2. apply (global_unicast4 _ Hu).
  rewrite E24. unfold u32 in *. lia.
Qed.
Lemma Prefix_clear raw p v b : Prefix raw = Ok p -> prefix4 p v b -> 16 <= b -> clear_of_link_local p.
Proof.
  intros HP Hp Hb x Hu HC. destruct (Prefix_leading _ _ _ _ _ 16 HP Hp HC) as (_ & _ & E); [destruct Hp; lia|].
  apply Prefix_ok in HP as (v' & b' & Hp' & _ & _ & _ & G1 & _).
  assert (v' = v) as -> by (destruct Hp as (-> & _), Hp' as (E' & _); by inversion E').
  apply (global_unicast4 _ (proj1 (proj2 Hp))) in G1. lia.
Qed.

(** Looking at the two ends is not enough: a network accepted as outside the
    link-local block may contain all of it. *)
Lemma Prefix_admits_link_local : exists p, Prefix "169.0.0.0/8" = Ok p /\
  Contains p (Addr4 2851995649) = true /\ IsLinkLocalUnicast (Addr4 2851995649) = true.
Proof. exists (mkPrefix (Addr4 (169 * 2 ^ 24)) 8). by vm_compute. Qed.

(** Every address of an accepted prefix of length 16 or more is global unicast. *)
Lemma Prefix_unicast raw p v b x : Prefix raw = Ok p -> prefix4 p v b -> 16 <= b ->
  Contains p (Addr4 x) = true -> IsGlobalUnicast (Addr4 x) = true.
Proof. intros HP Hp Hb HC. eapply Prefix_unicast_clear; eauto using Prefix_clear. Qed.

Lemma ParsePrefix_installed raw p : Prefix raw = Ok p -> ParsePrefix_ raw = p.
Proof.
  intros H. apply Prefix_ok in H as (v & b & Hp & _ & _ & <- & _).
  unfold ParsePrefix_. by rewrite (ParsePrefix_string _ _ _ Hp).
Qed.

(** A masked block with unicast ends is accepted, and so are its inner hosts. *)
Lemma Prefix_accepts p v b : prefix4 p v b -> 8 <= b <= 30 -> block v b = v ->
  IsGlobalUnicast (Addr4 v) = true -> IsGlobalUnicast (Addr4 (v + 2 ^ (32 - b) - 1)) = true ->
  Prefix (PrefixString p) = Ok p.
Proof.
  intros Hp Hb Hal G1 G2. unfold Prefix. rewrite (ParsePrefix_string _ _ _ Hp), (Masked_block _ _ _ Hp), Hal.
  rewrite (LastAddress_block _ _ _ Hp), G2 by (assumption || lia). destruct Hp as (-> & Hv & _). simpl.
  rewrite String.eqb_refl, G1. replace (b <? 8) with false by (symmetry; apply Z.ltb_ge; lia).
  replace (30 <? b) with false by (symmetry; apply Z.ltb_ge; lia). simpl.
  unfold IsGlobalUnicast in G1. breflect.
  by match goal with HL : IsLoopback _ = false, HK : IsLinkLocalUnicast _ = false |- _ => rewrite HL, HK end.
Qed.
Lemma Host_accepts p v b x : prefix4 p v b -> b <= 30 -> block v b = v -> v < x < v + 2 ^ (32 - b) - 1 ->
  IsGlobalUnicast (Addr4 x) = true -> Host (AddrString (Addr4 x)) p = Ok (Addr4 x).
Proof.
  intros Hp Hb Hal Hx G. pose proof (block_u32 v b ltac:(destruct Hp; lia) (proj1 (proj2 Hp))) as [_ Hle].
  rewrite Hal in Hle. assert (u32 x) as Hu by (destruct Hp as (_ & Hv & _); unfold u32 in *; lia).
  unfold Host. rewrite ParseAddr_string by done. simpl Is4. rewrite String.eqb_refl, G.
  rewrite (LastAddress_block _ _ _ Hp) by (assumption || lia).
  assert (Contains p (Addr4 x) = true) as -> by (apply (Contains_range _ _ _ _ Hp); rewrite Hal; lia).
  destruct Hp as (-> & _). simpl. rewrite !bool_decide_eq_false_2 by (intros [= ?]; lia). done.
Qed.

(** *** Validated grants *)

Definition disjoint (p q : NetIP.Prefix) : Prop :=
  forall x, u32 x -> ~ (Contains p (Addr4 x) = true /\ Contains q (Addr4 x) = true).

Lemma validateDelegated_ok seen raws out :
  Forall (fun p => exists r, Prefix r = Ok p) seen ->
  ForallOrdPairs disjoint seen ->
  validateDelegated seen raws = Ok out ->
  exists ps, out = seen ++ ps /\ Forall2 (fun r p => Prefix r = Ok p) raws ps /\
    Forall (fun p => exists r, Prefix r = Ok p) out /\ ForallOrdPairs disjoint out.
Proof.
  revert seen. induction raws as [|raw raws IH]; intros seen Hs Hd; cbn [validateDelegated].
  - intros [= <-]. exists []. rewrite List.app_nil_r. by repeat split.
  - destruct (Prefix raw) as [p|e] eqn:E; [|done].
    destruct (existsb _ seen) eqn:Ex; [done|]. intros H.
    assert (Forall (disjoint p) seen) as Hp.
    { rewrite List.Forall_forall in *. intros q Hq x Hx [H1 H2].
      destruct (Hs q Hq) as [r Hr]. assert (Overlaps p q = true) as Ho
        by (eapply (Prefix_overlap raw r); eauto).
      assert (existsb (fun q => Overlaps p q) seen = true) by (apply existsb_exists; eauto). congruence. }
    destruct (IH (seen ++ [p])) as (ps & -> & HF & HA & HO); [| |exact H|].
    + apply Forall_app; split; [exact Hs|]. constructor; [eauto|constructor].
    + clear - Hd Hp. induction Hd as [|q l Hq Hd IH]; simpl; [repeat constructor|].
      inversion Hp; subst. constructor; [|by apply IH].
      apply Forall_app. split; [exact Hq|]. constructor; [|constructor].
      intros x Hx [H1' H2']. eapply H1; eauto.
    + exists (p :: ps). rewrite <- List.app_assoc in *. repeat split; try assumption. by constructor.
Qed.

(** What [validateGrant] guarantees of the addresses of one accepted grant. *)
Record grant_ok (g : Grant) (transit : NetIP.Prefix) (delegated : list NetIP.Prefix) : Prop := {
  go_transit : Prefix (gr_TransitCIDR g) = Ok transit;
  go_delegated : Forall2 (fun r p => Prefix r = Ok p) (gr_DelegatedPrefixes g) delegated;
  go_nonempty : gr_DelegatedPrefixes g <> [];
  go_disjoint : ForallOrdPairs disjoint (transit :: delegated);
  go_router : is_ok (Host (gr_RouterIP g) transit) = true;
  go_single : gr_Gateways g = [] -> is_ok (Host (gr_GatewayIP g) transit) = true /\ gr_RouterIP g <> gr_GatewayIP g;
  go_multi : gr_Gateways g <> [] ->
    (2 <= List.length (gr_Gateways g) <= 8)%nat /\
    NoDup (gr_RouterIP g :: map gw_IP (gr_Gateways g)) /\ NoDup (map gw_ID (gr_Gateways g)) /\
    Forall (fun m => is_ok (Host (gw_IP m) transit) = true) (gr_Gateways g) /\
    exists b, gr_BFD g = Some b /\ 100 <= bfd_MinRX b <= 60000 /\ 100 <= bfd_MinTX b <= 60000 /\
      2 <= bfd_Multiplier b <= 255;
  go_source : forall b a, gr_BFD g = Some b -> ParseAddr (bfd_SourceIP b) = Some a ->
    Forall (fun p => Contains p a = false) (transit :: delegated);
}.

Section grant_facts.
Context {VAL : Validation}.

Lemma validateMembers_ok transit ids ips ms :
  validateMembers transit ids ips ms = Ok tt ->
  Forall (fun m => is_ok (Host (gw_IP m) transit) = true) ms /\
  NoDup (map gw_IP ms) /\ Forall (fun m => gw_IP m ∉ ips) ms /\
  NoDup (map gw_ID ms) /\ Forall (fun m => gw_ID m ∉ ids) ms.
Proof.
  revert ids ips. induction ms as [|m ms IH]; intros ids ips; cbn [validateMembers map].
  { intros _. repeat split; constructor. }
  intros H. follow H. destruct (IH _ _ H) as (F1 & N1 & F2 & N2 & F3).
  rewrite List.Forall_forall in F1, F2, F3.
  repeat split.
  - apply List.Forall_forall. intros x [<-|Hx]; auto.
  - apply NoDup_cons. split; [|exact N1]. intros (x & E & Hx)%list_elem_of_fmap.
    apply (F2 x); [by apply list_elem_of_In|]. set_solver.
  - apply List.Forall_forall. intros x [<-|Hx]; [assumption|]. specialize (F2 x Hx). set_solver.
  - apply NoDup_cons. split; [|exact N2]. intros (x & E & Hx)%list_elem_of_fmap.
    apply (F3 x); [by apply list_elem_of_In|]. set_solver.
  - apply List.Forall_forall. intros x [<-|Hx]; [assumption|]. specialize (F3 x Hx). set_solver.
Qed.

Lemma validateGateways_ok g transit : validateGateways g transit = Ok tt ->
  (gr_Gateways g = [] -> is_ok (Host (gr_GatewayIP g) transit) = true /\ gr_RouterIP g <> gr_GatewayIP g) /\
  (gr_Gateways g <> [] ->
    (2 <= List.length (gr_Gateways g) <= 8)%nat /\
    NoDup (gr_RouterIP g :: map gw_IP (gr_Gateways g)) /\ NoDup (map gw_ID (gr_Gateways g)) /\
    Forall (fun m => is_ok (Host (gw_IP m) transit) = true) (gr_Gateways g) /\
    exists b, gr_BFD g = Some b /\ 100 <= bfd_MinRX b <= 60000 /\ 100 <= bfd_MinTX b <= 60000 /\
      2 <= bfd_Multiplier b <= 255).
Proof.
  unfold validateGateways. intros H. destruct (gr_Gateways g) as [|m ms] eqn:E.
  { split; [|done]. intros _. follow H. by split. }
  split; [done|]. intros _. follow H.
  match goal with HM : validateMembers _ _ _ _ = _ |- _ => apply validateMembers_ok in HM as (F1 & N1 & F2 & N2 & F3) end.
  repeat match goal with |- _ /\ _ => split end; try assumption.
  - apply NoDup_cons. split; [|exact N1]. intros (x & Ex & Hx)%list_elem_of_fmap.
    rewrite List.Forall_forall in F2. apply (F2 x); [by apply list_elem_of_In|]. set_solver.
  - eexists. split; [reflexivity|]. lia.
Qed.

Lemma validateGrant_ok c ids g : validateGrant c ids g = Ok tt ->
  (exists transit delegated, grant_ok g transit delegated) /\ gr_GlobalVpcID g ∉ ids /\
  (gr_Gateways g <> [] -> command (cfg_BFDTransactionCommand c) = true).
Proof.
  unfold validateGrant. intros H. follow H. all: match goal with HG : validateGateways _ _ = _, HD : validateDelegated [?t] _ = Ok _, HT : Prefix _ = _ |- _ =>
    apply validateGateways_ok in HG as [HG1 HG2];
    apply validateDelegated_ok in HD as (ps & Eo & F2 & _ & HO);
      [|constructor; [eauto|constructor]|repeat constructor] end.
  all: split; [|split; [assumption|]];
    [|match goal with HC : _ && _ = false |- _ => intros; apply andb_false_iff in HC as [HC|HC];
       breflect; [congruence|assumption] end].
  all: eexists _, ps; simpl in Eo; rewrite Eo in *; split; try eassumption.
  - by match goal with HR : Host (gr_RouterIP g) _ = Ok _ |- _ => rewrite HR end.
  - intros b' a' Hb' Ha'. simplify_eq. apply List.Forall_forall. intros q Hq.
    destruct (Contains q a') eqn:EC; [|done].
    match goal with HX : existsb _ _ = false |- _ => rewrite <- HX end.
    symmetry. apply existsb_exists. exists q. split; [exact Hq|]. unfold ParseAddr_. by rewrite Ha'.
  - by match goal with HR : Host (gr_RouterIP g) _ = Ok _ |- _ => rewrite HR end.
  - intros b' a' Hb'. congruence.
Qed.

(** [validateGrants] accepts only pairwise distinct tenants, each with a sound grant. *)
Lemma validateGrants_ok c ids gs : validateGrants c ids gs = Ok tt ->
  NoDup (map gr_GlobalVpcID gs) /\ Forall (fun g => gr_GlobalVpcID g ∉ ids) gs /\
  Forall (fun g => exists transit delegated, grant_ok g transit delegated) gs.
Proof.
  revert ids. induction gs as [|g gs IH]; intros ids; cbn [validateGrants map].
  { intros _. repeat split; constructor. }
  intros H. follow H.
  match goal with HG : validateGrant _ _ _ = _ |- _ => apply validateGrant_ok in HG as (HG & Hid & _) end.
  destruct (IH _ H) as (N & F1 & F2). rewrite List.Forall_forall in F1. repeat split.
  - apply NoDup_cons. split; [|exact N]. intros (x & E & Hx)%list_elem_of_fmap.
    apply (F1 x); [by apply list_elem_of_In|]. set_solver.
  - constructor; [assumption|]. apply List.Forall_forall. intros x Hx. specialize (F1 x Hx). set_solver.
  - by constructor.
Qed.
End grant_facts.

#[global] Opaque LastAddress Prefix Host.
