(* ===== verification/DestinationRoute.v ===== *)
(** * [integration/kube-ovn/destinationroute]: destination-route intent

    [Compile] validates and canonicalises a list of intents into a hashed plan;
    [ReachableGateway] and [Children] are the address computations of the native
    OVN writer. *)
From S2P Require Import Prelude GoStd Json NetIP NetIPFacts.
Open Scope Z_scope.

Definition Capability : string := "destination-routes.v1".
Definition OwnerKey : string := "kube-ovn.io/destination-vpc-uid".
Definition RouteKey : string := "kube-ovn.io/destination-route".

Record BFD := mkBFD { MinRX : Z; MinTX : Z; Multiplier : Z }.
Record Intent := mkIntent {
  CIDR : string; NextHops : list string; in_BFD : BFD; SelectionFields : list string }.
Record Plan := mkPlan { Routes : list Intent; Sessions : gmap string BFD; Hash : string }.

#[export] Instance BFD_eq_dec : EqDecision BFD.
Proof. solve_decision. Defined.
#[export] Instance Intent_eq_dec : EqDecision Intent.
Proof. solve_decision. Defined.
#[export] Instance Plan_eq_dec : EqDecision Plan.
Proof. solve_decision. Defined.

(** The JSON of a route: field order cidr, nextHops, bfd, selectionFields. *)
Definition bfd_json (b : BFD) : json :=
  JObj [("minRX", JInt (MinRX b)); ("minTX", JInt (MinTX b)); ("multiplier", JInt (Multiplier b))].
Definition intent_json (r : Intent) : json :=
  JObj [("cidr", JStr (CIDR r)); ("nextHops", JArr (map JStr (NextHops r)));
        ("bfd", bfd_json (in_BFD r)); ("selectionFields", JArr (map JStr (SelectionFields r)))].
Definition routes_hash (rs : list Intent) : string := sha256_hex (Marshal (JArr (map intent_json rs))).

Definition allowed : list string :=
  ["eth_src"; "eth_dst"; "ip_proto"; "ip_src"; "ip_dst"; "tp_src"; "tp_dst"].

(** The destination check at the head of the loop. *)
Definition destination (cidr : string) : option Prefix :=
  match ParsePrefix cidr with
  | None => None
  | Some p =>
      if negb (Is4 (paddr p)) || (pbits p =? 0) || (pbits p =? 32) ||
         negb (PrefixString (Masked p) =? cidr)%string || negb (IsGlobalUnicast (paddr p))
      then None else Some p
  end.
Definition timers_ok (b : BFD) : bool :=
  negb ((MinRX b <? 1) || (3600000 <? MinRX b) || (MinTX b <? 1) || (3600000 <? MinTX b) ||
        (Multiplier b <? 1) || (255 <? Multiplier b)).
Definition hop_ok (p : Prefix) (hop : string) : bool :=
  match ParseAddr hop with
  | None => false
  | Some a => Is4 a && IsGlobalUnicast a && (AddrString a =? hop)%string && negb (Contains p a)
  end.

(** The inner loop over next hops: [hops] is its set of seen hops. *)
Fixpoint compile_hops (p : Prefix) (b : BFD) (sessions : gmap string BFD) (hops : gset string)
    (l : list string) : res (gmap string BFD) :=
  match l with
  | [] => Ok sessions
  | hop :: l =>
      reject negb (hop_ok p hop) || bool_decide (hop ∈ hops)
        with Errorf "invalid, duplicated, or destination-overlapping next hop" ;;
      reject (match sessions !! hop with Some timers => negb (bool_decide (timers = b)) | None => false end)
        with Errorf "shared next hop has conflicting BFD timers" ;;
      compile_hops p b (<[hop := b]> sessions) ({[hop]} ∪ hops) l
  end.
Fixpoint compile_fields (fields : gset string) (l : list string) : res unit :=
  match l with
  | [] => Ok tt
  | f :: l =>
      reject negb (bool_decide (f ∈ allowed)) || bool_decide (f ∈ fields)
        with Errorf "invalid or duplicate ECMP selection field" ;;
      compile_fields ({[f]} ∪ fields) l
  end.

Record cstate := mkCState { c_prefixes : list Prefix; c_sessions : gmap string BFD; c_routes : list Intent }.

Definition compile_route (st : cstate) (r : Intent) : res cstate :=
  match destination (CIDR r) with
  | None => Err (Errorf "destination must be a canonical non-default unicast IPv4 prefix with length 1-31")
  | Some p =>
      reject existsb (fun other => Overlaps p other) (c_prefixes st)
        with Errorf "destination prefixes overlap" ;;
      reject (List.length (NextHops r) <? 2)%nat || (64 <? List.length (NextHops r))%nat
        with Errorf "destination requires 2-64 gateway next hops" ;;
      reject negb (timers_ok (in_BFD r)) with Errorf "invalid BFD timers" ;;
      sessions <-? compile_hops p (in_BFD r) (c_sessions st) ∅ (NextHops r) ;;
      reject (List.length (SelectionFields r) =? 0)%nat || (7 <? List.length (SelectionFields r))%nat
        with Errorf "explicit ECMP selection fields are required" ;;
      _ <-? compile_fields ∅ (SelectionFields r) ;;
      Ok (mkCState (c_prefixes st ++ [p]) sessions
            (c_routes st ++ [mkIntent (CIDR r) (sort_strings (NextHops r)) (in_BFD r)
                                      (sort_strings (SelectionFields r))]))
  end.
Fixpoint compile_loop (st : cstate) (input : list Intent) : res cstate :=
  match input with
  | [] => Ok st
  | r :: rest => st' <-? compile_route st r ;; compile_loop st' rest
  end.
Definition Compile (input : list Intent) : res Plan :=
  reject (256 <? List.length input)%nat
    with Errorf "at most 256 destination prefixes are supported" ;;
  st <-? compile_loop (mkCState [] ∅ []) input ;;
  let routes := sort_by_key CIDR (c_routes st) in
  Ok (mkPlan routes (c_sessions st) (routes_hash routes)).

(** [ReachableGateway] looks for an ordinary connected network of the hop. *)
Definition gateway_on (a : Addr) (raw : string) : bool :=
  match ParsePrefix raw with
  | None => false
  | Some p =>
      if Contains p a && negb (bool_decide (a = paddr p)) && negb (bool_decide (a = paddr (Masked p))) then
        if Is4 (paddr p) && (pbits p <? 31) then
          match paddr (Masked p) with
          | Addr4 m =>
              let '(b0, b1, b2, b3) := As4 m in
              let n := Z.lor (Z.lor (Z.lor (Z.shiftl b0 24) (Z.shiftl b1 16)) (Z.shiftl b2 8)) b3 in
              let n := Z.lor n (Z.land (Z.shiftl 1 (32 - pbits p) - 1) 4294967295) in
              negb (bool_decide (a = AddrFrom4 (Z.land (Z.shiftr n 24) 255, Z.land (Z.shiftr n 16) 255,
                                                Z.land (Z.shiftr n 8) 255, Z.land n 255)))
          | _ => true
          end
        else true
      else false
  end.
Definition ReachableGateway (hop : string) (networks : list string) : bool :=
  match ParseAddr hop with
  | None => false
  | Some a => existsb (gateway_on a) networks
  end.

(** [Children]: the two halves of a destination; [MustParsePrefix] panics on a
    text that [Compile] has not accepted, modelled as [None]. *)
Definition Children (cidr : string) : option (string * string) :=
  match ParsePrefix cidr with
  | Some p =>
      match paddr p with
      | Addr4 a =>
          let '(b0, b1, b2, b3) := As4 a in
          let n := Z.lor (Z.lor (Z.lor (Z.shiftl b0 24) (Z.shiftl b1 16)) (Z.shiftl b2 8)) b3 in
          let n := Z.lor n (Z.shiftl 1 (31 - pbits p)) in
          let second := AddrFrom4 (Z.land (Z.shiftr n 24) 255, Z.land (Z.shiftr n 16) 255,
                                   Z.land (Z.shiftr n 8) 255, Z.land n 255) in
          Some (PrefixString (PrefixFrom (paddr p) (pbits p + 1)), PrefixString (PrefixFrom second (pbits p + 1)))
      | _ => None
      end
  | None => None
  end.

(** ** Which inputs compile *)

(** The checks on one intent alone, and between two intents of one plan. *)
Definition route_valid (r : Intent) : Prop :=
  exists p, destination (CIDR r) = Some p /\ (2 <= List.length (NextHops r) <= 64)%nat /\
    timers_ok (in_BFD r) = true /\ Forall (fun h => hop_ok p h = true) (NextHops r) /\ NoDup (NextHops r) /\
    (1 <= List.length (SelectionFields r) <= 7)%nat /\ NoDup (SelectionFields r) /\
    Forall (fun f => f ∈ allowed) (SelectionFields r).
Definition pref (r : Intent) : Prefix := match destination (CIDR r) with Some p => p | None => PrefixZero end.
Definition compatible (r s : Intent) : Prop :=
  Overlaps (pref r) (pref s) = false /\ (forall h, h ∈ NextHops r -> h ∈ NextHops s -> in_BFD r = in_BFD s).
Definition list_ok (l : list Intent) : Prop := Forall route_valid l /\ ForallOrdPairs compatible l.

(** The abstract plan: normalised routes in CIDR order, every next hop with the
    timers of its routes. *)
Definition normalize (r : Intent) : Intent :=
  mkIntent (CIDR r) (sort_strings (NextHops r)) (in_BFD r) (sort_strings (SelectionFields r)).
Definition add_sessions (m : gmap string BFD) (r : Intent) : gmap string BFD :=
  foldl (fun m h => <[h := in_BFD r]> m) m (NextHops r).
Definition sessions_of (l : list Intent) : gmap string BFD := foldl add_sessions ∅ l.
Definition plan_of (l : list Intent) : Plan :=
  let routes := sort_by_key CIDR (map normalize l) in
  mkPlan routes (sessions_of l) (routes_hash routes).

Lemma destination_ok cidr p : destination cidr = Some p ->
  exists v b, prefix4 p v b /\ 1 <= b <= 31 /\ block v b = v /\ PrefixString p = cidr /\ IsGlobalUnicast (Addr4 v) = true.
Proof.
  unfold destination. intros H. follow H. injection H as ->.
  match goal with HP : ParsePrefix cidr = _ |- _ => destruct (ParsePrefix_is4 _ _ HP) as (v & b & Hp); [done|]; rename HP into EP end.
  pose proof (ParsePrefix_string _ _ _ (Masked_prefix4 _ _ _ Hp)) as Hm.
  match goal with HM : PrefixString (Masked p) = cidr |- _ => rewrite HM, EP in Hm; rename HM into EM end.
  rewrite (Masked_block _ _ _ Hp) in Hm. pose proof Hp as (-> & Hv & Hb). simpl in *.
  injection Hm as Hal. rewrite (Masked_block _ _ _ Hp), <- Hal in EM.
  exists v, b. split; [exact Hp|]. split; [lia|]. split; [by symmetry|]. by split.
Qed.

Lemma route_valid_dest r : route_valid r -> destination (CIDR r) = Some (pref r).
Proof. intros (p & E & _). unfold pref. by rewrite E. Qed.

Lemma compatible_sym r s : route_valid r -> route_valid s -> compatible r s -> compatible s r.
Proof.
  intros Hr%route_valid_dest Hs%route_valid_dest [HO HB].
  destruct (destination_ok _ _ Hr) as (v & b & Hp & _), (destination_ok _ _ Hs) as (w & c & Hq & _).
  split; [|intros h H1 H2; symmetry; eauto]. by rewrite <- (Overlaps_sym _ _ _ _ _ _ Hp Hq).
Qed.

Lemma compile_hops_iff p b m seen l m' :
  compile_hops p b m seen l = Ok m' <->
  (Forall (fun h => hop_ok p h = true) l /\ NoDup l /\ (forall h, h ∈ l -> h ∉ seen) /\
   (forall h t, h ∈ l -> m !! h = Some t -> t = b)) /\
  m' = foldl (fun m h => <[h := b]> m) m l.
Proof.
  revert m seen. induction l as [|h l IH]; intros m seen; cbn [compile_hops foldl].
  - split; [intros [= ->]; repeat split; try constructor; set_solver | intros [_ ->]; done].
  - destruct (hop_ok p h) eqn:E1; simpl.
    2:{ split; [done|]. intros [(HF & _) _]. inversion HF. congruence. }
    case_bool_decide as E2.
    { split; [done|]. intros [(_ & _ & HN & _) _]. exfalso. eapply HN; [|exact E2]. set_solver. }
    assert ((match m !! h with Some t => negb (bool_decide (t = b)) | None => false end) = false <->
            (forall t, m !! h = Some t -> t = b)) as Ht.
    { destruct (m !! h) as [t|] eqn:Em; [|naive_solver]. rewrite negb_false_iff, bool_decide_eq_true. naive_solver. }
    destruct (match m !! h with Some t => negb (bool_decide (t = b)) | None => false end) eqn:E3.
    { split; [done|]. intros [(_ & _ & _ & HS) _]. assert (true = false); [|done]. apply Ht. intros t. apply HS. set_solver. }
    rewrite IH. clear IH. apply (proj1 Ht) in E3 || (pose proof (proj1 Ht eq_refl) as E4).
    pose proof (proj1 Ht eq_refl) as Hm. rewrite List.Forall_cons_iff, NoDup_cons.
    split; intros [(HF & HN & HS & HM) ->]; (split; [|done]).
    + split; [done|]. split; [split; [|done]|split].
      * intros Hin. apply (HS h Hin). set_solver.
      * intros h' [->|Hin]%elem_of_cons; [done|]. specialize (HS h' Hin). set_solver.
      * intros h' t [->|Hin]%elem_of_cons Hl; [by apply Hm|].
        destruct (decide (h = h')) as [->|Hne]; [by apply Hm|]. apply (HM h'); [done|]. by rewrite lookup_insert_ne.
    + destruct HF as [_ HF], HN as [Hn HN]. repeat split; try done.
      * intros h' Hin. assert (h <> h') by (intros ->; done). specialize (HS h'). set_solver.
      * intros h' t Hin Hl. destruct (decide (h = h')) as [->|Hne]; [by rewrite lookup_insert_eq in Hl; simplify_eq|].
        rewrite lookup_insert_ne in Hl by done. apply (HM h'); [set_solver|done].
Qed.

Lemma compile_fields_iff seen l :
  compile_fields seen l = Ok tt <->
  Forall (fun f => f ∈ allowed) l /\ NoDup l /\ (forall f, f ∈ l -> f ∉ seen).
Proof.
  revert seen. induction l as [|f l IH]; intros seen; cbn [compile_fields].
  - split; [intros _; repeat split; try constructor; set_solver | done].
  - case_bool_decide as E1; simpl.
    2:{ split; [done|]. intros (HF & _). by inversion HF. }
    case_bool_decide as E2.
    { split; [done|]. intros (_ & _ & HS). exfalso. eapply HS; [|exact E2]. set_solver. }
    rewrite IH, List.Forall_cons_iff, NoDup_cons. split.
    + intros (HF & HN & HS). repeat split; try done.
      * intros Hin. apply (HS f Hin). set_solver.
      * intros f' [->|Hin]%elem_of_cons; [done|]. specialize (HS f' Hin). set_solver.
    + intros ([_ HF] & [Hn HN] & HS). repeat split; try done.
      intros f' Hin. assert (f <> f') by (intros ->; done). specialize (HS f'). set_solver.
Qed.

(** ** The loop computes the abstract plan *)

(** The loop state after the intents [l]. *)
Definition state_of (l : list Intent) : cstate := mkCState (map pref l) (sessions_of l) (map normalize l).

Lemma add_sessions_lookup (hs : list string) (b : BFD) (m : gmap string BFD) h t :
  foldl (fun m h => <[h := b]> m) m hs !! h = Some t <->
  (h ∈ hs /\ t = b) \/ (h ∉ hs /\ m !! h = Some t).
Proof.
  revert m. induction hs as [|x hs IH]; intros m; simpl.
  - rewrite elem_of_nil. naive_solver.
  - rewrite IH, elem_of_cons. destruct (decide (h = x)) as [->|Hne].
    + rewrite lookup_insert_eq. destruct (decide (x ∈ hs)); naive_solver.
    + rewrite lookup_insert_ne by done. naive_solver.
Qed.

Lemma sessions_of_app l r : sessions_of (l ++ [r]) = add_sessions (sessions_of l) r.
Proof. unfold sessions_of. by rewrite foldl_app. Qed.

Lemma sessions_lookup_sound l h t : sessions_of l !! h = Some t ->
  exists r, In r l /\ h ∈ NextHops r /\ t = in_BFD r.
Proof.
  induction l as [|r l IH] using rev_ind; [done|]. rewrite sessions_of_app. unfold add_sessions.
  rewrite add_sessions_lookup. intros [[H1 ->]|[_ H]].
  - exists r. rewrite in_app_iff. simpl. auto.
  - destruct (IH H) as (s & Hs & ?). exists s. rewrite in_app_iff. auto.
Qed.

Lemma sessions_lookup_complete l r h : In r l -> h ∈ NextHops r -> is_Some (sessions_of l !! h).
Proof.
  induction l as [|s l IH] using rev_ind; [done|]. rewrite sessions_of_app. unfold add_sessions.
  intros [Hr|[->|[]]]%in_app_iff Hh.
  - destruct (decide (h ∈ NextHops s)) as [Hs|Hs].
    + exists (in_BFD s). apply add_sessions_lookup. auto.
    + destruct (IH Hr Hh) as [t Ht]. exists t. apply add_sessions_lookup. auto.
  - exists (in_BFD r). apply add_sessions_lookup. auto.
Qed.

(** For compatible intents the sessions map is exactly "every next hop with its
    timers", whatever the order. *)
Lemma sessions_lookup l h t :
  (forall r s, In r l -> In s l -> h ∈ NextHops r -> h ∈ NextHops s -> in_BFD r = in_BFD s) ->
  sessions_of l !! h = Some t <-> exists r, In r l /\ h ∈ NextHops r /\ t = in_BFD r.
Proof.
  intros HC. split; [apply sessions_lookup_sound|]. intros (r & Hr & Hh & ->).
  destruct (sessions_lookup_complete _ _ _ Hr Hh) as [t Ht]. rewrite Ht.
  destruct (sessions_lookup_sound _ _ _ Ht) as (s & Hs & Hh' & ->). f_equal. by apply HC.
Qed.

Lemma hop_timers_ok done r :
  Forall (fun s => compatible s r) done ->
  forall h t, h ∈ NextHops r -> sessions_of done !! h = Some t -> t = in_BFD r.
Proof.
  intros HF h t Hh Ht. destruct (sessions_lookup_sound _ _ _ Ht) as (s & Hs & Hsh & ->).
  rewrite List.Forall_forall in HF. destruct (HF s Hs) as [_ H]. by apply (H h).
Qed.

Lemma existsb_false_iff {A} (f : A -> bool) l : existsb f l = false <-> Forall (fun x => f x = false) l.
Proof.
  induction l as [|x l IH]; simpl; [split; [constructor|done]|].
  by rewrite orb_false_iff, List.Forall_cons_iff, IH.
Qed.

Lemma pairs_timers l h : ForallOrdPairs compatible l ->
  forall r s, In r l -> In s l -> h ∈ NextHops r -> h ∈ NextHops s -> in_BFD r = in_BFD s.
Proof.
  intros HP r s Hr Hs H1 H2.
  destruct (ForallOrdPairs_In HP _ _ Hr Hs) as [->|[[_ H]|[_ H]]]; [done|by eapply H|symmetry; by eapply H].
Qed.

(** One pass of the loop succeeds exactly on a valid intent compatible with the
    earlier ones. *)
Lemma compile_route_iff done r st : list_ok done ->
  compile_route (state_of done) r = Ok st <->
  route_valid r /\ Forall (fun s => compatible s r) done /\ st = state_of (done ++ [r]).
Proof.
  intros [HD HP]. unfold compile_route. split.
  - intros H. follow H. injection H as <-. cbn [state_of c_prefixes c_sessions c_routes] in *.
    match goal with E : compile_hops _ _ _ _ _ = _ |- _ => apply compile_hops_iff in E as ((HF & HN & _ & HM) & ->) end.
    match goal with E : compile_fields _ _ = _ |- _ => apply compile_fields_iff in E as (HF2 & HN2 & _) end.
    assert (pref r = p) as Hp by (unfold pref; by rewrite Ef).
    assert (route_valid r) as HV.
    { exists p. repeat (split; [first [assumption|lia]|]). assumption. }
    split; [exact HV|]. split.
    + match goal with E : existsb _ _ = false |- _ => rename E into EO end.
      rewrite existsb_false_iff in EO. rewrite List.Forall_forall in EO, HD |- *. intros s Hs. split.
      * destruct (destination_ok _ _ (route_valid_dest _ HV)) as (v & b & Hv & _).
        destruct (destination_ok _ _ (route_valid_dest _ (HD s Hs))) as (w & c & Hw & _).
        rewrite (Overlaps_sym _ _ _ _ _ _ Hw Hv), Hp. apply EO. by apply in_map.
      * intros h G1 G2. apply (HM h); [done|]. apply sessions_lookup; [by apply pairs_timers|]. eauto.
    + unfold state_of. rewrite !map_app, sessions_of_app. simpl. by rewrite Hp.
  - intros (HV & HC & ->). pose proof (route_valid_dest _ HV) as Ed.
    pose proof HV as (p & Ep & HL & HT & HF & HN & HL2 & HN2 & HF2). rewrite Ep in *. injection Ed as ->.
    cbn [state_of c_prefixes c_sessions c_routes].
    replace (existsb _ _) with false.
    2:{ symmetry. apply existsb_false_iff. rewrite List.Forall_forall in HC, HD |- *.
        intros q (s & <- & Hs)%in_map_iff. destruct (HC s Hs) as [HO _].
        destruct (destination_ok _ _ Ep) as (v & b & Hv & _).
        destruct (destination_ok _ _ (route_valid_dest _ (HD s Hs))) as (w & c & Hw & _).
        by rewrite (Overlaps_sym _ _ _ _ _ _ Hv Hw). }
    replace ((_ <? 2)%nat || _) with false by (symmetry; apply orb_false_iff; split; apply Nat.ltb_ge; lia).
    rewrite HT. simpl negb. cbv iota.
    rewrite (proj2 (compile_hops_iff (pref r) (in_BFD r) (sessions_of done) ∅ (NextHops r) (add_sessions (sessions_of done) r))); [|split; [|reflexivity]].
    2:{ split; [done|]. split; [done|]. split; [intros; apply not_elem_of_empty|]. by apply hop_timers_ok. }
    replace ((_ =? 0)%nat || _) with false.
    2:{ symmetry; apply orb_false_iff; split; [apply Nat.eqb_neq|apply Nat.ltb_ge]; lia. }
    rewrite (proj2 (compile_fields_iff ∅ (SelectionFields r))).
    2:{ split; [done|]. split; [done|]. intros; apply not_elem_of_empty. }
    unfold state_of. by rewrite !map_app, sessions_of_app.
Qed.

Lemma pairs_snoc {A} (R : A -> A -> Prop) l x :
  ForallOrdPairs R (l ++ [x]) <-> ForallOrdPairs R l /\ Forall (fun y => R y x) l.
Proof.
  induction l as [|y l IH]; simpl.
  - split; [intros _; split; constructor | intros _; repeat constructor].
  - split.
    + inversion 1 as [|?? HF HO]; subst. apply IH in HO as [H1 H2]. apply Forall_app in HF as [H3 H4].
      inversion H4; subst. split; constructor; assumption.
    + intros [H1 H2]. inversion H1; subst. inversion H2; subst. constructor.
      * apply Forall_app. split; [done|]. by constructor.
      * by apply IH.
Qed.

Lemma compile_loop_iff rest done st : list_ok done ->
  compile_loop (state_of done) rest = Ok st <-> list_ok (done ++ rest) /\ st = state_of (done ++ rest).
Proof.
  revert done. induction rest as [|r rest IH]; intros done HD; cbn [compile_loop].
  - rewrite List.app_nil_r. naive_solver.
  - split.
    + intros H. destruct (compile_route (state_of done) r) as [st'|] eqn:E; [|done].
      apply compile_route_iff in E as (HV & HC & ->); [|done].
      rewrite IH in H. { by rewrite <- List.app_assoc in H. }
      destruct HD as [HD HP]. split; [apply Forall_app; by repeat constructor|]. by apply pairs_snoc.
    + intros [[HF HP] ->]. replace (done ++ r :: rest) with ((done ++ [r]) ++ rest) in * by by rewrite <- List.app_assoc.
      assert (list_ok (done ++ [r])) as HD'.
      { split; [by apply Forall_app in HF as [? _]|]. clear -HP. induction (done ++ [r]); [constructor|].
        simpl in HP. inversion HP; subst. constructor; [by apply Forall_app in H1 as [? _]|auto]. }
      rewrite (proj2 (compile_route_iff done r (state_of (done ++ [r])) HD)); [by apply IH|].
      destruct HD' as [HF' HP']. apply Forall_app in HF' as [_ HF']. apply pairs_snoc in HP' as [_ HP'].
      split; [by inversion HF'|]. by split.
Qed.

Lemma Compile_plan_of input p :
  Compile input = Ok p <-> (List.length input <= 256)%nat /\ list_ok input /\ p = plan_of input.
Proof.
  unfold Compile. destruct (256 <? List.length input)%nat eqn:E.
  { apply Nat.ltb_lt in E. split; [done|lia]. }
  apply Nat.ltb_ge in E. change (mkCState [] ∅ []) with (state_of []).
  assert (list_ok []) as H0 by (split; constructor). split.
  - intros H. destruct (compile_loop _ _) as [st|] eqn:EL; [|done]. injection H as <-.
    apply compile_loop_iff in EL as [HL ->]; [|done]. done.
  - intros (_ & HL & ->). by rewrite (proj2 (compile_loop_iff input [] (state_of input) H0)).
Qed.

(** ** Properties of [Compile] *)

Lemma list_ok_in l r s : list_ok l -> In r l -> In s l -> r = s \/ compatible r s.
Proof.
  intros [HF HP] Hr Hs. rewrite List.Forall_forall in HF.
  destruct (ForallOrdPairs_In HP _ _ Hr Hs) as [->|[H|H]]; [by left|by right|].
  right. apply compatible_sym; auto.
Qed.

Lemma list_ok_perm l l' : Permutation l l' -> list_ok l -> list_ok l'.
Proof.
  induction 1 as [|x l l' HP IH|x y l|l l' l'' HP1 IH1 HP2 IH2]; intros HL; [done| | |auto].
  - destruct HL as [HF HO]. inversion HF; subst. inversion HO; subst.
    destruct IH as [HF' HO']; [done|]. split; [by constructor|]. constructor; [|done].
    rewrite List.Forall_forall in *. intros z Hz. apply H3. eapply Permutation_in; [symmetry; eassumption|done].
  - destruct HL as [HF HO]. inversion HF as [|?? Hy HF']; subst. inversion HF' as [|?? Hx HF'']; subst.
    inversion HO as [|?? HA HO']; subst. inversion HO' as [|?? HB HO'']; subst. inversion HA; subst.
    split; [by repeat constructor|]. constructor; [|by constructor]. constructor; [by apply compatible_sym|done].
Qed.

Lemma overlaps_self v b p : prefix4 p v b -> Overlaps p p = true.
Proof. intros Hp. rewrite (Overlaps_block _ _ _ _ _ _ Hp Hp). by apply Z.eqb_eq. Qed.

(** Accepted intents have distinct destination texts. *)
Lemma list_ok_cidr l r s : list_ok l -> In r l -> In s l -> CIDR r = CIDR s -> r = s.
Proof.
  intros HL Hr Hs E. destruct (list_ok_in _ _ _ HL Hr Hs) as [|[HO _]]; [done|exfalso].
  pose proof HL as [HF _]. rewrite List.Forall_forall in HF. pose proof (route_valid_dest _ (HF r Hr)) as Hd.
  assert (pref s = pref r) as Ep by (unfold pref; by rewrite E).
  destruct (destination_ok _ _ Hd) as (v & b & Hp & _). rewrite Ep, (overlaps_self _ _ _ Hp) in HO. done.
Qed.

Lemma sessions_of_perm l l' : list_ok l -> Permutation l l' -> sessions_of l = sessions_of l'.
Proof.
  intros HL HP. apply map_eq. intros h. apply option_eq. intros t.
  pose proof (list_ok_perm _ _ HP HL) as HL'.
  rewrite !sessions_lookup by (apply pairs_timers; first [apply HL|apply HL']).
  split; intros (r & Hr & ?); exists r; (split; [|done]); eapply Permutation_in; try eassumption; by symmetry.
Qed.

(** Equal up to the order of next hops, of selection fields and of routes. *)
Definition same_intent (r s : Intent) : Prop :=
  CIDR r = CIDR s /\ in_BFD r = in_BFD s /\ Permutation (NextHops r) (NextHops s) /\
  Permutation (SelectionFields r) (SelectionFields s).

Lemma same_intent_normalize r s : same_intent r s -> normalize r = normalize s.
Proof.
  intros (E1 & E2 & P1 & P2). unfold normalize. rewrite E1, E2.
  by rewrite (sort_strings_perm_eq _ _ P1), (sort_strings_perm_eq _ _ P2).
Qed.

Lemma same_intent_valid r s : same_intent r s -> route_valid r -> route_valid s.
Proof.
  intros (E1 & E2 & P1 & P2) (p & H1 & H2 & H3 & H4 & H5 & H6 & H7 & H8).
  exists p. rewrite <- E1, <- E2, <- P1, <- P2. done.
Qed.

Lemma same_intent_compatible r r' s s' :
  same_intent r r' -> same_intent s s' -> compatible r s -> compatible r' s'.
Proof.
  intros (E1 & E2 & P1 & _) (F1 & F2 & Q1 & _) [HO HB]. unfold compatible, pref in *.
  rewrite <- E1, <- F1, <- E2, <- F2. split; [done|]. intros h. rewrite <- P1, <- Q1. apply HB.
Qed.

Lemma same_list_ok l l' : Forall2 same_intent l l' -> list_ok l -> list_ok l'.
Proof.
  induction 1 as [|r s l l' HS HF IH]; intros [HV HO]; [done|].
  inversion HV; subst. inversion HO as [|?? HC HO']; subst. destruct IH as [IH1 IH2]; [done|].
  split; constructor; eauto using same_intent_valid. clear -HS HF HC.
  induction HF; [constructor|]. inversion HC; subst. constructor; eauto using same_intent_compatible.
Qed.

Lemma add_sessions_same m r s : same_intent r s -> add_sessions m r = add_sessions m s.
Proof.
  intros (_ & E & P & _). apply map_eq. intros h. apply option_eq. intros t. unfold add_sessions.
  by rewrite !add_sessions_lookup, E, P.
Qed.

Lemma same_sessions l l' : Forall2 same_intent l l' -> sessions_of l = sessions_of l'.
Proof.
  intros HF. unfold sessions_of. generalize (∅ : gmap string BFD).
  induction HF as [|r s l l' HS HF IH]; intros m; [done|]. simpl. by rewrite (add_sessions_same _ _ _ HS).
Qed.

Lemma plan_of_perm l l' : list_ok l -> Permutation l l' -> plan_of l = plan_of l'.
Proof.
  intros HL HP. unfold plan_of. rewrite (sessions_of_perm _ _ HL HP).
  replace (sort_by_key CIDR (map normalize l')) with (sort_by_key CIDR (map normalize l)); [done|].
  apply sort_by_key_perm_eq; [|by apply Permutation_map].
  intros x y (r & <- & Hr)%in_map_iff (s & <- & Hs)%in_map_iff E. simpl in E.
  by rewrite (list_ok_cidr _ _ _ HL Hr Hs E).
Qed.

Lemma normalize_same r : same_intent r (normalize r).
Proof. repeat split; symmetry; apply sort_strings_perm. Qed.

Lemma normalize_idem r : normalize (normalize r) = normalize r.
Proof. symmetry. apply same_intent_normalize, normalize_same. Qed.

(** C40: the accepted inputs, and the plan they give: at most 256 valid,
    pairwise compatible intents compile to [plan_of], everything else is
    rejected. *)
Theorem Compile_refines_plan_of input p :
  Compile input = Ok p <-> (List.length input <= 256)%nat /\ list_ok input /\ p = plan_of input.
Proof. apply Compile_plan_of. Qed.

(** Two inputs that agree up to the order of the intents, of their next
    hops and of their selection fields compile to the same plan: the same routes,
    sessions and hash. *)
Theorem Compile_order_independent l1 l2 l3 p :
  Forall2 same_intent l1 l2 -> Permutation l2 l3 -> Compile l1 = Ok p -> Compile l3 = Ok p.
Proof.
  intros HS HP (HL & HO & ->)%Compile_plan_of. apply Compile_plan_of.
  pose proof (same_list_ok _ _ HS HO) as HO2. rewrite <- (Permutation_length HP), <- (Forall2_length _ _ _ HS).
  split; [done|]. split; [by eapply list_ok_perm|]. rewrite <- (plan_of_perm _ _ HO2 HP). unfold plan_of.
  rewrite (same_sessions _ _ HS). replace (map normalize l2) with (map normalize l1); [done|].
  clear -HS. induction HS; simpl; [done|]. f_equal; [by apply same_intent_normalize|done].
Qed.

(** A compiled plan compiles to itself. *)
Theorem Compile_idempotent input p : Compile input = Ok p -> Compile (Routes p) = Ok p.
Proof.
  intros H. pose proof H as (HL & HO & ->)%Compile_plan_of. cbn [Routes plan_of].
  assert (Forall2 same_intent input (map normalize input)) as HS.
  { clear. induction input; constructor; [apply normalize_same|done]. }
  pose proof (same_list_ok _ _ HS HO) as HO2.
  apply Compile_plan_of. split; [|split].
  - unfold sort_by_key. by rewrite sort_by_length, length_map.
  - eapply list_ok_perm; [|exact HO2]. symmetry. apply sort_by_key_perm.
  - rewrite <- (plan_of_perm (map normalize input) (sort_by_key CIDR (map normalize input)));
      [|done|symmetry; apply sort_by_key_perm].
    unfold plan_of. rewrite (same_sessions _ _ HS), map_map.
    by rewrite (map_ext _ _ normalize_idem).
Qed.

(** ** Properties of [Children] and [ReachableGateway] *)

Lemma upper_half_block v b : u32 v -> 1 <= b <= 31 -> block v b = v ->
  block v (b + 1) = v /\ u32 (v + 2 ^ (31 - b)) /\ block (v + 2 ^ (31 - b)) (b + 1) = v + 2 ^ (31 - b) /\
  2 ^ (32 - b) = 2 * 2 ^ (31 - b).
Proof.
  intros Hv Hb Hal. assert (2 ^ (32 - b) = 2 * 2 ^ (31 - b)) as Hd.
  { replace (32 - b) with (Z.succ (31 - b)) by lia. apply Z.pow_succ_r. lia. }
  pose proof (block_u32 v b ltac:(lia) Hv) as [_ Hr]. rewrite Hal in Hr.
  assert (0 < 2 ^ (31 - b)) by lia.
  unfold block in Hal |- *. replace (32 - (b + 1)) with (31 - b) by lia. rewrite Hd in *.
  set (k := 2 ^ (31 - b)) in *. set (q := v / (2 * k)) in *.
  assert (v = (2 * q) * k) as Ev by nia. unfold u32 in *.
  split; [rewrite Ev; rewrite Z.div_mul by lia; lia|]. split; [lia|]. split; [|done].
  replace (v + k) with ((2 * q + 1) * k) by nia. rewrite Z.div_mul by lia. lia.
Qed.

(** The halves of an accepted destination as prefixes *)
Lemma Children_halves cidr p : destination cidr = Some p -> exists v b,
  let q1 := mkPrefix (Addr4 v) (b + 1) in let q2 := mkPrefix (Addr4 (v + 2 ^ (31 - b))) (b + 1) in
  prefix4 p v b /\ 1 <= b <= 31 /\ block v b = v /\ prefix4 q1 v (b + 1) /\ prefix4 q2 (v + 2 ^ (31 - b)) (b + 1) /\
  Children cidr = Some (PrefixString q1, PrefixString q2).
Proof.
  intros Hd. pose proof (destination_ok _ _ Hd) as (v & b & Hp & Hb & Hal & _ & _).
  assert (ParsePrefix cidr = Some p) as EP by (unfold destination in Hd; follow Hd; congruence).
  pose proof Hp as (-> & Hv & Hb32). destruct (upper_half_block v b Hv Hb Hal) as (_ & U2 & _ & Hk).
  exists v, b. cbn zeta. do 3 (split; [done|]). split; [repeat split; [apply Hv|apply Hv|lia|lia]|].
  split; [repeat split; [apply U2|apply U2|lia|lia]|].
  unfold Children. rewrite EP. cbn [paddr pbits]. unfold As4 at 1. cbv beta iota zeta.
  rewrite As4_value by done. rewrite Z.shiftl_1_l.
  rewrite (lor_aligned v _ (32 - b)); [|lia|rewrite <- Hal; apply block_aligned; lia|lia].
  rewrite AddrFrom4_bytes by done. unfold PrefixFrom. cbn [IsValid BitLen withoutZone andb].
  replace (0 <=? b + 1) with true by (symmetry; apply Z.leb_le; lia).
  by replace (b + 1 <=? 32) with true by (symmetry; apply Z.leb_le; lia).
Qed.

(** The children of an accepted destination are canonical prefixes
    one bit longer that split its addresses: every address of the destination is in
    exactly one child, and a child has no other address. *)
Theorem Children_partition cidr p : destination cidr = Some p ->
  exists c1 c2 q1 q2, Children cidr = Some (c1, c2) /\
    ParsePrefix c1 = Some q1 /\ ParsePrefix c2 = Some q2 /\ Masked q1 = q1 /\ Masked q2 = q2 /\
    pbits q1 = pbits p + 1 /\ pbits q2 = pbits p + 1 /\
    forall x, u32 x -> Contains p (Addr4 x) = xorb (Contains q1 (Addr4 x)) (Contains q2 (Addr4 x)).
Proof.
  intros Hd. destruct (Children_halves _ _ Hd) as (v & b & Hp & Hb & Hal & Q1 & Q2 & EC). pose proof Hp as (-> & Hv & _).
  destruct (upper_half_block v b Hv Hb Hal) as (B1 & U2 & B2 & Hk). set (w := v + 2 ^ (31 - b)) in *.
  exists (PrefixString (mkPrefix (Addr4 v) (b + 1))), (PrefixString (mkPrefix (Addr4 w) (b + 1))).
  exists (mkPrefix (Addr4 v) (b + 1)), (mkPrefix (Addr4 w) (b + 1)). split; [done|].
  split; [by eapply ParsePrefix_string|]. split; [by eapply ParsePrefix_string|].
  rewrite (Masked_block _ _ _ Q1), (Masked_block _ _ _ Q2), B1, B2. repeat (split; [done|]).
  intros x Hx. apply Bool.eq_iff_eq_true. rewrite (Contains_range _ _ _ _ Hp), Hal.
  pose proof (Contains_range _ _ _ x Q1) as C1. pose proof (Contains_range _ _ _ x Q2) as C2.
  rewrite B1 in C1. rewrite B2 in C2. replace (32 - (b + 1)) with (31 - b) in * by lia. unfold w in *.
  destruct (Contains (mkPrefix (Addr4 v) (b + 1)) (Addr4 x)), (Contains (mkPrefix (Addr4 _) (b + 1)) (Addr4 x));
    simpl xorb; rewrite Hk; split; intros; try done; lia.
Qed.

(** The usable gateway addresses of a connected network: inside its block, not the
    network's own listed address, its base or (shorter than /31) its broadcast. *)
Definition usable_gateway (raw : string) (x : Z) : Prop :=
  exists p v b, ParsePrefix raw = Some p /\ prefix4 p v b /\
    block v b <= x < block v b + 2 ^ (32 - b) /\ x <> v /\ x <> block v b /\
    (b < 31 -> x <> block v b + 2 ^ (32 - b) - 1).

Lemma ParsePrefix_family raw p x : ParsePrefix raw = Some p -> Contains p (Addr4 x) = true ->
  exists v b, prefix4 p v b.
Proof.
  intros HP HC. apply (ParsePrefix_is4 _ _ HP). destruct p as [[|v|v z] b]; [|done|].
  - unfold Contains in HC. simpl in HC. by rewrite andb_false_r in HC.
  - unfold Contains in HC. simpl in HC. by rewrite andb_false_r in HC.
Qed.

Lemma gateway_on_iff raw x : u32 x -> gateway_on (Addr4 x) raw = true <-> usable_gateway raw x.
Proof.
  intros Hx. unfold gateway_on, usable_gateway. destruct (ParsePrefix raw) as [p|] eqn:HP.
  2:{ split; [done|]. intros (? & ? & ? & ? & _). done. }
  destruct (Contains p (Addr4 x)) eqn:HC; cbn [andb].
  2:{ split; [done|]. intros (p' & v & b & [= <-] & Hp & HR & _).
      apply (Contains_range _ _ _ _ Hp) in HR. congruence. }
  destruct (ParsePrefix_family _ _ _ HP HC) as (v & b & Hp).
  rewrite (Masked_block _ _ _ Hp). pose proof Hp as (-> & Hv & Hb). cbn [paddr pbits].
  apply (Contains_range _ _ _ _ Hp) in HC.
  destruct (block_u32 v b Hb Hv) as [HU Hle].
  transitivity (x <> v /\ x <> block v b /\ (b < 31 -> x <> block v b + 2 ^ (32 - b) - 1)).
  2:{ split.
      - intros (H1 & H2 & H3). by exists (mkPrefix (Addr4 v) b), v, b.
      - intros (p' & v' & b' & [= <-] & (E & _) & _ & H1 & H2 & H3). injection E as <- <-. auto. }
  destruct (bool_decide (Addr4 x = Addr4 v)) eqn:E1; breflect; cbn [negb andb].
  { split; [done|]. intros (H & _). congruence. }
  destruct (bool_decide (Addr4 x = Addr4 (block v b))) eqn:E2; breflect; cbn [negb andb].
  { split; [done|]. intros (_ & H & _). congruence. }
  assert (x <> v) by congruence. assert (x <> block v b) by congruence. cbn [Is4 andb].
  destruct (b <? 31) eqn:E3; breflect; [|split; [intros _; repeat split; auto; lia|done]].
  unfold As4 at 1. cbv beta iota zeta. rewrite As4_value by done. rewrite Z.shiftl_1_l.
  assert (0 < 2 ^ (32 - b) <= 2 ^ 32) by (split; [lia|apply Z.pow_le_mono_r; lia]).
  change 4294967295 with (Z.ones 32). rewrite Z.land_ones by lia. rewrite Z.mod_small by lia.
  rewrite (lor_aligned _ _ (32 - b)); [|lia|by apply block_aligned|lia].
  rewrite AddrFrom4_bytes by (unfold u32 in *; lia).
  rewrite negb_true_iff, bool_decide_eq_false. split.
  - intros G. repeat split; try done. intros _ E. apply G. f_equal. lia.
  - intros (_ & _ & G) E. injection E as E. specialize (G E3). lia.
Qed.

(** On an IPv4 hop, [ReachableGateway] is true exactly when some
    listed network has the hop as a usable gateway address. *)
Theorem ReachableGateway_iff hop networks x :
  ParseAddr hop = Some (Addr4 x) ->
  ReachableGateway hop networks = true <-> exists raw, In raw networks /\ usable_gateway raw x.
Proof.
  intros HP. destruct (ParseAddr_is4 _ _ HP eq_refl) as (v & E & Hv). injection E as ->.
  unfold ReachableGateway. rewrite HP, existsb_exists. by setoid_rewrite gateway_on_iff.
Qed.
