(* ===== verification/Prog.v ===== *)
(** * Effectful code: calls to the outside world and their answers

    A controller pass is a tree: it either returns or issues one call and continues
    with whatever answer the outside world gives ([Act]). The answers are not
    computed by the model, so a statement about all executions of a pass is a
    statement about every API server, every interleaved writer, every lost response
    and every crash point ([exec] stops a pass anywhere). [wp] is the backward
    reasoning principle for these statements. *)
From S2P Require Import Prelude.

Section prog.
Context {Op : Type} {Ans : Op -> Type}.

Inductive prog (A : Type) :=
| Ret (a : A)
| Act (o : Op) (k : Ans o -> prog A).
Arguments Ret {A} a.
Arguments Act {A} o k.

Fixpoint bind {A B} (p : prog A) (f : A -> prog B) : prog B :=
  match p with
  | Ret a => f a
  | Act o k => Act o (fun x => bind (k x) f)
  end.

(** [bind] for a call that can fail: its error is returned at once. *)
Definition bind_ok {A B} (p : prog (res A)) (f : A -> prog (res B)) : prog (res B) :=
  bind p (fun r => match r with Ok a => f a | Err e => Ret (Err e) end).

Definition call (o : Op) : prog (Ans o) := Act o Ret.

(** One call with the answer it got; a history is the calls so far, oldest first. *)
Record event := Ev { ev_op : Op; ev_ans : Ans ev_op }.

(** [exec p h p']: a partial execution of [p] that made the calls [h] and has
    [p'] left to do. *)
Inductive exec {A} : prog A -> list event -> prog A -> Prop :=
| exec_nil p : exec p [] p
| exec_act o k x h p' : exec (k x) h p' -> exec (Act o k) (Ev o x :: h) p'.

Section wp.
(** [E h o x]: after history [h] the outside world may answer [x] to [o];
    [R h o]: after history [h] the code may call [o]. *)
Variable E : list event -> forall o, Ans o -> Prop.
Variable R : list event -> Op -> Prop.

Fixpoint wp {A} (p : prog A) (h : list event) (Q : list event -> A -> Prop) : Prop :=
  match p with
  | Ret a => Q h a
  | Act o k => R h o /\ forall x, E h o x -> wp (k x) (h ++ [Ev o x]) Q
  end.

(** The answers of [h'] are ones the outside world may give after [h]. *)
Fixpoint answered (h h' : list event) : Prop :=
  match h' with
  | [] => True
  | Ev o x :: t => E h o x /\ answered (h ++ [Ev o x]) t
  end.

(** Every call of [h'] is one the code may make. *)
Fixpoint calls_ok (h h' : list event) : Prop :=
  match h' with
  | [] => True
  | e :: t => R h (ev_op e) /\ calls_ok (h ++ [e]) t
  end.

Lemma wp_mono {A} (p : prog A) h (Q Q' : list event -> A -> Prop) :
  (forall h' a, Q h' a -> Q' h' a) -> wp p h Q -> wp p h Q'.
Proof.
  intros HQ. revert h. induction p as [a|o k IH]; intros h; simpl; [auto|].
  intros [HR HK]. split; [done|]. eauto.
Qed.

Lemma wp_bind {A B} (p : prog A) (f : A -> prog B) h Q :
  wp p h (fun h' a => wp (f a) h' Q) -> wp (bind p f) h Q.
Proof.
  revert h. induction p as [a|o k IH]; intros h; simpl; [done|].
  intros [HR HK]. split; [done|]. eauto.
Qed.

Lemma wp_bind_ok {A B} (p : prog (res A)) (f : A -> prog (res B)) h Q :
  wp p h (fun h' r => match r with Ok a => wp (f a) h' Q | Err e => Q h' (Err e) end) ->
  wp (bind_ok p f) h Q.
Proof.
  intros H. apply wp_bind. eapply wp_mono; [|exact H]. intros h' [a|e]; simpl; auto.
Qed.

(** [wp] speaks of every partial execution: the calls made are permitted, the
    next call is permitted, and a returned value satisfies the postcondition. *)
Lemma wp_exec {A} (p p' : prog A) h h' Q :
  wp p h Q -> exec p h' p' -> answered h h' -> calls_ok h h' /\ wp p' (h ++ h') Q.
Proof.
  intros HW HX. revert h HW. induction HX as [p|o k x h' p' HX IH]; intros h HW HA; simpl.
  - by rewrite List.app_nil_r.
  - destruct HW as [HR HK], HA as [HE HA]. destruct (IH _ (HK x HE) HA) as [HC HW'].
    split; [by split|]. by rewrite <- List.app_assoc in HW'.
Qed.

Lemma wp_ret_exec {A} (p : prog A) a h' Q :
  wp p [] Q -> exec p h' (Ret a) -> answered [] h' -> Q h' a.
Proof. intros HW HX HA. by destruct (wp_exec _ _ _ _ _ HW HX HA) as [_ ?]. Qed.

Lemma calls_ok_app h h1 h2 : calls_ok h (h1 ++ h2) <-> calls_ok h h1 /\ calls_ok (h ++ h1) h2.
Proof.
  revert h. induction h1 as [|e h1 IH]; intros h; simpl.
  - rewrite List.app_nil_r. tauto.
  - rewrite IH, <- List.app_assoc. simpl. tauto.
Qed.

(** The call at any point of a partial execution is permitted by what preceded it. *)
Lemma calls_ok_at h h1 e h2 : calls_ok h (h1 ++ e :: h2) -> R (h ++ h1) (ev_op e).
Proof. rewrite calls_ok_app. simpl. tauto. Qed.
Lemma answered_at h h1 e h2 : answered h (h1 ++ e :: h2) -> E (h ++ h1) (ev_op e) (ev_ans e).
Proof.
  revert h. induction h1 as [|[o x] h1 IH]; intros h; simpl.
  - rewrite List.app_nil_r. destruct e. tauto.
  - intros [_ H]. apply IH in H. by rewrite <- List.app_assoc in H.
Qed.

Lemma answered_app h h1 h2 : answered h (h1 ++ h2) <-> answered h h1 /\ answered (h ++ h1) h2.
Proof.
  revert h. induction h1 as [|[o x] h1 IH]; intros h; simpl.
  - rewrite List.app_nil_r. tauto.
  - rewrite IH, <- List.app_assoc. simpl. tauto.
Qed.
End wp.

Lemma wp_weaken {A} (E E' : list event -> forall o, Ans o -> Prop) (R R' : list event -> Op -> Prop)
    (p : prog A) h Q :
  (forall h o x, E' h o x -> E h o x) -> (forall h o, R h o -> R' h o) -> wp E R p h Q -> wp E' R' p h Q.
Proof.
  intros HE HR. revert h. induction p as [a|o k IH]; intros h; simpl; [done|]. intros [H1 H2]. split; eauto.
Qed.

(** What a discipline says of a single call does not depend on when the pass starts. *)
Lemma wp_anywhere {A} E (R : list event -> Op -> Prop) (S : Op -> Prop) (p : prog A) h Q :
  (forall h o x, E h o x) -> (forall h o, R h o -> S o) -> wp E R p h Q -> forall h', wp E (fun _ => S) p h' (fun _ _ => True).
Proof.
  intros HE HS. revert h. induction p as [a|o k IH]; intros h; simpl; [done|]. intros [H1 H2] h'. split; [eauto|].
  intros x _. by eapply IH, H2.
Qed.

(** Two postconditions and two call disciplines proved apart hold together. *)
Lemma wp_and {A} E (R1 R2 : list event -> Op -> Prop) (p : prog A) h Q1 Q2 :
  wp E R1 p h Q1 -> wp E R2 p h Q2 ->
  wp E (fun h o => R1 h o /\ R2 h o) p h (fun h a => Q1 h a /\ Q2 h a).
Proof.
  revert h. induction p as [a|o k IH]; intros h; simpl; [done|]. intros [H1 H2] [H3 H4]. split; eauto.
Qed.

(** ** Running a pass against a deterministic world *)

Section run.
Context {W : Type} (step : forall o : Op, W -> Ans o * W).
Fixpoint run {A} (p : prog A) (w : W) : list event * A * W :=
  match p with
  | Ret a => ([], a, w)
  | Act o k =>
      let '(x, w') := step o w in
      let '(h, a, w'') := run (k x) w' in
      (Ev o x :: h, a, w'')
  end.

Lemma run_exec {A} (p : prog A) w h a w' : run p w = (h, a, w') -> exec p h (Ret a).
Proof.
  revert w h. induction p as [b|o k IH]; intros w h; simpl.
  - intros [= <- <- <-]. constructor.
  - destruct (step o w) as [x w1]. destruct (run (k x) w1) as [[h1 a1] w2] eqn:E.
    intros [= <- <- <-]. constructor. by eapply IH.
Qed.

(** The history of a run is an execution. *)
Lemma run_history {A} (p : prog A) w :
  exec p (fst (fst (run p w))) (Ret (snd (fst (run p w)))).
Proof. destruct (run p w) as [[h a] w'] eqn:E. by eapply run_exec. Qed.
End run.
End prog.

Arguments prog {Op} Ans A.
Arguments event {Op} Ans.
Arguments Ret {Op Ans A} a.
Arguments Act {Op Ans A} o k.
Arguments Ev {Op Ans} ev_op ev_ans.

Declare Scope prog_scope.
Delimit Scope prog_scope with prog.
Open Scope prog_scope.
Notation "x <- p ;; k" := (bind p (fun x => k))
  (at level 60, p at next level, right associativity) : prog_scope.
(** A failing call returns its error. *)
Notation "x <-! p ;; k" := (bind_ok p (fun x => k))
  (at level 60, p at next level, right associativity) : prog_scope.
(** [if c { return e }] in effectful code. *)
Notation "'stop' c 'with' e ;; k" := (if c then Ret (Err e) else k)
  (at level 60, c at level 59, e at level 59, right associativity) : prog_scope.

(** * Reasoning about every execution of a pass

    The predicates on histories the safety theorems speak of, and the rules of [wp]
    for any outside world. *)

Section facts.
Context {Op : Type} {Ans : Op -> Type}.
Notation history := (list (event Ans)).

(** The answers are arbitrary: every API server, every concurrent writer. *)
Definition any_answer (h : history) (o : Op) (x : Ans o) : Prop := True.

(** An execution that makes only calls permitted by [R] given what preceded them. *)
Definition obeys (R : history -> Op -> Prop) {A} (p : prog Ans A) : Prop :=
  forall h p', exec p h p' -> forall h1 e h2, h = h1 ++ e :: h2 -> R h1 (ev_op e).

Lemma answered_any h h' : answered any_answer h h'.
Proof. revert h. induction h' as [|[o x] h' IH]; intros h; simpl; [done|]. split; [done|apply IH]. Qed.

Lemma wp_obeys R {A} (p : prog Ans A) Q : wp any_answer R p [] Q -> obeys R p.
Proof.
  intros HW h p' HX h1 e h2 ->.
  destruct (wp_exec _ _ _ _ _ _ _ HW HX (answered_any _ _)) as [HC _].
  exact (calls_ok_at any_answer R [] h1 e h2 HC).
Qed.

(** [asked h o x]: the call [o] of history [h] was answered by [x]. *)
Definition asked (h : history) (o : Op) (x : Ans o) : Prop := In (Ev o x) h.

Lemma asked_snoc h o x : asked (h ++ [Ev o x]) o x.
Proof. unfold asked. rewrite in_app_iff. right. by left. Qed.
Lemma asked_app h h' o x : asked h o x -> asked (h ++ h') o x.
Proof. unfold asked. rewrite in_app_iff. by left. Qed.

Section rules.
Context (E : history -> forall o, Ans o -> Prop) (R : history -> Op -> Prop).

(** Histories only grow. *)
Definition extends (h h' : history) : Prop := exists t, h' = h ++ t.
Lemma extends_refl h : extends h h.
Proof. exists []. by rewrite List.app_nil_r. Qed.
Lemma extends_trans h1 h2 h3 : extends h1 h2 -> extends h2 h3 -> extends h1 h3.
Proof. intros [t ->] [u ->]. exists (t ++ u). by rewrite List.app_assoc. Qed.
Lemma extends_snoc h e : extends h (h ++ [e]).
Proof. by exists [e]. Qed.
Lemma asked_extends h h' o x : extends h h' -> asked h o x -> asked h' o x.
Proof. intros [t ->]. apply asked_app. Qed.

Lemma wp_extends {A} (p : prog Ans A) h Q :
  wp E R p h Q -> wp E R p h (fun h' a => extends h h' /\ Q h' a).
Proof.
  enough (forall h0, extends h0 h -> wp E R p h Q -> wp E R p h (fun h' a => extends h0 h' /\ Q h' a)) as G
    by (apply G; apply extends_refl).
  intros h0. revert h. induction p as [a|o k IH]; intros h HE; simpl; [auto|].
  intros [HR HK]. split; [done|]. intros x Hx. apply IH; [|by apply HK].
  eapply extends_trans; [exact HE|apply extends_snoc].
Qed.

Lemma wp_act o h Q : R h o -> (forall x, E h o x -> Q (h ++ [Ev o x]) x) -> wp E R (call o) h Q.
Proof. done. Qed.

End rules.

(** [bad] was never called. *)
Definition never (bad : Op -> Prop) (h : history) : Prop := forall e, In e h -> ~ bad (ev_op e).
Lemma never_app bad h h' : never bad (h ++ h') <-> never bad h /\ never bad h'.
Proof. unfold never. setoid_rewrite in_app_iff. firstorder. Qed.
Lemma never_snoc bad h o (x : Ans o) : never bad h -> ~ bad o -> never bad (h ++ [Ev o x]).
Proof. intros H Ho. apply never_app. split; [done|]. by intros e [<-|[]]. Qed.
(** A discipline that excludes a call keeps it from being made. *)
Lemma wp_never E (R : history -> Op -> Prop) bad {A} (p : prog Ans A) h Q : (forall h o, R h o -> ~ bad o) -> never bad h ->
  wp E R p h Q -> wp E R p h (fun h' a => never bad h' /\ Q h' a).
Proof.
  intros HB. revert h. induction p as [a|o k IH]; intros h Hn; simpl; [done|]. intros [HR HK]. split; [done|].
  intros x Hx. apply IH; [apply never_snoc; eauto|auto].
Qed.

Lemma wp_bind_rule E R {A B} (p : prog Ans A) (f : A -> prog Ans B) h Q :
  wp E R p h (fun h' a => wp E R (f a) h' Q) -> wp E R (bind p f) h Q.
Proof. apply wp_bind. Qed.
Lemma wp_bind_ok_rule E R {A B} (p : prog Ans (res A)) (f : A -> prog Ans (res B)) h Q :
  wp E R p h (fun h' r => match r with Ok a => wp E R (f a) h' Q | Err e => Q h' (Err e) end) ->
  wp E R (bind_ok p f) h Q.
Proof. apply wp_bind_ok. Qed.
Lemma wp_Ret E R {A} (a : A) h (Q : history -> A -> Prop) : Q h a -> wp E R (Ret a) h Q.
Proof. done. Qed.
(** The call at one point of an execution, with the calls before it. *)
Definition called (h h1 : history) (o : Op) : Prop := exists x h2, h = h1 ++ Ev o x :: h2.

Lemma called_permitted {A} R (p p' : prog Ans A) h h1 o : obeys R p -> exec p h p' -> called h h1 o -> R h1 o.
Proof. intros HO HX (x & h2 & E). exact (HO h p' HX h1 (Ev o x) h2 E). Qed.

End facts.

(** The [n]-th call of a history, by its position. *)
Lemma called_at {Op} {Ans : Op -> Type} (h : list (event Ans)) n o :
  option_map ev_op (nth_error h n) = Some o -> called h (firstn n h) o.
Proof.
  destruct (nth_error h n) as [[o' x]|] eqn:E; [|done]. intros [= <-].
  apply nth_error_split in E as (l1 & l2 & -> & <-). exists x, l2.
  by rewrite firstn_app, Nat.sub_diag, List.app_nil_r, firstn_all.
Qed.

#[export] Hint Resolve asked_snoc asked_app : govpc.

(** Solves [extends a b] by following [b] back through the steps of the pass. *)
Ltac extending :=
  lazymatch goal with
  | |- extends ?a ?b =>
      first
        [ exact (extends_refl a)
        | assumption
        | match goal with H : extends ?z b |- _ => apply (extends_trans a z b); [solve [extending]|exact H] end
        | eapply extends_trans; [|apply extends_snoc]; solve [extending] ]
  end.

(** Solves [extends a b] by following [b] back. *)
Ltac backwards := repeat first [eassumption | apply extends_refl | eapply extends_trans; [|eassumption]].

(** * Code whose failures end it

    [okp R p h P]: [p] makes only calls [R] permits, and [P] holds when it succeeds. *)

Section ok.
Context {Op : Type} {Ans : Op -> Type}.
Notation history := (list (event Ans)).

(** A failing computation inside effectful code. *)
Definition lift {A} (r : res A) : prog Ans (res A) := Ret r.
(** The loop that calls [f] on each element and stops at the first error. *)
Fixpoint collect {A B} (f : A -> prog Ans (res B)) (l : list A) : prog Ans (res (list B)) :=
  match l with
  | [] => Ret (Ok [])
  | x :: l => y <-! f x ;; ys <-! collect f l ;; Ret (Ok (y :: ys))
  end.

Context (R : history -> Op -> Prop).

(** [p] makes only permitted calls after [h], and [P] holds when it succeeds. *)
Definition okp {A} (p : prog Ans (res A)) (h : history) (P : history -> A -> Prop) : Prop :=
  wp any_answer R p h (fun h' x => match x with Ok a => extends h h' /\ P h' a | Err _ => True end).

Lemma okp_mono {A} (p : prog Ans (res A)) h (P Q : history -> A -> Prop) :
  okp p h P -> (forall h' a, extends h h' -> P h' a -> Q h' a) -> okp p h Q.
Proof. intros HP H. eapply wp_mono; [|exact HP]. intros h' [a|]; [|done]. intros [HE Ha]. split; [done|]. by apply H. Qed.
Lemma okp_lift {A} (r : res A) h (P : history -> A -> Prop) : (forall a, r = Ok a -> P h a) -> okp (lift r) h P.
Proof. intros H. destruct r as [a|]; [|done]. split; [apply extends_refl|]. by apply H. Qed.
Lemma okp_Ok {A} (a : A) h (P : history -> A -> Prop) : P h a -> okp (Ret (Ok a)) h P.
Proof. intros H. split; [apply extends_refl|done]. Qed.
Lemma okp_Err {A} err h (P : history -> A -> Prop) : okp (Ret (Err err)) h P.
Proof. done. Qed.
Lemma okp_Ret {A} (r : res A) h : okp (Ret r) h (fun _ _ => True).
Proof. destruct r; [|done]. split; [apply extends_refl|done]. Qed.
Lemma okp_from {A} (p : prog Ans (res A)) h h0 (P : history -> A -> Prop) : extends h0 h -> okp p h P ->
  wp any_answer R p h (fun h' x => match x with Ok a => extends h0 h' /\ P h' a | Err _ => True end).
Proof. intros HE HP. eapply wp_mono; [|exact HP]. intros h' [a|]; [|done]. intros [H1 H2]. split; [by eapply extends_trans|done]. Qed.
Lemma okp_bind {A B} (p : prog Ans (res A)) (f : A -> prog Ans (res B)) h P Q :
  okp p h P -> (forall h' a, extends h h' -> P h' a -> okp (f a) h' Q) -> okp (bind_ok p f) h Q.
Proof.
  intros HP HF. apply wp_bind_ok. eapply wp_mono; [|exact HP]. intros h' [a|]; [|done]. intros [HE Ha].
  apply okp_from; [done|]. by apply HF.
Qed.
(** A call whose failure is handled. *)
Lemma okp_call {A B} (p : prog Ans A) (f : A -> prog Ans (res B)) h (P : history -> A -> Prop) Q :
  wp any_answer R p h P -> (forall h' a, extends h h' -> P h' a -> okp (f a) h' Q) -> okp (bind p f) h Q.
Proof.
  intros HP HF. apply wp_bind. eapply wp_mono; [|apply wp_extends, HP]. intros h' a [HE Ha]. apply okp_from; [done|]. by apply HF.
Qed.
Lemma okp_stop {A} (c : bool) err (k : prog Ans (res A)) h P : (c = false -> okp k h P) -> okp (stop c with err ;; k) h P.
Proof. destruct c; [done|]. intros H. by apply H. Qed.
Lemma okp_check {A B} (r : res A) (f : A -> prog Ans (res B)) h Q :
  (forall a, r = Ok a -> okp (f a) h Q) -> okp (bind_ok (lift r) f) h Q.
Proof. intros H. destruct r as [a|err]; [by apply H|done]. Qed.
Lemma okp_if {A} (c : bool) (p q : prog Ans (res A)) h P :
  (c = true -> okp p h P) -> (c = false -> okp q h P) -> okp (if c then p else q) h P.
Proof. destruct c; auto. Qed.
(** A loop that reads something lasting of every element. *)
Lemma okp_collect {A B} (f : A -> prog Ans (res B)) (J : history -> A -> B -> Prop) l h :
  (forall h h' x y, extends h h' -> J h x y -> J h' x y) ->
  (forall h' x, In x l -> extends h h' -> okp (f x) h' (fun h'' y => J h'' x y)) ->
  okp (collect f l) h (fun h' ys => Forall2 (J h') l ys).
Proof.
  intros HJ. revert h. induction l as [|x l IH]; intros h HF; cbn [collect]; [by apply okp_Ok|].
  eapply okp_bind; [apply HF; [by left|apply extends_refl]|]. intros h1 y H1 Hy.
  eapply okp_bind; [apply IH; intros h' z Hz Hh; apply HF; [by right|by eapply extends_trans]|].
  intros h2 ys H2 Hys. apply okp_Ok. constructor; [|done]. by eapply HJ.
Qed.
Lemma okp_exec {A} (p : prog Ans (res A)) h P a : okp p [] P -> exec p h (Ret (Ok a)) -> P h a.
Proof. intros HP HX. destruct (wp_ret_exec _ _ _ _ _ _ HP HX (answered_any _ _)) as [_ H]. exact H. Qed.
Lemma okp_obeys {A} (p : prog Ans (res A)) P : okp p [] P -> obeys R p.
Proof. apply wp_obeys. Qed.
(** [fmt.Errorf] around the error of [p] *)
Lemma okp_wrapped {A} (f : error -> error) (p : prog Ans (res A)) h P :
  okp p h P -> okp (bind p (fun x => Ret (match x with Ok a => Ok a | Err e => Err (f e) end))) h P.
Proof. intros H. apply wp_bind. eapply wp_mono; [|exact H]. by intros h' [a|e]. Qed.
End ok.

(** Code whose calls are permitted whatever preceded them says the same of the calls it
    adds to any history. *)
Lemma wp_frame {Op} {Ans : Op -> Type} (S : Op -> Prop) R {A} (p : prog Ans A) h t Q : (forall h o, S o -> R h o) ->
  wp any_answer (fun _ => S) p t Q -> wp any_answer R p (h ++ t) (fun h' a => exists t', h' = h ++ t' /\ Q t' a).
Proof.
  intros HS. revert t. induction p as [a|o k IH]; intros t; simpl; [by exists t|].
  intros [HR HK]. split; [auto|]. intros x Hx. rewrite <- List.app_assoc. apply IH. by apply HK.
Qed.
Lemma okp_frame {Op} {Ans : Op -> Type} (S : Op -> Prop) R {A} (p : prog Ans (res A)) h P : (forall h o, S o -> R h o) ->
  okp (fun _ => S) p [] P -> okp R p h (fun h' a => exists t, h' = h ++ t /\ P t a).
Proof.
  intros HS HP. unfold okp. rewrite <- (List.app_nil_r h) at 1. eapply wp_mono; [|by eapply wp_frame].
  intros h' [a|]; [|done]. intros (t & -> & _ & HPt). split; [by exists t|by exists t].
Qed.

(** * A program inside a larger one

    The calls of [p] are calls of a larger world; the answers are the same. *)
Section embed.
Context {Op1 Op2 : Type} {Ans1 : Op1 -> Type} {Ans2 : Op2 -> Type}.
Context (inj : Op1 -> Op2) (into : forall o, Ans2 (inj o) -> Ans1 o) (back : forall o, Ans1 o -> Ans2 (inj o)).
Fixpoint embed {A} (p : prog Ans1 A) : prog Ans2 A :=
  match p with
  | Ret a => Ret a
  | Act o k => Act (inj o) (fun x => embed (k (into o x)))
  end.
Definition embedded (e : event Ans1) : event Ans2 := match e with Ev o x => Ev (inj o) (back o x) end.

Hypothesis back_into : forall o x, back o (into o x) = x.
Lemma wp_embed S R {A} (p : prog Ans1 A) h t Q : (forall t o, S t o -> R (h ++ map embedded t) (inj o)) ->
  wp any_answer S p t Q -> wp any_answer R (embed p) (h ++ map embedded t) (fun h' a => exists t', h' = h ++ map embedded t' /\ Q t' a).
Proof.
  intros HS. revert t. induction p as [a|o k IH]; intros t; simpl; [by exists t|].
  intros [HR HK]. split; [by apply HS|]. intros x _. specialize (IH (into o x) (t ++ [Ev o (into o x)]) (HK _ I)).
  by rewrite map_app, List.app_assoc in IH; simpl in IH; rewrite back_into in IH.
Qed.
(** An embedded program keeps its own discipline on the calls it adds. *)
Lemma okp_embed S R {A} (p : prog Ans1 (res A)) h P : (forall t o, S t o -> R (h ++ map embedded t) (inj o)) ->
  okp S p [] P -> okp R (embed p) h (fun h' a => exists t, h' = h ++ map embedded t /\ P t a).
Proof.
  intros HS HP. unfold okp. pose proof (wp_embed S R p h [] _ HS HP) as HW. simpl in HW. rewrite List.app_nil_r in HW.
  eapply wp_mono; [|exact HW]. intros h' [a|]; [|done]. intros (t & -> & _ & HPt). split; [by exists (map embedded t)|by exists t].
Qed.
End embed.
