(* ===== verification/Api.v ===== *)
(** * [api/v1alpha2]: the managed platform API

    The public and internal resources as records with the source's fields. The
    field names carry a short type prefix because Rocq projections share one name
    space. A nil slice of the Go types is the empty list, except for
    [AuthorizedLocations], where the code tells nil from an empty slice. *)
From S2P Require Import Prelude GoStd Json.
Open Scope Z_scope.

(** ** [metav1] data the code reads and writes *)

Record OwnerReference := mkOwnerRef {
  or_APIVersion : string; or_Kind : string; or_Name : string; or_UID : string;
  or_Controller : option bool; or_BlockOwnerDeletion : option bool }.
Record ObjectMeta := mkMeta {
  om_Name : string; om_Namespace : string; om_UID : string; om_ResourceVersion : string;
  om_Generation : Z; om_CreationTimestamp : Z; om_DeletionTimestamp : option Z;
  om_Labels : gmap string string; om_Annotations : gmap string string;
  om_Finalizers : list string; om_OwnerReferences : list OwnerReference }.
Record Condition := mkCondition {
  cd_Type : string; cd_Status : string; cd_Reason : string; cd_Message : string;
  cd_ObservedGeneration : Z; cd_LastTransitionTime : Z }.

(** Indexing a Go map of strings: a missing key gives the empty string. *)
Definition get (m : gmap string string) (k : string) : string := default "" (m !! k).
Lemma get_insert_ne (m : gmap string string) k k' v : k <> k' -> get (<[k := v]> m) k' = get m k'.
Proof. intros H. unfold get. by rewrite lookup_insert_ne. Qed.
Lemma get_insert_eq (m : gmap string string) k v : get (<[k := v]> m) k = v.
Proof. unfold get. by rewrite lookup_insert_eq. Qed.

(** Metadata of an object literal: everything unset. *)
Definition newMeta (name ns : string) (labels annotations : gmap string string) : ObjectMeta :=
  mkMeta name ns "" "" 0 0 None labels annotations [] [].

(** ** VPC *)

Record PrefixClaim := mkClaim { pc_SubnetUID : string; pc_CIDR : string; pc_LocationRef : string }.
Record BindingReference := mkBindingRef {
  br_LocationRef : string; br_Name : string; br_UID : string; br_NativeVpcName : string }.
Record VPCSpec := mkVPCSpec { vs_NetworkClassRef : string }.
Record VPCStatus := mkVPCStatus {
  vt_ObservedGeneration : Z; vt_NetworkID : Z; vt_Phase : string;
  vt_Bindings : list BindingReference; vt_SubnetClaims : list PrefixClaim;
  vt_Conditions : list Condition }.
Record VPC := mkVPC { vpc_Meta : ObjectMeta; vpc_Spec : VPCSpec; vpc_Status : VPCStatus }.

(** ** Subnet *)

Record SubnetSpec := mkSubnetSpec { ss_VPCRef : string; ss_LocationRef : string; ss_CIDR : string }.
Record SubnetStatus := mkSubnetStatus {
  st_ObservedGeneration : Z; st_Phase : string; st_VPCUID : string; st_BindingName : string;
  st_NativeVpcName : string; st_NativeSubnetName : string; st_Conditions : list Condition }.
Record Subnet := mkSubnet { sn_Meta : ObjectMeta; sn_Spec : SubnetSpec; sn_Status : SubnetStatus }.

(** ** NetworkBinding *)

Record ObjectIdentity := mkIdentity { oi_Namespace : string; oi_Name : string; oi_UID : string }.
Record BindingSubnet := mkBindingSubnet {
  bs_Name : string; bs_UID : string; bs_CIDR : string; bs_Gateway : string;
  bs_NativeSubnetName : string; bs_Deleting : bool }.
Record RemoteSubnet := mkRemoteSubnet { rs_LocationRef : string; rs_CIDR : string }.
Record GatewayLink := mkLink {
  gl_PeerID : string; gl_ListenPort : Z; gl_TunnelIP : string; gl_ControlVNI : Z }.
Record GatewayEndpoint := mkEndpoint {
  ge_ID : string; ge_NodeName : string; ge_NodeUID : string; ge_EndpointIP : string;
  ge_TransitIP : string; ge_PublicKey : string; ge_LocalASN : Z; ge_HealthIP : string;
  ge_Links : list GatewayLink; ge_Ready : bool }.
Record LinkAllocation := mkLinkAllocation { la_PeerA : string; la_PeerB : string; la_ControlVNI : Z }.
Record PeerGateway := mkPeer { pg_LocationRef : string; pg_Endpoint : GatewayEndpoint }.
Record NetworkBindingSpec := mkBindingSpec {
  nb_VPCRef : ObjectIdentity; nb_NetworkID : Z; nb_LocalASN : Z; nb_LocationRef : string;
  nb_NetworkClassRef : string; nb_NativeVpcName : string; nb_TransportProfile : string;
  nb_Subnets : list BindingSubnet; nb_AuthorizedLocations : option (list string);
  nb_RemoteSubnets : list RemoteSubnet; nb_Peers : list PeerGateway;
  nb_LinkAllocations : list LinkAllocation; nb_Revision : string; nb_Deleting : bool }.
Record ResourceRecord := mkRecord {
  rr_APIVersion : string; rr_Kind : string; rr_Namespace : string; rr_Name : string; rr_UID : string }.
Record NetworkBindingStatus := mkBindingStatus {
  bt_ObservedGeneration : Z; bt_Phase : string; bt_AppliedRevision : string;
  bt_Resources : list ResourceRecord; bt_Gateways : list GatewayEndpoint;
  bt_Conditions : list Condition }.
Record NetworkBinding := mkBinding {
  nb_Meta : ObjectMeta; nb_Spec : NetworkBindingSpec; nb_Status : NetworkBindingStatus }.

Definition Finalizer : string := "platform.globalvpc.io/network-cleanup".
Definition OwnerLabel : string := "platform.globalvpc.io/owner-uid".
Definition VPCUIDLabel : string := "platform.globalvpc.io/vpc-uid".
Definition LocationLabel : string := "platform.globalvpc.io/location".
Definition GroupVersion : string := "platform.globalvpc.io/v1alpha2".

(** ** Decidable equality: [reflect.DeepEqual] and [==] of these values *)

#[export] Instance OwnerReference_eq_dec : EqDecision OwnerReference. Proof. solve_decision. Defined.
#[export] Instance ObjectMeta_eq_dec : EqDecision ObjectMeta. Proof. solve_decision. Defined.
#[export] Instance Condition_eq_dec : EqDecision Condition. Proof. solve_decision. Defined.
#[export] Instance PrefixClaim_eq_dec : EqDecision PrefixClaim. Proof. solve_decision. Defined.
#[export] Instance BindingReference_eq_dec : EqDecision BindingReference. Proof. solve_decision. Defined.
#[export] Instance VPCStatus_eq_dec : EqDecision VPCStatus. Proof. solve_decision. Defined.
#[export] Instance SubnetStatus_eq_dec : EqDecision SubnetStatus. Proof. solve_decision. Defined.
#[export] Instance ObjectIdentity_eq_dec : EqDecision ObjectIdentity. Proof. solve_decision. Defined.
#[export] Instance BindingSubnet_eq_dec : EqDecision BindingSubnet. Proof. solve_decision. Defined.
#[export] Instance RemoteSubnet_eq_dec : EqDecision RemoteSubnet. Proof. solve_decision. Defined.
#[export] Instance GatewayLink_eq_dec : EqDecision GatewayLink. Proof. solve_decision. Defined.
#[export] Instance GatewayEndpoint_eq_dec : EqDecision GatewayEndpoint. Proof. solve_decision. Defined.
#[export] Instance LinkAllocation_eq_dec : EqDecision LinkAllocation. Proof. solve_decision. Defined.
#[export] Instance PeerGateway_eq_dec : EqDecision PeerGateway. Proof. solve_decision. Defined.
#[export] Instance NetworkBindingSpec_eq_dec : EqDecision NetworkBindingSpec. Proof. solve_decision. Defined.
#[export] Instance ResourceRecord_eq_dec : EqDecision ResourceRecord. Proof. solve_decision. Defined.
#[export] Instance NetworkBindingStatus_eq_dec : EqDecision NetworkBindingStatus. Proof. solve_decision. Defined.

(** ** Field updates *)

Definition set_Finalizers (f : list string) (m : ObjectMeta) : ObjectMeta :=
  mkMeta (om_Name m) (om_Namespace m) (om_UID m) (om_ResourceVersion m) (om_Generation m)
    (om_CreationTimestamp m) (om_DeletionTimestamp m) (om_Labels m) (om_Annotations m) f (om_OwnerReferences m).
Definition set_Annotations (a : gmap string string) (m : ObjectMeta) : ObjectMeta :=
  mkMeta (om_Name m) (om_Namespace m) (om_UID m) (om_ResourceVersion m) (om_Generation m)
    (om_CreationTimestamp m) (om_DeletionTimestamp m) (om_Labels m) a (om_Finalizers m) (om_OwnerReferences m).
Definition set_Labels (l : gmap string string) (m : ObjectMeta) : ObjectMeta :=
  mkMeta (om_Name m) (om_Namespace m) (om_UID m) (om_ResourceVersion m) (om_Generation m)
    (om_CreationTimestamp m) (om_DeletionTimestamp m) l (om_Annotations m) (om_Finalizers m) (om_OwnerReferences m).

Definition vpc_with_Meta (f : ObjectMeta -> ObjectMeta) (v : VPC) : VPC := mkVPC (f (vpc_Meta v)) (vpc_Spec v) (vpc_Status v).
Definition vpc_with_Status (t : VPCStatus) (v : VPC) : VPC := mkVPC (vpc_Meta v) (vpc_Spec v) t.
Definition vt_with_NetworkID (n : Z) (t : VPCStatus) : VPCStatus :=
  mkVPCStatus (vt_ObservedGeneration t) n (vt_Phase t) (vt_Bindings t) (vt_SubnetClaims t) (vt_Conditions t).
Definition vt_with_Bindings (r : list BindingReference) (t : VPCStatus) : VPCStatus :=
  mkVPCStatus (vt_ObservedGeneration t) (vt_NetworkID t) (vt_Phase t) r (vt_SubnetClaims t) (vt_Conditions t).
Definition vt_with_SubnetClaims (c : list PrefixClaim) (t : VPCStatus) : VPCStatus :=
  mkVPCStatus (vt_ObservedGeneration t) (vt_NetworkID t) (vt_Phase t) (vt_Bindings t) c (vt_Conditions t).
Definition sn_with_Meta (f : ObjectMeta -> ObjectMeta) (s : Subnet) : Subnet := mkSubnet (f (sn_Meta s)) (sn_Spec s) (sn_Status s).
Definition sn_with_Status (t : SubnetStatus) (s : Subnet) : Subnet := mkSubnet (sn_Meta s) (sn_Spec s) t.

Definition nb_with_Meta (f : ObjectMeta -> ObjectMeta) (b : NetworkBinding) : NetworkBinding :=
  mkBinding (f (nb_Meta b)) (nb_Spec b) (nb_Status b).
Definition nb_with_Spec (s : NetworkBindingSpec) (b : NetworkBinding) : NetworkBinding := mkBinding (nb_Meta b) s (nb_Status b).
Definition nb_with_Status (t : NetworkBindingStatus) (b : NetworkBinding) : NetworkBinding := mkBinding (nb_Meta b) (nb_Spec b) t.
Definition bt_with_Resources (r : list ResourceRecord) (t : NetworkBindingStatus) : NetworkBindingStatus :=
  mkBindingStatus (bt_ObservedGeneration t) (bt_Phase t) (bt_AppliedRevision t) r (bt_Gateways t) (bt_Conditions t).
Definition bt_with_Gateways (g : list GatewayEndpoint) (t : NetworkBindingStatus) : NetworkBindingStatus :=
  mkBindingStatus (bt_ObservedGeneration t) (bt_Phase t) (bt_AppliedRevision t) (bt_Resources t) g (bt_Conditions t).

Definition nbs_with_Revision (r : string) (s : NetworkBindingSpec) : NetworkBindingSpec :=
  mkBindingSpec (nb_VPCRef s) (nb_NetworkID s) (nb_LocalASN s) (nb_LocationRef s) (nb_NetworkClassRef s)
    (nb_NativeVpcName s) (nb_TransportProfile s) (nb_Subnets s) (nb_AuthorizedLocations s) (nb_RemoteSubnets s)
    (nb_Peers s) (nb_LinkAllocations s) r (nb_Deleting s).
Definition nbs_with_Peers (p : list PeerGateway) (s : NetworkBindingSpec) : NetworkBindingSpec :=
  mkBindingSpec (nb_VPCRef s) (nb_NetworkID s) (nb_LocalASN s) (nb_LocationRef s) (nb_NetworkClassRef s)
    (nb_NativeVpcName s) (nb_TransportProfile s) (nb_Subnets s) (nb_AuthorizedLocations s) (nb_RemoteSubnets s)
    p (nb_LinkAllocations s) (nb_Revision s) (nb_Deleting s).
Definition nbs_with_transport (networkID localASN : Z) (links : list LinkAllocation) (s : NetworkBindingSpec) : NetworkBindingSpec :=
  mkBindingSpec (nb_VPCRef s) networkID localASN (nb_LocationRef s) (nb_NetworkClassRef s)
    (nb_NativeVpcName s) (nb_TransportProfile s) (nb_Subnets s) (nb_AuthorizedLocations s) (nb_RemoteSubnets s)
    (nb_Peers s) links (nb_Revision s) (nb_Deleting s).
Definition ge_with_Ready (r : bool) (g : GatewayEndpoint) : GatewayEndpoint :=
  mkEndpoint (ge_ID g) (ge_NodeName g) (ge_NodeUID g) (ge_EndpointIP g) (ge_TransitIP g) (ge_PublicKey g)
    (ge_LocalASN g) (ge_HealthIP g) (ge_Links g) r.
Definition ge_with_Links (l : list GatewayLink) (g : GatewayEndpoint) : GatewayEndpoint :=
  mkEndpoint (ge_ID g) (ge_NodeName g) (ge_NodeUID g) (ge_EndpointIP g) (ge_TransitIP g) (ge_PublicKey g)
    (ge_LocalASN g) (ge_HealthIP g) l (ge_Ready g).
Definition ge_with_PublicKey (k : string) (g : GatewayEndpoint) : GatewayEndpoint :=
  mkEndpoint (ge_ID g) (ge_NodeName g) (ge_NodeUID g) (ge_EndpointIP g) (ge_TransitIP g) k
    (ge_LocalASN g) (ge_HealthIP g) (ge_Links g) (ge_Ready g).

(** ** The JSON encoding of a snapshot: field order and [omitempty] as tagged *)

Definition fields (l : list (option (string * json))) : json := JObj (omap id l).
Definition req (k : string) (j : json) : option (string * json) := Some (k, j).
Definition opt_str (k s : string) : option (string * json) := if (s =? "")%string then None else Some (k, JStr s).
Definition opt_int (k : string) (z : Z) : option (string * json) := if z =? 0 then None else Some (k, JInt z).
Definition opt_bool (k : string) (b : bool) : option (string * json) := if b then Some (k, JBool true) else None.
Definition opt_arr {A} (k : string) (f : A -> json) (l : list A) : option (string * json) :=
  match l with [] => None | _ => Some (k, JArr (map f l)) end.

Definition identity_json (i : ObjectIdentity) : json :=
  fields [req "namespace" (JStr (oi_Namespace i)); req "name" (JStr (oi_Name i)); req "uid" (JStr (oi_UID i))].
Definition subnet_json (s : BindingSubnet) : json :=
  fields [req "name" (JStr (bs_Name s)); req "uid" (JStr (bs_UID s)); req "cidr" (JStr (bs_CIDR s));
          req "gateway" (JStr (bs_Gateway s)); req "nativeSubnetName" (JStr (bs_NativeSubnetName s));
          opt_bool "deleting" (bs_Deleting s)].
Definition remote_json (r : RemoteSubnet) : json :=
  fields [req "locationRef" (JStr (rs_LocationRef r)); req "cidr" (JStr (rs_CIDR r))].
Definition link_json (l : GatewayLink) : json :=
  fields [req "peerID" (JStr (gl_PeerID l)); req "listenPort" (JInt (gl_ListenPort l));
          req "tunnelIP" (JStr (gl_TunnelIP l)); opt_int "controlVNI" (gl_ControlVNI l)].
Definition endpoint_json (g : GatewayEndpoint) : json :=
  fields [req "id" (JStr (ge_ID g)); req "nodeName" (JStr (ge_NodeName g)); req "nodeUID" (JStr (ge_NodeUID g));
          opt_str "endpointIP" (ge_EndpointIP g); opt_str "transitIP" (ge_TransitIP g);
          opt_str "publicKey" (ge_PublicKey g); opt_int "localASN" (ge_LocalASN g);
          opt_str "healthIP" (ge_HealthIP g); opt_arr "links" link_json (ge_Links g); req "ready" (JBool (ge_Ready g))].
Definition peer_json (p : PeerGateway) : json :=
  fields [req "locationRef" (JStr (pg_LocationRef p)); req "endpoint" (endpoint_json (pg_Endpoint p))].
Definition allocation_json (a : LinkAllocation) : json :=
  fields [req "peerA" (JStr (la_PeerA a)); req "peerB" (JStr (la_PeerB a)); req "controlVNI" (JInt (la_ControlVNI a))].
Definition spec_json (s : NetworkBindingSpec) : json :=
  fields [req "vpcRef" (identity_json (nb_VPCRef s)); req "networkID" (JInt (nb_NetworkID s));
          req "localASN" (JInt (nb_LocalASN s)); req "locationRef" (JStr (nb_LocationRef s));
          req "networkClassRef" (JStr (nb_NetworkClassRef s)); req "nativeVpcName" (JStr (nb_NativeVpcName s));
          req "transportProfile" (JStr (nb_TransportProfile s)); opt_arr "subnets" subnet_json (nb_Subnets s);
          opt_arr "authorizedLocations" JStr (default [] (nb_AuthorizedLocations s));
          opt_arr "remoteSubnets" remote_json (nb_RemoteSubnets s); opt_arr "peers" peer_json (nb_Peers s);
          opt_arr "linkAllocations" allocation_json (nb_LinkAllocations s);
          req "revision" (JStr (nb_Revision s)); opt_bool "deleting" (nb_Deleting s)].
