(* ===== verification/PlatformConfig.v ===== *)
(** * [internal/platformconfig]: locations and network classes

    The administrator's configuration of the platform: which projects may use which
    location, which CIDR pools the location reserves, and the transport of each
    network class. *)
From S2P Require Import Prelude GoStd NetIP NetIPFacts Validation SiteConfig.
Open Scope Z_scope.

Record NetworkClass := mkClass { TransportProfile : string }.
Record Location := mkLocation {
  loc_Name : string; loc_Region : string; loc_Site : string; loc_DC : string;
  loc_BindingNamespace : string; loc_AllowedProjects : list string; loc_CIDRPools : list string }.
Record Config := mkConfig {
  RegistryNamespace : string; NetworkClasses : gmap string NetworkClass; Locations : list Location }.
(** The zero [Location{}] *)
Definition noLocation : Location := mkLocation "" "" "" "" "" [] [].

Section validate.
Context {VAL : Validation}.

Fixpoint validateClasses (l : list (string * NetworkClass)) : res unit :=
  match l with
  | [] => Ok tt
  | (name, class) :: rest =>
      reject bad (IsDNS1123Label name) with Errorf "invalid network class name" ;;
      reject negb (bool_decide (TransportProfile class ∈ ["wireguard-bgp"; "geneve-bgp"; "vxlan-evpn"]))
        with Errorf ("unsupported transport profile for " ++ name) ;;
      validateClasses rest
  end.

Fixpoint validatePools (name : string) (pools : list string) : res unit :=
  match pools with
  | [] => Ok tt
  | raw :: rest =>
      match Prefix raw with
      | Err e => Err (Wrapf ("location " ++ name) e)
      | Ok _ => validatePools name rest
      end
  end.

Fixpoint validateLocations (seen namespaces : gset string) (l : list Location) : res unit :=
  match l with
  | [] => Ok tt
  | x :: rest =>
      reject existsb (fun s => bad (IsDNS1123Label s))
               [loc_Name x; loc_Region x; loc_Site x; loc_DC x; loc_BindingNamespace x]
        with Errorf "location identity and namespace must be DNS labels" ;;
      reject bool_decide (loc_Name x ∈ seen) || bool_decide (loc_BindingNamespace x ∈ namespaces)
        with Errorf "locations require unique names and binding namespaces" ;;
      reject (List.length (loc_AllowedProjects x) =? 0)%nat || (List.length (loc_CIDRPools x) =? 0)%nat
        with Errorf ("location " ++ loc_Name x ++ " requires explicit project grants and reserved CIDR pools") ;;
      reject existsb (fun p => bad (IsDNS1123Label p)) (loc_AllowedProjects x)
        with Errorf "project grants must name an explicit namespace" ;;
      _ <-? validatePools (loc_Name x) (loc_CIDRPools x) ;;
      validateLocations ({[loc_Name x]} ∪ seen) ({[loc_BindingNamespace x]} ∪ namespaces) rest
  end.

Definition Validate (c : Config) : res unit :=
  reject negb (RegistryNamespace c =? "")%string && bad (IsDNS1123Label (RegistryNamespace c))
    with Errorf "invalid registry namespace" ;;
  reject bool_decide (NetworkClasses c !! "default" = None)
    with Errorf "a default network class is required" ;;
  _ <-? validateClasses (map_to_list (NetworkClasses c)) ;;
  _ <-? validateLocations ∅ ∅ (Locations c) ;;
  reject (List.length (Locations c) =? 0)%nat with Errorf "at least one location is required" ;;
  Ok tt.
End validate.

(** [Config.Location]: the first location of that name decides. *)
Fixpoint find_location (name project : string) (l : list Location) : res Location :=
  match l with
  | [] => Err (Errorf ("location " ++ name ++ " is not registered"))
  | x :: rest =>
      if negb (loc_Name x =? name)%string then find_location name project rest
      else if existsb (String.eqb project) (loc_AllowedProjects x) then Ok x
      else Err (Errorf ("project is not authorized for location " ++ name))
  end.
Definition lookupLocation (c : Config) (name project : string) : res Location :=
  find_location name project (Locations c).

(** [Location.AllowsCIDR] *)
Definition AllowsCIDR (l : Location) (raw : string) : bool :=
  match Prefix raw with
  | Err _ => false
  | Ok p =>
      existsb (fun rawPool => match Prefix rawPool with
                              | Ok pool => (pbits pool <=? pbits p) && Contains pool (paddr p)
                              | Err _ => false
                              end) (loc_CIDRPools l)
  end.

(** ** What they guarantee *)

Lemma find_location_ok name project l x : find_location name project l = Ok x ->
  In x l /\ loc_Name x = name /\ In project (loc_AllowedProjects x).
Proof.
  induction l as [|y l IH]; simpl; [done|]. destruct (loc_Name y =? name)%string eqn:E; simpl.
  - destruct (existsb _ _) eqn:Ex; [|done]. intros [= ->]. breflect. split; [by left|]. split; [done|].
    apply existsb_exists in Ex as (p & Hp & Heq). breflect. by subst.
  - intros H. destruct (IH H) as (? & ? & ?). auto.
Qed.

Lemma find_location_name name project l x : find_location name project l = Ok x -> loc_Name x = name.
Proof. intros H. by apply find_location_ok in H as (_ & ? & _). Qed.

(** Every address of an allowed CIDR lies in one reserved pool. *)
Lemma AllowsCIDR_inside l raw p : AllowsCIDR l raw = true -> Prefix raw = Ok p ->
  exists rawPool pool, In rawPool (loc_CIDRPools l) /\ Prefix rawPool = Ok pool /\
    forall x, Contains p (Addr4 x) = true -> Contains pool (Addr4 x) = true.
Proof.
  unfold AllowsCIDR. intros HA HP. rewrite HP in HA. apply existsb_exists in HA as (rawPool & Hin & HC).
  destruct (Prefix rawPool) as [pool|] eqn:E; [|done]. apply andb_true_iff in HC as [HB HC]. breflect.
  exists rawPool, pool. split; [done|]. split; [done|]. intros x Hx.
  apply Prefix_ok in HP as (v & b & Hp & Hb & Hal & _). apply Prefix_ok in E as (w & c & Hq & Hc & Hal2 & _).
  assert (paddr p = Addr4 v /\ pbits p = b /\ pbits pool = c) as (Ea & Eb & Ec)
    by (destruct Hp as (-> & _), Hq as (-> & _); done).
  rewrite Ea in HC. rewrite (Contains_block _ _ _ _ Hq) in HC. breflect.
  apply (Contains_range _ _ _ _ Hp) in Hx. apply block_eq_iff in Hx; [|lia].
  rewrite (Contains_block _ _ _ _ Hq). apply Z.eqb_eq. rewrite <- HC.
  apply (block_mono _ _ b); lia.
Qed.

Section facts.
Context {VAL : Validation}.

Lemma validateLocations_ok seen ns l : validateLocations seen ns l = Ok tt ->
  NoDup (map loc_Name l) /\ NoDup (map loc_BindingNamespace l) /\
  (forall x, In x l -> loc_Name x ∉ seen /\ loc_BindingNamespace x ∉ ns) /\
  (forall x, In x l -> loc_AllowedProjects x <> [] /\ loc_CIDRPools x <> [] /\
     Forall (fun raw => is_ok (Prefix raw) = true) (loc_CIDRPools x)).
Proof.
  revert seen ns. induction l as [|x l IH]; intros seen ns; cbn [validateLocations].
  { intros _. repeat split; try constructor; done. }
  intros H. follow H. destruct (IH _ _ H) as (N1 & N2 & HS & HP). clear IH H.
  assert (Forall (fun raw => is_ok (Prefix raw) = true) (loc_CIDRPools x)) as HPool.
  { match goal with E : validatePools _ _ = _ |- _ => revert E end.
    generalize (loc_CIDRPools x). clear. intros pools. induction pools as [|raw pools IH]; simpl; [constructor|].
    intros H. destruct (Prefix raw) eqn:E; [|done]. constructor; [by rewrite E|auto]. }
  breflect. simpl map. rewrite !NoDup_cons. refine (conj (conj _ N1) (conj (conj _ N2) (conj _ _))).
  - intros (y & E & Hy)%list_elem_of_In%in_map_iff. destruct (HS y Hy) as [HS1 _]. rewrite E in HS1. set_solver.
  - intros (y & E & Hy)%list_elem_of_In%in_map_iff. destruct (HS y Hy) as [_ HS1]. rewrite E in HS1. set_solver.
  - intros y [<-|Hy]; [done|]. destruct (HS _ Hy). set_solver.
  - intros y [<-|Hy]; [|by apply HP]. split; [by intros E; rewrite E in *|]. split; [by intros E; rewrite E in *|done].
Qed.

(** A validated configuration never gives two locations one name or one binding
    namespace, and every class has a transport the gateways implement. *)
Lemma Validate_locations c : Validate c = Ok tt ->
  NoDup (map loc_Name (Locations c)) /\ NoDup (map loc_BindingNamespace (Locations c)) /\ Locations c <> [].
Proof.
  unfold Validate. intros H. follow H.
  match goal with E : validateLocations _ _ _ = _ |- _ => destruct (validateLocations_ok _ _ _ E) as (? & ? & _) end.
  repeat split; try assumption. intros E. rewrite E in *. done.
Qed.
End facts.
