(* ===== verification/LocalConfig.v ===== *)
(** * [internal/localconfig]: one operator's local installation settings *)
From S2P Require Import Prelude GoStd NetIP NetIPFacts Validation SiteConfig.
Open Scope Z_scope.

Record Config := mkConfig {
  LocationRef : string; ClusterUID : string; lc_Namespace : string; AuthorityNamespace : string;
  AuthorityKubeconfig : string; GatewayNodeSelector : gmap string string; EndpointAnnotation : string;
  TransitPool : string; TransitPrefixLength : Z; BFDSourcePool : string; GatewayReplicas : Z;
  GatewayImage : string; MTU : Z; ControlPool : string; PortStart : Z; PortEnd : Z; RuntimeDir : string }.

Section validate.
Context {VAL : Validation}.

Definition Validate (c : Config) : res unit :=
  reject existsb (fun s => bad (IsDNS1123Label s)) [LocationRef c; lc_Namespace c; AuthorityNamespace c]
    with Errorf "local identity and namespaces must be DNS labels" ;;
  reject (ClusterUID c =? "")%string || (AuthorityKubeconfig c =? "")%string
    with Errorf "cluster UID and authority kubeconfig reference are required" ;;
  match Prefix (TransitPool c) with
  | Err e => Err (Wrapf "transit pool" e)
  | Ok transit =>
      match Prefix (BFDSourcePool c) with
      | Err e => Err (Wrapf "BFD source pool" e)
      | Ok bfd =>
          reject Overlaps transit bfd with Errorf "transit and BFD pools must not overlap" ;;
          match Prefix (ControlPool c) with
          | Err e => Err (Wrapf "control pool" e)
          | Ok control =>
              reject Overlaps control transit || Overlaps control bfd
                with Errorf "control, transit and BFD pools must not overlap" ;;
              reject (PortStart c <? 1024) || (65535 <? PortEnd c) || (PortEnd c <? PortStart c) ||
                     (RuntimeDir c =? "")%string
                with Errorf "reserved WireGuard port range and runtime directory are required" ;;
              reject existsb (fun port => (PortStart c <=? port) && (port <=? PortEnd c)) [4788; 4789; 6081; 6082]
                with Errorf "WireGuard port range overlaps reserved native transport ports" ;;
              reject (TransitPrefixLength c <? pbits transit) || (29 <? TransitPrefixLength c) ||
                     (TransitPrefixLength c <? 16)
                with Errorf "transit prefix length must fit pool and provide usable gateway addresses" ;;
              reject (GatewayReplicas c <? 2) || (64 <? GatewayReplicas c) ||
                     (Z.shiftl 1 (32 - TransitPrefixLength c) - 3 <? GatewayReplicas c)
                with Errorf "require 2 through 64 gateways and sufficient transit addresses" ;;
              reject bool_decide (GatewayNodeSelector c = ∅) || (GatewayImage c =? "")%string ||
                     (MTU c <? 1280) || (1400 <? MTU c)
                with Errorf "gateway selector, image and MTU 1280 through 1400 are required" ;;
              reject existsb (fun kv => bad (IsQualifiedName (fst kv)) || bad (IsValidLabelValue (snd kv)))
                       (map_to_list (GatewayNodeSelector c))
                with Errorf "invalid gateway node selector" ;;
              reject negb (EndpointAnnotation c =? "")%string && bad (IsQualifiedName (EndpointAnnotation c))
                with Errorf "invalid endpoint annotation" ;;
              Ok tt
          end
      end
  end.

(** What the components that use the pools rely on. *)
Record pools_ok (c : Config) (transit bfd control : NetIP.Prefix) : Prop := {
  po_transit : Prefix (TransitPool c) = Ok transit;
  po_bfd : Prefix (BFDSourcePool c) = Ok bfd;
  po_control : Prefix (ControlPool c) = Ok control;
  po_disjoint : disjoint transit bfd /\ disjoint control transit /\ disjoint control bfd;
  po_length : pbits transit <= TransitPrefixLength c /\ 16 <= TransitPrefixLength c <= 29;
  po_replicas : 2 <= GatewayReplicas c <= 64 /\ GatewayReplicas c <= 2 ^ (32 - TransitPrefixLength c) - 3;
  po_ports : 1024 <= PortStart c <= PortEnd c /\ PortEnd c <= 65535;
  po_reserved : forall port, In port [4788; 4789; 6081; 6082] -> ~ PortStart c <= port <= PortEnd c;
  po_cluster : ClusterUID c <> "" }.

Lemma Prefix_disjoint r1 r2 p q : Prefix r1 = Ok p -> Prefix r2 = Ok q -> Overlaps p q = false -> disjoint p q.
Proof.
  intros H1 H2 HO x Hx [C1 C2]. assert (Overlaps p q = true); [|congruence].
  apply (Prefix_overlap _ _ _ _ H1 H2). eauto.
Qed.

Lemma Validate_ok c : Validate c = Ok tt -> exists transit bfd control, pools_ok c transit bfd control.
Proof.
  unfold Validate. intros H. follow H.
  match goal with
    E1 : Prefix (TransitPool c) = Ok ?t, E2 : Prefix (BFDSourcePool c) = Ok ?b, E3 : Prefix (ControlPool c) = Ok ?d |- _ =>
      rename t into transit, b into bfd, d into control
  end.
  exists transit, bfd, control. rewrite Z.shiftl_1_l in *.
  split; try assumption; try lia.
  - split; [eauto using Prefix_disjoint|]. split; eauto using Prefix_disjoint.
  - intros port Hport [G1 G2]. match goal with E : existsb _ [4788; _; _; _] = false |- _ => rename E into EX end.
    assert (existsb (fun port => (PortStart c <=? port) && (port <=? PortEnd c)) [4788; 4789; 6081; 6082] = true); [|congruence].
    apply existsb_exists. exists port. split; [done|]. apply andb_true_iff. by rewrite !Z.leb_le.
Qed.
End validate.
