(* ===== verification/Kube.v ===== *)
(** * The Kubernetes API as the outside world of a controller pass

    The kinds the controllers read and write, the calls of the controller-runtime
    client with the options the code passes, and the library helpers the code uses.
    The API server is not part of the repository: its answers are arbitrary, and
    the helpers of apimachinery and controller-runtime are class operations. *)
From S2P Require Import Prelude Json Api Prog.
Open Scope Z_scope.

(** ** Core objects, with the fields the code reads or writes *)

Record ConfigMap := mkConfigMap { cm_Meta : ObjectMeta; cm_Immutable : option bool; cm_Data : gmap string string }.
Record Secret := mkSecret {
  sc_Meta : ObjectMeta; sc_Immutable : option bool; sc_Type : string; sc_Data : gmap string string }.
Record NodeAddress := mkNodeAddress { na_Type : string; na_Address : string }.
Record CoreCondition := mkCoreCondition { cc_Type : string; cc_Status : string }.
Record Node := mkNode {
  nd_Meta : ObjectMeta; nd_Unschedulable : bool; nd_TaintEffects : list string;
  nd_Addresses : list NodeAddress; nd_Conditions : list CoreCondition }.
Record Namespace := mkNamespace { nsp_Meta : ObjectMeta }.
Record VolumeMount := mkMount {
  vm_Name : string; vm_MountPath : string; vm_ReadOnly : bool; vm_SubPath : string; vm_SubPathExpr : string }.
Record Container := mkContainer {
  ct_Name : string; ct_Image : string; ct_Command : list string; ct_Args : list string;
  ct_Privileged : option bool; ct_ReadinessExec : option (list string); ct_VolumeMounts : list VolumeMount }.
Record Volume := mkVolume { vo_Name : string; vo_ConfigMap : option string; vo_Secret : option string }.
Record Pod := mkPod {
  pd_Meta : ObjectMeta; pd_NodeName : string; pd_HostNetwork : bool; pd_HostPID : bool;
  pd_Automount : option bool; pd_Containers : list Container; pd_InitContainers : list Container;
  pd_Volumes : list Volume; pd_Conditions : list CoreCondition }.
(** [unstructured.Unstructured]: its group version and kind, its metadata, and the
    rest of its content as a JSON object. *)
Record Native := mkNative {
  un_APIVersion : string; un_Kind : string; un_Meta : ObjectMeta; un_Object : json }.

(** ** Kinds and calls *)

Inductive kind :=
| KVPC | KSubnet | KBinding | KConfigMap | KSecret | KPod | KNode | KNamespace
| KNative (apiVersion kind : string).
#[export] Instance kind_eq_dec : EqDecision kind.
Proof. solve_decision. Defined.

Definition object (k : kind) : Type :=
  match k with
  | KVPC => VPC | KSubnet => Subnet | KBinding => NetworkBinding | KConfigMap => ConfigMap
  | KSecret => Secret | KPod => Pod | KNode => Node | KNamespace => Namespace | KNative _ _ => Native
  end.
Definition meta_of {k : kind} : object k -> ObjectMeta :=
  match k with
  | KVPC => vpc_Meta | KSubnet => sn_Meta | KBinding => nb_Meta | KConfigMap => cm_Meta
  | KSecret => sc_Meta | KPod => pd_Meta | KNode => nd_Meta | KNamespace => nsp_Meta | KNative _ _ => un_Meta
  end.

(** The API server a client talks to. *)
Inductive cluster := Authority | Local.
(** [client.InNamespace] and [client.MatchingLabels] *)
Record selector := mkSel { sel_Namespace : option string; sel_Labels : gmap string string }.
Definition InNamespace (ns : string) : selector := mkSel (Some ns) ∅.
Definition MatchingLabels (l : gmap string string) : selector := mkSel None l.
Definition Everything : selector := mkSel None ∅.
(** [client.Preconditions] *)
Record Preconditions := mkPre { pre_UID : option string; pre_ResourceVersion : option string }.

Inductive op :=
| Get (c : cluster) (k : kind) (ns name : string)
| ListObjects (c : cluster) (k : kind) (s : selector)
| Create (c : cluster) (k : kind) (o : object k)
| Update (c : cluster) (k : kind) (o : object k)
| UpdateStatus (c : cluster) (k : kind) (o : object k)
| Delete (c : cluster) (k : kind) (ns name : string) (p : Preconditions)
(** [rand.Read], [os.ReadFile] and the rollout probe of the gateway backend *)
| RandRead (n : Z)
| ReadFile (dir name : string)
| Probe (p : Pod) (config : json).

(** A successful write answers with the stored object. *)
Definition ans (o : op) : Type :=
  match o with
  | Get _ k _ _ | Create _ k _ | Update _ k _ | UpdateStatus _ k _ => res (object k)
  | ListObjects _ k _ => res (list (object k))
  | Delete _ _ _ _ _ => res unit
  | RandRead _ => res (list Z)
  | ReadFile _ _ => res string
  | Probe _ _ => res bool
  end.

Notation kprog := (prog ans).
Notation history := (list (event ans)).

(** [r.Delete(ctx, o, client.Preconditions{UID: &uid, ResourceVersion: &rv})] *)
Definition delete_object (c : cluster) (k : kind) (o : object k) : kprog (res unit) :=
  call (Delete c k (om_Namespace (meta_of o)) (om_Name (meta_of o))
          (mkPre (Some (om_UID (meta_of o))) (Some (om_ResourceVersion (meta_of o))))).

(** ** Library helpers

    [meta.SetStatusCondition] stamps transition times from the clock; the function
    is an argument of a pass, so the pass sees one clock reading. *)
Class Machinery := {
  SetStatusCondition : list Condition -> Condition -> list Condition;
  IsStatusConditionTrue : list Condition -> string -> bool;
  ContainsFinalizer : ObjectMeta -> string -> bool;
  AddFinalizer : ObjectMeta -> string -> ObjectMeta;
  RemoveFinalizer : ObjectMeta -> string -> ObjectMeta;
}.

(** [unstructured.Nested...] on the content of a native object: a missing or
    mistyped field reads as [None]. *)
Class Unstructured := {
  NestedMap : json -> list string -> option json;
  NestedSlice : json -> list string -> option (list json);
  NestedFieldCopy : json -> list string -> option json;
  NestedString : json -> list string -> option string;
  NestedStringSlice : json -> list string -> option (list string);
  NestedInt64 : json -> list string -> option Z;
  SetNestedField : json -> json -> list string -> res json;
  SetNestedSlice : json -> list json -> list string -> res json;
}.

(** [retry.RetryOnConflict] and [retry.DefaultRetry.Steps]: documented to run the
    function again while it returns a conflict, up to a number of steps. *)
Fixpoint attempts {A} (n : nat) (body : kprog (res A)) : kprog (res A) :=
  match n with
  | O => body
  | S n => r <- body ;;
           match r with
           | Err e => if IsConflict e then attempts n body else Ret (Err e)
           | Ok a => Ret (Ok a)
           end
  end.
Class Retry := {
  RetryOnConflict : forall {A}, Z -> kprog (res A) -> kprog (res A);
  RetryOnConflict_attempts : forall A steps (body : kprog (res A)),
    exists n, RetryOnConflict steps body = attempts n body;
  DefaultRetrySteps : Z;
}.

(** ** Reasoning about calls *)

(** The metadata a call writes, and the writes of the code. *)
Definition writes (o : op) : bool :=
  match o with
  | Create _ _ _ | Update _ _ _ | UpdateStatus _ _ _ | Delete _ _ _ _ _ => true
  | _ => false
  end.

(** A loop of [attempts] keeps any invariant of the history that one run of the
    body keeps. *)
Lemma wp_attempts {A} E R (I : history -> Prop) (Q : history -> res A -> Prop) n body h :
  (forall h, I h -> wp E R body h (fun h' r => Q h' r /\ (is_ok r = false -> I h'))) ->
  I h -> wp E R (attempts n body) h Q.
Proof.
  intros HB. revert h. induction n as [|n IH]; intros h HI; simpl.
  - eapply wp_mono; [|by apply HB]. by intros h' r [? _].
  - apply wp_bind. eapply wp_mono; [|by apply HB]. intros h' [a|e] [HQ HI']; simpl; [done|].
    destruct (IsConflict e); simpl; auto.
Qed.

(** ** Typed calls *)

Definition kget (c : cluster) (k : kind) (ns name : string) : kprog (res (object k)) := call (Get c k ns name).
Definition klist (c : cluster) (k : kind) (s : selector) : kprog (res (list (object k))) := call (ListObjects c k s).
Definition kcreate (c : cluster) (k : kind) (o : object k) : kprog (res (object k)) := call (Create c k o).
Definition kupdate (c : cluster) (k : kind) (o : object k) : kprog (res (object k)) := call (Update c k o).
Definition kstatus (c : cluster) (k : kind) (o : object k) : kprog (res (object k)) := call (UpdateStatus c k o).

(** [if err := r.Get(...); apierrors.IsNotFound(err) { None } else if err != nil { return err }] *)
Definition found {A} (r : res A) : res (option A) :=
  match r with
  | Ok a => Ok (Some a)
  | Err e => if IsNotFound e then Ok None else Err e
  end.
Definition kfind (c : cluster) (k : kind) (ns name : string) : kprog (res (option (object k))) :=
  r <- kget c k ns name ;; Ret (found r).

Definition cm_with_Data (d : gmap string string) (c : ConfigMap) : ConfigMap := mkConfigMap (cm_Meta c) (cm_Immutable c) d.
Definition cm_with_Meta (f : ObjectMeta -> ObjectMeta) (c : ConfigMap) : ConfigMap := mkConfigMap (f (cm_Meta c)) (cm_Immutable c) (cm_Data c).

(** ** Reconcile passes

    [ctrl.Result], and the control flow of a handler: a phase either makes the
    handler return or hands a value to the next phase. *)
Record Result := mkResult { RequeueAfter : Z }.
#[export] Instance Result_eq_dec : EqDecision Result.
Proof. solve_decision. Defined.
Definition second : Z := 1000000000.
(** [r.again()] *)
Definition again (interval : Z) : Result := mkResult (if interval <? second then 5 * second else interval).

Inductive flow (A : Type) :=
| Return (r : res Result)
| Continue (a : A).
Arguments Return {A} r.
Arguments Continue {A} a.

Definition fbind {A B} (p : kprog (flow A)) (f : A -> kprog (flow B)) : kprog (flow B) :=
  bind p (fun x => match x with Return r => Ret (Return r) | Continue a => f a end).
(** [if err != nil { return ctrl.Result{}, err }] *)
Definition try {A} (p : kprog (res A)) : kprog (flow A) :=
  bind p (fun r => Ret (match r with Ok a => Continue a | Err e => Return (Err e) end)).
(** [return r.again(), <write>] *)
Definition return_after {A B} (interval : Z) (p : kprog (res A)) : kprog (flow B) :=
  bind p (fun r => Ret (Return (match r with Ok _ => Ok (again interval) | Err e => Err e end))).
Definition finish {A} (p : kprog (res Result)) : kprog (flow A) := bind p (fun r => Ret (Return r)).
Definition handler (p : kprog (flow Result)) : kprog (res Result) :=
  bind p (fun x => Ret (match x with Return r => r | Continue r => Ok r end)).

Declare Scope flow_scope.
Delimit Scope flow_scope with flow.
Open Scope flow_scope.
Notation "x <~ p ;; k" := (fbind p (fun x => k))
  (at level 60, p at next level, right associativity) : flow_scope.
Notation "'leave' c 'with' p ;; k" := (if c then p else k)
  (at level 60, c at level 59, p at level 59, right associativity) : flow_scope.

(** A loop over a list that may return from the handler. *)
Fixpoint ffold {A S} (f : S -> A -> kprog (flow S)) (s : S) (l : list A) : kprog (flow S) :=
  match l with
  | [] => Ret (Continue s)
  | x :: l => s' <~ f s x ;; ffold f s' l
  end.

(** * Reasoning about controller passes

    Backward rules of [wp] for the control flow of the handlers, and the predicates
    on histories the safety theorems speak of. *)

Section rules.
Context (E : history -> forall o, ans o -> Prop) (R : history -> op -> Prop).

Lemma wp_call (o : op) h (Q : history -> ans o -> Prop) :
  R h o -> (forall x, E h o x -> Q (h ++ [Ev o x]) x) -> wp E R (call o) h Q.
Proof. apply wp_act. Qed.

Lemma wp_fbind {A B} (p : kprog (flow A)) (f : A -> kprog (flow B)) h Q :
  wp E R p h (fun h' x => match x with Return r => Q h' (Return r) | Continue a => wp E R (f a) h' Q end) ->
  wp E R (fbind p f) h Q.
Proof. intros H. apply wp_bind. eapply wp_mono; [|exact H]. by intros h' []. Qed.

Lemma wp_try {A} (p : kprog (res A)) h Q :
  wp E R p h (fun h' r => Q h' (match r with Ok a => Continue a | Err e => Return (Err e) end)) ->
  wp E R (try p) h Q.
Proof. intros H. apply wp_bind. eapply wp_mono; [|exact H]. done. Qed.

(** A call whose answer ends the pass only has to be permitted. *)
Lemma wp_return_after {A B} interval (p : kprog (res A)) h (Q : history -> flow B -> Prop) :
  wp E R p h (fun h' _ => forall r, Q h' (Return r)) -> wp E R (return_after interval p) h Q.
Proof. intros H. apply wp_bind. eapply wp_mono; [|exact H]. simpl. auto. Qed.
Lemma wp_finish {A} (p : kprog (res Result)) h (Q : history -> flow A -> Prop) :
  wp E R p h (fun h' r => Q h' (Return r)) -> wp E R (finish p) h Q.
Proof. intros H. apply wp_bind. eapply wp_mono; [|exact H]. done. Qed.

Lemma wp_kfind c k ns name h Q :
  R h (Get c k ns name) ->
  (forall x, E h (Get c k ns name) x -> Q (h ++ [Ev (Get c k ns name) x]) (found x)) ->
  wp E R (kfind c k ns name) h Q.
Proof. intros HR HQ. simpl. split; [done|]. intros x Hx. by apply HQ. Qed.

(** A loop with an invariant over what it has processed. *)
Lemma wp_ffold {A S} (f : S -> A -> kprog (flow S)) (I : history -> S -> list A -> Prop)
    (QR : history -> res Result -> Prop) l h s :
  (forall h s done x todo, l = done ++ x :: todo -> I h s done ->
     wp E R (f s x) h (fun h' r => match r with Return r => QR h' r | Continue s' => I h' s' (done ++ [x]) end)) ->
  I h s [] ->
  wp E R (ffold f s l) h (fun h' r => match r with Return r => QR h' r | Continue s' => I h' s' l end).
Proof.
  intros HB. enough (forall todo done h s, l = done ++ todo -> I h s done ->
    wp E R (ffold f s todo) h (fun h' r => match r with Return r => QR h' r | Continue s' => I h' s' l end)) as G
    by (intros; by eapply (G l [])).
  clear h s. induction todo as [|x todo IH]; intros done h s El HI; simpl.
  - by rewrite List.app_nil_r in El; subst.
  - apply wp_fbind. eapply wp_mono; [|by eapply HB]. intros h' [r|s'] Hx; simpl in Hx; [done|].
    apply (IH (done ++ [x])); [|done]. by rewrite <- List.app_assoc.
Qed.
End rules.

(** [b] was read from the authority's API in this pass. *)
Definition seen (k : kind) (h : history) (b : object k) : Prop :=
  (exists ns name, asked h (Get Authority k ns name) (Ok b)) \/
  (exists sel l, asked h (ListObjects Authority k sel) (Ok l) /\ In b l).
Lemma seen_extends k h h' b : extends h h' -> seen k h b -> seen k h' b.
Proof.
  intros HE [(ns & name & Ha)|(sel & l & Ha & Hb)]; [left|right]; eauto 6 using asked_extends.
Qed.

Lemma found_some {A} (r : res A) a : found r = Ok (Some a) -> r = Ok a.
Proof. destruct r as [b|e]; simpl; [by intros [= ->]|]. by destruct (IsNotFound e). Qed.

(** ** Stepping through a handler

    [wstep] applies the rule of the outermost construct of the goal. *)
(** A call by its typed wrapper. *)
Lemma wp_kcall E R {A} (o : op) (f : ans o -> kprog A) h Q :
  R h o -> (forall x, E h o x -> wp E R (f x) (h ++ [Ev o x]) Q) -> wp E R (Act o f) h Q.
Proof. done. Qed.

Ltac wstep :=
  lazymatch goal with
  | |- wp _ _ (fbind _ _) _ _ => apply wp_fbind
  | |- wp _ _ (bind_ok _ _) _ _ => apply wp_bind_ok_rule
  | |- wp _ _ (bind _ _) _ _ => apply wp_bind_rule
  | |- wp _ _ (try _) _ _ => apply wp_try
  | |- wp _ _ (return_after _ _) _ _ => apply wp_return_after
  | |- wp _ _ (finish _) _ _ => apply wp_finish
  | |- wp _ _ (kfind _ _ _ _) _ _ => apply wp_kfind
  | |- wp _ _ (Ret _) _ _ => apply wp_Ret
  | |- wp _ _ (kget _ _ _ _) _ _ => apply wp_call
  | |- wp _ _ (klist _ _ _) _ _ => apply wp_call
  | |- wp _ _ (kcreate _ _ _) _ _ => apply wp_call
  | |- wp _ _ (kupdate _ _ _) _ _ => apply wp_call
  | |- wp _ _ (kstatus _ _ _) _ _ => apply wp_call
  | |- wp _ _ (delete_object _ _ _) _ _ => apply wp_call
  | |- wp _ _ (call _) _ _ => apply wp_call
  | |- wp _ _ (if ?c then _ else _) _ _ => let Ec := fresh "Ec" in destruct c eqn:Ec
  end.

(** The [n]-th call of a history. *)
Definition nth_op (h : history) (n : nat) : op := match nth_error h n with Some e => ev_op e | None => RandRead 0 end.
Lemma called_nth h n : (n <? List.length h)%nat = true -> called h (firstn n h) (nth_op h n).
Proof.
  intros H%Nat.ltb_lt. unfold nth_op. destruct (nth_error h n) as [[o x]|] eqn:E; [|by apply nth_error_None in E; lia].
  apply nth_error_split in E as (l1 & l2 & -> & <-). exists x, l2. simpl.
  rewrite firstn_app, Nat.sub_diag, List.app_nil_r, firstn_all. done.
Qed.
