(* ===== verification/Phases.v ===== *)
(** * Passes that thread an object through their phases

    A handler mutates its copy of the reconciled object in memory between calls: a
    phase is a program from the copy to a value and the copy it leaves. A phase may
    fail, or return from the handler. [pwp] is [wp] for phases. *)
From S2P Require Import Prelude Prog Kube.

Section phases.
Context {Op : Type} {Ans : Op -> Type} {St : Type}.

Definition phase (A : Type) : Type := St -> prog Ans (A * St).
Definition pret {A} (a : A) : phase A := fun s => Ret (a, s).
Definition pbind {A B} (p : phase A) (f : A -> phase B) : phase B := fun s => bind (p s) (fun x => f (fst x) (snd x)).
Definition lift {A} (p : prog Ans A) : phase A := fun s => bind p (fun a => Ret (a, s)).
Definition current {A} (f : St -> phase A) : phase A := fun s => f s s.
Definition modify (f : St -> St) : phase unit := fun s => Ret (tt, f s).
(** A phase that may fail, and one that may return from the handler. *)
Definition pbind_ok {A B} (p : phase (res A)) (f : A -> phase (res B)) : phase (res B) :=
  pbind p (fun x => match x with Ok a => f a | Err e => pret (Err e) end).
Definition pflow {A B} (p : phase (flow A)) (f : A -> phase (flow B)) : phase (flow B) :=
  pbind p (fun x => match x with Return x => pret (Return x) | Continue a => f a end).
(** [if err != nil { return ctrl.Result{}, err }] *)
Definition or_return {A} (p : phase (res A)) : phase (flow A) :=
  pbind p (fun x => pret (match x with Ok a => Continue a | Err e => Return (Err e) end)).
(** [if err != nil { return <handle err> }] *)
Definition or_else {A} (handle : error -> phase (flow A)) (p : phase (res A)) : phase (flow A) :=
  pbind p (fun x => match x with Ok a => pret (Continue a) | Err e => handle e end).
(** A loop that may return from the handler. *)
Fixpoint pfold {A B} (f : B -> A -> phase (flow B)) (b : B) (l : list A) : phase (flow B) :=
  match l with
  | [] => pret (Continue b)
  | x :: l => pflow (f b x) (fun b' => pfold f b' l)
  end.
Definition peach {A} (f : A -> phase (flow unit)) (l : list A) : phase (flow unit) := pfold (fun _ => f) tt l.
(** A handler that ends with its result. *)
Definition run_phase (p : phase (flow Result)) (s : St) : prog Ans (res Result) :=
  bind (p s) (fun x => Ret (match fst x with Return r => r | Continue r => Ok r end)).

Notation history := (list (event Ans)).
Section pwp.
Context (R : history -> Op -> Prop).

Definition pwp {A} (p : phase A) (s : St) (h : history) (Q : history -> A -> St -> Prop) : Prop :=
  wp any_answer R (p s) h (fun h' x => Q h' (fst x) (snd x)).

Lemma pwp_mono {A} (p : phase A) s h (Q Q' : history -> A -> St -> Prop) :
  (forall h' a s', Q h' a s' -> Q' h' a s') -> pwp p s h Q -> pwp p s h Q'.
Proof. intros HQ. apply wp_mono. auto. Qed.
Lemma pwp_extends {A} (p : phase A) s h Q : pwp p s h Q -> pwp p s h (fun h' a s' => extends h h' /\ Q h' a s').
Proof. intros H. exact (wp_extends _ _ _ _ _ H). Qed.
Lemma pwp_pret {A} (a : A) s h (Q : history -> A -> St -> Prop) : Q h a s -> pwp (pret a) s h Q.
Proof. done. Qed.
Lemma pwp_pbind {A B} (p : phase A) (f : A -> phase B) s h Q :
  pwp p s h (fun h' a s' => pwp (f a) s' h' Q) -> pwp (pbind p f) s h Q.
Proof. intros H. apply wp_bind. exact H. Qed.
Lemma pwp_pbind_ok {A B} (p : phase (res A)) (f : A -> phase (res B)) s h Q :
  pwp p s h (fun h' x s' => match x with Ok a => pwp (f a) s' h' Q | Err e => Q h' (Err e) s' end) -> pwp (pbind_ok p f) s h Q.
Proof. intros H. apply pwp_pbind. eapply pwp_mono; [|exact H]. by intros h' [a|e] s'. Qed.
Lemma pwp_pflow {A B} (p : phase (flow A)) (f : A -> phase (flow B)) s h Q :
  pwp p s h (fun h' x s' => match x with Continue a => pwp (f a) s' h' Q | Return x => Q h' (Return x) s' end) -> pwp (pflow p f) s h Q.
Proof. intros H. apply pwp_pbind. eapply pwp_mono; [|exact H]. by intros h' [a|e] s'. Qed.
Lemma pwp_lift {A} (p : prog Ans A) s h (Q : history -> A -> St -> Prop) :
  wp any_answer R p h (fun h' a => Q h' a s) -> pwp (lift p) s h Q.
Proof. intros H. apply wp_bind. eapply wp_mono; [|exact H]. done. Qed.
Lemma pwp_current {A} (f : St -> phase A) s h Q : pwp (f s) s h Q -> pwp (current f) s h Q.
Proof. done. Qed.
Lemma pwp_modify f s h (Q : history -> unit -> St -> Prop) : Q h tt (f s) -> pwp (modify f) s h Q.
Proof. done. Qed.
Lemma pwp_or_return {A} (p : phase (res A)) s h (Q : history -> flow A -> St -> Prop) :
  pwp p s h (fun h' x s' => match x with Ok a => Q h' (Continue a) s' | Err e => Q h' (Return (Err e)) s' end) -> pwp (or_return p) s h Q.
Proof. intros H. apply pwp_pbind. eapply pwp_mono; [|exact H]. by intros h' [a|e] s'. Qed.
Lemma pwp_or_else {A} handle (p : phase (res A)) s h (Q : history -> flow A -> St -> Prop) :
  pwp p s h (fun h' x s' => match x with Ok a => Q h' (Continue a) s' | Err e => pwp (handle e) s' h' Q end) -> pwp (or_else handle p) s h Q.
Proof. intros H. apply pwp_pbind. eapply pwp_mono; [|exact H]. by intros h' [a|e] s'. Qed.

(** A loop with an invariant over the history and the copy that its body, on every
    element, either keeps or leaves by returning. *)
Lemma pwp_pfold {A B} (f : B -> A -> phase (flow B)) (I : history -> B -> St -> Prop) (QR : history -> res Result -> St -> Prop) l b s h :
  (forall h b s x, In x l -> I h b s ->
     pwp (f b x) s h (fun h' x s' => match x with Return y => QR h' y s' | Continue b' => I h' b' s' end)) ->
  I h b s -> pwp (pfold f b l) s h (fun h' x s' => match x with Return y => QR h' y s' | Continue b' => I h' b' s' end).
Proof.
  intros HF. revert b s h. induction l as [|x l IH]; intros b s h HI; [done|]. cbn [pfold]. apply pwp_pflow.
  eapply pwp_mono; [|apply HF; [by left|done]]. intros h' [y|b'] s' HI'; [done|]. apply IH; [|done].
  intros. apply HF; [by right|done].
Qed.
(** A loop that establishes a lasting fact of every element. *)
Lemma pwp_peach {A} (f : A -> phase (flow unit)) (I : history -> St -> Prop) (J : history -> A -> Prop) (QR : history -> res Result -> St -> Prop) l s h :
  (forall h h' x, extends h h' -> J h x -> J h' x) ->
  (forall h s x, In x l -> I h s ->
     pwp (f x) s h (fun h' y s' => match y with Return y => QR h' y s' | Continue _ => I h' s' /\ J h' x end)) ->
  I h s -> pwp (peach f l) s h (fun h' y s' => match y with Return y => QR h' y s' | Continue _ => I h' s' /\ forall x, In x l -> J h' x end).
Proof.
  intros HJ HF HI. unfold peach.
  enough (forall todo h s, (forall x, In x todo -> In x l) -> I h s ->
    pwp (pfold (fun _ => f) tt todo) s h (fun h' y s' => match y with Return y => QR h' y s' | Continue _ => I h' s' /\ forall x, In x todo -> J h' x end)) as G
    by (apply G; auto).
  clear HI s h. induction todo as [|x todo IH]; intros h s Hl HI; [by apply pwp_pret|]. cbn [pfold]. apply pwp_pflow.
  eapply pwp_mono; [|apply HF; [apply Hl; by left|done]]. intros h1 [y|[]] s1; [done|]. intros [HI1 Hx].
  eapply pwp_mono; [|apply pwp_extends, IH; [intros; apply Hl; by right|done]]. intros h2 [y|[]] s2 [E H]; [done|].
  destruct H as [HI2 Hr]. split; [done|]. intros z [<-|Hz]; [by eapply HJ|auto].
Qed.
End pwp.

(** ** Phases that continue *)

(** [P] holds wherever the handler does not return. *)
Definition cont {A} (P : history -> A -> St -> Prop) (h : history) (y : flow A) (s : St) : Prop :=
  match y with Return _ => True | Continue a => P h a s end.
Context {R : history -> Op -> Prop}.
Lemma pwp_cont {A} (p : phase (flow A)) s h (P P' : history -> A -> St -> Prop) :
  (forall h' a s', extends h h' -> P h' a s' -> P' h' a s') -> pwp R p s h (cont P) -> pwp R p s h (cont P').
Proof. intros H HP. eapply pwp_mono; [|apply pwp_extends, HP]. intros h' [y|a] s' [E Ha]; [done|]. by apply H. Qed.
Lemma pwp_then {A B} (p : phase (flow A)) (f : A -> phase (flow B)) s h P (P' : history -> B -> St -> Prop) :
  pwp R p s h (cont P) -> (forall h' a s', extends h h' -> P h' a s' -> pwp R (f a) s' h' (cont P')) ->
  pwp R (pflow p f) s h (cont P').
Proof. intros HP HF. apply pwp_pflow. eapply pwp_mono; [|apply pwp_extends, HP]. intros h' [y|a] s' [E Ha]; [done|]. by apply HF. Qed.
Lemma pwp_each {A} (f : A -> phase (flow unit)) (J : history -> A -> Prop) l s h :
  (forall h h' x, extends h h' -> J h x -> J h' x) ->
  (forall h1 s1 x, extends h h1 -> In x l -> pwp R (f x) s1 h1 (cont (fun h' _ _ => J h' x))) ->
  pwp R (peach f l) s h (cont (fun h' _ _ => forall x, In x l -> J h' x)).
Proof.
  intros HJ HF. eapply pwp_mono; [|apply (pwp_peach R f (fun h' _ => extends h h') J (fun _ _ _ => True))]; [|done| |apply extends_refl].
  - intros h' [y|[]] s' Hx; [done|exact (proj2 Hx)].
  - intros h1 s1 x Hx E1. eapply pwp_mono; [|apply pwp_extends, HF; done]. intros h2 [y|[]] s2 [E2 H]; [done|].
    split; [by eapply extends_trans|done].
Qed.
Lemma pwp_all {A} (f : A -> phase (flow unit)) l s h :
  (forall h1 s1 x, extends h h1 -> In x l -> pwp R (f x) s1 h1 (cont (fun _ _ _ => True))) ->
  pwp R (peach f l) s h (cont (fun _ _ _ => True)).
Proof. intros HF. eapply pwp_cont; [|apply (pwp_each f (fun _ _ => True))]; auto. Qed.
(** A loop with an invariant of the copy. *)
Lemma pwp_keeps {A} (f : A -> phase (flow unit)) (I : history -> St -> Prop) l s h :
  (forall h1 s1 x, extends h h1 -> In x l -> I h1 s1 -> pwp R (f x) s1 h1 (cont (fun h' _ s' => I h' s'))) -> I h s ->
  pwp R (peach f l) s h (cont (fun h' _ s' => I h' s')).
Proof.
  intros HF HI. eapply pwp_mono; [|apply (pwp_peach R f (fun h' s' => extends h h' /\ I h' s') (fun _ _ => True) (fun _ _ _ => True)); [done| |split; [apply extends_refl|done]]].
  - intros h' [y|[]] s' Hx; [done|exact (proj2 (proj1 Hx))].
  - intros h1 s1 x Hx [E1 H1]. eapply pwp_mono; [|apply pwp_extends, HF; done]. intros h2 [y|[]] s2 [E2 H]; [done|].
    split; [|done]. split; [by eapply extends_trans|done].
Qed.
(** A loop whose body leaves the copy alone. *)
Lemma pwp_kept {A} (f : A -> phase (flow unit)) l s h :
  (forall h1 x, In x l -> pwp R (f x) s h1 (cont (fun _ _ s' => s' = s))) -> pwp R (peach f l) s h (cont (fun _ _ s' => s' = s)).
Proof. intros HF. apply (pwp_keeps f (fun _ s' => s' = s)); [|done]. intros h1 s1 x _ Hx ->. by apply HF. Qed.
End phases.

Arguments phase {Op} Ans St A.

Declare Scope phase_scope.
Delimit Scope phase_scope with phase.
Open Scope phase_scope.
Notation "x <- p ';;p' k" := (pbind p (fun x => k)) (at level 60, p at next level, right associativity) : phase_scope.
Notation "x <-! p ';;p' k" := (pbind_ok p (fun x => k)) (at level 60, p at next level, right associativity) : phase_scope.
Notation "x <~ p ';;p' k" := (pflow p (fun x => k)) (at level 60, p at next level, right associativity) : phase_scope.

Ltac pstep :=
  lazymatch goal with
  | |- pwp _ (pbind _ _) _ _ _ => apply pwp_pbind
  | |- pwp _ (pbind_ok _ _) _ _ _ => apply pwp_pbind_ok
  | |- pwp _ (pflow _ _) _ _ _ => apply pwp_pflow
  | |- pwp _ (lift _) _ _ _ => apply pwp_lift
  | |- pwp _ (current _) _ _ _ => apply pwp_current; cbv beta
  | |- pwp _ (modify _) _ _ _ => apply pwp_modify
  | |- pwp _ (or_return _) _ _ _ => apply pwp_or_return
  | |- pwp _ (or_else _ _) _ _ _ => apply pwp_or_else
  | |- pwp _ (pret _) _ _ _ => apply pwp_pret
  | |- pwp _ (if ?c then _ else _) _ _ _ => let Ec := fresh "Ec" in destruct c eqn:Ec
  end.
