(* ===== verification/GlobalApi.v ===== *)
(** * [api/v1alpha1]: the single-authority and the site-local resources

    [GlobalVpc] is one tenant network over every cluster of a domain, [SiteVpc] one
    locally owned attachment. Field names carry a type prefix; a nil slice is the
    empty list. *)
From S2P Require Import Prelude GoStd Json Api.
Open Scope Z_scope.

Definition Finalizer : string := "networking.globalvpc.io/network-cleanup".
Definition OwnerLabel : string := "networking.globalvpc.io/vpc-uid".
Definition ClusterLabel : string := "networking.globalvpc.io/cluster-uid".
Definition SiteFinalizer : string := "networking.globalvpc.io/site-network-cleanup".
Definition GlobalIDLabel : string := "networking.globalvpc.io/global-id-hash".
Definition AttachmentLabel : string := "networking.globalvpc.io/attachment-id".

(** ** GlobalVpc *)

Record IPAMReference := mkIPAM { ip_ProviderRef : string; ip_ScopeRef : string }.
Record Attachment := mkAttachment {
  at_ClusterRef : string; at_CIDR : string; at_Gateway : string; at_TransitIP : string }.
Record GlobalVpcSpec := mkGlobalSpec {
  gs_DomainRef : string; gs_IPAM : IPAMReference; gs_TransitCIDR : string; gs_Attachments : list Attachment }.
Record PrefixClaim := mkPrefixClaim {
  pc_ClaimUID : string; pc_VpcUID : string; pc_ScopeRef : string; pc_CIDR : string }.
Record Allocation := mkAllocation {
  al_Claim : PrefixClaim; al_AllocationID : string; al_ReleasePolicy : string }.
Record ResourceRecord := mkResource {
  rc_ClusterRef : string; rc_Kind : string; rc_Name : string; rc_UID : string }.
Record AttachmentStatus := mkAttachmentStatus {
  as_ClusterRef : string; as_VpcName : string; as_SubnetName : string; as_TransitSwitchName : string }.
Record GlobalVpcStatus := mkGlobalStatus {
  gt_ObservedGeneration : Z; gt_Phase : string; gt_Operation : string; gt_PlanHash : string;
  gt_Allocations : list Allocation; gt_Resources : list ResourceRecord; gt_TransitSwitchUID : string;
  gt_Attachments : list AttachmentStatus; gt_Conditions : list Condition }.
Record GlobalVpc := mkGlobalVpc { gv_Meta : ObjectMeta; gv_Spec : GlobalVpcSpec; gv_Status : GlobalVpcStatus }.

(** ** SiteVpc *)

Record SiteVpcSpec := mkSiteSpec {
  sp_GlobalVpcID : string; sp_SiteID : string; sp_AttachmentID : string; sp_CIDR : string; sp_Gateway : string }.
Record BFDResourceRecord := mkBFDRecord { bf_GatewayID : string; bf_UUID : string }.
Record GatewayResourceRecord := mkGatewayRecord {
  gr_APIVersion : string; gr_Kind : string; gr_Namespace : string; gr_Name : string; gr_UID : string }.
Record SiteVpcStatus := mkSiteStatus {
  vt_ObservedGeneration : Z; vt_Phase : string; vt_Operation : string; vt_PlanHash : string;
  vt_Resources : list ResourceRecord; vt_GatewayResources : list GatewayResourceRecord;
  vt_BFDResources : list BFDResourceRecord; vt_GatewayReadyCount : Z; vt_GatewayDesiredCount : Z;
  vt_Conditions : list Condition }.
Record SiteVpc := mkSiteVpc { sv_Meta : ObjectMeta; sv_Spec : SiteVpcSpec; sv_Status : SiteVpcStatus }.

#[export] Instance IPAMReference_eq_dec : EqDecision IPAMReference. Proof. solve_decision. Defined.
#[export] Instance Attachment_eq_dec : EqDecision Attachment. Proof. solve_decision. Defined.
#[export] Instance GlobalPrefixClaim_eq_dec : EqDecision PrefixClaim. Proof. solve_decision. Defined.
#[export] Instance Allocation_eq_dec : EqDecision Allocation. Proof. solve_decision. Defined.
#[export] Instance GlobalResource_eq_dec : EqDecision ResourceRecord. Proof. solve_decision. Defined.
#[export] Instance AttachmentStatus_eq_dec : EqDecision AttachmentStatus. Proof. solve_decision. Defined.
#[export] Instance GlobalVpcStatus_eq_dec : EqDecision GlobalVpcStatus. Proof. solve_decision. Defined.
#[export] Instance SiteVpcSpec_eq_dec : EqDecision SiteVpcSpec. Proof. solve_decision. Defined.
#[export] Instance BFDResourceRecord_eq_dec : EqDecision BFDResourceRecord. Proof. solve_decision. Defined.
#[export] Instance GatewayResourceRecord_eq_dec : EqDecision GatewayResourceRecord. Proof. solve_decision. Defined.
#[export] Instance SiteVpcStatus_eq_dec : EqDecision SiteVpcStatus. Proof. solve_decision. Defined.

(** ** Field updates *)

Definition gv_with_Meta (f : ObjectMeta -> ObjectMeta) (v : GlobalVpc) : GlobalVpc :=
  mkGlobalVpc (f (gv_Meta v)) (gv_Spec v) (gv_Status v).
Definition gv_with_Status (t : GlobalVpcStatus) (v : GlobalVpc) : GlobalVpc := mkGlobalVpc (gv_Meta v) (gv_Spec v) t.
Definition gt_with_Operation (op : string) (t : GlobalVpcStatus) : GlobalVpcStatus :=
  mkGlobalStatus (gt_ObservedGeneration t) (gt_Phase t) op (gt_PlanHash t) (gt_Allocations t) (gt_Resources t)
    (gt_TransitSwitchUID t) (gt_Attachments t) (gt_Conditions t).
Definition gt_with_Allocations (l : list Allocation) (t : GlobalVpcStatus) : GlobalVpcStatus :=
  mkGlobalStatus (gt_ObservedGeneration t) (gt_Phase t) (gt_Operation t) (gt_PlanHash t) l (gt_Resources t)
    (gt_TransitSwitchUID t) (gt_Attachments t) (gt_Conditions t).
Definition gt_with_Resources (l : list ResourceRecord) (t : GlobalVpcStatus) : GlobalVpcStatus :=
  mkGlobalStatus (gt_ObservedGeneration t) (gt_Phase t) (gt_Operation t) (gt_PlanHash t) (gt_Allocations t) l
    (gt_TransitSwitchUID t) (gt_Attachments t) (gt_Conditions t).
Definition gt_with_Transit (uid : string) (t : GlobalVpcStatus) : GlobalVpcStatus :=
  mkGlobalStatus (gt_ObservedGeneration t) (gt_Phase t) (gt_Operation t) (gt_PlanHash t) (gt_Allocations t)
    (gt_Resources t) uid (gt_Attachments t) (gt_Conditions t).
Definition gt_with_Plan (hash : string) (l : list AttachmentStatus) (t : GlobalVpcStatus) : GlobalVpcStatus :=
  mkGlobalStatus (gt_ObservedGeneration t) (gt_Phase t) (gt_Operation t) hash (gt_Allocations t)
    (gt_Resources t) (gt_TransitSwitchUID t) l (gt_Conditions t).

Definition sv_with_Meta (f : ObjectMeta -> ObjectMeta) (v : SiteVpc) : SiteVpc :=
  mkSiteVpc (f (sv_Meta v)) (sv_Spec v) (sv_Status v).
Definition sv_with_Status (t : SiteVpcStatus) (v : SiteVpc) : SiteVpc := mkSiteVpc (sv_Meta v) (sv_Spec v) t.

(** ** Encodings that enter a plan hash *)

Definition ipam_json (i : IPAMReference) : json :=
  fields [req "providerRef" (JStr (ip_ProviderRef i)); req "scopeRef" (JStr (ip_ScopeRef i))].
Definition attachment_json (a : Attachment) : json :=
  fields [req "clusterRef" (JStr (at_ClusterRef a)); req "cidr" (JStr (at_CIDR a));
          req "gateway" (JStr (at_Gateway a)); req "transitIP" (JStr (at_TransitIP a))].
Definition site_spec_json (s : SiteVpcSpec) : json :=
  fields [req "globalVpcID" (JStr (sp_GlobalVpcID s)); req "siteID" (JStr (sp_SiteID s));
          req "attachmentID" (JStr (sp_AttachmentID s)); req "cidr" (JStr (sp_CIDR s)); req "gateway" (JStr (sp_Gateway s))].
