(* ===== verification/GlobalConfig.v ===== *)
(** * [internal/config]: the registration of an OVN-IC domain

    The clusters of a domain, their dedicated native IC Deployments and the IPAM
    providers, and their validation. [Load] only decodes the file and validates. *)
From S2P Require Import Prelude GoStd Json Validation Api.
Open Scope Z_scope.

Record DeploymentReference := mkDeploymentRef { dr_Namespace : string; dr_Name : string; dr_UID : string }.
Record Cluster := mkCluster {
  cl_Name : string; cl_UID : string; cl_Region : string; cl_Site : string; cl_DC : string; cl_Kubeconfig : string;
  cl_NBCommand : list string; cl_SBCommand : list string; cl_GatewayChassis : list string; cl_AZName : string;
  cl_ICDeployment : DeploymentReference }.
Record Config := mkConfig {
  Domain : string; Clusters : list Cluster; ICNBCommand : list string; Providers : gmap string (list string) }.

#[export] Instance DeploymentReference_eq_dec : EqDecision DeploymentReference. Proof. solve_decision. Defined.
#[export] Instance GlobalCluster_eq_dec : EqDecision Cluster. Proof. solve_decision. Defined.

Definition empty {A} (l : list A) : bool := match l with [] => true | _ => false end.

Definition complete (x : Cluster) : bool :=
  negb ((cl_Name x =? "")%string || (cl_UID x =? "")%string || (cl_Region x =? "")%string || (cl_Site x =? "")%string ||
        (cl_DC x =? "")%string || (cl_Kubeconfig x =? "")%string || (cl_AZName x =? "")%string ||
        empty (cl_NBCommand x) || empty (cl_SBCommand x) || empty (cl_GatewayChassis x)).
Definition has_deployment (x : Cluster) : bool :=
  negb ((dr_Namespace (cl_ICDeployment x) =? "")%string || (dr_Name (cl_ICDeployment x) =? "")%string ||
        (dr_UID (cl_ICDeployment x) =? "")%string).

(** The loop over [c.Clusters] with the names, UIDs and zones seen. *)
Fixpoint validateClusters (names uids azs : gset string) (l : list Cluster) : res unit :=
  match l with
  | [] => Ok tt
  | x :: rest =>
      reject negb (complete x) with Errorf "incomplete cluster registration" ;;
      reject bool_decide (cl_Name x ∈ names) || bool_decide (cl_UID x ∈ uids) || bool_decide (cl_AZName x ∈ azs)
        with Errorf "duplicate cluster name, UID or availability zone" ;;
      reject negb (has_deployment x) with Errorf "dedicated native IC Deployment identity is required" ;;
      validateClusters ({[cl_Name x]} ∪ names) ({[cl_UID x]} ∪ uids) ({[cl_AZName x]} ∪ azs) rest
  end.

Section validate.
Context {VAL : Validation}.
Definition Validate (c : Config) : res unit :=
  reject bad (IsDNS1123Label (Domain c)) with Errorf "domain must be a DNS label of at most 63 characters" ;;
  reject (Domain c =? "")%string || (List.length (Clusters c) <? 2)%nat || (32 <? List.length (Clusters c))%nat ||
         empty (ICNBCommand c) || bool_decide (Providers c = ∅)
    with Errorf "domain, 2-32 clusters, IC command and providers are required" ;;
  _ <-? validateClusters ∅ ∅ ∅ (Clusters c) ;;
  reject existsb (fun kv => (fst kv =? "")%string || empty (snd kv)) (map_to_list (Providers c))
    with Errorf "invalid provider command" ;;
  Ok tt.

(** What a valid registration guarantees. *)
Record registered (l : list Cluster) : Prop := {
  rg_complete : Forall (fun x => complete x = true /\ has_deployment x = true) l;
  rg_names : NoDup (map cl_Name l);
  rg_uids : NoDup (map cl_UID l);
  rg_azs : NoDup (map cl_AZName l) }.

Lemma validateClusters_ok names uids azs l : validateClusters names uids azs l = Ok tt ->
  registered l /\ (forall x, In x l -> cl_Name x ∉ names /\ cl_UID x ∉ uids /\ cl_AZName x ∉ azs).
Proof.
  revert names uids azs. induction l as [|x l IH]; intros names uids azs; simpl.
  { intros _. split; [by split; constructor|done]. }
  intros H. follow H. apply IH in H as [[Hc Hn Hu Ha] Hout].
  assert (forall f : Cluster -> string, NoDup (map f l) -> (forall y, In y l -> f y <> f x) -> NoDup (map f (x :: l))) as HN.
  { intros f HD HF. simpl. apply NoDup_cons. split; [|done]. intros (y & E & Hy%list_elem_of_In)%list_elem_of_fmap. by apply (HF y). }
  split; [split|].
  - by constructor.
  - apply HN; [done|]. intros y Hy E. apply (Hout y) in Hy as (Hy & _). set_solver.
  - apply HN; [done|]. intros y Hy E. apply (Hout y) in Hy as (_ & Hy & _). set_solver.
  - apply HN; [done|]. intros y Hy E. apply (Hout y) in Hy as (_ & _ & Hy). set_solver.
  - intros y [<-|Hy]; [done|]. apply Hout in Hy. set_solver.
Qed.

Lemma validateClusters_iff l : validateClusters ∅ ∅ ∅ l = Ok tt <-> registered l.
Proof.
  split; [by intros [? _]%validateClusters_ok|]. intros HR.
  enough (forall names uids azs, (forall x, In x l -> cl_Name x ∉ names /\ cl_UID x ∉ uids /\ cl_AZName x ∉ azs) ->
    validateClusters names uids azs l = Ok tt) as G by (apply G; set_solver).
  induction l as [|x l IH]; intros names uids azs HF; [done|]. destruct HR as [Hc Hn Hu Ha]. simpl in *.
  inversion Hc as [|? ? [Hx Hd] Hc']; subst. apply NoDup_cons in Hn as [Nn Hn], Hu as [Nu Hu], Ha as [Na Ha].
  destruct (HF x) as (Fn & Fu & Fa); [by left|]. rewrite Hx, Hd. simpl. rewrite !bool_decide_eq_false_2 by done. simpl.
  apply IH; [by split|]. intros y Hy. destruct (HF y) as (? & ? & ?); [by right|].
  assert (forall f : Cluster -> string, f x ∉ map f l -> f y <> f x) as Hne.
  { intros f Hf E. apply Hf. rewrite <- E. apply list_elem_of_In. by apply in_map. }
  apply Hne in Nn, Nu, Na. set_solver.
Qed.

Lemma domain_registered c : Validate c = Ok tt -> registered (Clusters c) /\ (2 <= List.length (Clusters c) <= 32)%nat.
Proof.
  unfold Validate. intros H. follow H.
  match goal with HV : validateClusters _ _ _ _ = Ok _ |- _ => apply validateClusters_ok in HV as [HR _] end.
  split; [done|lia].
Qed.
End validate.
