(* ===== verification/GlobalPlan.v ===== *)
(** * [internal/plan]: the resources of a GlobalVpc

    [Build] validates the immutable intent of one tenant against the registration of
    the domain and renders the resources it owns in every cluster. The members of a
    Go map are listed in the order [json.Marshal] writes them. *)
From S2P Require Import Prelude GoStd Json NetIP NetIPFacts Validation SiteConfig Api Prog Kube GlobalApi GlobalConfig.
Open Scope Z_scope.

Record Site := mkSite {
  si_Cluster : Cluster; si_Intent : Attachment; si_VpcName : string; si_SubnetName : string; si_TransitName : string;
  si_Vpc : Native; si_Subnet : Native; si_Transit : Native }.
Record Plan := mkPlan {
  pl_UID : string; pl_Hash : string; pl_TransitSwitch : string; pl_Claims : list PrefixClaim; pl_Attachments : list Site }.

Definition shortHash (value : string) : string := take 16 (sha256_hex value).
Definition claim (uid attachment scope cidr : string) : PrefixClaim :=
  mkPrefixClaim (uid ++ "/" ++ attachment) uid scope cidr.
(** The three functions have the text of those of [internal/siteconfig]. *)
Definition prefix : string -> res NetIP.Prefix := SiteConfig.Prefix.
Definition host : string -> NetIP.Prefix -> res Addr := SiteConfig.Host.
Definition lastAddress : NetIP.Prefix -> Addr := SiteConfig.LastAddress.

Definition resource (kind name : string) (labels : gmap string string) (spec : list (string * json)) : Native :=
  mkNative "kubeovn.io/v1" kind (newMeta name "" labels ∅) (JObj [("spec", JObj spec)]).
Definition subnetResource (name vpc cidr gateway : string) (excluded : list string) (labels : gmap string string) : Native :=
  resource "Subnet" name labels
    [("cidrBlock", JStr cidr); ("disableGatewayCheck", JBool true); ("disableInterConnection", JBool true);
     ("enableDHCP", JBool false); ("enableLb", JBool false); ("excludeIps", JArr (map JStr excluded));
     ("gateway", JStr gateway); ("natOutgoing", JBool false); ("protocol", JStr "IPv4"); ("provider", JStr "ovn");
     ("vpc", JStr vpc)].

(** ** Encodings *)

Definition strings_json (l : list string) : json := JArr (map JStr l).
Definition labels_json (m : gmap string string) : json :=
  JObj (map (fun kv => (fst kv, JStr (snd kv))) (sort_by_key fst (map_to_list m))).
Definition native_json (o : Native) : json :=
  JObj ([("apiVersion", JStr (un_APIVersion o)); ("kind", JStr (un_Kind o));
         ("metadata", JObj [("labels", labels_json (om_Labels (un_Meta o))); ("name", JStr (om_Name (un_Meta o)))])] ++
        match un_Object o with JObj l => l | _ => [] end).
Definition deployment_json (d : DeploymentReference) : json :=
  fields [req "namespace" (JStr (dr_Namespace d)); req "name" (JStr (dr_Name d)); req "uid" (JStr (dr_UID d))].
Definition cluster_json (c : Cluster) : json :=
  fields [req "name" (JStr (cl_Name c)); req "uid" (JStr (cl_UID c)); req "region" (JStr (cl_Region c));
          req "site" (JStr (cl_Site c)); req "dc" (JStr (cl_DC c)); req "kubeconfig" (JStr (cl_Kubeconfig c));
          req "nbCommand" (strings_json (cl_NBCommand c)); req "sbCommand" (strings_json (cl_SBCommand c));
          req "gatewayChassis" (strings_json (cl_GatewayChassis c)); req "azName" (JStr (cl_AZName c));
          req "icDeployment" (deployment_json (cl_ICDeployment c))].
Definition site_json (s : Site) : json :=
  fields [req "Cluster" (cluster_json (si_Cluster s)); req "Intent" (attachment_json (si_Intent s));
          req "VpcName" (JStr (si_VpcName s)); req "SubnetName" (JStr (si_SubnetName s));
          req "TransitName" (JStr (si_TransitName s)); req "Vpc" (native_json (si_Vpc s));
          req "Subnet" (native_json (si_Subnet s)); req "Transit" (native_json (si_Transit s))].

(** ** [Build] *)

Section build.
Context {VAL : Validation}.

(** An empty or repeated chassis of a sorted list. *)
Fixpoint chassis_bad (previous : option string) (l : list string) : bool :=
  match l with
  | [] => false
  | c :: rest => (TrimSpace c =? "")%string || bool_decide (Some c = previous) || chassis_bad (Some c) rest
  end.
Definition with_chassis (l : list string) (c : Cluster) : Cluster :=
  mkCluster (cl_Name c) (cl_UID c) (cl_Region c) (cl_Site c) (cl_DC c) (cl_Kubeconfig c) (cl_NBCommand c)
    (cl_SBCommand c) l (cl_AZName c) (cl_ICDeployment c).
(** The loop over [cfg.Clusters]. *)
Fixpoint register (l : list Cluster) : res (list Cluster) :=
  match l with
  | [] => Ok []
  | c :: rest =>
      reject bad (IsDNS1123Subdomain (cl_Name c)) || bad (IsValidLabelValue (cl_UID c))
        with Errorf "cluster registration has an invalid name or UID label" ;;
      let chassis := sort_strings (cl_GatewayChassis c) in
      reject chassis_bad None chassis
        with Errorf ("cluster " ++ dq (cl_Name c) ++ " has an empty or duplicate gateway chassis") ;;
      registered <-? register rest ;;
      Ok (with_chassis chassis c :: registered)
  end.
(** The map [clusters] by name. *)
Definition by_name (l : list Cluster) : gmap string Cluster :=
  fold_left (fun m c => <[cl_Name c := c]> m) l ∅.

(** The loop that checks the sorted intents. *)
Fixpoint check_intents (clusters : gmap string Cluster) (transit : NetIP.Prefix) (seenClusters : gset string)
    (seenTransitIPs : list Addr) (prefixes : list NetIP.Prefix) (l : list Attachment) : res unit :=
  match l with
  | [] => Ok tt
  | intent :: rest =>
      let name := at_ClusterRef intent in
      reject bool_decide (clusters !! name = None) with Errorf ("attachment clusterRef " ++ dq name ++ " is not registered") ;;
      reject bool_decide (name ∈ seenClusters) with Errorf ("duplicate attachment clusterRef " ++ dq name) ;;
      match prefix (at_CIDR intent) with
      | Err e => Err (Wrapf ("attachment " ++ dq name ++ " cidr") e)
      | Ok subnet =>
          reject existsb (fun other => Overlaps subnet other) prefixes
            with Errorf ("attachment " ++ dq name ++ " overlaps another prefix in this GlobalVpc") ;;
          match host (at_Gateway intent) subnet with
          | Err e => Err (Wrapf ("attachment " ++ dq name ++ " gateway") e)
          | Ok _ =>
              match host (at_TransitIP intent) transit with
              | Err e => Err (Wrapf ("attachment " ++ dq name ++ " transitIP") e)
              | Ok address =>
                  reject bool_decide (address ∈ seenTransitIPs) with Errorf "duplicate transitIP" ;;
                  check_intents clusters transit ({[name]} ∪ seenClusters) (address :: seenTransitIPs)
                    (prefixes ++ [subnet]) rest
              end
          end
      end
  end.

Definition route_json (remote : Attachment) : json :=
  JObj [("cidr", JStr (at_CIDR remote)); ("nextHopIP", JStr (at_TransitIP remote)); ("policy", JStr "policyDst")].
Definition remotes (intents : list Attachment) (intent : Attachment) : list Attachment :=
  List.filter (fun remote => negb (at_ClusterRef remote =? at_ClusterRef intent)%string) intents.
Definition zeroCluster : Cluster := mkCluster "" "" "" "" "" "" [] [] [] "" (mkDeploymentRef "" "" "").
(** The range of every usable transit address. *)
Definition transit_range (transit : NetIP.Prefix) : string :=
  (AddrString (Next (paddr transit)) ++ ".." ++ AddrString (Prev (lastAddress transit)))%string.

(** The rendering of one intent. *)
Definition render_site (uid : string) (clusters : gmap string Cluster) (transit : NetIP.Prefix)
    (intents : list Attachment) (intent : Attachment) : Site :=
  let tenantKey := shortHash uid in
  let cluster := default zeroCluster (clusters !! at_ClusterRef intent) in
  let key := (tenantKey ++ "-" ++ shortHash (cl_UID cluster))%string in
  let vpc := ("gv-" ++ key)%string in
  let labels := <[OwnerLabel := uid]> (<[ClusterLabel := cl_UID cluster]> ∅) in
  mkSite cluster intent vpc ("gs-" ++ key) ("gt-" ++ tenantKey)
    (resource "Vpc" vpc labels [("staticRoutes", JArr (map route_json (remotes intents intent)))])
    (subnetResource ("gs-" ++ key) vpc (at_CIDR intent) (at_Gateway intent) [at_Gateway intent] labels)
    (subnetResource ("gt-" ++ tenantKey) vpc (PrefixString transit) (at_TransitIP intent) [transit_range transit] labels).

(** The data whose JSON is hashed. *)
Definition plan_identity (uid : string) (cfg : Config) (ipam : IPAMReference) (transit : string)
    (intents : list Attachment) (registered : list Cluster) (provider : list string) (sites : list Site) : json :=
  fields [req "Version" (JStr "v1"); req "UID" (JStr uid); req "Domain" (JStr (Domain cfg)); req "IPAM" (ipam_json ipam);
          req "TransitCIDR" (JStr transit); req "Attachments" (JArr (map attachment_json intents));
          req "Clusters" (JArr (map cluster_json registered)); req "ICNBCommand" (strings_json (ICNBCommand cfg));
          req "ProviderCommand" (strings_json provider); req "Resources" (JArr (map site_json sites))].

Definition build (vpc : GlobalVpc) (cfg : Config) : res Plan :=
  match Validate cfg with
  | Err e => Err (Wrapf "invalid domain registration" e)
  | Ok _ =>
      let uid := om_UID (gv_Meta vpc) in
      let spec := gv_Spec vpc in
      let scope := ip_ScopeRef (gs_IPAM spec) in
      reject (uid =? "")%string || bad (IsValidLabelValue uid)
        with Errorf "GlobalVpc must have a valid server-assigned UID" ;;
      reject negb (gs_DomainRef spec =? Domain cfg)%string
        with Errorf "domainRef does not match this controller's registered domain" ;;
      match Providers cfg !! ip_ProviderRef (gs_IPAM spec) with
      | None => Err (Errorf "ipam.providerRef is not registered")
      | Some provider =>
          reject (TrimSpace scope =? "")%string || negb (TrimSpace scope =? scope)%string || (253 <? String.length scope)%nat
            with Errorf "ipam.scopeRef must be a nonempty reference of at most 253 characters without surrounding whitespace" ;;
          reject negb (List.length (gs_Attachments spec) =? List.length (Clusters cfg))%nat
            with Errorf "attachments must include every cluster registered in the domain; sparse membership is unsupported" ;;
          match prefix (gs_TransitCIDR spec) with
          | Err e => Err (Wrapf "transitCIDR" e)
          | Ok transit =>
              registered <-? register (Clusters cfg) ;;
              let clusters := by_name registered in
              let registered := sort_by_key cl_Name registered in
              let intents := sort_by_key at_ClusterRef (gs_Attachments spec) in
              _ <-? check_intents clusters transit ∅ [] [transit] intents ;;
              let sites := map (render_site uid clusters transit intents) intents in
              let claims := claim uid "transit" scope (PrefixString transit) ::
                            map (fun s => claim uid ("cluster/" ++ cl_UID (si_Cluster s)) scope (at_CIDR (si_Intent s))) sites in
              let hash := sha256_hex (Marshal (plan_identity uid cfg (gs_IPAM spec) (PrefixString transit)
                                                 intents registered provider sites)) in
              Ok (mkPlan uid hash ("gt-" ++ shortHash uid) claims sites)
          end
      end
  end.

Definition Build (vpc : option GlobalVpc) (cfg : Config) : res Plan :=
  match vpc with
  | None => Err (Errorf "GlobalVpc is required")
  | Some v => build v cfg
  end.
End build.
