(* ===== verification/GlobalPlanFacts.v ===== *)
(** * What an accepted GlobalVpc plan guarantees

    The prefixes of a plan share no address, every cluster of the domain takes part,
    and the static routes of each cluster lead every remote address to the one
    cluster that owns it. *)
From S2P Require Import Prelude GoStd Json NetIP NetIPFacts Validation SiteConfig Api Prog Kube GlobalApi GlobalConfig GlobalPlan.
Open Scope Z_scope.

Section facts.
Context {VAL : Validation}.

(** ** Registration *)

Lemma register_ok l r : register l = Ok r ->
  r = map (fun c => with_chassis (sort_strings (cl_GatewayChassis c)) c) l /\
  Forall (fun c => bad (IsDNS1123Subdomain (cl_Name c)) || bad (IsValidLabelValue (cl_UID c)) = false /\
                   chassis_bad None (sort_strings (cl_GatewayChassis c)) = false) l.
Proof.
  revert r. induction l as [|c l IH]; intros r; cbn [register]; [by intros [= <-]|]. cbv zeta. intros H. do 3 follow_step H.
  injection H as <-. destruct (IH _ eq_refl) as [-> HF]. split; [done|]. constructor; [by split|done].
Qed.
Lemma register_names l r : register l = Ok r -> map cl_Name r = map cl_Name l.
Proof. intros [-> _]%register_ok. by rewrite map_map. Qed.

Lemma by_name_app l c : by_name (l ++ [c]) = <[cl_Name c := c]> (by_name l).
Proof. unfold by_name. by rewrite fold_left_app. Qed.
Lemma by_name_in l n c : NoDup (map cl_Name l) -> by_name l !! n = Some c <-> In c l /\ cl_Name c = n.
Proof.
  induction l as [|d l IH] using rev_ind; intros HN.
  { split; [|naive_solver]. unfold by_name. simpl. by rewrite lookup_empty. }
  rewrite map_app in HN. apply NoDup_app in HN as (HN & Hd & _).
  rewrite by_name_app, in_app_iff. simpl. rewrite lookup_insert_Some, IH by done. split.
  - intros [[<- <-]|[? [? <-]]]; auto.
  - intros [[Hc|[<-|[]]] <-]; [|by left]. right. split; [|done]. intros E. apply (Hd (cl_Name c)).
    + apply list_elem_of_In. by apply in_map.
    + rewrite <- E. by left.
Qed.
Lemma by_name_none l n : by_name l !! n <> None -> In n (map cl_Name l).
Proof.
  induction l as [|d l IH] using rev_ind; [done|]. rewrite by_name_app, map_app, in_app_iff.
  rewrite lookup_insert. case_decide; [right; by left|]. auto.
Qed.

(** ** Intents *)

Lemma apart_disjoint r p q : prefix r = Ok p -> (exists s, prefix s = Ok q) -> Overlaps p q = false -> disjoint p q.
Proof.
  intros Hp [s Hq] HO x Hx HC. assert (Overlaps p q = true) by (eapply (Prefix_overlap r s); eauto). congruence.
Qed.
Lemma ordpairs_snoc {A} (R : A -> A -> Prop) l x : ForallOrdPairs R l -> Forall (fun y => R y x) l -> ForallOrdPairs R (l ++ [x]).
Proof.
  induction 1 as [|y l Hy Hl IH]; intros HF; simpl; [repeat constructor|]. inversion HF; subst.
  constructor; [|auto]. apply Forall_app. repeat constructor; done.
Qed.
Lemma disjoint_sym p q : disjoint p q -> disjoint q p.
Proof. intros H x Hx [H1 H2]. by apply (H x). Qed.

(** What is checked of one intent. *)
Definition intent_ok (clusters : gmap string Cluster) (transit : NetIP.Prefix) (a : Attachment) (net : NetIP.Prefix) : Prop :=
  clusters !! at_ClusterRef a <> None /\ prefix (at_CIDR a) = Ok net /\
  (exists g, host (at_Gateway a) net = Ok g) /\ (exists t, host (at_TransitIP a) transit = Ok t).

Lemma check_intents_ok clusters transit seen ips prefixes l :
  Forall (fun p => exists r, prefix r = Ok p) prefixes -> ForallOrdPairs disjoint prefixes ->
  check_intents clusters transit seen ips prefixes l = Ok tt ->
  exists nets ts, Forall2 (intent_ok clusters transit) l nets /\ ForallOrdPairs disjoint (prefixes ++ nets) /\
    NoDup (map at_ClusterRef l) /\ (forall a, In a l -> at_ClusterRef a ∉ seen) /\
    Forall2 (fun a t => host (at_TransitIP a) transit = Ok t) l ts /\ NoDup ts /\ (forall t, In t ts -> ~ t ∈ ips).
Proof.
  revert seen ips prefixes. induction l as [|a l IH]; intros seen ips prefixes HP HD; cbn [check_intents].
  { intros _. exists [], []. rewrite List.app_nil_r. repeat split; try constructor; try done. }
  intros H. follow H. rename a0 into net, a1 into g, a2 into t.
  assert (Forall (fun p => disjoint p net) prefixes) as HA.
  { rewrite List.Forall_forall in *. intros p Hp. apply disjoint_sym. eapply apart_disjoint; eauto.
    match goal with HE : existsb _ _ = false |- _ => exact (existsb_forall _ _ HE p Hp) end. }
  apply IH in H as (nets & ts & HF & HO & HN & Hs & HT & HNT & Hips); [|apply Forall_app; split; eauto|by apply ordpairs_snoc].
  rewrite <- List.app_assoc in HO. exists (net :: nets), (t :: ts). split; [|split; [done|split; [|split; [|split; [|split]]]]].
  - constructor; [|done]. repeat split; eauto.
  - simpl. apply NoDup_cons. split; [|done]. intros (b & E & Hb%list_elem_of_In)%list_elem_of_fmap. apply (Hs b); [done|]. set_solver.
  - intros b [<-|Hb]; [done|]. specialize (Hs b Hb). set_solver.
  - by constructor.
  - apply NoDup_cons. split; [|done]. intros Ht%list_elem_of_In. apply (Hips t); [done|by left].
  - intros u [<-|Hu]; [done|]. intros Hx. apply (Hips u Hu). by right.
Qed.

Lemma check_intents_distinct clusters transit seen ips prefixes l :
  check_intents clusters transit seen ips prefixes l = Ok tt -> NoDup (map at_ClusterRef l).
Proof.
  enough (check_intents clusters transit seen ips prefixes l = Ok tt ->
    NoDup (map at_ClusterRef l) /\ forall a, In a l -> at_ClusterRef a ∉ seen) as G by (intros H; by apply G).
  revert seen ips prefixes. induction l as [|a l IH]; intros seen ips prefixes; cbn [check_intents]; [split; [constructor|done]|].
  intros H. follow H. apply IH in H as [HN Hs]. split.
  - simpl. apply NoDup_cons. split; [|done]. intros (b & E & Hb%list_elem_of_In)%list_elem_of_fmap. apply (Hs b); [done|]. set_solver.
  - intros b [<-|Hb]; [done|]. specialize (Hs b Hb). set_solver.
Qed.

(** A host determines its text and lies inside its network. *)
Lemma host_in r net raw a : prefix r = Ok net -> host raw net = Ok a ->
  exists x, a = Addr4 x /\ raw = AddrString a /\ u32 x /\ Contains net (Addr4 x) = true.
Proof.
  unfold prefix, host. intros (v & b & Hp & Hb & Hal & _)%Prefix_ok HH.
  destruct (Host_ok _ _ _ _ _ Hp ltac:(lia) Hal HH) as (x & -> & -> & Hx & _).
  destruct Hp as (-> & Hv & Hb'). pose proof (block_u32 v b ltac:(lia) Hv) as [_ Hle]. rewrite Hal in Hle.
  exists x. split; [done|]. split; [done|]. split; [unfold u32 in *; lia|].
  apply (Contains_range _ v b); [by split|]. lia.
Qed.

(** ** Where a cluster's static routes lead *)

(** The static routes of a rendered Vpc. *)
Definition route_of (j : json) : option (string * string) :=
  match j with
  | JObj [("cidr", JStr c); ("nextHopIP", JStr h); ("policy", JStr "policyDst")] => Some (c, h)
  | _ => None
  end%string.
Definition static_routes (o : Native) : option (list (string * string)) :=
  match un_Object o with
  | JObj [("spec", JObj [("staticRoutes", JArr l)])] => mapM route_of l
  | _ => None
  end%string.
Definition covers (cidr : string) (x : Z) : bool :=
  match prefix cidr with Ok net => Contains net (Addr4 x) | Err _ => false end.
(** The next hops of the routes to an address. *)
Definition next_hops (o : Native) (x : Z) : option (list string) :=
  option_map (fun l => map snd (List.filter (fun r => covers (fst r) x) l)) (static_routes o).

Lemma rendered_routes uid clusters transit intents i :
  static_routes (si_Vpc (render_site uid clusters transit intents i)) =
  Some (map (fun a => (at_CIDR a, at_TransitIP a)) (remotes intents i)).
Proof.
  unfold static_routes. simpl. induction (remotes intents i) as [|a l IH]; [done|]. simpl. by rewrite IH.
Qed.

(** ** What [Build] accepts *)

Record accepted (v : GlobalVpc) (cfg : Config) (p : Plan) (transit : NetIP.Prefix) (nets : list NetIP.Prefix) : Prop := {
  ac_uid : pl_UID p = om_UID (gv_Meta v) /\ pl_UID p <> "";
  ac_transit : prefix (gs_TransitCIDR (gv_Spec v)) = Ok transit;
  (** every cluster of the domain takes part, once, with its own registration *)
  ac_members : Permutation (map (fun s => cl_UID (si_Cluster s)) (pl_Attachments p)) (map cl_UID (Clusters cfg));
  ac_intents : Permutation (map si_Intent (pl_Attachments p)) (gs_Attachments (gv_Spec v));
  ac_own : forall s, In s (pl_Attachments p) -> cl_Name (si_Cluster s) = at_ClusterRef (si_Intent s);
  ac_names : NoDup (map (fun s => at_ClusterRef (si_Intent s)) (pl_Attachments p));
  (** its prefixes are networks that share no address with each other or the transit *)
  ac_nets : Forall2 (fun s net => prefix (at_CIDR (si_Intent s)) = Ok net) (pl_Attachments p) nets;
  ac_apart : ForallOrdPairs disjoint (transit :: nets);
  (** gateways and router addresses are usable hosts of their networks *)
  ac_gateways : Forall2 (fun s net => is_ok (host (at_Gateway (si_Intent s)) net) = true) (pl_Attachments p) nets;
  ac_routers : forall s, In s (pl_Attachments p) -> is_ok (host (at_TransitIP (si_Intent s)) transit) = true;
  ac_router_names : NoDup (map (fun s => at_TransitIP (si_Intent s)) (pl_Attachments p));
  (** one address claim for the transit and one per attachment *)
  ac_claims : pl_Claims p = claim (pl_UID p) "transit" (ip_ScopeRef (gs_IPAM (gv_Spec v))) (gs_TransitCIDR (gv_Spec v)) ::
    map (fun s => claim (pl_UID p) ("cluster/" ++ cl_UID (si_Cluster s)) (ip_ScopeRef (gs_IPAM (gv_Spec v))) (at_CIDR (si_Intent s)))
      (pl_Attachments p);
  ac_routes : forall s, In s (pl_Attachments p) ->
    static_routes (si_Vpc s) = Some (map (fun a => (at_CIDR a, at_TransitIP a)) (remotes (map si_Intent (pl_Attachments p)) (si_Intent s)));
}.
Lemma sites_members (cfg : Config) registered intents uid transit :
  NoDup (map cl_Name (Clusters cfg)) -> register (Clusters cfg) = Ok registered ->
  List.length intents = List.length (Clusters cfg) -> NoDup (map at_ClusterRef intents) ->
  (forall a, In a intents -> by_name registered !! at_ClusterRef a <> None) ->
  let sites := map (render_site uid (by_name registered) transit intents) intents in
  Permutation (map (fun s => cl_UID (si_Cluster s)) sites) (map cl_UID (Clusters cfg)) /\
  (forall s, In s sites -> cl_Name (si_Cluster s) = at_ClusterRef (si_Intent s)).
Proof.
  intros HN HR HL HD HI sites. pose proof (register_names _ _ HR) as EN.
  assert (NoDup (map cl_Name registered)) as HN' by by rewrite EN.
  assert (map cl_UID registered = map cl_UID (Clusters cfg)) as EU by (apply register_ok in HR as [-> _]; by rewrite map_map).
  set (f n := default zeroCluster (by_name registered !! n)).
  assert (forall c, In c registered -> f (cl_Name c) = c) as Hf.
  { intros c Hc. unfold f. by rewrite (proj2 (by_name_in registered (cl_Name c) c HN') (conj Hc eq_refl)). }
  assert (Permutation (map at_ClusterRef intents) (map cl_Name registered)) as HP.
  { apply submseteq_length_Permutation.
    - apply NoDup_submseteq; [done|]. intros n (a & -> & Ha%list_elem_of_In)%list_elem_of_fmap. apply list_elem_of_In.
      by apply by_name_none, HI.
    - rewrite EN, !length_map. lia. }
  split.
  - rewrite <- EU. unfold sites. rewrite map_map. simpl.
    transitivity (map (fun n => cl_UID (f n)) (map at_ClusterRef intents)); [by rewrite map_map|].
    rewrite HP, map_map. erewrite map_ext_in; [done|]. intros c Hc. simpl. by rewrite Hf.
  - intros s (a & <- & Ha)%in_map_iff. simpl. fold (f (at_ClusterRef a)).
    assert (In (at_ClusterRef a) (map cl_Name registered)) as (c & E & Hc)%in_map_iff by (rewrite <- HP; by apply in_map).
    by rewrite <- E, Hf.
Qed.

Lemma map_intents uid clusters transit intents : map si_Intent (map (render_site uid clusters transit intents) intents) = intents.
Proof. rewrite map_map. by apply map_id. Qed.

Lemma build_accepted v cfg p : build v cfg = Ok p -> exists transit nets, accepted v cfg p transit nets.
Proof.
  unfold build. intros H. follow H.
  match goal with X : Validate cfg = Ok _ |- _ => apply domain_registered in X as [[_ HN HU _] _] end.
  match goal with X : prefix _ = Ok ?t, Y : register _ = Ok ?r, Z : check_intents _ _ _ _ _ _ = Ok _ |- _ =>
    rename t into transit, r into registered, X into HT, Y into HR, Z into HC end.
  injection H as <-. set (intents := sort_by_key at_ClusterRef (gs_Attachments (gv_Spec v))) in *.
  assert (Permutation intents (gs_Attachments (gv_Spec v))) as HPI by apply sort_by_key_perm.
  apply check_intents_ok in HC as (nets & ts & HF & HO & HD & _ & HTS & HNT & _); [|eauto|repeat constructor].
  assert (Forall (fun a => by_name registered !! at_ClusterRef a <> None) intents) as HI.
  { apply List.Forall_forall. intros a Ha. destruct (Forall2_in_l _ _ _ _ HF Ha) as (net & _ & Hok). apply Hok. }
  rewrite List.Forall_forall in HI.
  pose proof (sites_members cfg registered intents (om_UID (gv_Meta v)) transit HN HR
    ltac:(unfold intents, sort_by_key; rewrite sort_by_length; lia) HD HI) as [HM Hown].
  set (sites := map (render_site _ _ _ _) intents) in *. exists transit, nets.
  assert (map si_Intent sites = intents) as EI by apply map_intents.
  assert (forall (P : Attachment -> NetIP.Prefix -> Prop), (forall a net, intent_ok (by_name registered) transit a net -> P a net) ->
    Forall2 (fun s net => P (si_Intent s) net) sites nets) as HS.
  { intros P HP. apply (proj1 (Forall2_fmap_l si_Intent P sites nets)). change (Forall2 P (map si_Intent sites) nets).
    rewrite EI. eapply Forall2_impl; [exact HF|]. exact HP. }
  assert (PrefixString transit = gs_TransitCIDR (gv_Spec v)) as ES by (apply Prefix_ok in HT as (?&?&?&?&?&?&?); done).
  split; simpl; try done.
  - by rewrite EI.
  - by rewrite <- (map_map si_Intent at_ClusterRef), EI.
  - apply (HS (fun a net => prefix (at_CIDR a) = Ok net)). by intros a net (_ & ? & _).
  - apply (HS (fun a net => is_ok (host (at_Gateway a) net) = true)). intros a net (_ & _ & (g & ->) & _). done.
  - intros s Hs. assert (In (si_Intent s) intents) as Hs' by (rewrite <- EI; by apply in_map).
    destruct (Forall2_in_l _ _ _ _ HF Hs') as (net & _ & _ & _ & _ & t & ->). done.
  - rewrite <- (map_map si_Intent at_TransitIP), EI. clear - HTS HNT HT. induction HTS as [|a t l ts Ha HTS IH]; [constructor|].
    apply NoDup_cons in HNT as [Hn HNT]. simpl. apply NoDup_cons. split; [|auto].
    intros (b & E & Hb%list_elem_of_In)%list_elem_of_fmap. apply Hn. destruct (Forall2_in_l _ _ _ _ HTS Hb) as (t' & Ht & Hh).
    rewrite <- E in Hh. rewrite Ha in Hh. injection Hh as ->. by apply list_elem_of_In.
  - by rewrite ES.
  - intros s Hs. rewrite EI. apply in_map_iff in Hs as (a & <- & Ha). apply rendered_routes.
Qed.
Lemma filter_only {A} (f : A -> bool) l a : NoDup l -> In a l -> f a = true -> (forall b, In b l -> f b = true -> b = a) ->
  List.filter f l = [a].
Proof.
  induction l as [|c l IH]; [done|]. intros [Hc HN]%NoDup_cons Ha Hf Hu. simpl.
  assert (forall l', (forall b, In b l' -> f b = true -> False) -> List.filter f l' = []) as Hnone.
  { clear. induction l' as [|d l' IH]; [done|]. intros H. simpl. destruct (f d) eqn:E; [destruct (H d); [by left|done]|].
    apply IH. intros b Hb. apply H. by right. }
  destruct Ha as [->|Ha].
  - rewrite Hf, Hnone; [done|]. intros b Hb Hfb. assert (b = a) as -> by (apply Hu; [by right|done]).
    apply Hc. by apply list_elem_of_In.
  - destruct (f c) eqn:E.
    + assert (c = a) as -> by (apply Hu; [by left|done]). destruct Hc. by apply list_elem_of_In.
    + apply IH; try done. intros b Hb. apply Hu. by right.
Qed.
Lemma filter_filter {A} (f g : A -> bool) l : List.filter f (List.filter g l) = List.filter g (List.filter f l).
Proof.
  induction l as [|x l IH]; [done|]. simpl.
  destruct (g x) eqn:Eg, (f x) eqn:Ef; simpl; rewrite ?Ef, ?Eg; by rewrite IH.
Qed.

Lemma pairs_apart p q l : ForallOrdPairs disjoint l -> In p l -> In q l -> p = q \/ disjoint p q.
Proof. intros HO Hp Hq. destruct (ForallOrdPairs_In HO p q Hp Hq) as [|[|]]; auto using disjoint_sym. Qed.

Context (v : GlobalVpc) (cfg : Config) (p : Plan) (transit : NetIP.Prefix) (nets : list NetIP.Prefix).
Context (HA : accepted v cfg p transit nets).
Let intents := map si_Intent (pl_Attachments p).

Lemma accepted_net s : In s (pl_Attachments p) -> exists net, In net nets /\ prefix (at_CIDR (si_Intent s)) = Ok net.
Proof. intros Hs. destruct (Forall2_in_l _ _ _ _ (ac_nets _ _ _ _ _ HA) Hs) as (net & ? & ?). eauto. Qed.
Lemma covers_only s t x : u32 x -> In s (pl_Attachments p) -> In t (pl_Attachments p) ->
  covers (at_CIDR (si_Intent s)) x = true -> covers (at_CIDR (si_Intent t)) x = true -> si_Intent s = si_Intent t.
Proof.
  intros Hx Hs Ht. unfold covers. intros Cs Ct.
  pose proof (ac_apart _ _ _ _ _ HA) as HO. inversion HO as [|? ? _ HO']; subst.
  pose proof (ac_nets _ _ _ _ _ HA) as HF. clear - HF HO' Hs Ht Cs Ct Hx.
  induction HF as [|u net l nets Hu HF IH]; [done|]. inversion HO' as [|? ? Hd HO'']; subst.
  rewrite List.Forall_forall in Hd.
  destruct Hs as [->|Hs], Ht as [->|Ht]; [done|exfalso|exfalso|by apply IH].
  - rewrite Hu in Cs. destruct (Forall2_in_l _ _ _ _ HF Ht) as (net' & Hin & E). rewrite E in Ct. by apply (Hd net' Hin x).
  - rewrite Hu in Ct. destruct (Forall2_in_l _ _ _ _ HF Hs) as (net' & Hin & E). rewrite E in Cs. by apply (Hd net' Hin x).
Qed.

Lemma accepted_hops s x : In s (pl_Attachments p) ->
  next_hops (si_Vpc s) x =
  Some (map at_TransitIP (remotes (List.filter (fun a => covers (at_CIDR a) x) intents) (si_Intent s))).
Proof.
  intros Hs. unfold next_hops. rewrite (ac_routes _ _ _ _ _ HA s Hs). simpl. f_equal. unfold remotes.
  rewrite filter_filter. fold intents. generalize (List.filter (fun a => negb (at_ClusterRef a =? at_ClusterRef (si_Intent s))%string) intents) as l.
  induction l as [|a l IH]; [done|]. simpl. destruct (covers _ _); simpl; by rewrite IH.
Qed.

Lemma accepted_reach s t x : u32 x -> In s (pl_Attachments p) -> In t (pl_Attachments p) -> covers (at_CIDR (si_Intent t)) x = true ->
  next_hops (si_Vpc s) x = Some (if (cl_Name (si_Cluster t) =? cl_Name (si_Cluster s))%string then [] else [at_TransitIP (si_Intent t)]).
Proof.
  intros Hx Hs Ht HC. rewrite accepted_hops by done. f_equal.
  rewrite (filter_only _ _ (si_Intent t)).
  - unfold remotes. simpl. rewrite !(ac_own _ _ _ _ _ HA) by done. by destruct (_ =? _)%string.
  - apply (NoDup_fmap_1 at_ClusterRef). unfold intents. change (NoDup (map at_ClusterRef (map si_Intent (pl_Attachments p)))).
    rewrite map_map. apply (ac_names _ _ _ _ _ HA).
  - by apply in_map.
  - done.
  - intros b (u & <- & Hu)%in_map_iff Cu. by apply (covers_only u t x).
Qed.

Lemma accepted_transit_hops s x : u32 x -> In s (pl_Attachments p) -> Contains transit (Addr4 x) = true ->
  next_hops (si_Vpc s) x = Some [].
Proof.
  intros Hx Hs HC. rewrite accepted_hops by done. do 2 f_equal.
  assert (forall l, (forall a, In a l -> covers (at_CIDR a) x = false) -> List.filter (fun a => covers (at_CIDR a) x) l = []) as Hnone.
  { clear. induction l as [|a l IH]; [done|]. intros H. simpl. rewrite H by by left. apply IH. intros; apply H; by right. }
  rewrite Hnone; [done|]. intros a (t & <- & Ht)%in_map_iff. unfold covers.
  destruct (accepted_net t Ht) as (net & Hn & ->). apply not_true_is_false. intros HC'.
  pose proof (ac_apart _ _ _ _ _ HA) as HO. inversion HO as [|? ? Hd _]; subst. rewrite List.Forall_forall in Hd. by apply (Hd net Hn x).
Qed.
End facts.

(** C33: An accepted plan of a GlobalVpc gives every registered cluster exactly one attachment; the
    networks are networks of the intent and share no address with each other or with the transit; and
    in every cluster the static routes lead each address of another cluster's network to that cluster's
    transit router and to no other, and no address of the cluster's own network or the transit anywhere. *)
Theorem plans_route_every_address_once {VAL : Validation} v cfg p : Build (Some v) cfg = Ok p ->
  exists transit nets, accepted v cfg p transit nets /\
    forall s x, In s (pl_Attachments p) -> u32 x ->
      (forall t, In t (pl_Attachments p) -> covers (at_CIDR (si_Intent t)) x = true ->
         next_hops (si_Vpc s) x =
         Some (if (cl_Name (si_Cluster t) =? cl_Name (si_Cluster s))%string then [] else [at_TransitIP (si_Intent t)])) /\
      (Contains transit (Addr4 x) = true -> next_hops (si_Vpc s) x = Some []).
Proof.
  intros H. apply build_accepted in H as (transit & nets & HA). exists transit, nets. split; [done|].
  intros s x Hs Hx. split; [|by eapply accepted_transit_hops].
  intros t Ht HC. by eapply accepted_reach.
Qed.

(** ** The order of the listings *)

(** A cluster up to the order of its gateway chassis. *)
Definition normal (c : Cluster) : Cluster := with_chassis (sort_strings (cl_GatewayChassis c)) c.
(** Registrations and intents that differ only in the order of their lists. *)
Definition same_domain (cfg cfg' : Config) : Prop :=
  Domain cfg = Domain cfg' /\ ICNBCommand cfg = ICNBCommand cfg' /\ Providers cfg = Providers cfg' /\
  Permutation (map normal (Clusters cfg)) (map normal (Clusters cfg')).
Definition same_intent (v v' : GlobalVpc) : Prop :=
  om_UID (gv_Meta v) = om_UID (gv_Meta v') /\ gs_DomainRef (gv_Spec v) = gs_DomainRef (gv_Spec v') /\
  gs_IPAM (gv_Spec v) = gs_IPAM (gv_Spec v') /\ gs_TransitCIDR (gv_Spec v) = gs_TransitCIDR (gv_Spec v') /\
  Permutation (gs_Attachments (gv_Spec v)) (gs_Attachments (gv_Spec v')).

Section order.
Context {VAL : Validation}.

Lemma registered_normal l : registered (map normal l) <-> registered l.
Proof.
  assert (forall f : Cluster -> string, (forall c, f (normal c) = f c) -> map f (map normal l) = map f l) as HM.
  { intros f Hf. rewrite map_map. by apply map_ext. }
  assert (forall c, complete (normal c) = complete c) as HC.
  { intros c. unfold complete, normal. simpl. do 2 f_equal. unfold empty.
    pose proof (sort_strings_perm (cl_GatewayChassis c)) as HP. destruct (cl_GatewayChassis c) as [|x l'].
    - by apply Permutation_sym, Permutation_nil in HP as ->.
    - destruct (sort_strings (x :: l')); [by apply Permutation_nil in HP|done]. }
  split; intros [H1 H2 H3 H4]; split; rewrite ?HM in * by done; try done.
  - clear - H1 HC. rewrite List.Forall_forall in *. intros c Hc. rewrite <- HC. by apply (H1 (normal c)), in_map.
  - clear - H1 HC. rewrite List.Forall_forall in *. intros c (d & <- & Hd)%in_map_iff. rewrite HC. exact (H1 d Hd).
Qed.
Lemma registered_perm l l' : Permutation (map normal l) (map normal l') -> registered l -> registered l'.
Proof.
  rewrite <- (registered_normal l), <- (registered_normal l'). intros HP [H1 H2 H3 H4]. split; by rewrite <- HP.
Qed.

Lemma Validate_perm cfg cfg' : same_domain cfg cfg' -> Validate cfg = Ok tt -> Validate cfg' = Ok tt.
Proof.
  intros (HD & HI & HP & HC) HV. unfold Validate in *. rewrite <- HD, <- HI, <- HP.
  assert (List.length (Clusters cfg') = List.length (Clusters cfg)) as ->
    by (apply Permutation_length in HC; by rewrite !length_map in HC).
  destruct (bad _); [done|]. destruct (_ || _); [done|].
  destruct (validateClusters _ _ _ (Clusters cfg)) as [[]|] eqn:E; [|done]. apply validateClusters_iff in E.
  by rewrite (proj2 (validateClusters_iff _) (registered_perm _ _ HC E)).
Qed.

Lemma register_iff l r : register l = Ok r <-> r = map normal l /\
  Forall (fun c => bad (IsDNS1123Subdomain (cl_Name c)) || bad (IsValidLabelValue (cl_UID c)) = false /\
                   chassis_bad None (cl_GatewayChassis c) = false) (map normal l).
Proof.
  split; [intros [-> HF]%register_ok; split; [done|]; by apply Forall_map|].
  intros [-> HF]. apply Forall_map in HF. induction HF as [|c l [Hc Hb] HF IH]; [done|]. simpl in Hc, Hb. cbn [register].
  rewrite Hc, Hb, IH. done.
Qed.

Lemma register_perm cfg cfg' r : same_domain cfg cfg' -> register (Clusters cfg) = Ok r ->
  exists r', register (Clusters cfg') = Ok r' /\ Permutation r r'.
Proof.
  intros (_ & _ & _ & HC) [-> HF]%register_iff. eexists. split; [|exact HC]. apply register_iff. split; [done|]. by rewrite <- HC.
Qed.

Lemma by_name_perm r r' : NoDup (map cl_Name r) -> Permutation r r' -> by_name r = by_name r'.
Proof.
  intros HN HP. apply map_eq. intros n. apply option_eq. intros c.
  rewrite !by_name_in; [by rewrite HP|by rewrite <- HP|done].
Qed.
End order.

(** A plan does not depend on the order in which the intent lists its attachments, the registration
    its clusters, or a cluster its gateway chassis: reordering them gives the same plan with the same hash. *)
Theorem plans_ignore_listing_order {VAL : Validation} v v' cfg cfg' p :
  same_intent v v' -> same_domain cfg cfg' -> Build (Some v) cfg = Ok p -> Build (Some v') cfg' = Ok p.
Proof.
  intros (HU & HR & HI & HT & HA) HD. pose proof HD as (ED & EI & EP & HC). simpl. unfold build.
  destruct (Validate cfg) as [[]|] eqn:EV; [|done]. rewrite (Validate_perm _ _ HD EV).
  apply domain_registered in EV as [[_ HN _ _] _].
  assert (List.length (Clusters cfg') = List.length (Clusters cfg)) as ->
    by (apply Permutation_length in HC; by rewrite !length_map in HC).
  rewrite <- HU, <- HR, <- HI, <- HT, <- ED, <- EP, <- (Permutation_length HA).
  assert (sort_by_key at_ClusterRef (gs_Attachments (gv_Spec v)) = sort_by_key at_ClusterRef (gs_Attachments (gv_Spec v')) \/
    forall t r, check_intents (by_name r) t ∅ [] [t] (sort_by_key at_ClusterRef (gs_Attachments (gv_Spec v))) <> Ok tt) as HS.
  { destruct (decide (NoDup (map at_ClusterRef (gs_Attachments (gv_Spec v))))) as [Hnd|Hnd].
    - left. apply sort_by_key_perm_eq; [|done]. intros x y Hx Hy. by apply (nodup_map_inj at_ClusterRef _ x y Hnd).
    - right. intros t r HK. apply check_intents_distinct in HK. apply Hnd. by rewrite (sort_by_key_perm at_ClusterRef) in HK. }
  destruct (_ || bad _); [done|]. destruct (negb _); [done|]. destruct (Providers cfg !! _); [|done].
  destruct (_ || (253 <? _)%nat); [done|]. destruct (negb _); [done|].
  destruct (prefix _) as [transit|]; [|done]. destruct (register (Clusters cfg)) as [r|] eqn:ER; [|done].
  destruct (register_perm _ _ _ HD ER) as (r' & ER' & HP). rewrite ER'. pose proof (register_names _ _ ER) as EN.
  assert (NoDup (map cl_Name r)) as HN' by by rewrite EN.
  rewrite <- (by_name_perm r r' HN' HP).
  rewrite <- (sort_by_key_perm_eq cl_Name r r'); [|intros x y; by apply (nodup_map_inj cl_Name r)|done].
  unfold plan_identity. rewrite <- ED, <- EI. destruct HS as [<-|HS]; [done|].
  destruct (check_intents _ _ _ _ _ _) as [[]|] eqn:EC; [|done]. by apply HS in EC.
Qed.
