(* ===== verification/SitePlan.v ===== *)
(** * [internal/siteplan]: the resources of one local attachment

    [Build] renders a SiteVpc against the administrator's local grant: the tenant
    router and its workload and transit subnets, and the gateway contract. Planning
    contacts nobody. *)
From S2P Require Import Prelude GoStd Json NetIP NetIPFacts Validation SiteConfig Api Prog Kube GlobalApi GlobalPlan.
Open Scope Z_scope.

Record GatewayConfig := mkGatewayConfig {
  gc_Version : string; gc_GlobalVpcID : string; gc_OwnerUID : string; gc_SiteID : string; gc_AttachmentID : string;
  gc_GatewayRevision : string; gc_DelegatedPrefixes : list string; gc_CIDR : string; gc_TransitCIDR : string;
  gc_RouterIP : string; gc_GatewayIP : string; gc_VpcName : string; gc_SubnetName : string; gc_TransitName : string;
  gc_Gateways : list Gateway; gc_BFD : option BFD }.
Definition IsHA (g : GatewayConfig) : bool := (gc_Version g =? "v2")%string.
Definition Members (g : GatewayConfig) : list Gateway :=
  if negb (IsHA g) then [mkGateway "default" (gc_GatewayIP g)] else gc_Gateways g.
Definition BFDPortName (g : GatewayConfig) : string := ("bfd@" ++ gc_VpcName g)%string.

Record Plan := mkPlan {
  pl_OwnerUID : string; pl_GlobalVpcID : string; pl_SiteID : string; pl_AttachmentID : string; pl_Hash : string;
  pl_VpcName : string; pl_SubnetName : string; pl_TransitName : string;
  pl_Vpc : Native; pl_Subnet : Native; pl_Transit : Native; pl_Gateway : GatewayConfig }.

(** ** Canonical grants *)

Definition sort_values (r : LabelSelectorRequirement) : LabelSelectorRequirement :=
  mkReq (lsr_Key r) (lsr_Operator r) (sort_strings (lsr_Values r)).
Definition NUL : string := String zero EmptyString.
Definition requirement_key (r : LabelSelectorRequirement) : string :=
  (lsr_Key r ++ NUL ++ lsr_Operator r ++ NUL ++ Join NUL (lsr_Values r))%string.
Definition canonicalSelector (s : LabelSelector) : LabelSelector :=
  mkSelector (ls_MatchLabels s) (sort_by_key requirement_key (map sort_values (ls_MatchExpressions s))).
Definition canonicalBFD (b : option BFD) : option BFD :=
  option_map (fun b => mkBFD (bfd_SourceIP b) (bfd_MinRX b) (bfd_MinTX b) (bfd_Multiplier b)
                         (option_map canonicalSelector (bfd_NodeSelector b))) b.
Definition canonicalGrant (g : Grant) : Grant :=
  mkGrant (gr_GlobalVpcID g) (sort_strings (gr_DelegatedPrefixes g)) (gr_TransitCIDR g) (gr_RouterIP g)
    (gr_GatewayIP g) (sort_by_key gw_ID (gr_Gateways g)) (canonicalBFD (gr_BFD g)).

(** ** The transit addresses kept from allocation *)

(** [appendRange] *)
Definition range_text (r : Addr * Addr) : string :=
  if bool_decide (fst r = snd r) then AddrString (fst r) else (AddrString (fst r) ++ ".." ++ AddrString (snd r))%string.
(** The loop over the sorted gateway addresses, and the range after the last one. *)
Fixpoint exclusion_ranges (first last : Addr) (gateways : list Addr) : list (Addr * Addr) :=
  match gateways with
  | [] => match Compare first last with Gt => [] | _ => [(first, last)] end
  | g :: rest => (if Less first g then [(first, Prev g)] else []) ++ exclusion_ranges (Next g) last rest
  end.
Definition transit_ranges (p : NetIP.Prefix) (gateways : list string) : list (Addr * Addr) :=
  exclusion_ranges (Next (paddr p)) (Prev (LastAddress p))
    (sort_by (fun a b => negb (Less b a)) (map ParseAddr_ gateways)).
Definition transitExclusions (p : NetIP.Prefix) (gateways : list string) : list string :=
  map range_text (transit_ranges p gateways).

(** ** Encodings that enter the plan hash *)

Definition requirement_json (r : LabelSelectorRequirement) : json :=
  fields [req "key" (JStr (lsr_Key r)); req "operator" (JStr (lsr_Operator r)); opt_arr "values" JStr (lsr_Values r)].
Definition selector_json (s : LabelSelector) : json :=
  fields [if bool_decide (ls_MatchLabels s = ∅) then None else req "matchLabels" (labels_json (ls_MatchLabels s));
          opt_arr "matchExpressions" requirement_json (ls_MatchExpressions s)].
Definition bfd_json (b : BFD) : json :=
  fields [req "sourceIP" (JStr (bfd_SourceIP b)); req "minRX" (JInt (bfd_MinRX b)); req "minTX" (JInt (bfd_MinTX b));
          req "multiplier" (JInt (bfd_Multiplier b)); option_map (fun s => ("nodeSelector", selector_json s)) (bfd_NodeSelector b)].
Definition gateway_json (g : Gateway) : json := fields [req "id" (JStr (gw_ID g)); req "ip" (JStr (gw_IP g))].
Definition grant_json (g : Grant) : json :=
  fields [req "globalVpcID" (JStr (gr_GlobalVpcID g)); req "delegatedPrefixes" (strings_json (gr_DelegatedPrefixes g));
          req "transitCIDR" (JStr (gr_TransitCIDR g)); req "routerIP" (JStr (gr_RouterIP g));
          opt_str "gatewayIP" (gr_GatewayIP g); opt_arr "gateways" gateway_json (gr_Gateways g);
          option_map (fun b => ("bfd", bfd_json b)) (gr_BFD g)].
Definition cluster_json (c : Cluster) : json :=
  fields [req "name" (JStr (cl_Name c)); req "uid" (JStr (cl_UID c)); req "kubeconfig" (JStr (cl_Kubeconfig c));
          req "nbCommand" (strings_json (cl_NBCommand c)); req "sbCommand" (strings_json (cl_SBCommand c))].
Definition plan_identity (version uid : string) (spec : SiteVpcSpec) (cfg : Config) (g : Grant) : json :=
  fields [req "Version" (JStr version); req "OwnerUID" (JStr uid); req "Spec" (site_spec_json spec);
          req "Cluster" (cluster_json (cfg_Cluster cfg)); req "GatewayCommand" (strings_json (cfg_GatewayCommand cfg));
          req "GatewayRevision" (JStr (cfg_GatewayRevision cfg)); req "Grant" (grant_json g)].

(** ** [Build] *)

(** [runtime.DefaultUnstructuredConverter] *)
Class Converter := { ToUnstructured : LabelSelector -> res json }.

Section build.
Context {VAL : Validation} {CONV : Converter}.

(** The delegated prefixes admit the network. *)
Definition delegated (g : Grant) (net : NetIP.Prefix) : bool :=
  existsb (fun raw => match Prefix raw with
                      | Ok parent => (pbits parent <=? pbits net) && Contains parent (paddr net)
                      | Err _ => false
                      end) (gr_DelegatedPrefixes g).

Definition vpc_resource (name : string) (labels : gmap string string) (routes : list json) (port : list (string * json)) : Native :=
  resource "Vpc" name labels (port ++ [("staticRoutes", JArr routes)]).
Definition default_route (hop : string) : json :=
  JObj [("cidr", JStr "0.0.0.0/0"); ("nextHopIP", JStr hop); ("policy", JStr "policyDst")].
(** [spec.bfdPort] of a highly available attachment. *)
Definition bfd_port (b : BFD) : res json :=
  match bfd_NodeSelector b with
  | None => Ok (JObj [("enabled", JBool true); ("ip", JStr (bfd_SourceIP b))])
  | Some s =>
      match ToUnstructured s with
      | Err e => Err (Wrapf "encode native BFD node selector" e)
      | Ok j => Ok (JObj [("enabled", JBool true); ("ip", JStr (bfd_SourceIP b)); ("nodeSelector", j)])
      end
  end.

Definition build (v : SiteVpc) (cfg : Config) : res Plan :=
  match Validate cfg with
  | Err e => Err (Wrapf "invalid local registration" e)
  | Ok _ =>
      let uid := om_UID (sv_Meta v) in
      let spec := sv_Spec v in
      reject (uid =? "")%string || bad (IsValidLabelValue uid)
        with Errorf "SiteVpc must have a valid server-assigned UID" ;;
      reject negb (sp_SiteID spec =? cfg_SiteID cfg)%string || negb (sp_AttachmentID spec =? cfg_AttachmentID cfg)%string
        with Errorf "SiteVpc does not target this local attachment" ;;
      match List.find (fun g => (gr_GlobalVpcID g =? sp_GlobalVpcID spec)%string) (cfg_Grants cfg) with
      | None => Err (Errorf "globalVpcID has no local administrator grant")
      | Some g =>
          let grant := canonicalGrant g in
          match Prefix (sp_CIDR spec) with
          | Err e => Err (Wrapf "cidr" e)
          | Ok prefix =>
              reject negb (delegated grant prefix) with Errorf "cidr is outside this attachment's delegated prefixes" ;;
              match Host (sp_Gateway spec) prefix with
              | Err e => Err (Wrapf "gateway" e)
              | Ok _ =>
                  let key := shortHash (sp_GlobalVpcID spec ++ NUL ++ cfg_SiteID cfg ++ NUL ++ cfg_AttachmentID cfg) in
                  let vpc := ("sv-" ++ key)%string in
                  let subnet := ("ss-" ++ key)%string in
                  let transitName := ("st-" ++ key)%string in
                  let labels := <[OwnerLabel := uid]> (<[ClusterLabel := cl_UID (cfg_Cluster cfg)]>
                                  (<[GlobalIDLabel := shortHash (sp_GlobalVpcID spec)]>
                                    (<[AttachmentLabel := cfg_AttachmentID cfg]> ∅))) in
                  (* the transit of a validated grant parses *)
                  let transit := match Prefix (gr_TransitCIDR grant) with Ok t => t | Err _ => PrefixZero end in
                  let workload := subnetResource subnet vpc (PrefixString prefix) (sp_Gateway spec) [sp_Gateway spec] labels in
                  let transit_of ips := subnetResource transitName vpc (PrefixString transit) (gr_RouterIP grant)
                                          (transitExclusions transit ips) labels in
                  let gateway version gateways bfd :=
                    mkGatewayConfig version (sp_GlobalVpcID spec) uid (cfg_SiteID cfg) (cfg_AttachmentID cfg)
                      (cfg_GatewayRevision cfg) (gr_DelegatedPrefixes grant) (PrefixString prefix) (PrefixString transit)
                      (gr_RouterIP grant) (gr_GatewayIP grant) vpc subnet transitName gateways bfd in
                  let plan version native ips gw :=
                    mkPlan uid (sp_GlobalVpcID spec) (cfg_SiteID cfg) (cfg_AttachmentID cfg)
                      (sha256_hex (Marshal (plan_identity version uid spec cfg grant))) vpc subnet transitName
                      native workload (transit_of ips) gw in
                  match gr_Gateways grant, gr_BFD grant with
                  | _ :: _, Some b =>
                      port <-? bfd_port b ;;
                      Ok (plan "site-v2" (vpc_resource vpc labels [] [("bfdPort", port)]) (map gw_IP (gr_Gateways grant))
                            (gateway "v2" (gr_Gateways grant) (gr_BFD grant)))%string
                  | _, _ => (* a validated grant with gateways has BFD *)
                      Ok (plan "site-v1" (vpc_resource vpc labels [default_route (gr_GatewayIP grant)] [])
                            [gr_GatewayIP grant] (gateway "v1" [] None))%string
                  end
              end
          end
      end
  end.

Definition Build (v : option SiteVpc) (cfg : Config) : res Plan :=
  match v with
  | None => Err (Errorf "SiteVpc is required")
  | Some v => build v cfg
  end.
End build.

(** * What an accepted local plan guarantees

    The workload network lies in a prefix delegated to the tenant and shares no
    address with the transit; on the transit exactly the gateways' addresses stay
    allocatable. *)

(** ** The ranges of [transitExclusions] *)

Definition in_range4 (r : Addr * Addr) (x : Z) : Prop :=
  exists a b, r = (Addr4 a, Addr4 b) /\ a <= x <= b.
(** [x] is kept from allocation. *)
Definition excluded (l : list (Addr * Addr)) (x : Z) : Prop := exists r, In r l /\ in_range4 r x.

Lemma excluded_cons a b l x : excluded ((Addr4 a, Addr4 b) :: l) x <-> a <= x <= b \/ excluded l x.
Proof.
  split.
  - intros (r & [<-|Hr] & a' & b' & E & Hx); [injection E as -> ->; by left|]. right. by exists r; split; [|exists a', b'].
  - intros [Hx|(r & Hr & Hx)]; [|by exists r; split; [right|]]. exists (Addr4 a, Addr4 b). split; [by left|]. by exists a, b.
Qed.
Lemma excluded_nil x : excluded [] x <-> False.
Proof. split; [by intros (r & [] & _)|done]. Qed.

Lemma exclusion_ranges_spec first last gs x : 0 < first -> last < 4294967295 -> first <= last + 1 ->
  StronglySorted Z.lt gs -> Forall (fun g => first <= g <= last) gs ->
  excluded (exclusion_ranges (Addr4 first) (Addr4 last) (map Addr4 gs)) x <-> first <= x <= last /\ ~ In x gs.
Proof.
  revert first. induction gs as [|g gs IH]; intros first Hf Hl Hfl HS HF; cbn [map exclusion_ranges].
  - unfold Compare. simpl BitLen. rewrite Z.compare_refl. destruct (first ?= last) eqn:E.
    + apply Z.compare_eq_iff in E as ->. rewrite excluded_cons, excluded_nil. simpl. lia.
    + apply Z.compare_lt_iff in E. rewrite excluded_cons, excluded_nil. simpl. lia.
    + apply Z.compare_gt_iff in E. rewrite excluded_nil. lia.
  - inversion HS as [|? ? HS' Hlt]; subst. inversion HF as [|? ? Hg HF']; subst. rewrite List.Forall_forall in Hlt, HF'.
    assert (Next (Addr4 g) = Addr4 (g + 1)) as -> by (simpl; by rewrite (proj2 (Z.eqb_neq _ _)) by lia).
    assert (Prev (Addr4 g) = Addr4 (g - 1)) as -> by (simpl; by rewrite (proj2 (Z.eqb_neq _ _)) by lia).
    assert (excluded (exclusion_ranges (Addr4 (g + 1)) (Addr4 last) (map Addr4 gs)) x <-> g + 1 <= x <= last /\ ~ In x gs) as HI.
    { apply IH; try lia; try done. apply List.Forall_forall. intros y Hy. specialize (Hlt y Hy). specialize (HF' y Hy). lia. }
    rewrite Less4. simpl In. assert (In x gs -> g < x) as Hgx by auto.
    destruct (Z.ltb_spec first g).
    + simpl app. rewrite excluded_cons, HI. split; [intros [?|[? ?]]; (split; [lia|])|].
      * intros [->|Hin]; [lia|]. apply Hgx in Hin. lia.
      * intros [->|Hin]; [lia|auto].
      * intros [? Hn]. destruct (Z.lt_trichotomy x g) as [|[->|]]; [left; lia|destruct Hn; by left|right; split; [lia|auto]].
    + simpl app. rewrite HI. split; [intros [? ?]; (split; [lia|]); intros [->|]; [lia|auto]|].
      intros [? Hn]. destruct (Z.eq_dec x g) as [->|]; [destruct Hn; by left|]. split; [lia|auto].
Qed.

Lemma sort_by_map {A B} (f : A -> B) (le : B -> B -> bool) l : sort_by le (map f l) = map f (sort_by (fun a b => le (f a) (f b)) l).
Proof.
  induction l as [|x l IH]; [done|]. simpl. rewrite IH. generalize (sort_by (fun a b => le (f a) (f b)) l) as k. clear.
  induction k as [|y k IH]; [done|]. simpl. destruct (le (f x) (f y)); [done|]. simpl. by rewrite IH.
Qed.
Lemma sort_by_ext {A} (le le' : A -> A -> bool) l : (forall a b, le a b = le' a b) -> sort_by le l = sort_by le' l.
Proof.
  intros H. induction l as [|x l IH]; [done|]. simpl. rewrite IH. generalize (sort_by le' l) as k.
  induction k as [|y k IHk]; [done|]. simpl. by rewrite H, IHk.
Qed.
Lemma strictly_sorted l : NoDup l -> StronglySorted (fun a b => (a <=? b) = true) l -> StronglySorted Z.lt l.
Proof.
  intros HN. induction 1 as [|x l HS IH HF]; [constructor|]. apply NoDup_cons in HN as [Hx HN]. constructor; [auto|].
  rewrite List.Forall_forall in *. intros y Hy. specialize (HF y Hy). apply Z.leb_le in HF.
  destruct (Z.eq_dec x y) as [->|]; [|lia]. destruct Hx. by apply list_elem_of_In.
Qed.

(** Between the network and the broadcast address, everything but the gateways. *)
Lemma transit_ranges_spec raw t v b gs zs x : Prefix raw = Ok t -> prefix4 t v b -> 8 <= b <= 30 -> block v b = v ->
  Forall2 (fun g z => ParseAddr g = Some (Addr4 z) /\ v < z < v + 2 ^ (32 - b) - 1) gs zs -> NoDup zs ->
  excluded (transit_ranges t gs) x <-> v < x < v + 2 ^ (32 - b) - 1 /\ ~ In x zs.
Proof.
  intros HP Hp Hb Hal HF HN. pose proof Hp as (E & Hv & _). unfold transit_ranges.
  rewrite (LastAddress_block _ _ _ Hp) by (assumption || lia).
  pose proof (block_u32 v b ltac:(lia) Hv) as [_ Hle]. rewrite Hal in Hle.
  assert (4 <= 2 ^ (32 - b)) by (change 4 with (2 ^ 2); apply Z.pow_le_mono_r; lia).
  assert (paddr t = Addr4 v) as -> by by rewrite E. unfold u32 in Hv.
  assert (Next (Addr4 v) = Addr4 (v + 1)) as -> by (simpl; by rewrite (proj2 (Z.eqb_neq _ _)) by lia).
  assert (Prev (Addr4 (v + 2 ^ (32 - b) - 1)) = Addr4 (v + 2 ^ (32 - b) - 2)) as ->
    by (simpl; rewrite (proj2 (Z.eqb_neq _ _)) by lia; f_equal; lia).
  assert (map ParseAddr_ gs = map Addr4 zs) as ->.
  { clear - HF. induction HF as [|g z gs zs [Hg _] HF IH]; [done|]. simpl. rewrite IH. f_equal. unfold ParseAddr_. by rewrite Hg. }
  rewrite sort_by_map, (sort_by_ext _ Z.leb) by (intros; rewrite Less4; lia).
  rewrite exclusion_ranges_spec; [|lia..| |].
  - split; intros [? Hn]; (split; [lia|]); intros Hin; apply Hn; apply (sort_by_in Z.leb); done.
  - apply strictly_sorted; [by apply sort_by_nodup|]. apply sort_by_sorted; intros; lia.
  - apply List.Forall_forall. intros z Hz. apply sort_by_in in Hz. destruct (Forall2_in_r _ _ _ _ HF Hz) as (g & _ & _ & ?). lia.
Qed.

(** ** What [Build] accepts *)

Section facts.
Context {VAL : Validation} {CONV : Converter}.

Lemma Validate_grants c g : Validate c = Ok tt -> In g (cfg_Grants c) -> exists transit delegated, grant_ok g transit delegated.
Proof.
  unfold Validate. intros H Hg. follow H.
  apply validateGrants_ok in H as (_ & _ & HF). rewrite List.Forall_forall in HF. by apply HF.
Qed.

(** A network starting in a shorter prefix lies in it. *)
Lemma nested_prefix r s parent net : Prefix r = Ok parent -> Prefix s = Ok net ->
  pbits parent <= pbits net -> Contains parent (paddr net) = true ->
  forall x, Contains net (Addr4 x) = true -> Contains parent (Addr4 x) = true.
Proof.
  intros (v & b & Hp & Hb & Hal & _)%Prefix_ok (w & c & Hq & Hc & Hal' & _)%Prefix_ok Hle HC x Hx.
  pose proof Hp as (-> & Hv & _). pose proof Hq as (-> & Hw & _). simpl in Hle, HC.
  apply (Contains_range _ _ _ _ Hp) in HC. apply (Contains_range _ _ _ _ Hq) in Hx. apply (Contains_range _ _ _ _ Hp).
  rewrite <- block_eq_iff in * by lia. rewrite <- HC. by apply (block_mono _ _ c); [lia..|].
Qed.

(** The administrator's grant that a plan was built from. *)
Record confined (v : SiteVpc) (cfg : Config) (p : Plan) (g : Grant) (net transit : NetIP.Prefix) : Prop := {
  cf_grant : In g (cfg_Grants cfg) /\ gr_GlobalVpcID g = sp_GlobalVpcID (sv_Spec v);
  cf_net : Prefix (sp_CIDR (sv_Spec v)) = Ok net;
  cf_transit : Prefix (gr_TransitCIDR g) = Ok transit;
  cf_delegated : exists raw parent, In raw (gr_DelegatedPrefixes g) /\ Prefix raw = Ok parent /\
    forall x, Contains net (Addr4 x) = true -> Contains parent (Addr4 x) = true;
  cf_members : Permutation (map gw_IP (Members (pl_Gateway p)))
    (match gr_Gateways g with [] => [gr_GatewayIP g] | ms => map gw_IP ms end);
  cf_hosts : NoDup (gr_RouterIP g :: map gw_IP (Members (pl_Gateway p))) /\
    Forall (fun ip => is_ok (Host ip transit) = true) (gr_RouterIP g :: map gw_IP (Members (pl_Gateway p)));
  cf_excluded : exists labels, pl_Transit p = subnetResource (pl_TransitName p) (pl_VpcName p) (gr_TransitCIDR g) (gr_RouterIP g)
    (map range_text (transit_ranges transit (map gw_IP (Members (pl_Gateway p))))) labels;
}.
Lemma delegated_parent g net : delegated g net = true ->
  exists raw parent, In raw (gr_DelegatedPrefixes g) /\ Prefix raw = Ok parent /\
    pbits parent <= pbits net /\ Contains parent (paddr net) = true.
Proof.
  intros (raw & Hr & H)%existsb_exists. destruct (Prefix raw) as [parent|] eqn:E; [|done]. breflect. exists raw, parent.
  split; [done|]. split; [done|]. split; [lia|done].
Qed.

Lemma build_confined v cfg p : build v cfg = Ok p -> exists g net transit, confined v cfg p g net transit /\ disjoint net transit.
Proof.
  unfold build. intros H. destruct (Validate cfg) as [[]|] eqn:EV; [|done].
  destruct (_ || bad _); [done|]. destruct (_ || _); [done|]. destruct (List.find _ _) as [g|] eqn:EG; [|done].
  apply find_some in EG as [Hg Eg]. apply String.eqb_eq in Eg.
  destruct (Validate_grants _ _ EV Hg) as (transit & ds & [HT HD _ HO HR HS HM _]).
  destruct (Prefix (sp_CIDR _)) as [net|] eqn:EN; [|done]. destruct (delegated _ _) eqn:ED; [|done]. simpl negb in H. cbv iota in H.
  destruct (Host _ _) as [?|]; [|done]. apply delegated_parent in ED as (raw & parent & Hraw & Hparent & Hle & HC).
  assert (In raw (gr_DelegatedPrefixes g)) as Hraw' by exact (proj1 (sort_strings_in raw _) Hraw).
  pose proof (nested_prefix raw (sp_CIDR (sv_Spec v)) parent net Hparent EN Hle HC) as Hin. exists g, net, transit. cbv zeta in H.
  change (gr_TransitCIDR (canonicalGrant g)) with (gr_TransitCIDR g) in H. rewrite HT in H.
  change (gr_GatewayIP (canonicalGrant g)) with (gr_GatewayIP g) in H. change (gr_RouterIP (canonicalGrant g)) with (gr_RouterIP g) in H.
  assert (PrefixString transit = gr_TransitCIDR g) as ES by (apply Prefix_ok in HT as (?&?&?&?&?&?&?); done). rewrite ES in H.
  set (ms := gr_Gateways (canonicalGrant g)) in *. assert (Permutation ms (gr_Gateways g)) as HPM by apply sort_by_key_perm.
  split.
  2:{ inversion HO as [|? ? Hd _]; subst. rewrite List.Forall_forall in Hd. destruct (Forall2_in_l _ _ _ _ HD Hraw') as (d & Hd' & E).
      rewrite Hparent in E. injection E as <-. intros x Hx [H1 H2]. apply (Hd _ Hd' x Hx). eauto. }
  assert (forall l, map gw_IP (Members (pl_Gateway p)) = l ->
    Permutation l (match gr_Gateways g with [] => [gr_GatewayIP g] | ms => map gw_IP ms end) ->
    (exists labels, pl_Transit p = subnetResource (pl_TransitName p) (pl_VpcName p) (gr_TransitCIDR g) (gr_RouterIP g)
      (transitExclusions transit l) labels) -> confined v cfg p g net transit) as G.
  { intros l El Hl HX. split; try done.
    - eauto 8.
    - by rewrite El.
    - rewrite El. destruct (gr_Gateways g) as [|m gs] eqn:EGW.
      + destruct (HS eq_refl) as [HS1 HS2]. rewrite Hl. split; [|by repeat constructor].
        repeat constructor; [|set_solver..]. intros Hx%list_elem_of_singleton. done.
      + destruct HM as (_ & HM1 & _ & HM2 & _); [done|]. rewrite Hl. split; [done|]. constructor; [done|]. by apply Forall_map.
    - by rewrite El. }
  destruct ms as [|m gs] eqn:Ems.
  - injection H as <-. assert (gr_Gateways g = []) as Eg0 by (by apply Permutation_nil). apply (G [gr_GatewayIP g]); [done|by rewrite Eg0|by eexists].
  - destruct (gr_BFD _) as [b|] eqn:EB.
    + destruct (bfd_port b); [|done]. injection H as <-. apply (G (map gw_IP (m :: gs))); [done| |by eexists].
      destruct (gr_Gateways g) eqn:EGW; [by apply Permutation_sym, Permutation_nil in HPM|]. by rewrite HPM.
    + exfalso. assert (gr_Gateways g <> []) as Hne by (intros E; rewrite E in HPM; by apply Permutation_sym, Permutation_nil in HPM).
      destruct (HM Hne) as (_ & _ & _ & _ & b & Eb & _). simpl in EB. by rewrite Eb in EB.
Qed.

Lemma confined_exclusions v cfg p g net transit : confined v cfg p g net transit ->
  forall x, Contains transit (Addr4 x) = true ->
    excluded (transit_ranges transit (map gw_IP (Members (pl_Gateway p)))) x <->
    Addr4 x <> paddr transit /\ Addr4 x <> LastAddress transit /\ ~ In (AddrString (Addr4 x)) (map gw_IP (Members (pl_Gateway p))).
Proof.
  intros [_ _ HT _ _ [HN HH] _] x HC. pose proof HT as HT'.
  apply Prefix_ok in HT' as (w & b & Hp & Hb & Hal & _). pose proof (proj1 (Contains_range _ _ _ _ Hp) HC) as Hx. rewrite Hal in Hx.
  apply NoDup_cons in HN as [_ HN]. inversion HH as [|? ? _ HH']; subst. clear HH.
  pose proof Hp as (E & Hw & _). pose proof (block_u32 w b ltac:(lia) Hw) as [_ Hle]. rewrite Hal in Hle.
  assert (exists zs, Forall2 (fun ip z => ip = AddrString (Addr4 z) /\ w < z < w + 2 ^ (32 - b) - 1) (map gw_IP (Members (pl_Gateway p))) zs) as [zs HZ].
  { clear HN. induction HH' as [|ip l Hip HH' IH]; [by exists []|]. destruct IH as [zs HZ].
    destruct (Host ip transit) as [a|] eqn:EH; [|done]. apply (Host_ok _ _ _ _ _ Hp) in EH as (z & -> & -> & Hz & _); [|lia|done].
    exists (z :: zs). by constructor. }
  set (ips := map gw_IP (Members (pl_Gateway p))) in *.
  assert (NoDup zs) as HNZ.
  { clear HH'. induction HZ as [|ip z ips zs [-> Hz] HZ IH]; [constructor|]. apply NoDup_cons in HN as [Hn HN].
    apply NoDup_cons. split; [|auto]. intros Hin%list_elem_of_In. destruct (Forall2_in_r _ _ _ _ HZ Hin) as (ip' & Hip' & -> & _).
    apply Hn. by apply list_elem_of_In. }
  rewrite (transit_ranges_spec _ _ _ _ ips zs x HT Hp Hb Hal); [| |done].
  2:{ eapply Forall2_impl; [exact HZ|]. intros ip z [-> Hz]. split; [|done]. apply ParseAddr_string. unfold u32 in *. lia. }
  rewrite (LastAddress_block _ _ _ Hp) by (assumption || lia). rewrite E. simpl paddr.
  assert (In x zs <-> In (AddrString (Addr4 x)) ips) as ->.
  { split; intros Hin.
    - destruct (Forall2_in_r _ _ _ _ HZ Hin) as (ip & Hip & -> & _). done.
    - destruct (Forall2_in_l _ _ _ _ HZ Hin) as (z & Hz & Ez & Hzr). apply AddrString_inj in Ez as ->; [done|unfold u32 in *; lia..]. }
  split; [intros [? ?]|intros (H1 & H2 & H3)].
  - repeat split; try done; intros [= ->]; lia.
  - split; [|done]. assert (x <> w) by congruence. assert (x <> w + 2 ^ (32 - b) - 1) by congruence. lia.
Qed.
End facts.

(** C34: An accepted plan of a SiteVpc stays inside the administrator's grant for its tenant: the workload
    network lies in a delegated prefix and shares no address with the transit, router and gateways are
    distinct usable transit hosts, and the ranges excluded on the transit subnet are exactly the usable
    addresses other than the gateways', so only a gateway can be allocated there. *)
Theorem site_plans_stay_inside_the_grant {VAL : Validation} {CONV : Converter} v cfg p : Build (Some v) cfg = Ok p ->
  exists g net transit, confined v cfg p g net transit /\ disjoint net transit /\
    forall x, Contains transit (Addr4 x) = true ->
      excluded (transit_ranges transit (map gw_IP (Members (pl_Gateway p)))) x <->
      Addr4 x <> paddr transit /\ Addr4 x <> LastAddress transit /\ ~ In (AddrString (Addr4 x)) (map gw_IP (Members (pl_Gateway p))).
Proof.
  intros H. apply build_confined in H as (g & net & transit & HC & HD). exists g, net, transit.
  split; [done|]. split; [done|]. by eapply confined_exclusions.
Qed.

(** ** Other tenants and listing order *)

(** One tenant's grant with its lists in another order. *)
Definition same_grant (g g' : Grant) : Prop :=
  gr_GlobalVpcID g = gr_GlobalVpcID g' /\ Permutation (gr_DelegatedPrefixes g) (gr_DelegatedPrefixes g') /\
  gr_TransitCIDR g = gr_TransitCIDR g' /\ gr_RouterIP g = gr_RouterIP g' /\ gr_GatewayIP g = gr_GatewayIP g' /\
  Permutation (gr_Gateways g) (gr_Gateways g') /\ canonicalBFD (gr_BFD g) = canonicalBFD (gr_BFD g').
(** Registrations of one site that agree on what concerns the tenant [id]. *)
Definition same_site (id : string) (cfg cfg' : Config) : Prop :=
  cfg_SiteID cfg = cfg_SiteID cfg' /\ cfg_AttachmentID cfg = cfg_AttachmentID cfg' /\ cfg_Cluster cfg = cfg_Cluster cfg' /\
  cfg_GatewayCommand cfg = cfg_GatewayCommand cfg' /\ cfg_GatewayRevision cfg = cfg_GatewayRevision cfg' /\
  exists g g', In g (cfg_Grants cfg) /\ In g' (cfg_Grants cfg') /\ gr_GlobalVpcID g = id /\ same_grant g g'.

Section others.
Context {VAL : Validation} {CONV : Converter}.

Lemma Validate_tenants c : Validate c = Ok tt -> NoDup (map gr_GlobalVpcID (cfg_Grants c)).
Proof. unfold Validate. intros H. follow H. by apply validateGrants_ok in H as (HN & _). Qed.
Lemma find_tenant c g id : Validate c = Ok tt -> In g (cfg_Grants c) -> gr_GlobalVpcID g = id ->
  List.find (fun g => (gr_GlobalVpcID g =? id)%string) (cfg_Grants c) = Some g.
Proof.
  intros HV Hg E. apply Validate_tenants in HV. destruct (List.find _ _) as [h|] eqn:EF.
  - apply find_some in EF as [Hh Eh]. apply String.eqb_eq in Eh. f_equal.
    apply (nodup_map_inj gr_GlobalVpcID (cfg_Grants c)); [done..|congruence].
  - apply (find_none _ _ EF) in Hg. simpl in Hg. by rewrite E, String.eqb_refl in Hg.
Qed.
Lemma canonical_same c g g' : Validate c = Ok tt -> In g (cfg_Grants c) -> same_grant g g' -> canonicalGrant g = canonicalGrant g'.
Proof.
  intros HV Hg (E1 & E2 & E3 & E4 & E5 & E6 & E7). unfold canonicalGrant. rewrite E1, E3, E4, E5, E7.
  rewrite (sort_strings_perm_eq _ _ E2). f_equal. apply sort_by_key_perm_eq; [|done].
  destruct (Validate_grants _ _ HV Hg) as (transit & ds & HG). destruct (gr_Gateways g) as [|m ms] eqn:E; [done|]. rewrite <- E.
  destruct (go_multi _ _ _ HG) as (_ & _ & HN & _); [by rewrite E|]. intros x y. by apply (nodup_map_inj gw_ID).
Qed.
End others.

(** A local plan depends on its own tenant's grant alone: registering, changing or removing other
    tenants, or listing the grant's prefixes and gateways in another order, gives the same plan and hash. *)
Theorem site_plans_ignore_other_tenants {VAL : Validation} {CONV : Converter} v cfg cfg' p :
  same_site (sp_GlobalVpcID (sv_Spec v)) cfg cfg' -> Validate cfg' = Ok tt ->
  Build (Some v) cfg = Ok p -> Build (Some v) cfg' = Ok p.
Proof.
  intros (E1 & E2 & E3 & E4 & E5 & g & g' & Hg & Hg' & Eid & HS) HV'. simpl. unfold build. rewrite HV', <- E1, <- E2.
  destruct (Validate cfg) as [[]|] eqn:HV; [|done].
  rewrite (find_tenant cfg g _ HV Hg Eid), (find_tenant cfg' g' _ HV' Hg') by by rewrite <- Eid; symmetry; apply HS.
  rewrite <- (canonical_same _ _ _ HV Hg HS). unfold plan_identity. by rewrite <- E3, <- E4, <- E5.
Qed.
