(* ===== verification/Infra.v ===== *)
(** * The outside world of the [v1alpha1] controllers and [ResourceStore]

    One authority API and one API per registered cluster, the IPAM providers, the OVN
    adapter, the gateway plugin and the BFD adapter are calls with arbitrary answers.
    [ResourceStore] ([internal/controller/resources.go]) is the guarded access of both
    controllers to the resources they own in one cluster. *)
From S2P Require Import Prelude GoStd Json Validation SiteConfig Api Prog Kube GlobalApi GlobalConfig SitePlan.
Open Scope Z_scope.

(** ** Objects of a cluster, with the fields the code reads or writes *)

Record Deployment := mkDeployment {
  dp_Meta : ObjectMeta; dp_Replicas : option Z; dp_TemplateLabels : gmap string string;
  dp_ObservedGeneration : Z; dp_ReadyReplicas : Z; dp_UpdatedReplicas : Z }.
Record ReplicaSet := mkReplicaSet { rs_Meta : ObjectMeta; rs_Replicas : option Z; rs_ObservedGeneration : Z }.
Record ICPod := mkICPod { ip_Meta : ObjectMeta; ip_Phase : string }.

Inductive kind := KGlobalVpc | KSiteVpc | KConfigMap | KNamespace | KDeployment | KReplicaSet | KPod | KNative (kind : string).
#[export] Instance infra_kind_eq_dec : EqDecision kind.
Proof. solve_decision. Defined.
Definition object (k : kind) : Type :=
  match k with
  | KGlobalVpc => GlobalVpc | KSiteVpc => SiteVpc | KConfigMap => ConfigMap | KNamespace => Namespace
  | KDeployment => Deployment | KReplicaSet => ReplicaSet | KPod => ICPod | KNative _ => Native
  end.

(** The API server a client talks to: the authority, or a registered cluster. *)
Inductive store := AuthorityAPI | InfraAPI (cluster : string).
#[export] Instance store_eq_dec : EqDecision store.
Proof. solve_decision. Defined.

(** ** The adapters *)

Record Route := mkRoute { ro_CIDR : string; ro_NextHopIP : string; ro_Policy : string; ro_BFD : string }.
Record BFDState := mkBFDState { bs_Records : list BFDResourceRecord; bs_Up : list string; bs_Configured : bool }.
(** The fields of [sitegateway.Result] the controller reads. *)
Record GatewayResult := mkGatewayResult {
  gw_Ready : bool; gw_Absent : bool; gw_EndpointsEmpty : bool; gw_DesiredGateways : Z;
  gw_ReadyGatewayIDs : list string; gw_Resources : list GatewayResourceRecord }.

(** The [Network], [BFD] and [Gateway] interfaces. A site controller's adapters act on
    its own cluster. *)
Inductive adapter :=
| InspectTransit (command : list string) (name uid expected : string)
| NetworkCheck (c : Cluster)
| Mark (c : Cluster) (transit : string)
| Gateways (c : Cluster) (port : string)
| EnsureTransit (command : list string) (name uid expected : string)
| DeleteTransit (command : list string) (name uid expected : string)
| EndpointsEmpty (c : Cluster) (subnet : string)
| LocalAbsent (c : Cluster) (vpc subnet transit : string)
| Connected (c : Cluster) (transit port : string) (peers : list string)
| RoutesReady (c : Cluster) (router : string) (routes : list Route)
| GetBFD (c : Cluster) (g : GatewayConfig) (l : list BFDResourceRecord)
| EnsureBFD (c : Cluster) (g : GatewayConfig) (l : list BFDResourceRecord)
| DeleteBFD (c : Cluster) (g : GatewayConfig) (l : list BFDResourceRecord)
| BFDRouteConflicts (c : Cluster) (g : GatewayConfig) (l : list BFDResourceRecord)
| EnsureECMPFields (c : Cluster) (g : GatewayConfig) (l : list BFDResourceRecord)
| GatewayEnsure (g : GatewayConfig) (l : list GatewayResourceRecord)
| GatewayGet (g : GatewayConfig) (l : list GatewayResourceRecord)
| GatewayDelete (g : GatewayConfig) (l : list GatewayResourceRecord)
| GatewayEndpointsEmpty (g : GatewayConfig) (l : list GatewayResourceRecord).
Definition adapted (a : adapter) : Type :=
  match a with
  | InspectTransit _ _ _ _ | EnsureTransit _ _ _ _ => string
  | NetworkCheck _ | Mark _ _ | Gateways _ _ | DeleteTransit _ _ _ _ => unit
  | EndpointsEmpty _ _ | LocalAbsent _ _ _ _ | Connected _ _ _ _ | RoutesReady _ _ _ => bool
  | GetBFD _ _ _ | EnsureBFD _ _ _ => BFDState
  | DeleteBFD _ _ _ | EnsureECMPFields _ _ _ => bool
  | BFDRouteConflicts _ _ _ => gmap string bool
  | GatewayEnsure _ _ | GatewayGet _ _ | GatewayDelete _ _ | GatewayEndpointsEmpty _ _ => GatewayResult
  end.

(** ** Calls *)

Inductive op :=
| Get (s : store) (k : kind) (ns name : string)
| ListIn (s : store) (k : kind) (ns : string)
| Create (s : store) (k : kind) (o : object k)
| Update (s : store) (k : kind) (o : object k)
| UpdateStatus (s : store) (k : kind) (o : object k)
| Delete (s : store) (k : kind) (ns name : string) (p : Preconditions)
| Reserve (provider : string) (c : PrefixClaim)
| Adapter (a : adapter)
(** the use of a nil client, which ends the pass *)
| Panic.
Definition ans (o : op) : Type :=
  match o with
  | Get _ k _ _ | Create _ k _ | Update _ k _ | UpdateStatus _ k _ => res (object k)
  | ListIn _ k _ => res (list (object k))
  | Delete _ _ _ _ _ => res unit
  | Reserve _ _ => res Allocation
  | Adapter a => res (adapted a)
  | Panic => Empty_set
  end.
Notation gprog := (prog ans).
Notation ghistory := (list (event ans)).

Definition iget (s : store) (k : kind) (ns name : string) : gprog (res (object k)) := call (Get s k ns name).
Definition ilist (s : store) (k : kind) (ns : string) : gprog (res (list (object k))) := call (ListIn s k ns).
Definition icreate (s : store) (k : kind) (o : object k) : gprog (res (object k)) := call (Create s k o).
Definition iupdate (s : store) (k : kind) (o : object k) : gprog (res (object k)) := call (Update s k o).
Definition istatus (s : store) (k : kind) (o : object k) : gprog (res (object k)) := call (UpdateStatus s k o).
Definition adapt (a : adapter) : gprog (res (adapted a)) := call (Adapter a).
Definition panic {A} : gprog A := Act Panic (fun x => match x : Empty_set with end).

(** [errors.Is] of a sentinel: every sentinel has its own text. *)
Fixpoint Is (e target : error) : bool :=
  bool_decide (e = target) || match e with Wrapf _ e => Is e target | _ => false end.

(** ** Values of [unstructured] objects *)

Fixpoint member (k : string) (l : list (string * json)) : option json :=
  match l with [] => None | (k', v) :: l => if (k =? k')%string then Some v else member k l end.
Fixpoint set_member (k : string) (v : json) (l : list (string * json)) : list (string * json) :=
  match l with
  | [] => [(k, v)]
  | (k', w) :: l => if (k =? k')%string then (k, v) :: l else (k', w) :: set_member k v l
  end.
(** [reflect.DeepEqual]: the members of a map have no order. *)
Fixpoint DeepEqual (a b : json) : bool :=
  match a, b with
  | JNull, JNull => true
  | JBool x, JBool y => Bool.eqb x y
  | JNum x, JNum y => (x =? y)%string
  | JStr x, JStr y => (x =? y)%string
  | JArr x, JArr y =>
      (fix go x y := match x, y with
                     | [], [] => true
                     | a :: x, b :: y => DeepEqual a b && go x y
                     | _, _ => false
                     end) x y
  | JObj x, JObj y =>
      (List.length x =? List.length y)%nat &&
      (fix go x := match x with
                   | [] => true
                   | (k, a) :: x => match member k y with Some b => DeepEqual a b | None => false end && go x
                   end) x
  | _, _ => false
  end.
(** [unstructured.NestedMap], which tells a missing field from a mistyped one, and
    [unstructured.SetNestedMap]. *)
Class NestedFields := {
  NestedFieldMap : json -> list string -> res (option (list (string * json)));
  SetNestedMap : json -> list (string * json) -> list string -> res json }.

Definition with_Object (j : json) (o : Native) : Native := mkNative (un_APIVersion o) (un_Kind o) (un_Meta o) j.
Definition terminating (m : ObjectMeta) : bool := bool_decide (om_DeletionTimestamp m <> None).

(** ** [ResourceStore] *)

Record ResourceStore := mkStore { rs_Client : option store; rs_Config : Cluster }.
Definition ErrRecordedResourceMissing : error :=
  Errorf "recorded resource is absent; persist rediscovery intent before recreating".

Definition owned (o : Native) (owner cluster expected : string) : res unit :=
  reject negb (get (om_Labels (un_Meta o)) OwnerLabel =? owner)%string ||
         negb (get (om_Labels (un_Meta o)) ClusterLabel =? cluster)%string
    with Errorf "resource ownership conflict" ;;
  reject negb (expected =? "")%string && negb (om_UID (un_Meta o) =? expected)%string
    with Errorf "resource UID changed" ;;
  Ok tt.

Section store.
Context {UNS : Unstructured} {NEST : NestedFields}.
Variable s : ResourceStore.

Definition with_client {A} (f : store -> gprog A) : gprog A :=
  match rs_Client s with Some c => f c | None => panic end.

Definition CheckIdentity : gprog (res unit) := with_client (fun c =>
  x <- iget c KNamespace "" "kube-system" ;;
  match x with
  | Err _ => Ret (Err (Errorf "Infra identity query failed"))
  | Ok ns =>
      stop negb (om_UID (nsp_Meta (ns : Namespace)) =? cl_UID (rs_Config s))%string with Errorf "Infra cluster UID mismatch" ;;
      Ret (Ok tt)
  end).

Definition store_get (kind name : string) : gprog (res Native) := with_client (fun c => iget c (KNative kind) "" name).

(** The loop over the desired spec. *)
Definition merge_spec (current spec : list (string * json)) : list (string * json) :=
  fold_left (fun m kv => set_member (fst kv) (snd kv) m) spec current.

(** The update of an existing object. *)
Definition reconcile_spec (c : store) (desired o : Native) : gprog (res string) :=
  match NestedFieldMap (un_Object desired) ["spec"] with
  | Err e => Ret (Err e)
  | Ok spec =>
      let current := match NestedFieldMap (un_Object o) ["spec"] with Ok (Some m) => m | _ => [] end in
      match SetNestedMap (un_Object o) (merge_spec current (default [] spec)) ["spec"] with
      | Err e => Ret (Err e)
      | Ok content =>
          if DeepEqual (un_Object o) content then Ret (Ok (om_UID (un_Meta o)))
          else
            x <- iupdate c (KNative (un_Kind o)) (with_Object content o) ;;
            Ret (match x with
                 | Err _ => Err (Errorf "resource update failed; retry discovery")
                 | Ok o => Ok (om_UID (un_Meta (o : Native)))
                 end)
      end
  end.

Definition StoreEnsure (desired : Native) (expected : string) : gprog (res string) := with_client (fun c =>
  _ <-! CheckIdentity ;;
  x <- store_get (un_Kind desired) (om_Name (un_Meta desired)) ;;
  match x with
  | Err e =>
      if IsNotFound e
      then
        if negb (expected =? "")%string then Ret (Err ErrRecordedResourceMissing)
        else
          y <- icreate c (KNative (un_Kind desired)) desired ;;
          Ret (match y with
               | Err _ => Err (Errorf "resource creation failed; retry discovery")
               | Ok o => Ok (om_UID (un_Meta (o : Native)))
               end)
      else Ret (Err (Errorf "resource query failed"))
  | Ok o =>
      match owned o (get (om_Labels (un_Meta desired)) OwnerLabel) (cl_UID (rs_Config s)) expected with
      | Err e => Ret (Err e)
      | Ok _ =>
          stop terminating (un_Meta o) with Errorf "resource is terminating" ;;
          reconcile_spec c desired o
      end
  end).

Definition StoreDelete (kind name owner expected : string) : gprog (res bool) := with_client (fun c =>
  _ <-! CheckIdentity ;;
  x <- store_get kind name ;;
  match x with
  | Err e => Ret (if IsNotFound e then Ok true else Err (Errorf "resource deletion query failed"))
  | Ok o =>
      match owned o owner (cl_UID (rs_Config s)) expected with
      | Err e => Ret (Err e)
      | Ok _ =>
          if terminating (un_Meta o) then Ret (Ok false)
          else
            y <- call (Delete c (KNative (un_Kind o)) (om_Namespace (un_Meta o)) (om_Name (un_Meta o))
                         (mkPre (Some (om_UID (un_Meta o))) (Some (om_ResourceVersion (un_Meta o))))) ;;
            Ret (match (y : res unit) with
                 | Err e => if IsNotFound e then Ok false else Err (Errorf "resource deletion failed; retry discovery")
                 | Ok _ => Ok false
                 end)
      end
  end).

Definition is_string (j : option json) (v : string) : bool :=
  match j with Some (JStr s) => (s =? v)%string | _ => false end.
Definition ready_condition (c : json) : bool :=
  match c with JObj m => is_string (member "type" m) "Ready" && is_string (member "status" m) "True" | _ => false end.

Definition Ready (kind name owner expected : string) : gprog (res bool) :=
  _ <-! CheckIdentity ;;
  x <- store_get kind name ;;
  match x with
  | Err _ => Ret (Err (Errorf "resource readiness query failed"))
  | Ok o =>
      match owned o owner (cl_UID (rs_Config s)) expected with
      | Err e => Ret (Err e)
      | Ok _ =>
          if terminating (un_Meta o) then Ret (Ok false)
          else Ret (Ok (existsb ready_condition (default [] (NestedSlice (un_Object o) ["status"; "conditions"]))))
      end
  end.

(** The object with an empty list of static routes; an error of the setter is dropped. *)
Definition without_routes (o : Native) : Native :=
  with_Object (match SetNestedSlice (un_Object o) [] ["spec"; "staticRoutes"] with Ok j => j | Err _ => un_Object o end) o.
Definition WithdrawRoutes (name owner expected : string) : gprog (res unit) := with_client (fun c =>
  _ <-! CheckIdentity ;;
  x <- store_get "Vpc" name ;;
  match x with
  | Err e => Ret (if IsNotFound e then Ok tt else Err (Errorf "route withdrawal query failed"))
  | Ok o =>
      match owned o owner (cl_UID (rs_Config s)) expected with
      | Err e => Ret (Err e)
      | Ok _ =>
          match default [] (NestedSlice (un_Object o) ["spec"; "staticRoutes"]) with
          | [] => Ret (Ok tt)
          | _ =>
              y <- iupdate c (KNative (un_Kind o)) (without_routes o) ;;
              Ret (match y with Err _ => Err (Errorf "route withdrawal failed") | Ok _ => Ok tt end)
          end
      end
  end).
End store.
