(* ===== verification/InfraFacts.v ===== *)
(** * Guarded access to one cluster

    What every call of a [ResourceStore] operation is preceded by: the identity of the
    cluster was verified, and a written or deleted object was read under the owner's and
    the cluster's label and the recorded UID. The lemmas hold for every discipline [R]
    that permits calls so preceded. *)
From S2P Require Import Prelude GoStd Json Validation SiteConfig Api Prog Kube GlobalApi GlobalConfig SitePlan Infra.
Open Scope Z_scope.

Lemma wp_icall E R (o : op) h (Q : ghistory -> ans o -> Prop) :
  R h o -> (forall x, E h o x -> Q (h ++ [Ev o x]) x) -> wp E R (call o) h Q.
Proof. apply wp_act. Qed.

Ltac gstep :=
  lazymatch goal with
  | |- wp _ _ (bind_ok _ _) _ _ => apply wp_bind_ok_rule
  | |- wp _ _ (bind _ _) _ _ => apply wp_bind_rule
  | |- wp _ _ (Ret _) _ _ => apply wp_Ret
  | |- wp _ _ (iget ?s ?k ?ns ?n) _ _ => apply (wp_icall _ _ (Get s k ns n))
  | |- wp _ _ (ilist ?s ?k ?ns) _ _ => apply (wp_icall _ _ (ListIn s k ns))
  | |- wp _ _ (icreate ?s ?k ?o) _ _ => apply (wp_icall _ _ (Create s k o))
  | |- wp _ _ (iupdate ?s ?k ?o) _ _ => apply (wp_icall _ _ (Update s k o))
  | |- wp _ _ (istatus ?s ?k ?o) _ _ => apply (wp_icall _ _ (UpdateStatus s k o))
  | |- wp _ _ (adapt ?a) _ _ => apply (wp_icall _ _ (Adapter a))
  | |- wp _ _ (call ?o) _ _ => apply (wp_icall _ _ o)
  | |- wp _ _ (if ?c then _ else _) _ _ => let Ec := fresh "Ec" in destruct c eqn:Ec
  end.

(** ** Calls since an earlier point of the pass *)

(** [after h0 h o x]: the call [o], made after [h0], was answered by [x]. *)
Definition after (h0 h : ghistory) (o : op) (x : ans o) : Prop := exists t, h = h0 ++ t /\ asked t o x.
Lemma after_snoc h0 h o x : extends h0 h -> after h0 (h ++ [Ev o x]) o x.
Proof. intros [t ->]. exists (t ++ [Ev o x]). rewrite <- List.app_assoc. split; [done|apply asked_snoc]. Qed.
Lemma after_extends h0 h h' o x : extends h h' -> after h0 h o x -> after h0 h' o x.
Proof. intros [t ->] (u & -> & H). exists (u ++ t). rewrite <- List.app_assoc. split; [done|by apply asked_app]. Qed.
Lemma after_asked h0 h o x : after h0 h o x -> asked h o x.
Proof. intros (t & -> & H). unfold asked in *. rewrite in_app_iff. by right. Qed.
Lemma after_since h0 h1 h o x : extends h0 h1 -> after h1 h o x -> after h0 h o x.
Proof. intros [t ->] (u & -> & H). exists (t ++ u). rewrite <- List.app_assoc. split; [done|]. unfold asked in *. rewrite in_app_iff. by right. Qed.

Section store.
Context {UNS : Unstructured} {NEST : NestedFields}.
Context (R : ghistory -> op -> Prop) (s : ResourceStore).

(** The cluster behind the client is the registered one. *)
Definition identified (h : ghistory) : Prop :=
  exists c ns, rs_Client s = Some c /\ asked h (Get c KNamespace "" "kube-system") (Ok ns) /\
    om_UID (nsp_Meta ns) = cl_UID (rs_Config s).
(** [o] was read as the owner's object of this cluster. *)
Definition owned_read (h : ghistory) (c : store) (kind name owner expected : string) (o : Native) : Prop :=
  rs_Client s = Some c /\ identified h /\ asked h (Get c (KNative kind) "" name) (Ok o) /\
  owned o owner (cl_UID (rs_Config s)) expected = Ok tt.
(** The object was found absent. *)
Definition absent_read (h : ghistory) (c : store) (kind name : string) : Prop :=
  exists e, rs_Client s = Some c /\ identified h /\ asked h (Get c (KNative kind) "" name) (Err e) /\ IsNotFound e = true.
(** It was found absent after [h0]. *)
Definition absent_since (h0 h : ghistory) (c : store) (kind name : string) : Prop :=
  exists e, rs_Client s = Some c /\ identified h /\ after h0 h (Get c (KNative kind) "" name) (Err e) /\ IsNotFound e = true.

Lemma identified_extends h h' : extends h h' -> identified h -> identified h'.
Proof. intros HE (c & ns & ? & ? & ?). exists c, ns. eauto using asked_extends. Qed.
Lemma owned_read_extends h h' c k n ow e o : extends h h' -> owned_read h c k n ow e o -> owned_read h' c k n ow e o.
Proof. intros HE (? & ? & ? & ?). repeat split; eauto using identified_extends, asked_extends. Qed.
Lemma absent_read_extends h h' c k n : extends h h' -> absent_read h c k n -> absent_read h' c k n.
Proof. intros HE (e & ? & ? & ? & ?). exists e. repeat split; eauto using identified_extends, asked_extends. Qed.
Lemma absent_since_read h0 h c k n : absent_since h0 h c k n -> absent_read h c k n.
Proof. intros (e & ? & ? & ?%after_asked & ?). by exists e. Qed.
Lemma absent_since_extends h0 h h' c k n : extends h h' -> absent_since h0 h c k n -> absent_since h0 h' c k n.
Proof. intros HE (e & ? & ? & ? & ?). exists e. repeat split; eauto using identified_extends, after_extends. Qed.
Lemma absent_since_earlier h0 h1 h c k n : extends h0 h1 -> absent_since h1 h c k n -> absent_since h0 h c k n.
Proof. intros HE (e & ? & ? & ? & ?). exists e. repeat split; eauto using after_since. Qed.

Hypothesis R_get : forall h c k ns nm, rs_Client s = Some c -> R h (Get c k ns nm).
Hypothesis R_panic : forall h, R h Panic.

Lemma wp_with_client {A} (f : store -> gprog A) h Q :
  (forall c, rs_Client s = Some c -> wp any_answer R (f c) h Q) -> wp any_answer R (with_client s f) h Q.
Proof. intros H. unfold with_client. destruct (rs_Client s) as [c|]; [by apply H|]. split; [apply R_panic|]. intros []. Qed.

Lemma wp_CheckIdentity h (Q : ghistory -> res unit -> Prop) :
  (forall h' x, extends h h' -> (x = Ok tt -> identified h') -> Q h' x) -> wp any_answer R (CheckIdentity s) h Q.
Proof.
  intros HQ. unfold CheckIdentity. apply wp_with_client. intros c Hc. gstep. gstep; [by apply R_get|].
  intros [ns|e] _; [gstep|]; gstep; apply HQ; try apply extends_snoc; try done.
  intros _. exists c, ns. split; [done|]. split; [apply asked_snoc|]. by breflect.
Qed.

Lemma wp_store_get kind name h (Q : ghistory -> res Native -> Prop) :
  (forall c x, rs_Client s = Some c -> Q (h ++ [Ev (Get c (KNative kind) "" name) x]) x) ->
  wp any_answer R (store_get s kind name) h Q.
Proof. intros HQ. unfold store_get. apply wp_with_client. intros c Hc. gstep; [by apply R_get|]. intros x _. by apply HQ. Qed.

(** The common start of the operations: identity, then a read. *)
Lemma wp_checked_get {A} kind name (f : res Native -> gprog (res A)) h (Q : ghistory -> res A -> Prop) :
  (forall h' e, extends h h' -> Q h' (Err e)) ->
  (forall c h' x, rs_Client s = Some c -> extends h h' -> identified h' -> after h h' (Get c (KNative kind) "" name) x -> wp any_answer R (f x) h' Q) ->
  wp any_answer R (bind_ok (CheckIdentity s) (fun _ => bind (store_get s kind name) f)) h Q.
Proof.
  intros HE HF. gstep. apply wp_CheckIdentity. intros h1 [[]|e] E1 HI; [|by apply HE]. gstep. apply wp_store_get. intros c x Hc.
  apply (HF c); [done| |apply (identified_extends h1); [apply extends_snoc|by apply HI]|by apply after_snoc].
  eapply extends_trans; [exact E1|apply extends_snoc].
Qed.

Lemma wp_StoreDelete kind name owner expected h (Q : ghistory -> res bool -> Prop) :
  (forall h' c o, extends h h' -> owned_read h' c kind name owner expected o -> terminating (un_Meta o) = false ->
     R h' (Delete c (KNative (un_Kind o)) (om_Namespace (un_Meta o)) (om_Name (un_Meta o))
            (mkPre (Some (om_UID (un_Meta o))) (Some (om_ResourceVersion (un_Meta o)))))) ->
  (forall h' x, extends h h' -> (x = Ok true -> exists c, absent_since h h' c kind name) -> Q h' x) ->
  wp any_answer R (StoreDelete s kind name owner expected) h Q.
Proof.
  intros HR HQ. unfold StoreDelete. apply wp_with_client. intros c' Hc'. apply wp_checked_get; [intros; by apply HQ|].
  intros c h1 x Hc E1 HI Ha0. pose proof (after_asked _ _ _ _ Ha0) as Ha. assert (c' = c) as -> by congruence. destruct x as [o|e].
  - destruct (owned _ _ _ _) as [[]|e] eqn:Eo; [|gstep; by apply HQ]. gstep; [gstep; by apply HQ|].
    gstep. gstep; [apply HR; [done| |done]; by repeat split|]. intros x _. gstep. apply HQ; [extending|]. by destruct x as [[]|e]; [|destruct (IsNotFound e)].
  - gstep. destruct (IsNotFound e) eqn:En; apply HQ; try done. intros _. exists c, e. by repeat split.
Qed.

Lemma wp_StoreReady kind name owner expected h (Q : ghistory -> res bool -> Prop) :
  (forall h' x, extends h h' -> (x = Ok true -> exists c o, owned_read h' c kind name owner expected o /\ terminating (un_Meta o) = false /\
     existsb ready_condition (default [] (NestedSlice (un_Object o) ["status"; "conditions"])) = true) -> Q h' x) ->
  wp any_answer R (Ready s kind name owner expected) h Q.
Proof.
  intros HQ. unfold Ready. apply wp_checked_get; [intros; by apply HQ|].
  intros c h1 x Hc E1 HI Ha0. pose proof (after_asked _ _ _ _ Ha0) as Ha. destruct x as [o|e]; [|gstep; by apply HQ].
  destruct (owned _ _ _ _) as [[]|e] eqn:Eo; [|gstep; by apply HQ]. gstep; gstep; apply HQ; try done.
  intros [= Hr]. exists c, o. by repeat split.
Qed.

(** The Vpc was found absent or without static routes, or they were removed. *)
Definition unrouted (h : ghistory) (name owner : string) : Prop :=
  (exists c, absent_read h c "Vpc" name) \/
  exists c expected o, owned_read h c "Vpc" name owner expected o /\
    (default [] (NestedSlice (un_Object o) ["spec"; "staticRoutes"]) = [] \/ exists o', asked h (Update c (KNative (un_Kind o)) (without_routes o)) (Ok o')).
Lemma wp_WithdrawRoutes name owner expected h (Q : ghistory -> res unit -> Prop) :
  (forall h' c o j, extends h h' -> owned_read h' c "Vpc" name owner expected o -> R h' (Update c (KNative (un_Kind o)) (with_Object j o))) ->
  (forall h' x, extends h h' -> (x = Ok tt -> unrouted h' name owner) -> Q h' x) ->
  wp any_answer R (WithdrawRoutes s name owner expected) h Q.
Proof.
  intros HR HQ. unfold WithdrawRoutes. apply wp_with_client. intros c' Hc'. apply wp_checked_get; [intros; by apply HQ|].
  intros c h1 x Hc E1 HI Ha0. pose proof (after_asked _ _ _ _ Ha0) as Ha. assert (c' = c) as -> by congruence. destruct x as [o|e].
  - destruct (owned _ _ _ _) as [[]|e] eqn:Eo; [|gstep; by apply HQ].
    assert (owned_read h1 c "Vpc" name owner expected o) as Ho by by repeat split.
    destruct (default _ _) eqn:Er; [gstep; apply HQ; [done|]; intros _; right; exists c, expected, o; by split; [|left]|].
    gstep. gstep; [by apply HR|]. intros x _. gstep. apply HQ; [extending|]. destruct x as [o'|]; [|done]. intros _.
    right. exists c, expected, o. split; [eapply owned_read_extends; [apply extends_snoc|done]|]. right. exists o'. apply asked_snoc.
  - gstep. apply HQ; [done|]. destruct (IsNotFound e) eqn:En; [|done]. intros _. left. exists c, e. by repeat split.
Qed.

Lemma wp_StoreEnsure desired expected h (Q : ghistory -> res string -> Prop) :
  (forall h' c, extends h h' -> absent_read h' c (un_Kind desired) (om_Name (un_Meta desired)) -> expected = "" ->
     R h' (Create c (KNative (un_Kind desired)) desired)) ->
  (forall h' c o j, extends h h' ->
     owned_read h' c (un_Kind desired) (om_Name (un_Meta desired)) (get (om_Labels (un_Meta desired)) OwnerLabel) expected o ->
     terminating (un_Meta o) = false -> R h' (Update c (KNative (un_Kind o)) (with_Object j o))) ->
  (forall h' x, extends h h' -> Q h' x) ->
  wp any_answer R (StoreEnsure s desired expected) h Q.
Proof.
  intros HC HU HQ. unfold StoreEnsure. apply wp_with_client. intros c' Hc'. apply wp_checked_get; [intros; by apply HQ|].
  intros c h1 x Hc E1 HI Ha0. pose proof (after_asked _ _ _ _ Ha0) as Ha. assert (c' = c) as -> by congruence. destruct x as [o|e].
  - destruct (owned _ _ _ _) as [[]|e] eqn:Eo; [|gstep; by apply HQ]. gstep; [gstep; by apply HQ|].
    unfold reconcile_spec. destruct (NestedFieldMap _ _) as [spec|]; [|gstep; by apply HQ].
    destruct (SetNestedMap _ _ _) as [j|]; [|gstep; by apply HQ]. gstep; [gstep; by apply HQ|].
    gstep. gstep; [apply HU; [done| |done]; by repeat split|]. intros x _. gstep. apply HQ. extending.
  - gstep; [|gstep; by apply HQ]. gstep; [gstep; by apply HQ|]. breflect.
    gstep. gstep; [apply HC; [done| |done]; exists e; by repeat split|]. intros x _. gstep. apply HQ. extending.
Qed.
End store.
