(* ===== verification/Domain.v ===== *)
(** * [internal/controller/domain.go]: one topology change at a time

    The durable lock of an OVN-IC domain, a ConfigMap of the authority, and the stop
    barrier of its dedicated native IC Deployments. *)
From S2P Require Import Prelude GoStd Json Validation Api Prog Kube GlobalApi GlobalConfig GlobalPlan Infra.
Open Scope Z_scope.

Definition DomainLabel : string := "networking.globalvpc.io/domain".
Record DomainGate := mkGate { dg_Namespace : string; dg_Config : Config; dg_Stores : gmap string ResourceStore }.

Section gate.
Variable g : DomainGate.
Let domain := Domain (dg_Config g).

Definition lockName : string := ("gvpc-domain-" ++ take 16 (sha256_hex domain))%string.
Definition lock : gprog (res ConfigMap) := iget AuthorityAPI KConfigMap (dg_Namespace g) lockName.
Definition domain_owned (cm : ConfigMap) : bool := (get (om_Labels (cm_Meta cm)) DomainLabel =? domain)%string.
Definition holder_of (cm : ConfigMap) : string := get (cm_Data cm) "holder".
Definition lock_data (uid hash : string) : gmap string string := <["holder" := uid]> (<["planHash" := hash]> ∅).

Definition Holder : gprog (res string) :=
  x <- lock ;;
  Ret (match x with
       | Err e => if IsNotFound e then Ok "" else Err (Errorf "domain lock query failed")
       | Ok cm => if negb (domain_owned cm) then Err (Errorf "domain lock ownership conflict") else Ok (holder_of cm)
       end)%string.

Definition new_lock (uid hash : string) : ConfigMap :=
  mkConfigMap (newMeta lockName (dg_Namespace g) (<[DomainLabel := domain]> ∅) ∅) None (lock_data uid hash).

Definition Acquire (uid hash : string) : gprog (res bool) :=
  x <- lock ;;
  match x with
  | Err e =>
      if IsNotFound e
      then y <- icreate AuthorityAPI KConfigMap (new_lock uid hash) ;;
           Ret (match y with Err _ => Err (Errorf "domain lock creation failed") | Ok _ => Ok true end)
      else Ret (Err (Errorf "domain lock query failed"))
  | Ok cm =>
      stop negb (domain_owned cm) with Errorf "domain lock ownership conflict" ;;
      if negb (holder_of cm =? "")%string && negb (holder_of cm =? uid)%string then Ret (Ok false)
      else if (holder_of cm =? uid)%string
      then stop negb (get (cm_Data cm) "planHash" =? hash)%string with Errorf "locked domain configuration changed" ;;
           Ret (Ok true)
      else
        y <- iupdate AuthorityAPI KConfigMap (cm_with_Data (lock_data uid hash) cm) ;;
        Ret (match y with Err _ => Err (Errorf "domain lock update failed") | Ok _ => Ok true end)
  end.

Definition Release (uid : string) : gprog (res unit) :=
  x <- lock ;;
  match x with
  | Err _ => Ret (Err (Errorf "domain release query failed"))
  | Ok cm =>
      stop negb (domain_owned cm) || negb (holder_of cm =? uid)%string with Errorf "domain release ownership conflict" ;;
      y <- iupdate AuthorityAPI KConfigMap (cm_with_Data (lock_data "" "") cm) ;;
      Ret (match y with Err _ => Err (Errorf "domain release failed") | Ok _ => Ok tt end)
  end.

(** ** The stop barrier *)

Definition dedicated (c : Cluster) (dep : Deployment) : res unit :=
  reject negb (om_UID (dp_Meta dep) =? dr_UID (cl_ICDeployment c))%string ||
         negb (get (om_Labels (dp_Meta dep)) DomainLabel =? domain)%string || terminating (dp_Meta dep)
    with Errorf "native IC Deployment ownership conflict" ;;
  reject match dp_Replicas dep with None => true | Some n => (n <? 0) || (1 <? n) end
    with Errorf "native IC Deployment must have zero or one replica" ;;
  reject negb (get (dp_TemplateLabels dep) DomainLabel =? domain)%string
    with Errorf "native IC Pod template ownership conflict" ;;
  Ok tt.

Definition deployment (c : Cluster) : gprog (res (store * Deployment)) :=
  match dg_Stores g !! cl_Name c with
  | None => Ret (Err (Errorf "native IC Infra client is not configured"))
  | Some s =>
      match rs_Client s with
      | None => Ret (Err (Errorf "native IC Infra client is not configured"))
      | Some api =>
          _ <-! CheckIdentity s ;;
          x <- iget api KDeployment (dr_Namespace (cl_ICDeployment c)) (dr_Name (cl_ICDeployment c)) ;;
          match x with
          | Err _ => Ret (Err (Errorf "native IC Deployment query failed"))
          | Ok dep => Ret (match dedicated c dep with Err e => Err e | Ok _ => Ok (api, dep : Deployment) end)
          end
      end
  end.

(** The Deployments of every registered cluster, before any is changed. *)
Fixpoint deployments (l : list Cluster) : gprog (res (list (store * Deployment))) :=
  match l with
  | [] => Ret (Ok [])
  | c :: rest => d <-! deployment c ;; ds <-! deployments rest ;; Ret (Ok (d :: ds))
  end.

Definition controls (dep : Deployment) (set : ReplicaSet) : bool :=
  existsb (fun r => (or_UID r =? om_UID (dp_Meta dep))%string && bool_decide (or_Controller r = Some true))
    (om_OwnerReferences (rs_Meta set)).
(** The ReplicaSet has observed that it shall run nothing. *)
Definition drained (set : ReplicaSet) : bool :=
  bool_decide (rs_Replicas set = Some 0) && negb (rs_ObservedGeneration set <? om_Generation (rs_Meta set)).
Definition writes_on (ids : list string) (pod : ICPod) : bool :=
  existsb (fun r => bool_decide (or_UID r ∈ ids)) (om_OwnerReferences (ip_Meta pod)) &&
  negb (ip_Phase pod =? "Succeeded")%string && negb (ip_Phase pod =? "Failed")%string.
Definition observed (dep : Deployment) : bool := negb (dp_ObservedGeneration dep <? om_Generation (dp_Meta dep)).
Definition scale (n : Z) (dep : Deployment) : Deployment :=
  mkDeployment (dp_Meta dep) (Some n) (dp_TemplateLabels dep) (dp_ObservedGeneration dep) (dp_ReadyReplicas dep) (dp_UpdatedReplicas dep).

(** [*dep.Spec.Replicas != desired]: whether the Deployment had to be scaled. *)
Definition scaled (api : store) (desired : Z) (dep : Deployment) : gprog (res (bool * Deployment)) :=
  if bool_decide (dp_Replicas dep = Some desired) then Ret (Ok (true, dep))
  else
    x <- iupdate api KDeployment (scale desired dep) ;;
    Ret (match x with Err _ => Err (Errorf "native IC replica update failed") | Ok dep => Ok (false, dep : Deployment) end).
(** What is left running of a Deployment that shall be stopped. *)
Definition stopped (api : store) (dep : Deployment) : gprog (res bool) :=
  x <- ilist api KReplicaSet (om_Namespace (dp_Meta dep)) ;;
  match x with
  | Err _ => Ret (Err (Errorf "native IC ReplicaSet query failed"))
  | Ok sets =>
      let mine := List.filter (controls dep) sets in
      let ids := map (fun set => om_UID (rs_Meta set)) mine in
      y <- ilist api KPod (om_Namespace (dp_Meta dep)) ;;
      match y with
      | Err _ => Ret (Err (Errorf "native IC Pod query failed"))
      | Ok pods => Ret (Ok (observed dep && forallb drained mine && negb (existsb (writes_on ids) pods)))
      end
  end.
Definition started (dep : Deployment) : bool :=
  observed dep && (dp_ReadyReplicas dep =? 1) && (dp_UpdatedReplicas dep =? 1).

(** The loop over the clusters; [all] is the flag of the code. *)
Fixpoint pause_all (paused all : bool) (l : list (store * Deployment)) : gprog (res bool) :=
  match l with
  | [] => Ret (Ok all)
  | (api, dep) :: rest =>
      x <-! scaled api (if paused then 0 else 1) dep ;;
      let '(kept, dep) := x in
      still <-! (if paused then stopped api dep else Ret (Ok (started dep))) ;;
      pause_all paused (all && kept && still) rest
  end.

Definition SetPaused (uid : string) (paused : bool) : gprog (res bool) :=
  holder <-! Holder ;;
  stop negb (holder =? uid)%string with Errorf "domain topology lock not held" ;;
  ds <-! deployments (Clusters (dg_Config g)) ;;
  pause_all paused true ds.
End gate.
