(* ===== verification/DomainFacts.v ===== *)
(** * The domain lock and its stop barrier, one pass

    What a pass has seen when [Acquire] and [SetPaused] answer true, and what precedes
    every write of the lock or of a dedicated Deployment. *)
From S2P Require Import Prelude GoStd Json Validation Api Prog Kube GlobalApi GlobalConfig GlobalPlan SitePlan Infra InfraFacts Domain.
Open Scope Z_scope.

Section gate.
Context (R : ghistory -> op -> Prop) (g : DomainGate).
Notation read_lock h cm := (asked h (Get AuthorityAPI KConfigMap (dg_Namespace g) (lockName g)) (Ok (cm : ConfigMap))).
Let members := Clusters (dg_Config g).

(** [uid] holds the domain lock for the plan [hash]. *)
Definition held (uid hash : string) (h : ghistory) : Prop :=
  (exists cm, read_lock h cm /\ domain_owned g cm = true /\ holder_of cm = uid /\ get (cm_Data cm) "planHash" = hash) \/
  (exists cm cm', read_lock h cm /\ domain_owned g cm = true /\ holder_of cm = "" /\
     asked h (Update AuthorityAPI KConfigMap (cm_with_Data (lock_data uid hash) cm)) (Ok cm')) \/
  (exists e cm', asked h (Get AuthorityAPI KConfigMap (dg_Namespace g) (lockName g)) (Err e) /\ IsNotFound e = true /\
     asked h (Create AuthorityAPI KConfigMap (new_lock g uid hash)) (Ok cm')).
(** [uid] was read as the holder; the empty holder is a free lock. *)
Definition holding (uid : string) (h : ghistory) : Prop :=
  (exists cm, read_lock h cm /\ domain_owned g cm = true /\ holder_of cm = uid) \/
  (uid = "" /\ exists e, asked h (Get AuthorityAPI KConfigMap (dg_Namespace g) (lockName g)) (Err e) /\ IsNotFound e = true).
(** A UID was read as the holder of the domain's own lock. *)
Definition locked_by (uid : string) (h : ghistory) : Prop :=
  uid <> "" /\ exists cm, read_lock h cm /\ domain_owned g cm = true /\ holder_of cm = uid.

(** The dedicated Deployment of [c], read after [h0] under its registered identity. *)
Definition fetched (h0 h : ghistory) (c : Cluster) (d : store * Deployment) : Prop :=
  exists s, dg_Stores g !! cl_Name c = Some s /\ rs_Client s = Some (fst d) /\ identified s h /\
    after h0 h (Get (fst d) KDeployment (dr_Namespace (cl_ICDeployment c)) (dr_Name (cl_ICDeployment c))) (Ok (snd d)) /\
    dedicated g c (snd d) = Ok tt.
(** Nothing of the Deployment can still write: it asks for no replica and knows it, no
    ReplicaSet it controls asks for one, and no Pod of those is left running. *)
Definition halted (h0 h : ghistory) (d : store * Deployment) : Prop :=
  dp_Replicas (snd d) = Some 0 /\ observed (snd d) = true /\
  exists sets pods,
    after h0 h (ListIn (fst d) KReplicaSet (om_Namespace (dp_Meta (snd d)))) (Ok sets) /\
    after h0 h (ListIn (fst d) KPod (om_Namespace (dp_Meta (snd d)))) (Ok pods) /\
    (forall set, In set sets -> controls (snd d) set = true -> drained set = true) /\
    (forall set pod, In set sets -> controls (snd d) set = true -> In pod pods -> writes_on [om_UID (rs_Meta set)] pod = false).
Definition quiet (h0 h : ghistory) (c : Cluster) : Prop := exists d, fetched h0 h c d /\ halted h0 h d.
Definition running (h0 h : ghistory) (c : Cluster) : Prop :=
  exists d, fetched h0 h c d /\ dp_Replicas (snd d) = Some 1 /\ started (snd d) = true.

(** The topology of the domain may be changed for [uid]: it held the lock, and since
    then every cluster's native IC writers were seen stopped. *)
Definition fenced (uid hash : string) (h : ghistory) : Prop :=
  exists h0, extends h0 h /\ held uid hash h0 /\ forall c, In c members -> quiet h0 h c.
(** The domain was seen running again after [uid] was read as the holder. *)
Definition resumed (uid : string) (h : ghistory) : Prop :=
  exists h0, extends h0 h /\ holding uid h0 /\ forall c, In c members -> running h0 h c.

(** What a write of a Deployment for [uid] is preceded by: the lock, read with that holder,
    and the identity of the dedicated Deployment of every cluster of the domain. *)
Definition may_scale (uid : string) (h : ghistory) (api : store) (dep' : Deployment) : Prop :=
  holding uid h /\ exists c dep n, In c members /\ fetched [] h c (api, dep) /\ dep' = scale n dep /\ (n = 0 \/ n = 1) /\
    forall c', In c' members -> exists d, fetched [] h c' d.
(** Writes of the lock: it is taken when it was read free or found absent, and returned
    by its holder after the domain was resumed. *)
Definition may_take (uid hash : string) (h : ghistory) (o : op) : Prop :=
  match o with
  | Create AuthorityAPI KConfigMap cm => exists e,
      asked h (Get AuthorityAPI KConfigMap (dg_Namespace g) (lockName g)) (Err e) /\ IsNotFound e = true /\ cm = new_lock g uid hash
  | Update AuthorityAPI KConfigMap cm' => exists cm, read_lock h cm /\ domain_owned g cm = true /\ holder_of cm = "" /\
      cm' = cm_with_Data (lock_data uid hash) cm
  | _ => False
  end.
Definition may_return (uid : string) (h : ghistory) (o : op) : Prop :=
  match o with
  | Update AuthorityAPI KConfigMap cm' => exists cm, read_lock h cm /\ domain_owned g cm = true /\ holder_of cm = uid /\
      resumed uid h /\ cm' = cm_with_Data (lock_data "" "") cm
  | _ => False
  end.

Lemma lock_held_extends uid hash h h' : extends h h' -> held uid hash h -> held uid hash h'.
Proof.
  intros HE [(cm & H1 & H2)|[(cm & cm' & H1 & H2 & H3 & H4)|(e & cm' & H1 & H2 & H3)]].
  - left. exists cm. split; [exact (asked_extends _ _ _ _ HE H1)|exact H2].
  - right. left. exists cm, cm'. split; [exact (asked_extends _ _ _ _ HE H1)|]. do 2 (split; [done|]). exact (asked_extends _ _ _ _ HE H4).
  - right. right. exists e, cm'. split; [exact (asked_extends _ _ _ _ HE H1)|]. split; [done|]. exact (asked_extends _ _ _ _ HE H3).
Qed.
Lemma holding_extends uid h h' : extends h h' -> holding uid h -> holding uid h'.
Proof. intros HE [(cm & ? & ? & ?)|(? & e & ? & ?)]; [left; exists cm|right; split; [done|]; exists e]; eauto using asked_extends. Qed.
Lemma holding_locked uid h : uid <> "" -> holding uid h -> locked_by uid h.
Proof. intros Hn [H|[-> _]]; [by split|done]. Qed.
Lemma fetched_extends h0 h h' c d : extends h h' -> fetched h0 h c d -> fetched h0 h' c d.
Proof. intros HE (s & ? & ? & ? & ? & ?). exists s. repeat split; eauto using identified_extends, after_extends. Qed.
Lemma halted_extends h0 h h' d : extends h h' -> halted h0 h d -> halted h0 h' d.
Proof. intros HE (? & ? & sets & pods & ? & ? & ? & ?). do 2 (split; [done|]). exists sets, pods. repeat split; eauto using after_extends. Qed.
Lemma quiet_extends h0 h h' c : extends h h' -> quiet h0 h c -> quiet h0 h' c.
Proof. intros HE (d & ? & ?). exists d. eauto using fetched_extends, halted_extends. Qed.
Lemma running_extends h0 h h' c : extends h h' -> running h0 h c -> running h0 h' c.
Proof. intros HE (d & ? & ?). exists d. eauto using fetched_extends. Qed.
Lemma fenced_extends uid hash h h' : extends h h' -> fenced uid hash h -> fenced uid hash h'.
Proof. intros HE (h0 & ? & ? & ?). exists h0. split; [by eapply extends_trans|]. split; [done|]. eauto using quiet_extends. Qed.
Lemma resumed_extends uid h h' : extends h h' -> resumed uid h -> resumed uid h'.
Proof. intros HE (h0 & ? & ? & ?). exists h0. split; [by eapply extends_trans|]. split; [done|]. eauto using running_extends. Qed.
Lemma quiet_earlier h0 h1 h c : extends h0 h1 -> quiet h1 h c -> quiet h0 h c.
Proof.
  intros HE (d & (s & ? & ? & ? & ? & ?) & (? & ? & sets & pods & ? & ? & ? & ?)). exists d. split.
  - exists s. repeat split; eauto using after_since.
  - do 2 (split; [done|]). exists sets, pods. repeat split; eauto using after_since.
Qed.
Lemma fetched_since h0 h c d : fetched h0 h c d -> fetched [] h c d.
Proof. intros (s & ? & ? & ? & (t & -> & ?) & ?). exists s. repeat split; try done. exists (h0 ++ t). split; [done|]. unfold asked in *. rewrite in_app_iff. by right. Qed.

Hypothesis R_get : forall h s k ns nm, R h (Get s k ns nm).
Hypothesis R_list : forall h s k ns, R h (ListIn s k ns).
Hypothesis R_panic : forall h, R h Panic.

Lemma wp_Holder h (Q : ghistory -> res string -> Prop) :
  (forall h' x, extends h h' -> (forall uid, x = Ok uid -> holding uid h') -> Q h' x) -> wp any_answer R (Holder g) h Q.
Proof.
  intros HQ. unfold Holder, lock. gstep. gstep; [apply R_get|]. intros x _. gstep. apply HQ; [apply extends_snoc|]. intros uid.
  destruct x as [cm|e].
  - destruct (domain_owned g cm) eqn:Eo; [|done]. intros [= <-]. left. exists cm. split; [apply asked_snoc|done].
  - destruct (IsNotFound e) eqn:En; [|done]. intros [= <-]. right. split; [done|]. exists e. split; [apply asked_snoc|done].
Qed.

Lemma wp_Acquire uid hash h (Q : ghistory -> res bool -> Prop) :
  (forall h' o, extends h h' -> may_take uid hash h' o -> R h' o) ->
  (forall h' x, extends h h' -> (x = Ok true -> held uid hash h') -> Q h' x) -> wp any_answer R (Acquire g uid hash) h Q.
Proof.
  intros R_lock HQ. unfold Acquire, lock. gstep. gstep; [apply R_get|]. set (rd := Get _ _ _ _). intros [cm|e] _.
  - gstep; [gstep; apply HQ; [apply extends_snoc|done]|]. breflect. gstep; [gstep; apply HQ; [apply extends_snoc|done]|].
    gstep.
    + gstep; [gstep; apply HQ; [apply extends_snoc|done]|]. gstep. apply HQ; [apply extends_snoc|]. intros _. left. exists cm. breflect.
      split; [apply asked_snoc|done].
    + assert (holder_of cm = "") as Eh by (apply andb_false_iff in Ec0 as [?|?]; breflect; done).
      gstep. gstep; [apply R_lock; [apply extends_snoc|]; exists cm; by split; [apply asked_snoc|]|].
      intros [cm'|e] _; gstep; (apply HQ; [extending|]); [|done]. intros _. right. left. exists cm, cm'.
      split; [apply asked_app, asked_snoc|]. do 2 (split; [done|]). apply asked_snoc.
  - destruct (IsNotFound e) eqn:En; [|gstep; apply HQ; [apply extends_snoc|done]].
    gstep. gstep; [apply R_lock; [apply extends_snoc|]; exists e; by split; [apply asked_snoc|]|].
    intros [cm'|e'] _; gstep; (apply HQ; [extending|]); [|done]. intros _. right. right. exists e, cm'.
    split; [apply asked_app, asked_snoc|]. split; [done|]. apply asked_snoc.
Qed.

Lemma wp_Release uid h (Q : ghistory -> res unit -> Prop) : resumed uid h ->
  (forall h' o, extends h h' -> may_return uid h' o -> R h' o) ->
  (forall h' x, extends h h' -> Q h' x) -> wp any_answer R (Release g uid) h Q.
Proof.
  intros HR R_lock HQ. unfold Release, lock. gstep. gstep; [apply R_get|]. intros [cm|e] _; [|gstep; apply HQ, extends_snoc].
  gstep; [gstep; apply HQ, extends_snoc|]. breflect. gstep.
  gstep; [apply R_lock; [apply extends_snoc|]; exists cm; split; [apply asked_snoc|]; do 2 (split; [done|]); split; [|done];
          eapply resumed_extends; [apply extends_snoc|done]|].
  intros x _. gstep. apply HQ. extending.
Qed.

(** ** The barrier *)

Lemma wp_deployment h0 c h (Q : ghistory -> res (store * Deployment) -> Prop) : extends h0 h ->
  (forall h' x, extends h h' -> (forall d, x = Ok d -> fetched h0 h' c d) -> Q h' x) -> wp any_answer R (deployment g c) h Q.
Proof.
  intros E0 HQ. unfold deployment. destruct (dg_Stores g !! cl_Name c) as [s|] eqn:Es; [|gstep; by apply HQ; [apply extends_refl|]].
  destruct (rs_Client s) as [api|] eqn:Ea; [|gstep; by apply HQ; [apply extends_refl|]].
  gstep. apply wp_CheckIdentity; [auto..|]. intros h1 [[]|e] E1 HI; [|by apply HQ]. gstep. gstep; [apply R_get|].
  intros [dep|e] _; gstep; (apply HQ; [extending|]); [|done]. intros d. destruct (dedicated g c dep) as [[]|] eqn:Ed; [|done].
  intros [= <-]. exists s. do 2 (split; [done|]). split; [apply (identified_extends _ h1); [apply extends_snoc|by apply HI]|].
  split; [|done]. apply after_snoc. by eapply extends_trans.
Qed.

Lemma wp_deployments h0 l h (Q : ghistory -> res (list (store * Deployment)) -> Prop) : extends h0 h ->
  (forall h' x, extends h h' -> (forall ds, x = Ok ds -> Forall2 (fetched h0 h') l ds) -> Q h' x) -> wp any_answer R (deployments g l) h Q.
Proof.
  revert h Q. induction l as [|c l IH]; intros h Q E0 HQ; cbn [deployments].
  { gstep. apply HQ; [apply extends_refl|]. intros ds [= <-]. constructor. }
  gstep. apply (wp_deployment h0); [done|]. intros h1 [d|e] E1 Hd; [|by apply HQ]. gstep.
  apply IH; [by eapply extends_trans|]. intros h2 [ds|e] E2 Hds; [|apply HQ; [by eapply extends_trans|done]].
  gstep. apply HQ; [by eapply extends_trans|]. intros ds' [= <-]. constructor; [|by apply Hds].
  eapply fetched_extends; [exact E2|]. by apply Hd.
Qed.

Lemma wp_stopped h0 api dep h (Q : ghistory -> res bool -> Prop) : extends h0 h -> 
  (forall h' x, extends h h' -> (x = Ok true -> dp_Replicas dep = Some 0 -> halted h0 h' (api, dep)) -> Q h' x) -> wp any_answer R (stopped api dep) h Q.
Proof.
  intros E0 HQ. unfold stopped. gstep. gstep; [apply R_list|]. intros [sets|e] _; [|gstep; apply HQ; [apply extends_snoc|done]].
  gstep. gstep; [apply R_list|]. intros [pods|e] _; gstep; (apply HQ; [extending|]); [|done].
  intros [= [[Ho Hd]%andb_prop Hp]%andb_prop] Hz. breflect. split; [done|]. split; [done|]. exists sets, pods.
  split; [eapply after_extends; [apply extends_snoc|]; by apply after_snoc|].
  split; [apply after_snoc; extending|]. rewrite forallb_forall in Hd. split.
  - intros set Hs Hc. apply Hd. apply filter_In. done.
  - intros set pod Hs Hc Hpod. pose proof (existsb_forall _ _ Hp pod Hpod) as Hf. apply not_true_is_false. unfold writes_on in *.
    intros [[(rf & Hrf & Hin%bool_decide_eq_true)%existsb_exists H1]%andb_prop H2]%andb_prop. rewrite H1, H2, !andb_true_r in Hf.
    pose proof (existsb_forall _ _ Hf rf Hrf) as Hn. apply bool_decide_eq_false in Hn. apply Hn.
    apply list_elem_of_singleton in Hin as ->. apply list_elem_of_In, in_map_iff. exists set. split; [done|]. by apply filter_In.
Qed.

(** The loop of [SetPaused] over Deployments that were fetched. *)
Lemma wp_pause_all h0 uid (paused all : bool) ds h (Q : ghistory -> res bool -> Prop) : extends h0 h -> holding uid h ->
  (forall h' api dep, extends h0 h' -> may_scale uid h' api dep -> R h' (Update api KDeployment dep)) ->
  (forall c, In c members -> exists d, fetched [] h c d) ->
  (forall d, In d ds -> exists c, In c members /\ fetched h0 h c d) ->
  (forall h' x, extends h h' ->
     (x = Ok true -> all = true /\ forall d, In d ds ->
        if paused then halted h0 h' d else dp_Replicas (snd d) = Some 1 /\ started (snd d) = true) -> Q h' x) ->
  wp any_answer R (pause_all paused all ds) h Q.
Proof.
  intros E0 HH R_scale HA. revert all h E0 HH HA Q. induction ds as [|[api dep] ds IH]; intros all h E0 HH HA Q HD HQ; cbn [pause_all].
  { gstep. apply HQ; [apply extends_refl|]. intros [= ->]. by split. }
  assert (forall h' x, extends h h' -> (x = Ok true -> False) -> Q h' x) as HQf by (intros h' x Hx Hf; apply HQ; [done|]; by intros ?%Hf).
  set (n := if paused then 0 else 1). gstep. unfold scaled. fold n.
  assert (forall h1 (kept : bool) dep', extends h h1 -> (kept = true -> dp_Replicas dep = Some n /\ dep' = dep) ->
    wp any_answer R (bind_ok (if paused then stopped api dep' else Ret (Ok (started dep'))) (fun still => pause_all paused (all && kept && still) ds)) h1 Q) as HG.
  { intros h1 kept dep' E1 Hk. gstep.
    assert (forall h2 (still : bool), extends h1 h2 -> (still = true -> kept = true ->
       if paused then halted h0 h2 (api, dep) else dp_Replicas dep = Some 1 /\ started dep = true) ->
      wp any_answer R (pause_all paused (all && kept && still) ds) h2 Q) as HN.
    { intros h2 still E2 Hs. assert (extends h h2) as E by by eapply extends_trans. apply IH.
      - by eapply extends_trans.
      - by eapply holding_extends.
      - intros c Hc. destruct (HA c Hc) as [d Hd]. exists d. by eapply fetched_extends.
      - intros d Hd. destruct (HD d) as (c & Hc & Hf); [by right|]. exists c. split; [done|]. by eapply fetched_extends.
      - intros h3 x E3 Hx. apply HQ; [by eapply extends_trans|]. intros Ex. destruct (Hx Ex) as [[[-> Ek]%andb_prop Es]%andb_prop Hds].
        split; [done|]. intros d [<-|Hd]; [|by apply Hds]. specialize (Hs Es Ek). destruct paused; [|done]. by eapply halted_extends. }
    destruct paused eqn:Ep.
    - apply (wp_stopped h0); [by eapply extends_trans|]. intros h2 [still|e] E2 Hs; [|apply HQf; [by eapply extends_trans|done]].
      apply HN; [done|]. intros -> Ek. destruct (Hk Ek) as [Hz ->]. by apply Hs.
    - gstep. apply HN; [apply extends_refl|]. intros Hs Ek. destruct (Hk Ek) as [Hz ->]. done. }
  case_bool_decide as Er.
  - gstep. apply HG; [apply extends_refl|]. done.
  - gstep. gstep.
    + apply R_scale; [done|]. destruct (HD (api, dep)) as (c & Hc & Hf); [by left|]. split; [done|]. exists c, dep, n. split; [done|].
      split; [by eapply fetched_since|]. split; [done|]. split; [unfold n; destruct paused; auto|done].
    + intros [dep'|e] _; gstep; [|apply HQf; [apply extends_snoc|done]]. apply HG; [apply extends_snoc|done].
Qed.

Lemma wp_SetPaused uid (paused : bool) h (Q : ghistory -> res bool -> Prop) :
  (forall h' api dep, extends h h' -> may_scale uid h' api dep -> R h' (Update api KDeployment dep)) ->
  (forall h' x, extends h h' -> (x = Ok true -> exists h0, extends h h0 /\ extends h0 h' /\ holding uid h0 /\
     forall c, In c members -> if paused then quiet h0 h' c else running h0 h' c) -> Q h' x) ->
  wp any_answer R (SetPaused g uid paused) h Q.
Proof.
  intros R_scale HQ. unfold SetPaused. gstep. apply wp_Holder. intros h1 [holder|e] E1 Hh; [|by apply HQ].
  gstep; [gstep; by apply HQ|]. breflect. subst holder. specialize (Hh uid eq_refl).
  gstep. apply (wp_deployments h1); [apply extends_refl|]. intros h2 [ds|e] E2 HF; [|apply HQ; [by eapply extends_trans|done]].
  specialize (HF ds eq_refl). apply (wp_pause_all h1 uid); [done|exact (holding_extends uid h1 h2 E2 Hh)| | | |].
  - intros h' api dep E. apply R_scale. by eapply extends_trans.
  - intros c Hc. destruct (Forall2_in_l _ _ _ _ HF Hc) as (d & _ & Hd). exists d. by eapply fetched_since.
  - intros d Hd. destruct (Forall2_in_r _ _ _ _ HF Hd) as (c & Hc & Hf). by exists c.
  - intros h3 x E3 Hx. apply HQ; [extending|]. intros Ex. destruct (Hx Ex) as [_ Hds]. exists h1.
    split; [done|]. split; [by eapply extends_trans|]. split; [done|].
    intros c Hc. destruct (Forall2_in_l _ _ _ _ HF Hc) as (d & Hd & Hf). specialize (Hds d Hd).
    destruct paused; exists d; (split; [by eapply fetched_extends|done]).
Qed.
End gate.
