(* ===== verification/GlobalReconciler.v ===== *)
(** * [internal/controller/reconciler.go]: one GlobalVpc over a whole OVN-IC domain

    One pass of the authority's controller. The handler mutates its copy of the
    GlobalVpc in memory and writes its status at the points the code does; the copy
    is replaced by what the API server answers. *)
From S2P Require Import Prelude GoStd Json Validation Api Prog Kube Phases GlobalApi GlobalConfig GlobalPlan Infra Domain.
Open Scope Z_scope.

Record Reconciler := mkReconciler {
  re_Config : Config; re_Stores : gmap string ResourceStore; re_Providers : list string; re_Gate : DomainGate; re_Interval : Z }.

(** ** Records of the status *)

Definition is_record (cluster kind name : string) (x : ResourceRecord) : bool :=
  (rc_ClusterRef x =? cluster)%string && (rc_Kind x =? kind)%string && (rc_Name x =? name)%string.
Definition recorded (v : GlobalVpc) (cluster kind name : string) : string :=
  match List.find (is_record cluster kind name) (gt_Resources (gv_Status v)) with Some x => rc_UID x | None => "" end.
(** The records with the UID in the first matching entry, or appended; whether they changed. *)
Fixpoint record_uid (cluster kind name uid : string) (l : list ResourceRecord) : list ResourceRecord * bool :=
  match l with
  | [] => ([mkResource cluster kind name uid], true)
  | x :: rest =>
      if is_record cluster kind name x
      then if (rc_UID x =? uid)%string then (x :: rest, false)
           else (mkResource (rc_ClusterRef x) (rc_Kind x) (rc_Name x) uid :: rest, true)
      else let '(rest', changed) := record_uid cluster kind name uid rest in (x :: rest', changed)
  end.

(** [ovn.ErrTransitMissing] *)
Definition ErrTransitMissing : error := Errorf "previous transit switch is missing; refusing replacement".

Section reconciler.
Context {VAL : Validation} {MACH : Machinery} {UNS : Unstructured} {NEST : NestedFields}.
Variable r : Reconciler.
Let g := re_Gate r.
Let icnb := ICNBCommand (re_Config r).

Notation gphase := (phase ans GlobalVpc).
Definition interval : Z := if re_Interval r <=? 0 then 10 * second else re_Interval r.
Definition later : Result := mkResult interval.

Definition save : gphase (res unit) := fun v =>
  bind (istatus AuthorityAPI KGlobalVpc v) (fun x => Ret (match x with Ok v' => (Ok tt, v' : GlobalVpc) | Err e => (Err e, v) end)).
Definition update : gphase (res unit) := fun v =>
  bind (iupdate AuthorityAPI KGlobalVpc v) (fun x => Ret (match x with Ok v' => (Ok tt, v' : GlobalVpc) | Err e => (Err e, v) end)).
Definition set_status (f : GlobalVpcStatus -> GlobalVpcStatus) : gphase unit :=
  modify (fun v => gv_with_Status (f (gv_Status v)) v).
(** [return result, <write>] *)
Definition end_with {A} (result : Result) (p : gphase (res unit)) : gphase (flow A) :=
  x <- p ;;p pret (Return (match x with Ok _ => Ok result | Err e => Err e end)).

Definition state {A} (phase reason message : string) (ready : bool) : gphase (flow A) := current (fun v =>
  let t := gv_Status v in
  let gen := om_Generation (gv_Meta v) in
  let conditions := SetStatusCondition (gt_Conditions t)
                      (mkCondition "Ready" (if ready then "True" else "False") reason message gen 0) in
  let new := mkGlobalStatus gen phase (gt_Operation t) (gt_PlanHash t) (gt_Allocations t) (gt_Resources t)
               (gt_TransitSwitchUID t) (gt_Attachments t) conditions in
  _ <- set_status (fun _ => new) ;;p
  if bool_decide (t = new) then pret (Return (Ok later)) else end_with later save).
Definition failure {A} (e : error) : gphase (flow A) := state "Blocked" "ReconcileBlocked" (error_text e) false.
(** [if err != nil { return r.failure(ctx, &v, err) }] *)
Definition attempt {A} (p : gprog (res A)) : gphase (flow A) := or_else failure (lift p).
Definition saved : gphase (flow unit) := or_return save.

(** ** [resume] *)

Definition resume (deleting : bool) : gphase (flow Result) := current (fun v =>
  holder <~ attempt (Holder g) ;;p
  _ <~ (if (holder =? "")%string then pret (Continue tt)
        else
          ready <~ attempt (SetPaused g (om_UID (gv_Meta v)) false) ;;p
          if negb ready then state "Pending" "ResumingIC" "Waiting for dedicated native IC Deployments to resume" false
          else attempt (Release g (om_UID (gv_Meta v)))) ;;p
  if deleting
  then _ <- modify (gv_with_Meta (fun m => RemoveFinalizer m Finalizer)) ;;p end_with (mkResult 0) update
  else
    _ <- set_status (gt_with_Operation "") ;;p
    _ <~ saved ;;p
    state "Pending" "InterconnectPending" "Native IC resumed; waiting for topology convergence" false).
(** Persists that the domain has to be resumed, and resumes it. *)
Definition save_and_resume (operation : string) (deleting : bool) : gphase (flow Result) :=
  _ <- set_status (gt_with_Operation operation) ;;p
  _ <~ saved ;;p
  resume deleting.

(** ** Resources of the clusters *)

Definition store_of (s : Site) : ResourceStore := default (mkStore None zeroCluster) (re_Stores r !! cl_Name (si_Cluster s)).
Definition resources_of (s : Site) : list Native := [si_Vpc s; si_Subnet s; si_Transit s].
Definition recorded_uid (v : GlobalVpc) (s : Site) (o : Native) : string :=
  recorded v (cl_Name (si_Cluster s)) (un_Kind o) (om_Name (un_Meta o)).
Definition set_record (s : Site) (o : Native) (uid : string) : gphase bool := fun v =>
  let x := record_uid (cl_Name (si_Cluster s)) (un_Kind o) (om_Name (un_Meta o)) uid (gt_Resources (gv_Status v)) in
  Ret (snd x, gv_with_Status (gt_with_Resources (fst x) (gv_Status v)) v).

(** One resource of the preflight. *)
Definition preflight_resource (p : Plan) (s : Site) (o : Native) : gphase (flow unit) := current (fun v =>
  x <- lift (store_get (store_of s) (un_Kind o) (om_Name (un_Meta o))) ;;p
  match x with
  | Err e => if IsNotFound e then pret (Continue tt) else failure (Errorf "owned resource preflight query failed")
  | Ok current =>
      match owned current (pl_UID p) (cl_UID (si_Cluster s)) (recorded_uid v s o) with
      | Err e => failure e
      | Ok _ => pret (Continue tt)
      end
  end).
Definition preflight (p : Plan) (s : Site) : gphase (flow unit) :=
  match re_Stores r !! cl_Name (si_Cluster s) with
  | None => failure (Errorf "Infra client is not configured")
  | Some store =>
      _ <~ attempt (CheckIdentity store) ;;p
      peach (preflight_resource p s) (resources_of s)
  end.

Definition ensure_resource (s : Site) (o : Native) : gphase (flow unit) := current (fun v =>
  x <- lift (StoreEnsure (store_of s) o (recorded_uid v s o)) ;;p
  match x with
  | Err e =>
      if Is e ErrRecordedResourceMissing
      then
        _ <- set_record s o "" ;;p
        _ <~ saved ;;p
        state "Pending" "ResourceRecreationPending" "Recorded resource absence persisted; recreating on the next pass" false
      else failure e
  | Ok uid =>
      changed <- set_record s o uid ;;p
      if changed : bool then saved else pret (Continue tt)
  end).

Definition subnet_names (s : Site) : list string := [si_SubnetName s; si_TransitName s].
Definition ready_subnet (p : Plan) (s : Site) (name : string) : gphase (flow unit) := current (fun v =>
  ready <~ attempt (Ready (store_of s) "Subnet" name (pl_UID p) (recorded v (cl_Name (si_Cluster s)) "Subnet" name)) ;;p
  if negb ready then state "Pending" "LocalNetworkPending" "Waiting for Kube-OVN Subnets" false else pret (Continue tt)).

(** ** Address claims *)

Definition receipt_ok (claim : PrefixClaim) (a : Allocation) : bool :=
  bool_decide (al_Claim a = claim) && negb (al_AllocationID a =? "")%string && (al_ReleasePolicy a =? "Retain")%string.
Definition reserve_claim (claim : PrefixClaim) : gphase (flow unit) := current (fun v =>
  match List.find (fun a => (pc_ClaimUID (al_Claim a) =? pc_ClaimUID claim)%string) (gt_Allocations (gv_Status v)) with
  | Some a =>
      if negb (receipt_ok claim a)
      then failure (Errorf "persisted IPAM receipt does not match the accepted claim") else pret (Continue tt)
  | None =>
      let provider := ip_ProviderRef (gs_IPAM (gv_Spec v)) in
      if negb (existsb (String.eqb provider) (re_Providers r)) then failure (Errorf "IPAM provider is not configured")
      else
        a <~ attempt (call (Reserve provider claim)) ;;p
        if negb (receipt_ok claim a) then failure (Errorf "IPAM receipt does not match the accepted claim")
        else
          _ <- set_status (fun t => gt_with_Allocations (gt_Allocations t ++ [a]) t) ;;p
          saved
  end).

(** ** Topology *)

Definition port_of (p : Plan) (s : Site) : string := (si_VpcName s ++ "-" ++ pl_TransitSwitch p)%string.
Definition remote_sites (p : Plan) (s : Site) : list Site :=
  List.filter (fun other => negb (cl_Name (si_Cluster other) =? cl_Name (si_Cluster s))%string) (pl_Attachments p).

(** The branch of [Reconcile] that creates the transit: lock, stop barrier, topology. *)
Definition bootstrap (p : Plan) : gphase (flow Result) :=
  locked <~ attempt (Acquire g (pl_UID p) (pl_Hash p)) ;;p
  if negb locked then state "Pending" "DomainBusy" "Waiting for domain topology lock" false
  else
    paused <~ attempt (SetPaused g (pl_UID p) true) ;;p
    if negb paused then state "Pending" "QuiescingIC" "Waiting for all dedicated native IC processes to stop" false
    else
      _ <~ peach (fun s => attempt (adapt (Mark (si_Cluster s) (pl_TransitSwitch p)))) (pl_Attachments p) ;;p
      current (fun v =>
        x <- lift (adapt (EnsureTransit icnb (pl_TransitSwitch p) (pl_UID p) (gt_TransitSwitchUID (gv_Status v)))) ;;p
        match x with
        | Err e =>
            if Is e ErrTransitMissing
            then
              _ <- set_status (gt_with_Transit "") ;;p
              _ <~ saved ;;p
              state "Pending" "TransitRecreationPending" "Transit absence persisted; recreating while native IC remains paused" false
            else failure e
        | Ok uid =>
            _ <- set_status (gt_with_Transit uid) ;;p
            _ <~ peach (fun s => attempt (adapt (Gateways (si_Cluster s) (port_of p s)))) (pl_Attachments p) ;;p
            save_and_resume "Resume" false
        end).

Definition converge_site (p : Plan) (s : Site) : gphase (flow unit) :=
  _ <~ attempt (adapt (Mark (si_Cluster s) (pl_TransitSwitch p))) ;;p
  _ <~ attempt (adapt (Gateways (si_Cluster s) (port_of p s))) ;;p
  ready <~ attempt (adapt (Connected (si_Cluster s) (pl_TransitSwitch p) (port_of p s) (map (port_of p) (remote_sites p s)))) ;;p
  if negb ready then state "Pending" "InterconnectPending" "Waiting for native IC tunnel keys and remote ports" false
  else
    let routes := map (fun o => mkRoute (at_CIDR (si_Intent o)) (at_TransitIP (si_Intent o)) "" "") (remote_sites p s) in
    ready <~ attempt (adapt (RoutesReady (si_Cluster s) (si_VpcName s) routes)) ;;p
    if negb ready then state "Pending" "RoutesPending" "Waiting for Kube-OVN static route convergence" false
    else pret (Continue tt).
Definition converge (p : Plan) : gphase (flow Result) :=
  _ <~ peach (converge_site p) (pl_Attachments p) ;;p
  state "Ready" "ConfigurationConverged" "Subnets report Ready; transit ports and static routes converged; dataplane probes are separate" true.

(** Whether the transit has to be created under the lock. *)
Definition needs_bootstrap (p : Plan) (holder : string) : gphase (flow bool) := current (fun v =>
  if (gt_TransitSwitchUID (gv_Status v) =? "")%string || (holder =? pl_UID p)%string then pret (Continue true)
  else
    x <- lift (adapt (EnsureTransit icnb (pl_TransitSwitch p) (pl_UID p) (gt_TransitSwitchUID (gv_Status v)))) ;;p
    match x with
    | Ok _ => pret (Continue false)
    | Err e => if Is e ErrTransitMissing then pret (Continue true) else failure e
    end).

Definition apply (p : Plan) (holder : string) : gphase (flow Result) :=
  _ <~ peach (fun s => attempt (adapt (NetworkCheck (si_Cluster s)))) (pl_Attachments p) ;;p
  _ <~ peach reserve_claim (pl_Claims p) ;;p
  _ <~ peach (fun s => peach (ensure_resource s) (resources_of s)) (pl_Attachments p) ;;p
  _ <~ peach (fun s => peach (ready_subnet p s) (subnet_names s)) (pl_Attachments p) ;;p
  b <~ needs_bootstrap p holder ;;p
  if b : bool then bootstrap p else converge p.

(** ** Deletion *)

(** No endpoint is left on the subnets; [present] is what the handler does otherwise. *)
Definition drained_sites (p : Plan) (present : gphase (flow unit)) : gphase (flow unit) :=
  peach (fun s => peach (fun name =>
    empty <~ attempt (adapt (EndpointsEmpty (si_Cluster s) name)) ;;p
    if negb empty then present else pret (Continue tt)) (subnet_names s)) (pl_Attachments p).
Definition as_unit (p : gphase (flow Result)) : gphase (flow unit) :=
  x <- p ;;p pret (match x with Return y => Return y | Continue y => Return (Ok y) end).

(** The names of one kind in one cluster. *)
Definition deletions (kind : string) (s : Site) : list string :=
  if (kind =? "Subnet")%string then [si_SubnetName s; si_TransitName s] else [si_VpcName s].
Definition delete_resource (p : Plan) (kind : string) (all : bool) (sn : Site * string) : gphase (flow bool) := current (fun v =>
  let '(s, name) := sn in
  gone <~ attempt (StoreDelete (store_of s) kind name (pl_UID p) (recorded v (cl_Name (si_Cluster s)) kind name)) ;;p
  pret (Continue (all && gone))).
Definition delete_kind (p : Plan) (kind : string) : gphase (flow unit) :=
  all <~ pfold (delete_resource p kind) true (flat_map (fun s => map (pair s) (deletions kind s)) (pl_Attachments p)) ;;p
  if negb all then state "Deleting" "ResourcesDeleting" "Waiting for owned Kube-OVN resources to disappear" false
  else pret (Continue tt).

Definition remove (p : Plan) : gphase (flow Result) := current (fun v =>
  if (gt_Operation (gv_Status v) =? "Resume")%string then resume false
  else if (gt_Operation (gv_Status v) =? "DeleteResume")%string then resume true
  else
    _ <~ drained_sites p (state "Deleting" "ConsumersPresent" "Drain all tenant subnet endpoints before deletion" false) ;;p
    locked <~ attempt (Acquire g (pl_UID p) (pl_Hash p)) ;;p
    if negb locked then state "Deleting" "DomainBusy" "Waiting for domain topology lock" false
    else
      paused <~ attempt (SetPaused g (pl_UID p) true) ;;p
      if negb paused then state "Deleting" "QuiescingIC" "Waiting for native IC processes to stop" false
      else
        _ <~ drained_sites p (as_unit (save_and_resume "Resume" false)) ;;p
        _ <~ peach (fun s => current (fun v =>
               attempt (WithdrawRoutes (store_of s) (si_VpcName s) (pl_UID p) (recorded v (cl_Name (si_Cluster s)) "Vpc" (si_VpcName s)))))
               (pl_Attachments p) ;;p
        _ <~ current (fun v => attempt (A:=unit) (adapt (DeleteTransit icnb (pl_TransitSwitch p) (pl_UID p) (gt_TransitSwitchUID (gv_Status v))))) ;;p
        _ <~ peach (delete_kind p) ["Subnet"; "Vpc"] ;;p
        _ <~ peach (fun s =>
               gone <~ attempt (adapt (LocalAbsent (si_Cluster s) (si_VpcName s) (si_SubnetName s) (si_TransitName s))) ;;p
               if negb gone then state "Deleting" "OVNCleanupPending" "Waiting for Kube-OVN to remove local OVN objects" false
               else pret (Continue tt)) (pl_Attachments p) ;;p
        save_and_resume "DeleteResume" true).

(** ** [Reconcile] *)

Definition attachment_status (s : Site) : AttachmentStatus :=
  mkAttachmentStatus (cl_Name (si_Cluster s)) (si_VpcName s) (si_SubnetName s) (si_TransitName s).
(** The plan is accepted once and then has to stay what it is. *)
Definition accept (p : Plan) : gphase (flow unit) := current (fun v =>
  let accepted := gt_PlanHash (gv_Status v) in
  if negb (accepted =? "")%string && negb (accepted =? pl_Hash p)%string
  then failure (Errorf "accepted intent or domain registration changed; restore the accepted configuration")
  else if (accepted =? "")%string
  then
    _ <- set_status (fun t => gt_with_Plan (pl_Hash p) (gt_Attachments t ++ map attachment_status (pl_Attachments p)) t) ;;p
    saved
  else pret (Continue tt)).

Definition reconcile : gphase (flow Result) := current (fun v =>
  if negb (gs_DomainRef (gv_Spec v) =? Domain (re_Config r))%string then pret (Return (Ok (mkResult 0)))
  else if negb (terminating (gv_Meta v)) && negb (ContainsFinalizer (gv_Meta v) Finalizer)
  then _ <- modify (gv_with_Meta (fun m => AddFinalizer m Finalizer)) ;;p end_with (mkResult 1000000) update
  else
    match Build (Some v) (re_Config r) with
    | Err e => failure e
    | Ok p =>
        _ <~ accept p ;;p
        holder <~ attempt (Holder g) ;;p
        if negb (holder =? "")%string && negb (holder =? pl_UID p)%string
        then state "Pending" "DomainBusy" "Another VPC is completing a domain topology operation" false
        else
          _ <~ current (fun v => attempt (A:=string) (adapt (InspectTransit icnb (pl_TransitSwitch p) (pl_UID p) (gt_TransitSwitchUID (gv_Status v))))) ;;p
          _ <~ peach (preflight p) (pl_Attachments p) ;;p
          current (fun v =>
            if terminating (gv_Meta v)
            then if negb (ContainsFinalizer (gv_Meta v) Finalizer) then pret (Return (Ok (mkResult 0))) else remove p
            else if (gt_Operation (gv_Status v) =? "Resume")%string then resume false
            else apply p holder)
    end).

Definition Reconcile (ns name : string) : gprog (res Result) :=
  x <- iget AuthorityAPI KGlobalVpc ns name ;;
  match x with
  | Err e => Ret (if IsNotFound e then Ok (mkResult 0) else Err e)
  | Ok v => run_phase reconcile v
  end.
End reconciler.
