(* ===== verification/GlobalSafety.v ===== *)
(** * What a pass of the GlobalVpc controller never does

    [permitted] is the discipline of every call of [Reconcile], for every answer of the
    API servers and adapters and wherever the pass stops. *)
From S2P Require Import Prelude GoStd Json Validation Api Prog Kube Phases GlobalApi GlobalConfig GlobalPlan GlobalPlanFacts Infra InfraFacts Domain DomainFacts GlobalReconciler.
Open Scope Z_scope.

Section safety.
Context {VAL : Validation} {MACH : Machinery} {UNS : Unstructured} {NEST : NestedFields}.
Context (r : Reconciler).
Let g := re_Gate r.

(** The pass began by reading the GlobalVpc [v]. *)
Definition began (h : ghistory) (v : GlobalVpc) : Prop := exists ns nm t, h = [Ev (Get AuthorityAPI KGlobalVpc ns nm) (Ok v)] ++ t.
(** [p] is the plan of the GlobalVpc the pass read. *)
Definition planned (h : ghistory) (p : Plan) : Prop := exists v, began h v /\ Build (Some v) (re_Config r) = Ok p.
(** The GlobalVpc as the API server showed it to the pass. *)
Definition shown (h : ghistory) (v : GlobalVpc) : Prop :=
  began h v \/
  (exists v', asked h (UpdateStatus AuthorityAPI KGlobalVpc v') (Ok v)).

(** Since the domain was fenced for the plan, every subnet was seen without endpoints. *)
Definition retired (h : ghistory) (p : Plan) : Prop :=
  exists h1, extends h1 h /\ fenced g (pl_UID p) (pl_Hash p) h1 /\
    forall s n, In s (pl_Attachments p) -> In n (subnet_names s) ->
      after h1 h (Adapter (EndpointsEmpty (si_Cluster s) n)) (Ok true).
(** The plan's transit was deleted. *)
Definition disconnected (h : ghistory) (p : Plan) : Prop :=
  retired h p /\ exists expected, asked h (Adapter (DeleteTransit (ICNBCommand (re_Config r)) (pl_TransitSwitch p) (pl_UID p) expected)) (Ok tt).
(** Every resource and the OVN topology of every site were found absent after [h0]. *)
Definition cleared (h0 h : ghistory) (p : Plan) : Prop :=
  (forall s kind n, In s (pl_Attachments p) ->
     In (kind, n) [("Subnet", si_SubnetName s); ("Subnet", si_TransitName s); ("Vpc", si_VpcName s)] ->
     exists c, absent_since (store_of r s) h0 h c kind n) /\
  (forall s, In s (pl_Attachments p) ->
     after h0 h (Adapter (LocalAbsent (si_Cluster s) (si_VpcName s) (si_SubnetName s) (si_TransitName s))) (Ok true)).
Definition gone (h : ghistory) (p : Plan) : Prop := exists h0, extends h0 h /\ disconnected h0 p /\ cleared h0 h p.

(** That teardown is over may be recorded once everything is gone, or where it was. *)
Definition may_record (h : ghistory) : Prop :=
  (exists p, planned h p /\ gone h p) \/ (exists v, shown h v /\ gt_Operation (gv_Status v) = "DeleteResume").
(** The copy a pass writes is one it was shown, with a status of its own; the status
    records the end of the teardown only when it may. *)
Definition tame (h : ghistory) (v : GlobalVpc) : Prop :=
  (exists w, shown h w /\ gv_Meta v = gv_Meta w) /\ (gt_Operation (gv_Status v) = "DeleteResume" -> may_record h).
(** The finalizer goes when everything is gone, or was in an earlier pass that recorded it. *)
Definition finished (h : ghistory) : Prop :=
  (exists p, planned h p /\ gone h p) \/ (exists v, shown h v /\ gt_Operation (gv_Status v) = "DeleteResume" /\ terminating (gv_Meta v) = true).
Definition may_update (h : ghistory) (v' : GlobalVpc) : Prop :=
  (exists v, shown h v /\ terminating (gv_Meta v) = false /\ v' = gv_with_Meta (fun m => AddFinalizer m Finalizer) v) \/
  (exists v, tame h v /\ v' = gv_with_Meta (fun m => RemoveFinalizer m Finalizer) v /\ finished h).

Definition may_adapt (h : ghistory) (a : adapter) : Prop :=
  match a with
  | EnsureTransit _ _ uid expected => expected = "" -> exists p, planned h p /\ uid = pl_UID p /\ fenced g uid (pl_Hash p) h
  | DeleteTransit _ _ uid _ => exists p, planned h p /\ uid = pl_UID p /\ retired h p
  | InspectTransit _ _ _ _ | NetworkCheck _ | Mark _ _ | Gateways _ _ | EndpointsEmpty _ _ | LocalAbsent _ _ _ _
  | Connected _ _ _ _ | RoutesReady _ _ _ => True
  | _ => False
  end.

(** Writes of native resources. *)
Definition may_create (h : ghistory) (api : store) (k : string) (o : Native) : Prop :=
  exists p s, planned h p /\ In s (pl_Attachments p) /\ In o (resources_of s) /\ k = un_Kind o /\
    absent_read (store_of r s) h api k (om_Name (un_Meta o)).
Definition may_change (h : ghistory) (api : store) (k : string) (o' : Native) : Prop :=
  exists p s o j kind name expected, planned h p /\ In s (pl_Attachments p) /\ k = un_Kind o /\ o' = with_Object j o /\
    owned_read (store_of r s) h api kind name (pl_UID p) expected o.
Definition may_delete (h : ghistory) (api : store) (k ns nm : string) (pre : Preconditions) : Prop :=
  exists p s o kind name expected, planned h p /\ In s (pl_Attachments p) /\ k = un_Kind o /\
    ns = om_Namespace (un_Meta o) /\ nm = om_Name (un_Meta o) /\
    pre = mkPre (Some (om_UID (un_Meta o))) (Some (om_ResourceVersion (un_Meta o))) /\
    owned_read (store_of r s) h api kind name (pl_UID p) expected o /\ disconnected h p.

(** The UID of the GlobalVpc of an accepted plan. *)
Definition own_uid (h : ghistory) (uid : string) : Prop :=
  (exists p, planned h p) /\ exists w, shown h w /\ om_UID (gv_Meta w) = uid.
(** The lock is taken for the pass's own plan, and returned under its UID. *)
Definition may_lock (h : ghistory) (o : op) : Prop :=
  (exists p, planned h p /\ may_take g (pl_UID p) (pl_Hash p) h o) \/ (exists uid, own_uid h uid /\ may_return g uid h o).

Definition permitted (h : ghistory) (o : op) : Prop :=
  match o with
  | Get _ _ _ _ | ListIn _ _ _ | Panic => True
  | Reserve _ claim => exists p, planned h p /\ In claim (pl_Claims p)
  | Adapter a => may_adapt h a
  | Create s k x =>
      match k return object k -> Prop with
      | KConfigMap => fun x => may_lock h (Create s KConfigMap x)
      | KNative kind => may_create h s kind
      | _ => fun _ => False
      end x
  | Update s k x =>
      match k return object k -> Prop with
      | KConfigMap => fun x => may_lock h (Update s KConfigMap x)
      | KGlobalVpc => fun x => s = AuthorityAPI /\ may_update h x
      | KDeployment => fun x => exists uid, own_uid h uid /\ may_scale g uid h s x
      | KNative kind => may_change h s kind
      | _ => fun _ => False
      end x
  | UpdateStatus s k x =>
      match k return object k -> Prop with
      | KGlobalVpc => fun x => s = AuthorityAPI /\ tame h x
      | _ => fun _ => False
      end x
  | Delete s k ns nm p => match k with KNative kind => may_delete h s kind ns nm p | _ => False end
  end.

Lemma began_extends h h' v : extends h h' -> began h v -> began h' v.
Proof. intros (t' & ->) (ns & nm & t & ->). exists ns, nm, (t ++ t'). by rewrite List.app_assoc. Qed.
Lemma planned_extends h h' p : extends h h' -> planned h p -> planned h' p.
Proof. intros HE (v & ? & ?). exists v. eauto using began_extends. Qed.
Lemma shown_extends h h' v : extends h h' -> shown h v -> shown h' v.
Proof. intros HE [?|(v' & ?)]; [left|right; exists v']; eauto using asked_extends, began_extends. Qed.
Lemma own_uid_extends h h' uid : extends h h' -> own_uid h uid -> own_uid h' uid.
Proof. intros HE [(p & ?) (w & ? & ?)]. split; [exists p|exists w]; eauto using planned_extends, shown_extends. Qed.
Lemma retired_extends h h' p : extends h h' -> retired h p -> retired h' p.
Proof. intros HE (h1 & ? & ? & ?). exists h1. split; [by eapply extends_trans|]. eauto using after_extends. Qed.
Lemma disconnected_extends h h' p : extends h h' -> disconnected h p -> disconnected h' p.
Proof. intros HE [? (e & ?)]. split; [by eapply retired_extends|]. exists e. by eapply asked_extends. Qed.

Lemma gone_extends h h' p : extends h h' -> gone h p -> gone h' p.
Proof.
  intros HE (h0 & H0 & HD & HR & HL). exists h0. split; [by eapply extends_trans|]. split; [done|]. split.
  - intros s kind n Hs Hn. destruct (HR s kind n Hs Hn) as [c Hc]. exists c. by eapply absent_since_extends.
  - intros s Hs. by eapply after_extends, HL.
Qed.
Lemma finished_extends h h' : extends h h' -> finished h -> finished h'.
Proof.
  intros HE [(p & Hp & Hg)|(w & Hw & ?)]; [left; exists p|right; exists w].
  - split; [by eapply planned_extends|by eapply gone_extends].
  - split; [by eapply shown_extends|done].
Qed.
Lemma may_record_extends h h' : extends h h' -> may_record h -> may_record h'.
Proof. intros HE [(p & ? & ?)|(w & ? & ?)]; [left; exists p|right; exists w]; eauto using planned_extends, gone_extends, shown_extends. Qed.
Lemma tame_extends h h' v : extends h h' -> tame h v -> tame h' v.
Proof. intros HE [(w & ? & ?) HO]. split; [exists w|]; eauto using shown_extends, may_record_extends. Qed.
Lemma shown_tame h v : shown h v -> tame h v.
Proof. intros H. split; [by exists v|]. intros HO. right. by exists v. Qed.
Lemma finished_recorded h : finished h -> may_record h.
Proof. intros [H|(w & ? & ? & _)]; [by left|right; by exists w]. Qed.
(** A status of the copy that keeps its operation, or may record another. *)
Lemma tame_status h v f : (gt_Operation (f (gv_Status v)) = "DeleteResume" -> gt_Operation (gv_Status v) = "DeleteResume" \/ may_record h) ->
  tame h v -> tame h (gv_with_Status (f (gv_Status v)) v).
Proof. intros HO [H1 H2]. split; [exact H1|]. intros [H|H]%HO; auto. Qed.
Lemma planned_own h p : planned h p -> own_uid h (pl_UID p).
Proof.
  intros Hp. split; [by exists p|]. destruct Hp as (v & Hv & (transit & nets & HA)%build_accepted). exists v. split; [by left|].
  by destruct (ac_uid _ _ _ _ _ HA) as [-> _].
Qed.

(** ** Phases *)

Notation gphase := (phase ans GlobalVpc).
(** [ph], from a tame copy, makes permitted calls only and continues with a tame copy. *)
Definition safe {A} (ph : gphase (flow A)) v h (P : ghistory -> A -> GlobalVpc -> Prop) : Prop :=
  tame h v -> pwp permitted ph v h (cont (fun h' a v' => tame h' v' /\ P h' a v')).
Lemma safe_weaken {A} (ph : gphase (flow A)) v h (P P' : ghistory -> A -> GlobalVpc -> Prop) :
  (forall h' a v', extends h h' -> P h' a v' -> P' h' a v') -> safe ph v h P -> safe ph v h P'.
Proof. intros H HP HT. eapply pwp_cont; [|exact (HP HT)]. intros h' a v' E [? ?]. auto. Qed.
Lemma safe_then {A B} (ph : gphase (flow A)) (f : A -> gphase (flow B)) v h P (P' : ghistory -> B -> GlobalVpc -> Prop) :
  safe ph v h P -> (forall h' a v', extends h h' -> P h' a v' -> safe (f a) v' h' P') -> safe (pflow ph f) v h P'.
Proof. intros HP HF HT. eapply pwp_then; [exact (HP HT)|]. intros h' a v' E [T HPa]. exact (HF h' a v' E HPa T). Qed.
Lemma safe_continue {A} (a : A) v h (P : ghistory -> A -> GlobalVpc -> Prop) : P h a v -> safe (pret (Continue a)) v h P.
Proof. intros H HT. by apply pwp_pret. Qed.
Lemma safe_return {A} x v h (P : ghistory -> A -> GlobalVpc -> Prop) : safe (pret (Return x)) v h P.
Proof. intros HT. by apply pwp_pret. Qed.
Lemma safe_current {A} (f : GlobalVpc -> gphase (flow A)) v h P : safe (f v) v h P -> safe (current f) v h P.
Proof. done. Qed.
Lemma safe_lift {A B} (p : gprog A) (f : A -> gphase (flow B)) v h P :
  wp any_answer permitted p h (fun h' a => safe (f a) v h' P) -> safe (pbind (lift p) f) v h P.
Proof.
  intros H HT. apply pwp_pbind, pwp_lift. eapply wp_mono; [|exact (wp_extends _ _ _ _ _ H)].
  intros h' a [E Ha]. apply Ha. by eapply tame_extends.
Qed.
Lemma safe_status {B} (f : GlobalVpcStatus -> GlobalVpcStatus) (k : unit -> gphase (flow B)) v h P :
  (gt_Operation (f (gv_Status v)) = "DeleteResume" -> gt_Operation (gv_Status v) = "DeleteResume" \/ may_record h) ->
  safe (k tt) (gv_with_Status (f (gv_Status v)) v) h P -> safe (pbind (set_status f) k) v h P.
Proof. intros HO HK HT. apply pwp_pbind, pwp_modify, HK. by apply tame_status. Qed.
Lemma safe_each {A} (f : A -> gphase (flow unit)) (J : ghistory -> A -> Prop) l v h :
  (forall h h' x, extends h h' -> J h x -> J h' x) ->
  (forall h1 v1 x, extends h h1 -> In x l -> safe (f x) v1 h1 (fun h' _ _ => J h' x)) ->
  safe (peach f l) v h (fun h' _ _ => forall x, In x l -> J h' x).
Proof.
  intros HJ HF HT.
  eapply pwp_mono; [|apply (pwp_peach permitted f (fun h' v' => extends h h' /\ tame h' v') J (fun _ _ _ => True)); [done| |split; [apply extends_refl|done]]].
  - intros h' [y|[]] v' Hx; [done|]. destruct Hx as [[_ ?] ?]. by split.
  - intros h1 v1 x Hx [E1 T1]. eapply pwp_mono; [|apply pwp_extends, HF; done]. intros h2 [y|[]] v2 [E2 H]; [done|].
    destruct H as [? ?]. split; [|done]. split; [by eapply extends_trans|done].
Qed.
Lemma safe_all {A} (f : A -> gphase (flow unit)) l v h :
  (forall h1 v1 x, extends h h1 -> In x l -> safe (f x) v1 h1 (fun _ _ _ => True)) -> safe (peach f l) v h (fun _ _ _ => True).
Proof. intros HF. eapply safe_weaken; [|apply (safe_each f (fun _ _ => True))]; auto. Qed.
Lemma safe_kept {A} (f : A -> gphase (flow unit)) l v h :
  (forall h1 x, In x l -> safe (f x) v h1 (fun _ _ v' => v' = v)) -> safe (peach f l) v h (fun _ _ v' => v' = v).
Proof.
  intros HF HT. eapply pwp_mono; [|apply (pwp_keeps f (fun h' v' => tame h' v' /\ v' = v)); [|by split]].
  - intros h' [y|[]] v' Hx; exact Hx.
  - intros h1 v1 x _ Hx [T1 ->]. by apply HF.
Qed.

Lemma pwp_save v h (Q : ghistory -> res unit -> GlobalVpc -> Prop) : tame h v ->
  (forall h' v', extends h h' -> shown h' v' -> Q h' (Ok tt) v') -> (forall h' e, extends h h' -> Q h' (Err e) v) ->
  pwp permitted save v h Q.
Proof.
  intros HT H1 H2. unfold pwp, save. apply wp_bind_rule. gstep; [done|]. intros [v'|e] _; simpl.
  - apply H1; [apply extends_snoc|]. right. exists v. apply asked_snoc.
  - apply H2, extends_snoc.
Qed.
Lemma safe_saved v h (P : ghistory -> unit -> GlobalVpc -> Prop) :
  (forall h' v', extends h h' -> shown h' v' -> P h' tt v') -> safe saved v h P.
Proof.
  intros H HT. unfold saved. pstep. apply pwp_save; [done| |done]. intros h' v' E Hv. split; [by apply shown_tame|by apply H].
Qed.
Lemma safe_state {A} phase reason message ready v h (P : ghistory -> A -> GlobalVpc -> Prop) :
  safe (state r phase reason message ready) v h P.
Proof.
  unfold state. apply safe_current, safe_status; [simpl; auto|]. intros HT. pstep; [by pstep|]. unfold end_with. pstep.
  apply pwp_save; intros; by try pstep.
Qed.
Lemma safe_attempt {A} (p : gprog (res A)) v h (P : ghistory -> A -> GlobalVpc -> Prop) :
  wp any_answer permitted p h (fun h' x => forall a, x = Ok a -> P h' a v) -> safe (attempt r p) v h P.
Proof.
  intros H HT. unfold attempt. pstep. pstep. eapply wp_mono; [|exact (wp_extends _ _ _ _ _ H)].
  intros h' [a|e] [E Ha]; (assert (tame h' v) as T' by by eapply tame_extends); [by split; [|apply Ha]|].
  by apply (safe_state _ _ _ _ _ _ P).
Qed.
Ltac sstep :=
  lazymatch goal with
  | |- safe (current _) _ _ _ => apply safe_current; cbv beta
  | |- safe (pret (Return _)) _ _ _ => apply safe_return
  | |- safe (pret (Continue _)) _ _ _ => apply safe_continue
  | |- safe (pbind (lift _) _) _ _ _ => apply safe_lift
  | |- safe (pbind (set_status _) _) _ _ _ => apply safe_status; [simpl; try (by auto)|]
  | |- safe (state _ _ _ _ _) _ _ _ => apply safe_state
  | |- safe (failure _ _) _ _ _ => apply safe_state
  | |- safe (if ?c then _ else _) _ _ _ => let Ec := fresh "Ec" in destruct c eqn:Ec
  end.
Tactic Notation "sthen" := apply (safe_then _ _ _ _ (fun _ _ _ => True)).
(** The disciplines of the components are part of this one. *)
Lemma permitted_get h s k ns nm : permitted h (Get s k ns nm). Proof. done. Qed.
Lemma permitted_list h s k ns : permitted h (ListIn s k ns). Proof. done. Qed.
Lemma permitted_panic h : permitted h Panic. Proof. done. Qed.
Lemma permitted_scale uid h h' api dep : own_uid h uid -> extends h h' -> may_scale g uid h' api dep -> permitted h' (Update api KDeployment dep).
Proof. intros HU HE HM. exists uid. split; [by eapply own_uid_extends|done]. Qed.
Lemma permitted_lock h o : may_lock h o -> permitted h o.
Proof. intros [(p & Hp & H)|(uid & HU & H)]; destruct o as [| |[|] [| | | | | | |] x|[|] [| | | | | | |] x| | | | |]; try done; [left; by exists p..|right; by exists uid]. Qed.
Hint Resolve permitted_get permitted_list permitted_panic permitted_scale : core.
Hint Resolve safe_state : core.

Lemma safe_resume deleting v h (P : ghistory -> Result -> GlobalVpc -> Prop) : (exists p, planned h p) ->
  (deleting = true -> finished h) -> safe (resume r deleting) v h P.
Proof.
  intros [p Hp] HD. unfold resume. sstep. intros HT.
  assert (own_uid h (om_UID (gv_Meta v))) as HU.
  { split; [by exists p|]. destruct HT as [(w & Hw & ->) _]. by exists w. }
  revert HT. sthen; [by apply safe_attempt, wp_Holder; auto|].
  intros h1 holder v1 E1 _. sthen.
  { sstep; [by sstep|]. apply (safe_then _ _ _ _ (fun h' ready _ => ready = true -> resumed g (om_UID (gv_Meta v)) h')).
    - apply safe_attempt, (wp_SetPaused permitted g); [auto..| |].
      + intros h' api dep E HM. eapply permitted_scale; [exact HU|by eapply extends_trans|done].
      + intros h2 x E2 Hx a -> ->. destruct (Hx eq_refl) as (h0 & E0 & E3 & Hh & Hr). by exists h0.
    - intros h2 ready v2 E2 Hr. sstep; [done|]. apply safe_attempt, (wp_Release permitted g); [auto|by apply Hr; destruct ready| |done].
      intros h3 o E3 Ho. apply permitted_lock. right. eexists. split; [|exact Ho]. apply (own_uid_extends h); [extending|done]. }
  intros h2 [] v2 E2 _. sstep.
  - intros HT. pstep. unfold end_with. pstep. pstep. unfold pwp, update. apply wp_bind_rule. gstep.
    + split; [done|]. right. exists v2. split_and!; [done|done|]. apply (finished_extends h); [by eapply extends_trans|by apply HD].
    + by intros [v'|e] _.
  - sstep. sthen; [by apply safe_saved|]. done.
Qed.

Lemma safe_save_and_resume operation deleting v h (P : ghistory -> Result -> GlobalVpc -> Prop) : (exists p, planned h p) ->
  (operation = "DeleteResume" -> may_record h) ->
  (deleting = true -> finished h) -> safe (save_and_resume r operation deleting) v h P.
Proof.
  intros [p Hp] HO HD. unfold save_and_resume. sstep. sthen; [by apply safe_saved|].
  intros h1 [] v1 E1 _. apply safe_resume; [exists p; by eapply planned_extends|]. intros Ed. apply (finished_extends h); [done|by apply HD].
Qed.

Lemma safe_adapt (a : adapter) v h (P : ghistory -> adapted a -> GlobalVpc -> Prop) : may_adapt h a ->
  (forall x, P (h ++ [Ev (Adapter a) (Ok x)]) x v) -> safe (attempt r (adapt a)) v h P.
Proof. intros HM HP. apply safe_attempt. gstep; [done|]. by intros [x|e] _ y; [intros [= <-]|]. Qed.

(** ** Applying a plan *)

Section plan.
Context (p : Plan).

Lemma planned_owner h s o : planned h p -> In s (pl_Attachments p) -> In o (resources_of s) ->
  get (om_Labels (un_Meta o)) OwnerLabel = pl_UID p.
Proof.
  intros (v & _ & HB) Hs Ho. simpl in HB. unfold build in HB. follow HB. injection HB as <-. simpl in Hs.
  apply in_map_iff in Hs as (a & <- & _). by destruct Ho as [<-|[<-|[<-|[]]]]; simpl; rewrite get_insert_eq.
Qed.

Lemma safe_preflight s v h : safe (preflight r p s) v h (fun _ _ v' => v' = v).
Proof.
  unfold preflight. destruct (re_Stores r !! _) as [st|] eqn:Es; [|by sstep].
  apply (safe_then _ _ _ _ (fun _ _ v' => v' = v)); [by apply safe_attempt, wp_CheckIdentity|]. intros h1 [] v1 E1 ->.
  apply safe_kept. intros h2 o Ho. unfold preflight_resource. do 2 sstep. apply wp_store_get; [done..|].
  intros c x Hc. destruct x as [o'|e].
  - destruct (owned _ _ _ _) as [[]|]; by sstep.
  - destruct (IsNotFound e); by sstep.
Qed.

Lemma safe_record {B} s o uid (k : bool -> gphase (flow B)) v h P :
  (forall changed v', safe (k changed) v' h P) -> safe (pbind (set_record s o uid) k) v h P.
Proof. intros HK HT. apply pwp_pbind. apply HK. by apply (tame_status h v (gt_with_Resources _)); [left|]. Qed.
Lemma safe_ensure s o v h : planned h p -> In s (pl_Attachments p) -> In o (resources_of s) ->
  safe (ensure_resource r s o) v h (fun _ _ _ => True).
Proof.
  intros Hp Hs Ho. unfold ensure_resource. do 2 sstep. apply wp_StoreEnsure; [done|done| | |].
  - intros h1 c E Ha _. exists p, s. split; [by eapply planned_extends|done].
  - intros h1 c o' j E Ho' _. rewrite (planned_owner h s o Hp Hs Ho) in Ho'.
    exists p, s, o', j, (un_Kind o), (om_Name (un_Meta o)), (recorded_uid v s o). split; [by eapply planned_extends|done].
  - intros h1 [uid|e] E.
    + apply safe_record. intros [] v'; [by apply safe_saved|by sstep].
    + destruct (Is e _); [|by sstep]. apply safe_record. intros _ v'. sthen; [by apply safe_saved|intros; by sstep].
Qed.

Lemma safe_ready s name v h : safe (ready_subnet r p s name) v h (fun _ _ _ => True).
Proof.
  unfold ready_subnet. sstep. sthen; [apply safe_attempt, wp_StoreReady; [done..|by intros]|].
  intros h1 ready v1 E1 _. by do 2 sstep.
Qed.

Lemma safe_reserve_claim claim v h : planned h p -> In claim (pl_Claims p) -> safe (reserve_claim r claim) v h (fun _ _ _ => True).
Proof.
  intros Hp Hc. unfold reserve_claim. sstep. destruct (List.find _ _) as [a|]; [by do 2 sstep|]. sstep; [by sstep|]. sthen.
  - apply safe_attempt. gstep; [by exists p|]. by intros.
  - intros h1 a v1 E1 _. sstep; [by sstep|]. sstep. by apply safe_saved.
Qed.

(** Lock and barrier, as [bootstrap] and [remove] raise them. *)
Lemma safe_fence {B} (busy stopping : gphase (flow B)) (f : gphase (flow B)) v h (P : ghistory -> B -> GlobalVpc -> Prop) : planned h p ->
  (forall v h, safe busy v h P) -> (forall v h, safe stopping v h P) ->
  (forall h' v', extends h h' -> fenced g (pl_UID p) (pl_Hash p) h' -> safe f v' h' P) ->
  safe (pflow (attempt r (Acquire (re_Gate r) (pl_UID p) (pl_Hash p))) (fun locked =>
    if negb locked then busy
    else pflow (attempt r (SetPaused (re_Gate r) (pl_UID p) true)) (fun paused => if negb paused then stopping else f))) v h P.
Proof.
  intros Hp HB HS HF. apply (safe_then _ _ _ _ (fun h' locked _ => locked = true -> held g (pl_UID p) (pl_Hash p) h')).
  { apply safe_attempt, (wp_Acquire permitted g); [auto..| |].
    - intros h' o E Ho. apply permitted_lock. left. exists p. split; [by eapply planned_extends|done].
    - intros h' x E Hx a -> ->. by apply Hx. }
  intros h1 locked v1 E1 Hl. sstep; [apply HB|]. destruct locked; [|done].
  apply (safe_then _ _ _ _ (fun h' paused _ => paused = true -> forall c, In c (Clusters (dg_Config g)) -> quiet g h1 h' c)).
  { apply safe_attempt, (wp_SetPaused permitted g); [auto..| |].
    - intros h' api dep E HM. apply (permitted_scale (pl_UID p) h1); [|done|done]. apply planned_own. by eapply planned_extends.
    - intros h' x E Hx a -> -> c Hc. destruct (Hx eq_refl) as (h0 & E0 & E3 & _ & Hq). eapply quiet_earlier; [exact E0|by apply Hq]. }
  intros h2 paused v2 E2 Hq. sstep; [apply HS|]. destruct paused; [|done]. apply HF; [by eapply extends_trans|].
  exists h1. split; [done|]. split; [by apply Hl|by apply Hq].
Qed.

Lemma safe_bootstrap v h : planned h p -> safe (bootstrap r p) v h (fun _ _ _ => True).
Proof.
  intros Hp. unfold bootstrap. apply safe_fence; [done|intros; apply safe_state..|]. intros h1 v1 E1 HF.
  sthen; [apply safe_all; intros; by apply safe_adapt|]. intros h2 [] v2 E2 _. do 2 sstep. gstep.
  { intros _. exists p. split; [apply (planned_extends h); [extending|done]|]. split; [done|]. by eapply fenced_extends. }
  intros [uid|e] _.
  - sstep. sthen; [apply safe_all; intros; by apply safe_adapt|].
    intros h3 [] v3 E3 _. apply safe_save_and_resume; [|done..]. exists p. apply (planned_extends h); [extending|done].
  - destruct (Is e _); [|by sstep]. sstep. sthen; [by apply safe_saved|intros; by sstep].
Qed.

Lemma safe_converge v h : safe (converge r p) v h (fun _ _ _ => True).
Proof.
  unfold converge. sthen; [|intros; by sstep]. apply safe_all. intros h1 v1 s E1 Hs.
  unfold converge_site. do 2 (sthen; [by apply safe_adapt|]; intros ? [] ? _ _).
  do 2 (sthen; [by apply safe_adapt|]; intros ? ? ? _ _; sstep; [by sstep|]). by sstep.
Qed.

Lemma safe_apply holder v h : planned h p -> safe (apply r p holder) v h (fun _ _ _ => True).
Proof.
  intros Hp. unfold apply. sthen; [apply safe_all; intros; by apply safe_adapt|].
  intros h1 [] v1 E1 _. sthen.
  { apply safe_all. intros h2 v2 c E2 Hc. apply safe_reserve_claim; [|done]. apply (planned_extends h); [extending|done]. }
  intros h2 [] v2 E2 _. assert (extends h h2) as E by by eapply extends_trans. sthen.
  { apply safe_all. intros h3 v3 s E3 Hs. apply safe_all. intros h4 v4 o E4 Ho. apply safe_ensure; [|done..].
    apply (planned_extends h); [extending|done]. }
  intros h3 [] v3 E3 _. sthen.
  { apply safe_all. intros h4 v4 s E4 Hs. apply safe_all. intros. apply safe_ready. }
  intros h4 [] v4 E4 _. sthen.
  { unfold needs_bootstrap. sstep. sstep; [by sstep|]. breflect. sstep. gstep; [by intros ?|].
    intros [uid|e] _; [by sstep|]. destruct (Is e _); by sstep. }
  intros h5 [] v5 E5 _; [|apply safe_converge]. apply safe_bootstrap. apply (planned_extends h); [extending|done].
Qed.

(** ** Removing a plan *)

Lemma safe_drained present v h : (forall h' v, extends h h' -> safe present v h' (fun _ _ _ => False)) ->
  safe (drained_sites r p present) v h (fun h' _ _ => forall s, In s (pl_Attachments p) -> forall n, In n (subnet_names s) ->
    after h h' (Adapter (EndpointsEmpty (si_Cluster s) n)) (Ok true)).
Proof.
  intros HP. unfold drained_sites. apply (safe_each _ (fun h' s => forall n, In n (subnet_names s) ->
    after h h' (Adapter (EndpointsEmpty (si_Cluster s) n)) (Ok true))); [eauto using after_extends|].
  intros h1 v1 s E1 Hs. apply (safe_each _ (fun h' n => after h h' (Adapter (EndpointsEmpty (si_Cluster s) n)) (Ok true))); [eauto using after_extends|].
  intros h2 v2 n E2 Hn. apply (safe_then _ _ _ _ (fun h' empty _ => empty = true -> after h h' (Adapter (EndpointsEmpty (si_Cluster s) n)) (Ok true))).
  { apply safe_attempt. gstep; [done|]. intros x _ a -> ->. apply after_snoc. extending. }
  intros h3 empty v3 E3 He. sstep.
  - eapply safe_weaken; [|apply HP; extending]. done.
  - sstep. apply He. by destruct empty.
Qed.

Lemma safe_withdraw s v h : planned h p -> In s (pl_Attachments p) ->
  safe (attempt r (WithdrawRoutes (store_of r s) (si_VpcName s) (pl_UID p) (recorded v (cl_Name (si_Cluster s)) "Vpc" (si_VpcName s))))
    v h (fun _ _ _ => True).
Proof.
  intros Hp Hs. apply safe_attempt, wp_WithdrawRoutes; [done..| |done].
  intros h1 c o j E Ho. exists p, s, o, j, "Vpc"%string, (si_VpcName s), (recorded v (cl_Name (si_Cluster s)) "Vpc" (si_VpcName s)).
  split; [by eapply planned_extends|done].
Qed.

(** One kind: when the loop ends with [all], every name was found absent. *)
Lemma safe_delete_kind kind v h : planned h p -> disconnected h p ->
  safe (delete_kind r p kind) v h (fun h' _ _ => forall s n, In s (pl_Attachments p) -> In n (deletions kind s) ->
    exists c, absent_since (store_of r s) h h' c kind n).
Proof.
  intros Hp Hd. unfold delete_kind. set (l := flat_map _ _).
  apply (safe_then _ _ _ _ (fun h' all _ => all = true -> forall s n, In (s, n) l -> exists c, absent_since (store_of r s) h h' c kind n)).
  - enough (forall todo all h1 v1, (forall x, In x todo -> In x l) -> extends h h1 ->
      safe (pfold (delete_resource r p kind) all todo) v1 h1
        (fun h' all' _ => all' = true -> all = true /\ forall s n, In (s, n) todo -> exists c, absent_since (store_of r s) h h' c kind n)) as G.
    { eapply safe_weaken; [|apply G; [auto|apply extends_refl]]. intros h' a v' _ H Ha. by apply H. }
    induction todo as [|[s n] todo IH]; intros all h1 v1 Hl E1; [by apply safe_continue|]. cbn [pfold].
    apply (safe_then _ _ _ _ (fun h' all' _ => all' = true -> all = true /\ exists c, absent_since (store_of r s) h h' c kind n)).
    + unfold delete_resource. sstep.
      assert (In s (pl_Attachments p)) as Hs.
      { specialize (Hl (s, n) (or_introl eq_refl)). unfold l in Hl. apply in_flat_map in Hl as (s' & Hs' & (n' & [= <- <-] & _)%in_map_iff). done. }
      apply (safe_then _ _ _ _ (fun h' gone _ => gone = true -> exists c, absent_since (store_of r s) h h' c kind n)).
      * apply safe_attempt, wp_StoreDelete; [done..| |].
        -- intros h2 c o E2 Ho _. exists p, s, o, kind, n, (recorded v1 (cl_Name (si_Cluster s)) kind n).
           split; [apply (planned_extends h); [extending|done]|]. repeat (split; [done|]).
           apply (disconnected_extends h); [extending|done].
        -- intros h2 x E2 Hx a -> ->. destruct (Hx eq_refl) as [c Hc]. exists c. by eapply absent_since_earlier.
      * intros h2 gone v2 E2 Hg. sstep. intros [-> ->]%andb_prop. by split; [|apply Hg].
    + intros h2 all' v2 E2 Ha. eapply safe_weaken; [|apply IH; [intros x Hx; apply Hl; by right|extending]].
      intros h3 all2 v3 E3 H E. destruct (H E) as [E' Hr]. destruct (Ha E') as [-> (c & Hc)]. split; [done|].
      intros s' n' [[= <- <-]|Hin]; [|by apply Hr]. exists c. by eapply absent_since_extends.
  - intros h1 all v1 E1 Ha. sstep; [apply safe_state|]. sstep. intros s n Hs Hn. apply Ha; [by destruct all|].
    apply in_flat_map. exists s. split; [done|]. by apply in_map.
Qed.

Definition locally_absent (h0 h : ghistory) (s : Site) : Prop :=
  after h0 h (Adapter (LocalAbsent (si_Cluster s) (si_VpcName s) (si_SubnetName s) (si_TransitName s))) (Ok true).
(** The resources and then the topology of OVN are cleared. *)
Lemma safe_cleared (f : gphase (flow Result)) v h P : planned h p -> disconnected h p ->
  (forall h' v', extends h h' -> gone h' p -> safe f v' h' P) ->
  safe (pflow (peach (delete_kind r p) ["Subnet"; "Vpc"]%string) (fun _ => pflow (peach (fun s =>
    pflow (attempt r (adapt (LocalAbsent (si_Cluster s) (si_VpcName s) (si_SubnetName s) (si_TransitName s)))) (fun gone =>
    if negb gone then state r "Deleting" "OVNCleanupPending" "Waiting for Kube-OVN to remove local OVN objects" false
    else pret (Continue tt))) (pl_Attachments p)) (fun _ => f))) v h P.
Proof.
  intros Hp HD HF. set (removed h' kind := forall s n, In s (pl_Attachments p) -> In n (deletions kind s) ->
    exists c, absent_since (store_of r s) h h' c kind n).
  assert (forall ha hb kind, extends ha hb -> removed ha kind -> removed hb kind) as HM.
  { intros ha hb kind E HR s n Hs Hn. destruct (HR s n Hs Hn) as [c Hc]. exists c. by eapply absent_since_extends. }
  apply (safe_then _ _ _ _ (fun h' _ _ => forall kind, In kind ["Subnet"; "Vpc"]%string -> removed h' kind)).
  { apply (safe_each _ removed); [done|]. intros h1 v1 kind E1 _. eapply safe_weaken;
      [|apply safe_delete_kind; [by eapply planned_extends|by eapply disconnected_extends]].
    intros h2 [] v2 E2 HR s n Hs Hn. destruct (HR s n Hs Hn) as [c Hc]. exists c. by eapply absent_since_earlier. }
  intros h1 [] v1 E1 HK. apply (safe_then _ _ _ _ (fun h' _ _ => forall s, In s (pl_Attachments p) -> locally_absent h h' s)).
  { apply (safe_each _ (locally_absent h)); [unfold locally_absent; eauto using after_extends|].
    intros h2 v2 s E2 Hs. apply (safe_then _ _ _ _ (fun h' b _ => b = true -> locally_absent h h' s)).
    { apply safe_attempt. gstep; [done|]. intros x _ a -> ->. apply after_snoc. extending. }
    intros h3 b v3 E3 Hb. sstep; [by sstep|]. sstep. apply Hb. by destruct b. }
  intros h2 [] v2 E2 HL. apply HF; [extending|]. exists h. split; [extending|]. split; [done|]. split; [|done].
  assert (forall kind, In kind ["Subnet"; "Vpc"]%string -> removed h2 kind) as HK2 by eauto.
  intros s kind n Hs [[= <- <-]|[[= <- <-]|[[= <- <-]|[]]]]; eapply HK2; eauto; simpl; auto.
Qed.
Lemma safe_as_unit (ph : gphase (flow Result)) v h : safe ph v h (fun _ _ _ => True) -> safe (as_unit ph) v h (fun _ _ _ => False).
Proof. intros H HT. unfold as_unit. pstep. eapply pwp_mono; [|exact (H HT)]. by intros ? [?|?] ? ?; pstep. Qed.

Lemma safe_remove v h : planned h p -> shown h v -> terminating (gv_Meta v) = true ->
  safe (remove r p) v h (fun _ _ _ => True).
Proof.
  intros Hp Hv Ht. unfold remove. sstep. sstep; [by apply safe_resume; [exists p|]|]. sstep.
  { apply safe_resume; [by exists p|]. intros _. right. exists v. breflect. done. }
  sthen; [eapply safe_weaken; [|apply safe_drained; intros; apply safe_state]; done|].
  intros h1 [] v1 E1 _. apply safe_fence; [by eapply planned_extends|intros; apply safe_state..|]. intros h2 v2 E2 HF.
  eapply safe_then; [apply safe_drained; intros h3 v3 E3; apply safe_as_unit, safe_save_and_resume; [|done..]; exists p; apply (planned_extends h); [extending|done]|].
  intros h3 [] v3 E3 HE. assert (retired h3 p) as HR by (exists h2; split; [done|]; split; [done|]; intros; by apply HE). clear HE.
  sthen; [apply safe_all; intros h4 v4 s E4 Hs; sstep; apply safe_withdraw; [apply (planned_extends h); [extending|done]|done]|].
  intros h4 [] v4 E4 _. assert (planned h4 p) as Hp4 by (apply (planned_extends h); [extending|done]).
  apply (safe_then _ _ _ _ (fun h' _ _ => disconnected h' p)).
  { sstep. apply safe_adapt; [exists p; split; [done|]; split; [done|by eapply retired_extends]|]. intros [].
    split; [eapply retired_extends; [|exact HR]; extending|]. eexists. apply asked_snoc. }
  intros h5 [] v5 E5 HD. apply safe_cleared; [by eapply planned_extends|done|]. intros h6 v6 E6 HG.
  assert (planned h6 p) as Hp6 by (apply (planned_extends h4); [extending|done]).
  apply safe_save_and_resume; [by exists p|intros _; left; by exists p..].
Qed.
End plan.

(** ** The pass *)

Lemma safe_accept p v h : shown h v -> safe (accept r p) v h (fun h' _ v' => shown h' v').
Proof.
  intros Hv. unfold accept. sstep. sstep; [by sstep|]. sstep; [|by sstep]. sstep. by apply safe_saved.
Qed.

Lemma safe_planned p v h : planned h p -> shown h v ->
  safe (pflow (accept r p) (fun _ =>
        pflow (attempt r (Holder (re_Gate r))) (fun holder =>
        if negb (holder =? "")%string && negb (holder =? pl_UID p)%string
        then state r "Pending" "DomainBusy" "Another VPC is completing a domain topology operation" false
        else
          pflow (current (fun v => attempt r (A:=string) (adapt (InspectTransit (ICNBCommand (re_Config r)) (pl_TransitSwitch p) (pl_UID p) (gt_TransitSwitchUID (gv_Status v)))))) (fun _ =>
          pflow (peach (preflight r p) (pl_Attachments p)) (fun _ =>
          current (fun v =>
            if terminating (gv_Meta v)
            then if negb (ContainsFinalizer (gv_Meta v) Finalizer) then pret (Return (Ok (mkResult 0))) else remove r p
            else if (gt_Operation (gv_Status v) =? "Resume")%string then resume r false
            else apply r p holder)))))) v h (fun _ _ _ => True).
Proof.
  intros Hp Hs. eapply safe_then; [by apply safe_accept|]. intros h1 [] v1 E1 Hs1. simpl in Hs1.
  apply (safe_then _ _ _ _ (fun _ _ v' => v' = v1)); [apply safe_attempt, (wp_Holder permitted g); [auto|by intros]|].
  intros h2 holder v2 E2 ->. sstep; [by sstep|].
  apply (safe_then _ _ _ _ (fun _ _ v' => v' = v1)); [sstep; by apply safe_adapt|]. intros h3 u v3 E3 ->.
  apply (safe_then _ _ _ _ (fun _ _ v' => v' = v1)); [apply safe_kept; intros; apply safe_preflight|].
  intros h4 [] v4 E4 ->. assert (planned h4 p) as Hp4 by (apply (planned_extends h); [extending|done]). do 2 sstep.
  - sstep; [by sstep|]. apply safe_remove; [done| |done]. apply (shown_extends h1); [extending|done].
  - sstep; [by apply safe_resume; [exists p|]|by apply safe_apply].
Qed.
Lemma pwp_reconcile v h : began h v -> pwp permitted (reconcile r) v h (cont (fun _ _ _ => True)).
Proof.
  intros Hv. assert (shown h v) as Hs by by left. unfold reconcile. pstep. pstep; [by pstep|]. pstep.
  { pstep. pstep. unfold end_with. pstep. unfold pwp, update. apply wp_bind_rule. gstep.
    - split; [done|]. left. exists v. breflect. done.
    - by intros [?|?] _. }
  destruct (Build (Some v) (re_Config r)) as [p|e] eqn:EB; (eapply pwp_cont; [done|]).
  - apply safe_planned; [by exists v|done|by apply shown_tame].
  - apply (safe_state _ _ _ _ _ _ (fun _ _ _ => True)). by apply shown_tame.
Qed.

Lemma global_pass_permitted ns nm : obeys permitted (Reconcile r ns nm).
Proof.
  apply (wp_obeys _ _ (fun _ _ => True)). unfold Reconcile. gstep. gstep; [done|]. intros [v|e] _; [|by gstep].
  unfold run_phase. gstep. eapply wp_mono; [|apply (pwp_reconcile v); by exists ns, nm, []]. by intros h' [[?|?] ?] _.
Qed.
End safety.

Lemma plan_uid {VAL : Validation} v cfg p : Build (Some v) cfg = Ok p -> pl_UID p <> "".
Proof.
  intros (transit & nets & HA)%build_accepted. destruct (ac_uid _ _ _ _ _ HA) as [-> Hn]. done.
Qed.

(** ** The claims *)

(** The API server keeps the UID of a GlobalVpc whose status is written. *)
Definition keeps_uid (h : ghistory) : Prop :=
  forall sent v, asked h (UpdateStatus AuthorityAPI KGlobalVpc sent) (Ok v) -> om_UID (gv_Meta v) = om_UID (gv_Meta sent).

Section claims.
Context {VAL : Validation} {MACH : Machinery} {UNS : Unstructured} {NEST : NestedFields}.
Context (r : Reconciler) (ns nm : string) (h : ghistory) (p' : gprog (res Result)) (h1 : ghistory).

Lemma pass_permits o : exec (Reconcile r ns nm) h p' -> called h h1 o -> permitted r h1 o.
Proof. intros HX HC. exact (called_permitted _ _ _ _ _ _ (global_pass_permitted r ns nm) HX HC). Qed.

Definition read_of (e : event ans) : option GlobalVpc :=
  match ev_op e as o return ans o -> option GlobalVpc with
  | Get _ KGlobalVpc _ _ => fun x => match x with Ok v => Some v | Err _ => None end
  | _ => fun _ => None
  end (ev_ans e).
Lemma began_unique h0 v w : began h0 v -> began h0 w -> v = w.
Proof.
  intros (n1 & m1 & t1 & ->) (n2 & m2 & t2 & E). apply (f_equal (fun l => match l with e :: _ => read_of e | [] => None end)) in E.
  by injection E.
Qed.
(** Then every GlobalVpc a pass is shown has the UID of the one it read. *)
Lemma shown_uid h0 w : (forall hp o x t, h0 = hp ++ Ev o x :: t -> permitted r hp o) -> keeps_uid h0 -> shown h0 w ->
  exists v, began h0 v /\ om_UID (gv_Meta w) = om_UID (gv_Meta v).
Proof.
  revert w. induction h0 as [|[o x] h0 IH] using rev_ind; intros w HP HK HS.
  { destruct HS as [(n1 & m1 & t & E)|(sent & [])]. done. }
  assert (forall w', shown h0 w' -> exists v, began (h0 ++ [Ev o x]) v /\ om_UID (gv_Meta w') = om_UID (gv_Meta v)) as HI.
  { intros w' Hw. destruct (IH w') as (v & Hv & E); [| |done|].
    - intros hp o' x' t ->. apply (HP hp o' x' (t ++ [Ev o x])). by rewrite <- List.app_assoc.
    - intros sent v Ha. apply HK. by apply asked_app.
    - exists v. split; [|done]. by eapply began_extends; [apply extends_snoc|]. }
  destruct HS as [HB|(sent & [Ha|[Ha|[]]]%in_app_iff)]; [by exists w|apply HI; right; by exists sent|].
  pose proof (HP h0 _ _ [] eq_refl : permitted r h0 (ev_op (Ev o x))) as HT. rewrite Ha in HT.
  destruct HT as (_ & (w' & Hw' & EM) & _). destruct (HI w' Hw') as (v & Hv & E). exists v. split; [done|].
  rewrite (HK sent w), EM; [done|]. apply in_app_iff. right. by left.
Qed.
(** C4: Wherever a pass stops, it created the shared transit switch (a call without a recorded UUID) only
    for its own plan while it held the domain lock under that plan's hash and had since then seen the native
    IC writers of every cluster stopped - zero replicas observed, every controlled ReplicaSet drained, no Pod
    left running; and it deleted a transit only after that and after seeing every tenant subnet empty. *)
Theorem topology_changes_are_fenced : exec (Reconcile r ns nm) h p' ->
  (forall c n uid, called h h1 (Adapter (EnsureTransit c n uid "")) ->
     exists p, planned r h1 p /\ uid = pl_UID p /\ fenced (re_Gate r) uid (pl_Hash p) h1) /\
  (forall c n uid e, called h h1 (Adapter (DeleteTransit c n uid e)) -> exists p, planned r h1 p /\ uid = pl_UID p /\ retired r h1 p).
Proof.
  intros HX. split.
  - intros c n uid HC. exact (pass_permits _ HX HC eq_refl).
  - intros c n uid e HC. exact (pass_permits _ HX HC).
Qed.

(** The UID under which a pass takes and returns the lock is its plan's. *)
Lemma own_uid_planned uid : exec (Reconcile r ns nm) h p' -> keeps_uid h -> (exists t, h = h1 ++ t) -> own_uid r h1 uid ->
  exists p, planned r h1 p /\ pl_UID p = uid /\ uid <> "".
Proof.
  intros HX HK [t Et] [(p & Hp) (w & Hw & <-)]. exists p. split; [done|].
  destruct (shown_uid h1 w) as (v & Hv & ->); [| |done|].
  - intros hp o x t' ->. apply (global_pass_permitted r ns nm _ _ HX hp (Ev o x) (t' ++ t)). by rewrite Et, <- List.app_assoc.
  - intros sent v Ha. apply HK. rewrite Et. by apply asked_app.
  - destruct Hp as (v' & Hv' & HB). rewrite (began_unique _ _ _ Hv Hv'). apply build_accepted in HB as (transit & nets & HA).
    destruct (ac_uid _ _ _ _ _ HA) as [-> ?]. done.
Qed.

(** C11: A pass frees the domain lock only where it read its own plan's UID as the holder, after it saw the
    dedicated native IC Deployment of every cluster running again; and it scales a Deployment only where it read
    its own plan's UID as the holder, to zero or one replica, as it read it under its registered UID and labels,
    after it read those of all clusters. A plan's UID is not empty. *)
Theorem the_domain_is_handed_back_running : exec (Reconcile r ns nm) h p' -> keeps_uid h ->
  (forall cm', called h h1 (Update AuthorityAPI KConfigMap cm') -> holder_of cm' = "" ->
     exists p cm, planned r h1 p /\ pl_UID p <> "" /\
       asked h1 (Get AuthorityAPI KConfigMap (dg_Namespace (re_Gate r)) (lockName (re_Gate r))) (Ok cm) /\
       domain_owned (re_Gate r) cm = true /\ holder_of cm = pl_UID p /\ resumed (re_Gate r) (pl_UID p) h1 /\
       cm' = cm_with_Data (lock_data "" "") cm) /\
  (forall api dep', called h h1 (Update api KDeployment dep') ->
     exists p, planned r h1 p /\ locked_by (re_Gate r) (pl_UID p) h1 /\ may_scale (re_Gate r) (pl_UID p) h1 api dep').
Proof.
  intros HX HK. assert (forall o, called h h1 o -> exists t, h = h1 ++ t) as HC1 by (intros o (x & t & ->); by eexists). split.
  - intros cm' HC Hh. destruct (pass_permits _ HX HC) as [(p & Hp & cm & _ & _ & _ & ->)|(uid & HU & cm & Hr & Ho & Hu & HR & ->)].
    + unfold holder_of, lock_data in Hh. simpl in Hh. rewrite get_insert_eq in Hh. destruct Hp as (v & _ & Hp). by apply plan_uid in Hp.
    + destruct (own_uid_planned uid HX HK (HC1 _ HC) HU) as (p & Hp & <- & Hn). by exists p, cm.
  - intros api dep' HC. destruct (pass_permits _ HX HC) as (uid & HU & HM).
    destruct (own_uid_planned uid HX HK (HC1 _ HC) HU) as (p & Hp & <- & Hn). exists p. split; [done|]. split; [|done].
    apply holding_locked; [done|]. exact (proj1 HM).
Qed.

(** C25: A native resource is deleted only under the UID and version read as the plan's, after the transit was
    deleted behind the fence; a status records the end of the teardown only when every resource and the OVN
    topology were then found absent, or the object showed that record already; and the finalizer is removed only
    then, or from a deleting object that shows it. *)
Theorem global_teardown_is_ordered : exec (Reconcile r ns nm) h p' ->
  (forall api k n1 n2 pre, called h h1 (Delete api (KNative k) n1 n2 pre) -> may_delete r h1 api k n1 n2 pre) /\
  (forall v', called h h1 (UpdateStatus AuthorityAPI KGlobalVpc v') -> gt_Operation (gv_Status v') = "DeleteResume" -> may_record r h1) /\
  (forall v', called h h1 (Update AuthorityAPI KGlobalVpc v') -> may_update r h1 v').
Proof.
  intros HX. split_and!.
  - intros api k n1 n2 pre HC. exact (pass_permits _ HX HC).
  - intros v' HC. exact (proj2 (proj2 (pass_permits _ HX HC))).
  - intros v' HC. exact (proj2 (pass_permits _ HX HC)).
Qed.

(** In every cluster a pass creates only resources its plan renders, found absent after the cluster's
    identity was verified, and changes only objects it read under the plan's owner label, the cluster's
    label and the recorded UID, keeping their identity. *)
Theorem infra_objects_are_never_adopted : exec (Reconcile r ns nm) h p' ->
  (forall api k o, called h h1 (Create api (KNative k) o) -> may_create r h1 api k o) /\
  (forall api k o, called h h1 (Update api (KNative k) o) -> may_change r h1 api k o).
Proof.
  intros HX. split; intros api k o HC; exact (pass_permits _ HX HC).
Qed.
End claims.
