(* ===== verification/DomainSystem.v ===== *)
(** * Concurrent controllers of one domain

    Any number of passes of any number of controllers share the lock ConfigMap of their
    domain. The API server compares resource versions on update; reads may be stale,
    responses may be lost, and a pass may stop anywhere. *)
From S2P Require Import Prelude GoStd Json Validation Api Prog Kube Phases GlobalApi GlobalConfig GlobalPlan Infra InfraFacts Domain DomainFacts GlobalReconciler GlobalSafety.
Open Scope Z_scope.

Lemma exec_snoc {Op} {Ans : Op -> Type} {A} (p : prog Ans A) h o k x : exec p h (Act o k) -> exec p (h ++ [Ev o x]) (k x).
Proof.
  intros H. remember (Act o k) as q eqn:Eq. induction H as [q|o' k' x' h q HX IH]; subst; simpl.
  - repeat constructor.
  - constructor. by apply IH.
Qed.

Section system.
Context {VAL : Validation} {MACH : Machinery} {UNS : Unstructured} {NEST : NestedFields}.
(** The domain: the namespace of its lock and its name. *)
Context (gate : DomainGate).

Definition version_of (cm : ConfigMap) : string := om_ResourceVersion (cm_Meta cm).
Definition is_lock (m : ObjectMeta) : Prop := om_Namespace m = dg_Namespace gate /\ om_Name m = lockName gate.
(** A stored object is the one that was sent, under a resource version the server chose. *)
Definition stored_as (sent cm : ConfigMap) : Prop :=
  om_Namespace (cm_Meta cm) = om_Namespace (cm_Meta sent) /\ om_Name (cm_Meta cm) = om_Name (cm_Meta sent) /\
  om_Labels (cm_Meta cm) = om_Labels (cm_Meta sent) /\ cm_Data cm = cm_Data sent.

(** The versions of the lock, newest first, before and after a call that was answered. *)
Definition serve (vs vs' : list ConfigMap) (o : op) : ans o -> Prop :=
  match o return ans o -> Prop with
  | Get AuthorityAPI KConfigMap nsp nm => fun x =>
      vs' = vs /\ (nsp = dg_Namespace gate -> nm = lockName gate -> forall cm, x = Ok cm -> In cm vs)
  | Create AuthorityAPI KConfigMap sent => fun x =>
      (is_lock (cm_Meta sent) /\ vs = [] /\ exists cm, stored_as sent cm /\ vs' = [cm] /\ forall y, x = Ok y -> y = cm) \/
      (vs' = vs /\ (is_lock (cm_Meta sent) -> is_ok x = false))
  | Update AuthorityAPI KConfigMap sent => fun x =>
      (is_lock (cm_Meta sent) /\ exists cur past cm, vs = cur :: past /\ version_of cur = version_of sent /\ stored_as sent cm /\
         ~ In (version_of cm) (map version_of vs) /\ vs' = cm :: vs /\ forall y, x = Ok y -> y = cm) \/
      (vs' = vs /\ (is_lock (cm_Meta sent) -> is_ok x = false))
  | _ => fun _ => vs' = vs
  end.

(** A controller's pass, with the calls it made. *)
Record thread := mkThread { th_ctl : Reconciler; th_done : ghistory; th_todo : gprog (res Result) }.
Record system := mkSystem { sy_lock : list ConfigMap; sy_threads : list thread }.
Definition in_domain (r : Reconciler) : Prop :=
  dg_Namespace (re_Gate r) = dg_Namespace gate /\ Domain (dg_Config (re_Gate r)) = Domain (dg_Config gate).

Inductive step : system -> system -> Prop :=
| step_start vs ts r ns nm : in_domain r -> step (mkSystem vs ts) (mkSystem vs (ts ++ [mkThread r [] (Reconcile r ns nm)]))
| step_call vs vs' ts i r h o k x : ts !! i = Some (mkThread r h (Act o k)) -> serve vs vs' o x ->
    step (mkSystem vs ts) (mkSystem vs' (<[i := mkThread r (h ++ [Ev o x]) (k x)]> ts)).
Inductive reachable : system -> Prop :=
| reachable_start : reachable (mkSystem [] [])
| reachable_step s s' : reachable s -> step s s' -> reachable s'.

Definition holder (vs : list ConfigMap) : string := match vs with [] => "" | cm :: _ => holder_of cm end.

(** ** The invariant *)

Definition read_lock (h : ghistory) (cm : ConfigMap) : Prop :=
  asked h (Get AuthorityAPI KConfigMap (dg_Namespace gate) (lockName gate)) (Ok cm).
Definition wrote_lock (h : ghistory) (sent cm : ConfigMap) : Prop :=
  is_lock (cm_Meta sent) /\ (asked h (Update AuthorityAPI KConfigMap sent) (Ok cm) \/ asked h (Create AuthorityAPI KConfigMap sent) (Ok cm)).

Record sound (vs : list ConfigMap) (t : thread) : Prop := {
  so_domain : in_domain (th_ctl t);
  so_pass : exists ns nm, exec (Reconcile (th_ctl t) ns nm) (th_done t) (th_todo t);
  so_read : forall cm, read_lock (th_done t) cm -> In cm vs;
  so_wrote : forall sent cm, wrote_lock (th_done t) sent cm -> In cm vs /\ stored_as sent cm }.
(** Of two consecutive versions one is free. *)
Definition handed_over (vs : list ConfigMap) : Prop :=
  forall l1 a b l2, vs = l1 ++ a :: b :: l2 -> holder_of a = "" \/ holder_of b = "".
Record good (s : system) : Prop := {
  go_versions : NoDup (map version_of (sy_lock s));
  go_lock : forall cm, In cm (sy_lock s) -> is_lock (cm_Meta cm);
  go_hands : handed_over (sy_lock s);
  go_threads : forall t, In t (sy_threads s) -> sound (sy_lock s) t }.

Lemma lock_name_same r : in_domain r -> lockName (re_Gate r) = lockName gate.
Proof. intros [_ E]. unfold lockName. by rewrite E. Qed.

(** The next call of a sound pass is one the discipline permits. *)
Lemma sound_call vs r h o k (x : ans o) : sound vs (mkThread r h (Act o k)) -> permitted r h o.
Proof.
  intros [_ (ns & nm & HX) _ _]. exact (global_pass_permitted r ns nm _ _ (exec_snoc _ _ _ _ x HX) h (Ev o x) [] eq_refl).
Qed.

Lemma holder_of_lock_data m i uid hash : holder_of (mkConfigMap m i (lock_data uid hash)) = uid.
Proof. unfold holder_of, lock_data. simpl. apply get_insert_eq. Qed.

(** How a version follows another: taken when free, by a pass for its own plan, or returned
    by a pass that saw the domain running again under its holder. *)
Definition handover (r : Reconciler) (h : ghistory) (vs : list ConfigMap) (cm : ConfigMap) : Prop :=
  (holder vs = "" /\ exists p, planned r h p /\ holder_of cm = pl_UID p) \/
  (holder_of cm = "" /\ resumed (re_Gate r) (holder vs) h).

(** The version a pass replaces is the one it read. *)
Lemma current_read vs r h t cur past sent cm0 : in_domain r -> sound vs t -> th_done t = h -> NoDup (map version_of vs) ->
  vs = cur :: past -> version_of cur = version_of sent ->
  asked h (Get AuthorityAPI KConfigMap (dg_Namespace (re_Gate r)) (lockName (re_Gate r))) (Ok cm0) ->
  om_ResourceVersion (cm_Meta sent) = om_ResourceVersion (cm_Meta cm0) -> cur = cm0.
Proof.
  intros HD HS <- HN -> EV Ha EM. rewrite (lock_name_same r HD), (proj1 HD) in Ha.
  apply (so_read _ _ HS) in Ha. apply (nodup_map_inj version_of (cur :: past)); [done|by left|done|]. by rewrite EV.
Qed.

Lemma serve_handover vs vs' r h o k x : NoDup (map version_of vs) -> sound vs (mkThread r h (Act o k)) -> serve vs vs' o x ->
  vs' = vs \/ exists sent cm, vs' = cm :: vs /\ is_lock (cm_Meta cm) /\ ~ In (version_of cm) (map version_of vs) /\
    stored_as sent cm /\ handover r h vs cm.
Proof.
  intros HN HS HV. pose proof (sound_call _ _ _ _ _ x HS) as HP. pose proof (so_domain _ _ HS) as HD. simpl in HD.
  destruct o as [[|] []| |[|] [] sent|[|] [] sent| | | | |]; simpl in HV; try (left; done); try (left; exact (proj1 HV)).
  - destruct HV as [(HL & -> & cm & HSt & -> & _)|[-> _]]; [|by left]. right. exists sent, cm. split; [done|].
    pose proof HSt as (E1 & E2 & _ & ED). split; [by split; [rewrite E1|rewrite E2]; apply HL|]. split; [by intros []|]. split; [done|].
    simpl in HP. destruct HP as [(p & Hp & e & _ & _ & ->)|(uid & _ & [])].
    left. split; [done|]. exists p. split; [done|]. unfold holder_of. rewrite ED. apply get_insert_eq.
  - destruct HV as [(HL & cur & past & cm & -> & EV & HSt & Hf & -> & _)|[-> _]]; [|by left]. right. exists sent, cm. split; [done|].
    pose proof HSt as (E1 & E2 & _ & ED). split; [by split; [rewrite E1|rewrite E2]; apply HL|]. split; [done|]. split; [done|].
    simpl in HP. destruct HP as [(p & Hp & cm0 & Hr & _ & Hh & ->)|(uid & _ & cm0 & Hr & _ & Hh & HR & ->)].
    + assert (cur = cm0) as -> by (eapply (current_read (cur :: past) r h); eauto; done).
      left. split; [done|]. exists p. split; [done|]. unfold holder_of. rewrite ED. apply get_insert_eq.
    + assert (cur = cm0) as -> by (eapply (current_read (cur :: past) r h); eauto; done).
      right. simpl. rewrite Hh. split; [|done]. unfold holder_of. rewrite ED. apply get_insert_eq.
Qed.

(** A call of the extended history is an earlier one or the last one, served as it was. *)
Lemma asked_last vs vs' h o x o' (x' : ans o') : serve vs vs' o x -> asked (h ++ [Ev o x]) o' x' -> asked h o' x' \/ serve vs vs' o' x'.
Proof.
  unfold asked. intros HV [H|[H|[]]]%in_app_iff; [by left|]. right.
  assert (forall e, e = Ev o x -> serve vs vs' (ev_op e) (ev_ans e)) as G by by intros e ->. exact (G _ (eq_sym H)).
Qed.

Lemma sound_grows vs vs' t : (forall cm, In cm vs -> In cm vs') -> sound vs t -> sound vs' t.
Proof.
  intros HI [H1 H2 H3 H4]. split; [done|done|auto|]. intros sent cm Hw. destruct (H4 sent cm Hw). auto.
Qed.

Lemma sound_step vs vs' r h o k x : (forall cm, In cm vs -> In cm vs') ->
  sound vs (mkThread r h (Act o k)) -> serve vs vs' o x -> sound vs' (mkThread r (h ++ [Ev o x]) (k x)).
Proof.
  intros HI HS HV. pose proof HS as [HD (ns & nm & HX) HR HW]. simpl in *. split; simpl.
  - done.
  - exists ns, nm. by apply exec_snoc.
  - intros cm [Ha|Hv]%(asked_last _ _ _ _ _ _ _ HV); [by apply HI, HR|]. destruct Hv as [_ Hv]. by apply HI, Hv.
  - intros sent cm [HL [Ha|Ha]].
    + apply (asked_last _ _ _ _ _ _ _ HV) in Ha as [Ha|Hv].
      * destruct (HW sent cm) as [? ?]; [by split; [|left]|]. auto.
      * destruct Hv as [(_ & cur & past & c & -> & _ & HSt & _ & -> & Hy)|[_ Hf]]; [|by specialize (Hf HL)].
        rewrite (Hy cm eq_refl). split; [by left|done].
    + apply (asked_last _ _ _ _ _ _ _ HV) in Ha as [Ha|Hv].
      * destruct (HW sent cm) as [? ?]; [by split; [|right]|]. auto.
      * destruct Hv as [(_ & -> & c & HSt & -> & Hy)|[_ Hf]]; [|by specialize (Hf HL)].
        rewrite (Hy cm eq_refl). split; [by left|done].
Qed.

Lemma handed_cons cm vs : holder_of cm = "" \/ holder vs = "" -> handed_over vs -> handed_over (cm :: vs).
Proof.
  intros H HH [|c l1] a b l2 E; simpl in E; injection E as -> E; [subst vs; done|]. by apply (HH l1 a b l2).
Qed.

Lemma good_step s s' : good s -> step s s' -> good s'.
Proof.
  intros [HN HL HH HT] HS. destruct HS as [vs ts r ns nm HD|vs vs' ts i r h o k x Hi HV]; simpl in *.
  - split; simpl; try done. intros t [Ht|[<-|[]]]%in_app_iff; [by apply HT|]. split; simpl; [done| | |].
    + exists ns, nm. constructor.
    + by intros cm [].
    + by intros sent cm [_ [[]|[]]].
  - assert (In (mkThread r h (Act o k)) ts) as Hin by by eapply list_elem_of_In, list_elem_of_lookup_2.
    pose proof (HT _ Hin) as HS. pose proof (serve_handover _ _ _ _ _ _ _ HN HS HV) as HE.
    assert (forall cm, In cm vs -> In cm vs') as HI by (destruct HE as [->|(sent & cm & -> & _)]; [done|by right]).
    assert (forall t, In t (<[i := mkThread r (h ++ [Ev o x]) (k x)]> ts) -> sound vs' t) as HT'.
    { intros t Ht%list_elem_of_In. apply list_elem_of_lookup in Ht as [j Hj]. destruct (decide (j = i)) as [->|Hne].
      - rewrite list_lookup_insert_eq in Hj by by eapply lookup_lt_Some. injection Hj as <-. by eapply sound_step.
      - rewrite list_lookup_insert_ne in Hj by done. apply (sound_grows vs); [done|]. eapply HT, list_elem_of_In, list_elem_of_lookup_2, Hj. }
    destruct HE as [->|(sent & cm & -> & Hlock & Hf & HSt & Hh)]; [by split|]. split; simpl; [| | |done].
    + apply NoDup_cons. split; [|done]. by rewrite list_elem_of_In.
    + intros c [<-|Hc]; auto.
    + apply handed_cons; [|done]. destruct Hh as [[? _]|[? _]]; auto.
Qed.

Lemma reachable_good s : reachable s -> good s.
Proof.
  induction 1 as [|s s' HR IH HS]; [|by eapply good_step]. split; simpl; [constructor|done| |done].
  intros [|? l1] a b l2 E; discriminate.
Qed.

(** A fenced pass held the lock: one of its versions names the plan's UID. *)
Lemma fenced_recorded s t uid hash : good s -> In t (sy_threads s) -> fenced (re_Gate (th_ctl t)) uid hash (th_done t) ->
  exists cm, In cm (sy_lock s) /\ holder_of cm = uid.
Proof.
  intros [_ HL _ HT] Ht (h0 & HE & HH & _). destruct (HT t Ht) as [HD _ HR HW].
  apply (lock_held_extends (re_Gate (th_ctl t)) uid hash h0 (th_done t) HE) in HH. pose proof (lock_name_same _ HD) as EN. destruct HD as [ED _].
  destruct HH as [(cm & Ha & _ & Hu & _)|[(cm & cm' & Ha & _ & _ & Hw)|(e & cm' & _ & _ & Hw)]]; rewrite ?ED, ?EN in *.
  - exists cm. split; [by apply HR|done].
  - assert (In cm (sy_lock s)) as Hc by by apply HR. destruct (HW (cm_with_Data (lock_data uid hash) cm) cm') as (Hin & _ & _ & _ & E).
    + split; [|by left]. exact (HL cm Hc).
    + exists cm'. split; [done|]. unfold holder_of. rewrite E. apply get_insert_eq.
  - destruct (HW (new_lock (re_Gate (th_ctl t)) uid hash) cm') as (Hin & _ & _ & _ & E).
    + split; [|by right]. split; simpl; [done|exact EN].
    + exists cm'. split; [done|]. unfold holder_of. rewrite E. apply get_insert_eq.
Qed.

Lemma reachable_handover s vs vs' ts i r h o k x : reachable s -> s = mkSystem vs ts -> ts !! i = Some (mkThread r h (Act o k)) ->
  serve vs vs' o x -> vs' <> vs -> exists cm, vs' = cm :: vs /\ handover r h vs cm.
Proof.
  intros HR%reachable_good -> Hi HV Hne. destruct HR as [HN _ _ HT]. simpl in *.
  assert (In (mkThread r h (Act o k)) ts) as Hin by by eapply list_elem_of_In, list_elem_of_lookup_2.
  destruct (serve_handover _ _ _ _ _ _ _ HN (HT _ Hin) HV) as [?|(sent & cm & E & _ & _ & _ & Hh)]; [done|eauto].
Qed.
End system.

(** C6: However the passes of any number of controllers interleave, with stale reads, lost responses and
    crashes, the lock of a domain changes hands only through a free version: it is taken when free, by a
    pass for the UID of its own plan, and freed only by a pass that read the holder and since saw every
    cluster's native IC running again; and a pass that changes topology held one of those versions. *)
Theorem the_domain_lock_excludes {VAL : Validation} {MACH : Machinery} {UNS : Unstructured} {NEST : NestedFields} gate s :
  reachable gate s ->
  (forall l1 a b l2, sy_lock s = l1 ++ a :: b :: l2 -> holder_of a = "" \/ holder_of b = "") /\
  (forall i r h o k x vs', sy_threads s !! i = Some (mkThread r h (Act o k)) -> serve gate (sy_lock s) vs' o x -> vs' <> sy_lock s ->
     exists cm, vs' = cm :: sy_lock s /\ handover r h (sy_lock s) cm) /\
  (forall t uid hash, In t (sy_threads s) -> fenced (re_Gate (th_ctl t)) uid hash (th_done t) ->
     exists cm, In cm (sy_lock s) /\ holder_of cm = uid).
Proof.
  intros HR. pose proof (reachable_good gate s HR) as HG. split; [exact (go_hands _ _ HG)|]. split.
  - intros i r h o k x vs' Hi HV Hne. destruct s as [vs ts]. by eapply (reachable_handover gate _ vs vs' ts i r h o k x).
  - intros t uid hash Ht HF. by eapply fenced_recorded.
Qed.
