(* ===== verification/SiteReconciler.v ===== *)
(** * [internal/sitecontroller]: one locally owned attachment

    One pass of a site's controller over a SiteVpc. It contacts no other site: its
    adapters observe and change only the local cluster. The handler mutates its copy of
    the SiteVpc and of the plan's router in memory. *)
From S2P Require Import Prelude GoStd Json Validation SiteConfig Api Prog Kube Phases GlobalApi GlobalConfig GlobalPlan SitePlan Infra.
Open Scope Z_scope.

(** The gateway and network adapters are always configured; [rv_BFD] says whether the BFD
    adapter is. *)
Record Reconciler := mkReconciler {
  rv_Config : SiteConfig.Config; rv_Store : ResourceStore; rv_BFD : bool; rv_Interval : Z }.

(** [ovn.ErrBFDPortPending] *)
Definition ErrBFDPortPending : error := Errorf "waiting for native BFD port with at least two chassis".

(** ** The status *)

Definition vt_with_Operation (op : string) (t : SiteVpcStatus) : SiteVpcStatus :=
  mkSiteStatus (vt_ObservedGeneration t) (vt_Phase t) op (vt_PlanHash t) (vt_Resources t) (vt_GatewayResources t)
    (vt_BFDResources t) (vt_GatewayReadyCount t) (vt_GatewayDesiredCount t) (vt_Conditions t).
Definition vt_with_PlanHash (hash : string) (t : SiteVpcStatus) : SiteVpcStatus :=
  mkSiteStatus (vt_ObservedGeneration t) (vt_Phase t) (vt_Operation t) hash (vt_Resources t) (vt_GatewayResources t)
    (vt_BFDResources t) (vt_GatewayReadyCount t) (vt_GatewayDesiredCount t) (vt_Conditions t).
Definition vt_with_Resources (l : list ResourceRecord) (t : SiteVpcStatus) : SiteVpcStatus :=
  mkSiteStatus (vt_ObservedGeneration t) (vt_Phase t) (vt_Operation t) (vt_PlanHash t) l (vt_GatewayResources t)
    (vt_BFDResources t) (vt_GatewayReadyCount t) (vt_GatewayDesiredCount t) (vt_Conditions t).
Definition vt_with_Gateway (l : list GatewayResourceRecord) (t : SiteVpcStatus) : SiteVpcStatus :=
  mkSiteStatus (vt_ObservedGeneration t) (vt_Phase t) (vt_Operation t) (vt_PlanHash t) (vt_Resources t) l
    (vt_BFDResources t) (vt_GatewayReadyCount t) (vt_GatewayDesiredCount t) (vt_Conditions t).
Definition vt_with_BFD (l : list BFDResourceRecord) (t : SiteVpcStatus) : SiteVpcStatus :=
  mkSiteStatus (vt_ObservedGeneration t) (vt_Phase t) (vt_Operation t) (vt_PlanHash t) (vt_Resources t) (vt_GatewayResources t)
    l (vt_GatewayReadyCount t) (vt_GatewayDesiredCount t) (vt_Conditions t).
Definition vt_with_Counts (ready desired : Z) (t : SiteVpcStatus) : SiteVpcStatus :=
  mkSiteStatus (vt_ObservedGeneration t) (vt_Phase t) (vt_Operation t) (vt_PlanHash t) (vt_Resources t) (vt_GatewayResources t)
    (vt_BFDResources t) ready desired (vt_Conditions t).

Definition recorded (v : SiteVpc) (kind name : string) : string :=
  match List.find (fun x => (rc_Kind x =? kind)%string && (rc_Name x =? name)%string) (vt_Resources (sv_Status v)) with
  | Some x => rc_UID x | None => "" end.
Definition forget (kind name : string) (l : list ResourceRecord) : list ResourceRecord :=
  List.filter (fun x => negb (rc_Kind x =? kind)%string || negb (rc_Name x =? name)%string) l.
Definition sameReceipts (a b : list GatewayResourceRecord) : bool := bool_decide (a = b).
Definition sameBFDReceipts (a b : list BFDResourceRecord) : bool := bool_decide (a = b).
(** The map [byID]: the last record of a gateway. *)
Definition byID (records : list BFDResourceRecord) : gmap string string :=
  fold_left (fun m x => <[bf_GatewayID x := bf_UUID x]> m) records ∅.
(** Pairs of a ready gateway and an equal one whose session is up. *)
Definition ready_pairs (ready up : list string) : Z :=
  Z.of_nat (List.length (flat_map (fun id => List.filter (String.eqb id) up) ready)).

(** ** The routes of a highly available attachment *)

Definition bfd_route (hop uuid : string) : json :=
  JObj [("bfdId", JStr uuid); ("cidr", JStr "0.0.0.0/0"); ("ecmpMode", JStr "bfd"); ("nextHopIP", JStr hop); ("policy", JStr "policyDst")].
Definition gateway_routes (g : GatewayConfig) (records : list BFDResourceRecord) (conflicts : gmap string bool) : list json :=
  flat_map (fun m => let uuid := get (byID records) (gw_ID m) in
              if negb (uuid =? "")%string && negb (default false (conflicts !! gw_IP m)) then [bfd_route (gw_IP m) uuid] else [])
    (gc_Gateways g).

Section reconciler.
Context {VAL : Validation} {MACH : Machinery} {UNS : Unstructured} {NEST : NestedFields} {CONV : Converter}.
Variable r : Reconciler.
Let store := rv_Store r.
Let cluster := rs_Config store.

(** [setGatewayRoutes]: the router of the plan with these routes. *)
Definition setGatewayRoutes (p : Plan) (records : list BFDResourceRecord) (conflicts : gmap string bool) : Native :=
  match SetNestedSlice (un_Object (pl_Vpc p)) (gateway_routes (pl_Gateway p) records conflicts) ["spec"; "staticRoutes"] with
  | Ok j => with_Object j (pl_Vpc p)
  | Err _ => pl_Vpc p
  end.

Notation sphase := (phase ans SiteVpc).
Definition interval : Z := if rv_Interval r <? second then 10 * second else rv_Interval r.
Definition soon : Result := mkResult 1000000.

Definition save : sphase (res unit) := fun v =>
  bind (istatus AuthorityAPI KSiteVpc v) (fun x => Ret (match x with Ok v' => (Ok tt, v' : SiteVpc) | Err e => (Err e, v) end)).
Definition update : sphase (res unit) := fun v =>
  bind (iupdate AuthorityAPI KSiteVpc v) (fun x => Ret (match x with Ok v' => (Ok tt, v' : SiteVpc) | Err e => (Err e, v) end)).
Definition set_status (f : SiteVpcStatus -> SiteVpcStatus) : sphase unit := modify (fun v => sv_with_Status (f (sv_Status v)) v).
(** [return result, <write>] *)
Definition end_with {A} (result : Result) (p : sphase (res unit)) : sphase (flow A) :=
  x <- p ;;p pret (Return (match x with Ok _ => Ok result | Err e => Err e end)).
(** A change of the status that ends the pass. *)
Definition persist {A} (f : SiteVpcStatus -> SiteVpcStatus) : sphase (flow A) := _ <- set_status f ;;p end_with soon save.
Definition saved : sphase (flow unit) := or_return save.

(** The conditions of [state]. *)
Definition truth (b : bool) : string := if b then "True" else "False".
Definition site_conditions (v : SiteVpc) (reason message : string) (ready gateway : bool) : list Condition :=
  let gen := om_Generation (sv_Meta v) in
  let t := sv_Status v in
  let l := SetStatusCondition (vt_Conditions t) (mkCondition "LocalReady" (truth ready) reason message gen 0) in
  let l := SetStatusCondition l (mkCondition "GatewayConfigured" (truth gateway) reason message gen 0) in
  if 1 <? vt_GatewayDesiredCount t
  then if gateway && (vt_GatewayReadyCount t =? vt_GatewayDesiredCount t)
       then SetStatusCondition l (mkCondition "GatewayRedundant" "True" "AllGatewaysAvailable"
              "Every configured gateway has local process readiness and BFD connectivity" gen 0)
       else SetStatusCondition l (mkCondition "GatewayRedundant" "False" "GatewayRedundancyDegraded"
              "Fewer than the configured gateways have both local process readiness and BFD connectivity" gen 0)
  else l.
Definition state {A} (phase reason message : string) (ready gateway : bool) : sphase (flow A) := current (fun v =>
  let t := sv_Status v in
  let new := mkSiteStatus (om_Generation (sv_Meta v)) phase (vt_Operation t) (vt_PlanHash t) (vt_Resources t) (vt_GatewayResources t)
               (vt_BFDResources t) (vt_GatewayReadyCount t) (vt_GatewayDesiredCount t) (site_conditions v reason message ready gateway) in
  _ <- set_status (fun _ => new) ;;p
  if bool_decide (t = new) then pret (Return (Ok (mkResult interval))) else end_with (mkResult interval) save).
Definition blocked {A} (e : error) : sphase (flow A) := state "Blocked" "LocalReconcileBlocked" (error_text e) false false.
(** [if err != nil { return r.blocked(ctx, &v, err) }] *)
Definition attempt {A} (p : gprog (res A)) : sphase (flow A) := or_else blocked (lift p).
Definition waiting {A} (phase reason message : string) (gateway : bool) : sphase (flow A) := state phase reason message false gateway.

(** ** Observation *)

Definition resources_of (p : Plan) : list Native := [pl_Vpc p; pl_Subnet p; pl_Transit p].
Definition recorded_uid (v : SiteVpc) (o : Native) : string := recorded v (un_Kind o) (om_Name (un_Meta o)).
(** One resource of the preflight. *)
Definition preflight (p : Plan) (o : Native) : sphase (flow unit) := current (fun v =>
  x <- lift (store_get store (un_Kind o) (om_Name (un_Meta o))) ;;p
  match x with
  | Err e => if IsNotFound e then pret (Continue tt) else blocked (Errorf "local ownership preflight failed")
  | Ok actual =>
      let expected := recorded_uid v o in
      if negb (get (om_Labels (un_Meta actual)) OwnerLabel =? pl_OwnerUID p)%string ||
         negb (get (om_Labels (un_Meta actual)) ClusterLabel =? SiteConfig.cl_UID (cfg_Cluster (rv_Config r)))%string ||
         (negb (expected =? "")%string && negb (om_UID (un_Meta actual) =? expected)%string)
      then blocked (Errorf "local resource ownership or UID conflict") else pret (Continue tt)
  end).
(** The BFD sessions, whose receipts are persisted first; [zero_bfd] without BFD. *)
Definition zero_bfd : BFDState := mkBFDState [] [] false.
Definition keep_receipts (s : BFDState) : sphase (flow BFDState) := current (fun v =>
  if negb (sameBFDReceipts (vt_BFDResources (sv_Status v)) (bs_Records s)) then persist (vt_with_BFD (bs_Records s)) else pret (Continue s)).
Definition observe_bfd (p : Plan) : sphase (flow BFDState) := current (fun v =>
  if negb (IsHA (pl_Gateway p)) then pret (Continue zero_bfd)
  else if negb (rv_BFD r) then blocked (Errorf "local BFD adapter is not configured")
  else
    s <~ attempt (adapt (GetBFD cluster (pl_Gateway p) (vt_BFDResources (sv_Status v)))) ;;p
    keep_receipts s).

(** ** Applying the plan *)

(** The resources of the plan, with the gateway routes of a highly available attachment. *)
Definition desired (p : Plan) (s : BFDState) : sphase (flow (list Native)) :=
  if IsHA (pl_Gateway p)
  then
    conflicts <~ attempt (adapt (BFDRouteConflicts cluster (pl_Gateway p) (bs_Records s))) ;;p
    pret (Continue [setGatewayRoutes p (bs_Records s) conflicts; pl_Subnet p; pl_Transit p])
  else pret (Continue (resources_of p)).
Definition ensure_resource (o : Native) : sphase (flow unit) := current (fun v =>
  x <- lift (StoreEnsure store o (recorded_uid v o)) ;;p
  match x with
  | Err e =>
      if Is e ErrRecordedResourceMissing
      then persist (fun t => vt_with_Resources (forget (un_Kind o) (om_Name (un_Meta o)) (vt_Resources t)) t)
      else blocked e
  | Ok uid =>
      if negb (recorded_uid v o =? uid)%string
      then
        _ <- set_status (fun t => vt_with_Resources (vt_Resources t ++
               [mkResource (SiteConfig.cl_Name (cfg_Cluster (rv_Config r))) (un_Kind o) (om_Name (un_Meta o)) uid]) t) ;;p
        saved
      else pret (Continue tt)
  end).
Definition ready_subnet (p : Plan) (name : string) : sphase (flow unit) := current (fun v =>
  ready <~ attempt (Ready store "Subnet" name (pl_OwnerUID p) (recorded v "Subnet" name)) ;;p
  if negb ready then waiting "Pending" "LocalSubnetsPending" "Waiting for local Kube-OVN Subnets" false else pret (Continue tt)).
Definition ensure_bfd (p : Plan) (s : BFDState) : sphase (flow BFDState) := current (fun v =>
  if negb (IsHA (pl_Gateway p)) then pret (Continue s)
  else
    x <- lift (adapt (EnsureBFD cluster (pl_Gateway p) (vt_BFDResources (sv_Status v)))) ;;p
    match x with
    | Err e => if Is e ErrBFDPortPending then waiting "Pending" "NativeBFDPortPending" (error_text e) false else blocked e
    | Ok s => keep_receipts s
    end).
Definition ensure_gateway (p : Plan) : sphase (flow GatewayResult) := current (fun v =>
  result <~ attempt (adapt (GatewayEnsure (pl_Gateway p) (vt_GatewayResources (sv_Status v)))) ;;p
  _ <~ (if negb (sameReceipts (vt_GatewayResources (sv_Status v)) (gw_Resources result))
        then _ <- set_status (vt_with_Gateway (gw_Resources result)) ;;p saved else pret (Continue tt)) ;;p
  pret (Continue (result : GatewayResult))).

Definition count_ready (p : Plan) (s : BFDState) (result : GatewayResult) : sphase (flow unit) := current (fun v =>
  if negb (IsHA (pl_Gateway p)) then pret (Continue tt)
  else
    let n := ready_pairs (gw_ReadyGatewayIDs result) (bs_Up s) in
    let t := sv_Status v in
    if negb (vt_GatewayReadyCount t =? n) || negb (vt_GatewayDesiredCount t =? gw_DesiredGateways result)
    then persist (vt_with_Counts n (gw_DesiredGateways result))
    else if n =? 0
    then waiting "Pending" "LocalGatewayBFDPending" "Waiting for a configured local gateway with BFD connectivity" false
    else pret (Continue tt)).

Definition source_routes (v : SiteVpc) (p : Plan) : list Route :=
  [mkRoute (sp_CIDR (sv_Spec v)) (sp_Gateway (sv_Spec v)) "src-ip" "";
   mkRoute (gc_TransitCIDR (pl_Gateway p)) (gc_RouterIP (pl_Gateway p)) "src-ip" ""].
(** The routes the tenant router has to carry; none while a session has no identity. *)
Definition expected_routes (v : SiteVpc) (p : Plan) : option (list Route) :=
  if IsHA (pl_Gateway p)
  then
    let ids := byID (vt_BFDResources (sv_Status v)) in
    if existsb (fun m => (get ids (gw_ID m) =? "")%string) (gc_Gateways (pl_Gateway p)) then None
    else Some (source_routes v p ++ map (fun m => mkRoute "0.0.0.0/0" (gw_IP m) "dst-ip" (get ids (gw_ID m))) (gc_Gateways (pl_Gateway p)))
  else Some (source_routes v p ++ [mkRoute "0.0.0.0/0" (gc_GatewayIP (pl_Gateway p)) "dst-ip" ""]).
Definition connect (p : Plan) : sphase (flow Result) := current (fun v =>
  match expected_routes v p with
  | None => waiting "Pending" "LocalBFDConfigurationPending" "Waiting for all local BFD identities" true
  | Some routes =>
      ready <~ attempt (adapt (RoutesReady cluster (pl_VpcName p) routes)) ;;p
      if negb ready then waiting "Pending" "LocalRoutesPending" "Waiting for the local OVN gateway route" true
      else
        _ <~ (if IsHA (pl_Gateway p)
              then
                ready <~ attempt (adapt (EnsureECMPFields cluster (pl_Gateway p) (vt_BFDResources (sv_Status v)))) ;;p
                if negb ready then waiting "Pending" "LocalECMPFieldsPending" "Waiting for native route flow-hash fields" true
                else pret (Continue tt)
              else pret (Continue tt)) ;;p
        state "LocalReady" "LocalConfigurationApplied"
          "Local network and gateway configured; remote reachability is observed by the routing layer" true true
  end).
Definition apply (p : Plan) (s : BFDState) : sphase (flow Result) :=
  l <~ desired p s ;;p
  _ <~ peach ensure_resource l ;;p
  _ <~ peach (ready_subnet p) [pl_SubnetName p; pl_TransitName p] ;;p
  s <~ ensure_bfd p s ;;p
  result <~ ensure_gateway p ;;p
  _ <~ count_ready p s result ;;p
  if negb (gw_Ready result)
  then waiting "Pending" "LocalGatewayPending" "Waiting for local gateway configuration; remote peers do not gate this state" false
  else connect p.

(** ** Deletion *)

Definition withdraw_bfd (p : Plan) : sphase (flow unit) := current (fun v =>
  if negb (IsHA (pl_Gateway p)) then pret (Continue tt)
  else
    absent <~ attempt (adapt (DeleteBFD cluster (pl_Gateway p) (vt_BFDResources (sv_Status v)))) ;;p
    if negb absent then waiting "Deleting" "BFDWithdrawalPending" "Waiting for native route withdrawal and owned BFD removal" false
    else if empty (vt_BFDResources (sv_Status v)) then pret (Continue tt) else persist (vt_with_BFD [])).
Definition removals (p : Plan) : list (string * string) :=
  [("Subnet", pl_SubnetName p); ("Subnet", pl_TransitName p); ("Vpc", pl_VpcName p)]%string.
Definition remove_resource (p : Plan) (item : string * string) : sphase (flow unit) := current (fun v =>
  let '(kind, name) := item in
  absent <~ attempt (StoreDelete store kind name (pl_OwnerUID p) (recorded v kind name)) ;;p
  if negb absent then waiting "Deleting" "LocalRemovalPending" "Waiting for local Kube-OVN resource removal" false else pret (Continue tt)).
(** [Operation] is [DeleteResources]: the gateway is gone. *)
Definition remove_network (p : Plan) : sphase (flow Result) := current (fun v =>
  empty <~ attempt (adapt (EndpointsEmpty cluster (pl_TransitName p))) ;;p
  if negb empty then waiting "Deleting" "TransitTeardownPending" "Waiting for local transit endpoint removal" false
  else
    _ <~ attempt (WithdrawRoutes store (pl_VpcName p) (pl_OwnerUID p) (recorded v "Vpc" (pl_VpcName p))) ;;p
    _ <~ withdraw_bfd p ;;p
    _ <~ peach (remove_resource p) (removals p) ;;p
    absent <~ attempt (adapt (LocalAbsent cluster (pl_VpcName p) (pl_SubnetName p) (pl_TransitName p))) ;;p
    if negb absent then waiting "Deleting" "LocalOVNRemovalPending" "Waiting for local OVN topology removal" false
    else _ <- modify (sv_with_Meta (fun m => RemoveFinalizer m SiteFinalizer)) ;;p end_with (mkResult 0) update).
Definition remove (p : Plan) : sphase (flow Result) := current (fun v =>
  empty <~ attempt (adapt (EndpointsEmpty cluster (pl_SubnetName p))) ;;p
  if negb empty then waiting "Deleting" "LocalEndpointsPresent" "Drain local workload endpoints before detaching" false
  else
    result <~ attempt (adapt (GatewayEndpointsEmpty (pl_Gateway p) (vt_GatewayResources (sv_Status v)))) ;;p
    if negb (gw_EndpointsEmpty result)
    then waiting "Deleting" "LocalEndpointsPresent" "Drain local workload and transit endpoints before detaching" false
    else
      let operation := vt_Operation (sv_Status v) in
      if (operation =? "")%string then persist (vt_with_Operation "DeleteGateway")
      else if (operation =? "DeleteGateway")%string
      then
        result <~ attempt (adapt (GatewayDelete (pl_Gateway p) (vt_GatewayResources (sv_Status v)))) ;;p
        if negb (gw_Absent result)
        then waiting "Deleting" "GatewayWithdrawalPending" "Waiting for local gateway removal and route withdrawal" false
        else persist (fun t => vt_with_Operation "DeleteResources" (vt_with_Gateway [] t))
      else if negb (operation =? "DeleteResources")%string then blocked (Errorf "unrecognized durable deletion operation")
      else remove_network p).

(** ** [Reconcile] *)

(** The plan is accepted once and then has to stay what it is. *)
Definition accept (p : Plan) : sphase (flow unit) := current (fun v =>
  if (vt_PlanHash (sv_Status v) =? "")%string then _ <- set_status (vt_with_PlanHash (pl_Hash p)) ;;p saved else pret (Continue tt)).

Definition reconcile : sphase (flow Result) := current (fun v =>
  let cfg := rv_Config r in
  if negb (sp_SiteID (sv_Spec v) =? cfg_SiteID cfg)%string || negb (sp_AttachmentID (sv_Spec v) =? cfg_AttachmentID cfg)%string
  then pret (Return (Ok (mkResult 0)))
  else if terminating (sv_Meta v) && negb (ContainsFinalizer (sv_Meta v) SiteFinalizer) then pret (Return (Ok (mkResult 0)))
  else
    match Build (Some v) cfg with
    | Err e => blocked e
    | Ok p =>
        if negb (vt_PlanHash (sv_Status v) =? "")%string && negb (vt_PlanHash (sv_Status v) =? pl_Hash p)%string
        then blocked (Errorf "accepted local intent or registration changed; restore its accepted configuration")
        else if negb (ContainsFinalizer (sv_Meta v) SiteFinalizer)
        then _ <- modify (sv_with_Meta (fun m => AddFinalizer m SiteFinalizer)) ;;p end_with soon update
        else
          _ <~ accept p ;;p
          _ <~ attempt (CheckIdentity store) ;;p
          _ <~ peach (preflight p) (resources_of p) ;;p
          current (fun v =>
            observed <~ attempt (adapt (GatewayGet (pl_Gateway p) (vt_GatewayResources (sv_Status v)))) ;;p
            s <~ observe_bfd p ;;p
            current (fun v =>
              if terminating (sv_Meta v)
              then
                if (vt_Operation (sv_Status v) =? "DeleteResources")%string && negb (gw_Absent observed)
                then persist (fun t => vt_with_Operation "DeleteGateway" (vt_with_Gateway (gw_Resources observed) t))
                else remove p
              else if negb (sameReceipts (vt_GatewayResources (sv_Status v)) (gw_Resources observed))
              then persist (vt_with_Gateway (gw_Resources observed))
              else apply p s))
    end).

Definition Reconcile (ns name : string) : gprog (res Result) :=
  x <- iget AuthorityAPI KSiteVpc ns name ;;
  match x with
  | Err e => Ret (if IsNotFound e then Ok (mkResult 0) else Err e)
  | Ok v => run_phase reconcile v
  end.
End reconciler.
