(* ===== verification/SiteSafety.v ===== *)
(** * What a pass of the site controller never does

    [permitted] is the discipline of every call of [Reconcile], for every answer of the
    API server and the adapters and wherever the pass stops. *)
From S2P Require Import Prelude GoStd Json Validation SiteConfig Api Prog Kube Phases GlobalApi GlobalConfig GlobalPlan SitePlan Infra InfraFacts SiteReconciler.
Open Scope Z_scope.

Section safety.
Context {VAL : Validation} {MACH : Machinery} {UNS : Unstructured} {NEST : NestedFields} {CONV : Converter}.
Context (r : Reconciler).
Let store := rv_Store r.
Let cluster := rs_Config store.

(** [p] is the plan of the SiteVpc the pass read. *)
Definition planned (h : ghistory) (p : Plan) : Prop :=
  exists ns nm v, asked h (Get AuthorityAPI KSiteVpc ns nm) (Ok v) /\ Build (Some v) (rv_Config r) = Ok p.
(** The SiteVpc as the API server showed it to the pass. *)
Definition shown (h : ghistory) (v : SiteVpc) : Prop :=
  (exists ns nm, asked h (Get AuthorityAPI KSiteVpc ns nm) (Ok v)) \/ (exists v', asked h (UpdateStatus AuthorityAPI KSiteVpc v') (Ok v)).
Definition deleting (operation : string) (h : ghistory) : Prop :=
  exists v, shown h v /\ terminating (sv_Meta v) = true /\ vt_Operation (sv_Status v) = operation.

(** No workload or transit endpoint was seen in use. *)
Definition drained (h : ghistory) (p : Plan) : Prop :=
  asked h (Adapter (EndpointsEmpty cluster (pl_SubnetName p))) (Ok true) /\
  exists l x, asked h (Adapter (GatewayEndpointsEmpty (pl_Gateway p) l)) (Ok x) /\ gw_EndpointsEmpty x = true.
(** An earlier pass recorded that the gateway is gone; this one saw it absent, and after
    that the transit empty and the routes withdrawn. *)
Definition detached (h : ghistory) (p : Plan) : Prop :=
  drained h p /\ deleting "DeleteResources" h /\
  (exists l x, asked h (Adapter (GatewayGet (pl_Gateway p) l)) (Ok x) /\ gw_Absent x = true) /\
  asked h (Adapter (EndpointsEmpty cluster (pl_TransitName p))) (Ok true) /\ unrouted store h (pl_VpcName p) (pl_OwnerUID p).
Definition unbound (h : ghistory) (p : Plan) : Prop :=
  IsHA (pl_Gateway p) = true -> exists l, asked h (Adapter (DeleteBFD cluster (pl_Gateway p) l)) (Ok true).
(** Nothing of the attachment is left. *)
Definition finished (h : ghistory) (p : Plan) : Prop :=
  detached h p /\ unbound h p /\ (forall kind name, In (kind, name) (removals p) -> exists c, absent_read store h c kind name) /\
  asked h (Adapter (LocalAbsent cluster (pl_VpcName p) (pl_SubnetName p) (pl_TransitName p))) (Ok true).

(** A subnet was read ready under the owner's label; both were. *)
Definition subnet_ready (h : ghistory) (p : Plan) (name : string) : Prop :=
  exists c expected o, owned_read store h c "Subnet" name (pl_OwnerUID p) expected o /\ terminating (un_Meta o) = false /\
    existsb ready_condition (default [] (NestedSlice (un_Object o) ["status"; "conditions"])) = true.
Definition prepared (h : ghistory) (p : Plan) : Prop := subnet_ready h p (pl_SubnetName p) /\ subnet_ready h p (pl_TransitName p).
(** The gateway answered that it is configured; a highly available one has a member whose
    process is ready and whose session is up. *)
Definition serving (h : ghistory) (p : Plan) : Prop :=
  exists l x, asked h (Adapter (GatewayEnsure (pl_Gateway p) l)) (Ok x) /\ gw_Ready x = true /\
    (IsHA (pl_Gateway p) = true -> exists l' s, asked h (Adapter (EnsureBFD cluster (pl_Gateway p) l')) (Ok s) /\
       exists id, In id (gw_ReadyGatewayIDs x) /\ In id (bs_Up s)).
(** The router carries exactly the routes of the attachment. *)
Definition routed (h : ghistory) (p : Plan) : Prop :=
  exists v routes, shown h v /\ expected_routes v p = Some routes /\ asked h (Adapter (RoutesReady cluster (pl_VpcName p) routes)) (Ok true).
Definition completed (h : ghistory) (p : Plan) : Prop :=
  prepared h p /\ serving h p /\ routed h p /\
  (IsHA (pl_Gateway p) = true -> exists l, asked h (Adapter (EnsureECMPFields cluster (pl_Gateway p) l)) (Ok true)).

(** ** The discipline *)

Definition may_adapt (h : ghistory) (a : adapter) : Prop :=
  match a with
  | EnsureBFD c g _ => c = cluster /\ exists p, planned h p /\ g = pl_Gateway p /\ prepared h p
  | GatewayEnsure g l => exists p v, planned h p /\ g = pl_Gateway p /\ prepared h p /\ shown h v /\ l = vt_GatewayResources (sv_Status v)
  | EnsureECMPFields c g _ => c = cluster /\ exists p, planned h p /\ g = pl_Gateway p /\ serving h p /\ routed h p
  | GatewayDelete g l => exists p, planned h p /\ g = pl_Gateway p /\ drained h p /\ deleting "DeleteGateway" h
  | DeleteBFD c g _ => c = cluster /\ exists p, planned h p /\ g = pl_Gateway p /\ detached h p
  | EndpointsEmpty _ _ | LocalAbsent _ _ _ _ | RoutesReady _ _ _ | GetBFD _ _ _ | BFDRouteConflicts _ _ _
  | GatewayGet _ _ | GatewayEndpointsEmpty _ _ => True
  | _ => False
  end.
(** The resources a pass wants: those of the plan, with the routes of the BFD sessions it
    saw that no other route is in the way of. *)
Definition wanted (h : ghistory) (p : Plan) (o : Native) : Prop :=
  In o (resources_of p) \/
  exists s l conflicts, IsHA (pl_Gateway p) = true /\ asked h (Adapter (GetBFD cluster (pl_Gateway p) l)) (Ok s) /\
    asked h (Adapter (BFDRouteConflicts cluster (pl_Gateway p) (bs_Records s))) (Ok conflicts) /\
    o = setGatewayRoutes p (bs_Records s) conflicts.
Definition may_create (h : ghistory) (api : Infra.store) (k : string) (o : Native) : Prop :=
  exists p v, planned h p /\ wanted h p o /\ k = un_Kind o /\ absent_read store h api k (om_Name (un_Meta o)) /\
    shown h v /\ recorded_uid v o = "".
Definition may_change (h : ghistory) (api : Infra.store) (k : string) (o' : Native) : Prop :=
  exists p o j kind name expected, planned h p /\ k = un_Kind o /\ o' = with_Object j o /\
    owned_read store h api kind name (pl_OwnerUID p) expected o.
Definition may_delete (h : ghistory) (api : Infra.store) (k ns nm : string) (pre : Preconditions) : Prop :=
  exists p o kind name expected, planned h p /\ In (kind, name) (removals p) /\ k = un_Kind o /\
    ns = om_Namespace (un_Meta o) /\ nm = om_Name (un_Meta o) /\
    pre = mkPre (Some (om_UID (un_Meta o))) (Some (om_ResourceVersion (un_Meta o))) /\
    owned_read store h api kind name (pl_OwnerUID p) expected o /\ detached h p /\ unbound h p /\
    (kind = "Vpc" -> forall n, In n [pl_SubnetName p; pl_TransitName p] -> exists c, absent_read store h c "Subnet" n)%string.
Definition may_update (h : ghistory) (v' : SiteVpc) : Prop :=
  (exists v, shown h v /\ terminating (sv_Meta v) = false /\ v' = sv_with_Meta (fun m => AddFinalizer m SiteFinalizer) v) \/
  (exists v p, v' = sv_with_Meta (fun m => RemoveFinalizer m SiteFinalizer) v /\ planned h p /\ finished h p).
(** A status keeps the accepted plan, and says that all is in place only when it is. *)
Definition may_report (h : ghistory) (v' : SiteVpc) : Prop :=
  exists v, shown h v /\ sv_Meta v' = sv_Meta v /\ sv_Spec v' = sv_Spec v /\
    (vt_PlanHash (sv_Status v') = vt_PlanHash (sv_Status v) \/
     vt_PlanHash (sv_Status v) = "" /\ exists p, planned h p /\ vt_PlanHash (sv_Status v') = pl_Hash p) /\
    (vt_Phase (sv_Status v') = vt_Phase (sv_Status v) \/ vt_Phase (sv_Status v') <> "LocalReady" \/ exists p, planned h p /\ completed h p)%string.

Definition permitted (h : ghistory) (o : op) : Prop :=
  match o with
  | Get _ _ _ _ | Panic => True
  | Adapter a => may_adapt h a
  | Create s k x => match k return object k -> Prop with KNative kind => may_create h s kind | _ => fun _ => False end x
  | Update s k x =>
      match k return object k -> Prop with
      | KSiteVpc => fun x => s = AuthorityAPI /\ may_update h x
      | KNative kind => may_change h s kind
      | _ => fun _ => False
      end x
  | UpdateStatus s k x =>
      match k return object k -> Prop with KSiteVpc => fun x => s = AuthorityAPI /\ may_report h x | _ => fun _ => False end x
  | Delete s k ns nm p => match k with KNative kind => may_delete h s kind ns nm p | _ => False end
  | ListIn _ _ _ | Reserve _ _ => False
  end.

Lemma site_planned_extends h h' p : extends h h' -> planned h p -> planned h' p.
Proof. intros HE (ns & nm & v & ? & ?). exists ns, nm, v. eauto using asked_extends. Qed.
Lemma site_shown_extends h h' v : extends h h' -> shown h v -> shown h' v.
Proof. intros HE [(ns & nm & ?)|(v' & ?)]; [left; exists ns, nm|right; exists v']; eauto using asked_extends. Qed.
Lemma drained_extends h h' p : extends h h' -> drained h p -> drained h' p.
Proof. intros HE (? & l & x & ? & ?). split; [by eapply asked_extends|]. exists l, x. split; [by eapply asked_extends|done]. Qed.
Lemma unrouted_extends h h' n ow : extends h h' -> unrouted store h n ow -> unrouted store h' n ow.
Proof.
  intros HE [(c & ?)|(c & e & o & ? & Ho)]; [left; exists c; by eapply absent_read_extends|right; exists c, e, o].
  split; [by eapply owned_read_extends|]. destruct Ho as [?|(o' & ?)]; [by left|right; exists o'; by eapply asked_extends].
Qed.
Lemma detached_extends h h' p : extends h h' -> detached h p -> detached h' p.
Proof.
  intros HE (HD & (v & ? & ?) & (l & x & ? & ?) & ? & ?). split; [by eapply drained_extends|].
  split; [exists v; split; [by eapply site_shown_extends|done]|]. split; [exists l, x; split; [by eapply asked_extends|done]|].
  split; [by eapply asked_extends|by eapply unrouted_extends].
Qed.
Lemma unbound_extends h h' p : extends h h' -> unbound h p -> unbound h' p.
Proof. intros HE HU Hh. destruct (HU Hh) as [l ?]. exists l. by eapply asked_extends. Qed.
Lemma site_subnet_ready_extends h h' p n : extends h h' -> subnet_ready h p n -> subnet_ready h' p n.
Proof. intros HE (c & e & o & ? & ?). exists c, e, o. split; [by eapply owned_read_extends|done]. Qed.
Lemma prepared_extends h h' p : extends h h' -> prepared h p -> prepared h' p.
Proof. intros HE [? ?]. by split; eapply site_subnet_ready_extends. Qed.
Lemma serving_extends h h' p : extends h h' -> serving h p -> serving h' p.
Proof.
  intros HE (l & x & ? & ? & HH). exists l, x. split; [by eapply asked_extends|]. split; [done|].
  intros Hh. destruct (HH Hh) as (l' & s & ? & ?). exists l', s. split; [by eapply asked_extends|done].
Qed.
Lemma routed_extends h h' p : extends h h' -> routed h p -> routed h' p.
Proof. intros HE (v & l & ? & ? & ?). exists v, l. split; [by eapply site_shown_extends|]. split; [done|by eapply asked_extends]. Qed.

(** A fact about an earlier history still holds. *)
Ltac onwards lemma := match goal with H : _ |- _ => solve [eapply lemma; [|exact H]; extending] end.

(** ** Phases *)

Notation sphase := (phase ans SiteVpc).
(** Where a pass stands: its plan, and the copy as the API server showed it. *)
Definition here (h : ghistory) (p : Plan) (v : SiteVpc) : Prop := planned h p /\ shown h v.
Lemma here_extends h h' p v : extends h h' -> here h p v -> here h' p v.
Proof. intros HE [? ?]. split; [onwards site_planned_extends|onwards site_shown_extends]. Qed.

Lemma pwp_site_save v h (Q : ghistory -> res unit -> SiteVpc -> Prop) : may_report h v ->
  (forall h' v', extends h h' -> shown h' v' -> Q h' (Ok tt) v') -> (forall h' e, extends h h' -> Q h' (Err e) v) ->
  pwp permitted save v h Q.
Proof.
  intros HM H1 H2. unfold pwp, save. apply wp_bind_rule. gstep; [done|]. intros [v'|e] _; simpl.
  - apply H1; [apply extends_snoc|]. right. exists v. apply asked_snoc.
  - apply H2, extends_snoc.
Qed.
Lemma pwp_site_saved v h (P : ghistory -> unit -> SiteVpc -> Prop) : may_report h v ->
  (forall h' v', extends h h' -> shown h' v' -> P h' tt v') -> pwp permitted saved v h (cont P).
Proof. intros HM H. unfold saved. pstep. apply pwp_site_save; [done|intros; by apply H|done]. Qed.
(** Changes of the status that leave the plan and the phase alone. *)
Definition bookkeeping (f : SiteVpcStatus -> SiteVpcStatus) : Prop := forall t, vt_PlanHash (f t) = vt_PlanHash t /\ vt_Phase (f t) = vt_Phase t.
Lemma bookkeeping_report f v h : shown h v -> bookkeeping f -> may_report h (sv_with_Status (f (sv_Status v)) v).
Proof. intros Hv Hf. destruct (Hf (sv_Status v)) as [E1 E2]. exists v. split; [done|]. repeat split; by left. Qed.
Lemma pwp_persist {A} f v h (P : ghistory -> A -> SiteVpc -> Prop) : shown h v -> bookkeeping f -> pwp permitted (persist f) v h (cont P).
Proof.
  intros Hv Hf. unfold persist, set_status, end_with. pstep. pstep. pstep.
  apply pwp_site_save; [by apply bookkeeping_report|intros; by pstep..].
Qed.
Lemma pwp_site_state {A} phase reason message ready gateway v h (P : ghistory -> A -> SiteVpc -> Prop) : shown h v ->
  phase <> "LocalReady"%string \/ (exists p, planned h p /\ completed h p) ->
  pwp permitted (state r phase reason message ready gateway) v h (cont P).
Proof.
  intros Hv HP. unfold state, set_status, end_with. pstep. pstep. pstep. pstep; [by pstep|]. pstep.
  apply pwp_site_save; [|intros; by pstep..]. exists v. split; [done|]. split; [done|]. split; [done|]. split; [by left|]. right. exact HP.
Qed.
Lemma pwp_waiting {A} phase reason message gateway v h (P : ghistory -> A -> SiteVpc -> Prop) : shown h v ->
  phase <> "LocalReady"%string -> pwp permitted (waiting r phase reason message gateway) v h (cont P).
Proof. intros. apply pwp_site_state; [done|by left]. Qed.
Lemma pwp_site_attempt {A} (q : gprog (res A)) v h (P : ghistory -> A -> SiteVpc -> Prop) : shown h v ->
  wp any_answer permitted q h (fun h' x => forall a, x = Ok a -> P h' a v) -> pwp permitted (attempt r q) v h (cont P).
Proof.
  intros Hv H. unfold attempt. pstep. pstep. eapply wp_mono; [|apply wp_extends, H]. intros h' [a|e] [E Ha]; [by apply Ha|].
  apply (pwp_waiting "Blocked"); [onwards site_shown_extends|done].
Qed.
(** An adapter is asked, and the pass goes on with its answer. *)
Lemma pwp_ask {B} (a : adapter) (f : adapted a -> sphase (flow B)) p v h (P : ghistory -> B -> SiteVpc -> Prop) : here h p v -> may_adapt h a ->
  (forall x h', extends h h' -> asked h' (Adapter a) (Ok x) -> here h' p v -> pwp permitted (f x) v h' (cont P)) ->
  pwp permitted (pflow (attempt r (adapt a)) f) v h (cont P).
Proof.
  intros Hv HM HF. apply (pwp_then _ _ _ _ (fun h' x v' => v' = v /\ asked h' (Adapter a) (Ok x))).
  - apply pwp_site_attempt; [by apply Hv|]. gstep; [done|]. intros x _ y ->. split; [done|apply asked_snoc].
  - intros h' x v' E [-> Ha]. apply HF; [done|done|onwards here_extends].
Qed.
Lemma pwp_asked {A} (q : gprog (res A)) {B} (f : A -> sphase (flow B)) (J : ghistory -> A -> Prop) p v h (P : ghistory -> B -> SiteVpc -> Prop) : here h p v ->
  wp any_answer permitted q h (fun h' x => forall a, x = Ok a -> J h' a) ->
  (forall x h', extends h h' -> J h' x -> here h' p v -> pwp permitted (f x) v h' (cont P)) ->
  pwp permitted (pflow (attempt r q) f) v h (cont P).
Proof.
  intros Hv HQ HF. apply (pwp_then _ _ _ _ (fun h' x v' => v' = v /\ J h' x)).
  - apply pwp_site_attempt; [by apply Hv|]. eapply wp_mono; [|exact HQ]. intros h' x H a E. split; [done|by apply H].
  - intros h' x v' E [-> Ha]. apply HF; [done|done|onwards here_extends].
Qed.

Lemma site_permitted_get h s k ns nm : permitted h (Get s k ns nm). Proof. done. Qed.
Lemma site_permitted_panic h : permitted h Panic. Proof. done. Qed.
Hint Resolve site_permitted_get site_permitted_panic : core.

Lemma preflight_keeps p o v h : here h p v -> pwp permitted (preflight r p o) v h (cont (fun _ _ v' => v' = v)).
Proof.
  intros Hv. unfold preflight. pstep. pstep. pstep. apply wp_store_get; [done..|]. intros c [o'|e] Hc.
  - pstep; [|by pstep]. apply pwp_waiting; [|done]. apply (site_shown_extends h); [apply extends_snoc|apply Hv].
  - destruct (IsNotFound e); [by pstep|]. apply pwp_waiting; [|done]. apply (site_shown_extends h); [apply extends_snoc|apply Hv].
Qed.
Lemma pwp_site_accept p v h : here h p v -> pwp permitted (accept p) v h (cont (fun h' _ v' => here h' p v')).
Proof.
  intros Hv. unfold accept. pstep. pstep; [|by pstep]. breflect. unfold set_status. pstep. pstep. apply pwp_site_saved.
  - exists v. split; [apply Hv|]. split; [done|]. split; [done|]. split; [|by left]. right. split; [done|]. exists p. split; [apply Hv|done].
  - intros h' v' E Hs. split; [eapply site_planned_extends; [exact E|apply Hv]|done].
Qed.

(** ** Applying the plan *)

Lemma keep_receipts_ok s p v h : here h p v -> pwp permitted (keep_receipts s) v h (cont (fun _ x v' => v' = v /\ x = s)).
Proof. intros Hv. unfold keep_receipts. pstep. pstep; [|by pstep]. apply pwp_persist; [apply Hv|done]. Qed.

Lemma observe_ok p v h : here h p v -> pwp permitted (observe_bfd r p) v h (cont (fun h' s v' => v' = v /\
  (IsHA (pl_Gateway p) = true -> exists l, asked h' (Adapter (GetBFD cluster (pl_Gateway p) l)) (Ok s)))).
Proof.
  intros Hv. unfold observe_bfd. pstep. pstep; [pstep; split; [done|by intros E; rewrite E in Ec]|]. pstep; [apply pwp_waiting; [apply Hv|done]|].
  apply (pwp_ask _ _ p); [done|done|]. intros s h1 E1 Ha H1. eapply pwp_cont; [|by apply (keep_receipts_ok s p)].
  intros h2 s' v' E2 [-> ->]. split; [done|]. intros _. exists (vt_BFDResources (sv_Status v)). onwards (@asked_extends _ ans).
Qed.

Lemma wanted_extends h h' p o : extends h h' -> wanted h p o -> wanted h' p o.
Proof.
  intros HE [?|(s & l & c & ? & ? & ? & ?)]; [by left|]. right. exists s, l, c. split; [done|]. do 2 (split; [onwards (@asked_extends _ ans)|]). done.
Qed.
Lemma wanted_owner h p o : planned h p -> wanted h p o -> get (om_Labels (un_Meta o)) OwnerLabel = pl_OwnerUID p.
Proof.
  intros (ns & nm & v & _ & HB) HW.
  assert (forall o, In o (resources_of p) -> get (om_Labels (un_Meta o)) OwnerLabel = pl_OwnerUID p) as HO.
  { clear HW o. simpl in HB. unfold build in HB. follow HB; injection HB as <-;
      by intros o [<-|[<-|[<-|[]]]]; simpl; rewrite get_insert_eq. }
  destruct HW as [Ho|(s & l & c & _ & _ & _ & ->)]; [by apply HO|]. unfold setGatewayRoutes.
  destruct (SetNestedSlice _ _ _); apply (HO (pl_Vpc p)); by left.
Qed.

Lemma desired_ok p s v h : here h p v ->
  (IsHA (pl_Gateway p) = true -> exists l, asked h (Adapter (GetBFD cluster (pl_Gateway p) l)) (Ok s)) ->
  pwp permitted (desired r p s) v h (cont (fun h' l v' => v' = v /\ forall o, In o l -> wanted h' p o)).
Proof.
  intros Hv HS. unfold desired. destruct (IsHA (pl_Gateway p)) eqn:EH.
  - apply (pwp_ask _ _ p); [done|done|]. intros conflicts h1 E1 Ha H1. pstep. split; [done|].
    destruct (HS eq_refl) as [l Hl]. intros o [<-|Ho].
    + right. exists s, l, conflicts. split; [done|]. split; [onwards (@asked_extends _ ans)|done].
    + left. by right.
  - pstep. split; [done|]. by left.
Qed.

Lemma ensure_ok p o v h : here h p v -> wanted h p o -> pwp permitted (ensure_resource r o) v h (cont (fun h' _ v' => here h' p v')).
Proof.
  intros Hv HW. unfold ensure_resource. pstep. pstep. pstep.
  apply wp_StoreEnsure; [done|done| | |].
  - intros h1 c E Ha Hr. exists p, v. split; [eapply site_planned_extends, Hv; done|]. split; [onwards wanted_extends|].
    split; [done|]. split; [done|]. split; [eapply site_shown_extends, Hv; done|done].
  - intros h1 c o' j E Ho _. rewrite (wanted_owner h p o) in Ho by (done || apply Hv).
    exists p, o', j, (un_Kind o), (om_Name (un_Meta o)), (recorded_uid v o). split; [eapply site_planned_extends, Hv; done|]. split; [done|]. split; [done|]. exact Ho.
  - intros h1 [uid|e] E; pose proof (here_extends h h1 p v E Hv) as H1.
    + pstep; [|by pstep]. unfold set_status. pstep. pstep. apply pwp_site_saved; [apply (bookkeeping_report (fun t => vt_with_Resources (vt_Resources t ++ [mkResource _ _ _ uid]) t)); [apply H1|done]|].
      intros h2 v2 E2 Hs. split; [eapply site_planned_extends; [exact E2|apply H1]|done].
    + destruct (Is e _); [apply pwp_persist; [apply H1|done]|]. apply pwp_waiting; [apply H1|done].
Qed.

Lemma ready_ok p name v h : here h p v ->
  pwp permitted (ready_subnet r p name) v h (cont (fun h' _ v' => v' = v /\ subnet_ready h' p name)).
Proof.
  intros Hv. unfold ready_subnet. pstep. apply (pwp_asked _ _ (fun h' (ready : bool) => ready = true -> subnet_ready h' p name) p); [done| |].
  - apply wp_StoreReady; [done..|]. intros h1 x E1 Hx a -> ->. destruct (Hx eq_refl) as (c & o & H). by exists c, (recorded v "Subnet" name), o.
  - intros [] h1 E1 Hr H1; simpl; [pstep; split; [done|by apply Hr]|]. apply pwp_waiting; [apply H1|done].
Qed.
Lemma subnets_ready p v h : here h p v ->
  pwp permitted (peach (ready_subnet r p) [pl_SubnetName p; pl_TransitName p]) v h (cont (fun h' _ v' => here h' p v' /\ prepared h' p)).
Proof.
  intros Hv. unfold peach. simpl pfold. eapply pwp_then; [by apply ready_ok|]. intros h1 [] v1 E1 [-> HS].
  assert (here h1 p v) as H1 by onwards here_extends.
  eapply pwp_then; [by apply ready_ok|]. intros h2 [] v2 E2 [-> HT]. pstep. split; [onwards here_extends|].
  split; [onwards site_subnet_ready_extends|done].
Qed.

Lemma ensure_bfd_ok p s v h : here h p v -> prepared h p -> pwp permitted (ensure_bfd r p s) v h (cont (fun h' s' v' => v' = v /\
  (IsHA (pl_Gateway p) = true -> exists l, asked h' (Adapter (EnsureBFD cluster (pl_Gateway p) l)) (Ok s')))).
Proof.
  intros Hv HP. unfold ensure_bfd. pstep. pstep; [pstep; split; [done|by intros E; rewrite E in Ec]|]. pstep. pstep.
  gstep; [split; [done|]; exists p; split; [apply Hv|done]|]. set (o := Adapter _). intros x _.
  assert (here (h ++ [Ev o x]) p v) as H1 by (eapply here_extends; [apply extends_snoc|done]). destruct x as [s'|e].
  - eapply pwp_cont; [|by apply (keep_receipts_ok s' p)]. intros h2 s2 v2 E2 [-> ->]. split; [done|]. intros _.
    exists (vt_BFDResources (sv_Status v)). eapply asked_extends; [exact E2|apply asked_snoc].
  - destruct (Is e _); (apply pwp_waiting; [apply H1|done]).
Qed.
Lemma ensure_gateway_ok p v h : here h p v -> prepared h p -> pwp permitted (ensure_gateway r p) v h
  (cont (fun h' x v' => here h' p v' /\ exists l, asked h' (Adapter (GatewayEnsure (pl_Gateway p) l)) (Ok x))).
Proof.
  intros Hv HP. unfold ensure_gateway. pstep. apply (pwp_ask _ _ p); [done| |].
  { exists p, v. split; [apply Hv|]. split; [done|]. split; [done|]. split; [apply Hv|done]. }
  intros x h1 E1 Ha H1. apply (pwp_then _ _ _ _ (fun h' _ v' => here h' p v')).
  - pstep; [|by pstep]. unfold set_status. pstep. pstep. apply pwp_site_saved; [apply bookkeeping_report; [apply H1|done]|].
    intros h2 v2 E2 Hs. split; [eapply site_planned_extends; [exact E2|apply H1]|done].
  - intros h2 [] v2 E2 H2. pstep. split; [done|]. eexists. onwards (@asked_extends _ ans).
Qed.

Lemma ready_pairs_some ready up : ready_pairs ready up <> 0 -> exists id, In id ready /\ In id up.
Proof.
  unfold ready_pairs. intros H. destruct (flat_map _ _) as [|id l] eqn:E; [done|].
  assert (In id (flat_map (fun id => List.filter (String.eqb id) up) ready)) as Hin by (rewrite E; by left).
  apply in_flat_map in Hin as (id' & Hi & [Hf Hx]%filter_In). breflect. subst. eauto.
Qed.
Lemma count_ok p s x v h : here h p v -> (IsHA (pl_Gateway p) = true -> exists l, asked h (Adapter (EnsureBFD cluster (pl_Gateway p) l)) (Ok s)) ->
  pwp permitted (count_ready r p s x) v h (cont (fun _ _ v' => v' = v /\
    (IsHA (pl_Gateway p) = true -> exists id, In id (gw_ReadyGatewayIDs x) /\ In id (bs_Up s)))).
Proof.
  intros Hv HS. unfold count_ready. pstep. pstep; [pstep; split; [done|by intros E; rewrite E in Ec]|].
  cbv zeta. pstep; [apply pwp_persist; [apply Hv|done]|]. pstep; [apply pwp_waiting; [apply Hv|done]|]. pstep.
  split; [done|]. intros _. breflect. by apply ready_pairs_some.
Qed.

Lemma pwp_connect p v h : here h p v -> prepared h p -> serving h p -> pwp permitted (connect r p) v h (cont (fun _ _ _ => True)).
Proof.
  intros Hv HP HS. unfold connect. pstep. destruct (expected_routes v p) as [routes|] eqn:ER; [|apply pwp_waiting; [apply Hv|done]].
  apply (pwp_ask _ _ p); [done|done|]. intros [] h1 E1 Ha H1; simpl; [|apply pwp_waiting; [apply H1|done]].
  assert (routed h1 p) as HR by (exists v, routes; split; [apply H1|done]).
  apply (pwp_then _ _ _ _ (fun h' _ v' => v' = v /\ (IsHA (pl_Gateway p) = true -> exists l, asked h' (Adapter (EnsureECMPFields cluster (pl_Gateway p) l)) (Ok true)))).
  - pstep; [|pstep; split; [done|by intros E; rewrite E in Ec]]. apply (pwp_ask (EnsureECMPFields cluster (pl_Gateway p) (vt_BFDResources (sv_Status v))) _ p v); [done| |].
    + split; [done|]. exists p. split; [apply H1|]. split; [done|]. split; [onwards serving_extends|done].
    + intros [] h2 E2 Hb H2; simpl; [|apply pwp_waiting; [apply H2|done]]. pstep. split; [done|]. by eexists.
  - intros h2 [] v2 E2 [-> HE]. apply pwp_site_state; [eapply site_shown_extends; [exact E2|apply H1]|]. right. exists p.
    split; [eapply site_planned_extends; [exact E2|apply H1]|]. assert (extends h h2) as E by extending.
    split; [exact (prepared_extends _ _ _ E HP)|]. split; [exact (serving_extends _ _ _ E HS)|]. split; [exact (routed_extends _ _ _ E2 HR)|done].
Qed.

Lemma pwp_site_apply p s v h : here h p v ->
  (IsHA (pl_Gateway p) = true -> exists l, asked h (Adapter (GetBFD cluster (pl_Gateway p) l)) (Ok s)) ->
  pwp permitted (apply r p s) v h (cont (fun _ _ _ => True)).
Proof.
  intros Hv HS. unfold apply. eapply pwp_then; [by apply desired_ok|]. intros h1 l v1 E1 [-> HW].
  assert (here h1 p v) as H1 by onwards here_extends.
  apply (pwp_then _ _ _ _ (fun h' _ v' => here h' p v')).
  { apply (pwp_keeps _ (fun h' v' => here h' p v')); [|done]. intros h2 v2 o E2 Ho H2. apply ensure_ok; [done|].
    eapply wanted_extends; [exact E2|by apply HW]. }
  intros h2 [] v2 E2 H2. eapply pwp_then; [by apply subnets_ready|]. intros h3 [] v3 E3 [H3 HP].
  eapply pwp_then; [by apply ensure_bfd_ok|]. intros h4 s' v4 E4 [-> HB].
  eapply pwp_then; [apply ensure_gateway_ok; [onwards here_extends|onwards prepared_extends]|]. intros h5 x v5 E5 [H5 [l' Hl]].
  assert (IsHA (pl_Gateway p) = true -> exists l, asked h5 (Adapter (EnsureBFD cluster (pl_Gateway p) l)) (Ok s')) as HB5.
  { intros Hh. destruct (HB Hh) as [l0 ?]. exists l0. onwards (@asked_extends _ ans). }
  eapply pwp_then; [by apply (count_ok p s')|]. intros h6 [] v6 E6 [-> HC]. assert (here h6 p v5) as H6 by onwards here_extends.
  pstep; [apply pwp_waiting; [apply H6|done]|]. apply pwp_connect; [done|apply (prepared_extends h3); [extending|done]|].
  exists l', x. split; [onwards (@asked_extends _ ans)|]. split; [by destruct (gw_Ready x)|]. intros Hh. destruct (HB5 Hh) as [l0 ?].
  exists l0, s'. split; [onwards (@asked_extends _ ans)|by apply HC].
Qed.

(** ** Deletion *)

Lemma withdraw_bfd_ok p v h : here h p v -> detached h p -> pwp permitted (withdraw_bfd r p) v h (cont (fun h' _ v' => v' = v /\ unbound h' p)).
Proof.
  intros Hv HD. unfold withdraw_bfd. pstep. pstep; [pstep; split; [done|]; intros E; by rewrite E in Ec|].
  apply (pwp_ask (DeleteBFD cluster (pl_Gateway p) (vt_BFDResources (sv_Status v))) _ p v); [done| |].
  { split; [done|]. exists p. split; [apply Hv|done]. }
  intros [] h1 E1 Ha H1; simpl; [|apply pwp_waiting; [apply H1|done]]. pstep; [|apply pwp_persist; [apply H1|done]].
  pstep. split; [done|]. intros _. by eexists.
Qed.

(** The names before [name] in the order of removal are gone. *)
Lemma remove_resource_ok p v h kind name : here h p v -> In (kind, name) (removals p) -> detached h p -> unbound h p ->
  (kind = "Vpc"%string -> forall n, In n [pl_SubnetName p; pl_TransitName p] -> exists c, absent_read store h c "Subnet" n) ->
  pwp permitted (remove_resource r p (kind, name)) v h (cont (fun h' _ v' => v' = v /\ exists c, absent_read store h' c kind name)).
Proof.
  intros Hv Hin HD HU HN. unfold remove_resource. pstep.
  apply (pwp_asked _ _ (fun h' (gone : bool) => gone = true -> exists c, absent_read store h' c kind name) p); [done| |].
  - apply wp_StoreDelete; [done..| |].
    + intros h1 c o E1 Ho _. exists p, o, kind, name, (recorded v kind name). split; [eapply site_planned_extends; [exact E1|apply Hv]|].
      do 5 (split; [done|]). split; [done|]. split; [onwards detached_extends|]. split; [onwards unbound_extends|].
      intros Ek n Hn. destruct (HN Ek n Hn) as [c' Hc']. exists c'. onwards absent_read_extends.
    + intros h1 x E1 Hx a -> ->. destruct (Hx eq_refl) as [c Hc]. exists c. by eapply absent_since_read.
  - intros [] h1 E1 Hg H1; simpl; [pstep; split; [done|by apply Hg]|]. apply pwp_waiting; [apply H1|done].
Qed.
Lemma removals_ok p v h : here h p v -> detached h p -> unbound h p ->
  pwp permitted (peach (remove_resource r p) (removals p)) v h (cont (fun h' _ v' => v' = v /\
    forall kind name, In (kind, name) (removals p) -> exists c, absent_read store h' c kind name)).
Proof.
  intros Hv HD HU. unfold peach, removals. simpl pfold.
  eapply pwp_then; [apply remove_resource_ok; try done; by left|]. intros h1 [] v1 E1 [-> [c1 A1]].
  eapply pwp_then; [apply remove_resource_ok; try done; [onwards here_extends|by right; left|onwards detached_extends|onwards unbound_extends]|].
  intros h2 [] v2 E2 [-> [c2 A2]]. assert (extends h h2) as E by extending. assert (absent_read store h2 c1 "Subnet" (pl_SubnetName p)) as A1' by (eapply absent_read_extends; [exact E2|done]).
  eapply pwp_then; [apply remove_resource_ok; [exact (here_extends _ _ _ _ E Hv)|by right; right; left|exact (detached_extends _ _ _ E HD)|exact (unbound_extends _ _ _ E HU)|]|].
  { intros _ n [<-|[<-|[]]]; eauto. }
  intros h3 [] v3 E3 [-> [c3 A3]]. pstep. split; [done|]. intros kind name [[= <- <-]|[[= <- <-]|[[= <- <-]|[]]]];
    [exists c1|exists c2|by exists c3]; (eapply absent_read_extends; [exact E3|done]).
Qed.

Lemma pwp_remove_network p v h : here h p v -> drained h p -> deleting "DeleteResources" h ->
  (exists l x, asked h (Adapter (GatewayGet (pl_Gateway p) l)) (Ok x) /\ gw_Absent x = true) ->
  pwp permitted (remove_network r p) v h (cont (fun _ _ _ => True)).
Proof.
  intros Hv HR (w & Hw & HO) (l & x & HG & HA). unfold remove_network. pstep.
  apply (pwp_ask (EndpointsEmpty cluster (pl_TransitName p)) _ p v); [done|done|]. intros [] h1 E1 Ht H1; simpl; [|apply pwp_waiting; [apply H1|done]].
  apply (pwp_asked _ _ (fun h' _ => unrouted store h' (pl_VpcName p) (pl_OwnerUID p)) p); [done| |].
  { apply wp_WithdrawRoutes; [done..| |].
    - intros h2 c o j E2 Ho. exists p, o, j, "Vpc"%string, (pl_VpcName p), (recorded v "Vpc" (pl_VpcName p)).
      split; [eapply site_planned_extends; [exact E2|apply H1]|done].
    - intros h2 y E2 Hy [] ->. by apply Hy. }
  intros [] h2 E2 HU H2. assert (extends h h2) as E by extending. assert (detached h2 p) as HD.
  { split; [onwards drained_extends|]. split; [exists w; split; [onwards site_shown_extends|done]|].
    split; [exists l, x; split; [onwards (@asked_extends _ ans)|done]|]. split; [onwards (@asked_extends _ ans)|done]. }
  eapply pwp_then; [by apply withdraw_bfd_ok|]. intros h3 [] v3 E3 [-> HB].
  eapply pwp_then; [apply removals_ok; [onwards here_extends|onwards detached_extends|done]|]. intros h4 [] v4 E4 [-> HN].
  assert (here h4 p v) as H4 by (apply (here_extends h2); [extending|done]).
  apply (pwp_ask (LocalAbsent cluster (pl_VpcName p) (pl_SubnetName p) (pl_TransitName p)) _ p v); [done|done|].
  intros [] h5 E5 Hl H5; simpl; [|apply pwp_waiting; [apply H5|done]]. unfold end_with. pstep. pstep. pstep. unfold pwp, update. apply wp_bind_rule. gstep.
  - split; [done|]. right. exists v, p. split; [done|]. split; [apply H5|]. split; [apply (detached_extends h2); [extending|done]|].
    split; [apply (unbound_extends h3); [extending|done]|]. split; [|done]. intros k n Hk. destruct (HN k n Hk) as [c Hc]. exists c. onwards absent_read_extends.
  - by intros [v'|e] _.
Qed.

Lemma pwp_site_remove p v h : here h p v -> terminating (sv_Meta v) = true ->
  (vt_Operation (sv_Status v) = "DeleteResources" -> exists l x, asked h (Adapter (GatewayGet (pl_Gateway p) l)) (Ok x) /\ gw_Absent x = true)%string ->
  pwp permitted (remove r p) v h (cont (fun _ _ _ => True)).
Proof.
  intros Hv Ht HG. unfold remove. pstep.
  apply (pwp_ask (EndpointsEmpty cluster (pl_SubnetName p)) _ p v); [done|done|]. intros [] h1 E1 Hs H1; simpl; [|apply pwp_waiting; [apply H1|done]].
  apply (pwp_ask (GatewayEndpointsEmpty (pl_Gateway p) (vt_GatewayResources (sv_Status v))) _ p v); [done|done|]. intros x h2 E2 Hx H2.
  pstep; [apply pwp_waiting; [apply H2|done]|]. breflect.
  assert (drained h2 p) as HD by (split; [onwards (@asked_extends _ ans)|]; eexists _, x; split; [done|]; by destruct (gw_EndpointsEmpty x)).
  cbv zeta. pstep; [apply pwp_persist; [apply H2|done]|]. pstep.
  - breflect. apply (pwp_ask (GatewayDelete (pl_Gateway p) (vt_GatewayResources (sv_Status v))) _ p v); [done| |].
    { exists p. split; [apply H2|]. split; [done|]. split; [done|]. exists v. split; [apply H2|done]. }
    intros y h3 E3 Hy H3. pstep; [apply pwp_waiting; [apply H3|done]|]. apply pwp_persist; [apply H3|done].
  - pstep; [apply pwp_waiting; [apply H2|done]|]. breflect. apply pwp_remove_network; [done|done|exists v; split; [apply H2|done]|].
    destruct HG as (l & y & ? & ?); [done|]. exists l, y. split; [apply (asked_extends h); [extending|done]|done].
Qed.

Lemma pwp_site_reconcile v h : (exists ns nm, asked h (Get AuthorityAPI KSiteVpc ns nm) (Ok v)) ->
  pwp permitted (reconcile r) v h (cont (fun _ _ _ => True)).
Proof.
  intros (ns & nm & Hg). assert (shown h v) as Hs by (left; eauto). unfold reconcile. pstep. pstep; [by pstep|].
  pstep; [by pstep|]. destruct (Build _ _) as [p|e] eqn:EB; [|by apply pwp_waiting].
  assert (here h p v) as Hv by (split; [by exists ns, nm, v|done]). pstep; [by apply pwp_waiting|]. pstep.
  { unfold end_with. pstep. pstep. pstep. unfold pwp, update. apply wp_bind_rule. gstep; [|by intros [v'|e] _]. split; [done|]. left. exists v.
    split; [done|]. split; [|done]. by rewrite andb_true_r in Ec0. }
  eapply pwp_then; [by apply pwp_site_accept|]. intros h1 [] v1 E1 H1.
  apply (pwp_asked _ _ (fun _ _ => True) p); [done|by apply wp_CheckIdentity|]. intros [] h2 E2 _ H2.
  apply (pwp_then _ _ _ _ (fun _ _ v' => v' = v1)).
  { apply (pwp_keeps _ (fun _ v' => v' = v1)); [|done]. intros h3 v3 o E3 Ho ->. apply (preflight_keeps p). onwards here_extends. }
  intros h3 [] v3 E3 ->. assert (here h3 p v1) as H3 by onwards here_extends. pstep.
  apply (pwp_ask (GatewayGet (pl_Gateway p) (vt_GatewayResources (sv_Status v1))) _ p v1); [done|done|]. intros x h4 E4 Hx H4.
  eapply pwp_then; [by apply observe_ok|]. intros h5 s v5 E5 [-> HB]. assert (here h5 p v1) as H5 by onwards here_extends. pstep. pstep.
  - pstep; [apply pwp_persist; [apply H5|done]|]. apply pwp_site_remove; [done|done|]. intros EO. rewrite EO in Ec4. simpl in Ec4.
    eexists _, x. split; [onwards (@asked_extends _ ans)|]. by destruct (gw_Absent x).
  - pstep; [apply pwp_persist; [apply H5|done]|]. by apply pwp_site_apply.
Qed.

(** Every call of a pass is permitted. *)
Lemma site_pass_permitted ns nm : obeys permitted (Reconcile r ns nm).
Proof.
  apply (wp_obeys _ _ (fun _ _ => True)). unfold Reconcile. gstep. gstep; [done|]. intros [v|e] _; [|by gstep].
  unfold run_phase. gstep. eapply wp_mono; [|apply (pwp_site_reconcile v); exists ns, nm; apply asked_snoc]. by intros h' [[?|?] ?] _.
Qed.
End safety.

(** ** The claims *)

Section claims.
Context {VAL : Validation} {MACH : Machinery} {UNS : Unstructured} {NEST : NestedFields} {CONV : Converter}.
Context (r : Reconciler) (ns nm : string) (h : ghistory) (p' : gprog (res Result)) (h1 : ghistory).

Lemma site_permits o : exec (Reconcile r ns nm) h p' -> called h h1 o -> permitted r h1 o.
Proof. intros HX HC. exact (called_permitted _ _ _ _ _ _ (site_pass_permitted r ns nm) HX HC). Qed.

(** C24: Wherever a pass stops: the gateway is deleted only for a deleting SiteVpc whose endpoints the pass
    saw drained; BFD sessions and native resources only after an earlier pass recorded the gateway gone, and
    this one saw it absent, the transit empty and the routes withdrawn, the router last; and the finalizer is
    removed only after everything was found absent, in the API and in OVN. *)
Theorem site_teardown_is_ordered : exec (Reconcile r ns nm) h p' ->
  (forall g l, called h h1 (Adapter (GatewayDelete g l)) ->
     exists p, planned r h1 p /\ g = pl_Gateway p /\ drained r h1 p /\ deleting "DeleteGateway" h1) /\
  (forall c g l, called h h1 (Adapter (DeleteBFD c g l)) -> exists p, planned r h1 p /\ g = pl_Gateway p /\ detached r h1 p) /\
  (forall api k n1 n2 pre, called h h1 (Delete api (KNative k) n1 n2 pre) -> may_delete r h1 api k n1 n2 pre) /\
  (forall v', called h h1 (Update AuthorityAPI KSiteVpc v') -> may_update r h1 v').
Proof.
  intros HX. repeat split; intros *; intros HC.
  - exact (site_permits _ HX HC).
  - exact (proj2 (site_permits _ HX HC)).
  - exact (site_permits _ HX HC).
  - exact (proj2 (site_permits _ HX HC)).
Qed.

(** In its cluster a pass creates only resources its plan renders, with routes of sessions it saw and no
    other route is in the way of, found absent and without a receipt; and it changes only objects it read
    under its owner's and cluster's label and the recorded UID, keeping their identity. *)
Theorem site_objects_are_never_adopted : exec (Reconcile r ns nm) h p' ->
  (forall api k o, called h h1 (Create api (KNative k) o) -> may_create r h1 api k o) /\
  (forall api k o, called h h1 (Update api (KNative k) o) -> may_change r h1 api k o).
Proof. intros HX. split; intros api k o HC; exact (site_permits _ HX HC). Qed.

(** A status write keeps the accepted plan once there is one, and turns to LocalReady only after both
    subnets were read ready, the gateway answered ready with a member that is up, the router was seen to
    carry exactly the attachment's routes and their flow-hash fields were set. *)
Theorem local_readiness_is_observed : exec (Reconcile r ns nm) h p' ->
  forall s v', called h h1 (UpdateStatus s KSiteVpc v') -> s = AuthorityAPI /\ may_report r h1 v'.
Proof. intros HX s v' HC. exact (site_permits _ HX HC). Qed.
End claims.
