(* ===== verification/Subprocess.v ===== *)
(** * Subprocesses: one run of a configured program, and the bound on its output

    The provider and gateway executors run an administrator's program once, without a
    shell, and read a bounded prefix of what it writes. The program, its output and
    its fate are arbitrary. *)
From S2P Require Import Prelude GoStd Json JsonDecode Prog.
Open Scope Z_scope.

(** The command line, the standard input and the time allowed, in nanoseconds. *)
Record invocation := mkInvocation { iv_Command : list string; iv_Stdin : string; iv_Timeout : Z }.
(** The chunks written to the standard output and error, whether the context ended,
    and whether the program could not be run or failed. *)
Record outcome := mkOutcome {
  oc_Stdout : list string; oc_Stderr : list string; oc_Expired : bool; oc_Failed : bool }.
Definition outcome_of (i : invocation) : Type := outcome.
Notation sprog := (prog outcome_of).
Definition spawn (i : invocation) : sprog outcome := call i.

Definition defaultTimeout : Z := 30 * 10 ^ 9.
Definition maximumTimeout : Z := 300 * 10 ^ 9.
Definition bounded_timeout (t : Z) : Z := Z.min (if t <=? 0 then defaultTimeout else t) maximumTimeout.
Definition maxOutputBytes : Z := 2 ^ 20.
Definition blank (s : string) : bool := (TrimSpace s =? "")%string.
Definition unconfigured (command : list string) : bool := match command with p :: _ => blank p | [] => true end.

(** ** [limitedOutput] *)

Record limitedOutput := mkLimited { lo_buffer : string; lo_count : Z; lo_discard : bool; lo_exceeded : bool }.
(** [Write]; an error ends the copy. *)
Definition Write (b : limitedOutput) (p : string) : limitedOutput * bool :=
  let remaining := maxOutputBytes - lo_count b in
  let over := remaining <? Z.of_nat (String.length p) in
  let p := if over then GoStd.take (Z.to_nat remaining) p else p in
  let b := mkLimited (if lo_discard b then lo_buffer b else (lo_buffer b ++ p)%string)
             (lo_count b + Z.of_nat (String.length p)) (lo_discard b) (lo_exceeded b || over) in
  (b, lo_exceeded b).
(** The copy of a program's output. *)
Fixpoint copy (b : limitedOutput) (chunks : list string) : limitedOutput :=
  match chunks with
  | [] => b
  | p :: chunks => let '(b, failed) := Write b p in if failed then b else copy b chunks
  end.
Definition capture (discard : bool) (chunks : list string) : limitedOutput := copy (mkLimited "" 0 discard false) chunks.

(** A program stays within the bound exactly when all it writes does, and is then kept whole. *)
Definition text (chunks : list string) : string := fold_right (fun p t => (p ++ t)%string) "" chunks.

(** [isObject] of a JSON text. *)
Definition last_char (s : string) : option ascii := String.get (String.length s - 1) s.
Definition isObject (data : string) : bool :=
  let data := TrimSpace data in
  (1 <? String.length data)%nat && bool_decide (String.get 0 data = Some "{"%char) && bool_decide (last_char data = Some "}"%char).

(** A pointer field: a [null] is nil. *)
Definition decode_pointer {A} (dec : decoder A) (zero : A) : decoder (option A) := fun j old =>
  match j with JNull => Some None | _ => option_map Some (dec j (default zero old)) end.
Definition decode_present : decoder (option json) := fun j _ => Some (Some j).

Lemma copy_spec b chunks : 0 <= lo_count b <= maxOutputBytes -> lo_exceeded b = false ->
  let total := lo_count b + Z.of_nat (String.length (text chunks)) in
  lo_exceeded (copy b chunks) = (maxOutputBytes <? total) /\
  (total <= maxOutputBytes ->
   lo_buffer (copy b chunks) = if lo_discard b then lo_buffer b else (lo_buffer b ++ text chunks)%string).
Proof.
  revert b. induction chunks as [|p chunks IH]; intros b HC HE; simpl.
  - split.
    + rewrite HE. symmetry. apply Z.ltb_ge. lia.
    + intros _. destruct (lo_discard b); [done|]. by rewrite str_app_nil_r.
  - rewrite HE. simpl. rewrite str_app_length, Nat2Z.inj_add.
    destruct (Z.ltb_spec (maxOutputBytes - lo_count b) (Z.of_nat (String.length p))) as [HL|HL]; simpl.
    + split; [symmetry; apply Z.ltb_lt; lia|lia].
    + destruct (IH (mkLimited (if lo_discard b then lo_buffer b else (lo_buffer b ++ p)%string)
                      (lo_count b + Z.of_nat (String.length p)) (lo_discard b) false)) as [H1 H2]; simpl; [lia|done|].
      simpl in H1, H2. split; [by rewrite H1, Z.add_assoc|]. intros HT. rewrite H2 by lia. simpl.
      destruct (lo_discard b); [done|]. by rewrite str_app_assoc.
Qed.
Lemma capture_exceeded discard chunks :
  lo_exceeded (capture discard chunks) = (maxOutputBytes <? Z.of_nat (String.length (text chunks))).
Proof. by apply (copy_spec (mkLimited "" 0 discard false)). Qed.
Lemma capture_buffer chunks : lo_exceeded (capture false chunks) = false -> lo_buffer (capture false chunks) = text chunks.
Proof.
  rewrite capture_exceeded. intros H%Z.ltb_ge. unfold capture.
  destruct (copy_spec (mkLimited "" 0 false false) chunks) as [_ G]; simpl; [done|done|]. rewrite G; [done|simpl; lia].
Qed.

(** A finished pass that runs at most one program was refused, or is decided by the outcome. *)
Inductive ran_once {A} (i : invocation) (k : outcome -> A) (h : list (event outcome_of)) (x : A) : Prop :=
| ran_with o (Hh : h = [Ev i o]) (Hx : x = k o).
Lemma spawn_decides {A} (i : invocation) (k : outcome -> A) h x :
  exec (o <- spawn i ;; Ret (k o)) h (Ret x) -> ran_once i k h x.
Proof.
  intros HX. refine (wp_ret_exec any_answer (fun _ _ => True) _ _ _ (ran_once i k) _ HX (answered_any _ _)).
  simpl. split; [done|]. intros o _. by exists o.
Qed.
Lemma Ret_decides {A} (a x : A) h : exec (Ans := outcome_of) (Ret a) h (Ret x) -> h = [] /\ x = a.
Proof.
  intros HX. refine (wp_ret_exec any_answer (fun _ _ => True) _ _ _ (fun h x => h = [] /\ x = a) _ HX (answered_any _ _)).
  by simpl.
Qed.
Lemma outcome_inj (i : invocation) (o o' : outcome) : [Ev (Ans := outcome_of) i o] = [Ev i o'] -> o = o'.
Proof. intros H. exact (f_equal (fun h => hd o (map (fun e : event outcome_of => ev_ans e : outcome) h)) H). Qed.
