(* ===== verification/ProviderExec.v ===== *)
(** * [internal/provider/exec.go]: the executable IPAM protocol *)
From S2P Require Import Prelude GoStd Json JsonDecode NetIP Validation Prog Api GlobalApi Subprocess.
Open Scope Z_scope.

Definition apiVersion : string := "ipam.globalvpc.io/v1alpha1".
Definition ErrUnknownState : error :=
  Errorf "allocation state is unknown; preserve allocations and retry the same claim".
Definition unknown (reason : string) : error := Wrapf reason ErrUnknownState.

Record Exec := mkExec { pe_Command : list string; pe_Timeout : Z }.

Definition validClaim (c : PrefixClaim) : bool :=
  negb (blank (pc_ClaimUID c) || blank (pc_VpcUID c) || blank (pc_ScopeRef c)) &&
  match ParsePrefix (pc_CIDR c) with
  | Some p => bool_decide (p = Masked p) && (PrefixString p =? pc_CIDR c)%string
  | None => false
  end.

(** ** The request and the response *)

Definition request_json (c : PrefixClaim) : json :=
  fields [req "apiVersion" (JStr apiVersion); req "operation" (JStr "EnsurePrefix");
          req "claimUID" (JStr (pc_ClaimUID c)); req "vpcUID" (JStr (pc_VpcUID c));
          req "scopeRef" (JStr (pc_ScopeRef c)); req "cidr" (JStr (pc_CIDR c))].
Record response := mkResponse { re_APIVersion : string; re_OK : option bool; re_Result : option json }.
Definition response_decoder : decoder response :=
  decode_struct [field "apiVersion" re_APIVersion (fun x r => mkResponse x (re_OK r) (re_Result r)) decode_string;
                 field "ok" re_OK (fun x r => mkResponse (re_APIVersion r) x (re_Result r)) (decode_pointer decode_bool false);
                 field "result" re_Result (fun x r => mkResponse (re_APIVersion r) (re_OK r) x) decode_present].
Definition claim_set (f : PrefixClaim -> PrefixClaim) (a : Allocation) : Allocation :=
  mkAllocation (f (al_Claim a)) (al_AllocationID a) (al_ReleasePolicy a).
(** The claim's fields are inlined. *)
Definition allocation_decoder : decoder Allocation :=
  decode_struct
    [field "claimUID" (fun a => pc_ClaimUID (al_Claim a))
       (fun x => claim_set (fun c => mkPrefixClaim x (pc_VpcUID c) (pc_ScopeRef c) (pc_CIDR c))) decode_string;
     field "vpcUID" (fun a => pc_VpcUID (al_Claim a))
       (fun x => claim_set (fun c => mkPrefixClaim (pc_ClaimUID c) x (pc_ScopeRef c) (pc_CIDR c))) decode_string;
     field "scopeRef" (fun a => pc_ScopeRef (al_Claim a))
       (fun x => claim_set (fun c => mkPrefixClaim (pc_ClaimUID c) (pc_VpcUID c) x (pc_CIDR c))) decode_string;
     field "cidr" (fun a => pc_CIDR (al_Claim a))
       (fun x => claim_set (fun c => mkPrefixClaim (pc_ClaimUID c) (pc_VpcUID c) (pc_ScopeRef c) x)) decode_string;
     field "allocationID" al_AllocationID (fun x a => mkAllocation (al_Claim a) x (al_ReleasePolicy a)) decode_string;
     field "releasePolicy" al_ReleasePolicy (fun x a => mkAllocation (al_Claim a) (al_AllocationID a) x) decode_string].
Definition no_allocation : Allocation := mkAllocation (mkPrefixClaim "" "" "" "") "" "".

(** What is made of a program that ran. *)
Definition read_response (claim : PrefixClaim) (out : string) : res Allocation :=
  let invalid := Err (unknown "IPAM provider returned an invalid response") in
  reject negb (isObject out) with unknown "IPAM provider returned an invalid response" ;;
  match UnmarshalInto response_decoder (mkResponse "" None None) out with
  | None => invalid
  | Some r =>
      reject negb (re_APIVersion r =? apiVersion)%string with unknown "IPAM provider returned an unsupported response version" ;;
      reject negb (default false (re_OK r)) with unknown "IPAM provider did not confirm the allocation" ;;
      match re_Result r with
      | Some (JObj l) =>
          match allocation_decoder (JObj l) no_allocation with
          | None => Err (unknown "IPAM provider returned an invalid allocation")
          | Some a =>
              reject negb (validClaim (al_Claim a)) || negb (bool_decide (al_Claim a = claim)) || blank (al_AllocationID a) ||
                     negb (al_ReleasePolicy a =? "Retain")%string
                with unknown "IPAM provider allocation does not match the requested retained claim" ;;
              Ok a
          end
      | _ => Err (unknown "IPAM provider returned an invalid allocation")
      end
  end.
Definition outcome_result (claim : PrefixClaim) (o : outcome) : res Allocation :=
  let stdout := capture false (oc_Stdout o) in
  reject lo_exceeded stdout with unknown "IPAM provider response exceeded the size limit" ;;
  reject oc_Expired o with unknown "IPAM provider deadline or cancellation interrupted the request" ;;
  reject oc_Failed o with unknown "IPAM provider execution failed" ;;
  read_response claim (lo_buffer stdout).

Definition Ensure (p : Exec) (claim : PrefixClaim) : sprog (res Allocation) :=
  stop unconfigured (pe_Command p) with Errorf "IPAM provider command is not configured" ;;
  stop negb (validClaim claim) with Errorf "IPAM claim requires nonempty identities and a canonical network CIDR" ;;
  o <- spawn (mkInvocation (pe_Command p) (Marshal (request_json claim)) (bounded_timeout (pe_Timeout p))) ;;
  Ret (outcome_result claim o).

(** * What the provider executor accepts *)
From S2P Require Import Infra.

(** A canonical claim: nonempty identities and a masked prefix in its own notation. *)
Record canonical (c : PrefixClaim) : Prop := {
  ca_claim : blank (pc_ClaimUID c) = false; ca_vpc : blank (pc_VpcUID c) = false; ca_scope : blank (pc_ScopeRef c) = false;
  ca_prefix : exists p, ParsePrefix (pc_CIDR c) = Some p /\ p = Masked p /\ PrefixString p = pc_CIDR c }.
Lemma validClaim_iff c : validClaim c = true <-> canonical c.
Proof.
  unfold validClaim. rewrite andb_true_iff, negb_true_iff, !orb_false_iff. split.
  - intros [[[H1 H2] H3] HP]. split; try done. destruct (ParsePrefix _) as [p|]; [|done]. breflect. eauto.
  - intros [? ? ? (p & -> & E & ->)]. split; [done|]. rewrite String.eqb_refl, andb_true_r. by apply bool_decide_eq_true.
Qed.

(** An object confirms the retained allocation [a] of the claim. *)
Definition confirms (out : string) (claim : PrefixClaim) (a : Allocation) : Prop :=
  isObject out = true /\
  exists r l, UnmarshalInto response_decoder (mkResponse "" None None) out = Some r /\
    re_APIVersion r = apiVersion /\ re_OK r = Some true /\ re_Result r = Some (JObj l) /\
    allocation_decoder (JObj l) no_allocation = Some a /\
    al_Claim a = claim /\ blank (al_AllocationID a) = false /\ al_ReleasePolicy a = "Retain".
Lemma read_response_iff claim out a : validClaim claim = true ->
  read_response claim out = Ok a <-> confirms out claim a.
Proof.
  intros HC. unfold read_response, confirms. destruct (isObject out); simpl; [|split; [done|by intros [? _]]].
  destruct (UnmarshalInto _ _ _) as [r|]; [|split; [done|]; by intros (_ & ? & ? & ? & _)]. split.
  - destruct (re_OK r) as [[]|] eqn:EO; simpl; [|intros H; follow H; done..].
    destruct (re_Result r) as [[]|] eqn:ER; try (intros H; follow H; done).
    intros H. follow H. injection H as <-. split; [done|]. exists r, l. by repeat split.
  - intros (_ & r' & l & [= <-] & HV & HO & HR & HD & HA & HI & HP).
    rewrite HV, HO, HR, HD, HA, HC, HI, HP. simpl. by rewrite bool_decide_eq_true_2.
Qed.

(** The program ended in time, within its bound, and printed this. *)
Definition printed (o : outcome) (out : string) : Prop :=
  out = text (oc_Stdout o) /\ Z.of_nat (String.length out) <= maxOutputBytes /\ oc_Expired o = false /\ oc_Failed o = false.
Lemma outcome_allocates claim o a : validClaim claim = true ->
  outcome_result claim o = Ok a <-> exists out, printed o out /\ confirms out claim a.
Proof.
  intros HC. unfold outcome_result, printed. destruct (lo_exceeded _) eqn:E1; simpl.
  { rewrite capture_exceeded in E1. apply Z.ltb_lt in E1. split; [done|]. intros (out & (-> & ? & _) & _). lia. }
  rewrite (capture_buffer _ E1). rewrite capture_exceeded in E1. apply Z.ltb_ge in E1.
  destruct (oc_Expired o); [split; [done|]; by intros (? & (_ & _ & ? & _) & _)|].
  destruct (oc_Failed o); [split; [done|]; by intros (? & (_ & _ & _ & ?) & _)|].
  rewrite read_response_iff by done. split; [by eexists|]. by intros (out & (-> & _) & ?).
Qed.

(** Every failure of a program that ran keeps the caller from giving the claim up. *)
Definition retained {A} (x : res A) : Prop := forall err, x = Err err -> Is err ErrUnknownState = true.
Lemma retained_unknown {A} t : retained (A := A) (Err (unknown t)).
Proof.
  intros err [= <-]. apply orb_true_iff. right. by apply orb_true_iff; left; apply bool_decide_eq_true.
Qed.
Lemma retained_outcome claim o : retained (outcome_result claim o).
Proof.
  unfold outcome_result, read_response.
  repeat match goal with
         | |- retained (match ?x with _ => _ end) => destruct x
         | |- retained (Ok _) => done
         | |- retained (Err (unknown _)) => apply retained_unknown
         end.
Qed.

(** The one request made for a claim. *)
Definition asked_for (p : Exec) (claim : PrefixClaim) : invocation :=
  mkInvocation (pe_Command p) (Marshal (request_json claim)) (bounded_timeout (pe_Timeout p)).

(** A prefix counts as reserved exactly when the configured provider, run once with
    the canonical claim, ended in time and within the size limit and printed an object
    that confirms a retained allocation of this very claim; every other end of the
    provider is reported as an unknown state, and an unusable claim never reaches it. *)
Theorem allocations_are_confirmed p claim h x : exec (Ensure p claim) h (Ret x) ->
  ((unconfigured (pe_Command p) = true \/ ~ canonical claim) /\ h = [] /\ exists t, x = Err (Errorf t)) \/
  (unconfigured (pe_Command p) = false /\ canonical claim /\
   exists o, h = [Ev (asked_for p claim) o] /\ retained x /\
     forall a, x = Ok a <-> exists out, printed o out /\ confirms out claim a).
Proof.
  unfold Ensure. rewrite <- validClaim_iff. intros HX. destruct (unconfigured _).
  { apply Ret_decides in HX as [-> ->]. left. eauto. }
  destruct (validClaim claim) eqn:HC; cbn [negb] in HX.
  - right. split; [done|]. split; [done|]. apply spawn_decides in HX as [o -> ->]. exists o. split; [done|].
    split; [apply retained_outcome|]. intros a. by apply outcome_allocates.
  - apply Ret_decides in HX as [-> ->]. left. split; [by right|]. eauto.
Qed.
