(* ===== verification/GatewayExec.v ===== *)
(** * [internal/sitegateway/exec.go]: the local gateway backend protocol *)
From S2P Require Import Prelude GoStd Json JsonDecode Validation SiteConfig Prog Api GlobalApi GlobalConfig GlobalPlan SitePlan Subprocess.
Open Scope Z_scope.

Definition protocolVersion : string := "v1".
Definition ErrUnknownState : error :=
  Errorf "gateway state is unknown; preserve ownership receipts and retry the same identity".
Definition unknown (reason : string) : error := Wrapf reason ErrUnknownState.

Record Exec := mkExec { ge_Command : list string; ge_Timeout : Z }.
Record Result := mkResult {
  rt_Version : string; rt_OwnerUID : string; rt_GlobalVpcID : string; rt_GatewayRevision : string;
  rt_Ready : bool; rt_Absent : bool; rt_EndpointsEmpty : bool; rt_ReadyGateways : Z; rt_DesiredGateways : Z;
  rt_ReadyGatewayIDs : list string; rt_Resources : list GatewayResourceRecord }.
Record response := mkResponse {
  rp_Version : string; rp_OwnerUID : string; rp_GlobalVpcID : string; rp_GatewayRevision : string;
  rp_Ready : option bool; rp_Absent : option bool; rp_EndpointsEmpty : option bool;
  rp_ReadyGateways : option Z; rp_DesiredGateways : option Z; rp_ReadyGatewayIDs : option (list string);
  rp_Resources : list GatewayResourceRecord }.

(** ** The request *)

(** A nil slice without [omitempty] is [null]. *)
Definition slice_json (l : list string) : json := match l with [] => JNull | _ => strings_json l end.
Definition config_json (g : GatewayConfig) : json :=
  fields [req "version" (JStr (gc_Version g)); req "globalVpcID" (JStr (gc_GlobalVpcID g));
          req "ownerUID" (JStr (gc_OwnerUID g)); req "siteID" (JStr (gc_SiteID g));
          req "attachmentID" (JStr (gc_AttachmentID g)); req "gatewayRevision" (JStr (gc_GatewayRevision g));
          req "delegatedPrefixes" (slice_json (gc_DelegatedPrefixes g)); req "cidr" (JStr (gc_CIDR g));
          req "transitCIDR" (JStr (gc_TransitCIDR g)); req "routerIP" (JStr (gc_RouterIP g));
          opt_str "gatewayIP" (gc_GatewayIP g); req "vpcName" (JStr (gc_VpcName g));
          req "subnetName" (JStr (gc_SubnetName g)); req "transitName" (JStr (gc_TransitName g));
          opt_arr "gateways" gateway_json (gc_Gateways g); option_map (fun b => ("bfd", bfd_json b)) (gc_BFD g)].
Definition record_json (r : GatewayResourceRecord) : json :=
  fields [req "apiVersion" (JStr (gr_APIVersion r)); req "kind" (JStr (gr_Kind r));
          req "namespace" (JStr (gr_Namespace r)); req "name" (JStr (gr_Name r)); req "uid" (JStr (gr_UID r))].
Definition request_json (operation : string) (g : GatewayConfig) (expected : list GatewayResourceRecord) : json :=
  fields [req "version" (JStr protocolVersion); req "operation" (JStr operation); req "gateway" (config_json g);
          opt_arr "expectedResources" record_json expected].

(** ** Resource receipts *)

Definition nul : ascii := Ascii.zero.
Definition recordKey (r : GatewayResourceRecord) : string :=
  (gr_APIVersion r ++ String nul (gr_Kind r ++ String nul (gr_Namespace r ++ String nul (gr_Name r))))%string.
Fixpoint valid_records (seen : gset string) (records : list GatewayResourceRecord) : bool :=
  match records with
  | [] => true
  | r :: records =>
      (gr_APIVersion r =? "v1")%string && ((gr_Kind r =? "Pod")%string || (gr_Kind r =? "ConfigMap")%string) &&
      negb (blank (gr_Namespace r) || blank (gr_Name r) || blank (gr_UID r)) && negb (bool_decide (recordKey r ∈ seen)) &&
      valid_records ({[recordKey r]} ∪ seen) records
  end.
Definition validRecords (records : list GatewayResourceRecord) : bool := valid_records ∅ records.
Definition receipts (expected : list GatewayResourceRecord) : gmap string string :=
  fill recordKey gr_UID expected ∅.
Definition matchesExpected (actual expected : list GatewayResourceRecord) : bool :=
  match expected with
  | [] => true
  | _ =>
      let byKey := receipts expected in
      forallb (fun r => match byKey !! recordKey r with Some uid => (uid =? gr_UID r)%string | None => true end) actual
  end.

(** ** The response *)

(** [strings.ToLower] of ASCII; a key with other characters is unknown anyway. *)
Definition lower (c : ascii) : ascii := if in_range 65 90 c then byte_of (byte_val c + 32) else c.
Fixpoint ToLower (s : string) : string := match s with EmptyString => "" | String c s => String (lower c) (ToLower s) end.
Fixpoint repeated (l : list string) : bool := match l with [] => false | x :: l => existsb (String.eqb x) l || repeated l end.
(** No object has two keys that differ in case only, and nesting is bounded. *)
Fixpoint uniqueJSON (depth : Z) (j : json) : bool :=
  (depth <=? 64) &&
  match j with
  | JArr l => forallb (uniqueJSON (depth + 1)) l
  | JObj l => negb (repeated (map (fun kv => ToLower (fst kv)) l)) && forallb (fun kv => uniqueJSON (depth + 1) (snd kv)) l
  | _ => true
  end.
Definition known_keys (allowed : list string) (l : list (string * json)) : bool :=
  forallb (fun kv => existsb (String.eqb (fst kv)) allowed) l.
Definition response_keys : list string :=
  ["version"; "ownerUID"; "globalVpcID"; "gatewayRevision"; "ready"; "absent"; "endpointsEmpty"; "resources";
   "readyGateways"; "desiredGateways"; "readyGatewayIDs"].
Definition record_keys : list string := ["apiVersion"; "kind"; "namespace"; "name"; "uid"].
Definition known_record (j : json) : bool :=
  match j with JObj l => known_keys record_keys l | JNull => true | _ => false end.
Definition known_records (j : option json) : bool :=
  match j with None | Some JNull => true | Some (JArr l) => forallb known_record l | Some _ => false end.
Fixpoint lookup_key (k : string) (l : list (string * json)) : option json :=
  match l with [] => None | (k', v) :: l => if (k =? k')%string then Some v else lookup_key k l end.

Definition record_decoder : decoder GatewayResourceRecord :=
  decode_struct
    [field "apiVersion" gr_APIVersion (fun x r => mkGatewayRecord x (gr_Kind r) (gr_Namespace r) (gr_Name r) (gr_UID r)) decode_string;
     field "kind" gr_Kind (fun x r => mkGatewayRecord (gr_APIVersion r) x (gr_Namespace r) (gr_Name r) (gr_UID r)) decode_string;
     field "namespace" gr_Namespace (fun x r => mkGatewayRecord (gr_APIVersion r) (gr_Kind r) x (gr_Name r) (gr_UID r)) decode_string;
     field "name" gr_Name (fun x r => mkGatewayRecord (gr_APIVersion r) (gr_Kind r) (gr_Namespace r) x (gr_UID r)) decode_string;
     field "uid" gr_UID (fun x r => mkGatewayRecord (gr_APIVersion r) (gr_Kind r) (gr_Namespace r) (gr_Name r) x) decode_string].
Definition no_record : GatewayResourceRecord := mkGatewayRecord "" "" "" "" "".
Definition no_response : response := mkResponse "" "" "" "" None None None None None None [].

(** The setters of the eleven fields. *)
Definition set_version x r := mkResponse x (rp_OwnerUID r) (rp_GlobalVpcID r) (rp_GatewayRevision r) (rp_Ready r) (rp_Absent r)
  (rp_EndpointsEmpty r) (rp_ReadyGateways r) (rp_DesiredGateways r) (rp_ReadyGatewayIDs r) (rp_Resources r).
Definition set_owner x r := mkResponse (rp_Version r) x (rp_GlobalVpcID r) (rp_GatewayRevision r) (rp_Ready r) (rp_Absent r)
  (rp_EndpointsEmpty r) (rp_ReadyGateways r) (rp_DesiredGateways r) (rp_ReadyGatewayIDs r) (rp_Resources r).
Definition set_global x r := mkResponse (rp_Version r) (rp_OwnerUID r) x (rp_GatewayRevision r) (rp_Ready r) (rp_Absent r)
  (rp_EndpointsEmpty r) (rp_ReadyGateways r) (rp_DesiredGateways r) (rp_ReadyGatewayIDs r) (rp_Resources r).
Definition set_revision x r := mkResponse (rp_Version r) (rp_OwnerUID r) (rp_GlobalVpcID r) x (rp_Ready r) (rp_Absent r)
  (rp_EndpointsEmpty r) (rp_ReadyGateways r) (rp_DesiredGateways r) (rp_ReadyGatewayIDs r) (rp_Resources r).
Definition set_ready x r := mkResponse (rp_Version r) (rp_OwnerUID r) (rp_GlobalVpcID r) (rp_GatewayRevision r) x (rp_Absent r)
  (rp_EndpointsEmpty r) (rp_ReadyGateways r) (rp_DesiredGateways r) (rp_ReadyGatewayIDs r) (rp_Resources r).
Definition set_absent x r := mkResponse (rp_Version r) (rp_OwnerUID r) (rp_GlobalVpcID r) (rp_GatewayRevision r) (rp_Ready r) x
  (rp_EndpointsEmpty r) (rp_ReadyGateways r) (rp_DesiredGateways r) (rp_ReadyGatewayIDs r) (rp_Resources r).
Definition set_empty x r := mkResponse (rp_Version r) (rp_OwnerUID r) (rp_GlobalVpcID r) (rp_GatewayRevision r) (rp_Ready r)
  (rp_Absent r) x (rp_ReadyGateways r) (rp_DesiredGateways r) (rp_ReadyGatewayIDs r) (rp_Resources r).
Definition set_ready_count x r := mkResponse (rp_Version r) (rp_OwnerUID r) (rp_GlobalVpcID r) (rp_GatewayRevision r) (rp_Ready r)
  (rp_Absent r) (rp_EndpointsEmpty r) x (rp_DesiredGateways r) (rp_ReadyGatewayIDs r) (rp_Resources r).
Definition set_desired_count x r := mkResponse (rp_Version r) (rp_OwnerUID r) (rp_GlobalVpcID r) (rp_GatewayRevision r) (rp_Ready r)
  (rp_Absent r) (rp_EndpointsEmpty r) (rp_ReadyGateways r) x (rp_ReadyGatewayIDs r) (rp_Resources r).
Definition set_ready_ids x r := mkResponse (rp_Version r) (rp_OwnerUID r) (rp_GlobalVpcID r) (rp_GatewayRevision r) (rp_Ready r)
  (rp_Absent r) (rp_EndpointsEmpty r) (rp_ReadyGateways r) (rp_DesiredGateways r) x (rp_Resources r).
Definition set_resources x r := mkResponse (rp_Version r) (rp_OwnerUID r) (rp_GlobalVpcID r) (rp_GatewayRevision r) (rp_Ready r)
  (rp_Absent r) (rp_EndpointsEmpty r) (rp_ReadyGateways r) (rp_DesiredGateways r) (rp_ReadyGatewayIDs r) x.
Definition response_decoder : decoder response :=
  decode_struct
    [field "version" rp_Version set_version decode_string; field "ownerUID" rp_OwnerUID set_owner decode_string;
     field "globalVpcID" rp_GlobalVpcID set_global decode_string;
     field "gatewayRevision" rp_GatewayRevision set_revision decode_string;
     field "ready" rp_Ready set_ready (decode_pointer decode_bool false);
     field "absent" rp_Absent set_absent (decode_pointer decode_bool false);
     field "endpointsEmpty" rp_EndpointsEmpty set_empty (decode_pointer decode_bool false);
     field "readyGateways" rp_ReadyGateways set_ready_count (decode_pointer decode_int 0);
     field "desiredGateways" rp_DesiredGateways set_desired_count (decode_pointer decode_int 0);
     field "readyGatewayIDs" rp_ReadyGatewayIDs set_ready_ids (decode_pointer (decode_slice decode_string "") []);
     field "resources" rp_Resources set_resources (decode_slice record_decoder no_record)].
Definition decodeResponse (data : string) : option response :=
  if negb (isObject data) then None
  else
    match Unmarshal (TrimSpace data) with
    | Some (JObj top) =>
        if uniqueJSON 0 (JObj top) && known_keys response_keys top && known_records (lookup_key "resources" top)
        then response_decoder (JObj top) no_response
        else None
    | _ => None
    end.

(** ** [invoke] *)

Definition is_set {A} (o : option A) : bool := match o with Some _ => true | None => false end.
(** The loop over the ready identities, each member counted once. *)
Fixpoint members_once (members : gset string) (ids : list string) : bool :=
  match ids with
  | [] => true
  | id :: ids => bool_decide (id ∈ members) && members_once (members ∖ {[id]}) ids
  end.
Definition counts_ok (g : GatewayConfig) (ready absent : bool) (n desired : Z) : bool :=
  (desired =? Z.of_nat (List.length (gc_Gateways g))) && negb (desired <? 2) && negb (n <? 0) && negb (desired <? n) &&
  Bool.eqb ready (0 <? n) && negb (absent && negb (n =? 0)).
(** The numbers of ready and desired gateways. *)
Definition availability (g : GatewayConfig) (r : response) (ready absent : bool) : res (Z * Z) :=
  if negb (IsHA g) then Ok (if ready then 1 else 0, 1)
  else
    match rp_ReadyGateways r, rp_DesiredGateways r with
    | Some n, Some desired =>
        reject negb (counts_ok g ready absent n desired)
          with unknown "local gateway availability counts are incomplete or contradictory" ;;
        match rp_ReadyGatewayIDs r with
        | Some ids =>
            reject negb (Z.of_nat (List.length ids) =? n) with unknown "local gateway available identities are incomplete" ;;
            reject negb (members_once (list_to_set (map gw_ID (gc_Gateways g))) ids)
              with unknown "local gateway available identities are invalid" ;;
            Ok (n, desired)
        | None => Err (unknown "local gateway available identities are incomplete")
        end
    | _, _ => Err (unknown "local gateway availability counts are incomplete or contradictory")
    end.
Definition accept (g : GatewayConfig) (expected : list GatewayResourceRecord) (r : response) : res Result :=
  reject negb (rp_Version r =? protocolVersion)%string || negb (rp_OwnerUID r =? gc_OwnerUID g)%string ||
         negb (rp_GlobalVpcID r =? gc_GlobalVpcID g)%string || negb (rp_GatewayRevision r =? gc_GatewayRevision g)%string
    with unknown "local gateway response version, identity or revision does not match" ;;
  match rp_Ready r, rp_Absent r, rp_EndpointsEmpty r with
  | Some ready, Some absent, Some endpointsEmpty =>
      reject (ready && absent) || (absent && negb (empty (rp_Resources r)))
        with unknown "local gateway response state is incomplete or contradictory" ;;
      reject negb (validRecords (rp_Resources r)) || negb (matchesExpected (rp_Resources r) expected)
        with unknown "local gateway response resource receipts do not match" ;;
      counts <-? availability g r ready absent ;;
      Ok (mkResult (rp_Version r) (rp_OwnerUID r) (rp_GlobalVpcID r) (rp_GatewayRevision r) ready absent endpointsEmpty
            (fst counts) (snd counts) (default [] (rp_ReadyGatewayIDs r)) (rp_Resources r))
  | _, _, _ => Err (unknown "local gateway response state is incomplete or contradictory")
  end.
Definition outcome_result (g : GatewayConfig) (expected : list GatewayResourceRecord) (o : outcome) : res Result :=
  let stdout := capture false (oc_Stdout o) in
  let stderr := capture true (oc_Stderr o) in
  reject lo_exceeded stdout || lo_exceeded stderr with unknown "local gateway output exceeded the size limit" ;;
  reject oc_Expired o with unknown "local gateway deadline or cancellation interrupted the request" ;;
  reject oc_Failed o with unknown "local gateway execution failed" ;;
  match decodeResponse (lo_buffer stdout) with
  | None => Err (unknown "local gateway returned an invalid response")
  | Some r => accept g expected r
  end.
Definition supported (g : GatewayConfig) : bool :=
  ((gc_Version g =? protocolVersion)%string || IsHA g) &&
  negb (blank (gc_OwnerUID g) || blank (gc_GlobalVpcID g) || blank (gc_GatewayRevision g)).
Definition ha_ok (g : GatewayConfig) : bool :=
  (2 <=? List.length (gc_Gateways g))%nat && (List.length (gc_Gateways g) <=? 8)%nat && is_set (gc_BFD g) &&
  (gc_GatewayIP g =? "")%string.
Definition invoke (e : Exec) (operation : string) (g : GatewayConfig) (expected : list GatewayResourceRecord)
    : sprog (res Result) :=
  stop unconfigured (ge_Command e) with Errorf "local gateway command is not configured" ;;
  stop negb (supported g)
    with Errorf "local gateway requires a supported version, owner, global VPC identity and revision" ;;
  stop IsHA g && negb (ha_ok g) with Errorf "multi-gateway configuration requires members and BFD" ;;
  stop negb (validRecords expected) with Errorf "local gateway expected resource receipts are invalid" ;;
  let body := Marshal (request_json operation g expected) in
  stop (maxOutputBytes <? Z.of_nat (String.length body))
    with Errorf "local gateway request cannot be encoded within the size limit" ;;
  o <- spawn (mkInvocation (ge_Command e) body (bounded_timeout (ge_Timeout e))) ;;
  Ret (outcome_result g expected o).

Definition Ensure (e : Exec) := invoke e "Ensure".
Definition Get (e : Exec) := invoke e "Get".
Definition Delete (e : Exec) := invoke e "Delete".
Definition EndpointsEmpty (e : Exec) := invoke e "EndpointsEmpty".

(** * What the gateway executor accepts

    A backend's answer is accepted exactly when it keeps the protocol: the identities
    of the request, resource receipts that do not contradict the recorded ones, and
    counts that name distinct members. Everything else leaves the state unknown. *)
From S2P Require Import Infra.

(** ** Receipts *)

Record receipt_ok (r : GatewayResourceRecord) : Prop := {
  ro_version : gr_APIVersion r = "v1"; ro_kind : gr_Kind r = "Pod" \/ gr_Kind r = "ConfigMap";
  ro_namespace : blank (gr_Namespace r) = false; ro_name : blank (gr_Name r) = false; ro_uid : blank (gr_UID r) = false }.
Definition receipts_ok (l : list GatewayResourceRecord) : Prop := Forall receipt_ok l /\ NoDup (map recordKey l).

Lemma receipt_ok_iff r :
  (gr_APIVersion r =? "v1")%string && ((gr_Kind r =? "Pod")%string || (gr_Kind r =? "ConfigMap")%string) &&
  negb (blank (gr_Namespace r) || blank (gr_Name r) || blank (gr_UID r)) = true <-> receipt_ok r.
Proof.
  rewrite !andb_true_iff, orb_true_iff, negb_true_iff, !orb_false_iff, !String.eqb_eq.
  split; [intros [[? ?] [[? ?] ?]]; by split|by intros []].
Qed.
Lemma valid_records_iff seen l :
  valid_records seen l = true <-> Forall receipt_ok l /\ distinct_from recordKey seen l.
Proof.
  revert seen. induction l as [|r l IH]; intros seen; simpl.
  - split; [|done]. intros _. split; [constructor|]. split; [constructor|done].
  - rewrite !(andb_true_iff _ (valid_records _ _)), !(andb_true_iff _ (negb (bool_decide _))), receipt_ok_iff, IH,
      negb_true_iff, bool_decide_eq_false, distinct_from_cons, Forall_cons. tauto.
Qed.
Lemma validRecords_iff l : validRecords l = true <-> receipts_ok l.
Proof.
  unfold validRecords, receipts_ok. rewrite valid_records_iff. unfold distinct_from. split; [tauto|].
  intros [HF HD]. split; [done|]. split; [done|]. set_solver.
Qed.

(** The answer does not contradict a recorded identity. *)
Definition pinned (actual expected : list GatewayResourceRecord) : Prop :=
  forall r x, In r actual -> In x expected -> recordKey r = recordKey x -> gr_UID r = gr_UID x.
Lemma matchesExpected_iff actual expected : NoDup (map recordKey expected) ->
  matchesExpected actual expected = true <-> pinned actual expected.
Proof.
  intros HD.
  assert (matchesExpected actual expected = true <->
    forall r, In r actual -> forall uid, receipts expected !! recordKey r = Some uid -> uid = gr_UID r) as ->.
  { unfold matchesExpected. destruct expected as [|x l].
    - split; [|done]. intros _ r _ uid Hr. unfold receipts in Hr. simpl in Hr. by apply lookup_empty_Some in Hr.
    - rewrite forallb_forall. split.
      + intros H r Hr uid Hu. apply H in Hr. rewrite Hu in Hr. by apply String.eqb_eq.
      + intros H r Hr. specialize (H r Hr). destruct (receipts _ !! _) as [uid|] eqn:E; [|done].
        apply String.eqb_eq. by apply H. }
  unfold pinned, receipts. split.
  - intros H r x Hr Hx Hk. symmetry. apply (H r Hr). rewrite Hk. by apply fill_in.
  - intros H r Hr uid [(x & Hx & Hk & <-)|[Hm _]]%fill_Some; [|by apply lookup_empty_Some in Hm]. symmetry. by apply H.
Qed.

(** ** Members *)

Lemma members_once_iff members ids :
  members_once members ids = true <-> NoDup ids /\ forall id, In id ids -> id ∈ members.
Proof.
  revert members. induction ids as [|x ids IH]; intros members; simpl.
  - split; [|done]. intros _. split; [constructor|done].
  - rewrite andb_true_iff, bool_decide_eq_true, IH, NoDup_cons. split.
    + intros [Hx [Hd H]]. split; [split; [|done]|].
      * intros Hin. apply list_elem_of_In, H in Hin. set_solver.
      * intros y [<-|Hy]; [done|]. apply H in Hy. set_solver.
    + intros [[Hn Hd] H]. split; [apply H; by left|]. split; [done|]. intros y Hy.
      assert (y <> x) by (intros ->; by apply Hn, list_elem_of_In). specialize (H y (or_intror Hy)). set_solver.
Qed.

(** ** Accepted answers *)

(** The availability a result reports of the gateways [g]. *)
Definition available (g : GatewayConfig) (r : Result) : Prop :=
  if IsHA g
  then rt_DesiredGateways r = Z.of_nat (List.length (gc_Gateways g)) /\ 2 <= rt_DesiredGateways r /\
       rt_ReadyGateways r = Z.of_nat (List.length (rt_ReadyGatewayIDs r)) /\ rt_ReadyGateways r <= rt_DesiredGateways r /\
       (rt_Ready r = true <-> 0 < rt_ReadyGateways r) /\ (rt_Absent r = true -> rt_ReadyGateways r = 0) /\
       NoDup (rt_ReadyGatewayIDs r) /\ (forall id, In id (rt_ReadyGatewayIDs r) -> In id (map gw_ID (gc_Gateways g)))
  else rt_DesiredGateways r = 1 /\ rt_ReadyGateways r = (if rt_Ready r then 1 else 0).
Record agreeing (g : GatewayConfig) (expected : list GatewayResourceRecord) (r : Result) : Prop := {
  ag_version : rt_Version r = protocolVersion;
  ag_owner : rt_OwnerUID r = gc_OwnerUID g;
  ag_global : rt_GlobalVpcID r = gc_GlobalVpcID g;
  ag_revision : rt_GatewayRevision r = gc_GatewayRevision g;
  ag_ready : rt_Ready r = true -> rt_Absent r = false;
  ag_absent : rt_Absent r = true -> rt_Resources r = [];
  ag_receipts : receipts_ok (rt_Resources r);
  ag_pinned : pinned (rt_Resources r) expected;
  ag_available : available g r }.
(** The response states the result; the counts and identities are needed of several
    gateways only. *)
Record states (g : GatewayConfig) (p : response) (r : Result) : Prop := {
  st_version : rp_Version p = rt_Version r; st_owner : rp_OwnerUID p = rt_OwnerUID r;
  st_global : rp_GlobalVpcID p = rt_GlobalVpcID r; st_revision : rp_GatewayRevision p = rt_GatewayRevision r;
  st_ready : rp_Ready p = Some (rt_Ready r); st_absent : rp_Absent p = Some (rt_Absent r);
  st_empty : rp_EndpointsEmpty p = Some (rt_EndpointsEmpty r);
  st_ids : default [] (rp_ReadyGatewayIDs p) = rt_ReadyGatewayIDs r; st_resources : rp_Resources p = rt_Resources r;
  st_counts : IsHA g = true -> rp_ReadyGateways p = Some (rt_ReadyGateways r) /\
    rp_DesiredGateways p = Some (rt_DesiredGateways r) /\ rp_ReadyGatewayIDs p = Some (rt_ReadyGatewayIDs r) }.

Lemma counts_ok_iff g ready absent n desired :
  counts_ok g ready absent n desired = true <->
  desired = Z.of_nat (List.length (gc_Gateways g)) /\ 2 <= desired /\ 0 <= n <= desired /\
  (ready = true <-> 0 < n) /\ (absent = true -> n = 0).
Proof.
  unfold counts_ok. destruct ready, absent; simpl;
    rewrite ?andb_true_iff, ?negb_true_iff, ?Z.eqb_eq, ?Z.ltb_ge, ?negb_false_iff, ?Z.eqb_eq;
    destruct (Z.ltb_spec 0 n); simpl; intuition (try discriminate; try lia).
Qed.

Lemma availability_iff g p ready absent n desired :
  availability g p ready absent = Ok (n, desired) <->
  if IsHA g
  then exists ids, rp_ReadyGateways p = Some n /\ rp_DesiredGateways p = Some desired /\ rp_ReadyGatewayIDs p = Some ids /\
       counts_ok g ready absent n desired = true /\ n = Z.of_nat (List.length ids) /\
       NoDup ids /\ forall id, In id ids -> In id (map gw_ID (gc_Gateways g))
  else n = (if ready then 1 else 0) /\ desired = 1.
Proof.
  unfold availability. destruct (IsHA g); simpl; [|split; [by intros [= <- <-]|by intros [-> ->]]].
  assert (forall ids, members_once (list_to_set (map gw_ID (gc_Gateways g))) ids = true <->
    NoDup ids /\ forall id, In id ids -> In id (map gw_ID (gc_Gateways g))) as HM.
  { intros ids. rewrite members_once_iff. by setoid_rewrite elem_of_list_to_set; setoid_rewrite list_elem_of_In. }
  split.
  - destruct (rp_ReadyGateways p) as [n'|]; [|done]. destruct (rp_DesiredGateways p) as [d|]; [|done].
    destruct (rp_ReadyGatewayIDs p) as [ids|]; [|intros H; follow H; done].
    intros H. follow H. injection H as <- <-. exists ids.
    match goal with HO : members_once _ _ = true |- _ => apply HM in HO as [? ?] end. by repeat split.
  - intros (ids & -> & -> & -> & Hc & -> & Hd & Hi). rewrite Hc. simpl. rewrite Z.eqb_refl. simpl.
    by rewrite (proj2 (HM ids)).
Qed.

Lemma accept_iff g expected p r : receipts_ok expected ->
  accept g expected p = Ok r <-> states g p r /\ agreeing g expected r.
Proof.
  intros [_ HE]. unfold accept. split.
  - destruct (rp_Ready p) as [ready|] eqn:E1; [|intros H; follow H; done].
    destruct (rp_Absent p) as [absent|] eqn:E2; [|intros H; follow H; done].
    destruct (rp_EndpointsEmpty p) as [ee|] eqn:E3; [|intros H; follow H; done].
    intros H. follow H. injection H as <-.
    match goal with HA : availability _ _ _ _ = Ok ?c |- _ => destruct c as [n desired]; apply availability_iff in HA as HAV end.
    match goal with HV : validRecords _ = true |- _ => apply validRecords_iff in HV as HR end.
    match goal with HX : matchesExpected _ _ = true |- _ => apply matchesExpected_iff in HX as HP; [|done] end.
    split; split; simpl; try done.
    + intros HH. rewrite HH in HAV. destruct HAV as (ids & -> & -> & E & _). by rewrite E.
    + intros ->. by destruct absent.
    + intros ->. by destruct (rp_Resources p).
    + unfold available. simpl. destruct (IsHA g).
      * destruct HAV as (ids & _ & _ & E & Hc & Hn & Hd & Hi). rewrite E. apply counts_ok_iff in Hc. simpl. intuition lia.
      * destruct HAV as [-> ->]. done.
  - intros [[V O G R E1 E2 E3 I S C] [V' O' G' R' P A RO PI AV]].
    rewrite V, O, G, R, E1, E2, E3, V', O', G', R', !String.eqb_refl. simpl.
    assert ((rt_Ready r && rt_Absent r) || (rt_Absent r && negb (empty (rp_Resources p))) = false) as ->.
    { rewrite S. destruct (rt_Ready r); [by rewrite P|]. simpl. destruct (rt_Absent r); [by rewrite A|done]. }
    rewrite S, (proj2 (validRecords_iff _) RO), (proj2 (matchesExpected_iff _ _ HE) PI). simpl.
    assert (availability g p (rt_Ready r) (rt_Absent r) = Ok (rt_ReadyGateways r, rt_DesiredGateways r)) as ->.
    { apply availability_iff. unfold available in AV. destruct (IsHA g).
      - destruct C as (? & ? & C); [done|]. destruct AV as (? & ? & ? & ? & [? ?] & ? & ? & ?). exists (rt_ReadyGatewayIDs r).
        rewrite counts_ok_iff. repeat split; auto; lia.
      - by destruct AV as [-> ->]. }
    simpl. rewrite I. destruct r; simpl in *. congruence.
Qed.

(** ** [invoke] *)

(** The request is one the executor sends. *)
Definition sendable (e : Exec) (operation : string) (g : GatewayConfig) (expected : list GatewayResourceRecord) : bool :=
  negb (unconfigured (ge_Command e)) && supported g && negb (IsHA g && negb (ha_ok g)) && validRecords expected &&
  negb (maxOutputBytes <? Z.of_nat (String.length (Marshal (request_json operation g expected)))).
Definition sent (e : Exec) (operation : string) (g : GatewayConfig) (expected : list GatewayResourceRecord) : invocation :=
  mkInvocation (ge_Command e) (Marshal (request_json operation g expected)) (bounded_timeout (ge_Timeout e)).
Lemma invoke_cases e operation g expected h x : exec (invoke e operation g expected) h (Ret x) ->
  (sendable e operation g expected = false /\ h = [] /\ exists t, x = Err (Errorf t)) \/
  (sendable e operation g expected = true /\
   ran_once (sent e operation g expected) (outcome_result g expected) h x).
Proof.
  unfold invoke, sendable. intros HX.
  destruct (unconfigured _); [left; apply Ret_decides in HX as [-> ->]; eauto|].
  destruct (supported g); [cbn [negb andb] in *|left; apply Ret_decides in HX as [-> ->]; eauto].
  destruct (IsHA g && negb (ha_ok g)); [left; apply Ret_decides in HX as [-> ->]; eauto|].
  destruct (validRecords expected); [cbn [negb andb] in *|left; apply Ret_decides in HX as [-> ->]; eauto].
  remember (maxOutputBytes <? Z.of_nat (String.length (Marshal (request_json operation g expected)))) as big eqn:HB. clear HB.
  destruct big; [left; apply Ret_decides in HX as [-> ->]; eauto|].
  right. split; [done|]. by apply spawn_decides in HX.
Qed.

(** The program ended in time, within its bounds, and printed this. *)
Definition printed (o : outcome) (out : string) : Prop :=
  out = text (oc_Stdout o) /\ Z.of_nat (String.length out) <= maxOutputBytes /\
  Z.of_nat (String.length (text (oc_Stderr o))) <= maxOutputBytes /\ oc_Expired o = false /\ oc_Failed o = false.
Lemma outcome_result_iff g expected o r : receipts_ok expected ->
  outcome_result g expected o = Ok r <->
  exists out p, printed o out /\ decodeResponse out = Some p /\ states g p r /\ agreeing g expected r.
Proof.
  intros HE. unfold outcome_result, printed.
  destruct (lo_exceeded (capture false _)) eqn:E1; simpl.
  { rewrite capture_exceeded in E1. apply Z.ltb_lt in E1. split; [done|]. intros (out & p & (-> & ? & _) & _). lia. }
  rewrite (capture_buffer _ E1). rewrite capture_exceeded in E1. apply Z.ltb_ge in E1.
  destruct (lo_exceeded (capture true _)) eqn:E2; simpl; rewrite capture_exceeded in E2.
  { apply Z.ltb_lt in E2. split; [done|]. intros (out & p & (-> & ? & ? & _) & _). lia. }
  apply Z.ltb_ge in E2. destruct (oc_Expired o); [split; [done|]; by intros (? & ? & (_ & _ & _ & ? & _) & _)|].
  destruct (oc_Failed o); [split; [done|]; by intros (? & ? & (_ & _ & _ & _ & ?) & _)|].
  destruct (decodeResponse _) as [p|] eqn:ED; [|split; [done|]; by intros (? & ? & (-> & _) & ? & _); congruence].
  rewrite accept_iff by done. split.
  - intros [HS HA]. by exists (text (oc_Stdout o)), p.
  - intros (out & p' & (-> & _) & HD & ?). by simplify_eq.
Qed.

Lemma unknown_Is t : Is (unknown t) ErrUnknownState = true.
Proof. apply orb_true_iff. right. by apply orb_true_iff; left; apply bool_decide_eq_true. Qed.
(** Every failure of a program that ran leaves the state unknown. *)
Definition uncertain {A} (x : res A) : Prop := forall err, x = Err err -> Is err ErrUnknownState = true.
Lemma uncertain_Ok {A} (a : A) : uncertain (Ok a).
Proof. done. Qed.
Lemma uncertain_unknown {A} t : uncertain (A := A) (Err (unknown t)).
Proof. intros err [= <-]. apply unknown_Is. Qed.
Ltac uncertain :=
  repeat match goal with
         | |- uncertain (match ?x with _ => _ end) => destruct x eqn:?
         | |- uncertain (Ok _) => apply uncertain_Ok
         | |- uncertain (Err (unknown _)) => apply uncertain_unknown
         end.
Lemma uncertain_availability g p ready absent : uncertain (availability g p ready absent).
Proof. unfold availability. uncertain. Qed.
Lemma uncertain_accept g expected p : uncertain (accept g expected p).
Proof.
  unfold accept. uncertain. intros err [= <-]. by eapply uncertain_availability.
Qed.
Lemma uncertain_outcome g expected o : uncertain (outcome_result g expected o).
Proof. unfold outcome_result. uncertain. apply uncertain_accept. Qed.

(** C32: the gateway executor runs the administrator's program once, for a well-formed
    request only. It accepts exactly the answers that were printed in time and within
    the size limit, decode strictly, repeat the identities of the request, contradict
    neither themselves nor a recorded resource receipt, and name distinct members as
    ready; every other end of the program is reported as an unknown state. *)
Theorem gateway_answers_are_checked e operation g expected h x :
  exec (invoke e operation g expected) h (Ret x) ->
  (sendable e operation g expected = false /\ h = [] /\ exists t, x = Err (Errorf t)) \/
  (sendable e operation g expected = true /\ exists o, h = [Ev (sent e operation g expected) o] /\ uncertain x /\
   forall r, x = Ok r <->
     exists out p, printed o out /\ decodeResponse out = Some p /\ states g p r /\ agreeing g expected r).
Proof.
  intros [H|[HS [o -> ->]]]%invoke_cases; [by left|]. right. split; [done|]. exists o. split; [done|].
  split; [apply uncertain_outcome|]. intros r. apply outcome_result_iff. apply validRecords_iff.
  unfold sendable in HS. by breflect.
Qed.
