(* ===== verification/Ovn.v ===== *)
(** * [internal/ovn/exec.go]: the narrow OVN fields the controllers own

    Every access to a northbound or interconnection database is one run of an
    administrator's command, whose answer is arbitrary: the JSON it prints, a cancelled
    context or a failure. A [json.RawMessage] is its value; a missing column is [None]. *)
From stdpp Require Import gmultiset.
From S2P Require Import Prelude GoStd Json JsonDecode Validation Prog Api GlobalApi GlobalConfig Infra.
Open Scope Z_scope.

(** ** Running a command *)

(** What [Runner.Run] gives: the output, where [expired] tells that the context ended
    all the same, or an error with a context that did or did not end. *)
Inductive ran := Output (out : string) (expired : bool) | Cancelled (e : error) | Failed.
Definition command := list string.
Definition ran_of (c : command) : Type := ran.
Notation oprog := (prog ran_of).
Notation ohistory := (list (event ran_of)).
Definition exec_run (c : command) : oprog ran := call c.

Definition ownerKey : string := "global-vpc-uid".
Definition maxOutput : Z := 4194304.
(** [Timeout] in nanoseconds; [TransactionCommand] is used by the BFD transaction alone. *)
Record Exec := mkExec { ex_Timeout : Z; ex_TransactionCommand : command }.
Definition timeout (e : Exec) : Z := if ex_Timeout e <=? 0 then 15 * 10 ^ 9 else ex_Timeout e.
(** [math.Ceil(timeout.Seconds())], exact for every timeout below weeks. *)
Definition ceil_seconds (ns : Z) : Z := (ns + (10 ^ 9 - 1)) / 10 ^ 9.
Definition oversized (out : string) : bool := maxOutput <? Z.of_nat (String.length out).

Definition exec_command (e : Exec) (prefix args : command) : command :=
  prefix ++ [("--timeout=" ++ Itoa (ceil_seconds (timeout e)))%string] ++ args.
Definition run (e : Exec) (prefix args : command) : oprog (res string) :=
  stop match prefix with p :: _ => (p =? "")%string | [] => true end with Errorf "OVN command is not configured" ;;
  x <- exec_run (exec_command e prefix args) ;;
  Ret (match x with
       | Cancelled err => Err (Wrapf "OVN command cancelled" err)
       | Failed => Err (Errorf "OVN command failed")
       | Output out _ => if oversized out then Err (Errorf "OVN output limit exceeded") else Ok out
       end).

(** ** Values *)

Definition row := gmap string json.
(** Hexadecimal groups of the given lengths, separated by dashes. *)
Fixpoint hex_groups (groups : list nat) (s : string) {struct s} : bool :=
  match groups, s with
  | [O], EmptyString => true
  | O :: groups, String c s => (byte_val c =? 45) && hex_groups groups s
  | S n :: groups, String c s =>
      ((is_digit c || in_range 97 102 c || in_range 65 70 c) && hex_groups (n :: groups) s)
  | _, _ => false
  end.
(** [uuidPattern.MatchString] *)
Definition is_uuid (s : string) : bool := hex_groups [8; 4; 4; 4; 12]%nat s.

(** [json.Unmarshal] into [[]json.RawMessage]; [None] is an error, a nil slice is empty. *)
Definition raw_slice (v : option json) : option (list json) :=
  match v with Some (JArr l) => Some l | Some JNull => Some [] | _ => None end.
(** The same, where a nil slice is refused too. *)
Definition raw_slice' (v : option json) : option (list json) := match v with Some (JArr l) => Some l | _ => None end.

Definition stringValue (v : option json) : res string :=
  match v with Some (JStr s) => Ok s | _ => Err (Errorf "invalid OVN string") end.
Definition tag_of (j : json) : string := match stringValue (Some j) with Ok s => s | Err _ => "" end.

(** The loop over the pairs of a map. *)
Fixpoint map_pairs (m : gmap string string) (pairs : list (list json)) : res (gmap string string) :=
  match pairs with
  | [] => Ok m
  | kv :: rest =>
      match kv with
      | [k; v] =>
          match stringValue (Some k), stringValue (Some v) with
          | Ok k, Ok v =>
              reject bool_decide (m !! k <> None) with Errorf "duplicate OVN map key" ;;
              map_pairs (<[k := v]> m) rest
          | _, _ => Err (Errorf "invalid OVN map strings")
          end
      | _ => Err (Errorf "invalid OVN map pair")
      end
  end.
Definition mapValue (v : option json) : res (gmap string string) :=
  match raw_slice v with
  | Some [tag; entries] =>
      reject negb (tag_of tag =? "map")%string with Errorf "invalid OVN map tag" ;;
      match raw_slice' (Some entries) ≫= (fun l => mapM (fun j => raw_slice (Some j)) l) with
      | None => Err (Errorf "invalid OVN map entries")
      | Some pairs => map_pairs ∅ pairs
      end
  | _ => Err (Errorf "invalid OVN map")
  end.

Definition uuidValue (v : option json) : res string :=
  let bad := Err (Errorf "invalid OVN UUID") in
  match raw_slice v ≫= mapM (fun j => decode_string j "") with
  | Some [tag; id] => if (tag =? "uuid")%string && is_uuid id then Ok id else bad
  | _ => bad
  end.
Definition scalar (uuid : bool) (v : option json) : res string := if uuid then uuidValue v else stringValue v.
(** The loop over the members of a set. *)
Fixpoint set_members (uuid : bool) (seen : gset string) (values : list json) : res (list string) :=
  match values with
  | [] => Ok []
  | value :: rest =>
      s <-? scalar uuid (Some value) ;;
      reject bool_decide (s ∈ seen) with Errorf "duplicate OVN set member" ;;
      l <-? set_members uuid ({[s]} ∪ seen) rest ;;
      Ok (s :: l)
  end.
Definition setValue (v : option json) (uuid : bool) : res (list string) :=
  let single := s <-? scalar uuid v ;; Ok [s] in
  match raw_slice v with
  | Some [tag; values] =>
      if (tag_of tag =? "set")%string
      then match raw_slice' (Some values) with
           | None => Err (Errorf "invalid OVN set")
           | Some l => set_members uuid ∅ l
           end
      else single
  | _ => single
  end.

(** ** Tables *)

(** The table as it is printed; [Data] is [None] when nil. *)
Record table := mkTable { tb_Headings : list string; tb_Data : option (list (list json)) }.
Definition decode_rows : decoder (option (list (list json))) := fun j _ =>
  match j with JNull => Some None | JArr l => option_map Some (mapM (fun r => raw_slice (Some r)) l) | _ => None end.
Definition table_decoder : decoder table :=
  decode_struct [field "headings" tb_Headings (fun x t => mkTable x (tb_Data t)) (decode_slice decode_string "");
                 field "data" tb_Data (fun x t => mkTable (tb_Headings t) x) decode_rows].
(** [Decode] of one value, then of the end of the output. *)
Definition decode_table (out : string) : res table :=
  match parse_value (S (String.length out)) out with
  | None => Err (Errorf "invalid OVN JSON response")
  | Some (j, rest) =>
      match table_decoder j (mkTable [] None) with
      | None => Err (Errorf "invalid OVN JSON response")
      | Some t =>
          reject negb (skip_ws rest =? "")%string with Errorf "invalid trailing OVN JSON response" ;;
          Ok t
      end
  end.
Fixpoint has_duplicates (l : list string) : bool :=
  match l with [] => false | x :: l => existsb (String.eqb x) l || has_duplicates l end.
(** [strings.Split(columns, ",")] *)
Fixpoint split_comma (s current : string) : list string :=
  match s with
  | EmptyString => [current]
  | String c s => if (byte_val c =? 44) then current :: split_comma s "" else split_comma s (current ++ String c "")
  end.
Fixpoint make_rows (headings : list string) (data : list (list json)) : res (list row) :=
  match data with
  | [] => Ok []
  | values :: rest =>
      reject negb (List.length values =? List.length headings)%nat with Errorf "invalid OVN row" ;;
      rows <-? make_rows headings rest ;;
      Ok (fill fst snd (combine headings values) ∅ :: rows)
  end.
(** What [query] makes of the output. *)
Definition parse_rows (columns : string) (out : string) : res (list row) :=
  t <-? decode_table out ;;
  let want := split_comma columns "" in
  match tb_Data t with
  | None => Err (Errorf "invalid OVN table response")
  | Some data =>
      reject negb (List.length (tb_Headings t) =? List.length want)%nat with Errorf "invalid OVN table response" ;;
      reject has_duplicates (tb_Headings t) with Errorf "duplicate OVN heading" ;;
      reject negb (forallb (fun h => existsb (String.eqb h) (tb_Headings t)) want) with Errorf "missing OVN heading" ;;
      make_rows (tb_Headings t) data
  end.

(** [strconv.Quote] of ASCII; other characters are kept, as Go keeps printable ones. *)
Definition quote_char_text (c : ascii) : string :=
  let n := byte_val c in
  let esc s := String backslash s in
  if n =? 34 then esc (String quote_char "") else if n =? 92 then esc (String backslash "")
  else if n =? 7 then esc "a" else if n =? 8 then esc "b" else if n =? 12 then esc "f" else if n =? 10 then esc "n"
  else if n =? 13 then esc "r" else if n =? 9 then esc "t" else if n =? 11 then esc "v"
  else if (n <? 32) || (n =? 127) then esc ("x" ++ hex_byte n)%string
  else String c "".
Fixpoint quote_text (s : string) : string :=
  match s with EmptyString => "" | String c s => (quote_char_text c ++ quote_text s)%string end.
Definition Quote (s : string) : string := dq (quote_text s).
Definition condition (column value : string) : string := (column ++ "=" ++ Quote value)%string.
Definition uuidSet (values : list string) : string := ("[" ++ Join "," values ++ "]")%string.

Definition single (rows : list row) : res row :=
  match rows with [r] => Ok r | _ => Err (Errorf "expected exactly one OVN row") end.
Definition namedSingle (rows : list row) (want : string) : res row :=
  r <-? single rows ;;
  name <-? stringValue (r !! "name") ;;
  reject negb (name =? want)%string with Errorf "OVN row name does not match query" ;;
  Ok r.
(** [s[key]] of a [map[string]string], empty when absent *)
Definition entry (m : gmap string string) (k : string) : string := default "" (m !! k).
#[export] Instance Route_eq_dec : EqDecision Route. Proof. solve_decision. Defined.
#[export] Instance Route_countable : Countable Route.
Proof.
  refine (inj_countable' (fun r => (ro_CIDR r, ro_NextHopIP r, ro_Policy r, ro_BFD r))
            (fun t => let '(a, b, c, d) := t in mkRoute a b c d) _).
  by intros [].
Defined.
(** [strings.TrimSuffix] *)
Definition TrimSuffix (s suffix : string) : string :=
  if HasSuffix s suffix then GoStd.take (String.length s - String.length suffix) s else s.

Section exec.
Variable e : Exec.

(** A UUID is no condition of [find]: the one record is listed instead. *)
Definition query_args (columns table : string) (conditions : list string) : res (list string) :=
  let found := ["--format=json"; ("--columns=" ++ columns)%string; "find"; table] ++ conditions in
  match conditions with
  | [c] =>
      if HasPrefix c "_uuid="
      then
        let id := TrimPrefix c "_uuid=" in
        reject negb (is_uuid id) with Errorf "invalid OVN record UUID" ;;
        Ok ["--format=json"; ("--columns=" ++ columns)%string; "list"; table; id]
      else Ok found
  | _ => Ok found
  end.
Definition query (cmd : command) (columns table : string) (conditions : list string) : oprog (res (list row)) :=
  args <-! lift (query_args columns table conditions) ;;
  out <-! run e cmd args ;;
  lift (parse_rows columns out).
(** The row a reference names. *)
Definition record (cmd : command) (columns table ref : string) : oprog (res row) :=
  rows <-! query cmd columns table [("_uuid=" ++ ref)%string] ;; lift (single rows).

(** ** [Check]: the registered zone and chassis *)

Definition chassis_count_ok (cfg : Cluster) : bool :=
  negb (empty (cl_GatewayChassis cfg)) && (List.length (cl_GatewayChassis cfg) <=? 100)%nat.
Definition chassis_ok (chassis : string) (r : row) : res unit :=
  name <-? stringValue (r !! "name") ;;
  other <-? mapValue (r !! "other_config") ;;
  reject negb (name =? chassis)%string || negb (entry other "is-interconn" =? "true")%string ||
         (entry other "is-remote" =? "true")%string
    with Errorf "registered chassis is not a local interconnection gateway" ;;
  Ok tt.
Fixpoint check_chassis (cfg : Cluster) (seen : gset string) (l : list string) : oprog (res unit) :=
  match l with
  | [] => Ret (Ok tt)
  | chassis :: l =>
      stop (chassis =? "")%string || bool_decide (chassis ∈ seen) with Errorf "invalid gateway chassis registration" ;;
      rows <-! query (cl_SBCommand cfg) "name,other_config" "Chassis" [condition "name" chassis] ;;
      r <-! lift (single rows) ;;
      _ <-! lift (chassis_ok chassis r) ;;
      check_chassis cfg ({[chassis]} ∪ seen) l
  end.
Definition Check (cfg : Cluster) : oprog (res unit) :=
  rows <-! query (cl_NBCommand cfg) "name" "NB_Global" [] ;;
  r <-! lift (single rows) ;;
  name <-! lift (stringValue (r !! "name")) ;;
  stop negb (name =? cl_AZName cfg)%string || (name =? "")%string
    with Errorf "NB availability zone does not match registration" ;;
  stop negb (chassis_count_ok cfg) with Errorf "registration requires 1-100 gateway chassis" ;;
  check_chassis cfg ∅ (cl_GatewayChassis cfg).

(** ** [Mark]: the interconnection marker of a transit switch *)

Definition mark_command (id transit : string) : command :=
  ["get"; "Logical_Switch"; id; "name"; "other_config"; "--";
   "wait-until"; "Logical_Switch"; id; condition "name" transit; "other_config:interconn-ts{=}[]"; "--";
   "set"; "Logical_Switch"; id; condition "other_config:interconn-ts" transit].
(** No other switch may hold the marker. *)
Definition marker_ok (id : string) (markers : list row) : res unit :=
  match markers with
  | [] => Ok tt
  | [m] =>
      markerID <-? uuidValue (m !! "_uuid") ;;
      reject negb (markerID =? id)%string with Errorf "transit marker belongs to another logical switch" ;;
      Ok tt
  | _ => Err (Errorf "duplicate transit switch markers")
  end.
Definition Mark (cfg : Cluster) (transitSwitch : string) : oprog (res unit) :=
  rows <-! query (cl_NBCommand cfg) "_uuid,name,other_config" "Logical_Switch" [condition "name" transitSwitch] ;;
  r <-! lift (namedSingle rows transitSwitch) ;;
  id <-! lift (uuidValue (r !! "_uuid")) ;;
  other <-! lift (mapValue (r !! "other_config")) ;;
  let marked := other !! "interconn-ts" in
  stop match marked with Some value => negb (value =? transitSwitch)%string | None => false end
    with Errorf "logical switch already has a different interconnection marker" ;;
  markers <-! query (cl_NBCommand cfg) "_uuid" "Logical_Switch" [condition "other_config:interconn-ts" transitSwitch] ;;
  _ <-! lift (marker_ok id markers) ;;
  match marked with
  | Some _ => Ret (Ok tt)
  | None => _ <-! run e (cl_NBCommand cfg) (mark_command id transitSwitch) ;; Ret (Ok tt)
  end.

(** ** [Gateways]: the gateway chassis of a router port *)

(** [want]: the first chassis has priority 100. *)
Fixpoint gateway_want (i : Z) (want : gmap string Z) (l : list string) : res (gmap string Z) :=
  match l with
  | [] => Ok want
  | c :: l =>
      reject (c =? "")%string with Errorf "empty gateway chassis" ;;
      reject bool_decide (want !! c <> None) with Errorf "duplicate gateway chassis" ;;
      gateway_want (i + 1) (<[c := 100 - i]> want) l
  end.
Definition gateway_row (r : row) : res (string * Z) :=
  name <-? stringValue (r !! "chassis_name") ;;
  match r !! "priority" ≫= (fun j => decode_int j 0) with
  | Some priority => Ok (name, priority)
  | None => Err (Errorf "invalid gateway priority")
  end.
(** [current] and [duplicate] after the rows. *)
Fixpoint current_gateways (current : gmap string Z) (duplicate : bool) (l : list (string * Z)) : gmap string Z * bool :=
  match l with
  | [] => (current, duplicate)
  | (name, priority) :: l =>
      current_gateways (<[name := priority]> current) (duplicate || bool_decide (current !! name <> None)) l
  end.
Definition gateways_equal (want current : gmap string Z) (duplicate : bool) : bool :=
  negb duplicate && (size current =? size want)%nat &&
  forallb (fun np => bool_decide (current !! fst np = Some (snd np))) (map_to_list want).
Fixpoint gateway_args (id routerPort : string) (i : Z) (l : list string) : list string :=
  match l with
  | [] => []
  | chassis :: l =>
      let ref := ("@gw" ++ Itoa i)%string in
      ["--"; ("--id=" ++ ref)%string; "create"; "Gateway_Chassis"; condition "name" (routerPort ++ "-" ++ chassis);
       condition "chassis_name" chassis; ("priority=" ++ Itoa (100 - i))%string; "--";
       "add"; "Logical_Router_Port"; id; "gateway_chassis"; ref] ++ gateway_args id routerPort (i + 1) l
  end.
Definition gateways_command (cfg : Cluster) (id routerPort : string) (refs : list string) : command :=
  ["get"; "Logical_Router_Port"; id; "name"; "gateway_chassis"; "--";
   "wait-until"; "Logical_Router_Port"; id; condition "name" routerPort; ("gateway_chassis=" ++ uuidSet refs)%string; "--";
   "clear"; "Logical_Router_Port"; id; "gateway_chassis"] ++ gateway_args id routerPort 0 (cl_GatewayChassis cfg).
Definition Gateways (cfg : Cluster) (routerPort : string) : oprog (res unit) :=
  stop negb (chassis_count_ok cfg) with Errorf "registration requires 1-100 gateway chassis" ;;
  want <-! lift (gateway_want 0 ∅ (cl_GatewayChassis cfg)) ;;
  rows <-! query (cl_NBCommand cfg) "_uuid,name,gateway_chassis" "Logical_Router_Port" [condition "name" routerPort] ;;
  r <-! lift (namedSingle rows routerPort) ;;
  id <-! lift (uuidValue (r !! "_uuid")) ;;
  refs <-! lift (setValue (r !! "gateway_chassis") true) ;;
  gs <-! collect (fun ref => g <-! record (cl_NBCommand cfg) "chassis_name,priority" "Gateway_Chassis" ref ;;
                             lift (gateway_row g)) refs ;;
  let '(current, duplicate) := current_gateways ∅ false gs in
  if gateways_equal want current duplicate then Ret (Ok tt)
  else _ <-! run e (cl_NBCommand cfg) (gateways_command cfg id routerPort refs) ;; Ret (Ok tt).

(** ** Transit switches of the interconnection database *)

Definition transit_row_id (r : row) (ownerUID expectedUUID : string) : res string :=
  id <-? uuidValue (r !! "_uuid") ;;
  ids <-? mapValue (r !! "external_ids") ;;
  reject negb (entry ids ownerKey =? ownerUID)%string with Errorf "transit switch ownership conflict" ;;
  reject negb (expectedUUID =? "")%string && negb (id =? expectedUUID)%string with Errorf "transit switch UUID changed" ;;
  Ok id.
(** The identifier is empty when there is no row of that name. *)
Definition transit (cmd : command) (name ownerUID expectedUUID : string) : oprog (res string) :=
  stop (name =? "")%string || (ownerUID =? "")%string || (negb (expectedUUID =? "")%string && negb (is_uuid expectedUUID))
    with Errorf "invalid transit identity" ;;
  rows <-! query cmd "_uuid,name,external_ids" "Transit_Switch" [condition "name" name] ;;
  match rows with
  | [] => Ret (Ok "")
  | _ => r <-! lift (namedSingle rows name) ;; lift (transit_row_id r ownerUID expectedUUID)
  end.
Definition InspectTransit := transit.

Definition ErrTransitMissing : error := Errorf "previous transit switch is missing; refusing replacement".
Definition create_transit (name ownerUID : string) : command :=
  ["--id=@ts"; "create"; "Transit_Switch"; condition "name" name; condition ("external_ids:" ++ ownerKey) ownerUID].
Definition EnsureTransit (cmd : command) (name ownerUID expectedUUID : string) : oprog (res string) :=
  id <-! transit cmd name ownerUID expectedUUID ;;
  if negb (id =? "")%string then Ret (Ok id)
  else
    stop negb (expectedUUID =? "")%string with ErrTransitMissing ;;
    created <- run e cmd (create_transit name ownerUID) ;;
    id <-! transit cmd name ownerUID "" ;;
    if negb (id =? "")%string then Ret (Ok id)
    else Ret (match created with
              | Err err => Err err
              | Ok _ => Err (Errorf "transit creation did not produce an owned row")
              end).
Definition destroy_transit (id name ownerUID : string) : command :=
  ["get"; "Transit_Switch"; id; "name"; "external_ids"; "--";
   "wait-until"; "Transit_Switch"; id; condition "name" name; condition ("external_ids:" ++ ownerKey) ownerUID; "--";
   "destroy"; "Transit_Switch"; id].
Definition DeleteTransit (cmd : command) (name ownerUID expectedUUID : string) : oprog (res unit) :=
  id <-! transit cmd name ownerUID expectedUUID ;;
  if (id =? "")%string then Ret (Ok tt)
  else _ <-! run e cmd (destroy_transit id name ownerUID) ;; Ret (Ok tt).

(** ** Ports, presence and emptiness *)

(** [None] when there is no switch of that name. *)
Definition switchPorts (cfg : Cluster) (name : string) : oprog (res (option row * list row)) :=
  rows <-! query (cl_NBCommand cfg) "_uuid,name,ports,other_config" "Logical_Switch" [condition "name" name] ;;
  match rows with
  | [] => Ret (Ok (None, []))
  | _ =>
      ls <-! lift (namedSingle rows name) ;;
      refs <-! lift (setValue (ls !! "ports") true) ;;
      ports <-! collect (record (cl_NBCommand cfg) "name,type,options,addresses" "Logical_Switch_Port") refs ;;
      Ret (Ok (Some ls, ports))
  end.
Fixpoint only_routed (ports : list row) : res bool :=
  match ports with
  | [] => Ok true
  | port :: ports =>
      typ <-? stringValue (port !! "type") ;;
      if negb (typ =? "router")%string && negb (typ =? "remote")%string then Ok false else only_routed ports
  end.
Definition EndpointsEmpty (cfg : Cluster) (subnetName : string) : oprog (res bool) :=
  lp <-! switchPorts cfg subnetName ;; lift (only_routed (snd lp)).

Definition absent_queries (vpc subnet transit : string) : list (string * string) :=
  [("Logical_Router", vpc); ("Logical_Switch", subnet); ("Logical_Switch", transit);
   ("Logical_Router_Port", vpc ++ "-" ++ subnet); ("Logical_Router_Port", vpc ++ "-" ++ transit);
   ("Logical_Switch_Port", subnet ++ "-" ++ vpc); ("Logical_Switch_Port", transit ++ "-" ++ vpc)]%string.
Fixpoint all_absent (cmd : command) (queries : list (string * string)) : oprog (res bool) :=
  match queries with
  | [] => Ret (Ok true)
  | (table, name) :: queries =>
      rows <-! query cmd "_uuid" table [condition "name" name] ;;
      match rows with [] => all_absent cmd queries | _ => Ret (Ok false) end
  end.
Definition LocalAbsent (cfg : Cluster) (vpc subnet transit : string) : oprog (res bool) :=
  all_absent (cl_NBCommand cfg) (absent_queries vpc subnet transit).

(** ** [RoutesReady]: the exact route set of a router *)

Definition is_policy (p : string) : bool := (p =? "dst-ip")%string || (p =? "src-ip")%string.
(** An expected route with its policy; an empty policy is a destination route. *)
Definition with_policy (r : Route) : Route :=
  if (ro_Policy r =? "")%string then mkRoute (ro_CIDR r) (ro_NextHopIP r) "dst-ip" (ro_BFD r) else r.
Definition route_ok (r : Route) : bool :=
  negb (ro_CIDR r =? "")%string && negb (ro_NextHopIP r =? "")%string && is_policy (ro_Policy r).
(** The loop over [routes]: the counts of [want]. *)
Fixpoint want_routes (want : gmultiset Route) (l : list Route) : res (gmultiset Route) :=
  match l with
  | [] => Ok want
  | r :: l =>
      reject negb (route_ok (with_policy r)) with Errorf "invalid expected route" ;;
      want_routes ({[+ with_policy r +]} ⊎ want) l
  end.
Definition checks_bfd (routes : list Route) : bool := existsb (fun r => negb (ro_BFD r =? "")%string) routes.
Definition route_columns (checkBFD : bool) : string :=
  if checkBFD then "ip_prefix,nexthop,policy,route_table,bfd" else "ip_prefix,nexthop,policy,route_table".
(** One row of the router; [None] is a route of another kind. *)
Definition route_of (checkBFD : bool) (r : row) : res (option Route) :=
  cidr <-? stringValue (r !! "ip_prefix") ;;
  nextHop <-? stringValue (r !! "nexthop") ;;
  policy <-? setValue (r !! "policy") false ;;
  routeTable <-? stringValue (r !! "route_table") ;;
  if (1 <? List.length policy)%nat ||
     match policy with [p] => negb (is_policy p) | _ => false end || negb (routeTable =? "")%string
  then Ok None
  else
    let key := mkRoute cidr nextHop (match policy with [p] => p | _ => "dst-ip" end) in
    if checkBFD
    then
      bfd <-? setValue (r !! "bfd") true ;;
      Ok (match bfd with [] => Some (key "") | [b] => Some (key b) | _ => None end)
    else Ok (Some (key "")).
(** The loop over the references, using up the expected routes. *)
Fixpoint match_routes (cmd : command) (checkBFD : bool) (want : gmultiset Route) (refs : list string) : oprog (res bool) :=
  match refs with
  | [] => Ret (Ok true)
  | ref :: refs =>
      r <-! record cmd (route_columns checkBFD) "Logical_Router_Static_Route" ref ;;
      key <-! lift (route_of checkBFD r) ;;
      match key with
      | None => Ret (Ok false)
      | Some key =>
          if bool_decide (multiplicity key want = 0%nat) then Ret (Ok false)
          else match_routes cmd checkBFD (want ∖ {[+ key +]}) refs
      end
  end.
Definition RoutesReady (cfg : Cluster) (router : string) (routes : list Route) : oprog (res bool) :=
  rows <-! query (cl_NBCommand cfg) "name,static_routes" "Logical_Router" [condition "name" router] ;;
  match rows with
  | [] => Ret (Ok false)
  | _ =>
      r <-! lift (namedSingle rows router) ;;
      refs <-! lift (setValue (r !! "static_routes") true) ;;
      if negb (List.length refs =? List.length routes)%nat then Ret (Ok false)
      else
        want <-! lift (want_routes ∅ routes) ;;
        match_routes (cl_NBCommand cfg) (checks_bfd routes) want refs
  end.

(** ** [Connected]: the ports native interconnection created *)

Definition positiveKey (s : string) (maximum : Z) : bool :=
  match ParseUint s 32 with Some n => (0 <? n) && (n <=? maximum) | None => false end.
(** [expected]: the remote ports, none seen yet. *)
Fixpoint peer_ports (ts : string) (expected : gmap string bool) (peers : list string) : res (gmap string bool) :=
  match peers with
  | [] => Ok expected
  | peer :: peers =>
      reject negb (HasSuffix peer ("-" ++ ts)) || (peer =? "-" ++ ts)%string with Errorf "invalid peer router-port identity" ;;
      peer_ports ts (<[(ts ++ "-" ++ TrimSuffix peer ("-" ++ ts))%string := false]> expected) peers
  end.
(** One port of the transit switch, with [local] and [expected]. *)
Definition see_port (routerPort : string) (port : row) (st : bool * gmap string bool) : res (bool * gmap string bool) :=
  let '(local, expected) := st in
  name <-? stringValue (port !! "name") ;;
  typ <-? stringValue (port !! "type") ;;
  options <-? mapValue (port !! "options") ;;
  let keyed := positiveKey (entry options "requested-tnl-key") 32767 in
  let local := if (typ =? "router")%string && (entry options "router-port" =? routerPort)%string then keyed else local in
  if bool_decide (expected !! name <> None)
  then
    addresses <-? setValue (port !! "addresses") false ;;
    let ready := (typ =? "remote")%string && keyed && match addresses with a :: _ => negb (a =? "")%string | [] => false end in
    Ok (local, <[name := ready]> expected)
  else Ok (local, expected).
Fixpoint see_ports (routerPort : string) (ports : list row) (st : bool * gmap string bool) : res (bool * gmap string bool) :=
  match ports with [] => Ok st | port :: ports => st <-? see_port routerPort port st ;; see_ports routerPort ports st end.
Definition Connected (cfg : Cluster) (ts routerPort : string) (peerRouterPorts : list string) : oprog (res bool) :=
  lp <-! switchPorts cfg ts ;;
  match fst lp with
  | None => Ret (Ok false)
  | Some ls =>
      other <-! lift (mapValue (ls !! "other_config")) ;;
      if negb (entry other "interconn-ts" =? ts)%string ||
         negb (positiveKey (entry other "requested-tnl-key") (2 ^ 24 - 1))
      then Ret (Ok false)
      else
        expected <-! lift (peer_ports ts ∅ peerRouterPorts) ;;
        st <-! lift (see_ports routerPort (snd lp) (false, expected)) ;;
        Ret (Ok (fst st && forallb snd (map_to_list (snd st))))
  end.
End exec.
