(* ===== verification/OvnFacts.v ===== *)
(** * Reasoning about the OVN executor

    Two views of its passes: every execution with arbitrary answers ([okp], [wp] where
    only what succeeds matters), and one database that does not change during the reads
    ([eval]). *)
From stdpp Require Import gmultiset.
From S2P Require Import Prelude GoStd Json JsonDecode Validation Prog Api GlobalApi GlobalConfig Infra Ovn.
Open Scope Z_scope.

(** ** Reads *)

Section reads.
Variable e : Exec.

(** The command was answered with these rows. *)
Definition found (h : ohistory) (cmd : command) (columns table : string) (conditions : list string) (rows : list row) : Prop :=
  exists args out late, query_args columns table conditions = Ok args /\
    asked h (exec_command e cmd args) (Output out late) /\ parse_rows columns out = Ok rows.
Lemma found_extends h h' cmd columns table conditions rows :
  extends h h' -> found h cmd columns table conditions rows -> found h' cmd columns table conditions rows.
Proof. intros HE (args & out & late & HA & HQ & HP). exists args, out, late. repeat split; try done. by eapply asked_extends. Qed.
(** A command that reads rows. *)
Definition reading (cmd c : command) : Prop :=
  exists columns table conditions args, query_args columns table conditions = Ok args /\ c = exec_command e cmd args.

Context (R : ohistory -> command -> Prop).
Lemma wp_run cmd args h : R h (exec_command e cmd args) ->
  wp any_answer R (run e cmd args) h (fun h' x => match x with
    | Ok out => exists late, h' = h ++ [Ev (exec_command e cmd args) (Output out late)] /\ oversized out = false
    | Err _ => True end).
Proof.
  intros HR. unfold run. destruct (match cmd with [] => true | p :: _ => (p =? "")%string end); [done|].
  split; [done|]. intros x _. destruct x as [out late| |]; simpl; try done.
  destruct (oversized out) eqn:HO; [done|]. by exists late.
Qed.
Lemma okp_query cmd columns table conditions h : (forall h c, reading cmd c -> R h c) ->
  okp R (query e cmd columns table conditions) h (fun h' rows => found h' cmd columns table conditions rows).
Proof.
  intros HR. unfold query. destruct (query_args columns table conditions) as [args|] eqn:HA; [|done]. cbn [lift bind_ok bind].
  apply wp_bind_ok. eapply wp_mono; [|apply wp_run, HR; by exists columns, table, conditions, args].
  intros h' [out|err]; [|done]. intros (late & -> & HO). cbn [lift wp].
  destruct (parse_rows columns out) as [rows|] eqn:HP; [|done]. split; [apply extends_snoc|].
  exists args, out, late. repeat split; try done. apply asked_snoc.
Qed.
(** The row of one reference. *)
Definition found_record (h : ohistory) (cmd : command) (columns table ref : string) (r : row) : Prop :=
  found h cmd columns table [("_uuid=" ++ ref)%string] [r].
Lemma okp_record cmd columns table ref h : (forall h c, reading cmd c -> R h c) ->
  okp R (record e cmd columns table ref) h (fun h' r => found_record h' cmd columns table ref r).
Proof.
  intros HR. eapply okp_bind; [by apply okp_query|]. intros h' rows _ HF. apply okp_lift. intros r Hr.
  destruct rows as [|r' [|]]; try done. by injection Hr as <-.
Qed.
End reads.

Lemma single_iff rows r : single rows = Ok r <-> rows = [r].
Proof. destruct rows as [|r' [|]]; simpl; split; congruence. Qed.
Lemma namedSingle_iff rows want r :
  namedSingle rows want = Ok r <-> rows = [r] /\ stringValue (r !! "name") = Ok want.
Proof.
  unfold namedSingle. destruct rows as [|r' [|]]; simpl; try (by split; [|intros []]). split.
  - destruct (stringValue _) as [name|] eqn:E; [|done]. destruct (name =? want)%string eqn:En; simpl; [|done].
    apply String.eqb_eq in En as ->. by intros [= <-].
  - intros [[= ->] ->]. by rewrite String.eqb_refl.
Qed.
Lemma uuid_nonempty v id : uuidValue v = Ok id -> id <> "".
Proof. unfold uuidValue. intros H ->. follow H. by injection H as ->. Qed.
Lemma entry_Some m k : entry m k <> "" -> m !! k = Some (entry m k).
Proof. unfold entry. by destruct (m !! k). Qed.
(** The row a named read returned. *)
Lemma okp_named R cmd e columns table conditions want h : (forall h c, reading e cmd c -> R h c) ->
  forall err, okp R (rows <-! query e cmd columns table conditions ;; stop empty rows with err ;; lift (namedSingle rows want)) h
    (fun h' r => found e h' cmd columns table conditions [r] /\ stringValue (r !! "name") = Ok want).
Proof.
  intros HR err. eapply okp_bind; [by apply okp_query|]. intros h1 rows _ HF. apply okp_stop. intros _.
  apply okp_lift. intros r [-> HN]%namedSingle_iff. done.
Qed.

(** * Transit switches are created once, and never adopted or taken from another owner *)

Section transit.
Variable e : Exec.
Variables (cmd : command) (name owner expected : string).

(** The interconnection database showed these rows of the name. *)
Definition showed (h : ohistory) (rows : list row) : Prop :=
  found e h cmd "_uuid,name,external_ids" "Transit_Switch" [condition "name" name] rows.
(** The row's own columns: this name, this owner, this identifier. *)
Record owned_row (r : row) (id : string) : Prop := {
  or_name : stringValue (r !! "name") = Ok name;
  or_id : uuidValue (r !! "_uuid") = Ok id;
  or_owner : exists ids, mapValue (r !! "external_ids") = Ok ids /\ entry ids ownerKey = owner }.
(** The only row of the name is owned, and is the recorded one if one is recorded. *)
Definition held (h : ohistory) (id : string) : Prop :=
  exists r, showed h [r] /\ owned_row r id /\ (expected = "" \/ id = expected).
Lemma held_snoc h h' id : extends h h' -> held h id -> held h' id.
Proof. intros HE (r & H1 & H2). exists r. split; [by eapply found_extends|done]. Qed.

Lemma transit_row_id_iff r id : stringValue (r !! "name") = Ok name ->
  transit_row_id r owner expected = Ok id <-> owned_row r id /\ (expected = "" \/ id = expected).
Proof.
  intros HN. unfold transit_row_id. split.
  - intros H. follow H. injection H as <-. split; [split; eauto|].
    match goal with HE : negb (expected =? "")%string && _ = false |- _ => apply andb_false_iff in HE as [HE|HE] end; breflect; auto.
  - intros [[_ -> (ids & -> & ->)] HX]. rewrite String.eqb_refl. simpl.
    destruct (String.eqb_spec expected "") as [|Hne]; [done|]. destruct HX as [ | -> ]; [done|]. simpl. by rewrite String.eqb_refl.
Qed.

(** [transit]: an empty identifier means that no row has the name. *)
Lemma okp_transit R h : (forall h c, reading e cmd c -> R h c) ->
  okp R (transit e cmd name owner expected) h (fun h' id => (id = "" /\ showed h' []) \/ (id <> "" /\ held h' id)).
Proof.
  intros HR. unfold transit. apply okp_stop. intros _. eapply okp_bind; [by apply okp_query|].
  intros h1 rows _ HF. destruct rows as [|r rows]; [apply okp_Ok; by left|].
  eapply okp_bind; [apply okp_lift; intros a Ha; exact Ha|]. intros h2 r' H2 Hr%namedSingle_iff. cbv beta in Hr.
  destruct Hr as [[= -> ->] HN]. apply okp_lift. intros id Hid. right. apply transit_row_id_iff in Hid as [HO HX]; [|done].
  split; [by eapply uuid_nonempty, HO|]. exists r'. split; [by eapply found_extends|done].
Qed.
End transit.

Section safety.
Variable e : Exec.
Variables (cmd : command) (name owner expected : string).

(** The calls of the three operations: reads, a creation that carries its ownership, and
    a removal that verifies name, owner and identity in its own transaction. *)
Inductive transit_call (h : ohistory) : command -> Prop :=
| tc_read c (Hc : reading e cmd c) : transit_call h c
| tc_create (Hx : expected = "") (Hs : showed e cmd name h []) :
    transit_call h (exec_command e cmd (create_transit name owner))
| tc_destroy id (Hh : held e cmd name owner expected h id) :
    transit_call h (exec_command e cmd (destroy_transit id name owner)).

Lemma okp_EnsureTransit h :
  okp transit_call (EnsureTransit e cmd name owner expected) h (fun h' id => id <> "" /\ held e cmd name owner expected h' id).
Proof.
  unfold EnsureTransit. eapply okp_bind; [apply okp_transit; by constructor|]. intros h1 id H1 Hid.
  destruct Hid as [[-> HS]|[Hne HH]]; [|apply String.eqb_neq in Hne as Hb; rewrite Hb; by apply okp_Ok].
  simpl. apply okp_stop. intros Hx%negb_false_iff%String.eqb_eq.
  eapply okp_call with (P := fun _ _ => True); [eapply wp_mono; [|apply wp_run; by apply tc_create]; done|].
  intros h2 created H2 _. eapply okp_bind; [apply okp_transit; by constructor|]. intros h3 id H3 Hid.
  destruct Hid as [[-> _]|[Hne HH]]; [by destruct created|].
  apply String.eqb_neq in Hne as Hb. rewrite Hb. apply okp_Ok. split; [done|]. by rewrite Hx.
Qed.
Lemma okp_DeleteTransit h : okp transit_call (DeleteTransit e cmd name owner expected) h (fun h' _ => True).
Proof.
  unfold DeleteTransit. eapply okp_bind; [apply okp_transit; by constructor|]. intros h1 id H1 Hid. apply okp_if.
  - intros _. by apply okp_Ok.
  - intros Hb%String.eqb_neq. destruct Hid as [[-> _]|[_ HH]]; [done|].
    eapply okp_bind with (P := fun _ _ => True); [|by intros; apply okp_Ok].
    eapply wp_mono; [|apply wp_run; by eapply tc_destroy]. intros h' [out|]; [|done]. intros (late & -> & _).
    split; [apply extends_snoc|done].
Qed.

(** A transit switch is created only when none of its name exists and none was
    recorded, by a command that sets its owner; one is destroyed only after its row was
    read with this name, this owner and the recorded identifier, by a command that
    verifies them again; and an identifier is reported only of a row read so. *)
Theorem transit_switches_are_never_adopted :
  obeys transit_call (InspectTransit e cmd name owner expected) /\
  obeys transit_call (EnsureTransit e cmd name owner expected) /\
  obeys transit_call (DeleteTransit e cmd name owner expected) /\
  (forall h id, exec (InspectTransit e cmd name owner expected) h (Ret (Ok id)) ->
     if (id =? "")%string then showed e cmd name h [] else held e cmd name owner expected h id) /\
  (forall h id, exec (EnsureTransit e cmd name owner expected) h (Ret (Ok id)) ->
     id <> "" /\ held e cmd name owner expected h id).
Proof.
  assert (forall h, okp transit_call (InspectTransit e cmd name owner expected) h
    (fun h' id => (id = "" /\ showed e cmd name h' []) \/ (id <> "" /\ held e cmd name owner expected h' id))) as HI
    by (intros h; apply okp_transit; by constructor).
  split_and!.
  - eapply okp_obeys, HI.
  - eapply okp_obeys, okp_EnsureTransit.
  - eapply okp_obeys, okp_DeleteTransit.
  - intros h id HX. destruct (okp_exec _ _ _ _ _ (HI []) HX) as [[-> HS]|[Hne HH]]; [done|].
    apply String.eqb_neq in Hne as ->. done.
  - intros h id HX. exact (okp_exec _ _ _ _ _ (okp_EnsureTransit []) HX).
Qed.
End safety.

(** * Readiness of routes: the router carries exactly the expected routes *)

(** ** A database that does not change during the reads *)

Section eval.
Variable S : command -> ran.

Fixpoint eval {A} (p : oprog A) : A := match p with Ret a => a | Act o k => eval (k (S o)) end.
Lemma eval_bind {A B} (p : oprog A) (f : A -> oprog B) : eval (bind p f) = eval (f (eval p)).
Proof. induction p as [a|o k IH]; simpl; [done|]. apply IH. Qed.
Lemma eval_bind_ok {A B} (p : oprog (res A)) (f : A -> oprog (res B)) :
  eval (bind_ok p f) = match eval p with Ok a => eval (f a) | Err err => Err err end.
Proof. unfold bind_ok. rewrite eval_bind. by destruct (eval p). Qed.
Lemma eval_lift {A} (r : res A) : eval (lift r) = r.
Proof. done. Qed.
(** Every execution it answers ends so. *)
Lemma exec_eval {A} (p : oprog A) h x : answered (fun _ o y => y = S o) [] h -> exec p h (Ret x) -> x = eval p.
Proof.
  enough (forall h0, wp (fun _ o y => y = S o) (fun _ _ => True) p h0 (fun _ y => y = eval p)) as G.
  { intros HA HX. exact (wp_ret_exec _ _ p x h _ (G []) HX HA). }
  induction p as [a|o k IH]; intros h'; simpl; [done|]. split; [done|]. intros y ->. apply IH.
Qed.

Variable e : Exec.
(** What a read shows. *)
Definition rows (cmd : command) (columns table : string) (conditions : list string) : res (list row) :=
  eval (query e cmd columns table conditions).
Definition row_at (cmd : command) (columns table ref : string) : res row := eval (record e cmd columns table ref).
End eval.

(** ** The loops of [RoutesReady] *)

Lemma want_routes_iff want l want' :
  want_routes want l = Ok want' <->
  Forall (fun r => route_ok r = true) (map with_policy l) /\ want' = list_to_set_disj (map with_policy l) ⊎ want.
Proof.
  revert want. induction l as [|r l IH]; intros want; simpl.
  - split; [intros [= <-]; split; [constructor|]|intros [_ ->]; f_equal]; multiset_solver.
  - rewrite Forall_cons. destruct (route_ok (with_policy r)) eqn:E; simpl; [|split; [done|]; by intros [[? _] _]].
    rewrite IH. split; intros [HF ->]; (split; [tauto|]); multiset_solver.
Qed.
Lemma use_up (key : Route) ws : multiplicity key (list_to_set_disj ws : gmultiset Route) <> 0%nat ->
  exists ws', Permutation ws (key :: ws') /\ (list_to_set_disj ws : gmultiset Route) ∖ {[+ key +]} = list_to_set_disj ws'.
Proof.
  intros H. assert (key ∈ ws) as (l1 & l2 & ->)%list_elem_of_split.
  { apply elem_of_list_to_set_disj. rewrite elem_of_multiplicity. lia. }
  exists (l1 ++ l2). split; [by rewrite Permutation_middle|].
  rewrite <- Permutation_middle, list_to_set_disj_cons. multiset_solver.
Qed.

Section routes.
Variables (S : command -> ran) (e : Exec).

(** The route a reference names, as far as the code knows it. *)
Definition names_route (cmd : command) (checkBFD : bool) (ref : string) (key : Route) : Prop :=
  exists r, row_at S e cmd (route_columns checkBFD) "Logical_Router_Static_Route" ref = Ok r /\
    route_of checkBFD r = Ok (Some key).
Lemma match_routes_iff cmd checkBFD ws refs :
  eval S (match_routes e cmd checkBFD (list_to_set_disj ws) refs) = Ok true <->
  exists keys rest, Forall2 (names_route cmd checkBFD) refs keys /\ Permutation ws (keys ++ rest).
Proof.
  revert ws. induction refs as [|ref refs IH]; intros ws; cbn [match_routes].
  - split; [|done]. intros _. exists [], ws. split; [constructor|done].
  - rewrite eval_bind_ok. fold (row_at S e cmd (route_columns checkBFD) "Logical_Router_Static_Route" ref).
    destruct (row_at _ _ _ _ _ ref) as [r|] eqn:Er.
    2: { split; [done|]. intros (keys & rest & HF & _). inversion HF as [|? ? ? ? (r & ? & _)]. congruence. }
    rewrite eval_bind_ok, eval_lift. destruct (route_of checkBFD r) as [[key|]|] eqn:Ek.
    2-3: split; [done|]; intros (keys & rest & HF & _); inversion HF as [|? ? ? ? (r' & ? & ?)]; congruence.
    assert (names_route cmd checkBFD ref key) as HN by (by exists r). destruct (bool_decide _) eqn:Em.
    + apply bool_decide_eq_true in Em. split; [done|]. intros (keys & rest & HF & HP).
      inversion HF as [|? key' ? ? (r' & E1 & E2)]; subst.
      assert (r' = r) as -> by congruence. assert (key' = key) as -> by congruence.
      assert (key ∈ (list_to_set_disj ws : gmultiset Route)) as Hin by (apply elem_of_list_to_set_disj; rewrite HP; by left).
      rewrite elem_of_multiplicity in Hin. lia.
    + apply bool_decide_eq_false in Em. destruct (use_up key ws Em) as (ws' & HP & ->). rewrite IH. split.
      * intros (keys & rest & HF & HP'). exists (key :: keys), rest. split; [by constructor|]. by rewrite HP, HP'.
      * intros (keys & rest & HF & HP'). inversion HF as [|? key' ? keys' (r' & E1 & E2) HF']; subst.
        assert (r' = r) as -> by congruence. assert (key' = key) as -> by congruence.
        exists keys', rest. split; [done|]. rewrite HP in HP'. simpl in HP'. by apply Permutation_cons_inv in HP'.
Qed.

(** The router shows these routes, in the order of its references. *)
Definition carries (cfg : Cluster) (router : string) (checkBFD : bool) (keys : list Route) : Prop :=
  exists r refs, rows S e (cl_NBCommand cfg) "name,static_routes" "Logical_Router" [condition "name" router] = Ok [r] /\
    stringValue (r !! "name") = Ok router /\ setValue (r !! "static_routes") true = Ok refs /\
    Forall2 (names_route (cl_NBCommand cfg) checkBFD) refs keys.

(** C31: against any database that does not change during the reads, [RoutesReady] is
    true exactly when the expected routes are well formed and the one router of that
    name carries them and nothing else: its routes are a permutation of the expected
    ones, sessions included when a session is expected. *)
Theorem routes_are_ready_iff_carried cfg router routes :
  eval S (RoutesReady e cfg router routes) = Ok true <->
  Forall (fun r => route_ok r = true) (map with_policy routes) /\
  exists keys, carries cfg router (checks_bfd routes) keys /\ Permutation keys (map with_policy routes).
Proof.
  unfold RoutesReady. rewrite eval_bind_ok.
  fold (rows S e (cl_NBCommand cfg) "name,static_routes" "Logical_Router" [condition "name" router]).
  unfold carries. destruct (rows _ _ _ _ _ _) as [[|r rs]|] eqn:Er.
  1,3: split; [done|]; by intros (_ & keys & (? & ? & ? & _) & _).
  rewrite eval_bind_ok, eval_lift. destruct (namedSingle (r :: rs) router) as [r'|] eqn:En.
  2: { split; [done|]. intros (_ & keys & (r' & refs & [= -> ->] & HN & _) & _).
       by rewrite (proj2 (namedSingle_iff _ _ _) (conj eq_refl HN)) in En. }
  apply namedSingle_iff in En as [[= -> ->] HN]. rewrite eval_bind_ok, eval_lift.
  destruct (setValue _ true) as [refs|] eqn:Es.
  2: { split; [done|]. intros (_ & keys & (r'' & refs & [= <-] & _ & ? & _) & _). congruence. }
  destruct (Nat.eqb_spec (List.length refs) (List.length routes)) as [HL|HL]; cbn [negb].
  2: { split; [done|]. intros (_ & keys & (r'' & refs' & [= <-] & _ & E & HF) & HP). assert (refs' = refs) as -> by congruence.
       apply Forall2_length in HF. apply Permutation_length in HP. rewrite length_map in HP. congruence. }
  rewrite eval_bind_ok, eval_lift. destruct (want_routes ∅ routes) as [want|] eqn:Ew.
  - apply want_routes_iff in Ew as [HO ->]. rewrite (right_id_L ∅ (⊎)), match_routes_iff. split.
    + intros (keys & rest & HF & HP). split; [done|]. exists keys. split; [by exists r', refs|].
      apply Forall2_length in HF as HK. apply Permutation_length in HP as HM. rewrite length_map, length_app in HM.
      destruct rest; [by rewrite List.app_nil_r in HP|simpl in HM; lia].
    + intros (_ & keys & (r'' & refs' & [= <-] & _ & E & HF) & HP).
      assert (refs' = refs) as -> by congruence. exists keys, [].
      split; [done|]. by rewrite List.app_nil_r.
  - split; [done|]. intros [HO _].
    by rewrite (proj2 (want_routes_iff ∅ routes _) (conj HO eq_refl)) in Ew.
Qed.
End routes.
