(* ===== verification/OvnBFD.v ===== *)
(** * [internal/ovn/site_bfd.go] and [site_ecmp.go]: the BFD sessions and hash fields of a site's gateways *)
From stdpp Require Import gmultiset.
From S2P Require Import Prelude GoStd Json JsonDecode Validation SiteConfig Prog Api GlobalApi GlobalConfig GlobalPlan SitePlan Infra Ovn.
Open Scope Z_scope.

Definition bfdGatewayKey : string := "global-vpc-gateway-id".
Definition bfdClusterKey : string := "global-vpc-cluster-uid".
Definition bfdRouterKey : string := "global-vpc-router".
Definition bfdColumns : string := "_uuid,logical_port,dst_ip,external_ids,min_rx,min_tx,detect_mult,status".
Definition ErrBFDPortPending : error := Errorf "waiting for native BFD port with at least two chassis".

(** ** Identity receipts *)

Definition member_ids (g : GatewayConfig) : list string := map gw_ID (gc_Gateways g).
(** The addresses by member and the members by address; the last member wins. *)
Definition byID (g : GatewayConfig) : gmap string string :=
  fill gw_ID gw_IP (gc_Gateways g) ∅.
Definition byIP (g : GatewayConfig) : gmap string string :=
  fill gw_IP gw_ID (gc_Gateways g) ∅.
Fixpoint receipts (members : list string) (expected : gmap string string) (records : list BFDResourceRecord)
    : res (gmap string string) :=
  match records with
  | [] => Ok expected
  | r :: records =>
      reject negb (existsb (String.eqb (bf_GatewayID r)) members) || negb (is_uuid (bf_UUID r)) ||
             negb (entry expected (bf_GatewayID r) =? "")%string
        with Errorf "invalid BFD identity receipt" ;;
      receipts members (<[bf_GatewayID r := bf_UUID r]> expected) records
  end.
Definition bfdExpected (g : GatewayConfig) (records : list BFDResourceRecord) : res (gmap string string) :=
  reject negb (gc_Version g =? "v2")%string || negb (bool_decide (is_Some (gc_BFD g))) ||
         (List.length (gc_Gateways g) <? 2)%nat || (gc_OwnerUID g =? "")%string
    with Errorf "multi-gateway BFD configuration is required" ;;
  receipts (member_ids g) ∅ records.

(** An integer column, or an optional one as a set; the tag is compared as a value. *)
Definition strict_int (j : option json) : option Z :=
  match j with Some JNull | None => None | Some j => decode_int j 0 end.
Definition intValue (v : option json) : res Z :=
  match strict_int v with
  | Some n => Ok n
  | None =>
      match raw_slice v with
      | Some [JStr tag; values] =>
          reject negb (tag =? "set")%string with Errorf "invalid OVN optional integer" ;;
          match raw_slice' (Some values) with
          | Some [] => Ok 0
          | Some [x] => match strict_int (Some x) with Some n => Ok n | None => Err (Errorf "invalid OVN integer") end
          | _ => Err (Errorf "invalid OVN optional integer set")
          end
      | _ => Err (Errorf "invalid OVN optional integer")
      end
  end.

(** ** [GetBFD] *)

(** The four columns that identify a session. *)
Record session := mkSession { ss_ID : string; ss_External : gmap string string; ss_Port : string; ss_IP : string }.
Definition session_of (r : row) : res session :=
  id <-? uuidValue (r !! "_uuid") ;;
  ids <-? mapValue (r !! "external_ids") ;;
  port <-? stringValue (r !! "logical_port") ;;
  ip <-? stringValue (r !! "dst_ip") ;;
  Ok (mkSession id ids port ip).
Definition known_status (s : string) : bool := existsb (String.eqb s) [""; "up"; "down"; "init"; "admin_down"].
Definition statusValue (v : option json) : res string :=
  statuses <-? setValue v false ;;
  reject (1 <? List.length statuses)%nat with Errorf "multiple BFD statuses" ;;
  let status := match statuses with [s] => s | _ => "" end in
  reject negb (known_status status) with Errorf "unknown BFD status" ;;
  Ok status.
(** The three timers as configured; Go reads them in no particular order. *)
Definition timers_match (b : SiteConfig.BFD) (r : row) : res bool :=
  rx <-? intValue (r !! "min_rx") ;;
  tx <-? intValue (r !! "min_tx") ;;
  mult <-? intValue (r !! "detect_mult") ;;
  Ok ((rx =? bfd_MinRX b) && (tx =? bfd_MinTX b) && (mult =? bfd_Multiplier b)).
(** A session with its member, whether it is configured, and its status. *)
Record observed := mkObserved { ob_Member : string; ob_ID : string; ob_Configured : bool; ob_Status : string }.

Section state.
Variables (cfg : Cluster) (g : GatewayConfig) (b : SiteConfig.BFD).

Definition foreign_conflict (expected : gmap string string) (s : session) : bool :=
  existsb (fun kv => (snd kv =? ss_ID s)%string) (map_to_list expected) ||
  ((ss_Port s =? BFDPortName g)%string && negb (entry (byIP g) (ss_IP s) =? "")%string).
Definition own_identity (expected : gmap string string) (seen : gset string) (s : session) : bool :=
  let member := entry (ss_External s) bfdGatewayKey in
  (entry (byID g) member =? ss_IP s)%string && negb (entry (byID g) member =? "")%string &&
  (ss_Port s =? BFDPortName g)%string && (entry (ss_External s) bfdClusterKey =? cl_UID cfg)%string &&
  (entry (ss_External s) bfdRouterKey =? gc_VpcName g)%string && negb (bool_decide (member ∈ seen)) &&
  ((entry expected member =? "")%string || (entry expected member =? ss_ID s)%string).
(** One row: [None] belongs to another owner. *)
Definition observe (expected : gmap string string) (seen : gset string) (r : row) : res (option observed) :=
  s <-? session_of r ;;
  if negb (entry (ss_External s) ownerKey =? gc_OwnerUID g)%string
  then
    reject foreign_conflict expected s with Errorf "BFD ownership conflict" ;;
    Ok None
  else
    reject negb (own_identity expected seen s) with Errorf "BFD identity or local ownership changed" ;;
    configured <-? timers_match b r ;;
    status <-? statusValue (r !! "status") ;;
    Ok (Some (mkObserved (entry (ss_External s) bfdGatewayKey) (ss_ID s) configured status)).
Fixpoint observe_all (expected : gmap string string) (seen : gset string) (rows : list row) : res (list observed) :=
  match rows with
  | [] => Ok []
  | r :: rows =>
      o <-? observe expected seen r ;;
      match o with
      | None => observe_all expected seen rows
      | Some o => l <-? observe_all expected ({[ob_Member o]} ∪ seen) rows ;; Ok (o :: l)
      end
  end.
Definition state_of (l : list observed) : BFDState :=
  mkBFDState
    (sort_by_key bf_GatewayID (map (fun o => mkBFDRecord (ob_Member o) (ob_ID o)) l))
    (sort_strings (map ob_Member (List.filter (fun o => ob_Configured o && (ob_Status o =? "up")%string) l)))
    (forallb ob_Configured l && (List.length l =? List.length (gc_Gateways g))%nat).
End state.

(** ** The transaction that deletes sessions *)

Definition uuid_json (id : string) : json := JArr [JStr "uuid"; JStr id].
Definition clause (column op : string) (v : json) : json := JArr [JStr column; JStr op; v].
Definition references : list (string * string) :=
  [("Logical_Router_Static_Route", "bfd"); ("Logical_Router_Policy", "bfd_sessions")].
Definition bfd_where (cfg : Cluster) (g : GatewayConfig) (r : BFDResourceRecord) : json :=
  JArr [clause "_uuid" "==" (uuid_json (bf_UUID r)); clause "logical_port" "==" (JStr (BFDPortName g));
        clause "dst_ip" "==" (JStr (entry (byID g) (bf_GatewayID r)));
        clause "external_ids" "includes" (JArr [JStr "map"; JArr
          [strings_json [ownerKey; gc_OwnerUID g]; strings_json [bfdGatewayKey; bf_GatewayID r];
           strings_json [bfdClusterKey; cl_UID cfg]; strings_json [bfdRouterKey; gc_VpcName g]]])].
(** A [wait] that the selected rows are the given ones; members in the order of their keys. *)
Definition wait_op (table : string) (selected rows : json) : json :=
  JObj [("columns", strings_json ["_uuid"]); ("op", JStr "wait"); ("rows", rows); ("table", JStr table);
        ("timeout", JInt 0); ("until", JStr "=="); ("where", selected)].
Definition unreferenced_op (id : string) (tc : string * string) : json :=
  wait_op (fst tc) (JArr [clause (snd tc) "includes" (JArr [JStr "set"; JArr [uuid_json id]])]) (JArr []).
Definition delete_ops (cfg : Cluster) (g : GatewayConfig) (r : BFDResourceRecord) : list json :=
  wait_op "BFD" (bfd_where cfg g r) (JArr [JObj [("_uuid", uuid_json (bf_UUID r))]]) ::
  map (unreferenced_op (bf_UUID r)) references ++
  [JObj [("op", JStr "delete"); ("table", JStr "BFD"); ("where", bfd_where cfg g r)]].
Fixpoint delete_transaction (cfg : Cluster) (g : GatewayConfig) (ops : list json) (indexes : list nat)
    (records : list BFDResourceRecord) : list json * list nat :=
  match records with
  | [] => (ops, indexes)
  | r :: records =>
      let ops := ops ++ delete_ops cfg g r in
      delete_transaction cfg g ops (indexes ++ [List.length ops - 2]%nat) records
  end.

Definition decode_raw : decoder json := fun j _ => Some j.
(** A response is a map, nil for a [null]. *)
Definition decode_responses : json -> option (list (option (gmap string json))) := fun j =>
  decode_slice (decode_map decode_raw JNull) None j [].
Definition response_ok (r : option (gmap string json)) : res unit :=
  match r with
  | None => Err (Errorf "BFD transaction aborted; preserve receipts")
  | Some m =>
      reject bool_decide (m !! "error" <> None) with Errorf "BFD transaction precondition failed; preserve receipts" ;;
      Ok tt
  end.
Fixpoint responses_ok (l : list (option (gmap string json))) : res unit :=
  match l with [] => Ok tt | r :: l => _ <-? response_ok r ;; responses_ok l end.
Definition count_of (r : option (option (gmap string json))) : option Z :=
  match r with
  | Some (Some m) => match m !! "count" with Some j => decode_int j 0 | None => None end
  | _ => None
  end.
Definition deleted_one (responses : list (option (gmap string json))) (index : nat) : bool :=
  bool_decide (count_of (nth_error responses index) = Some 1).
(** What is made of the output of a transaction of [n] operations. *)
Definition transaction_result (n : nat) (indexes : list nat) (out : string) : res unit :=
  let invalid := Err (Errorf "invalid BFD transaction response; preserve receipts") in
  match parse_value (S (String.length out)) out with
  | None => invalid
  | Some (j, rest) =>
      match decode_responses j with
      | None => invalid
      | Some responses =>
          if negb (List.length responses =? n)%nat then invalid
          else
            reject negb (skip_ws rest =? "")%string with Errorf "trailing BFD transaction response; preserve receipts" ;;
            _ <-? responses_ok responses ;;
            reject negb (forallb (deleted_one responses) indexes)
              with Errorf "BFD deletion was not confirmed; preserve receipts" ;;
            Ok tt
      end
  end.

Section exec.
Variable e : Exec.

(** [bfdExpected] has refused a configuration without timers. *)
Definition GetBFD (cfg : Cluster) (g : GatewayConfig) (records : list BFDResourceRecord) : oprog (res BFDState) :=
  expected <-! lift (bfdExpected g records) ;;
  rows <-! query e (cl_NBCommand cfg) bfdColumns "BFD" [] ;;
  match gc_BFD g with
  | None => Ret (Err (Errorf "multi-gateway BFD configuration is required"))
  | Some b => l <-! lift (observe_all cfg g b expected ∅ rows) ;; Ret (Ok (state_of g l))
  end.

(** ** [bfdPortReady]: the native port and its chassis group *)

(** The chassis group of a converged port. *)
Definition port_group (g : GatewayConfig) (b : SiteConfig.BFD) (r : row) : res (string * string) :=
  portID <-? uuidValue (r !! "_uuid") ;;
  networks <-? setValue (r !! "networks") false ;;
  options <-? mapValue (r !! "options") ;;
  groups <-? setValue (r !! "ha_chassis_group") true ;;
  match networks, groups with
  | [network], [group] =>
      reject (negb (network =? bfd_SourceIP b)%string && negb (network =? bfd_SourceIP b ++ "/32")%string) ||
             negb (entry options "bfd-only" =? "true")%string
        with ErrBFDPortPending ;;
      Ok (portID, group)
  | _, _ => Err ErrBFDPortPending
  end.
Definition contains (values : list string) (wanted : string) : bool := existsb (fun v => (v =? wanted)%string) values.
Definition distinct_names (names : list string) : gset string :=
  list_to_set (List.filter (fun n => negb (n =? "")%string) names).
Definition bfdPortReady (cfg : Cluster) (g : GatewayConfig) (b : SiteConfig.BFD) : oprog (res unit) :=
  rows <-! query e (cl_NBCommand cfg) "_uuid,name,networks,options,ha_chassis_group" "Logical_Router_Port"
             [condition "name" (BFDPortName g)] ;;
  stop empty rows with ErrBFDPortPending ;;
  r <-! lift (namedSingle rows (BFDPortName g)) ;;
  pg <-! lift (port_group g b r) ;;
  rows <-! query e (cl_NBCommand cfg) "name,ports" "Logical_Router" [condition "name" (gc_VpcName g)] ;;
  stop empty rows with ErrBFDPortPending ;;
  r <-! lift (namedSingle rows (gc_VpcName g)) ;;
  ports <-! lift (setValue (r !! "ports") true) ;;
  stop negb (contains ports (fst pg)) with Errorf "BFD port is not attached to the owned router" ;;
  r <-! record e (cl_NBCommand cfg) "ha_chassis" "HA_Chassis_Group" (snd pg) ;;
  chassis <-! lift (setValue (r !! "ha_chassis") true) ;;
  stop (List.length chassis <? 2)%nat with ErrBFDPortPending ;;
  names <-! collect (fun id => r <-! record e (cl_NBCommand cfg) "chassis_name" "HA_Chassis" id ;;
                               lift (stringValue (r !! "chassis_name"))) chassis ;;
  stop (size (distinct_names names) <? 2)%nat with ErrBFDPortPending ;;
  Ret (Ok tt).

(** ** [EnsureBFD] *)

Definition owner_conditions (cfg : Cluster) (g : GatewayConfig) (member : string) : list string :=
  [condition ("external_ids:" ++ ownerKey) (gc_OwnerUID g); condition ("external_ids:" ++ bfdGatewayKey) member;
   condition ("external_ids:" ++ bfdClusterKey) (cl_UID cfg); condition ("external_ids:" ++ bfdRouterKey) (gc_VpcName g)].
Definition bfdGuard (id : string) (cfg : Cluster) (g : GatewayConfig) (member ip : string) : list string :=
  ["get"; "BFD"; id; "external_ids"; "logical_port"; "dst_ip"; "--"; "wait-until"; "BFD"; id] ++
  owner_conditions cfg g member ++ [condition "logical_port" (BFDPortName g); condition "dst_ip" ip].
Definition create_bfd (cfg : Cluster) (g : GatewayConfig) (member ip : string) : list string :=
  ["create"; "BFD"; condition "logical_port" (BFDPortName g); condition "dst_ip" ip] ++ owner_conditions cfg g member.
Definition set_bfd (id : string) (cfg : Cluster) (g : GatewayConfig) (member ip : string) : list string :=
  bfdGuard id cfg g member ip ++ ["--"; "set"; "BFD"; id].
Definition timer_args (b : SiteConfig.BFD) : list string :=
  [("min_rx=" ++ Itoa (bfd_MinRX b))%string; ("min_tx=" ++ Itoa (bfd_MinTX b))%string;
   ("detect_mult=" ++ Itoa (bfd_Multiplier b))%string].
Definition uuids (records : list BFDResourceRecord) : gmap string string :=
  fill bf_GatewayID bf_UUID records ∅.
(** The loop over the members, with the sessions found and the receipts. *)
Fixpoint ensure_members (cfg : Cluster) (g : GatewayConfig) (b : SiteConfig.BFD) (configured : bool)
    (found expected : gmap string string) (members : list SiteConfig.Gateway) : oprog (res unit) :=
  match members with
  | [] => Ret (Ok tt)
  | m :: members =>
      let id := entry found (gw_ID m) in
      stop (id =? "")%string && negb (entry expected (gw_ID m) =? "")%string
        with Errorf "persist confirmed missing BFD receipt before recreation" ;;
      if negb (id =? "")%string && configured then ensure_members cfg g b configured found expected members
      else
        let args := if (id =? "")%string then create_bfd cfg g (gw_ID m) (gw_IP m) else set_bfd id cfg g (gw_ID m) (gw_IP m) in
        x <- run e (cl_NBCommand cfg) (args ++ timer_args b) ;;
        match x with
        | Err err => Ret (Err (Wrapf "BFD write outcome is unknown; retry discovery" err))
        | Ok _ => ensure_members cfg g b configured found expected members
        end
  end.
Definition EnsureBFD (cfg : Cluster) (g : GatewayConfig) (records : list BFDResourceRecord) : oprog (res BFDState) :=
  state <-! GetBFD cfg g records ;;
  match gc_BFD g with
  | None => Ret (Err (Errorf "multi-gateway BFD configuration is required"))
  | Some b =>
      _ <-! bfdPortReady cfg g b ;;
      let expected := match bfdExpected g records with Ok m => m | Err _ => ∅ end in
      _ <-! ensure_members cfg g b (bs_Configured state) (uuids (bs_Records state)) expected (gc_Gateways g) ;;
      GetBFD cfg g records
  end.

(** ** [DeleteBFD] *)

Fixpoint row_refs (column : string) (rows : list row) : res (list string) :=
  match rows with
  | [] => Ok []
  | r :: rows => ids <-? setValue (r !! column) true ;; l <-? row_refs column rows ;; Ok (ids ++ l)
  end.
(** The sessions a table refers to. *)
Definition table_refs (cfg : Cluster) (tc : string * string) : oprog (res (list string)) :=
  rows <-! query e (cl_NBCommand cfg) (snd tc) (fst tc) [] ;; lift (row_refs (snd tc) rows).
Definition transaction_command (body : string) : command := ex_TransactionCommand e ++ [body].
Definition bfdDeleteTransaction (ops : list json) (indexes : list nat) : oprog (res unit) :=
  stop match ex_TransactionCommand e with p :: _ => (TrimSpace p =? "")%string | [] => true end
    with Errorf "local BFD transaction command is not configured" ;;
  let body := Marshal (JArr ops) in
  stop oversized body with Errorf "invalid BFD transaction" ;;
  x <- exec_run (transaction_command body) ;;
  Ret (match x with
       | Output out false =>
           reject oversized out with Errorf "BFD deletion outcome unknown; preserve receipts and retry discovery" ;;
           transaction_result (List.length ops - 1) indexes out
       | _ => Err (Errorf "BFD deletion outcome unknown; preserve receipts and retry discovery")
       end).
Definition DeleteBFD (cfg : Cluster) (g : GatewayConfig) (records : list BFDResourceRecord) : oprog (res bool) :=
  state <-! GetBFD cfg g records ;;
  match bs_Records state with
  | [] => Ret (Ok true)
  | found =>
      refs <-! collect (table_refs cfg) references ;;
      if existsb (fun r => contains (concat refs) (bf_UUID r)) found then Ret (Ok false)
      else
        let '(ops, indexes) := delete_transaction cfg g [JStr "OVN_Northbound"] [] found in
        _ <-! bfdDeleteTransaction ops indexes ;;
        Ret (Ok false)
  end.

(** ** [BFDRouteConflicts] *)

Definition wanted_sessions (g : GatewayConfig) (id_of : string -> string) : gmap string string :=
  fill gw_IP (fun x => id_of (gw_ID x)) (gc_Gateways g) ∅.
Definition native_default (policy : list string) (cidr table : string) : bool :=
  (cidr =? "0.0.0.0/0")%string && (table =? "")%string && (empty policy || (Join "," policy =? "dst-ip")%string).
(** The gateway whose route has another session. *)
Definition route_conflict (want : gmap string string) (r : row) : res (option string) :=
  cidr <-? stringValue (r !! "ip_prefix") ;;
  ip <-? stringValue (r !! "nexthop") ;;
  policy <-? setValue (r !! "policy") false ;;
  table <-? stringValue (r !! "route_table") ;;
  match want !! ip with
  | None => Ok None
  | Some wanted =>
      if negb (native_default policy cidr table) then Ok None
      else
        bfd <-? setValue (r !! "bfd") true ;;
        Ok (match bfd with
            | [b] => if negb (b =? wanted)%string || (wanted =? "")%string then Some ip else None
            | _ => Some ip
            end)
  end.
Definition BFDRouteConflicts (cfg : Cluster) (g : GatewayConfig) (records : list BFDResourceRecord)
    : oprog (res (gmap string bool)) :=
  let want := wanted_sessions g (entry (uuids records)) in
  rows <-! query e (cl_NBCommand cfg) "name,static_routes" "Logical_Router" [condition "name" (gc_VpcName g)] ;;
  match rows with
  | [] => Ret (Ok ∅)
  | _ =>
      r <-! lift (namedSingle rows (gc_VpcName g)) ;;
      refs <-! lift (setValue (r !! "static_routes") true) ;;
      l <-! collect (fun ref => r <-! record e (cl_NBCommand cfg) (route_columns true) "Logical_Router_Static_Route" ref ;;
                                lift (route_conflict want r)) refs ;;
      Ret (Ok (fill id (fun _ => true) (omap id l) ∅))
  end.

(** ** [EnsureECMPFields] *)

Definition ecmpOwnerKey : string := "global-vpc-ecmp-fields-owner".
Definition ecmpFields : list string := ["ip_dst"; "ip_proto"; "ip_src"; "tp_dst"; "tp_src"].
Definition exactMapGuard (column : string) (values : gmap string string) : string :=
  (column ++ "={" ++
   Join "," (sort_strings (map (fun kv => quote (fst kv) ++ "=" ++ quote (snd kv)) (map_to_list values))) ++ "}")%string.
Record target := mkTarget {
  tg_id : string; tg_ip : string; tg_bfd : string; tg_idsGuard : string; tg_policyGuard : string;
  tg_fieldsGuard : string; tg_changed : bool }.
(** One route: of no concern, not yet as wanted, or one whose fields are checked. *)
Inductive route_view := Other | Unready | Hashed (t : target).
Definition ecmp_route (g : GatewayConfig) (want : gmap string string) (seen : gset string) (ref : string) (r : row)
    : res route_view :=
  prefix <-? stringValue (r !! "ip_prefix") ;;
  ip <-? stringValue (r !! "nexthop") ;;
  if negb (prefix =? "0.0.0.0/0")%string || (entry want ip =? "")%string then Ok Other
  else
    policy <-? setValue (r !! "policy") false ;;
    table <-? stringValue (r !! "route_table") ;;
    bfd <-? setValue (r !! "bfd") true ;;
    match bfd with
    | [session] =>
        if negb (table =? "")%string || (negb (empty policy) && negb (Join "," policy =? "dst-ip")%string) ||
           negb (session =? entry want ip)%string
        then Ok Unready
        else
          reject bool_decide (ip ∈ seen) with Errorf "duplicate native gateway route" ;;
          fields <-? setValue (r !! "selection_fields") false ;;
          let fields := sort_strings fields in
          ids <-? mapValue (r !! "external_ids") ;;
          let owner := entry ids ecmpOwnerKey in
          reject negb (owner =? "")%string && negb (owner =? gc_OwnerUID g)%string
            with Errorf "ECMP selection field ownership conflict" ;;
          let correct := (Join "," fields =? Join "," ecmpFields)%string in
          reject (owner =? "")%string && negb (empty fields) && negb correct
            with Errorf "unregistered native ECMP selection fields" ;;
          Ok (Hashed (mkTarget ref ip session (exactMapGuard "external_ids" ids)
                        (if empty policy then "policy=[]" else condition "policy" "dst-ip")
                        (if empty fields then "selection_fields=[]" else ("selection_fields=" ++ Join "," fields)%string)
                        (negb correct || (owner =? "")%string)))
    | _ => Ok Unready
    end.
(** The loop over the references; [None] ends with [false]. *)
Fixpoint ecmp_targets (cmd : command) (g : GatewayConfig) (want : gmap string string) (seen : gset string)
    (refs : list string) : oprog (res (option (list target))) :=
  match refs with
  | [] => Ret (Ok (Some []))
  | ref :: refs =>
      r <-! record e cmd "ip_prefix,nexthop,policy,route_table,bfd,selection_fields,external_ids"
              "Logical_Router_Static_Route" ref ;;
      v <-! lift (ecmp_route g want seen ref r) ;;
      match v with
      | Other => ecmp_targets cmd g want seen refs
      | Unready => Ret (Ok None)
      | Hashed t => l <-! ecmp_targets cmd g want ({[tg_ip t]} ∪ seen) refs ;; Ret (Ok (option_map (cons t) l))
      end
  end.
Definition set_fields (cfg : Cluster) (g : GatewayConfig) (routerID : string) (t : target) : command :=
  ["get"; "Logical_Router"; routerID; "name"; "static_routes"; "--";
   "get"; "Logical_Router_Static_Route"; tg_id t; "ip_prefix"; "nexthop"; "policy"; "route_table"; "bfd"; "external_ids";
   "selection_fields"; "--";
   "get"; "BFD"; tg_bfd t; "external_ids"; "logical_port"; "dst_ip"; "--";
   "wait-until"; "Logical_Router"; routerID; condition "name" (gc_VpcName g); ("static_routes{>=}" ++ tg_id t)%string; "--";
   "wait-until"; "Logical_Router_Static_Route"; tg_id t; condition "ip_prefix" "0.0.0.0/0"; condition "nexthop" (tg_ip t);
   ("bfd=" ++ tg_bfd t)%string; condition "route_table" ""; tg_policyGuard t; tg_fieldsGuard t; tg_idsGuard t; "--";
   "wait-until"; "BFD"; tg_bfd t; condition ("external_ids:" ++ ownerKey) (gc_OwnerUID g);
   condition ("external_ids:" ++ bfdClusterKey) (cl_UID cfg); condition "logical_port" (BFDPortName g);
   condition "dst_ip" (tg_ip t); "--";
   "set"; "Logical_Router_Static_Route"; tg_id t; ("selection_fields=" ++ Join "," ecmpFields)%string;
   condition ("external_ids:" ++ ecmpOwnerKey) (gc_OwnerUID g)].
Fixpoint set_targets (cfg : Cluster) (g : GatewayConfig) (routerID : string) (l : list target) : oprog (res unit) :=
  match l with
  | [] => Ret (Ok tt)
  | t :: l =>
      if negb (tg_changed t) then set_targets cfg g routerID l
      else _ <-! run e (cl_NBCommand cfg) (set_fields cfg g routerID t) ;; set_targets cfg g routerID l
  end.
Definition EnsureECMPFields (cfg : Cluster) (g : GatewayConfig) (records : list BFDResourceRecord) : oprog (res bool) :=
  expected <-! lift (bfdExpected g records) ;;
  if negb (size expected =? List.length (gc_Gateways g))%nat then Ret (Ok false)
  else
    let want := wanted_sessions g (entry expected) in
    rows <-! query e (cl_NBCommand cfg) "_uuid,name,static_routes" "Logical_Router" [condition "name" (gc_VpcName g)] ;;
    match rows with
    | [] => Ret (Ok false)
    | _ =>
        router <-! lift (namedSingle rows (gc_VpcName g)) ;;
        routerID <-! lift (uuidValue (router !! "_uuid")) ;;
        refs <-! lift (setValue (router !! "static_routes") true) ;;
        l <-! ecmp_targets (cl_NBCommand cfg) g want ∅ refs ;;
        match l with
        | None => Ret (Ok false)
        | Some targets =>
            if negb (List.length targets =? size want)%nat then Ret (Ok false)
            else
              _ <-! set_targets cfg g routerID targets ;;
              Ret (Ok (negb (existsb tg_changed targets)))
        end
    end.
End exec.
