(* ===== verification/OvnBFDFacts.v ===== *)
(** * What a read of the BFD table tells of a site's own sessions *)
From stdpp Require Import gmultiset.
From S2P Require Import Prelude GoStd Json JsonDecode Validation SiteConfig Prog Api GlobalApi GlobalConfig GlobalPlan SitePlan Infra Ovn OvnFacts OvnBFD.
Open Scope Z_scope.

Section observed.
Variables (cfg : Cluster) (g : GatewayConfig).

(** The row's owner. *)
Definition owned_by (r : row) (uid : string) : Prop :=
  exists ids, mapValue (r !! "external_ids") = Ok ids /\ entry ids ownerKey = uid.
(** The row is the session of [member]: every column that identifies it agrees. *)
Record own_session (r : row) (member id : string) : Prop := {
  os_id : uuidValue (r !! "_uuid") = Ok id;
  os_external : exists ids, mapValue (r !! "external_ids") = Ok ids /\ entry ids ownerKey = gc_OwnerUID g /\
    entry ids bfdGatewayKey = member /\ entry ids bfdClusterKey = cl_UID cfg /\ entry ids bfdRouterKey = gc_VpcName g;
  os_port : stringValue (r !! "logical_port") = Ok (BFDPortName g);
  os_ip : stringValue (r !! "dst_ip") = Ok (entry (byID g) member);
  os_member : entry (byID g) member <> "" }.
Lemma own_owned r member id : own_session r member id -> owned_by r (gc_OwnerUID g).
Proof. intros [_ (ids & H1 & H2 & _) _ _ _]. by exists ids. Qed.

Variable b : SiteConfig.BFD.
(** The timers are the configured ones, and the status is this. *)
Definition session_state (r : row) (configured : bool) (status : string) : Prop :=
  timers_match b r = Ok configured /\ statusValue (r !! "status") = Ok status.

Lemma session_of_iff r s : session_of r = Ok s <->
  uuidValue (r !! "_uuid") = Ok (ss_ID s) /\ mapValue (r !! "external_ids") = Ok (ss_External s) /\
  stringValue (r !! "logical_port") = Ok (ss_Port s) /\ stringValue (r !! "dst_ip") = Ok (ss_IP s).
Proof.
  unfold session_of. split.
  - intros H. follow H. injection H as <-. by split_and!.
  - intros (-> & -> & -> & ->). by destruct s.
Qed.
Lemma observe_foreign expected seen r : observe cfg g b expected seen r = Ok None -> ~ owned_by r (gc_OwnerUID g).
Proof.
  unfold observe. destruct (session_of r) as [s|] eqn:ES; [|done]. apply session_of_iff in ES as (_ & HE & _).
  intros H (ids & HI & HO). rewrite HE in HI. injection HI as <-. rewrite HO, String.eqb_refl in H. simpl in H. follow H; done.
Qed.
Lemma observe_own expected seen r o : observe cfg g b expected seen r = Ok (Some o) ->
  own_session r (ob_Member o) (ob_ID o) /\ session_state r (ob_Configured o) (ob_Status o) /\ ob_Member o ∉ seen /\
  (entry expected (ob_Member o) = "" \/ entry expected (ob_Member o) = ob_ID o).
Proof.
  unfold observe. destruct (session_of r) as [s|] eqn:ES; [|done]. apply session_of_iff in ES as (H1 & H2 & H3 & H4).
  destruct (negb _) eqn:EO; [intros H; follow H; done|]. apply negb_false_iff, String.eqb_eq in EO.
  destruct (own_identity _ _ _ _ _) eqn:EI; simpl; [|done].
  destruct (timers_match b r) as [c|] eqn:ET; [|done]. destruct (statusValue _) as [st|] eqn:EV; [|done].
  intros [= <-]. simpl. unfold own_identity in EI. breflect.
  match goal with HX : _ || _ = true |- _ => apply orb_true_iff in HX; rewrite !String.eqb_eq in HX; rename HX into HXX end.
  split; [|by split_and!]. split; simpl; try congruence.
  exists (ss_External s). by split_and!.
Qed.

(** The loop misses no row of the owner, and observes each member once. *)
Record observed_in (expected : gmap string string) (seen : gset string) (rows : list row) (l : list observed) : Prop := {
  oi_sound o : In o l -> exists r, In r rows /\ own_session r (ob_Member o) (ob_ID o) /\
    session_state r (ob_Configured o) (ob_Status o) /\
    (entry expected (ob_Member o) = "" \/ entry expected (ob_Member o) = ob_ID o);
  oi_complete r : In r rows -> owned_by r (gc_OwnerUID g) -> exists o, In o l /\ own_session r (ob_Member o) (ob_ID o);
  oi_once : distinct_from ob_Member seen l }.
Lemma observe_all_ok expected seen rows l : observe_all cfg g b expected seen rows = Ok l -> observed_in expected seen rows l.
Proof.
  revert seen l. induction rows as [|r rows IH]; intros seen l; cbn [observe_all].
  - intros [= <-]. split; [done|done|]. split; [constructor|done].
  - destruct (observe cfg g b expected seen r) as [[o|]|] eqn:EO; [| |done].
    + destruct (observe_all _ _ _ _ _ _) as [l'|] eqn:EA; [|done]. intros [= <-].
      apply observe_own in EO as (H1 & H2 & H3 & H4). destruct (IH _ _ EA) as [Hs Hc Hd]. split.
      * intros o' [<-|Hin]; [exists r; split; [by left|done]|]. destruct (Hs o' Hin) as (r' & ? & ?). exists r'. split; [by right|done].
      * intros r' [<-|Hin] HO; [exists o; split; [by left|done]|]. destruct (Hc r' Hin HO) as (o' & ? & ?). exists o'. split; [by right|done].
      * apply distinct_from_cons. done.
    + intros HA. destruct (IH _ _ HA) as [Hs Hc Hd]. split; [| |done].
      * intros o Hin. destruct (Hs o Hin) as (r' & ? & ?). exists r'. split; [by right|done].
      * intros r' [<-|Hin] HO; [by destruct (observe_foreign _ _ _ EO)|by apply Hc].
Qed.

(** The reported state, read off the observations. *)
Lemma state_records l id member : In (mkBFDRecord member id) (bs_Records (state_of g l)) <->
  exists o, In o l /\ ob_Member o = member /\ ob_ID o = id.
Proof.
  unfold state_of. cbn [bs_Records]. rewrite sort_by_key_in, in_map_iff. split.
  - intros (o & [= <- <-] & Ho). by exists o.
  - intros (o & Ho & <- & <-). by exists o.
Qed.
Lemma state_up l member : In member (bs_Up (state_of g l)) <->
  exists o, In o l /\ ob_Member o = member /\ ob_Configured o = true /\ ob_Status o = "up".
Proof.
  unfold state_of. cbn [bs_Up]. rewrite sort_strings_in, in_map_iff. setoid_rewrite filter_In.
  setoid_rewrite andb_true_iff. setoid_rewrite String.eqb_eq. split; [intros (o & ? & ? & ? & ?)|intros (o & ? & ? & ? & ?)]; by exists o.
Qed.
End observed.

(** ** The reported state *)

(** What [GetBFD] reports of the rows it read: exactly the owner's sessions, each one
    identified by all its columns and by its receipt; up only where configured. *)
Record reports (cfg : Cluster) (g : GatewayConfig) (expected : gmap string string) (rows : list row) (st : BFDState) : Prop := {
  rp_sound member id : In (mkBFDRecord member id) (bs_Records st) ->
    (exists r, In r rows /\ own_session cfg g r member id) /\ (entry expected member = "" \/ entry expected member = id);
  rp_complete r : In r rows -> owned_by r (gc_OwnerUID g) ->
    exists member id, own_session cfg g r member id /\ In (mkBFDRecord member id) (bs_Records st);
  rp_once : NoDup (map bf_GatewayID (bs_Records st));
  rp_up b member : gc_BFD g = Some b -> In member (bs_Up st) ->
    exists r id, In r rows /\ own_session cfg g r member id /\ session_state b r true "up" }.
Lemma state_reports cfg g b expected rows l : gc_BFD g = Some b -> observe_all cfg g b expected ∅ rows = Ok l ->
  reports cfg g expected rows (state_of g l).
Proof.
  intros HB HA%observe_all_ok. destruct HA as [Hs Hc [Hd _]]. split.
  - intros member id (o & Ho & <- & <-)%state_records. destruct (Hs o Ho) as (r & ? & ? & _ & ?). split; [by exists r|done].
  - intros r Hr HO. destruct (Hc r Hr HO) as (o & Ho & HS). exists (ob_Member o), (ob_ID o). split; [done|].
    apply state_records. by exists o.
  - unfold state_of. cbn [bs_Records]. rewrite sort_by_key_perm, map_map. exact Hd.
  - intros b' member HB' (o & Ho & <- & HC & HU)%state_up. rewrite HB in HB'. injection HB' as <-.
    destruct (Hs o Ho) as (r & ? & ? & HS & _). rewrite HC, HU in HS. by exists r, (ob_ID o).
Qed.

Section get.
Variables (e : Exec) (R : ohistory -> command -> Prop).
(** A read of the BFD table from which the state follows. *)
Definition bfd_read (h : ohistory) (cfg : Cluster) (g : GatewayConfig) (records : list BFDResourceRecord) (st : BFDState) : Prop :=
  exists rows expected, found e h (cl_NBCommand cfg) bfdColumns "BFD" [] rows /\ bfdExpected g records = Ok expected /\
    reports cfg g expected rows st.
Lemma bfd_read_extends h h' cfg g records st : extends h h' -> bfd_read h cfg g records st -> bfd_read h' cfg g records st.
Proof. intros HE (rows & ex & HF & H). exists rows, ex. split; [by eapply found_extends|done]. Qed.
Lemma okp_GetBFD cfg g records h : (forall h c, reading e (cl_NBCommand cfg) c -> R h c) ->
  okp R (GetBFD e cfg g records) h (fun h' st => bfd_read h' cfg g records st).
Proof.
  intros HR. unfold GetBFD. eapply okp_bind; [apply okp_lift; intros a Ha; exact Ha|]. intros h1 expected H1 HX. cbv beta in HX.
  eapply okp_bind; [by apply okp_query|]. intros h2 rows H2 HF. destruct (gc_BFD g) as [b|] eqn:HB; [|done].
  eapply okp_bind; [apply okp_lift; intros a Ha; exact Ha|]. intros h3 l H3 HA. cbv beta in HA. apply okp_Ok.
  exists rows, expected. split; [by eapply found_extends|]. split; [done|]. by eapply state_reports.
Qed.
End get.
