(* ===== verification/OvnBFDSafety.v ===== *)
(** * Which sessions the BFD adapter creates, changes and deletes *)
From stdpp Require Import gmultiset.
From S2P Require Import Prelude GoStd Json JsonDecode Validation SiteConfig Prog Api GlobalApi GlobalConfig GlobalPlan SitePlan Infra Ovn OvnFacts OvnBFD OvnBFDFacts.
Open Scope Z_scope.

Lemma row_refs_in column rows ids : row_refs column rows = Ok ids ->
  forall r l id, In r rows -> setValue (r !! column) true = Ok l -> In id l -> In id ids.
Proof.
  revert ids. induction rows as [|r rows IH]; intros ids; cbn [row_refs]; [done|].
  destruct (setValue (r !! column) true) as [l|] eqn:E; [|done]. destruct (row_refs column rows) as [l'|] eqn:E'; [|done].
  intros [= <-] r' l0 id [<-|Hin] HS Hid; apply in_app_iff; [left; congruence|right; by eapply IH].
Qed.
Lemma contains_iff l x : contains l x = true <-> In x l.
Proof.
  unfold contains. rewrite existsb_exists. split; [intros (y & Hy & ->%String.eqb_eq)|intros Hx; exists x; split; [|apply String.eqb_refl]]; done.
Qed.
Lemma delete_transaction_ops cfg g ops indexes records :
  fst (delete_transaction cfg g ops indexes records) = ops ++ concat (map (delete_ops cfg g) records).
Proof.
  revert ops indexes. induction records as [|r records IH]; intros ops indexes; simpl; [by rewrite List.app_nil_r|].
  by rewrite IH, <- List.app_assoc.
Qed.

Section safety.
Variables (e : Exec) (cfg : Cluster) (g : GatewayConfig) (records : list BFDResourceRecord).

(** ** Deletion *)

(** No row of the table was seen to refer to the session. *)
Definition unreferenced (h : ohistory) (tc : string * string) (id : string) : Prop :=
  exists rows, found e h (cl_NBCommand cfg) (snd tc) (fst tc) [] rows /\
    forall r, In r rows -> exists ids, setValue (r !! snd tc) true = Ok ids /\ ~ In id ids.
Lemma unreferenced_extends h h' tc id : extends h h' -> unreferenced h tc id -> unreferenced h' tc id.
Proof. intros HE (rows & HF & H). exists rows. split; [by eapply found_extends|done]. Qed.

(** The transaction: for each session it waits for the row to be this session still and
    for both tables to hold no reference to it, and only then deletes it. *)
Definition deletion (st : BFDState) : command :=
  transaction_command e (Marshal (JArr (JStr "OVN_Northbound" :: concat (map (delete_ops cfg g) (bs_Records st))))).
Inductive delete_call (h : ohistory) : command -> Prop :=
| dc_read c (Hc : reading e (cl_NBCommand cfg) c) : delete_call h c
| dc_delete st (Hs : bfd_read e h cfg g records st)
    (Hu : forall r tc, In r (bs_Records st) -> In tc references -> unreferenced h tc (bf_UUID r)) : delete_call h (deletion st).

Lemma row_refs_all column rows ids : row_refs column rows = Ok ids ->
  forall r, In r rows -> exists l, setValue (r !! column) true = Ok l.
Proof.
  revert ids. induction rows as [|r rows IH]; intros ids; cbn [row_refs]; [done|].
  destruct (setValue (r !! column) true) as [l|] eqn:E; [|done]. destruct (row_refs column rows) as [l'|] eqn:E'; [|done].
  intros _ r' [<-|Hin]; [by exists l|by eapply IH].
Qed.
Lemma okp_table_refs tc h :
  okp delete_call (table_refs e cfg tc) h (fun h' ids => forall id, ~ In id ids -> unreferenced h' tc id).
Proof.
  eapply okp_bind; [apply okp_query; by constructor|]. intros h1 rows H1 HF. apply okp_lift. intros ids HR id Hid.
  exists rows. split; [done|]. intros r Hr. destruct (row_refs_all _ _ _ HR r Hr) as (l & HS). exists l. split; [done|].
  intros Hin. by eapply Hid, row_refs_in.
Qed.
Lemma okp_DeleteBFD h : okp delete_call (DeleteBFD e cfg g records) h
  (fun h' b => exists st, bfd_read e h' cfg g records st /\ (b = true -> bs_Records st = [])).
Proof.
  unfold DeleteBFD. eapply okp_bind; [apply okp_GetBFD; by constructor|]. intros h1 st H1 HS.
  destruct (bs_Records st) as [|r0 rs] eqn:ER; [apply okp_Ok; by exists st|]. rewrite <- ER.
  eapply okp_bind.
  { apply (okp_collect _ _ (fun h' tc ids => forall id, ~ In id ids -> unreferenced h' tc id)).
    - intros h' h'' tc ids HE HU id Hid. eapply unreferenced_extends, HU; done.
    - intros h' tc _ _. apply okp_table_refs. }
  intros h2 refs H2 HF. assert (bfd_read e h2 cfg g records st) as HS2 by (by eapply bfd_read_extends).
  destruct (existsb _ _) eqn:EX; [apply okp_Ok; by exists st|].
  destruct (delete_transaction _ _ _ _ _) as [ops indexes] eqn:ED.
  eapply okp_bind with (P := fun _ _ => True); [|intros h3 _ H3 _; apply okp_Ok; exists st; split; [by eapply bfd_read_extends|done]].
  unfold bfdDeleteTransaction. apply okp_stop. intros _. apply okp_stop. intros _.
  assert (ops = JStr "OVN_Northbound" :: concat (map (delete_ops cfg g) (bs_Records st))) as ->.
  { pose proof (delete_transaction_ops cfg g [JStr "OVN_Northbound"] [] (bs_Records st)) as HD. by rewrite ED in HD. }
  eapply okp_call with (P := fun _ _ => True); [|by intros; apply okp_Ret]. split; [|done].
  apply dc_delete; [done|]. intros r tc Hr Htc. apply existsb_forall with (x := r) in EX; [|done].
  assert (exists ids, In ids refs /\ forall id, ~ In id ids -> unreferenced h2 tc id) as (ids & Hids & HU).
  { destruct (Forall2_in_l _ _ _ _ HF Htc) as (ids & ? & ?). by exists ids. }
  apply HU. intros Hin. apply not_true_iff_false in EX. apply EX, contains_iff, in_concat. by exists ids.
Qed.

(** A deletion is reported complete only when a read showed no session of the owner. *)
Lemma bfd_deletion_is_guarded :
  obeys delete_call (DeleteBFD e cfg g records) /\
  forall h, exec (DeleteBFD e cfg g records) h (Ret (Ok true)) ->
    exists rows, found e h (cl_NBCommand cfg) bfdColumns "BFD" [] rows /\
      forall r, In r rows -> ~ owned_by r (gc_OwnerUID g).
Proof.
  split; [eapply okp_obeys, okp_DeleteBFD|]. intros h HX.
  destruct (okp_exec _ _ _ _ _ (okp_DeleteBFD []) HX) as (st & (rows & ex & HF & _ & HR) & HN).
  exists rows. split; [done|]. intros r Hr HO. destruct (rp_complete _ _ _ _ _ HR r Hr HO) as (m & id & _ & Hin).
  by rewrite HN in Hin.
Qed.

(** ** Creation and timers *)

Variable b : SiteConfig.BFD.
Hypothesis Hb : gc_BFD g = Some b.

(** The native port was read: BFD only, on the source address, attached to the router,
    in one chassis group with two chassis of different names. *)
Definition port_ready (h : ohistory) : Prop :=
  exists r pg router ports group chassis names,
    found e h (cl_NBCommand cfg) "_uuid,name,networks,options,ha_chassis_group" "Logical_Router_Port"
      [condition "name" (BFDPortName g)] [r] /\ stringValue (r !! "name") = Ok (BFDPortName g) /\ port_group g b r = Ok pg /\
    found e h (cl_NBCommand cfg) "name,ports" "Logical_Router" [condition "name" (gc_VpcName g)] [router] /\
    stringValue (router !! "name") = Ok (gc_VpcName g) /\ setValue (router !! "ports") true = Ok ports /\ In (fst pg) ports /\
    found_record e h (cl_NBCommand cfg) "ha_chassis" "HA_Chassis_Group" (snd pg) group /\
    setValue (group !! "ha_chassis") true = Ok chassis /\
    Forall2 (fun id name => exists c, found_record e h (cl_NBCommand cfg) "chassis_name" "HA_Chassis" id c /\
               stringValue (c !! "chassis_name") = Ok name) chassis names /\
    (2 <= size (distinct_names names))%nat.
Inductive ensure_call (h : ohistory) : command -> Prop :=
| ec_read c (Hc : reading e (cl_NBCommand cfg) c) : ensure_call h c
| ec_create st expected m (Hs : bfd_read e h cfg g records st) (Hx : bfdExpected g records = Ok expected)
    (Hp : port_ready h) (Hm : In m (gc_Gateways g)) (Hr : entry expected (gw_ID m) = "")
    (Hn : forall id, ~ In (mkBFDRecord (gw_ID m) id) (bs_Records st)) :
    ensure_call h (exec_command e (cl_NBCommand cfg) (create_bfd cfg g (gw_ID m) (gw_IP m) ++ timer_args b))
| ec_set st m id (Hs : bfd_read e h cfg g records st) (Hp : port_ready h) (Hm : In m (gc_Gateways g))
    (Hn : In (mkBFDRecord (gw_ID m) id) (bs_Records st)) :
    ensure_call h (exec_command e (cl_NBCommand cfg) (set_bfd id cfg g (gw_ID m) (gw_IP m) ++ timer_args b)).

Lemma port_ready_extends h h' : extends h h' -> port_ready h -> port_ready h'.
Proof.
  intros HE (r & pg & router & ports & group & chassis & names & H1 & H2 & H3 & H4 & H5 & H6 & H7 & H8 & H9 & H10 & H11).
  exists r, pg, router, ports, group, chassis, names. split_and!; try done; try by eapply found_extends.
  eapply Forall2_impl; [exact H10|]. intros id name (c & HF & HN). exists c. split; [by eapply found_extends|done].
Qed.
Lemma okp_bfdPortReady h : okp ensure_call (bfdPortReady e cfg g b) h (fun h' _ => port_ready h').
Proof.
  assert (forall h c, reading e (cl_NBCommand cfg) c -> ensure_call h c) as HR by (by constructor).
  unfold bfdPortReady.
  eapply okp_bind; [by apply okp_query|]. intros h1 rows H1 HF1. apply okp_stop. intros _.
  eapply okp_bind; [apply okp_lift; intros a Ha; exact Ha|]. intros h2 r H2 [-> HN]%namedSingle_iff.
  eapply okp_bind; [apply okp_lift; intros a Ha; exact Ha|]. intros h3 pg H3 HG. cbv beta in HG.
  eapply okp_bind; [by apply okp_query|]. intros h4 rows H4 HF4. apply okp_stop. intros _.
  eapply okp_bind; [apply okp_lift; intros a Ha; exact Ha|]. intros h5 router H5 [-> HN5]%namedSingle_iff.
  eapply okp_bind; [apply okp_lift; intros a Ha; exact Ha|]. intros h6 ports H6 HP. cbv beta in HP.
  apply okp_stop. intros HC%negb_false_iff%contains_iff.
  eapply okp_bind; [by apply okp_record|]. intros h7 group H7 HF7.
  eapply okp_bind; [apply okp_lift; intros a Ha; exact Ha|]. intros h8 chassis H8 HH. cbv beta in HH.
  apply okp_stop. intros _. eapply okp_bind.
  { apply (okp_collect _ _ (fun h' id name => exists c, found_record e h' (cl_NBCommand cfg) "chassis_name" "HA_Chassis" id c /\
      stringValue (c !! "chassis_name") = Ok name)).
    - intros h' h'' id name HE (c & HF & Hc). exists c. split; [by eapply found_extends|done].
    - intros h' id _ _. eapply okp_bind; [by apply okp_record|]. intros h9 c H9 HF9. apply okp_lift. intros name Hc. by exists c. }
  intros h9 names H9 HF9. apply okp_stop. intros HS%Nat.ltb_ge. apply okp_Ok.
  exists r, pg, router, ports, group, chassis, names.
  unfold found_record in HF7 |- *. split_and!; try done; (eapply found_extends; [|eassumption]; extending).
Qed.
Lemma reports_uuids expected rows st m : reports cfg g expected rows st ->
  (entry (uuids (bs_Records st)) m = "" -> forall id, ~ In (mkBFDRecord m id) (bs_Records st)) /\
  (entry (uuids (bs_Records st)) m <> "" -> In (mkBFDRecord m (entry (uuids (bs_Records st)) m)) (bs_Records st)).
Proof.
  intros HR. assert (forall x, uuids (bs_Records st) !! m = Some x -> In (mkBFDRecord m x) (bs_Records st)) as HS.
  { intros x [([m' x'] & Hin & Hm & Hx)|[Hm _]]%fill_Some; [simpl in *; by subst|by apply lookup_empty_Some in Hm]. }
  split; [|by intros H%entry_Some%HS]. intros HE id Hin.
  destruct (fill_is_Some bf_GatewayID bf_UUID _ ∅ _ Hin) as [x Hx]. pose proof (HS x Hx) as Hinx.
  apply (rp_sound _ _ _ _ _ HR) in Hinx as [(r & _ & [Hid _ _ _ _]) _]. apply uuid_nonempty in Hid.
  apply Hid. rewrite <- HE. unfold entry, uuids. simpl in Hx. by rewrite Hx.
Qed.
Lemma okp_ensure_members configured st expected members h : (forall m, In m members -> In m (gc_Gateways g)) ->
  bfd_read e h cfg g records st -> port_ready h -> bfdExpected g records = Ok expected ->
  okp ensure_call (ensure_members e cfg g b configured (uuids (bs_Records st)) expected members) h (fun _ _ => True).
Proof.
  revert h. induction members as [|m members IH]; intros h HM HS HP HX; cbn [ensure_members]; [by apply okp_Ok|].
  assert (In m (gc_Gateways g)) as Hm by (apply HM; by left).
  assert (forall m', In m' members -> In m' (gc_Gateways g)) as HM' by (intros; apply HM; by right).
  pose proof HS as (rows & ex & _ & _ & HR). destruct (reports_uuids _ _ _ (gw_ID m) HR) as [HN HI].
  apply okp_stop. intros Hr. destruct (negb _ && configured); [by apply IH|].
  eapply okp_call with (P := fun _ _ => True).
  - eapply wp_mono; [|apply wp_run]; [done|]. destruct (String.eqb_spec (entry (uuids (bs_Records st)) (gw_ID m)) "") as [E|E].
    + simpl in Hr. apply negb_false_iff, String.eqb_eq in Hr. eapply ec_create; eauto.
    + eapply ec_set; eauto.
  - intros h1 [out|err] H1 _; [|done]. apply IH; try done; [by eapply bfd_read_extends|by eapply port_ready_extends].
Qed.
Lemma okp_EnsureBFD h : okp ensure_call (EnsureBFD e cfg g records) h
  (fun h' st => bfd_read e h' cfg g records st /\ port_ready h').
Proof.
  unfold EnsureBFD. eapply okp_bind; [apply okp_GetBFD; by constructor|]. intros h1 st H1 HS. rewrite Hb.
  eapply okp_bind; [apply okp_bfdPortReady|]. intros h2 [] H2 HP.
  assert (bfd_read e h2 cfg g records st) as HS2 by (by eapply bfd_read_extends).
  pose proof HS as (rows & expected & _ & HX & _). rewrite HX.
  eapply okp_bind; [apply okp_ensure_members; auto|]. intros h3 [] H3 _.
  eapply okp_mono; [apply okp_GetBFD; by constructor|]. intros h4 st' H4 HS'. split; [done|].
  eapply port_ready_extends; [|exact HP]. by eapply extends_trans.
Qed.

(** C23: a session is created only for a member of which the table, read before, showed
    no session and of which no receipt is recorded, and timers are set only of a session
    of the member found by all its columns, in both cases after the native port was read
    as converged; what is reported afterwards is again read from the table, the owner's
    sessions and no other. Sessions are deleted in one transaction only, after every one
    of them was read as the owner's own and both referring tables were read without a
    reference to any, which the transaction verifies again; the deletion is complete only
    when a read showed no session of the owner. *)
Theorem bfd_sessions_are_never_adopted :
  (obeys ensure_call (EnsureBFD e cfg g records) /\
   forall h st, exec (EnsureBFD e cfg g records) h (Ret (Ok st)) -> port_ready h /\
     exists rows expected, found e h (cl_NBCommand cfg) bfdColumns "BFD" [] rows /\
       bfdExpected g records = Ok expected /\ reports cfg g expected rows st) /\
  (obeys delete_call (DeleteBFD e cfg g records) /\
   forall h, exec (DeleteBFD e cfg g records) h (Ret (Ok true)) ->
     exists rows, found e h (cl_NBCommand cfg) bfdColumns "BFD" [] rows /\
       forall r, In r rows -> ~ owned_by r (gc_OwnerUID g)).
Proof.
  split; [|apply bfd_deletion_is_guarded]. split; [eapply okp_obeys, okp_EnsureBFD|]. intros h st HX.
  destruct (okp_exec _ _ _ _ _ (okp_EnsureBFD []) HX) as [HS HP]. done.
Qed.
End safety.

(** * The hash fields of a site's default routes *)

Section ecmp.
Variables (e : Exec) (cfg : Cluster) (g : GatewayConfig) (want : gmap string string).

Definition ecmp_columns : string := "ip_prefix,nexthop,policy,route_table,bfd,selection_fields,external_ids".
(** A native default route of the main table through [ip], tracked by the wanted session. *)
Record default_route (r : row) (ip session : string) : Prop := {
  dr_prefix : stringValue (r !! "ip_prefix") = Ok "0.0.0.0/0";
  dr_hop : stringValue (r !! "nexthop") = Ok ip;
  dr_policy : exists policy, setValue (r !! "policy") false = Ok policy /\ (policy = [] \/ Join "," policy = "dst-ip");
  dr_table : stringValue (r !! "route_table") = Ok "";
  dr_bfd : setValue (r !! "bfd") true = Ok [session];
  dr_wanted : want !! ip = Some session }.
(** Its fields and its marker. *)
Record route_fields (r : row) (fields : list string) (ids : gmap string string) : Prop := {
  rf_fields : exists l, setValue (r !! "selection_fields") false = Ok l /\ fields = sort_strings l;
  rf_ids : mapValue (r !! "external_ids") = Ok ids }.
Definition balanced (fields : list string) (ids : gmap string string) : Prop :=
  Join "," fields = Join "," ecmpFields /\ entry ids ecmpOwnerKey = gc_OwnerUID g.
(** The route may be changed: it is marked as the owner's, or unmarked with native fields. *)
Definition adoptable (fields : list string) (ids : gmap string string) : Prop :=
  entry ids ecmpOwnerKey = gc_OwnerUID g \/
  (entry ids ecmpOwnerKey = "" /\ (fields = [] \/ Join "," fields = Join "," ecmpFields)).

(** The target stands for this row, and its guards repeat what was read of it. *)
Record target_of (ref : string) (r : row) (t : target) : Prop := {
  to_id : tg_id t = ref;
  to_route : default_route r (tg_ip t) (tg_bfd t);
  to_session : tg_bfd t <> "";
  to_fields : exists fields ids, route_fields r fields ids /\ adoptable fields ids /\
    tg_idsGuard t = exactMapGuard "external_ids" ids /\
    tg_fieldsGuard t = (if empty fields then "selection_fields=[]" else ("selection_fields=" ++ Join "," fields)%string) /\
    (tg_changed t = false -> gc_OwnerUID g <> "" -> balanced fields ids) }.
Lemma ecmp_route_ok seen ref r t : ecmp_route g want seen ref r = Ok (Hashed t) -> target_of ref r t /\ tg_ip t ∉ seen.
Proof.
  unfold ecmp_route. destruct (stringValue (r !! "ip_prefix")) as [prefix|] eqn:E1; [|done].
  destruct (stringValue (r !! "nexthop")) as [ip|] eqn:E2; [|done]. destruct (_ || _) eqn:EO; [done|].
  destruct (setValue (r !! "policy") false) as [policy|] eqn:E3; [|done].
  destruct (stringValue (r !! "route_table")) as [table|] eqn:E4; [|done].
  destruct (setValue (r !! "bfd") true) as [[|session [|]]|] eqn:E5; try done.
  destruct (_ || negb (session =? entry want ip)%string) eqn:EB; [done|]. destruct (bool_decide (ip ∈ seen)) eqn:ES; [done|].
  destruct (setValue (r !! "selection_fields") false) as [fields|] eqn:E6; [|done].
  destruct (mapValue _) as [ids|] eqn:E7; [|done].
  destruct (negb (entry ids ecmpOwnerKey =? "")%string && _) eqn:EC; [done|].
  destruct ((entry ids ecmpOwnerKey =? "")%string && _ && _) eqn:EU; [done|]. intros [= <-]. breflect.
  match goal with HP : negb (empty policy) && _ = false |- _ => apply andb_false_iff in HP; rename HP into HPP end.
  match goal with HW : session = entry want ip |- _ => subst session end.
  split; [|by simpl]. split; simpl; [done| |congruence|].
  - split; try congruence; [|by apply entry_Some].
    exists policy. split; [done|]. destruct HPP as [HP|HP]; breflect; [left; by destruct policy|by right].
  - exists (sort_strings fields), ids. split; [split; [by exists fields|done]|].
    apply andb_false_iff in EC. split; [|split; [done|split; [done|]]].
    + destruct (String.eqb_spec (entry ids ecmpOwnerKey) "") as [Ho|Ho].
      * right. split; [done|]. simpl in EU. apply andb_false_iff in EU as [EU|EU]; breflect; [left; by destruct (sort_strings fields)|by right].
      * left. destruct EC as [EC|EC]; breflect; done.
    + intros HC Hne. breflect. split; [done|]. destruct EC as [EC|EC]; breflect; done.
Qed.

(** A reference of the router was read, and the target stands for it. *)
Definition hashed (h : ohistory) (refs : list string) (t : target) : Prop :=
  exists ref r, In ref refs /\ found_record e h (cl_NBCommand cfg) ecmp_columns "Logical_Router_Static_Route" ref r /\ target_of ref r t.
Lemma hashed_extends h h' refs t : extends h h' -> hashed h refs t -> hashed h' refs t.
Proof. intros HE (ref & r & H1 & H2 & H3). exists ref, r. split; [done|]. split; [by eapply found_extends|done]. Qed.
Lemma hashed_more h refs refs' t : (forall ref, In ref refs -> In ref refs') -> hashed h refs t -> hashed h refs' t.
Proof. intros HI (ref & r & H1 & H2). exists ref, r. split; [by apply HI|done]. Qed.
Lemma okp_ecmp_targets R seen refs h : (forall h c, reading e (cl_NBCommand cfg) c -> R h c) ->
  okp R (ecmp_targets e (cl_NBCommand cfg) g want seen refs) h (fun h' o => match o with
    | Some l => (forall t, In t l -> hashed h' refs t) /\ distinct_from tg_ip seen l
    | None => True end).
Proof.
  intros HR. revert seen h. induction refs as [|ref refs IH]; intros seen h; cbn [ecmp_targets].
  { apply okp_Ok. split; [done|]. split; [constructor|done]. }
  eapply okp_bind; [by apply okp_record|]. intros h1 r H1 HF.
  eapply okp_bind; [apply okp_lift; intros a Ha; exact Ha|]. intros h2 v H2 HV. cbv beta in HV.
  assert (forall h' o seen', match o with Some l => (forall t, In t l -> hashed h' refs t) /\ distinct_from tg_ip seen' l | None => True end ->
    match o with Some l => (forall t, In t l -> hashed h' (ref :: refs) t) /\ distinct_from tg_ip seen' l | None => True end) as HW.
  { intros h' [l|] seen'; [|done]. intros [HT HD]. split; [|done]. intros t Ht. eapply hashed_more; [|by apply HT]. by right. }
  destruct v as [| |t]; [eapply okp_mono; [apply IH|]; intros; by apply HW|by apply okp_Ok|].
  apply ecmp_route_ok in HV as [HT HS]. eapply okp_bind; [apply IH|]. intros h3 [l|] H3 HL; apply okp_Ok; [|done].
  destruct (HW h3 (Some l) _ HL) as [HL' HD]. split; [|by apply distinct_from_cons].
  intros t' [<-|Ht']; [|by apply HL']. exists ref, r. split; [by left|]. split; [|done].
  eapply found_extends, HF. by eapply extends_trans.
Qed.

(** ** The writes *)

(** The router was read, and these are its routes. *)
Definition router_read (h : ohistory) (routerID : string) (refs : list string) : Prop :=
  exists router, found e h (cl_NBCommand cfg) "_uuid,name,static_routes" "Logical_Router" [condition "name" (gc_VpcName g)] [router] /\
    stringValue (router !! "name") = Ok (gc_VpcName g) /\ uuidValue (router !! "_uuid") = Ok routerID /\
    setValue (router !! "static_routes") true = Ok refs.
Lemma router_read_extends h h' routerID refs : extends h h' -> router_read h routerID refs -> router_read h' routerID refs.
Proof. intros HE (router & HF & H). exists router. split; [by eapply found_extends|done]. Qed.
Inductive ecmp_call (h : ohistory) : command -> Prop :=
| fc_read c (Hc : reading e (cl_NBCommand cfg) c) : ecmp_call h c
| fc_set routerID refs t (Hr : router_read h routerID refs) (Ht : hashed h refs t) :
    ecmp_call h (exec_command e (cl_NBCommand cfg) (set_fields cfg g routerID t)).
Lemma okp_set_targets routerID refs l h : router_read h routerID refs -> (forall t, In t l -> hashed h refs t) ->
  okp ecmp_call (set_targets e cfg g routerID l) h (fun _ _ => True).
Proof.
  revert h. induction l as [|t l IH]; intros h HR HT; cbn [set_targets]; [by apply okp_Ok|].
  destruct (negb _); [apply IH; [done|]; intros; apply HT; by right|].
  eapply okp_bind with (P := fun _ _ => True).
  - eapply wp_mono; [|apply wp_run; eapply fc_set; [done|apply HT; by left]]. intros h' [out|]; [|done].
    intros (late & -> & _). split; [apply extends_snoc|done].
  - intros h1 out H1 _. apply IH; [by eapply router_read_extends|]. intros t' Ht'. eapply hashed_extends; [done|]. apply HT. by right.
Qed.

(** Every wanted address has its route, balanced over all fields. *)
Definition all_balanced (h : ohistory) : Prop := exists routerID refs, router_read h routerID refs /\
  forall ip session, want !! ip = Some session -> session <> "" /\
    exists ref r fields ids, In ref refs /\
      found_record e h (cl_NBCommand cfg) ecmp_columns "Logical_Router_Static_Route" ref r /\
      default_route r ip session /\ route_fields r fields ids /\ balanced fields ids.
Lemma targets_cover l : (forall t, In t l -> exists s, want !! tg_ip t = Some s) -> NoDup (map tg_ip l) -> List.length l = size want ->
  forall ip, is_Some (want !! ip) -> exists t, In t l /\ tg_ip t = ip.
Proof.
  intros HI HD HL ip Hip.
  assert (list_to_set (map tg_ip l) = (dom want : gset string)) as HX.
  { apply set_subseteq_size_eq.
    - intros x (t & <- & Ht)%elem_of_list_to_set%list_elem_of_In%in_map_iff. apply elem_of_dom. destruct (HI t Ht) as [s ->]. eauto.
    - rewrite size_list_to_set by done. rewrite length_map, size_dom. lia. }
  apply elem_of_dom in Hip. rewrite <- HX in Hip.
  apply elem_of_list_to_set, list_elem_of_In, in_map_iff in Hip as (t & Ht & Hin). by exists t.
Qed.
Lemma unchanged_balanced h routerID refs l : gc_OwnerUID g <> "" -> router_read h routerID refs ->
  (forall t, In t l -> hashed h refs t) -> NoDup (map tg_ip l) -> List.length l = size want -> existsb tg_changed l = false ->
  all_balanced h.
Proof.
  intros HO HR HT HD HL HC. exists routerID, refs. split; [done|]. intros ip session Hw.
  destruct (targets_cover l) with (ip := ip) as (t & Ht & <-); try done; [|].
  { intros t Ht. destruct (HT t Ht) as (ref & r & _ & _ & [_ [] _ _]). eauto. }
  destruct (HT t Ht) as (ref & r & Hin & HF & [_ HDR HS (fields & ids & HFS & _ & _ & _ & HB)]).
  pose proof (dr_wanted _ _ _ HDR) as Hw'. rewrite Hw in Hw'. injection Hw' as ->. split; [done|].
  exists ref, r, fields, ids. split_and!; try done. apply HB; [|done]. by eapply existsb_forall.
Qed.
End ecmp.

Section safety.
Variables (e : Exec) (cfg : Cluster) (g : GatewayConfig) (records : list BFDResourceRecord).

(** The wanted session of each gateway address, by the receipts. *)
Definition wanted (expected : gmap string string) : gmap string string := wanted_sessions g (entry expected).
Definition fields_call (h : ohistory) (c : command) : Prop :=
  reading e (cl_NBCommand cfg) c \/ exists expected, bfdExpected g records = Ok expected /\
    size expected = List.length (gc_Gateways g) /\ ecmp_call e cfg g (wanted expected) h c.
Lemma okp_EnsureECMPFields h : okp fields_call (EnsureECMPFields e cfg g records) h
  (fun h' done => done = true -> exists expected, bfdExpected g records = Ok expected /\
     size expected = List.length (gc_Gateways g) /\ all_balanced e cfg g (wanted expected) h').
Proof.
  assert (forall h c, reading e (cl_NBCommand cfg) c -> fields_call h c) as HR by (by left).
  unfold EnsureECMPFields. eapply okp_bind; [apply okp_lift; intros a Ha; exact Ha|]. intros h1 expected H1 HX. cbv beta in HX.
  destruct (Nat.eqb_spec (size expected) (List.length (gc_Gateways g))) as [HL|HL]; simpl negb; [|by apply okp_Ok].
  assert (gc_OwnerUID g <> "") as HO.
  { unfold bfdExpected in HX. intros E. rewrite E, String.eqb_refl, orb_true_r in HX. done. }
  eapply okp_bind; [by apply okp_query|]. intros h2 rows H2 HF. destruct rows as [|r0 rs]; [by apply okp_Ok|].
  eapply okp_bind; [apply okp_lift; intros a Ha; exact Ha|]. intros h3 router H3 [[= -> ->] HN]%namedSingle_iff.
  eapply okp_bind; [apply okp_lift; intros a Ha; exact Ha|]. intros h4 routerID H4 HID. cbv beta in HID.
  eapply okp_bind; [apply okp_lift; intros a Ha; exact Ha|]. intros h5 refs H5 HS. cbv beta in HS.
  assert (router_read e cfg g h5 routerID refs) as HRR.
  { exists router. split_and!; try done. eapply found_extends, HF. backwards. }
  eapply okp_bind; [by apply okp_ecmp_targets|]. intros h6 [l|] H6 HT; [|by apply okp_Ok]. destruct HT as [HT [HD _]].
  destruct (Nat.eqb_spec (List.length l) (size (wanted_sessions g (entry expected)))) as [HW|HW]; simpl negb; [|by apply okp_Ok].
  assert (router_read e cfg g h6 routerID refs) as HR6 by (by eapply router_read_extends).
  eapply okp_bind with (P := fun _ _ => True).
  - eapply wp_weaken; [by intros| |by apply (okp_set_targets e cfg g (wanted expected) routerID refs l)].
    intros h' c Hc. right. by exists expected.
  - intros h7 [] H7 _. apply okp_Ok. intros HC%negb_true_iff. exists expected. split; [done|]. split; [done|].
    apply (unchanged_balanced e cfg g (wanted expected) h7 routerID refs l); try done.
    + by eapply router_read_extends.
    + intros t Ht. eapply hashed_extends; [done|]. by apply HT.
Qed.

(** The hash fields are written only on native default routes of the owned router
    that were read with the session recorded for their gateway, that carry the owner's
    marker or no marker and native fields, and with guards that repeat everything read;
    and the pass reports true only when every recorded gateway has such a route already
    balanced over all fields and marked, with nothing written. *)
Theorem hash_fields_are_never_adopted :
  obeys fields_call (EnsureECMPFields e cfg g records) /\
  forall h, exec (EnsureECMPFields e cfg g records) h (Ret (Ok true)) ->
    exists expected, bfdExpected g records = Ok expected /\ size expected = List.length (gc_Gateways g) /\
      all_balanced e cfg g (wanted expected) h.
Proof.
  split; [eapply okp_obeys, okp_EnsureECMPFields|]. intros h HX.
  exact (okp_exec _ _ _ _ _ (okp_EnsureECMPFields []) HX eq_refl).
Qed.
End safety.
