(* ===== verification/PlatformPlan.v ===== *)
(** * [internal/platformplan]: per-location snapshots of a VPC

    [Build] compiles the admitted subnets of a VPC and the bindings that exist into
    one [NetworkBinding] per location; [Revision] is the digest both sides use to
    recognise an accepted snapshot. *)
From S2P Require Import Prelude GoStd Json NetIP NetIPFacts Validation SiteConfig Api PlatformConfig.
Open Scope Z_scope.

Definition PlanOwnerLabel : string := "platform.globalvpc.io/vpc-uid".
Definition PlanLocationLabel : string := "platform.globalvpc.io/location".
Definition ProjectLabel : string := "platform.globalvpc.io/project".
Definition PlanFinalizer : string := "platform.globalvpc.io/managed-cleanup".

Definition Short (value : string) : string := take 20 (sha256_hex value).
Definition BindingName (uid location : string) : string := ("nb-" ++ Short (uid ++ "/" ++ location))%string.
Definition VpcName (uid location : string) : string := ("pv-" ++ Short (uid ++ "/" ++ location))%string.
Definition SubnetName (uid : string) : string := ("ps-" ++ Short uid)%string.

Definition ValidateSubnet (v : VPC) (s : Subnet) (cfg : PlatformConfig.Config) : res unit :=
  reject negb (om_Namespace (sn_Meta s) =? om_Namespace (vpc_Meta v))%string ||
         negb (ss_VPCRef (sn_Spec s) =? om_Name (vpc_Meta v))%string
    with Errorf "subnet must reference a VPC in its project" ;;
  reject negb (st_VPCUID (sn_Status s) =? "")%string &&
         negb (st_VPCUID (sn_Status s) =? om_UID (vpc_Meta v))%string
    with Errorf "VPC identity changed; subnet cannot adopt a same-name replacement" ;;
  l <-? lookupLocation cfg (ss_LocationRef (sn_Spec s)) (om_Namespace (sn_Meta s)) ;;
  _ <-? Prefix (ss_CIDR (sn_Spec s)) ;;
  reject negb (AllowsCIDR l (ss_CIDR (sn_Spec s)))
    with Errorf "CIDR is outside this location's reserved workload pools" ;;
  Ok tt.

(** The spec whose JSON is hashed: no revision, no peer readiness. *)
Definition revision_input (spec : NetworkBindingSpec) : NetworkBindingSpec :=
  nbs_with_Revision ""
    (nbs_with_Peers (map (fun p => mkPeer (pg_LocationRef p) (ge_with_Ready false (pg_Endpoint p))) (nb_Peers spec)) spec).
Definition Revision (spec : NetworkBindingSpec) : string :=
  sha256_hex (Marshal (spec_json (revision_input spec))).

(** The first binding of the location whose applied revision is current decides. *)
Fixpoint withdrawn (bindings : list NetworkBinding) (location name : string) : bool :=
  match bindings with
  | [] => false
  | b :: rest =>
      if negb (nb_LocationRef (nb_Spec b) =? location)%string ||
         negb (bt_AppliedRevision (nb_Status b) =? nb_Revision (nb_Spec b))%string
      then withdrawn rest location name
      else negb (existsb (fun r => (rr_Kind r =? "Subnet")%string && (rr_Name r =? name)%string)
                         (bt_Resources (nb_Status b)))
  end.

(** ** [Build] *)

Notation byLocation_t := (gmap string (list BindingSubnet)).
(** Indexing the map of slices: a missing location has no subnets. *)
Definition at_location (m : byLocation_t) (name : string) : list BindingSubnet := default [] (m !! name).

(** The loop over [existing]. *)
Fixpoint existing_locations (v : VPC) (locations : gmap string Location) (existing : list NetworkBinding)
    : res (gmap string Location) :=
  match existing with
  | [] => Ok locations
  | b :: rest =>
      reject negb (oi_UID (nb_VPCRef (nb_Spec b)) =? om_UID (vpc_Meta v))%string ||
             negb (oi_Namespace (nb_VPCRef (nb_Spec b)) =? om_Namespace (vpc_Meta v))%string
        with Errorf "foreign binding identity" ;;
      let name := nb_LocationRef (nb_Spec b) in
      existing_locations v (<[name := mkLocation name "" "" "" (om_Namespace (nb_Meta b)) [] []]> locations) rest
  end.

Definition binding_subnet (s : Subnet) (p : NetIP.Prefix) : BindingSubnet :=
  mkBindingSubnet (om_Name (sn_Meta s)) (om_UID (sn_Meta s)) (ss_CIDR (sn_Spec s))
    (AddrString (Next (paddr p))) (SubnetName (om_UID (sn_Meta s)))
    (bool_decide (om_DeletionTimestamp (sn_Meta s) <> None)).

(** The loop over [subnets]. *)
Fixpoint place_subnets (v : VPC) (cfg : PlatformConfig.Config) (locations : gmap string Location)
    (byLocation : byLocation_t) (subnets : list Subnet) : res (gmap string Location * byLocation_t) :=
  match subnets with
  | [] => Ok (locations, byLocation)
  | s :: rest =>
      if negb (st_VPCUID (sn_Status s) =? om_UID (vpc_Meta v))%string
      then place_subnets v cfg locations byLocation rest
      else
        l <-? lookupLocation cfg (ss_LocationRef (sn_Spec s)) (om_Namespace (sn_Meta s)) ;;
        p <-? Prefix (ss_CIDR (sn_Spec s)) ;;
        place_subnets v cfg (<[loc_Name l := l]> locations)
          (<[loc_Name l := at_location byLocation (loc_Name l) ++ [binding_subnet s p]]> byLocation) rest
  end.

(** The remote subnets location [name] imports. *)
Definition remote_subnets (existing : list NetworkBinding) (byLocation : byLocation_t) (names : list string)
    (name : string) : list RemoteSubnet :=
  flat_map (fun remote =>
    if (remote =? name)%string then []
    else map (fun s => mkRemoteSubnet remote (bs_CIDR s))
           (List.filter (fun s => negb (bs_Deleting s) || negb (withdrawn existing remote (bs_NativeSubnetName s)))
                   (at_location byLocation remote))) names.

Definition gateway_ok (g : GatewayEndpoint) : bool :=
  match ParseAddr (ge_EndpointIP g), ParseAddr (ge_TransitIP g) with
  | Some ip, Some transit =>
      Is4 ip && IsGlobalUnicast ip && Is4 transit && negb (ge_ID g =? "")%string &&
      negb (ge_NodeUID g =? "")%string && negb (ge_NodeName g =? "")%string
  | _, _ => false
  end.

(** The loop over one location's registered gateways. *)
Fixpoint location_peers (name remote : string) (seenIDs seenNodes : gset string) (gs : list GatewayEndpoint)
    : res (list PeerGateway) :=
  match gs with
  | [] => Ok []
  | g :: rest =>
      reject negb (gateway_ok g) || bool_decide (ge_ID g ∈ seenIDs) || bool_decide (ge_NodeUID g ∈ seenNodes)
        with Errorf ("invalid gateway registration at " ++ remote) ;;
      peers <-? location_peers name remote ({[ge_ID g]} ∪ seenIDs) ({[ge_NodeUID g]} ∪ seenNodes) rest ;;
      let links := List.filter (fun l => HasPrefix (gl_PeerID l) (name ++ "/")) (ge_Links g) in
      Ok (mkPeer remote (ge_with_Links links (ge_with_Ready false g)) :: peers)
  end.
Fixpoint remote_peers (byLocation : byLocation_t) (name : string) (existing : list NetworkBinding)
    : res (list PeerGateway) :=
  match existing with
  | [] => Ok []
  | remote :: rest =>
      let loc := nb_LocationRef (nb_Spec remote) in
      if (loc =? name)%string || (List.length (at_location byLocation loc) =? 0)%nat
      then remote_peers byLocation name rest
      else
        here <-? location_peers name loc ∅ ∅ (bt_Gateways (nb_Status remote)) ;;
        peers <-? remote_peers byLocation name rest ;;
        Ok (here ++ peers)
  end.

Definition remote_key (r : RemoteSubnet) : string := (rs_LocationRef r ++ "/" ++ rs_CIDR r)%string.
Definition peer_key (p : PeerGateway) : string := (pg_LocationRef p ++ "/" ++ ge_ID (pg_Endpoint p))%string.

(** One iteration of the loop over [names]. *)
Definition build_location (v : VPC) (existing : list NetworkBinding) (className profile : string)
    (locations : gmap string Location) (byLocation : byLocation_t) (names authorized : list string)
    (name : string) : res NetworkBinding :=
  let uid := om_UID (vpc_Meta v) in
  let ns := om_Namespace (vpc_Meta v) in
  let local := sort_by_key bs_UID (at_location byLocation name) in
  peers <-? remote_peers byLocation name existing ;;
  let spec :=
    mkBindingSpec (mkIdentity ns (om_Name (vpc_Meta v)) uid) 0 0 name className (VpcName uid name) profile
      local (Some authorized) (sort_by_key remote_key (remote_subnets existing byLocation names name))
      (sort_by_key peer_key peers) [] "" (List.length local =? 0)%nat in
  let labels := <[PlanOwnerLabel := uid]> (<[PlanLocationLabel := name]> (<[ProjectLabel := ns]> ∅)) in
  Ok (mkBinding
        (newMeta (BindingName uid name) (loc_BindingNamespace (default noLocation (locations !! name))) labels ∅)
        (nbs_with_Revision (Revision spec) spec)
        (mkBindingStatus 0 "" "" [] [] [])).

Fixpoint build_locations (build : string -> res NetworkBinding) (names : list string) : res (list NetworkBinding) :=
  match names with
  | [] => Ok []
  | name :: rest => b <-? build name ;; bs <-? build_locations build rest ;; Ok (b :: bs)
  end.

Definition class_name (v : VPC) : string :=
  if (vs_NetworkClassRef (vpc_Spec v) =? "")%string then "default" else vs_NetworkClassRef (vpc_Spec v).

Definition Build (v : VPC) (subnets : list Subnet) (existing : list NetworkBinding) (cfg : PlatformConfig.Config)
    : res (list NetworkBinding) :=
  match NetworkClasses cfg !! class_name v with
  | None => Err (Errorf ("network class " ++ class_name v ++ " is not registered"))
  | Some class =>
      before <-? existing_locations v ∅ existing ;;
      placed <-? place_subnets v cfg before ∅ subnets ;;
      let '(locations, byLocation) := placed in
      let names := sort_strings (map fst (map_to_list locations)) in
      let authorized := List.filter (fun name => negb (List.length (at_location byLocation name) =? 0)%nat) names in
      build_locations
        (build_location v existing (class_name v) (TransportProfile class) locations byLocation names authorized) names
  end.

Arguments Revision : simpl never.
Arguments Short : simpl never.
