(* ===== verification/PlatformPlanFacts.v ===== *)
(** * What [platformplan.Build] promises

    The result of [Build] against an abstract reading of its inputs: which locations
    get a snapshot, what each snapshot exports and imports, and that the order of
    the API lists does not matter. *)
From S2P Require Import Prelude GoStd Json JsonFacts NetIP NetIPFacts Validation SiteConfig Api PlatformConfig PlatformPlan.
Open Scope Z_scope.

Definition location_of (b : NetworkBinding) : string := nb_LocationRef (nb_Spec b).
Definition own (v : VPC) (s : Subnet) : bool := (st_VPCUID (sn_Status s) =? om_UID (vpc_Meta v))%string.
Definition subnet_of (s : Subnet) : BindingSubnet :=
  binding_subnet s (match Prefix (ss_CIDR (sn_Spec s)) with Ok p => p | Err _ => PrefixZero end).
(** The exports of a location, in list order. *)
Definition exports (v : VPC) (subnets : list Subnet) (name : string) : list BindingSubnet :=
  map subnet_of (List.filter (fun s => own v s && (ss_LocationRef (sn_Spec s) =? name)%string) subnets).
(** A subnet the plan accepts. *)
Definition placeable (cfg : PlatformConfig.Config) (s : Subnet) : Prop :=
  is_ok (lookupLocation cfg (ss_LocationRef (sn_Spec s)) (om_Namespace (sn_Meta s))) = true /\
  is_ok (Prefix (ss_CIDR (sn_Spec s))) = true.

Lemma existing_locations_ok v locs existing locs' : existing_locations v locs existing = Ok locs' ->
  (forall b, In b existing -> nb_VPCRef (nb_Spec b) = mkIdentity (om_Namespace (vpc_Meta v)) (oi_Name (nb_VPCRef (nb_Spec b))) (om_UID (vpc_Meta v))) /\
  (forall name, is_Some (locs' !! name) <-> is_Some (locs !! name) \/ exists b, In b existing /\ location_of b = name).
Proof.
  revert locs. induction existing as [|b rest IH]; intros locs; cbn [existing_locations].
  { intros [= ->]. split; [done|]. naive_solver. }
  intros H. follow H. destruct (IH _ H) as [HA HB]. split.
  - intros b' [<-|Hb]; [|auto]. destruct (nb_VPCRef (nb_Spec b)). simpl in *. by subst.
  - intros name. rewrite HB. fold (location_of b). split.
    + intros [Hs|(b' & ? & ?)]; [|right; exists b'; split; [by right|done]].
      destruct (decide (location_of b = name)) as [E|Hne]; [right; exists b; split; [by left|done]|].
      rewrite lookup_insert_ne in Hs by done. by left.
    + intros [Hs|(b' & [<-|Hb] & E)].
      * left. destruct (decide (location_of b = name)) as [<-|Hne]; [by rewrite lookup_insert_eq|by rewrite lookup_insert_ne].
      * left. rewrite <- E. by rewrite lookup_insert_eq.
      * right. eauto.
Qed.

Lemma exports_cons v s subnets name :
  exports v (s :: subnets) name =
  (if own v s && (ss_LocationRef (sn_Spec s) =? name)%string then [subnet_of s] else []) ++ exports v subnets name.
Proof. unfold exports. simpl. by destruct (own v s && _). Qed.

Lemma at_location_insert (m : byLocation_t) n l name :
  at_location (<[n := l]> m) name = if (n =? name)%string then l else at_location m name.
Proof.
  destruct (String.eqb_spec n name) as [->|Hne]; unfold at_location;
    [rewrite lookup_insert_eq|rewrite lookup_insert_ne]; done.
Qed.

Lemma place_subnets_ok v cfg locs byLoc subnets locs' byLoc' :
  place_subnets v cfg locs byLoc subnets = Ok (locs', byLoc') ->
  (forall s, In s subnets -> own v s = true -> placeable cfg s) /\
  (forall name, at_location byLoc' name = at_location byLoc name ++ exports v subnets name) /\
  (forall name, is_Some (locs' !! name) <->
     is_Some (locs !! name) \/ exists s, In s subnets /\ own v s = true /\ ss_LocationRef (sn_Spec s) = name).
Proof.
  revert locs byLoc. induction subnets as [|s rest IH]; intros locs byLoc; cbn [place_subnets].
  { intros [= -> ->]. split; [done|]. split; [intros; by rewrite List.app_nil_r|naive_solver]. }
  fold (own v s). destruct (own v s) eqn:Eo; cbn [negb].
  2:{ intros H. destruct (IH _ _ H) as (H1 & H2 & H3). split; [|split].
      - intros s' [<-|Hs] Hos; [congruence|auto].
      - intros name. rewrite H2, exports_cons, Eo. done.
      - intros name. rewrite H3. split; [intros [|(s' & ? & ?)]; [by left|right; exists s'; auto using in_cons]|].
        intros [|(s' & [<-|Hs] & Ho & ?)]; [by left|congruence|eauto]. }
  intros H. follow H.
  match goal with E : lookupLocation _ _ _ = Ok ?l |- _ => rename l into loc; rename E into EL end.
  match goal with E : Prefix _ = Ok ?q |- _ => rename q into p; rename E into EP end.
  destruct (IH _ _ H) as (H1 & H2 & H3).
  assert (loc_Name loc = ss_LocationRef (sn_Spec s)) as EN by (by eapply find_location_name).
  split; [|split].
  - intros s' [<-|Hs] Hos; [|auto]. split; [by rewrite EL|by rewrite EP].
  - intros name. rewrite H2, exports_cons, Eo, at_location_insert, EN. cbn [andb].
    destruct (String.eqb_spec (ss_LocationRef (sn_Spec s)) name) as [E|]; [|done].
    rewrite <- List.app_assoc, E. unfold subnet_of. rewrite EP. done.
  - intros name. rewrite H3, EN. split.
    + intros [Hs|(s' & ? & ?)]; [|right; exists s'; auto using in_cons].
      destruct (decide (ss_LocationRef (sn_Spec s) = name)) as [E|Hne]; [right; exists s; split; [by left|done]|].
      rewrite lookup_insert_ne in Hs by done. by left.
    + intros [Hs|(s' & [<-|Hs] & Ho & E)].
      * left. destruct (decide (ss_LocationRef (sn_Spec s) = name)) as [<-|Hne]; [by rewrite lookup_insert_eq|by rewrite lookup_insert_ne].
      * left. rewrite E. by rewrite lookup_insert_eq.
      * right. eauto.
Qed.

Lemma build_locations_ok build names bs : build_locations build names = Ok bs ->
  Forall2 (fun name b => build name = Ok b) names bs.
Proof.
  revert bs. induction names as [|name rest IH]; intros bs; simpl.
  - intros [= <-]. constructor.
  - intros H. follow H. injection H as <-. constructor; [done|auto].
Qed.

(** The locations of a plan. *)
Definition plan_names (v : VPC) (subnets : list Subnet) (existing : list NetworkBinding) (name : string) : Prop :=
  (exists b, In b existing /\ location_of b = name) \/
  (exists s, In s subnets /\ own v s = true /\ ss_LocationRef (sn_Spec s) = name).

Lemma map_keys_perm {A} (m : gmap string A) (name : string) :
  In name (map fst (map_to_list m)) <-> is_Some (m !! name).
Proof.
  rewrite in_map_iff. split.
  - intros ([k x] & <- & H). apply list_elem_of_In, elem_of_map_to_list in H. simpl. eauto.
  - intros [x Hx]. exists (name, x). split; [done|]. by apply list_elem_of_In, elem_of_map_to_list.
Qed.

(** Everything a successful [Build] fixes, in terms of its inputs. *)
Record build_run (v : VPC) (subnets : list Subnet) (existing : list NetworkBinding) (cfg : PlatformConfig.Config)
    (bs : list NetworkBinding) (class : NetworkClass) (locations : gmap string Location)
    (byLocation : byLocation_t) (names : list string) : Prop := {
  bn_class : NetworkClasses cfg !! class_name v = Some class;
  bn_names : names = sort_strings (map fst (map_to_list locations));
  bn_in : forall name, In name names <-> plan_names v subnets existing name;
  bn_at : forall name, at_location byLocation name = exports v subnets name;
  bn_own : forall s, In s subnets -> own v s = true -> placeable cfg s;
  bn_existing : forall b, In b existing -> oi_UID (nb_VPCRef (nb_Spec b)) = om_UID (vpc_Meta v);
  bn_bindings : Forall2 (fun name b =>
      build_location v existing (class_name v) (TransportProfile class) locations byLocation names
        (List.filter (fun name => negb (List.length (at_location byLocation name) =? 0)%nat) names) name = Ok b) names bs }.

Lemma Build_run v subnets existing cfg bs : Build v subnets existing cfg = Ok bs ->
  exists class locations byLocation names, build_run v subnets existing cfg bs class locations byLocation names.
Proof.
  unfold Build. intros H. follow H.
  match goal with E : existing_locations _ _ _ = Ok _ |- _ => destruct (existing_locations_ok _ _ _ _ E) as [HE1 HE2] end.
  match goal with E : place_subnets _ _ _ _ _ = Ok _ |- _ => destruct (place_subnets_ok _ _ _ _ _ _ _ E) as (HP1 & HP2 & HP3) end.
  match goal with E : NetworkClasses cfg !! _ = Some ?c |- _ => exists c end.
  do 3 eexists. split; [done|reflexivity| | | | |by apply build_locations_ok].
  - intros name. rewrite sort_strings_in, map_keys_perm, HP3, HE2, lookup_empty. unfold plan_names.
    split; [intros [[[? ?]|]|]; naive_solver|naive_solver].
  - intros name. rewrite HP2. unfold at_location. by rewrite lookup_empty.
  - done.
  - intros b Hb. by rewrite (HE1 b Hb).
Qed.

Lemma keys_nodup {A} (m : gmap string A) : NoDup (map fst (map_to_list m)).
Proof. apply NoDup_fst_map_to_list. Qed.

Lemma build_names_nodup v subnets existing cfg bs class locations byLocation names :
  build_run v subnets existing cfg bs class locations byLocation names -> NoDup names.
Proof. intros [_ -> _ _ _ _ _]. apply sort_by_nodup, keys_nodup. Qed.

(** What [build_location] puts in a snapshot. *)
Lemma build_location_ok v existing className profile locations byLocation names authorized name b :
  build_location v existing className profile locations byLocation names authorized name = Ok b ->
  exists peers, remote_peers byLocation name existing = Ok peers /\
    location_of b = name /\
    om_Name (nb_Meta b) = BindingName (om_UID (vpc_Meta v)) name /\
    nb_VPCRef (nb_Spec b) = mkIdentity (om_Namespace (vpc_Meta v)) (om_Name (vpc_Meta v)) (om_UID (vpc_Meta v)) /\
    nb_TransportProfile (nb_Spec b) = profile /\
    nb_Subnets (nb_Spec b) = sort_by_key bs_UID (at_location byLocation name) /\
    nb_AuthorizedLocations (nb_Spec b) = Some authorized /\
    nb_RemoteSubnets (nb_Spec b) = sort_by_key remote_key (remote_subnets existing byLocation names name) /\
    nb_Peers (nb_Spec b) = sort_by_key peer_key peers /\
    nb_Deleting (nb_Spec b) = (List.length (at_location byLocation name) =? 0)%nat /\
    get (om_Labels (nb_Meta b)) PlanOwnerLabel = om_UID (vpc_Meta v).
Proof.
  unfold build_location. intros H. follow H. injection H as <-. eexists. split; [reflexivity|].
  cbn. unfold sort_by_key. rewrite sort_by_length. repeat (split; [reflexivity|]).
  unfold get. by rewrite lookup_insert_eq.
Qed.

Lemma build_run_in v subnets existing cfg bs class locations byLocation names b :
  build_run v subnets existing cfg bs class locations byLocation names -> In b bs ->
  In (location_of b) names /\
  build_location v existing (class_name v) (TransportProfile class) locations byLocation names
        (List.filter (fun name => negb (List.length (at_location byLocation name) =? 0)%nat) names) (location_of b) = Ok b.
Proof.
  intros [_ _ _ _ _ _ HF] Hb. destruct (Forall2_in_r _ _ _ _ HF Hb) as (name & Hin & HB).
  pose proof (build_location_ok _ _ _ _ _ _ _ _ _ _ HB) as (_ & _ & EL & _). by rewrite EL.
Qed.

Lemma build_run_locations v subnets existing cfg bs class locations byLocation names :
  build_run v subnets existing cfg bs class locations byLocation names -> map location_of bs = names.
Proof.
  intros [_ _ _ _ _ _ HF]. revert HF. generalize names at 1 2 as ns. intros ns HF.
  induction HF as [|name b ns' bs' HB HF IH]; [done|]. simpl. f_equal; [|done].
  by apply build_location_ok in HB as (_ & _ & ? & _).
Qed.

(** ** Locations, exports and imports *)

Lemma exports_in v subnets name bs :
  In bs (exports v subnets name) <->
  exists s, In s subnets /\ own v s = true /\ ss_LocationRef (sn_Spec s) = name /\ bs = subnet_of s.
Proof.
  unfold exports. rewrite in_map_iff. setoid_rewrite filter_In. setoid_rewrite andb_true_iff.
  setoid_rewrite String.eqb_eq. naive_solver.
Qed.

Lemma exports_nil v subnets name :
  exports v subnets name = [] <-> ~ exists s, In s subnets /\ own v s = true /\ ss_LocationRef (sn_Spec s) = name.
Proof.
  split.
  - intros E (s & Hs & Ho & Hl). assert (In (subnet_of s) (exports v subnets name)) as H by (apply exports_in; eauto).
    by rewrite E in H.
  - intros HN. destruct (exports v subnets name) as [|x l] eqn:E; [done|]. exfalso. apply HN.
    assert (In x (exports v subnets name)) as H by (rewrite E; by left).
    apply exports_in in H as (s & ? & ? & ? & _). eauto.
Qed.

Lemma length_zero {A} (l : list A) : (List.length l =? 0)%nat = true <-> l = [].
Proof. destruct l; simpl; split; done. Qed.

Lemma Build_locations_ok v subnets existing cfg bs : Build v subnets existing cfg = Ok bs ->
  NoDup (map location_of bs) /\
  (forall name, In name (map location_of bs) <-> plan_names v subnets existing name) /\
  Forall (fun b => om_Name (nb_Meta b) = BindingName (om_UID (vpc_Meta v)) (location_of b) /\
                   oi_UID (nb_VPCRef (nb_Spec b)) = om_UID (vpc_Meta v)) bs.
Proof.
  intros (class & locs & byLoc & names & HR)%Build_run.
  rewrite (build_run_locations _ _ _ _ _ _ _ _ _ HR).
  split; [by eapply build_names_nodup|]. split; [apply (bn_in _ _ _ _ _ _ _ _ _ HR)|].
  rewrite List.Forall_forall. intros b Hb. destruct (build_run_in _ _ _ _ _ _ _ _ _ _ HR Hb) as [_ HB].
  apply build_location_ok in HB as (_ & _ & _ & HN & HV & _). by rewrite HV.
Qed.

Lemma Build_exports_ok v subnets existing cfg bs b : Build v subnets existing cfg = Ok bs -> In b bs ->
  Permutation (nb_Subnets (nb_Spec b)) (exports v subnets (location_of b)) /\
  (nb_Deleting (nb_Spec b) = true <-> ~ exists s, In s subnets /\ own v s = true /\ ss_LocationRef (sn_Spec s) = location_of b) /\
  exists authorized, nb_AuthorizedLocations (nb_Spec b) = Some authorized /\
    forall name, In name authorized <-> exists s, In s subnets /\ own v s = true /\ ss_LocationRef (sn_Spec s) = name.
Proof.
  intros (class & locs & byLoc & names & HR)%Build_run Hb.
  destruct (build_run_in _ _ _ _ _ _ _ _ _ _ HR Hb) as [_ HB].
  apply build_location_ok in HB as (peers & _ & _ & _ & _ & _ & HS & HA & _ & _ & HD & _).
  pose proof (bn_at _ _ _ _ _ _ _ _ _ HR) as Hat. rewrite HS, HD, Hat, length_zero, exports_nil.
  split; [apply sort_by_key_perm|]. split; [done|]. eexists. split; [exact HA|]. intros name.
  rewrite filter_In, Hat, negb_true_iff, <- not_true_iff_false, length_zero, exports_nil.
  rewrite (bn_in _ _ _ _ _ _ _ _ _ HR). unfold plan_names. split.
  - intros [_ H]. destruct (exports v subnets name) as [|x l] eqn:E.
    + exfalso. apply H. by apply exports_nil.
    + assert (In x (exports v subnets name)) as Hin by (rewrite E; by left).
      apply exports_in in Hin as (s & ? & ? & ? & _). eauto.
  - intros H. split; [by right|]. tauto.
Qed.

(** A snapshot imports exactly the subnets of the other locations that
    are not both deleting and acknowledged as withdrawn by their location. *)
Lemma Build_imports v subnets existing cfg bs b remote cidr :
  Build v subnets existing cfg = Ok bs -> In b bs ->
  In (mkRemoteSubnet remote cidr) (nb_RemoteSubnets (nb_Spec b)) <->
  remote <> location_of b /\
  exists s, In s subnets /\ own v s = true /\ ss_LocationRef (sn_Spec s) = remote /\ ss_CIDR (sn_Spec s) = cidr /\
    (om_DeletionTimestamp (sn_Meta s) = None \/ withdrawn existing remote (SubnetName (om_UID (sn_Meta s))) = false).
Proof.
  intros (class & locs & byLoc & names & HR)%Build_run Hb.
  destruct (build_run_in _ _ _ _ _ _ _ _ _ _ HR Hb) as [_ HB].
  apply build_location_ok in HB as (peers & _ & _ & _ & _ & _ & _ & _ & HM & _).
  rewrite HM, sort_by_key_in. unfold remote_subnets. rewrite in_flat_map. split.
  - intros (r & Hr & Hin). destruct (String.eqb_spec r (location_of b)) as [|Hne]; [done|].
    apply in_map_iff in Hin as (x & [= <- <-] & Hx). apply filter_In in Hx as [Hx Hd].
    rewrite (bn_at _ _ _ _ _ _ _ _ _ HR) in Hx. apply exports_in in Hx as (s & Hs & Ho & Hl & ->).
    split; [done|]. exists s. do 4 (split; [done|]). apply orb_true_iff in Hd as [Hd|Hd]; breflect.
    + left. simpl in Hd. breflect. by apply dec_stable.
    + by right.
  - intros (Hne & s & Hs & Ho & Hl & Hc & Hd). exists remote. split.
    { apply (bn_in _ _ _ _ _ _ _ _ _ HR). right. eauto. }
    destruct (String.eqb_spec remote (location_of b)) as [|_]; [done|].
    apply in_map_iff. exists (subnet_of s). split; [simpl; by rewrite Hc|]. apply filter_In.
    rewrite (bn_at _ _ _ _ _ _ _ _ _ HR). split; [apply exports_in; eauto|].
    apply orb_true_iff. destruct Hd as [Hd|Hd]; [left; simpl; rewrite Hd; by case_bool_decide|right; simpl; by rewrite Hd].
Qed.

(** ** Peers *)

Lemma location_peers_ok name remote ids nodes gs peers : location_peers name remote ids nodes gs = Ok peers ->
  Forall (fun g => gateway_ok g = true) gs /\
  peers = map (fun g => mkPeer remote (ge_with_Links (List.filter (fun l => HasPrefix (gl_PeerID l) (name ++ "/")) (ge_Links g))
                                         (ge_with_Ready false g))) gs /\
  NoDup (map ge_ID gs) /\ NoDup (map ge_NodeUID gs) /\
  (forall g, In g gs -> ge_ID g ∉ ids /\ ge_NodeUID g ∉ nodes).
Proof.
  revert ids nodes peers. induction gs as [|g gs IH]; intros ids nodes peers; cbn [location_peers].
  { intros [= <-]. repeat split; try constructor; done. }
  intros H. follow H. injection H as <-.
  match goal with E : location_peers _ _ _ _ gs = _ |- _ => destruct (IH _ _ _ E) as (HA & -> & N1 & N2 & HS) end.
  split; [by constructor|]. split; [done|]. simpl map. rewrite !NoDup_cons.
  refine (conj (conj _ N1) (conj (conj _ N2) _)).
  - intros (y & E & Hy)%list_elem_of_In%in_map_iff. destruct (HS y Hy) as [HS1 _]. rewrite E in HS1. set_solver.
  - intros (y & E & Hy)%list_elem_of_In%in_map_iff. destruct (HS y Hy) as [_ HS1]. rewrite E in HS1. set_solver.
  - intros y [<-|Hy]; [done|]. destruct (HS _ Hy). set_solver.
Qed.

Lemma remote_peers_in byLoc name existing peers : remote_peers byLoc name existing = Ok peers ->
  forall p, In p peers <-> exists b g, In b existing /\ location_of b <> name /\ at_location byLoc (location_of b) <> [] /\
    In g (bt_Gateways (nb_Status b)) /\
    p = mkPeer (location_of b) (ge_with_Links (List.filter (fun l => HasPrefix (gl_PeerID l) (name ++ "/")) (ge_Links g))
                                  (ge_with_Ready false g)).
Proof.
  revert peers. induction existing as [|b rest IH]; intros peers; cbn [remote_peers].
  { intros [= <-] p. split; [done|]. by intros (? & ? & [] & _). }
  fold (location_of b). destruct ((location_of b =? name)%string || _) eqn:E.
  - intros H p. rewrite (IH _ H). split; [intros (b' & g & Hb & ?); exists b', g; split; [by right|done]|].
    intros (b' & g & [<-|Hb] & Hn & Ha & ?); [|by exists b', g].
    apply orb_true_iff in E as [E|E]; [by breflect|]. by apply length_zero in E.
  - apply orb_false_iff in E as [E1 E2]. intros H p. follow H. injection H as <-. rewrite in_app_iff.
    match goal with X : location_peers _ _ _ _ _ = Ok _ |- _ => apply location_peers_ok in X as (_ & -> & _) end.
    rewrite (IH _ eq_refl).
    rewrite in_map_iff. split.
    + intros [(g & <- & Hg)|(b' & g & Hb & ?)]; [|exists b', g; split; [by right|done]].
      exists b, g. split; [by left|]. split; [done|]. split; [|done]. intros Hz. by rewrite Hz in E2.
    + intros (b' & g & [<-|Hb] & Hn & Ha & Hg & ->); [left; by exists g|right; by exists b', g].
Qed.

(** Every peer of a snapshot is a registered gateway of another, authorized
    location, carries no readiness, and shows only the links to this location. *)
Lemma Build_peers v subnets existing cfg bs b p :
  Build v subnets existing cfg = Ok bs -> In b bs -> In p (nb_Peers (nb_Spec b)) ->
  pg_LocationRef p <> location_of b /\
  (exists s, In s subnets /\ own v s = true /\ ss_LocationRef (sn_Spec s) = pg_LocationRef p) /\
  ge_Ready (pg_Endpoint p) = false /\
  (exists r g, In r existing /\ location_of r = pg_LocationRef p /\ In g (bt_Gateways (nb_Status r)) /\
     ge_ID g = ge_ID (pg_Endpoint p) /\ ge_EndpointIP g = ge_EndpointIP (pg_Endpoint p)) /\
  Forall (fun l => HasPrefix (gl_PeerID l) (location_of b ++ "/") = true) (ge_Links (pg_Endpoint p)).
Proof.
  intros (class & locs & byLoc & names & HR)%Build_run Hb Hp.
  destruct (build_run_in _ _ _ _ _ _ _ _ _ _ HR Hb) as [_ HB].
  apply build_location_ok in HB as (peers & HP & _ & _ & _ & _ & _ & _ & _ & HM & _).
  rewrite HM, sort_by_key_in in Hp. rewrite (remote_peers_in _ _ _ _ HP) in Hp.
  destruct Hp as (r & g & Hr & Hn & Ha & Hg & ->). cbn [pg_LocationRef pg_Endpoint].
  split; [done|]. split.
  { rewrite (bn_at _ _ _ _ _ _ _ _ _ HR) in Ha. destruct (exports v subnets (location_of r)) as [|x l] eqn:E; [done|].
    assert (In x (exports v subnets (location_of r))) as Hin by (rewrite E; by left).
    apply exports_in in Hin as (s & ? & ? & ? & _). eauto. }
  split; [done|]. split; [exists r, g; auto|]. rewrite List.Forall_forall. intros l Hl. by apply filter_In in Hl as [_ Hl].
Qed.

(** A plan has exactly one snapshot, under its derived name, for every location with a binding or an
    admitted subnet. Each carries exactly the admitted subnets of its location, is a tombstone exactly when
    there are none, authorizes exactly the locations with subnets, imports exactly the subnets of the others
    that are not both deleting and withdrawn there, and has as peers only registered gateways of other
    authorized locations, without readiness and with the links to this location alone. *)
Theorem snapshots_follow_the_topology v subnets existing cfg bs : Build v subnets existing cfg = Ok bs ->
  (NoDup (map location_of bs) /\ (forall name, In name (map location_of bs) <-> plan_names v subnets existing name) /\
   Forall (fun b => om_Name (nb_Meta b) = BindingName (om_UID (vpc_Meta v)) (location_of b) /\
                    oi_UID (nb_VPCRef (nb_Spec b)) = om_UID (vpc_Meta v)) bs) /\
  forall b, In b bs ->
    (Permutation (nb_Subnets (nb_Spec b)) (exports v subnets (location_of b)) /\
     (nb_Deleting (nb_Spec b) = true <-> ~ exists s, In s subnets /\ own v s = true /\ ss_LocationRef (sn_Spec s) = location_of b) /\
     exists authorized, nb_AuthorizedLocations (nb_Spec b) = Some authorized /\
       forall name, In name authorized <-> exists s, In s subnets /\ own v s = true /\ ss_LocationRef (sn_Spec s) = name) /\
    (forall remote cidr, In (mkRemoteSubnet remote cidr) (nb_RemoteSubnets (nb_Spec b)) <->
       remote <> location_of b /\
       exists s, In s subnets /\ own v s = true /\ ss_LocationRef (sn_Spec s) = remote /\ ss_CIDR (sn_Spec s) = cidr /\
         (om_DeletionTimestamp (sn_Meta s) = None \/ withdrawn existing remote (SubnetName (om_UID (sn_Meta s))) = false)) /\
    (forall p, In p (nb_Peers (nb_Spec b)) ->
       pg_LocationRef p <> location_of b /\
       (exists s, In s subnets /\ own v s = true /\ ss_LocationRef (sn_Spec s) = pg_LocationRef p) /\
       ge_Ready (pg_Endpoint p) = false /\
       (exists r g, In r existing /\ location_of r = pg_LocationRef p /\ In g (bt_Gateways (nb_Status r)) /\
          ge_ID g = ge_ID (pg_Endpoint p) /\ ge_EndpointIP g = ge_EndpointIP (pg_Endpoint p)) /\
       Forall (fun l => HasPrefix (gl_PeerID l) (location_of b ++ "/") = true) (ge_Links (pg_Endpoint p))).
Proof.
  intros HB. split; [by eapply Build_locations_ok|]. intros b Hb. split; [by eapply Build_exports_ok|]. split.
  - intros remote cidr. by eapply Build_imports.
  - intros p Hp. by eapply Build_peers.
Qed.

(** * The order of the API lists does not change a plan

    [Build] reads subnets and bindings from API lists in no particular order and
    iterates over maps; its snapshots, and so their revisions, do not depend on it. *)

Section fold_insert.
Context {A V : Type} (k : A -> string) (val : A -> V).
Definition fold_insert (m : gmap string V) (l : list A) : gmap string V := foldl (fun m a => <[k a := val a]> m) m l.
Definition functional (l : list A) : Prop := forall a b, In a l -> In b l -> k a = k b -> val a = val b.

Lemma fold_insert_lookup l m n x : functional l ->
  fold_insert m l !! n = Some x <->
  (exists a, In a l /\ k a = n /\ val a = x) \/ ((~ exists a, In a l /\ k a = n) /\ m !! n = Some x).
Proof.
  unfold fold_insert. induction l as [|a l IH] using rev_ind; intros HF; [naive_solver|].
  rewrite foldl_app. cbn [foldl]. destruct (decide (k a = n)) as [<-|Hne].
  - rewrite lookup_insert_eq. split.
    + intros [= <-]. left. exists a. split; [apply in_app_iff; right; by left|done].
    + intros [(b & Hb & E & <-)|[HN _]].
      * f_equal. symmetry. apply HF; [done|apply in_app_iff; right; by left|done].
      * exfalso. apply HN. exists a. split; [apply in_app_iff; right; by left|done].
  - rewrite lookup_insert_ne by done. rewrite IH.
    2:{ intros b c Hb Hc. apply HF; apply in_app_iff; by left. }
    setoid_rewrite in_app_iff. simpl. split.
    + intros [(b & ? & ? & ?)|[HN ?]]; [left; eauto|right]. split; [|done].
      intros (b & [Hb|[->|[]]] & ?); [eauto|done].
    + intros [(b & [Hb|[->|[]]] & ? & ?)|[HN ?]]; [left; eauto|done|right]. split; [|done].
      intros (b & ? & ?). eauto.
Qed.

Lemma fold_insert_perm l l' m : functional l -> Permutation l l' -> fold_insert m l = fold_insert m l'.
Proof.
  intros HF HP. apply map_eq. intros n. apply option_eq. intros x.
  assert (forall a, In a l <-> In a l') as Hin.
  { intros a. split; apply Permutation_in; [done|by symmetry]. }
  rewrite !fold_insert_lookup; [by setoid_rewrite Hin| |done].
  intros a b Ha Hb. apply HF; by apply Hin.
Qed.
End fold_insert.

(** ** The two loops as folds *)

Definition own_binding (v : VPC) (b : NetworkBinding) : bool :=
  (oi_UID (nb_VPCRef (nb_Spec b)) =? om_UID (vpc_Meta v))%string &&
  (oi_Namespace (nb_VPCRef (nb_Spec b)) =? om_Namespace (vpc_Meta v))%string.
Definition bound_location (b : NetworkBinding) : Location :=
  mkLocation (location_of b) "" "" "" (om_Namespace (nb_Meta b)) [] [].

Lemma existing_locations_fold v locs existing locs' :
  existing_locations v locs existing = Ok locs' <->
  Forall (fun b => own_binding v b = true) existing /\ locs' = fold_insert location_of bound_location locs existing.
Proof.
  revert locs. induction existing as [|b rest IH]; intros locs; cbn [existing_locations].
  { split; [by intros [= ->]|by intros [_ ->]]. }
  assert ((negb (oi_UID (nb_VPCRef (nb_Spec b)) =? om_UID (vpc_Meta v))%string ||
           negb (oi_Namespace (nb_VPCRef (nb_Spec b)) =? om_Namespace (vpc_Meta v))%string) = negb (own_binding v b)) as ->.
  { unfold own_binding. by rewrite negb_andb. }
  rewrite List.Forall_cons_iff. destruct (own_binding v b); cbn [negb]; [|split; [done|by intros [[? _] _]]].
  rewrite IH. unfold fold_insert. cbn [foldl]. tauto.
Qed.

Definition configured (cfg : PlatformConfig.Config) (s : Subnet) : Location :=
  match lookupLocation cfg (ss_LocationRef (sn_Spec s)) (om_Namespace (sn_Meta s)) with
  | Ok l => l | Err _ => noLocation
  end.
Definition subnet_location (s : Subnet) : string := ss_LocationRef (sn_Spec s).

Lemma place_subnets_fold v cfg locs byLoc subnets :
  Forall (fun s => own v s = true -> placeable cfg s) subnets ->
  exists byLoc', place_subnets v cfg locs byLoc subnets =
    Ok (fold_insert subnet_location (configured cfg) locs (List.filter (own v) subnets), byLoc').
Proof.
  revert locs byLoc. induction subnets as [|s rest IH]; intros locs byLoc HF; cbn [place_subnets List.filter]; [by eexists|].
  inversion HF as [|?? Hs HF']; subst. fold (own v s). destruct (own v s); cbn [negb]; [|by apply IH].
  destruct (Hs eq_refl) as [HL HP].
  destruct (lookupLocation cfg _ _) as [l|] eqn:EL; [|done]. destruct (Prefix _) as [p|]; [|done].
  destruct (IH (<[loc_Name l := l]> locs) (<[loc_Name l := at_location byLoc (loc_Name l) ++ [binding_subnet s p]]> byLoc) HF') as [byLoc' ->].
  exists byLoc'. unfold fold_insert. cbn [foldl]. unfold configured at 3. rewrite EL.
  by rewrite (find_location_name _ _ _ _ EL).
Qed.

Lemma find_location_det name p1 p2 l x1 x2 :
  find_location name p1 l = Ok x1 -> find_location name p2 l = Ok x2 -> x1 = x2.
Proof.
  induction l as [|y l IH]; simpl; [done|]. destruct (negb _); [done|].
  destruct (existsb _ _); [|done]. destruct (existsb (String.eqb p2) _); [|done]. congruence.
Qed.

Lemma configured_functional v cfg subnets :
  (forall s, In s subnets -> own v s = true -> placeable cfg s) ->
  functional subnet_location (configured cfg) (List.filter (own v) subnets).
Proof.
  intros HP s t [Hs Os]%filter_In [Ht Ot]%filter_In E.
  destruct (HP s Hs Os) as [Ls _], (HP t Ht Ot) as [Lt _]. unfold configured, subnet_location in *.
  rewrite E in *. destruct (lookupLocation cfg _ _) eqn:E1; [|done].
  destruct (lookupLocation cfg _ (om_Namespace (sn_Meta t))) eqn:E2; [|done].
  by eapply find_location_det.
Qed.

(** ** Sorting keys are injective *)

Lemma remote_key_inj r1 r2 : no_slash (rs_LocationRef r1) = true -> no_slash (rs_LocationRef r2) = true ->
  remote_key r1 = remote_key r2 -> r1 = r2.
Proof. destruct r1, r2. unfold remote_key. simpl. intros H1 H2 E. by destruct (slash_inj _ _ _ _ H1 H2 E) as [-> ->]. Qed.

(** ** The pieces of a snapshot *)

Lemma withdrawn_perm existing existing' loc name : NoDup (map location_of existing) ->
  Permutation existing existing' -> withdrawn existing loc name = withdrawn existing' loc name.
Proof.
  intros HN HP. induction HP as [|b l l' HP IH|a b l|l l' l'' HP1 IH1 HP2 IH2]; cbn [withdrawn].
  - done.
  - simpl in HN. apply NoDup_cons in HN as [_ HN]. by rewrite IH.
  - fold (location_of a) (location_of b). simpl in HN.
    destruct (String.eqb_spec (location_of a) loc) as [Ea|]; [|done].
    destruct (String.eqb_spec (location_of b) loc) as [Eb|]; [|done].
    exfalso. apply NoDup_cons in HN as [HN _]. apply HN. rewrite Ea, Eb. by left.
  - rewrite IH1 by done. apply IH2. by rewrite <- HP1.
Qed.

Lemma remote_peers_perm byLoc byLoc' name existing existing' peers :
  (forall n, Permutation (at_location byLoc n) (at_location byLoc' n)) -> Permutation existing existing' ->
  remote_peers byLoc name existing = Ok peers ->
  exists peers', remote_peers byLoc' name existing' = Ok peers' /\ Permutation peers peers'.
Proof.
  intros HL HP. revert peers.
  assert (forall n, (List.length (at_location byLoc n) =? 0)%nat = (List.length (at_location byLoc' n) =? 0)%nat) as Hlen
    by (intros n; by rewrite (Permutation_length (HL n))).
  induction HP as [|b l l' HP IH|a b l|l l' l'' HP1 IH1 HP2 IH2]; intros peers; cbn [remote_peers].
  - intros [= <-]. by exists [].
  - rewrite <- Hlen. destruct (_ || _); [apply IH|].
    intros H. follow H. injection H as <-. destruct (IH _ eq_refl) as (ps & -> & HPP).
    eexists. split; [reflexivity|]. by rewrite HPP.
  - assert (remote_peers byLoc' name l = remote_peers byLoc name l) as El.
    { clear -Hlen. induction l as [|b l IH]; cbn [remote_peers]; [done|]. rewrite <- Hlen.
      destruct (_ || _); [done|]. by rewrite IH. }
    rewrite <- !Hlen, El. intros H.
    destruct (_ || _); [|destruct (location_peers name _ ∅ ∅ (bt_Gateways (nb_Status b))) as [pb|] eqn:Eb; [|done]];
    (destruct ((nb_LocationRef (nb_Spec a) =? name)%string || _);
       [|destruct (location_peers name _ ∅ ∅ (bt_Gateways (nb_Status a))) as [pa|] eqn:Ea; [|done]]);
    try (destruct (remote_peers byLoc name l) as [pl|] eqn:Er; [|done]); injection H as <-;
    (eexists; split; [reflexivity|]); try done.
    rewrite !List.app_assoc. by rewrite (Permutation_app_comm pb pa).
  - intros H. destruct (IH1 _ H) as (ps & H1 & P1).
    assert (remote_peers byLoc name l' = remote_peers byLoc' name l') as El.
    { clear -Hlen. induction l' as [|b l' IH]; cbn [remote_peers]; [done|]. rewrite <- Hlen.
      destruct (_ || _); [done|]. by rewrite IH. }
    destruct (IH2 ps) as (ps' & H2 & P2); [by rewrite El|]. exists ps'. split; [done|]. by rewrite P1.
Qed.

Lemma remote_subnets_perm existing existing' byLoc byLoc' names name : NoDup (map location_of existing) ->
  (forall n, Permutation (at_location byLoc n) (at_location byLoc' n)) -> Permutation existing existing' ->
  Permutation (remote_subnets existing byLoc names name) (remote_subnets existing' byLoc' names name).
Proof.
  intros HN HL HP. unfold remote_subnets. induction names as [|r names IH]; simpl; [done|].
  apply Permutation_app; [|done]. destruct (r =? name)%string; [done|]. apply Permutation_map.
  apply filter_permutation; [|done]. intros x _. by rewrite (withdrawn_perm _ _ _ _ HN HP).
Qed.

Lemma remote_peers_nodup byLoc name existing peers b : remote_peers byLoc name existing = Ok peers ->
  In b existing -> location_of b <> name -> at_location byLoc (location_of b) <> [] ->
  NoDup (map ge_ID (bt_Gateways (nb_Status b))).
Proof.
  revert peers. induction existing as [|a rest IH]; intros peers; [done|]. cbn [remote_peers]. fold (location_of a).
  intros H Hb Hn Ha. destruct (_ || _) eqn:E.
  - destruct Hb as [->|Hb]; [|by eapply IH]. apply orb_true_iff in E as [E|E]; [by breflect|by apply length_zero in E].
  - follow H. destruct Hb as [->|Hb]; [|by eapply IH].
    match goal with X : location_peers _ _ _ _ _ = Ok _ |- _ => by apply location_peers_ok in X as (_ & _ & ? & _) end.
Qed.

Lemma peer_key_inj byLoc name existing peers p q : remote_peers byLoc name existing = Ok peers ->
  NoDup (map location_of existing) -> (forall b, In b existing -> no_slash (location_of b) = true) ->
  In p peers -> In q peers -> peer_key p = peer_key q -> p = q.
Proof.
  intros HP HN HS (b & g & Hb & Hnb & Hab & Hg & ->)%(remote_peers_in _ _ _ _ HP)
    (c & g' & Hc & Hnc & Hac & Hg' & ->)%(remote_peers_in _ _ _ _ HP).
  unfold peer_key. cbn [pg_LocationRef pg_Endpoint ge_ID ge_with_Links ge_with_Ready]. intros E.
  destruct (slash_inj _ _ _ _ (HS _ Hb) (HS _ Hc) E) as [El Ei].
  assert (b = c) as <- by (by eapply nodup_map_inj).
  assert (g = g') as <- by (eapply nodup_map_inj; [by eapply (remote_peers_nodup byLoc name existing)| | |]; done).
  done.
Qed.

Lemma build_location_perm v existing existing' className profile locations byLoc byLoc' names authorized name b :
  NoDup (map location_of existing) -> (forall b, In b existing -> no_slash (location_of b) = true) ->
  Forall (fun n => no_slash n = true) names -> Permutation existing existing' ->
  (forall n, Permutation (at_location byLoc n) (at_location byLoc' n)) ->
  (forall n, NoDup (map bs_UID (at_location byLoc n))) ->
  build_location v existing className profile locations byLoc names authorized name = Ok b ->
  build_location v existing' className profile locations byLoc' names authorized name = Ok b.
Proof.
  intros HN HS HSn HP HL HU. unfold build_location. intros H. follow H.
  match goal with E : remote_peers _ _ _ = Ok _ |- _ => rename E into ER end.
  destruct (remote_peers_perm _ _ _ _ _ _ HL HP ER) as (peers' & -> & HPP). rewrite <- H.
  assert (sort_by_key bs_UID (at_location byLoc' name) = sort_by_key bs_UID (at_location byLoc name)) as ->.
  { symmetry. apply sort_by_key_perm_eq; [|apply HL]. intros x y. by apply nodup_map_inj. }
  assert (sort_by_key remote_key (remote_subnets existing' byLoc' names name) =
          sort_by_key remote_key (remote_subnets existing byLoc names name)) as ->.
  { symmetry. apply sort_by_key_perm_eq; [|by apply remote_subnets_perm].
    assert (forall x, In x (remote_subnets existing byLoc names name) -> no_slash (rs_LocationRef x) = true) as Hs.
    { intros x Hx. unfold remote_subnets in Hx. apply in_flat_map in Hx as (r & Hr & Hx).
      destruct (r =? name)%string; [done|]. apply in_map_iff in Hx as (y & <- & _).
      rewrite List.Forall_forall in HSn. by apply HSn. }
    intros x y Hx Hy. apply remote_key_inj; auto. }
  assert (sort_by_key peer_key peers' = sort_by_key peer_key a) as ->; [|done].
  symmetry. apply sort_by_key_perm_eq; [|done]. intros x y. by eapply peer_key_inj.
Qed.

(** ** The theorem *)

Lemma own_filter_perm v subnets subnets' name : Permutation subnets subnets' ->
  Permutation (exports v subnets name) (exports v subnets' name).
Proof. intros HP. unfold exports. apply Permutation_map. by apply filter_permutation. Qed.

Lemma nodup_map_filter {A B} (f : A -> B) (P : A -> bool) l : NoDup (map f l) -> NoDup (map f (List.filter P l)).
Proof.
  induction l as [|x l IH]; simpl; [done|]. rewrite NoDup_cons. intros [HN HD].
  destruct (P x); simpl; [|auto]. apply NoDup_cons. split; [|auto].
  intros (y & E & Hy)%list_elem_of_In%in_map_iff. apply filter_In in Hy as [Hy _].
  apply HN. rewrite <- E. apply list_elem_of_In. by apply in_map.
Qed.

Lemma exports_nodup v subnets name : NoDup (map (fun s => om_UID (sn_Meta s)) subnets) ->
  NoDup (map bs_UID (exports v subnets name)).
Proof. intros H. unfold exports. rewrite map_map. by apply (nodup_map_filter (fun s => om_UID (sn_Meta s))). Qed.

Lemma Build_parts v subnets existing cfg bs : Build v subnets existing cfg = Ok bs ->
  Forall (fun b => own_binding v b = true) existing /\
  (forall s, In s subnets -> own v s = true -> placeable cfg s).
Proof.
  unfold Build. intros H. follow H.
  match goal with E : existing_locations _ _ _ = Ok _ |- _ => apply existing_locations_fold in E as [HE _] end.
  match goal with E : place_subnets _ _ _ _ _ = Ok _ |- _ => destruct (place_subnets_ok _ _ _ _ _ _ _ E) as (HP1 & _) end.
  done.
Qed.

(** A plan does not depend on the order in which the API lists subnets
    and bindings: with one binding per location, distinct subnet UIDs and location
    names without a slash, every permutation of both lists builds the same snapshots. *)
Theorem Build_order_independent v subnets subnets' existing existing' cfg bs :
  NoDup (map location_of existing) -> NoDup (map (fun s => om_UID (sn_Meta s)) subnets) ->
  (forall name, plan_names v subnets existing name -> no_slash name = true) ->
  Permutation subnets subnets' -> Permutation existing existing' ->
  Build v subnets existing cfg = Ok bs -> Build v subnets' existing' cfg = Ok bs.
Proof.
  intros HN HU HS HPs HPe HB. destruct (Build_parts _ _ _ _ _ HB) as [HE HPl].
  unfold Build in *. destruct (NetworkClasses cfg !! _) as [class|]; [|done].
  pose proof (proj2 (existing_locations_fold v ∅ existing _) (conj HE eq_refl)) as E0.
  destruct (existing_locations_ok _ _ _ _ E0) as [_ HL0]. rewrite E0 in HB.
  rewrite (proj2 (existing_locations_fold v ∅ existing' _) (conj (Permutation_Forall HPe HE) eq_refl)).
  destruct (place_subnets_fold v cfg (fold_insert location_of bound_location ∅ existing) ∅ subnets) as [byLoc E1].
  { by rewrite List.Forall_forall. }
  destruct (place_subnets_fold v cfg (fold_insert location_of bound_location ∅ existing') ∅ subnets') as [byLoc' E2].
  { rewrite List.Forall_forall. intros s Hs. apply HPl. eapply Permutation_in; [symmetry; exact HPs|done]. }
  destruct (place_subnets_ok _ _ _ _ _ _ _ E1) as (_ & A1 & HL1).
  destruct (place_subnets_ok _ _ _ _ _ _ _ E2) as (_ & A2 & _).
  rewrite E1 in HB. rewrite E2.
  assert (fold_insert subnet_location (configured cfg) (fold_insert location_of bound_location ∅ existing') (List.filter (own v) subnets') =
          fold_insert subnet_location (configured cfg) (fold_insert location_of bound_location ∅ existing) (List.filter (own v) subnets)) as ->.
  { rewrite (fold_insert_perm location_of bound_location existing existing'); [|intros a b Ha Hb E; f_equal; by eapply nodup_map_inj|done].
    symmetry. apply fold_insert_perm; [by apply (configured_functional v)|by apply filter_permutation]. }
  set (locs := fold_insert subnet_location _ _ _) in *. set (names := sort_strings (map fst (map_to_list locs))) in *.
  assert (forall n, Permutation (at_location byLoc n) (at_location byLoc' n)) as A3.
  { intros n. rewrite A1, A2. unfold at_location. rewrite lookup_empty. simpl. by apply own_filter_perm. }
  assert (Forall (fun n => no_slash n = true) names) as HSn.
  { rewrite List.Forall_forall. intros n Hn. apply sort_strings_in, map_keys_perm in Hn. apply HS. rewrite HL1, HL0 in Hn.
    unfold plan_names. destruct Hn as [[Hn|Hn]|Hn]; [by destruct Hn|by left|by right]. }
  replace (List.filter (fun name => negb (List.length (at_location byLoc' name) =? 0)%nat) names)
     with (List.filter (fun name => negb (List.length (at_location byLoc name) =? 0)%nat) names).
  2:{ clear -A3. induction names as [|n ns IH]; simpl; [done|]. by rewrite (Permutation_length (A3 n)), IH. }
  set (authorized := List.filter _ names) in *. clearbody authorized.
  apply build_locations_ok in HB. revert HB. generalize names at 2 4. intros todo HB.
  induction HB as [|n b todo bs Hb HB IH]; simpl; [done|].
  rewrite (build_location_perm v existing existing' _ _ _ byLoc byLoc' names authorized n b); try assumption.
  - by rewrite IH.
  - intros b' Hb'. apply HS. left. by exists b'.
  - intros n'. rewrite A1. unfold at_location. rewrite lookup_empty. by apply exports_nodup.
Qed.

(** * What a revision identifies

    [Revision] hashes the JSON of a snapshot without its revision and without peer
    readiness. Readiness changes never change it; two snapshots with one revision
    are the same intent, up to a SHA-256 collision. *)

(** ** Encoded records *)

(** [keyed k e]: the entry, when present, has key [k]. *)
Definition keyed (k : string) (e : option (string * json)) : Prop := forall kv, e = Some kv -> fst kv = k.

Lemma keyed_req k j : keyed k (req k j). Proof. by intros kv [= <-]. Qed.
Lemma keyed_str k s : keyed k (opt_str k s). Proof. unfold opt_str. intros kv. case_match; by intros [= <-]. Qed.
Lemma keyed_int k z : keyed k (opt_int k z). Proof. unfold opt_int. intros kv. case_match; by intros [= <-]. Qed.
Lemma keyed_bool k b : keyed k (opt_bool k b). Proof. destruct b; by intros kv [= <-]. Qed.
Lemma keyed_arr {A} k (f : A -> json) l : keyed k (opt_arr k f l). Proof. destruct l; by intros kv [= <-]. Qed.
#[export] Hint Resolve keyed_req keyed_str keyed_int keyed_bool keyed_arr : govpc.

(** An optional entry determines its value. *)
Lemma opt_str_inj k s t : opt_str k s = opt_str k t -> s = t.
Proof. unfold opt_str. destruct (String.eqb_spec s ""), (String.eqb_spec t ""); congruence. Qed.
Lemma opt_int_inj k a b : opt_int k a = opt_int k b -> a = b.
Proof. unfold opt_int. destruct (Z.eqb_spec a 0), (Z.eqb_spec b 0); intros E; try done; [congruence|].
  injection E as E. by apply Itoa_inj. Qed.
Lemma opt_bool_inj k a b : opt_bool k a = opt_bool k b -> a = b.
Proof. by destruct a, b. Qed.
Lemma req_inj k a b : req k a = req k b -> a = b.
Proof. by intros [= ->]. Qed.
Lemma map_inj_on {A B} (f : A -> B) l l' : (forall x y, f x = f y -> x = y) -> map f l = map f l' -> l = l'.
Proof. intros HI. revert l'. induction l as [|x l IH]; intros [|y l']; try done. intros [= E1 E2]. f_equal; auto. Qed.
Lemma opt_arr_inj {A} k (f : A -> json) l l' : (forall x y, f x = f y -> x = y) -> opt_arr k f l = opt_arr k f l' -> l = l'.
Proof.
  intros HI. unfold opt_arr. destruct l as [|x l], l' as [|y l']; try done. intros [= E1 E2].
  f_equal; [auto|]. by eapply map_inj_on.
Qed.

(** Two lists of entries with the same keys in the same order, all distinct, encode
    to one object only when they agree entry by entry. *)
Lemma fields_inj ks l l' : NoDup ks -> Forall2 keyed ks l -> Forall2 keyed ks l' -> fields l = fields l' -> l = l'.
Proof.
  intros HN HF. revert HN l'. induction HF as [|k e ks l HK HF IH]; intros HN l' HF' E.
  { by inversion HF'. }
  inversion HF' as [|? e' ? l'' HK' HF'']; subst. apply NoDup_cons in HN as [Hn HN].
  assert (forall ks l (v : json) rest, Forall2 keyed ks l -> ~ k ∈ ks -> omap id l = (k, v) :: rest -> False) as Habs.
  { clear. induction 1 as [|k' e' ks l HK HF IH]; [done|]. intros Hn E.
    destruct e' as [[k0 v0]|]; simpl in E.
    - injection E as -> _ _. specialize (HK _ eq_refl). simpl in HK. subst. apply Hn. by left.
    - apply IH; [|done]. intros Hin. apply Hn. by right. }
  unfold fields in E. injection E as E. simpl in E.
  destruct e as [[k1 v1]|], e' as [[k2 v2]|]; simpl in E.
  - injection E as -> -> E. f_equal. apply IH; [done..|]. unfold fields. by f_equal.
  - exfalso. specialize (HK _ eq_refl). simpl in HK. subst. symmetry in E. by eapply Habs in E.
  - exfalso. specialize (HK' _ eq_refl). simpl in HK'. subst. by eapply Habs in E.
  - f_equal. apply IH; [done..|]. unfold fields. by f_equal.
Qed.

Lemma cons_inj {A} (x y : A) l l' : x :: l = y :: l' -> x = y /\ l = l'.
Proof. by intros [= -> ->]. Qed.
Lemma JInt_inj a b : JInt a = JInt b -> a = b.
Proof. unfold JInt. intros E. injection E as E. by apply Itoa_inj. Qed.
Lemma JStr_inj a b : JStr a = JStr b -> a = b.
Proof. by intros [= ->]. Qed.
Lemma JBool_inj a b : JBool a = JBool b -> a = b.
Proof. by intros [= ->]. Qed.

(** Splits [E : fields [...] = fields [...]] into the equalities of its values. *)
Ltac fields_eq E ks :=
  apply (fields_inj ks) in E;
    [repeat (let E' := fresh "Ek" in apply cons_inj in E as [E' E]); clear E;
     repeat match goal with
     | H : req _ _ = req _ _ |- _ => apply req_inj in H
     | H : JInt _ = JInt _ |- _ => apply JInt_inj in H
     | H : JStr _ = JStr _ |- _ => apply JStr_inj in H
     | H : JBool _ = JBool _ |- _ => apply JBool_inj in H
     | H : opt_str _ _ = opt_str _ _ |- _ => apply opt_str_inj in H
     | H : opt_int _ _ = opt_int _ _ |- _ => apply opt_int_inj in H
     | H : opt_bool _ _ = opt_bool _ _ |- _ => apply opt_bool_inj in H
     end; cbn in *; subst
    |apply NoDup_ListNoDup; repeat constructor; simpl; intuition discriminate
    |repeat constructor; auto with govpc
    |repeat constructor; auto with govpc].

Lemma identity_json_inj a b : identity_json a = identity_json b -> a = b.
Proof. destruct a, b. unfold identity_json. intros E. fields_eq E ["namespace"; "name"; "uid"]. done. Qed.
Lemma subnet_json_inj a b : subnet_json a = subnet_json b -> a = b.
Proof.
  destruct a, b. unfold subnet_json. intros E.
  by fields_eq E ["name"; "uid"; "cidr"; "gateway"; "nativeSubnetName"; "deleting"].
Qed.
Lemma remote_json_inj a b : remote_json a = remote_json b -> a = b.
Proof. destruct a, b. unfold remote_json. intros E. by fields_eq E ["locationRef"; "cidr"]. Qed.
Lemma link_json_inj a b : link_json a = link_json b -> a = b.
Proof. destruct a, b. unfold link_json. intros E. by fields_eq E ["peerID"; "listenPort"; "tunnelIP"; "controlVNI"]. Qed.
Lemma allocation_json_inj a b : allocation_json a = allocation_json b -> a = b.
Proof. destruct a, b. unfold allocation_json. intros E. by fields_eq E ["peerA"; "peerB"; "controlVNI"]. Qed.
Lemma endpoint_json_inj a b : endpoint_json a = endpoint_json b -> a = b.
Proof.
  destruct a, b. unfold endpoint_json. intros E.
  fields_eq E ["id"; "nodeName"; "nodeUID"; "endpointIP"; "transitIP"; "publicKey"; "localASN"; "healthIP"; "links"; "ready"].
  f_equal. eapply opt_arr_inj; [|done]. apply link_json_inj.
Qed.
Lemma peer_json_inj a b : peer_json a = peer_json b -> a = b.
Proof.
  destruct a, b. unfold peer_json. intros E. fields_eq E ["locationRef"; "endpoint"].
  f_equal. by apply endpoint_json_inj.
Qed.

(** Two specs encode alike exactly when they agree up to nil against empty. *)
Definition nil_as_empty (s : NetworkBindingSpec) : NetworkBindingSpec :=
  mkBindingSpec (nb_VPCRef s) (nb_NetworkID s) (nb_LocalASN s) (nb_LocationRef s) (nb_NetworkClassRef s)
    (nb_NativeVpcName s) (nb_TransportProfile s) (nb_Subnets s) (Some (default [] (nb_AuthorizedLocations s)))
    (nb_RemoteSubnets s) (nb_Peers s) (nb_LinkAllocations s) (nb_Revision s) (nb_Deleting s).

Lemma spec_json_inj a b : spec_json a = spec_json b -> nil_as_empty a = nil_as_empty b.
Proof.
  destruct a, b. unfold spec_json, nil_as_empty. cbn -[fields]. intros E.
  fields_eq E ["vpcRef"; "networkID"; "localASN"; "locationRef"; "networkClassRef"; "nativeVpcName"; "transportProfile";
               "subnets"; "authorizedLocations"; "remoteSubnets"; "peers"; "linkAllocations"; "revision"; "deleting"].
  f_equal.
  - by apply identity_json_inj.
  - eapply opt_arr_inj; [apply subnet_json_inj|done].
  - f_equal. eapply opt_arr_inj; [apply JStr_inj|done].
  - eapply opt_arr_inj; [apply remote_json_inj|done].
  - eapply opt_arr_inj; [apply peer_json_inj|done].
  - eapply opt_arr_inj; [apply allocation_json_inj|done].
Qed.

Lemma Revision_same_input s t : revision_input s = revision_input t -> Revision s = Revision t.
Proof. unfold Revision. by intros ->. Qed.

Lemma revision_input_with_Revision r s : revision_input (nbs_with_Revision r s) = revision_input s.
Proof. done. Qed.

Lemma Revision_with_Revision r s : Revision (nbs_with_Revision r s) = Revision s.
Proof. by apply Revision_same_input. Qed.

(** The intent a revision stands for. *)
Definition intent (s : NetworkBindingSpec) : NetworkBindingSpec := nil_as_empty (revision_input s).

(** The text whose digest is the revision. *)
Definition revision_text (s : NetworkBindingSpec) : string := Marshal (spec_json (revision_input s)).

(** For specs with ASCII text, equal revisions mean the same intent
    (all of the spec but its revision and the readiness of its peers, a nil list
    being an empty one), unless the texts of these two specs are themselves a
    SHA-256 collision; and one intent always has one revision. *)
Theorem Revision_identifies_intent s t :
  printable (spec_json (revision_input s)) -> printable (spec_json (revision_input t)) ->
  Revision s = Revision t <->
  intent s = intent t \/ (revision_text s <> revision_text t /\ sha256_hex (revision_text s) = sha256_hex (revision_text t)).
Proof.
  intros Hs Ht. split.
  - intros E. destruct (decide (revision_text s = revision_text t)) as [EM|Hne]; [left|by right].
    apply spec_json_inj. by apply Marshal_inj.
  - intros [E|[_ E]]; [|done]. unfold Revision. do 2 f_equal. unfold intent in E.
    assert (forall u, spec_json (nil_as_empty u) = spec_json u) as HN by (intros []; reflexivity).
    by rewrite <- (HN (revision_input s)), <- (HN (revision_input t)), E.
Qed.

(** Readiness reports never change a revision. *)
Lemma Revision_ignores_readiness s p q : Forall2 (fun a b => pg_LocationRef a = pg_LocationRef b /\
    ge_with_Ready false (pg_Endpoint a) = ge_with_Ready false (pg_Endpoint b)) p q ->
  Revision (nbs_with_Peers p s) = Revision (nbs_with_Peers q s).
Proof.
  intros HF. apply Revision_same_input. unfold revision_input. cbn.
  replace (map (fun a => mkPeer (pg_LocationRef a) (ge_with_Ready false (pg_Endpoint a))) p)
    with (map (fun a => mkPeer (pg_LocationRef a) (ge_with_Ready false (pg_Endpoint a))) q); [done|].
  induction HF as [|a b p q [E1 E2] HF IH]; simpl; [done|]. by rewrite E1, E2, IH.
Qed.

(** A plan of tombstones only authorizes nobody, by an empty list that is not nil;
    the API stores it as an absent field, so what it returns is another Go value. *)
Lemma tombstones_differ_from_their_stored_form v subnets existing cfg bs b :
  Build v subnets existing cfg = Ok bs -> In b bs -> (forall s, In s subnets -> own v s = false) ->
  let stored := mkBindingSpec (nb_VPCRef (nb_Spec b)) (nb_NetworkID (nb_Spec b)) (nb_LocalASN (nb_Spec b)) (nb_LocationRef (nb_Spec b))
    (nb_NetworkClassRef (nb_Spec b)) (nb_NativeVpcName (nb_Spec b)) (nb_TransportProfile (nb_Spec b)) (nb_Subnets (nb_Spec b)) None
    (nb_RemoteSubnets (nb_Spec b)) (nb_Peers (nb_Spec b)) (nb_LinkAllocations (nb_Spec b)) (nb_Revision (nb_Spec b)) (nb_Deleting (nb_Spec b)) in
  spec_json stored = spec_json (nb_Spec b) /\ stored <> nb_Spec b.
Proof.
  intros HB Hb Hn. destruct (Build_exports_ok _ _ _ _ _ _ HB Hb) as (_ & _ & l & HA & HL).
  destruct l as [|x l]; [|destruct (proj1 (HL x) (or_introl eq_refl)) as (s & Hs & Ho & _); by rewrite (Hn s Hs) in Ho].
  destruct (nb_Spec b). cbn in *. subst. done.
Qed.
