(* ===== verification/PlanWitness.v ===== *)
(** * Plans at work: destination routes, snapshots and their revisions *)
From S2P Require Import Prelude GoStd Json JsonFacts NetIP NetIPFacts Validation SiteConfig DestinationRoute Api PlatformConfig PlatformPlan.
From S2P Require Import PlatformPlanFacts.
Open Scope Z_scope.

(** ** Destination routes *)

Definition east_route : Intent :=
  mkIntent "10.2.0.0/16" ["100.64.0.3"; "100.64.0.2"] (DestinationRoute.mkBFD 300 300 3) ["ip_src"; "ip_dst"].
Definition west_route : Intent :=
  mkIntent "10.3.0.0/16" ["100.64.0.2"; "100.64.0.3"] (DestinationRoute.mkBFD 300 300 3) ["ip_dst"; "ip_src"].
Definition shuffled_east : Intent :=
  mkIntent "10.2.0.0/16" ["100.64.0.2"; "100.64.0.3"] (DestinationRoute.mkBFD 300 300 3) ["ip_dst"; "ip_src"].
Definition routes_plan : Plan := match Compile [west_route; east_route] with Ok p => p | Err _ => mkPlan [] ∅ "" end.
Lemma routes_plan_ok : Compile [west_route; east_route] = Ok routes_plan.
Proof. by vm_compute. Qed.

Lemma Compile_order_independent_witness : Compile [shuffled_east; west_route] = Ok routes_plan.
Proof.
  apply (Compile_order_independent [west_route; east_route] [west_route; shuffled_east]).
  - repeat constructor.
  - apply perm_swap.
  - exact routes_plan_ok.
Defined.

Lemma Compile_idempotent_witness : Compile (Routes routes_plan) = Ok routes_plan.
Proof. exact (Compile_idempotent _ _ routes_plan_ok). Defined.

Lemma Children_partition_witness :
  exists q1 q2, ParsePrefix "10.2.0.0/17" = Some q1 /\ ParsePrefix "10.2.128.0/17" = Some q2 /\
    forall x, u32 x -> Contains (mkPrefix (Addr4 167903232) 16) (Addr4 x) = xorb (Contains q1 (Addr4 x)) (Contains q2 (Addr4 x)).
Proof.
  destruct (Children_partition "10.2.0.0/16" (mkPrefix (Addr4 167903232) 16) ltac:(by vm_compute))
    as (c1 & c2 & q1 & q2 & HC & H1 & H2 & _ & _ & _ & _ & HX).
  assert (c1 = "10.2.0.0/17" /\ c2 = "10.2.128.0/17")%string as [-> ->] by (vm_compute in HC; by injection HC as <- <-).
  exists q1, q2. exact (conj H1 (conj H2 HX)).
Defined.

Lemma ReachableGateway_iff_witness : exists raw, In raw ["10.0.0.5/24"%string] /\ usable_gateway raw 167772161.
Proof. apply (ReachableGateway_iff "10.0.0.1"); by vm_compute. Defined.

(** ** Snapshots *)

Definition two_locations : PlatformConfig.Config :=
  PlatformConfig.mkConfig "" (<["default" := mkClass "wireguard-bgp"]> ∅)
    [mkLocation "east" "r1" "s1" "d1" "bind-east" ["proj"] ["10.0.0.0/8"];
     mkLocation "west" "r2" "s2" "d2" "bind-west" ["proj"] ["10.0.0.0/8"]].
Definition plan_vpc : VPC :=
  mkVPC (mkMeta "net" "proj" "u1" "7" 1 0 None ∅ ∅ [] []) (mkVPCSpec "") (mkVPCStatus 1 1 "" [] [] []).
Definition plan_subnet (name uid location cidr : string) : Subnet :=
  mkSubnet (mkMeta name "proj" uid "7" 1 0 None ∅ ∅ [] []) (mkSubnetSpec "net" location cidr)
    (mkSubnetStatus 1 "" "u1" "" "" "" []).
Definition east_subnet : Subnet := plan_subnet "app" "s1" "east" "10.1.0.0/16".
Definition west_subnet : Subnet := plan_subnet "db" "s2" "west" "10.2.0.0/16".
Definition plan_gateway : GatewayEndpoint :=
  mkEndpoint "g1" "node-1" "n1" "192.0.2.10" "100.64.0.2" "key" 4200000001 "10.255.0.1"
    [mkLink "east/g1" 20000 "10.255.0.2" 0; mkLink "north/g1" 20001 "10.255.0.3" 0] true.
Definition west_binding : NetworkBinding :=
  mkBinding (mkMeta (BindingName "u1" "west") "bind-west" "b2" "7" 1 0 None (<[PlanOwnerLabel := "u1"]> ∅) ∅ [] [])
    (mkBindingSpec (mkIdentity "proj" "net" "u1") 1 2 "west" "default" "" "wireguard-bgp" [] None [] [] [] "rev" false)
    (mkBindingStatus 1 "Ready" "rev" [] [plan_gateway] []).
Definition planned : list NetworkBinding :=
  match Build plan_vpc [east_subnet; west_subnet] [west_binding] two_locations with Ok bs => bs | Err _ => [] end.
Lemma planned_ok : Build plan_vpc [east_subnet; west_subnet] [west_binding] two_locations = Ok planned.
Proof. by vm_compute. Qed.
Definition planned_at (n : nat) : NetworkBinding := nth n planned west_binding.
Lemma planned_in n : (n <? List.length planned)%nat = true -> In (planned_at n) planned.
Proof. intros H%Nat.ltb_lt. by apply nth_In. Qed.

(** The snapshot of the east is live and imports the west. *)
Lemma snapshots_follow_the_topology_witness :
  NoDup (map location_of planned) /\ nb_Deleting (nb_Spec (planned_at 0)) = false /\
  In (mkRemoteSubnet "west" "10.2.0.0/16") (nb_RemoteSubnets (nb_Spec (planned_at 0))).
Proof.
  destruct (snapshots_follow_the_topology _ _ _ _ _ planned_ok) as ((HN & _) & HB).
  destruct (HB (planned_at 0)) as ((_ & HD & _) & HI & _); [apply planned_in; by vm_compute|].
  split; [exact HN|]. split.
  - destruct (nb_Deleting (nb_Spec (planned_at 0))); [|done]. exfalso. apply HD; [done|]. exists east_subnet.
    split; [by left|]. split; by vm_compute.
  - apply HI. split; [by vm_compute|]. exists west_subnet. split; [by right; left|]. do 3 (split; [by vm_compute|]). by left.
Defined.

Lemma Build_order_independent_witness : Build plan_vpc [west_subnet; east_subnet] [west_binding] two_locations = Ok planned.
Proof.
  apply (Build_order_independent plan_vpc [east_subnet; west_subnet] _ [west_binding]).
  - repeat constructor; set_solver.
  - apply (bool_decide_unpack _). by vm_compute.
  - intros name [(b & [<-|[]] & <-)|(s & [<-|[<-|[]]] & _ & <-)]; by vm_compute.
  - apply perm_swap.
  - done.
  - exact planned_ok.
Defined.

Definition planned_intent : NetworkBindingSpec := Eval vm_compute in revision_input (nb_Spec (planned_at 0)).
Lemma planned_intent_ok : revision_input (nb_Spec (planned_at 0)) = planned_intent.
Proof. by vm_compute. Qed.
Lemma planned_intent_printable : printable (spec_json planned_intent).
Proof. unfold planned_intent. cbn -[Itoa]. repeat split; eauto. Qed.

Lemma Revision_identifies_intent_witness :
  Revision (nb_Spec (planned_at 0)) = Revision (nbs_with_Revision "" (nb_Spec (planned_at 0))).
Proof.
  apply (Revision_identifies_intent (nb_Spec (planned_at 0)) (nbs_with_Revision "" (nb_Spec (planned_at 0)))).
  - rewrite planned_intent_ok. exact planned_intent_printable.
  - rewrite revision_input_with_Revision, planned_intent_ok. exact planned_intent_printable.
  - left. unfold intent. by rewrite revision_input_with_Revision.
Defined.
