(* ===== verification/NetworkID.v ===== *)
(** * [internal/platformcontroller/networkid.go]: the network ID registry

    IDs come from one monotonic sequence and are retained in sharded claims.
    [networkIDs] validates every retained claim, the sequence and its identity
    anchor, returns the IDs that exist, reserves the missing ones by advancing the
    sequence, and only then publishes them as claims. *)
From S2P Require Import Prelude GoStd Json JsonDecode NetIP Api PlatformConfig Prog Kube PlatformPlan.
Open Scope Z_scope.

Definition networkIDAllocatorLabel : string := "platform.globalvpc.io/allocator".
Definition networkIDSequenceName : string := "network-id-sequence".
Definition networkIDAnchorName : string := "network-id-sequence-anchor".
Definition networkIDClaimPrefix : string := "network-id-claims-".
Definition claimsLabel : string := "network-id-claims".
Definition maxNetworkID : Z := 16777215.

Definition networkIDShard (key : string) : string := take 2 (sha256_hex key).

(** [json.Unmarshal] into a [map[string]uint32] ([None] inside is a nil map), and
    [json.Marshal] of it. *)
Definition decode_claims (raw : string) : option (option (gmap string Z)) :=
  UnmarshalInto (decode_map decode_uint32 0) None raw.
Definition encode_claims (ids : gmap string Z) : string := Marshal (map_json JInt ids).

(** ** Grouping the requested keys by shard *)

Fixpoint group_keys (unique : gset string) (groups : gmap string (list string)) (keys : list string)
    : gmap string (list string) :=
  match keys with
  | [] => groups
  | key :: rest =>
      if bool_decide (key ∈ unique) then group_keys unique groups rest
      else let shard := networkIDShard key in
           group_keys ({[key]} ∪ unique) (<[shard := default [] (groups !! shard) ++ [key]]> groups) rest
  end.
Definition group (groups : gmap string (list string)) (shard : string) : list string := default [] (groups !! shard).

(** ** Validating the retained claims *)

Record scan := mkScan {
  sc_objects : gmap string ConfigMap; sc_claims : gmap string (gmap string Z);
  sc_used : gset Z; sc_highest : Z }.
Definition no_scan : scan := mkScan ∅ ∅ ∅ 0.

Fixpoint check_ids (shard : string) (used : gset Z) (highest : Z) (ids : list (string * Z)) : res (gset Z * Z) :=
  match ids with
  | [] => Ok (used, highest)
  | (key, id) :: rest =>
      reject (key =? "")%string || negb (networkIDShard key =? shard)%string || (id =? 0) || (maxNetworkID <? id)
        with Errorf "invalid retained network ID claim" ;;
      reject bool_decide (id ∈ used) with Errorf "duplicate retained network ID" ;;
      check_ids shard ({[id]} ∪ used) (if highest <? id then id else highest) rest
  end.

(** Is the ConfigMap part of the claim registry? *)
Definition claim_shaped (cm : ConfigMap) : bool :=
  HasPrefix (om_Name (cm_Meta cm)) networkIDClaimPrefix ||
  (get (om_Labels (cm_Meta cm)) networkIDAllocatorLabel =? claimsLabel)%string.

Fixpoint scan_claims (s : scan) (items : list ConfigMap) : res scan :=
  match items with
  | [] => Ok s
  | cm :: rest =>
      if negb (claim_shaped cm) then scan_claims s rest
      else
        let shard := TrimPrefix (om_Name (cm_Meta cm)) networkIDClaimPrefix in
        match decode_claims (get (cm_Data cm) "claims.json") with
        | Some (Some ids) =>
            reject negb (get (om_Labels (cm_Meta cm)) networkIDAllocatorLabel =? claimsLabel)%string ||
                   negb (String.length shard =? 2)%nat
              with Errorf "network ID claim shard is invalid or foreign" ;;
            reject negb (hex_ok shard) with Errorf "network ID claim shard name is invalid" ;;
            checked <-? check_ids shard (sc_used s) (sc_highest s) (map_to_list ids) ;;
            scan_claims (mkScan (<[shard := cm]> (sc_objects s)) (<[shard := ids]> (sc_claims s))
                                (fst checked) (snd checked)) rest
        | _ => Err (Errorf "network ID claim shard is invalid or foreign")
        end
  end.

(** ** The identity anchor and the sequence *)

Definition is_true (b : option bool) : bool := match b with Some true => true | _ => false end.

Definition anchor_ok (a : ConfigMap) : bool :=
  (get (om_Labels (cm_Meta a)) networkIDAllocatorLabel =? networkIDAnchorName)%string &&
  is_true (cm_Immutable a) && negb (get (cm_Data a) "sequenceUID" =? "")%string.

Definition get_anchor (ns : string) : kprog (res (option ConfigMap)) :=
  r <-! kfind Authority KConfigMap ns networkIDAnchorName ;;
  match r with
  | None => Ret (Ok None)
  | Some a =>
      stop negb (anchor_ok a) with Errorf "network ID sequence identity anchor is invalid or foreign" ;;
      Ret (Ok (Some a))
  end.

Definition new_sequence (ns : string) : ConfigMap :=
  mkConfigMap (newMeta networkIDSequenceName ns (<[networkIDAllocatorLabel := networkIDSequenceName]> ∅) ∅)
    None (<["next" := "1"]> ∅).
Definition get_sequence (ns : string) (anchor : option ConfigMap) (highest : Z) : kprog (res ConfigMap) :=
  r <-! kfind Authority KConfigMap ns networkIDSequenceName ;;
  match r with
  | Some seq => Ret (Ok seq)
  | None =>
      stop bool_decide (anchor <> None) || negb (highest =? 0)
        with Errorf "network ID sequence missing beside retained identity or claims" ;;
      kcreate Authority KConfigMap (new_sequence ns)
  end.

(** [next], or the error of an invalid or regressed sequence. *)
Definition check_sequence (seq : ConfigMap) (highest : Z) : res Z :=
  match ParseUint (get (cm_Data seq) "next") 32 with
  | None => Err (Errorf "network ID sequence invalid")
  | Some next =>
      reject (om_UID (cm_Meta seq) =? "")%string ||
             negb (get (om_Labels (cm_Meta seq)) networkIDAllocatorLabel =? networkIDSequenceName)%string ||
             (next <? 1) || (maxNetworkID + 1 <? next)
        with Errorf "network ID sequence invalid" ;;
      reject next <=? highest with Errorf "network ID sequence regressed behind retained claims" ;;
      Ok next
  end.

Definition new_anchor (ns uid : string) : ConfigMap :=
  mkConfigMap (newMeta networkIDAnchorName ns (<[networkIDAllocatorLabel := networkIDAnchorName]> ∅) ∅)
    (Some true) (<["sequenceUID" := uid]> ∅).
Definition ensure_anchor (ns : string) (anchor : option ConfigMap) (seq : ConfigMap) (next highest : Z)
    : kprog (res unit) :=
  match anchor with
  | None =>
      stop negb (next =? 1) || negb (highest =? 0)
        with Errorf "network ID sequence identity anchor missing for used registry" ;;
      _ <-! kcreate Authority KConfigMap (new_anchor ns (om_UID (cm_Meta seq))) ;;
      Ret (Ok tt)
  | Some a =>
      stop negb (get (cm_Data a) "sequenceUID" =? om_UID (cm_Meta seq))%string
        with Errorf "network ID sequence identity changed" ;;
      Ret (Ok tt)
  end.

(** ** Reserving and publishing *)

Definition claim_of (claims : gmap string (gmap string Z)) (shard key : string) : option Z :=
  default ∅ (claims !! shard) !! key.

(** The IDs that exist, and the keys that have none, in shard order. *)
Definition known_ids (groups : gmap string (list string)) (claims : gmap string (gmap string Z)) (shards : list string)
    : gmap string Z :=
  foldl (fun m shard => foldl (fun m key => match claim_of claims shard key with Some id => <[key := id]> m | None => m end)
                          m (group groups shard)) ∅ shards.
Definition missing_keys (groups : gmap string (list string)) (claims : gmap string (gmap string Z)) (shards : list string)
    : list string :=
  flat_map (fun shard => List.filter (fun key => bool_decide (claim_of claims shard key = None)) (group groups shard)) shards.

Definition new_shard (ns shard : string) : ConfigMap :=
  mkConfigMap (newMeta (networkIDClaimPrefix ++ shard) ns (<[networkIDAllocatorLabel := claimsLabel]> ∅) ∅)
    None (<["claims.json" := "{}"]> ∅).
Fixpoint create_shards (ns : string) (shards : list string) (objects : gmap string ConfigMap)
    (claims : gmap string (gmap string Z)) : kprog (res (gmap string ConfigMap * gmap string (gmap string Z))) :=
  match shards with
  | [] => Ret (Ok (objects, claims))
  | shard :: rest =>
      match objects !! shard with
      | Some _ => create_shards ns rest objects claims
      | None =>
          cm <-! kcreate Authority KConfigMap (new_shard ns shard) ;;
          create_shards ns rest (<[shard := cm]> objects) (<[shard := ∅]> claims)
      end
  end.

(** [result[missing[i]] = next + i] *)
Fixpoint assign_ids (next : Z) (result : gmap string Z) (missing : list string) : gmap string Z :=
  match missing with
  | [] => result
  | key :: rest => assign_ids (next + 1) (<[key := next]> result) rest
  end.

Definition add_claims (result : gmap string Z) (keys : list string) (ids : gmap string Z) : gmap string Z :=
  foldl (fun ids key => match ids !! key with Some _ => ids | None => <[key := default 0 (result !! key)]> ids end) ids keys.

Fixpoint publish (shards : list string) (groups : gmap string (list string)) (objects : gmap string ConfigMap)
    (claims : gmap string (gmap string Z)) (result : gmap string Z) : kprog (res unit) :=
  match shards with
  | [] => Ret (Ok tt)
  | shard :: rest =>
      let before := default ∅ (claims !! shard) in
      let after := add_claims result (group groups shard) before in
      if bool_decide (after = before) then publish rest groups objects claims result
      else
        let b := encode_claims after in
        stop (900000 <? Z.of_nat (String.length b)) with Errorf "network ID claim shard capacity exceeded" ;;
        match objects !! shard with
        | None => Ret (Err (Errorf "unreachable: every shard has an object"))
        | Some cm =>
            _ <-! kupdate Authority KConfigMap (cm_with_Data (<["claims.json" := b]> (cm_Data cm)) cm) ;;
            publish rest groups objects claims result
        end
  end.

Definition reserve (ns : string) (groups : gmap string (list string)) (shards : list string) (s : scan)
    (seq : ConfigMap) (next : Z) : kprog (res (gmap string Z)) :=
  let known := known_ids groups (sc_claims s) shards in
  let missing := missing_keys groups (sc_claims s) shards in
  if (List.length missing =? 0)%nat then Ret (Ok known)
  else
    let n := Z.of_nat (List.length missing) in
    stop (maxNetworkID + 1 <? next + n) with Errorf "network ID sequence exhausted" ;;
    oc <-! create_shards ns shards (sc_objects s) (sc_claims s) ;;
    _ <-! kupdate Authority KConfigMap (cm_with_Data (<["next" := utoa (next + n)]> (cm_Data seq)) seq) ;;
    let result := assign_ids next known (sort_strings missing) in
    _ <-! publish shards groups (fst oc) (snd oc) result ;;
    Ret (Ok result).

Definition registry_namespace (cfg : PlatformConfig.Config) : string :=
  if (RegistryNamespace cfg =? "")%string then "global-vpc-system" else RegistryNamespace cfg.

Definition networkIDs (cfg : PlatformConfig.Config) (keys : list string) : kprog (res (gmap string Z)) :=
  let ns := registry_namespace cfg in
  let groups := group_keys ∅ ∅ keys in
  let shards := sort_strings (map fst (map_to_list groups)) in
  all <-! klist Authority KConfigMap (InNamespace ns) ;;
  s <-! Ret (scan_claims no_scan all) ;;
  anchor <-! get_anchor ns ;;
  seq <-! get_sequence ns anchor (sc_highest s) ;;
  next <-! Ret (check_sequence seq (sc_highest s)) ;;
  _ <-! ensure_anchor ns anchor seq next (sc_highest s) ;;
  reserve ns groups shards s seq next.

(** ** [assignTransport] *)

Definition uint32 (z : Z) : Z := z mod 2 ^ 32.

(** The canonical pair of two gateway identities. *)
Definition link_pair (local remote : string) : string * string :=
  if (remote <? local)%string then (remote, local) else (local, remote).
Definition link_allocation_key (uid left right : string) : string := ("link/" ++ uid ++ "/" ++ left ++ "/" ++ right)%string.
Definition asn_key (location : string) : string := ("asn/" ++ location)%string.

(** The links of one snapshot: its registered gateways against its peers. *)
Definition snapshot_pairs (existing : list NetworkBinding) (b : NetworkBinding) : list (string * string) :=
  let s := nb_Spec b in
  if (nb_TransportProfile s =? "wireguard-bgp")%string then []
  else
    flat_map (fun local =>
      if negb (nb_LocationRef (nb_Spec local) =? nb_LocationRef s)%string then []
      else flat_map (fun a =>
             map (fun p => link_pair (nb_LocationRef s ++ "/" ++ ge_ID a) (pg_LocationRef p ++ "/" ++ ge_ID (pg_Endpoint p)))
               (nb_Peers s)) (bt_Gateways (nb_Status local))) existing.

Definition transport_keys (uid : string) (existing desired : list NetworkBinding) : list string :=
  flat_map (fun b => asn_key (nb_LocationRef (nb_Spec b)) ::
                     map (fun lr => link_allocation_key uid (fst lr) (snd lr)) (snapshot_pairs existing b)) desired.

(** [ids[key]]: a missing key is zero. *)
Definition id_of (ids : gmap string Z) (key : string) : Z := default 0 (ids !! key).
Definition pair_key (l : LinkAllocation) : string := (la_PeerA l ++ "/" ++ la_PeerB l)%string.

Definition transport_spec (v : VPC) (existing : list NetworkBinding) (ids : gmap string Z) (b : NetworkBinding) : NetworkBinding :=
  let uid := om_UID (vpc_Meta v) in
  let s := nb_Spec b in
  let pairs := nb_LinkAllocations s ++ map (fun lr => mkLinkAllocation (fst lr) (snd lr) 0) (snapshot_pairs existing b) in
  let links := sort_by_key pair_key
    (map (fun l => mkLinkAllocation (la_PeerA l) (la_PeerB l) (id_of ids (link_allocation_key uid (la_PeerA l) (la_PeerB l)))) pairs) in
  let s' := nbs_with_transport (vt_NetworkID (vpc_Status v))
              (uint32 (4200000000 + id_of ids (asn_key (nb_LocationRef s)))) links s in
  nb_with_Spec (nbs_with_Revision (Revision s') s') b.

Definition assignTransport (cfg : PlatformConfig.Config) (v : VPC) (desired existing : list NetworkBinding)
    : kprog (res (list NetworkBinding)) :=
  ids <-! networkIDs cfg (transport_keys (om_UID (vpc_Meta v)) existing desired) ;;
  Ret (Ok (map (transport_spec v existing ids) desired)).
