(* ===== verification/NetworkIDSystem.v ===== *)
(** * Concurrent allocators of network IDs

    The registry is shared: any number of controllers run [networkIDs] against one
    API server at the same time. The server keeps every version of every ConfigMap
    and compares resource versions on update; reads may be stale, responses may be
    lost, and a pass may stop anywhere. [safe] is the discipline of one pass, with
    the versions it has seen and the IDs it has reserved; passes that are [safe]
    keep the registry [good] whatever the interleaving. *)
From S2P Require Import Prelude GoStd Json JsonFacts JsonDecode Api Prog Kube NetworkID.
Open Scope Z_scope.

(** ** The API server *)

(** The versions of each ConfigMap of the registry namespace, newest first. *)
Notation store := (gmap string (list ConfigMap)).
Definition name_of (cm : ConfigMap) : string := om_Name (cm_Meta cm).
Definition version_of (cm : ConfigMap) : string := om_ResourceVersion (cm_Meta cm).
Definition version (st : store) (cm : ConfigMap) : Prop := exists l, st !! name_of cm = Some l /\ In cm l.

(** A stored object is the one that was sent, under metadata the server chose. *)
Definition stored_as (sent cm : ConfigMap) : Prop :=
  name_of cm = name_of sent /\ om_Labels (cm_Meta cm) = om_Labels (cm_Meta sent) /\
  cm_Data cm = cm_Data sent /\ cm_Immutable cm = cm_Immutable sent.

(** The ConfigMaps an answer shows. *)
Definition shows (o : op) : ans o -> ConfigMap -> Prop :=
  match o return ans o -> ConfigMap -> Prop with
  | Get _ k _ _ | Create _ k _ | Update _ k _ =>
      match k return res (object k) -> ConfigMap -> Prop with KConfigMap => fun x cm => x = Ok cm | _ => fun _ _ => False end
  | ListObjects _ k _ =>
      match k return res (list (object k)) -> ConfigMap -> Prop with
      | KConfigMap => fun x cm => exists l, x = Ok l /\ In cm l
      | _ => fun _ _ => False
      end
  | _ => fun _ _ => False
  end.
(** It concerns the object that was asked for or sent. *)
Definition about (o : op) : ConfigMap -> Prop :=
  match o with
  | Get _ _ _ name => fun cm => name_of cm = name
  | Create _ k x | Update _ k x =>
      match k return object k -> ConfigMap -> Prop with KConfigMap => stored_as | _ => fun _ _ => True end x
  | _ => fun _ => True
  end.
Definition answered_ok (o : op) : ans o -> bool :=
  match o return ans o -> bool with
  | Get _ _ _ _ | Create _ _ _ | Update _ _ _ | UpdateStatus _ _ _ | ListObjects _ _ _ | Delete _ _ _ _ _ | RandRead _ | ReadFile _ _ | Probe _ _ =>
      fun x => is_ok x
  end.

(** What a call does to the store, when it takes effect: [None] when it cannot. *)
Definition effect (st : store) (o : op) (st' : store) : option ConfigMap -> Prop :=
  match o with
  | Create Authority KConfigMap sent => fun shown => exists cm,
      st !! name_of sent = None /\ stored_as sent cm /\ st' = <[name_of sent := [cm]]> st /\ shown = Some cm
  | Update Authority KConfigMap sent => fun shown => exists cur past cm,
      st !! name_of sent = Some (cur :: past) /\ version_of cur = version_of sent /\ stored_as sent cm /\
      ~ In (version_of cm) (map version_of (cur :: past)) /\
      st' = <[name_of sent := cm :: cur :: past]> st /\ shown = Some cm
  | _ => fun shown => st' = st /\ shown = None
  end.
(** One call: it fails without effect, or takes effect and its answer arrives or is
    lost. Whatever an answer shows is a version the store holds, not always the
    newest. *)
Definition serve (st : store) (o : op) (x : ans o) (st' : store) : Prop :=
  (answered_ok o x = false /\ st' = st) \/
  (exists shown, effect st o st' shown /\
     (answered_ok o x = true -> forall cm, shows o x cm ->
        about o cm /\ version st' cm /\ match shown with Some cm' => cm = cm' | None => True end)).

(** ** Concurrent passes *)

Section system.
Variable cfg : PlatformConfig.Config.

(** A pass with the keys it was started for. *)
Definition thread := (list string * kprog (res (gmap string Z)))%type.
Record system := mkSystem { sy_store : store; sy_threads : list thread }.

(** A ConfigMap that is none of the registry's. *)
Definition unrelated (cm : ConfigMap) : Prop :=
  claim_shaped cm = false /\ name_of cm <> networkIDSequenceName /\ name_of cm <> networkIDAnchorName.
Definition ascii_keys (keys : list string) : Prop := Forall (fun k => ascii_only k = true) keys.

Inductive step : system -> system -> Prop :=
| step_start st ts keys : ascii_keys keys ->
    step (mkSystem st ts) (mkSystem st (ts ++ [(keys, networkIDs cfg keys)]))
| step_call st st' ts i keys o k x : ts !! i = Some (keys, Act o k) -> serve st o x st' ->
    step (mkSystem st ts) (mkSystem st' (<[i := (keys, k x)]> ts))
| step_other st ts cm : unrelated cm -> ~ In (version_of cm) (map version_of (default [] (st !! name_of cm))) ->
    step (mkSystem st ts) (mkSystem (<[name_of cm := cm :: default [] (st !! name_of cm)]> st) ts).
(** A new installation: no pass has run, nothing in the namespace is the registry's. *)
Definition fresh_start (s : system) : Prop :=
  sy_threads s = [] /\ forall name l, sy_store s !! name = Some l ->
    NoDup (map version_of l) /\ l <> [] /\ forall cm, In cm l -> name_of cm = name /\ unrelated cm.
Inductive reachable : system -> Prop :=
| reachable_start s : fresh_start s -> reachable s
| reachable_step s s' : reachable s -> step s s' -> reachable s'.

(** ** The discipline of one pass *)

Definition claims_in (cm : ConfigMap) (ids : gmap string Z) : Prop :=
  decode_claims (get (cm_Data cm) "claims.json") = Some (Some ids).
Definition writable (ids : gmap string Z) : Prop :=
  forall key id, ids !! key = Some id -> ascii_only key = true /\ 0 <= id < 2 ^ 32.
(** What every version in the registry satisfies. *)
Definition proper (cm : ConfigMap) : Prop :=
  claim_shaped cm = true -> HasPrefix (name_of cm) networkIDClaimPrefix = true /\ exists ids, claims_in cm ids /\ writable ids.

Definition claim_name (shard : string) : string := (networkIDClaimPrefix ++ shard)%string.

(** The versions a pass has seen, and its reserved IDs with their keys. *)
Definition knowledge := ConfigMap -> Prop.
Definition reservation := Z -> option string.
Definition nothing_known : knowledge := fun _ => False.
Definition nothing_reserved : reservation := fun _ => None.

(** Only new, empty registry objects are created. *)
Definition creatable (cm : ConfigMap) : Prop :=
  (exists ns, cm = new_sequence ns) \/ (exists ns uid, cm = new_anchor ns uid) \/ (exists ns shard, cm = new_shard ns shard).
(** The sequence is advanced over the IDs that are reserved. *)
Definition may_reserve (K : knowledge) (own own' : reservation) (cm : ConfigMap) : Prop :=
  own = nothing_reserved /\ exists seq next n,
  K seq /\ name_of seq = networkIDSequenceName /\ ParseUint (get (cm_Data seq) "next") 32 = Some next /\
  1 <= next /\ 0 < n /\ next + n <= maxNetworkID + 1 /\
  cm = cm_with_Data (<["next" := utoa (next + n)]> (cm_Data seq)) seq /\
  forall id key, own' id = Some key -> next <= id < next + n.
(** A shard of claims is extended by reserved IDs for their keys. *)
Definition may_publish (K : knowledge) (own own' : reservation) (cm : ConfigMap) : Prop :=
  own' = own /\ exists obj shard before after,
  K obj /\ name_of obj = claim_name shard /\ claims_in obj before /\ before ⊆ after /\ writable after /\
  (forall key id, after !! key = Some id -> before !! key = Some id \/ own id = Some key) /\
  cm = cm_with_Data (<["claims.json" := encode_claims after]> (cm_Data obj)) obj.
Definition permits (K : knowledge) (own : reservation) (o : op) (own' : reservation) : Prop :=
  match o with
  | Get Authority KConfigMap _ _ | ListObjects Authority KConfigMap _ => own' = own
  | Create Authority k x =>
      match k return object k -> Prop with KConfigMap => fun cm => own' = own /\ creatable cm | _ => fun _ => False end x
  | Update Authority k x =>
      match k return object k -> Prop with
      | KConfigMap => fun cm => may_reserve K own own' cm \/ may_publish K own own' cm
      | _ => fun _ => False
      end x
  | _ => False
  end.

Fixpoint safe {A} (p : kprog A) (K : knowledge) (own : reservation) (Q : knowledge -> reservation -> A -> Prop) : Prop :=
  match p with
  | Ret a => Q K own a
  | Act o k => exists own', permits K own o own' /\
      forall x, (forall cm, shows o x cm -> about o cm /\ proper cm) ->
        safe (k x) (fun cm => K cm \/ shows o x cm) (if answered_ok o x then own' else own) Q
  end.

(** What a pass that returned IDs has seen of them, and that none is missing. *)
Definition certified (keys : list string) (K : knowledge) (r : res (gmap string Z)) : Prop :=
  match r with
  | Ok ids => (forall key, In key keys -> exists id, ids !! key = Some id) /\
      forall key id, ids !! key = Some id -> exists cm before, K cm /\ name_of cm = claim_name (networkIDShard key) /\
        claims_in cm before /\ before !! key = Some id
  | Err _ => True
  end.
Definition pass_safe (keys : list string) (p : kprog (res (gmap string Z))) (K : knowledge) (own : reservation) : Prop :=
  safe p K own (fun K' _ r => certified keys K' r).

(** ** The registry *)

Definition next_of (st : store) : Z :=
  match st !! networkIDSequenceName with
  | Some (cur :: _) => default 0 (ParseUint (get (cm_Data cur) "next") 32)
  | _ => 1
  end.
(** [key] holds [id] in the newest version of its shard. *)
Definition claimed (st : store) (key : string) (id : Z) : Prop :=
  exists cur past ids, st !! claim_name (networkIDShard key) = Some (cur :: past) /\ claims_in cur ids /\ ids !! key = Some id.

Record good (st : store) : Prop := {
  g_versions : forall name l, st !! name = Some l -> NoDup (map version_of l) /\ forall cm, In cm l -> name_of cm = name;
  g_proper : forall cm, version st cm -> proper cm;
  (** Every version of a shard is included in the newest one. *)
  g_shards : forall shard l, st !! claim_name shard = Some l -> exists cur past ids, l = cur :: past /\ claims_in cur ids /\ writable ids /\
    forall old, In old l -> exists before, claims_in old before /\ before ⊆ ids;
  g_range : forall key id, claimed st key id -> 1 <= id < next_of st;
  g_next : next_of st <= maxNetworkID + 1;
  g_unique : forall k1 k2 id, claimed st k1 id -> claimed st k2 id -> k1 = k2 }.

(** The owner of an ID: the pass that reserved it and the key it is for. *)
Definition ownership := Z -> option (nat * string).
Record consistent (st : store) (owner : ownership) (ts : list thread) : Prop := {
  c_good : good st;
  c_range : forall id ik, owner id = Some ik -> 1 <= id < next_of st;
  c_claims : forall id i key key', owner id = Some (i, key) -> claimed st key' id -> key' = key;
  c_threads : forall i keys p, ts !! i = Some (keys, p) -> exists K own, pass_safe keys p K own /\
    (forall cm, K cm -> version st cm) /\ (forall id key, own id = Some key -> owner id = Some (i, key)) }.
End system.

(** * The registry stays good

    Every interleaving of passes that keep the discipline of [NetworkIDSystem] keeps
    the registry consistent: the invariant, one write at a time. *)

(** ** Claims as text *)

Lemma decode_encode_claims ids : writable ids -> decode_claims (encode_claims ids) = Some (Some ids).
Proof.
  intros HW. unfold decode_claims, encode_claims, UnmarshalInto. rewrite Unmarshal_Marshal.
  - apply decode_map_json. intros k v Hv. destruct (HW _ _ Hv) as [_ Hr]. unfold JInt, decode_uint32. by apply ParseUint_Itoa.
  - apply printable_obj, printable_map_json. intros k v Hv. destruct (HW _ _ Hv) as [Ha _]. split; [done|]. by eexists.
Qed.
Lemma claims_in_unique cm a b : claims_in cm a -> claims_in cm b -> a = b.
Proof. unfold claims_in. congruence. Qed.
Lemma claims_in_stored sent cm ids : stored_as sent cm -> claims_in sent ids -> claims_in cm ids.
Proof. intros (_ & _ & E & _). unfold claims_in. by rewrite E. Qed.
Lemma claim_name_inj a b : claim_name a = claim_name b -> a = b.
Proof. apply str_app_inj_l. Qed.
Lemma claim_name_prefix shard : HasPrefix (claim_name shard) networkIDClaimPrefix = true.
Proof. unfold claim_name. generalize networkIDClaimPrefix. intros p. induction p as [|c p IH]; [done|]. rewrite str_app_cons. simpl. by rewrite Ascii.eqb_refl. Qed.
Lemma not_claim_name n shard : HasPrefix n networkIDClaimPrefix = false -> n <> claim_name shard.
Proof. intros H ->. by rewrite claim_name_prefix in H. Qed.
Lemma proper_stored sent cm : stored_as sent cm -> proper sent -> proper cm.
Proof.
  intros (En & El & Ed & _) HP Hs. unfold proper, claim_shaped, name_of in *. rewrite En, El in *.
  destruct (HP Hs) as (H1 & ids & H2 & H3). split; [done|]. exists ids. split; [|done]. unfold claims_in. by rewrite Ed.
Qed.

(** ** One write *)

Section write.
Variables (st : store) (name : string) (cm : ConfigMap).
Let past := default [] (st !! name).
Let st' := <[name := cm :: past]> st.
Hypotheses (Hgood : good st) (Hname : name_of cm = name).

Lemma version_write x : version st x -> version st' x.
Proof.
  intros (l & Hl & Hx). destruct (decide (name_of x = name)) as [E|N].
  - exists (cm :: past). unfold st'. rewrite E, lookup_insert_eq. split; [done|]. right. unfold past. rewrite <- E, Hl. done.
  - exists l. unfold st'. by rewrite lookup_insert_ne.
Qed.
Lemma version_write_inv x : version st' x -> x = cm \/ version st x.
Proof.
  intros (l & [[E <-]|[N Hl]]%lookup_insert_Some & Hx).
  - destruct Hx as [<-|Hx]; [by left|right]. unfold past in Hx. destruct (st !! name) as [l|] eqn:El; [|done].
    exists l. by rewrite <- E.
  - right. by exists l.
Qed.
Lemma version_new : version st' cm.
Proof. exists (cm :: past). unfold st'. rewrite Hname, lookup_insert_eq. split; [done|by left]. Qed.

Lemma claimed_write key id : claimed st' key id ->
  claimed st key id \/ (name = claim_name (networkIDShard key) /\ exists ids, claims_in cm ids /\ ids !! key = Some id).
Proof.
  intros (cur & older & ids & [[E [= <- <-]]|[N Hl]]%lookup_insert_Some & HC & Hi); [right|left].
  - split; [done|]. by exists ids.
  - by exists cur, older, ids.
Qed.
Lemma next_write : name <> networkIDSequenceName -> next_of st' = next_of st.
Proof. intros N. unfold next_of, st'. by rewrite lookup_insert_ne. Qed.

Lemma good_write :
  ~ In (version_of cm) (map version_of past) -> proper cm ->
  (forall shard, name = claim_name shard -> exists ids, claims_in cm ids /\ writable ids /\
     forall cur older before, past = cur :: older -> claims_in cur before -> before ⊆ ids) ->
  (forall key id, claimed st' key id -> 1 <= id < next_of st') -> next_of st' <= maxNetworkID + 1 ->
  (forall k1 k2 id, claimed st' k1 id -> claimed st' k2 id -> k1 = k2) ->
  good st'.
Proof.
  intros Hv Hp Hs Hr Hn Hu. split; try done.
  - intros n l [[E <-]|[N Hl]]%lookup_insert_Some; [|by apply (g_versions _ Hgood)]. subst n.
    assert (NoDup (map version_of past) /\ forall x, In x past -> name_of x = name) as [Hd Hx].
    { unfold past. destruct (st !! name) as [l|] eqn:El; [by apply (g_versions _ Hgood)|]. split; [constructor|done]. }
    split; [|by intros x [<-|Hin]; auto]. simpl. apply NoDup_cons. split; [|done]. intros Hin. by apply Hv, list_elem_of_In.
  - intros x [->|Hx]%version_write_inv; [done|]. by apply (g_proper _ Hgood).
  - intros shard l [[E <-]|[N Hl]]%lookup_insert_Some; [|exact (g_shards _ Hgood shard l Hl)].
    destruct (Hs _ E) as (ids & H1 & H2 & H3). exists cm, past, ids. do 3 (split; [done|]).
    intros old [<-|Hin]; [by exists ids|]. unfold past in Hin, H3. destruct (st !! name) as [l|] eqn:El; [|done]. simpl in *.
    rewrite E in El. destruct (g_shards _ Hgood shard _ El) as (cur & older & now & -> & Hc & _ & Ho).
    destruct (Ho _ Hin) as (before & Hb & Hsub). exists before. split; [done|]. transitivity now; [done|]. by eapply H3.
Qed.
End write.

(** ** The writes a pass may make *)

Section effects.
Variables (st : store) (owner : ownership) (i : nat).
Hypotheses (Hgood : good st) (Hrange : forall id ik, owner id = Some ik -> 1 <= id < next_of st)
  (Hclaims : forall id j key key', owner id = Some (j, key) -> claimed st key' id -> key' = key).

(** What is left to show after a call of pass [i]. *)
Definition preserved (st' : store) (own' : reservation) : Prop := exists owner',
  good st' /\ (forall id ik, owner id = Some ik -> owner' id = Some ik) /\
  (forall id ik, owner' id = Some ik -> 1 <= id < next_of st') /\
  (forall id j key key', owner' id = Some (j, key) -> claimed st' key' id -> key' = key) /\
  (forall x, version st x -> version st' x) /\ (forall id key, own' id = Some key -> owner' id = Some (i, key)).

Lemma write_absent name cm : st !! name = None -> <[name := [cm]]> st = <[name := cm :: default [] (st !! name)]> st.
Proof. by intros ->. Qed.

Lemma create_preserves own sent cm : (forall id key, own id = Some key -> owner id = Some (i, key)) ->
  creatable sent -> st !! name_of sent = None -> stored_as sent cm -> preserved (<[name_of sent := [cm]]> st) own.
Proof.
  intros Hown HC Hn HS. rewrite write_absent by done. set (st' := <[_ := _]> st). pose proof (proj1 HS) as En.
  assert (proper sent /\ (forall shard, name_of sent = claim_name shard -> claims_in sent ∅) /\
          (name_of sent = networkIDSequenceName -> get (cm_Data sent) "next" = "1"%string)) as (Hp & Hs & Hq).
  { destruct HC as [(ns & ->)|[(ns & uid & ->)|(ns & shard & ->)]].
    - split; [by intros Hc; vm_compute in Hc|]. split; [|done]. intros shard E. by apply not_claim_name in E.
    - split; [by intros Hc; vm_compute in Hc|]. split; [|done]. intros shard E. by apply not_claim_name in E.
    - assert (claims_in (new_shard ns shard) ∅) as Hc by by vm_compute.
      split; [intros _; split; [apply claim_name_prefix|]; exists ∅; split; [done|]; by intros k z Hk; rewrite lookup_empty in Hk|].
      split; [intros sh E; apply claim_name_inj in E as <-; done|]. intros E. symmetry in E. by apply not_claim_name in E. }
  assert (forall key id, claimed st' key id -> claimed st key id) as Hcl.
  { intros key id [H|(E & ids & Hc & Hk)]%claimed_write; [done|]. apply Hs in E. apply (claims_in_stored _ _ _ HS) in E.
    rewrite (claims_in_unique _ _ _ Hc E), lookup_empty in Hk. done. }
  assert (next_of st' = next_of st) as Hnx.
  { destruct (decide (name_of sent = networkIDSequenceName)) as [E|N]; [|by apply next_write].
    unfold next_of, st'. rewrite <- E at 1. rewrite lookup_insert_eq, <- E, Hn. destruct HS as (_ & _ & -> & _). by rewrite (Hq E). }
  exists owner. rewrite Hnx. split; [|eauto 8 using version_write].
  apply good_write; try done.
  - rewrite Hn. by intros [].
  - by eapply proper_stored.
  - intros shard E. exists ∅. split; [by eapply claims_in_stored; eauto|]. split; [by intros k z Hk; rewrite lookup_empty in Hk|]. by rewrite Hn.
  - intros key id H%Hcl. fold st'. rewrite Hnx. by apply (g_range _ Hgood) in H.
  - fold st'. rewrite Hnx. apply (g_next _ Hgood).
  - intros k1 k2 id H1%Hcl H2%Hcl. by eapply (g_unique _ Hgood).
Qed.

(** An update takes effect only on the version it was computed from. *)
Lemma updated_version obj cur past sent : version st obj -> name_of sent = name_of obj -> version_of sent = version_of obj ->
  st !! name_of sent = Some (cur :: past) -> version_of cur = version_of sent -> cur = obj.
Proof.
  intros (l & Hl & Ho) En Ev Hs Hv. rewrite En, Hl in Hs. injection Hs as ->.
  destruct (g_versions _ Hgood _ _ Hl) as [Hd _]. eapply (nodup_map_inj version_of); eauto; [by left|congruence].
Qed.
Lemma write_present name cm cur past : st !! name = Some (cur :: past) ->
  <[name := cm :: cur :: past]> st = <[name := cm :: default [] (st !! name)]> st.
Proof. by intros ->. Qed.

Lemma reserve_preserves K own own' sent cur past cm : (forall x, K x -> version st x) ->
  may_reserve K own own' sent -> st !! name_of sent = Some (cur :: past) -> version_of cur = version_of sent ->
  stored_as sent cm -> ~ In (version_of cm) (map version_of (cur :: past)) ->
  preserved (<[name_of sent := cm :: cur :: past]> st) own'.
Proof.
  intros HK (-> & seq & next & n & Hq & Hqn & Hpn & H1 & Hn & Hm & -> & Hr) Hs Hv HS Hf.
  pose proof (updated_version seq cur past _ (HK _ Hq) eq_refl eq_refl Hs Hv) as ->.
  change (name_of (cm_with_Data _ seq)) with (name_of seq) in *. pose proof (proj1 HS : name_of cm = name_of seq) as En.
  rewrite (write_present _ _ _ _ Hs). set (st' := <[_ := _]> st).
  assert (next_of st = next) as Hnx by (unfold next_of; rewrite <- Hqn, Hs, Hpn; done).
  assert (next_of st' = next + n) as Hnx'.
  { unfold next_of, st'. rewrite <- Hqn, lookup_insert_eq. destruct HS as (_ & _ & -> & _). cbn [cm_Data cm_with_Data].
    unfold get. rewrite lookup_insert_eq. cbn. rewrite ParseUint_utoa; [done|]. unfold maxNetworkID in Hm. lia. }
  assert (forall shard, name_of seq <> claim_name shard) as Hno by (intros shard; rewrite Hqn; by apply not_claim_name).
  assert (forall key id, claimed st' key id -> claimed st key id) as Hcl.
  { intros key id [H|(E & _)]%claimed_write; [done|]. by apply Hno in E. }
  assert (proper cm) as Hpc.
  { apply (proper_stored _ _ HS). intros Hc.
    destruct (g_proper _ Hgood seq (HK _ Hq) Hc) as [Hpre _]. by rewrite Hqn in Hpre. }
  exists (fun id => match own' id with Some key => Some (i, key) | None => owner id end). rewrite Hnx'. split; [|split; [|split; [|split; [|split]]]].
  - apply good_write; try done.
    + by rewrite Hs.
    + intros shard E. by apply Hno in E.
    + intros key id H%Hcl%(g_range _ Hgood). fold st'. lia.
    + fold st'. lia.
    + intros k1 k2 id E1%Hcl E2%Hcl. by eapply (g_unique _ Hgood).
  - intros id ik Ho. destruct (own' id) as [key|] eqn:Eo; [|done]. apply Hrange in Ho. apply Hr in Eo. lia.
  - intros id ik. destruct (own' id) as [key|] eqn:Eo; [apply Hr in Eo; lia|]. intros Ho%Hrange. lia.
  - intros id j key key' Ho HC%Hcl. pose proof (g_range _ Hgood _ _ HC). destruct (own' id) as [k|] eqn:Eo; [apply Hr in Eo; lia|by eapply Hclaims].
  - intros x. by apply version_write.
  - intros id key ->. done.
Qed.

Lemma publish_preserves K own own' sent cur past cm : (forall x, K x -> version st x) ->
  (forall id key, own id = Some key -> owner id = Some (i, key)) ->
  may_publish K own own' sent -> st !! name_of sent = Some (cur :: past) -> version_of cur = version_of sent ->
  stored_as sent cm -> ~ In (version_of cm) (map version_of (cur :: past)) ->
  preserved (<[name_of sent := cm :: cur :: past]> st) own'.
Proof.
  intros HK Hown (-> & obj & shard & before & after & Ho & Hon & Hb & Hsub & Hw & Hnew & ->) Hs Hv HS Hf.
  pose proof (updated_version obj cur past _ (HK _ Ho) eq_refl eq_refl Hs Hv) as ->.
  change (name_of (cm_with_Data _ obj)) with (name_of obj) in *. pose proof (proj1 HS : name_of cm = name_of obj) as En.
  rewrite (write_present _ _ _ _ Hs). set (st' := <[_ := _]> st).
  assert (claims_in cm after) as Ha.
  { apply (claims_in_stored _ _ _ HS). unfold claims_in. cbn [cm_Data cm_with_Data]. unfold get. rewrite lookup_insert_eq.
    by apply decode_encode_claims. }
  assert (next_of st' = next_of st) as Hnx by (apply next_write; rewrite Hon; intros E; symmetry in E; by apply not_claim_name in E).
  (* a claim of the new state is an old one or a reserved one *)
  assert (forall key id, claimed st' key id -> claimed st key id \/ own id = Some key) as Hcl.
  { intros key id [H|(E & ids & Hc & Hk)]%claimed_write; [by left|]. rewrite (claims_in_unique _ _ _ Hc Ha) in Hk.
    destruct (Hnew _ _ Hk) as [Hk'|?]; [left|by right]. exists obj, past, before. rewrite <- E. done. }
  exists owner. rewrite Hnx. split; [|split; [done|split; [done|split; [|split; [|done]]]]].
  - apply good_write; try done.
    + by rewrite Hs.
    + apply (proper_stored _ _ HS). intros _. split; [change (HasPrefix (name_of obj) networkIDClaimPrefix = true); rewrite Hon; apply claim_name_prefix|]. exists after. split; [|done].
      unfold claims_in in *. destruct HS as (_ & _ & <- & _). done.
    + intros sh E. exists after. split; [done|]. split; [done|]. rewrite Hs. intros c o b [= <- <-] Hb'.
      by rewrite (claims_in_unique _ _ _ Hb' Hb).
    + fold st'. rewrite Hnx. intros key id [H|H]%Hcl; [by apply (g_range _ Hgood) in H|]. by apply Hown, Hrange in H.
    + fold st'. rewrite Hnx. apply (g_next _ Hgood).
    + intros k1 k2 id [E1|E1]%Hcl [E2|E2]%Hcl.
      * by eapply (g_unique _ Hgood).
      * apply Hown in E2. by eapply Hclaims.
      * symmetry. apply Hown in E1. by eapply Hclaims.
      * congruence.
  - intros id j key key' Hid [HC|HC]%Hcl; [by eapply Hclaims|]. apply Hown in HC. congruence.
  - intros x. by apply version_write.
Qed.

(** A call that takes effect, made by a pass that keeps the discipline. *)
Lemma effect_preserves K own own' o st' shown : (forall x, K x -> version st x) ->
  (forall id key, own id = Some key -> owner id = Some (i, key)) ->
  permits K own o own' -> effect st o st' shown -> preserved st' own'.
Proof.
  intros HK Hown HP HE.
  assert (own' = own -> st' = st -> preserved st' own') as Hread.
  { intros -> ->. exists owner. done. }
  destruct o as [[] [] ns name|[] [] s|[] [] x|[] [] x|[] [] x|[] [] ns name p|n|d n|p c]; simpl in HP, HE; try done;
    try (destruct HE; by apply Hread).
  - destruct HE as (cm & Hn & HS & -> & _), HP as [-> HC]. by eapply create_preserves.
  - destruct HE as (cur & past & cm & Hs & Hv & HS & Hf & -> & _), HP as [HR|HR].
    + by eapply reserve_preserves.
    + by eapply publish_preserves.
Qed.
End effects.

(** ** Every step *)

Section steps.
Variable cfg : PlatformConfig.Config.

Lemma call_consistent st st' owner ts i keys o k (x : ans o) : consistent st owner ts -> ts !! i = Some (keys, Act o k) ->
  serve st o x st' -> exists owner', consistent st' owner' (<[i := (keys, k x)]> ts).
Proof.
  intros [HG HR HC HT] Hi HS. destruct (HT _ _ _ Hi) as (K & own & (own' & HP & Hk) & HK & Hown).
  assert (exists owner', good st' /\ (forall id ik, owner id = Some ik -> owner' id = Some ik) /\
    (forall id ik, owner' id = Some ik -> 1 <= id < next_of st') /\
    (forall id j key key', owner' id = Some (j, key) -> claimed st' key' id -> key' = key) /\
    (forall y, version st y -> version st' y) /\
    (forall id key, (if answered_ok o x then own' else own) id = Some key -> owner' id = Some (i, key)) /\
    (forall cm, shows o x cm -> about o cm /\ version st' cm)) as (owner' & HG' & Hold & HR' & HC' & HV & Hown' & Hsh).
  { destruct HS as [[Ha ->]|(shown & HE & Hx)].
    - exists owner. rewrite Ha. do 6 (split; [done|]). intros cm Hsh. exfalso. clear -Ha Hsh.
      destruct o as [c [] ns name|c [] s|c [] y|c [] y|c [] y|c [] ns name p|n|d n|p c]; simpl in *; try done; subst; try done.
      by destruct Hsh as (l & -> & _).
    - destruct (effect_preserves st owner i HG HR HC K own own' o st' shown HK Hown HP HE) as (owner' & H1 & H2 & H3 & H4 & H5 & H6).
      exists owner'. do 5 (split; [done|]). split.
      + intros id key. destruct (answered_ok o x); [by apply H6|]. intros Hid. by apply H2, Hown.
      + intros cm Hsh. destruct (answered_ok o x) eqn:Ea; [destruct (Hx eq_refl _ Hsh) as (? & ? & _); done|].
        exfalso. clear -Ea Hsh. destruct o as [c [] ns name|c [] s|c [] y|c [] y|c [] y|c [] ns name p|n|d n|p c]; simpl in *; try done; subst; try done.
        by destruct Hsh as (l & -> & _). }
  exists owner'. split; try done. intros j keys' p Hj. destruct (decide (i = j)) as [<-|N].
  - rewrite list_lookup_insert_eq in Hj by (by eapply lookup_lt_Some). injection Hj as <- <-.
    exists (fun cm => K cm \/ shows o x cm), (if answered_ok o x then own' else own). split; [|split; [|done]].
    + apply Hk. intros cm Hcm. destruct (Hsh cm Hcm) as [Hab Hver]. split; [done|]. by apply (g_proper _ HG').
    + intros cm [Hcm|Hcm]; [by apply HV, HK|by apply Hsh].
  - rewrite list_lookup_insert_ne in Hj by done. destruct (HT _ _ _ Hj) as (K' & own'' & H1 & H2 & H3).
    exists K', own''. split; [done|]. split; auto.
Qed.

Lemma other_consistent st owner ts cm : consistent st owner ts -> unrelated cm ->
  ~ In (version_of cm) (map version_of (default [] (st !! name_of cm))) ->
  consistent (<[name_of cm := cm :: default [] (st !! name_of cm)]> st) owner ts.
Proof.
  intros [HG HR HC HT] (Hs & Hn & _) Hf. set (st' := <[_ := _]> st).
  assert (forall shard, name_of cm <> claim_name shard) as Hno.
  { intros shard E. unfold claim_shaped in Hs. apply orb_false_iff in Hs as [Hs _]. change (om_Name (cm_Meta cm)) with (name_of cm) in Hs.
    by rewrite E, claim_name_prefix in Hs. }
  assert (next_of st' = next_of st) as Hnx by by apply next_write.
  assert (forall key id, claimed st' key id -> claimed st key id) as Hcl.
  { intros key id [H|(E & _)]%claimed_write; [done|]. by apply Hno in E. }
  split; try rewrite Hnx; try done.
  - apply good_write; try done.
    + intros Hc. congruence.
    + intros shard E. by apply Hno in E.
    + intros key id H%Hcl%(g_range _ HG). fold st'. by rewrite Hnx.
    + fold st'. rewrite Hnx. apply (g_next _ HG).
    + intros k1 k2 id E1%Hcl E2%Hcl. by eapply (g_unique _ HG).
  - intros id i key key' Ho H%Hcl. by eapply HC.
  - intros i keys p Hi. destruct (HT _ _ _ Hi) as (K & own & H1 & H2 & H3). exists K, own. split; [done|]. split; [|done].
    intros x Hx. apply version_write. auto.
Qed.

Lemma start_consistent s : fresh_start s -> exists owner, consistent (sy_store s) owner (sy_threads s).
Proof.
  intros [Ht Hst]. exists (fun _ => None). rewrite Ht.
  assert (forall name l, sy_store s !! name = Some l -> forall shard, name <> claim_name shard) as Hno.
  { intros name l Hl shard ->. destruct (Hst _ _ Hl) as (_ & Hne & Hu). destruct l as [|cm l]; [done|].
    destruct (Hu cm ltac:(by left)) as (En & (Hs & _ & _)). unfold claim_shaped in Hs. apply orb_false_iff in Hs as [Hs _].
    change (om_Name (cm_Meta cm)) with (name_of cm) in Hs. by rewrite En, claim_name_prefix in Hs. }
  assert (forall key id, ~ claimed (sy_store s) key id) as Hnc.
  { intros key id (cur & past & ids & Hl & _). by eapply Hno in Hl. }
  split; try done.
  - split; try by intros; exfalso; eapply Hnc.
    + intros name l Hl. destruct (Hst _ _ Hl) as (H1 & _ & H2). split; [done|]. intros cm Hc. by apply H2.
    + intros cm (l & Hl & Hc) Hs. destruct (Hst _ _ Hl) as (_ & _ & H2). destruct (H2 _ Hc) as (_ & Hu & _). congruence.
    + intros shard l Hl. by destruct (Hno _ _ Hl shard).
    + unfold next_of. destruct (sy_store s !! networkIDSequenceName) as [[|cur past]|] eqn:El; [done| |done].
      destruct (Hst _ _ El) as (_ & _ & H2). destruct (H2 cur ltac:(by left)) as (En & _ & Hq & _). done.
Qed.
End steps.
