(* ===== verification/NetworkIDFacts.v ===== *)
(** * [networkIDs] keeps the discipline

    One pass of [networkIDs] is [safe] from a cold start, and certifies the IDs it
    returns: each one is in a version of the claims that the pass has seen. *)
From S2P Require Import Prelude GoStd Json JsonFacts JsonDecode Api PlatformConfig Prog Kube NetworkID NetworkIDSystem.
Open Scope Z_scope.

(** ** Rules of [safe] *)

Lemma safe_bind {A B} (p : kprog A) (f : A -> kprog B) K own Q :
  safe p K own (fun K' own' a => safe (f a) K' own' Q) -> safe (bind p f) K own Q.
Proof.
  revert K own. induction p as [a|o k IH]; intros K own; simpl; [done|].
  intros (own' & HP & HK). exists own'. split; [done|]. intros x Hx. by apply IH, HK.
Qed.
Lemma safe_bind_ok {A B} (p : kprog (res A)) (f : A -> kprog (res B)) K own Q :
  safe p K own (fun K' own' r => match r with Ok a => safe (f a) K' own' Q | Err e => Q K' own' (Err e) end) ->
  safe (bind_ok p f) K own Q.
Proof.
  intros H. apply safe_bind. revert K own H. induction p as [[a|e]|o k IH]; intros K own; simpl; [done..|].
  intros (own' & HP & HK). exists own'. split; [done|]. intros x Hx. by apply IH, HK.
Qed.
Lemma safe_mono {A} (p : kprog A) K own (Q Q' : knowledge -> reservation -> A -> Prop) :
  (forall K' own' a, Q K' own' a -> Q' K' own' a) -> safe p K own Q -> safe p K own Q'.
Proof.
  intros HQ. revert K own. induction p as [a|o k IH]; intros K own; simpl; [auto|].
  intros (own' & HP & HK). exists own'. split; [done|]. intros x Hx. by apply IH, HK.
Qed.

Lemma safe_Ret {A} (a : A) K own (Q : knowledge -> reservation -> A -> Prop) : Q K own a -> safe (Ret a) K own Q.
Proof. done. Qed.

Definition knows (K K' : knowledge) : Prop := forall cm, K cm -> K' cm.
Lemma knows_refl K : knows K K.
Proof. by intros cm. Qed.
Lemma knows_trans K1 K2 K3 : knows K1 K2 -> knows K2 K3 -> knows K1 K3.
Proof. unfold knows. auto. Qed.

(** A call that changes no reservation: its answer is learned. *)
Lemma safe_call {A} (o : op) (f : ans o -> kprog A) K own Q :
  permits K own o own ->
  (forall x K', knows K K' -> (forall cm, shows o x cm -> K' cm /\ about o cm /\ proper cm) -> safe (f x) K' own Q) ->
  safe (Act o f) K own Q.
Proof.
  intros HP H. exists own. split; [done|]. intros x Hx. replace (if answered_ok o x then own else own) with own by (by destruct (answered_ok o x)).
  apply H; [by intros cm; left|]. intros cm Hs. split; [by right|auto].
Qed.

(** ** Reading the registry *)

Lemma HasPrefix_TrimPrefix s p : HasPrefix s p = true -> s = (p ++ TrimPrefix s p)%string.
Proof.
  intros H. unfold TrimPrefix. rewrite H. revert s H. induction p as [|c p IH]; intros [|d s]; try done.
  simpl. intros [->%Ascii.eqb_eq H]%andb_true_iff. rewrite str_app_cons. by rewrite <- IH.
Qed.

(** The shards a pass works on: versions it has seen, with their decoded claims. *)
Definition shards_seen (K : knowledge) (objects : gmap string ConfigMap) (claims : gmap string (gmap string Z)) : Prop :=
  (forall shard cm, objects !! shard = Some cm -> K cm /\ name_of cm = claim_name shard /\
     claims_in cm (default ∅ (claims !! shard)) /\ writable (default ∅ (claims !! shard))) /\
  forall shard, objects !! shard = None -> claims !! shard = None.
Lemma shards_seen_knows K K' objects claims : knows K K' -> shards_seen K objects claims -> shards_seen K' objects claims.
Proof. intros HK [H1 H2]. split; [|done]. intros shard cm Ho. destruct (H1 _ _ Ho) as (? & ?). split; auto. Qed.
Lemma shards_seen_insert K objects claims shard cm ids : shards_seen K objects claims -> K cm -> name_of cm = claim_name shard ->
  claims_in cm ids -> writable ids -> shards_seen K (<[shard := cm]> objects) (<[shard := ids]> claims).
Proof.
  intros [H1 H2] HK HN HC HW. split.
  - intros sh c [[<- <-]|[N Ho]]%lookup_insert_Some; [by rewrite lookup_insert_eq|]. rewrite lookup_insert_ne by done. by apply H1.
  - intros sh [Ho N]%lookup_insert_None. rewrite lookup_insert_ne by done. by apply H2.
Qed.

Lemma scan_claims_seen K items : forall s s', (forall cm, In cm items -> K cm /\ proper cm) ->
  shards_seen K (sc_objects s) (sc_claims s) -> scan_claims s items = Ok s' -> shards_seen K (sc_objects s') (sc_claims s').
Proof.
  induction items as [|cm rest IH]; intros s s' HI Hs; simpl; [by intros [= <-]|].
  destruct (claim_shaped cm) eqn:Ec; simpl; [|by apply IH; auto with datatypes].
  destruct (decode_claims _) as [[ids|]|] eqn:Ed; [|done..]. intros H. follow_step H. follow_step H. follow_step H.
  destruct (HI cm) as [HK HP]; [by left|]. destruct (HP Ec) as (Hpre & ids' & Hc & Hw).
  rewrite (claims_in_unique cm ids' ids Hc Ed) in *. eapply IH; [by auto with datatypes| |exact H]. simpl.
  apply shards_seen_insert; try done. by apply HasPrefix_TrimPrefix.
Qed.

#[local] Arguments safe : simpl never.
(** One construct of a pass. *)
Ltac sstep :=
  lazymatch goal with
  | |- safe (bind_ok _ _) _ _ _ => apply safe_bind_ok
  | |- safe (bind _ _) _ _ _ => apply safe_bind
  | |- safe (Ret _) _ _ _ => apply safe_Ret
  | |- safe (if ?c then _ else _) _ _ _ => let Ec := fresh "Ec" in destruct c eqn:Ec
  | |- safe (kcreate _ _ _) _ _ _ => apply safe_call
  | |- safe (kupdate _ _ _) _ _ _ => apply safe_call
  | |- safe (kget _ _ _ _) _ _ _ => apply safe_call
  | |- safe (klist _ _ _) _ _ _ => apply safe_call
  end.

Lemma safe_kfind ns name K own (Q : knowledge -> reservation -> res (option ConfigMap) -> Prop) :
  (forall r K', knows K K' -> (forall cm, r = Ok (Some cm) -> K' cm /\ name_of cm = name) -> Q K' own r) ->
  safe (kfind Authority KConfigMap ns name) K own Q.
Proof.
  intros HQ. unfold kfind. sstep. sstep; [done|]. intros x K' HK Hs. do 2 sstep.
  apply HQ; [done|]. intros cm E. destruct x as [c|e]; simpl in E; [injection E as ->|by destruct (IsNotFound e)].
  destruct (Hs cm eq_refl) as (? & ? & _). done.
Qed.

Lemma safe_get_anchor ns K own (Q : knowledge -> reservation -> res (option ConfigMap) -> Prop) :
  (forall r K', knows K K' -> Q K' own r) -> safe (get_anchor ns) K own Q.
Proof.
  intros HQ. unfold get_anchor. sstep. apply safe_kfind. intros [[a|]|e] K' HK _; [sstep; sstep|sstep|]; by apply HQ.
Qed.

Lemma safe_get_sequence ns anchor highest K own (Q : knowledge -> reservation -> res ConfigMap -> Prop) :
  (forall r K', knows K K' -> (forall seq, r = Ok seq -> K' seq /\ name_of seq = networkIDSequenceName) -> Q K' own r) ->
  safe (get_sequence ns anchor highest) K own Q.
Proof.
  intros HQ. unfold get_sequence. sstep. apply safe_kfind. intros [[seq|]|e] K' HK Hs; [| |by apply HQ].
  - sstep. apply HQ; [done|]. intros ? [= <-]. by apply Hs.
  - sstep; [sstep; by apply HQ|]. sstep; [split; [done|]; left; by eexists|].
    intros x K2 HK2 Hx. sstep. apply HQ; [by eapply knows_trans|]. intros seq ->. destruct (Hx seq eq_refl) as (H1 & (H2 & _) & _). done.
Qed.

Lemma safe_ensure_anchor ns anchor seq next highest K own (Q : knowledge -> reservation -> res unit -> Prop) :
  (forall r K', knows K K' -> Q K' own r) -> safe (ensure_anchor ns anchor seq next highest) K own Q.
Proof.
  intros HQ. unfold ensure_anchor. destruct anchor as [a|].
  - sstep; sstep; apply HQ, knows_refl.
  - sstep; [sstep; apply HQ, knows_refl|]. sstep. sstep; [split; [done|]; right; left; by do 2 eexists|].
    intros [c|e] K' HK _; sstep; [sstep|]; by apply HQ.
Qed.

Lemma safe_create_shards ns shards : forall objects claims K own
  (Q : knowledge -> reservation -> res (gmap string ConfigMap * gmap string (gmap string Z)) -> Prop), shards_seen K objects claims ->
  (forall e K', knows K K' -> Q K' own (Err e)) ->
  (forall objects' claims' K', knows K K' -> shards_seen K' objects' claims' ->
     (forall shard, default ∅ (claims' !! shard) = default ∅ (claims !! shard)) -> Q K' own (Ok (objects', claims'))) ->
  safe (create_shards ns shards objects claims) K own Q.
Proof.
  induction shards as [|shard rest IH]; intros objects claims K own Q Hs HE HQ; cbn [create_shards];
    [sstep; apply HQ; [apply knows_refl|done|done]|].
  destruct (objects !! shard) as [cm|] eqn:Eo; [by apply IH|]. sstep. sstep; [split; [done|]; do 2 right; by do 2 eexists|].
  intros [cm|e] K' HK Hx; sstep; [|by apply HE]. destruct (Hx cm eq_refl) as (H1 & H2 & _).
  assert (claims !! shard = None) as En by by apply Hs.
  apply IH.
  - apply shards_seen_insert; [by eapply shards_seen_knows|done|apply H2| |by intros k z Hk; rewrite lookup_empty in Hk].
    apply (claims_in_stored _ _ _ H2). by vm_compute.
  - intros e K2 HK2. apply HE. by eapply knows_trans.
  - intros objects' claims' K2 HK2 Hs2 Hd. apply HQ; [by eapply knows_trans|done|]. intros sh. rewrite Hd.
    destruct (decide (shard = sh)) as [<-|N]; [by rewrite lookup_insert_eq, En|by rewrite lookup_insert_ne].
Qed.

(** ** The IDs of a pass, as data *)

Section assignment.
Variables (groups : gmap string (list string)) (claims : gmap string (gmap string Z)).

Lemma missing_keys_in shards key :
  In key (missing_keys groups claims shards) <-> exists shard, In shard shards /\ In key (group groups shard) /\ claim_of claims shard key = None.
Proof.
  unfold missing_keys. rewrite in_flat_map. split.
  - intros (shard & H1 & [H2 H3]%filter_In). breflect. by exists shard.
  - intros (shard & H1 & H2 & H3). exists shard. split; [done|]. apply filter_In. split; [done|]. by apply bool_decide_eq_true.
Qed.

(** [known_ids], key by key and shard by shard. *)
Definition add_keys (shard : string) (m : gmap string Z) (keys : list string) : gmap string Z :=
  foldl (fun m key => match claim_of claims shard key with Some id => <[key := id]> m | None => m end) m keys.
Definition add_known (m : gmap string Z) (shard : string) : gmap string Z := add_keys shard m (group groups shard).
Lemma known_ids_fold shards : known_ids groups claims shards = foldl add_known ∅ shards.
Proof. done. Qed.

Lemma add_keys_in shard keys : forall (m : gmap string Z) key id, add_keys shard m keys !! key = Some id ->
  m !! key = Some id \/ (In key keys /\ claim_of claims shard key = Some id).
Proof.
  induction keys as [|k keys IH]; intros m key id; simpl; [by left|]. intros [H|[H1 H2]]%IH; [|by auto].
  destruct (claim_of claims shard k) as [z|] eqn:Ez; [|by left].
  apply lookup_insert_Some in H as [[<- <-]|[N H]]; auto.
Qed.
Lemma add_keys_some shard keys : forall (m : gmap string Z) key,
  is_Some (m !! key) \/ (In key keys /\ is_Some (claim_of claims shard key)) -> is_Some (add_keys shard m keys !! key).
Proof.
  induction keys as [|k keys IH]; intros m key; simpl; [by intros [?|[[] _]]|]. intros H. apply IH.
  destruct (decide (k = key)) as [->|N].
  - destruct (claim_of claims shard key) as [z|] eqn:Ez; [left; rewrite lookup_insert_eq; by eexists|].
    destruct H as [?|[_ [? ?]]]; [by left|done].
  - destruct H as [H|[[->|H1] H2]]; [left|done|by right]. destruct (claim_of claims shard k); [|done]. by rewrite lookup_insert_ne.
Qed.

Lemma known_ids_in shards key id : known_ids groups claims shards !! key = Some id ->
  exists shard, In shard shards /\ In key (group groups shard) /\ claim_of claims shard key = Some id.
Proof.
  rewrite known_ids_fold. enough (forall m : gmap string Z, foldl add_known m shards !! key = Some id -> m !! key = Some id \/
    exists shard, In shard shards /\ In key (group groups shard) /\ claim_of claims shard key = Some id) as G
    by (intros H; destruct (G _ H) as [H'|?]; [by rewrite lookup_empty in H'|done]).
  induction shards as [|shard rest IH]; intros m; simpl; [by left|]. intros [H|(sh & H)]%IH; [|right; exists sh; naive_solver].
  apply add_keys_in in H as [?|[H1 H2]]; [by left|right; exists shard; auto].
Qed.
Lemma known_ids_some shards key shard : In shard shards -> In key (group groups shard) -> is_Some (claim_of claims shard key) ->
  is_Some (known_ids groups claims shards !! key).
Proof.
  intros H1 H2 H3. rewrite known_ids_fold.
  enough (forall l (m : gmap string Z), is_Some (m !! key) \/ In shard l -> is_Some (foldl add_known m l !! key)) as G by (apply G; by right).
  induction l as [|sh l IH]; intros m; simpl; [by intros [?|[]]|]. intros [H|[->|H]]; apply IH; [left; apply add_keys_some; by left| |by right].
  left. apply add_keys_some. by right.
Qed.
End assignment.

Lemma assign_ids_in missing : forall next (result : gmap string Z) key id, assign_ids next result missing !! key = Some id ->
  (result !! key = Some id /\ ~ In key missing) \/ exists i, missing !! i = Some key /\ id = next + Z.of_nat i.
Proof.
  induction missing as [|k rest IH]; intros next result key id; simpl; [by left; auto|].
  intros [[H N]|(i & H1 & ->)]%IH.
  - apply lookup_insert_Some in H as [[<- <-]|[Nk H]]; [right; exists 0%nat; simpl; split; [done|lia]|].
    left. split; [done|]. intros [?|?]; done.
  - right. exists (S i). simpl. split; [done|lia].
Qed.
Lemma assign_ids_some missing : forall next (result : gmap string Z) key, is_Some (result !! key) \/ In key missing ->
  is_Some (assign_ids next result missing !! key).
Proof.
  induction missing as [|k rest IH]; intros next result key; simpl; [by intros [?|[]]|]. intros H. apply IH.
  destruct (decide (k = key)) as [->|N]; [left; rewrite lookup_insert_eq; by eexists|].
  destruct H as [H|[?|H]]; [left; by rewrite lookup_insert_ne|done|by right].
Qed.

Lemma add_claims_spec (result : gmap string Z) keys : forall before,
  before ⊆ add_claims result keys before /\
  (forall key id, add_claims result keys before !! key = Some id ->
     before !! key = Some id \/ (In key keys /\ before !! key = None /\ id = default 0 (result !! key))) /\
  (forall key, In key keys -> is_Some (add_claims result keys before !! key)).
Proof.
  unfold add_claims. induction keys as [|k rest IH]; intros before; simpl; [split; [done|]; split; [by left|by intros ? []]|].
  destruct (before !! k) as [z|] eqn:Ez.
  - destruct (IH before) as (H1 & H2 & H3). split; [done|]. split.
    + intros key id [?|(? & ? & ?)]%H2; auto.
    + intros key [<-|H]; [|auto]. exists z. by eapply lookup_weaken.
  - destruct (IH (<[k := default 0 (result !! k)]> before)) as (H1 & H2 & H3). split; [|split].
    + etransitivity; [|exact H1]. by apply insert_subseteq.
    + intros key id [[[<- <-]|[N H]]%lookup_insert_Some|(? & [? ?]%lookup_insert_None & ?)]%H2; auto.
    + intros key [<-|H]; [|auto]. exists (default 0 (result !! k)). eapply lookup_weaken; [|exact H1]. apply lookup_insert_eq.
Qed.

(** *** Grouping *)

Lemma group_keys_spec keys : forall unique groups,
  (forall shard key, In key (group groups shard) -> networkIDShard key = shard) ->
  (forall key, key ∈ unique -> In key (group groups (networkIDShard key))) ->
  let g := group_keys unique groups keys in
  (forall shard key, In key (group g shard) -> networkIDShard key = shard /\ (In key keys \/ In key (group groups shard))) /\
  (forall key, In key keys \/ In key (group groups (networkIDShard key)) -> In key (group g (networkIDShard key))).
Proof.
  induction keys as [|k keys IH]; intros unique groups Hg Hu; simpl; [naive_solver|].
  destruct (bool_decide (k ∈ unique)) eqn:E; breflect.
  - destruct (IH unique groups Hg Hu) as [H1 H2]. split.
    + intros shard key H. destruct (H1 _ _ H) as [? [?|?]]; auto.
    + intros key [[<-|H]|H]; auto.
  - set (groups' := <[_ := _]> groups).
    assert (forall shard, group groups' shard = if decide (shard = networkIDShard k) then group groups shard ++ [k] else group groups shard) as Eg.
    { intros shard. unfold groups', group. destruct (decide _) as [->|N]; [by rewrite lookup_insert_eq|by rewrite lookup_insert_ne by done]. }
    destruct (IH ({[k]} ∪ unique) groups') as [H1 H2].
    + intros shard key. rewrite Eg. destruct (decide _) as [->|N]; [|apply Hg]. intros [?|[<-|[]]]%in_app_iff; auto.
    + intros key [->%elem_of_singleton|H]%elem_of_union; rewrite Eg; destruct (decide _) as [Es|N]; try done.
      * apply in_app_iff. right. by left.
      * apply in_app_iff. left. by apply Hu.
      * by apply Hu.
    + split.
      * intros shard key H. destruct (H1 _ _ H) as [H3 [?|H4]]; [auto|]. split; [done|]. rewrite Eg in H4.
        destruct (decide _) as [->|N]; [|auto]. apply in_app_iff in H4 as [?|[<-|[]]]; auto.
      * intros key H. apply H2. rewrite Eg. destruct H as [[<-|H]|H]; [right|by left|right].
        -- destruct (decide _); [|done]. apply in_app_iff. right. by left.
        -- destruct (decide _); [|done]. apply in_app_iff. by left.
Qed.
Lemma groups_of_keys keys : let g := group_keys ∅ ∅ keys in
  (forall shard key, In key (group g shard) <-> networkIDShard key = shard /\ In key keys) /\
  (forall key, In key keys -> In (networkIDShard key) (sort_strings (map fst (map_to_list g)))).
Proof.
  intros g. destruct (group_keys_spec keys ∅ ∅) as [H1 H2].
  - intros shard key H. unfold group in H. by rewrite lookup_empty in H.
  - set_solver.
  - fold g in H1, H2.
    assert (forall shard key, In key (group g shard) -> networkIDShard key = shard /\ In key keys) as H3.
    { intros shard key H. destruct (H1 _ _ H) as [? [?|H']]; [done|]. unfold group in H'. by rewrite lookup_empty in H'. }
    split; [intros shard key; split; [apply H3|intros [<- H]; by apply H2; left]|].
    intros key H. apply sort_strings_in. assert (In key (group g (networkIDShard key))) as Hk by by apply H2; left.
    unfold group in Hk. destruct (g !! networkIDShard key) as [l|] eqn:El; [|done].
    apply (in_map fst (map_to_list g) (networkIDShard key, l)). by apply list_elem_of_In, elem_of_map_to_list.
Qed.

(** ** Publishing and reserving *)

(** [id] is what [key] holds in a version of its shard that the pass has seen. *)
Definition seen_claim (K : knowledge) (shard key : string) (id : Z) : Prop :=
  exists cm ids, K cm /\ name_of cm = claim_name shard /\ claims_in cm ids /\ ids !! key = Some id.
Lemma seen_claim_knows K K' shard key id : knows K K' -> seen_claim K shard key id -> seen_claim K' shard key id.
Proof. intros HK (cm & ids & H & ?). exists cm, ids. split; [by apply HK|done]. Qed.

Section publishing.
Variables (groups : gmap string (list string)) (objects : gmap string ConfigMap) (claims : gmap string (gmap string Z))
  (result : gmap string Z) (own : reservation).
Hypotheses (Hids : forall id key, own id = Some key -> 0 <= id < 2 ^ 32)
  (Hascii : forall shard key, In key (group groups shard) -> ascii_only key = true).

(** The keys of a shard that the pass has to publish, with reserved IDs. *)
Definition pending (shard key : string) : Prop := In key (group groups shard) /\ claim_of claims shard key = None.

Lemma safe_publish shards : forall K (Q : knowledge -> reservation -> res unit -> Prop), shards_seen K objects claims ->
  (forall shard key, In shard shards -> pending shard key -> exists id, result !! key = Some id /\ own id = Some key) ->
  (forall r K', knows K K' ->
     (r = Ok tt -> forall shard key id, In shard shards -> pending shard key -> result !! key = Some id -> seen_claim K' shard key id) -> Q K' own r) ->
  safe (publish shards groups objects claims result) K own Q.
Proof.
  induction shards as [|shard rest IH]; intros K Q Hs Hr HQ; cbn [publish]; [sstep; by apply HQ; [apply knows_refl|]|].
  set (before := default ∅ (claims !! shard)). destruct (add_claims_spec result (group groups shard) before) as (Hsub & Hafter & Hall).
  set (after := add_claims _ _ before) in *. sstep; breflect.
  - apply IH; [done|intros sh key Hsh; apply (Hr sh key); by right|]. intros r K' HK HP. apply HQ; [done|]. intros -> sh key id [<-|Hin] Hp E; [|by eapply HP].
    destruct Hp as [Hg Hn]. destruct (Hall _ Hg) as [z Hz]. rewrite Ec in Hz. unfold claim_of in Hn. fold before in Hn. congruence.
  - sstep; [sstep; apply HQ; [apply knows_refl|done]|]. destruct (objects !! shard) as [cm|] eqn:Eo; [|sstep; apply HQ; [apply knows_refl|done]].
    destruct Hs as [Hs1 Hs2]. destruct (Hs1 _ _ Eo) as (HKc & Hn & Hc & Hw). fold before in Hc, Hw.
    assert (forall key id, after !! key = Some id -> before !! key = Some id \/ (own id = Some key /\ In key (group groups shard))) as Hnew.
    { intros key id [?|(Hin & Hb & ->)]%Hafter; [by left|right]. destruct (Hr shard key) as (z & Hz & Ho); [by left|done|]. by rewrite Hz. }
    assert (writable after) as Hwa.
    { intros key id [H|[Ho Hin]]%Hnew; [by apply Hw|]. split; [by eapply Hascii|by eapply Hids]. }
    sstep. sstep.
    + right. split; [done|]. exists cm, shard, before, after. do 5 (split; [done|]). split; [|done]. intros key id [?|[? _]]%Hnew; auto.
    + intros [st|e] K' HK Hx; [|apply HQ; done]. destruct (Hx st eq_refl) as (HKst & HSt & _).
      assert (claims_in st after) as Hca.
      { apply (claims_in_stored _ _ _ HSt). unfold claims_in. cbn [cm_Data cm_with_Data]. unfold get. rewrite lookup_insert_eq.
        by apply decode_encode_claims. }
      apply IH; [by apply (shards_seen_knows K)|intros sh key Hsh; apply (Hr sh key); by right|]. intros r K2 HK2 HP. apply HQ; [by eapply knows_trans|].
      intros -> sh key id [<-|Hin] Hp E; [|by eapply HP]. exists st, after. split; [by apply HK2|]. split; [by rewrite (proj1 HSt)|].
      split; [done|]. destruct (Hall _ (proj1 Hp)) as [z Hz]. rewrite Hz. destruct (Hafter _ _ Hz) as [Hb|(_ & _ & ->)]; [|by rewrite E].
      destruct Hp as [_ Hn']. unfold claim_of in Hn'. fold before in Hn'. congruence.
Qed.
End publishing.

(** The keys of [sorted] are reserved in order from [next]. *)
Definition reserve_from (next : Z) (sorted : list string) : reservation :=
  fun id => if next <=? id then sorted !! Z.to_nat (id - next) else None.
Lemma reserve_from_range next sorted id key : reserve_from next sorted id = Some key -> next <= id < next + Z.of_nat (List.length sorted).
Proof. unfold reserve_from. destruct (next <=? id) eqn:E; [|done]. intros H%lookup_lt_Some. breflect. lia. Qed.
Lemma assign_reserved next known sorted key id : assign_ids next known sorted !! key = Some id ->
  (known !! key = Some id /\ ~ In key sorted) \/ reserve_from next sorted id = Some key.
Proof.
  intros [?|(i & Hi & ->)]%assign_ids_in; [by left|right]. unfold reserve_from.
  replace (next <=? next + Z.of_nat i) with true by (symmetry; apply Z.leb_le; lia).
  by replace (next + Z.of_nat i - next) with (Z.of_nat i) by lia; rewrite Nat2Z.id.
Qed.

Section reserving.
Variables (ns : string) (keys : list string).
Hypothesis Hkeys : ascii_keys keys.
Let groups := group_keys ∅ ∅ keys.
Let shards := sort_strings (map fst (map_to_list groups)).

Lemma certified_seen K ids : (forall key, In key keys -> exists id, ids !! key = Some id) ->
  (forall key id, ids !! key = Some id -> seen_claim K (networkIDShard key) key id) -> certified keys K (Ok ids).
Proof. intros H1 H2. split; [done|]. intros key id H. destruct (H2 _ _ H) as (cm & before & ?). by exists cm, before. Qed.

(** A claim of the scan was seen. *)
Lemma known_seen K s key id : shards_seen K (sc_objects s) (sc_claims s) ->
  known_ids groups (sc_claims s) shards !! key = Some id -> seen_claim K (networkIDShard key) key id.
Proof.
  intros [H1 H2] (shard & _ & Hg & Hc)%known_ids_in. apply groups_of_keys in Hg as [-> _].
  destruct (sc_objects s !! shard) as [cm|] eqn:Eo.
  - destruct (H1 _ _ Eo) as (HK & Hn & Hcl & _). by exists cm, (default ∅ (sc_claims s !! shard)).
  - apply H2 in Eo. unfold claim_of in Hc. rewrite Eo in Hc. cbn in Hc. by rewrite lookup_empty in Hc.
Qed.

Lemma safe_reserve s seq next K : shards_seen K (sc_objects s) (sc_claims s) -> K seq -> name_of seq = networkIDSequenceName ->
  ParseUint (get (cm_Data seq) "next") 32 = Some next -> 1 <= next ->
  safe (reserve ns groups shards s seq next) K nothing_reserved (fun K' _ r => certified keys K' r).
Proof.
  intros Hs HK Hn Hp H1. unfold reserve.
  assert (forall key, In key keys -> In (networkIDShard key) shards /\ In key (group groups (networkIDShard key))) as Hin.
  { intros key Hk. split; [by apply groups_of_keys|]. by apply groups_of_keys. }
  set (missing := missing_keys _ _ _). sstep.
  - sstep. apply certified_seen; [|intros; by eapply known_seen]. intros key Hk. breflect.
    destruct (known_ids groups (sc_claims s) shards !! key) as [id|] eqn:E; [by exists id|]. exfalso.
    destruct (Hin _ Hk) as [H2 H3]. assert (In key missing) as Hm.
    { apply missing_keys_in. exists (networkIDShard key). do 2 (split; [done|]). destruct (claim_of _ _ _) as [z0|] eqn:Ec2; [|done].
      destruct (known_ids_some groups (sc_claims s) shards key _ H2 H3) as [z Hz]; [by eexists|]. congruence. }
    destruct missing; [done|]. by simpl in Ec.
  - breflect. set (n := Z.of_nat _). sstep; [by sstep|]. breflect. sstep.
    apply safe_create_shards; [done|done|]. intros objects' claims' K1 HK1 Hs1 Hd.
    set (sorted := sort_strings missing). set (own := reserve_from next sorted).
    assert (List.length sorted = List.length missing) as Hl by apply Permutation_length, sort_strings_perm.
    sstep. exists own. split.
    { left. split; [done|]. exists seq, next, n. split; [by apply HK1|]. do 3 (split; [done|]). unfold n. split; [lia|].
      split; [unfold n in *; lia|]. split; [done|]. intros id key Ho. apply reserve_from_range in Ho. unfold n. lia. }
    intros [st|e] Hx; [|by sstep]. simpl answered_ok. cbv beta iota.
    set (K2 := fun cm => _). assert (knows K1 K2) as HK2 by (intros cm Hc; by left).
    assert (knows K K2) as HK02 by by eapply knows_trans. sstep.
    set (result := assign_ids _ _ _).
    assert (forall key, In key missing -> exists id, result !! key = Some id /\ own id = Some key) as Hres.
    { intros key Hm. assert (In key sorted) as Hm' by by apply sort_strings_in.
      destruct (assign_ids_some sorted next (known_ids groups (sc_claims s) shards) key (or_intror Hm')) as [id Hid].
      exists id. split; [done|]. by destruct (assign_reserved _ _ _ _ _ Hid) as [[_ ?]|?]. }
    assert (forall shard key, claim_of claims' shard key = claim_of (sc_claims s) shard key) as Hcl by (intros; unfold claim_of; by rewrite Hd).
    sstep. apply safe_publish.
    + intros id key Ho. apply reserve_from_range in Ho. unfold n, maxNetworkID in *. lia.
    + intros shard key Hg. apply groups_of_keys in Hg as [_ Hk]. by apply (proj1 (List.Forall_forall _ _) Hkeys).
    + by apply (shards_seen_knows K1).
    + intros shard key Hsh [Hg Hc]. apply Hres. apply missing_keys_in. exists shard. by rewrite <- Hcl.
    + intros [[]|e] K3 HK3 Hpub; [|done]. sstep. apply certified_seen.
      * intros key Hk. destruct (Hin _ Hk) as [H2 H3]. apply assign_ids_some.
        destruct (claim_of (sc_claims s) (networkIDShard key) key) as [z|] eqn:Ez; [left; by eapply known_ids_some|right].
        apply sort_strings_in, missing_keys_in. by exists (networkIDShard key).
      * intros key id Hid. destruct (in_dec string_dec key missing) as [Hm|Hm].
        -- apply missing_keys_in in Hm as (shard & Hsh & Hg & Hc). pose proof Hg as Hg'. apply groups_of_keys in Hg' as [<- _].
           apply Hpub; [done|done| |done]. split; [done|by rewrite Hcl].
        -- destruct (assign_reserved _ _ _ _ _ Hid) as [[Hkn _]|Ho].
           ++ eapply seen_claim_knows; [eapply knows_trans; [exact HK02|exact HK3]|]. by eapply known_seen.
           ++ exfalso. apply Hm, sort_strings_in. unfold reserve_from in Ho. destruct (next <=? id); [|done].
              apply list_elem_of_In. by eapply list_elem_of_lookup_2.
Qed.
End reserving.

(** One pass keeps the discipline from a cold start. *)
Lemma networkIDs_safe cfg keys : ascii_keys keys -> pass_safe keys (networkIDs cfg keys) nothing_known nothing_reserved.
Proof.
  intros Hk. unfold pass_safe, networkIDs. sstep. sstep; [done|]. intros [all|e] K1 HK1 Hall; [|done].
  sstep. sstep. sstep. destruct (scan_claims no_scan all) as [s|e] eqn:Es; [|done].
  assert (shards_seen K1 (sc_objects s) (sc_claims s)) as Hs.
  { apply (scan_claims_seen K1 all no_scan); [|split; [intros sh c Hc; cbn in Hc; by rewrite lookup_empty in Hc|done]|done].
    intros cm Hc. destruct (Hall cm) as (? & _ & ?); [by exists all|done]. }
  sstep. apply safe_get_anchor. intros [anchor|e] K2 HK2; [|done].
  sstep. apply safe_get_sequence. intros [seq|e] K3 HK3 Hseq; [|done]. destruct (Hseq seq eq_refl) as [HKs Hns].
  sstep. sstep. destruct (check_sequence seq (sc_highest s)) as [next|e] eqn:En; [|done].
  sstep. apply safe_ensure_anchor. intros [[]|e] K4 HK4; [|done].
  unfold check_sequence in En. follow En. injection En as <-.
  apply safe_reserve; [done| |by apply HK4|done|done|lia].
  apply (shards_seen_knows K1); [|done]. intros cm Hc. apply HK4, HK3, HK2, Hc.
Qed.

(** ** Every reachable state *)

Section reachable.
Variable cfg : PlatformConfig.Config.

Lemma step_consistent s s' owner : step cfg s s' -> consistent (sy_store s) owner (sy_threads s) ->
  exists owner', consistent (sy_store s') owner' (sy_threads s').
Proof.
  intros HS HC. destruct HS as [st ts keys Hk|st st' ts i keys o k x Hi Hx|st ts cm Hu Hf]; simpl in *.
  - exists owner. destruct HC as [H1 H2 H3 H4]. split; try done. intros i keys' p Hi.
    apply lookup_app_Some in Hi as [Hi|[Hl Hi]]; [by apply H4|]. apply list_lookup_singleton_Some in Hi as [_ [= <- <-]].
    exists nothing_known, nothing_reserved. split; [by apply networkIDs_safe|done].
  - by eapply call_consistent.
  - exists owner. by apply other_consistent.
Qed.
Lemma reachable_consistent s : reachable cfg s -> exists owner, consistent (sy_store s) owner (sy_threads s).
Proof.
  induction 1 as [s Hs|s s' _ [owner IH] HS]; [by apply start_consistent|]. by eapply step_consistent.
Qed.

Lemma step_versions s s' cm : step cfg s s' -> version (sy_store s) cm -> version (sy_store s') cm.
Proof.
  intros HS HV. destruct HS as [st ts keys Hk|st st' ts i keys o k x Hi Hx|st ts c Hu Hf]; simpl in *; [done| |by apply version_write].
  destruct Hx as [[_ ->]|(shown & HE & _)]; [done|].
  destruct o as [[] [] ns name|[] [] sel|[] [] y|[] [] y|[] [] y|[] [] ns name p|n|d n|p c]; simpl in HE; try (by destruct HE as [-> _]).
  - destruct HE as (c & Hn & _ & -> & _). rewrite write_absent by done. by apply version_write.
  - destruct HE as (cur & past & c & Hn & _ & _ & _ & -> & _). rewrite (write_present _ _ _ _ _ Hn). by apply version_write.
Qed.

(** The ID a finished pass returned is the claim of its key. *)
Lemma returned_claimed s owner i keys ids key id : consistent (sy_store s) owner (sy_threads s) ->
  sy_threads s !! i = Some (keys, Ret (Ok ids)) -> ids !! key = Some id -> claimed (sy_store s) key id.
Proof.
  intros HC Hi Hk. destruct (c_threads _ _ _ HC _ _ _ Hi) as (K & own & HP & HK & _). cbn in HP. destruct HP as [_ HP].
  destruct (HP _ _ Hk) as (cm & before & Hcm & Hn & Hb & Hid). destruct (HK _ Hcm) as (l & Hl & Hin). rewrite Hn in Hl.
  destruct (g_shards _ (c_good _ _ _ HC) _ _ Hl) as (cur & past & now & -> & Hc & _ & Hold).
  destruct (Hold _ Hin) as (b & Hb' & Hsub). rewrite (claims_in_unique _ _ _ Hb Hb') in *.
  exists cur, past, now. split; [done|]. split; [done|]. by eapply lookup_weaken.
Qed.

(** C1: network IDs are unique and stable across concurrent controllers. In
    every state that any number of passes reach on a new installation - under any
    interleaving, with stale reads, conflicts, lost responses, crashes and
    unrelated writers - the passes that returned gave every key they were asked for
    an ID in range, never one ID to two keys, and never two IDs to one key. *)
Theorem network_ids_are_unique s i j keys1 keys2 ids1 ids2 : reachable cfg s ->
  sy_threads s !! i = Some (keys1, Ret (Ok ids1)) -> sy_threads s !! j = Some (keys2, Ret (Ok ids2)) ->
  (forall key, In key keys1 -> exists id, ids1 !! key = Some id) /\
  (forall key id, ids1 !! key = Some id -> 1 <= id <= maxNetworkID) /\
  (forall k1 k2 id, ids1 !! k1 = Some id -> ids2 !! k2 = Some id -> k1 = k2) /\
  (forall key id1 id2, ids1 !! key = Some id1 -> ids2 !! key = Some id2 -> id1 = id2).
Proof.
  intros HR H1 H2. destruct (reachable_consistent _ HR) as [owner HC]. pose proof (c_good _ _ _ HC) as HG.
  split; [|split; [|split]].
  - intros key Hk. destruct (c_threads _ _ _ HC _ _ _ H1) as (K & own & HP & _). by apply HP.
  - intros key id Hk. pose proof (g_range _ HG _ _ (returned_claimed _ _ _ _ _ _ _ HC H1 Hk)). pose proof (g_next _ HG). lia.
  - intros k1 k2 id E1 E2. apply (g_unique _ HG k1 k2 id); [exact (returned_claimed _ _ _ _ _ _ _ HC H1 E1)|exact (returned_claimed _ _ _ _ _ _ _ HC H2 E2)].
  - intros key id1 id2 E1 E2. destruct (returned_claimed _ _ _ _ _ _ _ HC H1 E1) as (c1 & p1 & m1 & L1 & C1 & M1).
    destruct (returned_claimed _ _ _ _ _ _ _ HC H2 E2) as (c2 & p2 & m2 & L2 & C2 & M2).
    rewrite L1 in L2. injection L2 as <- <-. rewrite (claims_in_unique _ _ _ C1 C2) in M1. congruence.
Qed.

(** An ID is never reused. A claim of a reachable registry holds in
    every later state. *)
Theorem network_id_claims_are_permanent s s' key id : reachable cfg s -> rtc (step cfg) s s' ->
  claimed (sy_store s) key id -> claimed (sy_store s') key id.
Proof.
  intros HR HS (cur & past & ids & Hl & Hc & Hk).
  assert (version (sy_store s) cur) as HV.
  { destruct (reachable_consistent _ HR) as [owner HC]. pose proof (g_versions _ (c_good _ _ _ HC) _ _ Hl) as [_ Hn].
    exists (cur :: past). rewrite (Hn cur (or_introl eq_refl)). split; [done|by left]. }
  assert (name_of cur = claim_name (networkIDShard key)) as En.
  { destruct (reachable_consistent _ HR) as [owner HC]. exact (proj2 (g_versions _ (c_good _ _ _ HC) _ _ Hl) cur (or_introl eq_refl)). }
  assert (reachable cfg s' /\ version (sy_store s') cur) as [HR' HV'].
  { clear -HR HS HV. induction HS as [s|s s1 s2 H1 _ IH]; [done|]. apply IH; [by eapply reachable_step|by eapply step_versions]. }
  destruct (reachable_consistent _ HR') as [owner HC']. destruct HV' as (l & Hl' & Hin). rewrite En in Hl'.
  destruct (g_shards _ (c_good _ _ _ HC') _ _ Hl') as (cur' & past' & now & -> & Hc' & _ & Hold).
  destruct (Hold _ Hin) as (b & Hb & Hsub). rewrite (claims_in_unique _ _ _ Hc Hb) in Hk.
  exists cur', past', now. split; [done|]. split; [done|]. by eapply lookup_weaken.
Qed.
End reachable.
