(* ===== verification/NetworkIDWitness.v ===== *)
(** * Two controllers allocate network IDs

    A deterministic API server that [serve] allows, and an execution of two passes
    against it. *)
From S2P Require Import Prelude GoStd Json JsonDecode Api PlatformConfig Prog Kube NetworkID NetworkIDSystem NetworkIDFacts.
Open Scope Z_scope.

(** The object the server stores, under the next version and a UID of its own. *)
Definition store_object (sent : ConfigMap) (past : list ConfigMap) : ConfigMap :=
  mkConfigMap (mkMeta (name_of sent) (om_Namespace (cm_Meta sent)) ("uid-of-" ++ name_of sent) (utoa (Z.of_nat (S (List.length past))))
                 0 0 None (om_Labels (cm_Meta sent)) ∅ [] []) (cm_Immutable sent) (cm_Data sent).
Definition refused {A} (r : reason) : res A := Err (ErrAPI r "refused").

Definition serve_get (st : store) (name : string) : res ConfigMap :=
  match st !! name with
  | Some (cm :: _) => if (name_of cm =? name)%string then Ok cm else refused OtherAPI
  | _ => refused NotFound
  end.
Definition newest (st : store) : list ConfigMap :=
  flat_map (fun nl => match snd nl with cm :: _ => if (name_of cm =? fst nl)%string then [cm] else [] | [] => [] end) (map_to_list st).
Definition serve_create (st : store) (sent : ConfigMap) : res ConfigMap * store :=
  match st !! name_of sent with
  | Some _ => (refused AlreadyExists, st)
  | None => (Ok (store_object sent []), <[name_of sent := [store_object sent []]]> st)
  end.
Definition serve_update (st : store) (sent : ConfigMap) : res ConfigMap * store :=
  match st !! name_of sent with
  | Some (cur :: past) =>
      let cm := store_object sent (cur :: past) in
      if (version_of cur =? version_of sent)%string && negb (existsb (fun old => (version_of old =? version_of cm)%string) (cur :: past))
      then (Ok cm, <[name_of sent := cm :: cur :: past]> st) else (refused Conflict, st)
  | _ => (refused NotFound, st)
  end.
Definition server (st : store) (o : op) : ans o * store :=
  match o return ans o * store with
  | Get c k ns name => (match k return res (object k) with KConfigMap => serve_get st name | _ => refused NotFound end, st)
  | ListObjects c k s => (match k return res (list (object k)) with KConfigMap => Ok (newest st) | _ => Ok [] end, st)
  | Create Authority k x =>
      match k return object k -> res (object k) * store with KConfigMap => serve_create st | _ => fun _ => (refused OtherAPI, st) end x
  | Update Authority k x =>
      match k return object k -> res (object k) * store with KConfigMap => serve_update st | _ => fun _ => (refused OtherAPI, st) end x
  | Create Local _ _ | Update Local _ _ | UpdateStatus _ _ _ | Delete _ _ _ _ _ | RandRead _ | ReadFile _ _ | Probe _ _ => (refused OtherAPI, st)
  end.

Lemma newest_version st cm : In cm (newest st) -> version st cm.
Proof.
  intros ([name l] & Hin & Hcm)%in_flat_map. apply list_elem_of_In, elem_of_map_to_list in Hin.
  destruct l as [|c l]; simpl in Hcm; [done|]. destruct (name_of c =? name)%string eqn:E; [|done]. breflect. destruct Hcm as [<-|[]].
  exists (c :: l). subst. split; [done|by left].
Qed.
Lemma server_serves st o : serve st o (fst (server st o)) (snd (server st o)).
Proof.
  assert (forall o st (x : ans o), answered_ok o x = false -> serve st o x st) as Hfail by (intros; by left).
  destruct o as [c k ns name|c k s|[] k x|[] k x|c k x|c k ns name p|n|d n|p c]; try by apply Hfail.
  - right. exists None. split; [by destruct c, k|]. destruct k; try done. simpl. unfold serve_get. intros Ho cm Hs.
    destruct (st !! name) as [[|cur past]|] eqn:El; try done. destruct (name_of cur =? name)%string eqn:En; [|done]. breflect.
    injection Hs as <-. split; [done|]. split; [|done]. exists (cur :: past). rewrite En. split; [done|by left].
  - right. exists None. split; [by destruct c, k|]. destruct k; try done. simpl. intros _ cm (l & [= <-] & Hin).
    split; [done|]. split; [by apply newest_version|done].
  - destruct k; try by apply Hfail. simpl. unfold serve_create. destruct (st !! name_of x) as [l|] eqn:El; [by apply Hfail|].
    right. exists (Some (store_object x [])). split.
    + exists (store_object x []). split; [done|]. by split.
    + simpl. intros _ cm [= <-]. split; [done|]. split; [|done]. exists [store_object x []]. split; [apply lookup_insert_eq|by left].
  - destruct k; try by apply Hfail. simpl. unfold serve_update. destruct (st !! name_of x) as [[|cur past]|] eqn:El; try by apply Hfail.
    destruct (_ && _) eqn:Eb; [|by apply Hfail]. breflect. set (cm := store_object x (cur :: past)) in *.
    right. exists (Some cm). split.
    + exists cur, past, cm. split; [done|]. split; [done|]. split; [done|]. split; [|done].
      intros Hin. apply in_map_iff in Hin as (old & E & Hin).
      assert (existsb (fun old => (version_of old =? version_of cm)%string) (cur :: past) = true); [|congruence].
      apply existsb_exists. exists old. split; [done|]. by apply String.eqb_eq.
    + simpl. intros _ c [= <-]. split; [done|]. split; [|done]. exists (cm :: cur :: past). split; [apply lookup_insert_eq|by left].
Qed.

(** Thread [i] makes its next call. *)
Definition move (s : system) (i : nat) : system :=
  match sy_threads s !! i with
  | Some (keys, Act o k) => let r := server (sy_store s) o in mkSystem (snd r) (<[i := (keys, k (fst r))]> (sy_threads s))
  | _ => s
  end.
Lemma move_reachable cfg s i : reachable cfg s -> reachable cfg (move s i).
Proof.
  intros HR. unfold move. destruct (sy_threads s !! i) as [[keys [r|o k]]|] eqn:E; try done.
  eapply reachable_step; [exact HR|]. destruct s as [st ts]. simpl in *. by apply (step_call cfg st _ ts i keys o k), server_serves.
Qed.
Lemma schedule_reachable cfg l : forall s, reachable cfg s -> reachable cfg (foldl move s l).
Proof. induction l as [|i l IH]; intros s HR; simpl; [done|]. by apply IH, move_reachable. Qed.

(** Two passes for overlapping keys, interleaved: the second one starts while the
    first has reserved its IDs but not published them. *)
Definition registry_config : PlatformConfig.Config := PlatformConfig.mkConfig "" ∅ [].
Definition started : system :=
  mkSystem ∅ [(["vpc/u1"; "asn/east"], networkIDs registry_config ["vpc/u1"; "asn/east"]);
              (["vpc/u2"], networkIDs registry_config ["vpc/u2"])]%string.
Definition schedule : list nat := repeat 0%nat 8 ++ repeat 1%nat 20 ++ repeat 0%nat 20.
Definition finished : system := foldl move started schedule.
Definition ids_at (i : nat) : gmap string Z :=
  match sy_threads finished !! i with Some (_, Ret (Ok ids)) => ids | _ => ∅ end.

Lemma started_reachable : reachable registry_config started.
Proof.
  assert (reachable registry_config (mkSystem ∅ [])) as H.
  { apply reachable_start. split; [done|]. intros n l Hl. cbn in Hl. by rewrite lookup_empty in Hl. }
  refine (reachable_step _ _ _ (reachable_step _ _ _ H (step_start _ _ _ ["vpc/u1"; "asn/east"]%string _)) (step_start _ _ _ ["vpc/u2"]%string _));
    by repeat constructor.
Qed.

Lemma network_ids_are_unique_witness :
  ids_at 0 !! "vpc/u1"%string = Some 2 /\ ids_at 1 !! "vpc/u2"%string = Some 3 /\ 1 <= 3 <= maxNetworkID.
Proof.
  pose proof (network_ids_are_unique registry_config finished 1 0 ["vpc/u2"]%string ["vpc/u1"; "asn/east"]%string (ids_at 1) (ids_at 0)
    (schedule_reachable _ _ _ started_reachable)) as H.
  assert (ids_at 1 !! "vpc/u2"%string = Some 3) as E by by vm_compute.
  split; [by vm_compute|]. split; [exact E|]. refine (proj1 (proj2 (H _ _)) "vpc/u2"%string 3 E); by vm_compute.
Defined.

(** The first half of the schedule, and the rest of it. *)
Lemma moves_rtc cfg l : forall s, rtc (step cfg) s (foldl move s l).
Proof.
  induction l as [|i l IH]; intros s; simpl; [done|]. transitivity (move s i); [|apply IH].
  unfold move. destruct (sy_threads s !! i) as [[keys [r|o k]]|] eqn:E; try done. apply rtc_once.
  destruct s as [st ts]. simpl in *. by apply (step_call cfg st _ ts i keys o k), server_serves.
Qed.
Definition second_finished : system := foldl move started (repeat 0%nat 8 ++ repeat 1%nat 20).

Lemma network_id_claims_are_permanent_witness : claimed (sy_store finished) "vpc/u2" 3.
Proof.
  apply (network_id_claims_are_permanent registry_config second_finished).
  - apply schedule_reachable, started_reachable.
  - replace finished with (foldl move second_finished (repeat 0%nat 20)); [apply moves_rtc|].
    unfold finished, schedule, second_finished. by rewrite List.app_assoc, !foldl_app.
  - destruct (sy_store second_finished !! claim_name (networkIDShard "vpc/u2")) as [[|cur past]|] eqn:E.
    + by vm_compute in E.
    + exists cur, past, (<["vpc/u2"%string := 3]> ∅). split; [done|].
      assert (match sy_store second_finished !! claim_name (networkIDShard "vpc/u2") with
              | Some (c :: _) => decode_claims (get (cm_Data c) "claims.json") = Some (Some (<["vpc/u2"%string := 3]> ∅)) | _ => True end) as HC
        by by vm_compute.
      rewrite E in HC. split; [exact HC|]. by vm_compute.
    + by vm_compute in E.
Defined.
