(* ===== verification/PlatformReconciler.v ===== *)
(** * [internal/platformcontroller/reconciler.go]: VPC and Subnet intent

    One pass of the platform controller for a VPC, phase by phase in the order of
    the source: finalizer, network ID, acknowledged tombstones, admission, subnet
    identity, snapshots, references, withdrawal, claim release, deletion. *)
From S2P Require Import Prelude GoStd Json NetIP Validation SiteConfig Api PlatformConfig Prog Kube PlatformPlan NetworkID.
Open Scope Z_scope.

Record Reconciler := mkReconciler { rc_Config : PlatformConfig.Config; rc_Interval : Z }.

Section reconciler.
Context {MACH : Machinery}.
Variable r : Reconciler.

Definition r_again : Result := again (rc_Interval r).
Definition again_after {A B} (p : kprog (res A)) : kprog (flow B) := return_after (rc_Interval r) p.

Definition condition (cs : list Condition) (generation : Z) (kind reason message : string) (ready : bool)
    : list Condition :=
  SetStatusCondition cs (mkCondition kind (if ready then "True" else "False") reason message generation 0).

Definition vpcState (v : VPC) (phase reason message : string) (ready : bool) : kprog (res Result) :=
  let old := vpc_Status v in
  let new := mkVPCStatus (om_Generation (vpc_Meta v)) (vt_NetworkID old) phase (vt_Bindings old) (vt_SubnetClaims old)
               (condition (vt_Conditions old) (om_Generation (vpc_Meta v)) "Ready" reason message ready) in
  if bool_decide (old = new) then Ret (Ok r_again)
  else _ <-! kstatus Authority KVPC (vpc_with_Status new v) ;; Ret (Ok r_again).

Definition subnetState (s : Subnet) (phase reason message : string) (ready : bool) : kprog (res unit) :=
  let old := sn_Status s in
  let new := mkSubnetStatus (om_Generation (sn_Meta s)) phase (st_VPCUID old) (st_BindingName old)
               (st_NativeVpcName old) (st_NativeSubnetName old)
               (condition (st_Conditions old) (om_Generation (sn_Meta s)) "Ready" reason message ready) in
  if bool_decide (old = new) then Ret (Ok tt)
  else _ <-! kstatus Authority KSubnet (sn_with_Status new s) ;; Ret (Ok tt).

(** [resourceAbsent] *)
Definition resourceAbsent (b : NetworkBinding) (name : string) : bool :=
  negb (existsb (fun rec => (rr_Kind rec =? "Subnet")%string && (rr_Name rec =? name)%string)
          (bt_Resources (nb_Status b))).

Definition deleting (m : ObjectMeta) : bool := bool_decide (om_DeletionTimestamp m <> None).

(** A VPC that does not exist: its subnets are told so. *)
Definition vpc_missing (ns name : string) : kprog (flow Result) :=
  subnets <~ try (klist Authority KSubnet (InNamespace ns)) ;;
  _ <~ ffold (fun _ s =>
         if (ss_VPCRef (sn_Spec s) =? name)%string
         then try (subnetState s "Blocked" "VPCNotFound" "Referenced VPC does not exist" false)
         else Ret (Continue tt)) tt subnets ;;
  Ret (Continue r_again).

Definition add_finalizer (v : VPC) : kprog (flow unit) :=
  if ContainsFinalizer (vpc_Meta v) PlanFinalizer then Ret (Continue tt)
  else if deleting (vpc_Meta v) then Ret (Return (Ok (mkResult 0)))
  else again_after (kupdate Authority KVPC (vpc_with_Meta (fun m => AddFinalizer m PlanFinalizer) v)).

(** The VPC's network ID is taken from the registry once and never replaced. *)
Definition vpc_key (v : VPC) : string := ("vpc/" ++ om_UID (vpc_Meta v))%string.
Definition network_id (v : VPC) : kprog (flow unit) :=
  ids <~ try (networkIDs (rc_Config r) [vpc_key v]) ;;
  let networkID := id_of ids (vpc_key v) in
  let current := vt_NetworkID (vpc_Status v) in
  leave negb (current =? 0) && negb (current =? networkID)
    with finish (vpcState v "Blocked" "RegistryIdentityChanged" "Accepted network ID no longer matches the retained registry" false) ;;
  leave current =? 0
    with again_after (kstatus Authority KVPC (vpc_with_Status (vt_with_NetworkID networkID (vpc_Status v)) v)) ;;
  Ret (Continue tt).

(** Oldest first, then by name. *)
Definition subnet_before (a b : Subnet) : bool :=
  if om_CreationTimestamp (sn_Meta a) =? om_CreationTimestamp (sn_Meta b)
  then (om_Name (sn_Meta a) <=? om_Name (sn_Meta b))%string
  else om_CreationTimestamp (sn_Meta a) <? om_CreationTimestamp (sn_Meta b).
Definition vpc_subnets (v : VPC) (all : list Subnet) : list Subnet :=
  sort_by subnet_before (List.filter (fun s => (ss_VPCRef (sn_Spec s) =? om_Name (vpc_Meta v))%string) all).

(** ** Acknowledged tombstones *)

(** Is the cleanup of a tombstone fully acknowledged? *)
Definition acknowledged (b : NetworkBinding) : bool :=
  nb_Deleting (nb_Spec b) && (bt_Phase (nb_Status b) =? "Deleted")%string &&
  (bt_AppliedRevision (nb_Status b) =? nb_Revision (nb_Spec b))%string &&
  bool_decide (bt_Resources (nb_Status b) = []) && bool_decide (bt_Gateways (nb_Status b) = []).

Definition refers (ref : BindingReference) (b : NetworkBinding) : bool :=
  (br_Name ref =? om_Name (nb_Meta b))%string && (br_LocationRef ref =? nb_LocationRef (nb_Spec b))%string.

(** The first acknowledged tombstone ends the pass: its receipt is forgotten
    first, and only a later pass deletes it. *)
Definition forget_tombstone (v : VPC) (_ : unit) (b : NetworkBinding) : kprog (flow unit) :=
  if negb (acknowledged b) then Ret (Continue tt)
  else
    let mine := List.filter (fun ref => refers ref b) (vt_Bindings (vpc_Status v)) in
    let refs := List.filter (fun ref => negb (refers ref b)) (vt_Bindings (vpc_Status v)) in
    if existsb (fun ref => negb (br_UID ref =? om_UID (nb_Meta b))%string) mine
    then finish (vpcState v "Blocked" "BindingReplaced" "A cleanup binding UID changed" false)
    else match mine with
         | _ :: _ => again_after (kstatus Authority KVPC (vpc_with_Status (vt_with_Bindings refs (vpc_Status v)) v))
         | [] => again_after (delete_object Authority KBinding b)
         end.

(** ** Admission *)

Definition own_claim (claims : list PrefixClaim) (s : Subnet) : option PrefixClaim :=
  List.find (fun c => (pc_SubnetUID c =? om_UID (sn_Meta s))%string) claims.
Definition new_claim (s : Subnet) : PrefixClaim :=
  mkClaim (om_UID (sn_Meta s)) (ss_CIDR (sn_Spec s)) (ss_LocationRef (sn_Spec s)).

(** The decision on one subnet against the claims so far. *)
Definition decide_admission (v : VPC) (bindings : list NetworkBinding) (claims : list PrefixClaim) (s : Subnet) : res unit :=
  let valid := ValidateSubnet v s (rc_Config r) in
  match own_claim claims s with
  | Some own =>
      if negb (pc_CIDR own =? ss_CIDR (sn_Spec s))%string || negb (pc_LocationRef own =? ss_LocationRef (sn_Spec s))%string
      then Err (Errorf "accepted subnet identity changed")
      else valid
  | None =>
      _ <-? valid ;;
      (* each check overwrites the error of the one before *)
      let p := ParsePrefix_ (ss_CIDR (sn_Spec s)) in
      reject existsb (fun c => Overlaps p (ParsePrefix_ (pc_CIDR c))) claims
        with Errorf "CIDR overlaps an existing or draining subnet in this VPC" ;;
      reject deleting (vpc_Meta v) with Errorf "VPC is deleting; new subnets cannot be admitted" ;;
      reject existsb (fun b => (nb_LocationRef (nb_Spec b) =? ss_LocationRef (sn_Spec s))%string && nb_Deleting (nb_Spec b)) bindings
        with Errorf "location is completing a previous detach; admission will retry" ;;
      Ok tt
  end.

Record admission := mkAdmission { ad_claims : list PrefixClaim; ad_accepted : list Subnet }.

Definition admit_subnet (v : VPC) (bindings : list NetworkBinding) (a : admission) (s : Subnet)
    : kprog (flow admission) :=
  if negb (ContainsFinalizer (sn_Meta s) PlanFinalizer) then
    if deleting (sn_Meta s) then Ret (Continue a)
    else again_after (kupdate Authority KSubnet (sn_with_Meta (fun m => AddFinalizer m PlanFinalizer) s))
  else
    match decide_admission v bindings (ad_claims a) s with
    | Err e =>
        if deleting (sn_Meta s) && bool_decide (own_claim (ad_claims a) s = None)
        then again_after (kupdate Authority KSubnet (sn_with_Meta (fun m => RemoveFinalizer m PlanFinalizer) s))
        else _ <~ try (subnetState s "Blocked" "AdmissionRejected" (error_text e) false) ;; Ret (Continue a)
    | Ok _ =>
        let claims := match own_claim (ad_claims a) s with
                      | Some _ => ad_claims a
                      | None => ad_claims a ++ [new_claim s]
                      end in
        Ret (Continue (mkAdmission claims (ad_accepted a ++ [s])))
    end.

(** Claims are persisted before anything is created for them. *)
Definition persist_claims (v : VPC) (claims : list PrefixClaim) : kprog (flow unit) :=
  if bool_decide (claims = vt_SubnetClaims (vpc_Status v)) then Ret (Continue tt)
  else again_after (kstatus Authority KVPC (vpc_with_Status (vt_with_SubnetClaims claims (vpc_Status v)) v)).

(** The first admitted subnet without an identity gets one. *)
Definition bind_subnet (v : VPC) (_ : unit) (s : Subnet) : kprog (flow unit) :=
  if negb (st_VPCUID (sn_Status s) =? "")%string then Ret (Continue tt)
  else
    let uid := om_UID (vpc_Meta v) in
    let loc := ss_LocationRef (sn_Spec s) in
    let t := sn_Status s in
    again_after (kstatus Authority KSubnet (sn_with_Status
      (mkSubnetStatus (st_ObservedGeneration t) (st_Phase t) uid (BindingName uid loc) (VpcName uid loc)
         (SubnetName (om_UID (sn_Meta s))) (st_Conditions t)) s)).

(** ** Snapshots *)

Definition put_snapshot (v : VPC) (done : list NetworkBinding) (want : NetworkBinding) : kprog (flow (list NetworkBinding)) :=
  current <~ try (kfind Authority KBinding (om_Namespace (nb_Meta want)) (om_Name (nb_Meta want))) ;;
  match current with
  | None =>
      leave existsb (fun ref => refers ref want) (vt_Bindings (vpc_Status v))
        with finish (vpcState v "Blocked" "BindingMissing" "An accepted binding disappeared without a cleanup acknowledgement" false) ;;
      again_after (kcreate Authority KBinding want)
  | Some current =>
      leave negb (get (om_Labels (nb_Meta current)) PlanOwnerLabel =? om_UID (vpc_Meta v))%string ||
            negb (bool_decide (nb_VPCRef (nb_Spec current) = nb_VPCRef (nb_Spec want))) ||
            negb (nb_LocationRef (nb_Spec current) =? nb_LocationRef (nb_Spec want))%string
        with finish (vpcState v "Blocked" "OwnershipConflict" "An internal binding has a different owner" false) ;;
      leave existsb (fun ref => refers ref current && negb (br_UID ref =? om_UID (nb_Meta current))%string) (vt_Bindings (vpc_Status v))
        with finish (vpcState v "Blocked" "BindingReplaced" "An accepted internal binding UID changed" false) ;;
      leave negb (nb_TransportProfile (nb_Spec current) =? nb_TransportProfile (nb_Spec want))%string
        with finish (vpcState v "Blocked" "TransportMigrationRequired" "An existing VPC cannot change transport by editing its class" false) ;;
      leave negb (bool_decide (nb_Spec current = nb_Spec want))
        with again_after (kupdate Authority KBinding (nb_with_Spec (nb_Spec want) current)) ;;
      Ret (Continue (done ++ [current]))
  end.

Definition reference (b : NetworkBinding) : BindingReference :=
  mkBindingRef (nb_LocationRef (nb_Spec b)) (om_Name (nb_Meta b)) (om_UID (nb_Meta b)) (nb_NativeVpcName (nb_Spec b)).
Definition persist_refs (v : VPC) (desired : list NetworkBinding) : kprog (flow unit) :=
  let refs := map reference desired in
  if bool_decide (refs = vt_Bindings (vpc_Status v)) then Ret (Continue tt)
  else again_after (kstatus Authority KVPC (vpc_with_Status (vt_with_Bindings refs (vpc_Status v)) v)).

(** ** Reports and withdrawal *)

Definition applied (b : NetworkBinding) : bool :=
  (bt_AppliedRevision (nb_Status b) =? nb_Revision (nb_Spec b))%string.

Definition report_subnet (desired : list NetworkBinding) (_ : unit) (s : Subnet) : kprog (flow unit) :=
  let allApplied := forallb applied desired in
  let local := List.find (fun b => (nb_LocationRef (nb_Spec b) =? ss_LocationRef (sn_Spec s))%string) desired in
  if deleting (sn_Meta s) then
    leave allApplied && match local with Some b => resourceAbsent b (st_NativeSubnetName (sn_Status s)) | None => false end
      with again_after (kupdate Authority KSubnet (sn_with_Meta (fun m => RemoveFinalizer m PlanFinalizer) s)) ;;
    try (subnetState s "Deleting" "WithdrawalPending" "Waiting for endpoint drain and all location withdrawal acknowledgements" false)
  else
    let ready := match local with
                 | Some b => applied b && IsStatusConditionTrue (bt_Conditions (nb_Status b)) "Ready"
                 | None => false
                 end in
    if ready
    then try (subnetState s "Ready" "LocationReady" "Local network and required connectivity are configured" true)
    else try (subnetState s "Pending" "LocationPending" "Waiting for local network and cross-site configuration" false).

(** A claim is kept while its subnet exists, a snapshot still carries it, or some
    location has not acknowledged its snapshot. *)
Definition keep_claim (subnets : list Subnet) (desired : list NetworkBinding) (c : PrefixClaim) : bool :=
  existsb (fun s => (om_UID (sn_Meta s) =? pc_SubnetUID c)%string) subnets ||
  existsb (fun b => existsb (fun s => (bs_UID s =? pc_SubnetUID c)%string) (nb_Subnets (nb_Spec b))) desired ||
  negb (forallb applied desired).
Definition release_claims (v : VPC) (subnets : list Subnet) (desired : list NetworkBinding) (claims : list PrefixClaim)
    : kprog (flow unit) :=
  persist_claims v (List.filter (keep_claim subnets desired) claims).

(** ** Deletion and the final report *)

Definition cleanup_pending (b : NetworkBinding) : bool :=
  negb (nb_Deleting (nb_Spec b)) || negb (applied b) ||
  negb (bool_decide (bt_Resources (nb_Status b) = [])) || negb (bool_decide (bt_Gateways (nb_Status b) = [])).

Definition delete_binding (_ : unit) (b : NetworkBinding) : kprog (flow unit) :=
  bind (delete_object Authority KBinding b) (fun x =>
    Ret (match x with
         | Ok _ => Continue tt
         | Err e => if IsNotFound e then Continue tt else Return (Err e)
         end)).

Definition delete_vpc (v : VPC) (subnets : list Subnet) (desired : list NetworkBinding) : kprog (flow Result) :=
  leave negb (List.length subnets =? 0)%nat
    with finish (vpcState v "Deleting" "SubnetsInUse" "Delete the VPC's subnets before deleting the VPC" false) ;;
  leave existsb cleanup_pending desired
    with finish (vpcState v "Deleting" "LocationCleanupPending" "Waiting for location cleanup acknowledgements" false) ;;
  _ <~ ffold delete_binding tt desired ;;
  _ <~ try (kupdate Authority KVPC (vpc_with_Meta (fun m => RemoveFinalizer m PlanFinalizer) v)) ;;
  Ret (Continue (mkResult 0)).

Definition report_vpc (v : VPC) (subnets accepted : list Subnet) (desired : list NetworkBinding) : kprog (flow Result) :=
  let ready := forallb applied desired && (List.length accepted =? List.length subnets)%nat &&
               forallb (fun b => nb_Deleting (nb_Spec b) || IsStatusConditionTrue (bt_Conditions (nb_Status b)) "Ready") desired in
  if ready
  then finish (vpcState v "Ready" "LocationsReady" "All requested locations have accepted the current network configuration" true)
  else finish (vpcState v "Pending" "LocationsPending" "One or more subnets or locations require attention; existing locations reconcile independently" false).

(** ** The handler *)

Definition plan_snapshots (v : VPC) (accepted : list Subnet) (bindings : list NetworkBinding) : kprog (flow (list NetworkBinding)) :=
  match Build v accepted bindings (rc_Config r) with
  | Err e => finish (vpcState v "Blocked" "PlanRejected" (error_text e) false)
  | Ok desired => try (assignTransport (rc_Config r) v desired bindings)
  end.

Definition reconcile_vpc (v : VPC) : kprog (flow Result) :=
  _ <~ add_finalizer v ;;
  _ <~ network_id v ;;
  all <~ try (klist Authority KSubnet (InNamespace (om_Namespace (vpc_Meta v)))) ;;
  let subnets := vpc_subnets v all in
  bindings <~ try (klist Authority KBinding (MatchingLabels (<[PlanOwnerLabel := om_UID (vpc_Meta v)]> ∅))) ;;
  _ <~ ffold (forget_tombstone v) tt bindings ;;
  a <~ ffold (admit_subnet v bindings) (mkAdmission (vt_SubnetClaims (vpc_Status v)) []) subnets ;;
  _ <~ persist_claims v (ad_claims a) ;;
  _ <~ ffold (bind_subnet v) tt (ad_accepted a) ;;
  planned <~ plan_snapshots v (ad_accepted a) bindings ;;
  desired <~ ffold (put_snapshot v) [] planned ;;
  _ <~ persist_refs v desired ;;
  _ <~ ffold (report_subnet desired) tt (ad_accepted a) ;;
  _ <~ release_claims v subnets desired (ad_claims a) ;;
  if deleting (vpc_Meta v) then delete_vpc v subnets desired
  else report_vpc v subnets (ad_accepted a) desired.

Definition Reconcile (ns name : string) : kprog (res Result) :=
  handler (
    found <~ try (kfind Authority KVPC ns name) ;;
    match found with
    | None => vpc_missing ns name
    | Some v => reconcile_vpc v
    end).
End reconciler.
