(* ===== verification/PlatformSafety.v ===== *)
(** * What a platform pass may do

    [permitted] is the contract of the platform controller: every call a pass may
    make, with what the pass must have read before it makes the call. [Reconcile]
    obeys it in every execution, whatever the API server answers and wherever the
    pass stops; the safety properties are read off the contract. *)
From S2P Require Import Prelude GoStd Json NetIP NetIPFacts Validation SiteConfig Api PlatformConfig Prog Kube.
From S2P Require Import PlatformPlan PlatformPlanFacts NetworkID PlatformReconciler.
Open Scope Z_scope.

(** ** Accepted prefixes *)

(** How the accepted prefixes of a VPC may grow: each new claim passed admission
    against the claims before it. *)
Inductive admits (r : Reconciler) (v : VPC) (bindings : list NetworkBinding) (old : list PrefixClaim) : list PrefixClaim -> Prop :=
| admits_refl : admits r v bindings old old
| admits_snoc cs s : admits r v bindings old cs -> decide_admission r v bindings cs s = Ok tt -> own_claim cs s = None ->
    admits r v bindings old (cs ++ [new_claim s]).

(** Accepted prefixes are valid networks, one per subnet, that share no address. *)
Definition claim_disjoint (a b : PrefixClaim) : Prop :=
  forall x, u32 x -> Contains (ParsePrefix_ (pc_CIDR a)) (Addr4 x) = true -> Contains (ParsePrefix_ (pc_CIDR b)) (Addr4 x) = false.
Record claims_ok (cs : list PrefixClaim) : Prop := {
  co_valid : Forall (fun c => is_ok (Prefix (pc_CIDR c)) = true) cs;
  co_unique : NoDup (map pc_SubnetUID cs);
  co_disjoint : ForallOrdPairs claim_disjoint cs }.

Section contract.
Context {MACH : Machinery}.
Variable r : Reconciler.
Variables ns name : string.

Definition read_vpc (h : history) (v : VPC) : Prop := asked h (Get Authority KVPC ns name) (Ok v).
Definition owner_selector (v : VPC) : selector := MatchingLabels (<[PlanOwnerLabel := om_UID (vpc_Meta v)]> ∅).
Definition listed_bindings (h : history) (v : VPC) (bs : list NetworkBinding) : Prop :=
  asked h (ListObjects Authority KBinding (owner_selector v)) (Ok bs).
Definition listed_subnets (h : history) (v : VPC) (ss : list Subnet) : Prop :=
  asked h (ListObjects Authority KSubnet (InNamespace (om_Namespace (vpc_Meta v)))) (Ok ss).

(** Every subnet of a snapshot has a claim in the VPC status that was read. *)
Definition backed (v : VPC) (spec : NetworkBindingSpec) : Prop :=
  oi_UID (nb_VPCRef spec) = om_UID (vpc_Meta v) /\
  forall s, In s (nb_Subnets spec) ->
    In (mkClaim (bs_UID s) (bs_CIDR s) (nb_LocationRef spec)) (vt_SubnetClaims (vpc_Status v)).

(** Cleanup of a location is acknowledged: an applied tombstone without resources. *)
Definition cleaned (b : NetworkBinding) : Prop :=
  nb_Deleting (nb_Spec b) = true /\ bt_AppliedRevision (nb_Status b) = nb_Revision (nb_Spec b) /\
  bt_Resources (nb_Status b) = [] /\ bt_Gateways (nb_Status b) = [].

(** Every location with a listed binding was read again in this pass, and satisfies [P]. *)
Definition everywhere (P : NetworkBinding -> Prop) (h : history) (v : VPC) : Prop :=
  exists bs, listed_bindings h v bs /\
    forall b, In b bs -> exists b', seen KBinding h b' /\ location_of b' = location_of b /\ P b'.

Definition may_create_binding (h : history) (b : NetworkBinding) : Prop :=
  exists v, read_vpc h v /\ backed v (nb_Spec b) /\ forall ref, In ref (vt_Bindings (vpc_Status v)) -> refers ref b = false.
Definition may_update_binding (h : history) (b : NetworkBinding) : Prop :=
  exists v current, read_vpc h v /\ backed v (nb_Spec b) /\ seen KBinding h current /\
    nb_Meta b = nb_Meta current /\ nb_Status b = nb_Status current /\
    get (om_Labels (nb_Meta current)) PlanOwnerLabel = om_UID (vpc_Meta v) /\
    nb_VPCRef (nb_Spec b) = nb_VPCRef (nb_Spec current) /\ location_of b = location_of current /\
    nb_TransportProfile (nb_Spec b) = nb_TransportProfile (nb_Spec current) /\
    forall ref, In ref (vt_Bindings (vpc_Status v)) -> refers ref b = true -> br_UID ref = om_UID (nb_Meta b).
Definition may_delete (h : history) (k : kind) (nsp nm : string) (p : Preconditions) : Prop :=
  k = KBinding /\ exists b, seen KBinding h b /\ cleaned b /\ nsp = om_Namespace (nb_Meta b) /\ nm = om_Name (nb_Meta b) /\
    p = mkPre (Some (om_UID (nb_Meta b))) (Some (om_ResourceVersion (nb_Meta b))).

Definition vpc_released (h : history) (v : VPC) : Prop :=
  deleting (vpc_Meta v) = true /\
  (exists ss, listed_subnets h v ss /\ forall s, In s ss -> ss_VPCRef (sn_Spec s) <> om_Name (vpc_Meta v)) /\
  everywhere (fun b => cleaned b /\ exists x,
    asked h (Delete Authority KBinding (om_Namespace (nb_Meta b)) (om_Name (nb_Meta b))
              (mkPre (Some (om_UID (nb_Meta b))) (Some (om_ResourceVersion (nb_Meta b))))) x /\
    match x with Ok _ => True | Err e => IsNotFound e = true end) h v.
Definition may_update_vpc (h : history) (o : VPC) : Prop :=
  exists v, read_vpc h v /\
    (o = vpc_with_Meta (fun m => AddFinalizer m PlanFinalizer) v /\ deleting (vpc_Meta v) = false \/
     o = vpc_with_Meta (fun m => RemoveFinalizer m PlanFinalizer) v /\ vpc_released h v).

(** How a status write may change the claims. *)
Definition released (h : history) (v : VPC) (c : PrefixClaim) : Prop :=
  (exists ss, listed_subnets h v ss /\
     forall s, In s ss -> ss_VPCRef (sn_Spec s) = om_Name (vpc_Meta v) -> om_UID (sn_Meta s) <> pc_SubnetUID c) /\
  everywhere (fun b => applied b = true /\ forall s, In s (nb_Subnets (nb_Spec b)) -> bs_UID s <> pc_SubnetUID c) h v.
Definition claims_step (h : history) (v : VPC) (cs : list PrefixClaim) : Prop :=
  (exists bs, admits r v bs (vt_SubnetClaims (vpc_Status v)) cs) \/
  (exists keep, cs = List.filter keep (vt_SubnetClaims (vpc_Status v)) /\
     forall c, In c (vt_SubnetClaims (vpc_Status v)) -> keep c = false -> released h v c).
Definition may_status_vpc (h : history) (o : VPC) : Prop :=
  exists v, read_vpc h v /\ vpc_Meta o = vpc_Meta v /\ vpc_Spec o = vpc_Spec v /\
    (vt_NetworkID (vpc_Status v) <> 0 -> vt_NetworkID (vpc_Status o) = vt_NetworkID (vpc_Status v)) /\
    claims_step h v (vt_SubnetClaims (vpc_Status o)).

(** A subnet is withdrawn: every location acknowledged its snapshot, and its own
    location, whose snapshot says that the subnet is deleting, lists no native subnet
    of its name any more. *)
Definition subnet_withdrawn (h : history) (v : VPC) (s : Subnet) : Prop :=
  everywhere (fun b => applied b = true) h v /\
  exists b, seen KBinding h b /\ location_of b = ss_LocationRef (sn_Spec s) /\ applied b = true /\
    resourceAbsent b (st_NativeSubnetName (sn_Status s)) = true /\
    exists x, In x (nb_Subnets (nb_Spec b)) /\ bs_UID x = om_UID (sn_Meta s) /\ bs_Deleting x = true.
Definition may_update_subnet (h : history) (o : Subnet) : Prop :=
  exists v s, read_vpc h v /\ seen KSubnet h s /\ ss_VPCRef (sn_Spec s) = om_Name (vpc_Meta v) /\
    (o = sn_with_Meta (fun m => AddFinalizer m PlanFinalizer) s /\ deleting (sn_Meta s) = false \/
     o = sn_with_Meta (fun m => RemoveFinalizer m PlanFinalizer) s /\ deleting (sn_Meta s) = true /\
       ((forall c, In c (vt_SubnetClaims (vpc_Status v)) -> pc_SubnetUID c <> om_UID (sn_Meta s)) \/ subnet_withdrawn h v s)).
Definition same_identity (t u : SubnetStatus) : Prop :=
  st_VPCUID u = st_VPCUID t /\ st_BindingName u = st_BindingName t /\ st_NativeVpcName u = st_NativeVpcName t /\
  st_NativeSubnetName u = st_NativeSubnetName t.
Definition may_status_subnet (h : history) (o : Subnet) : Prop :=
  exists s, seen KSubnet h s /\ sn_Meta o = sn_Meta s /\ sn_Spec o = sn_Spec s /\
    (same_identity (sn_Status s) (sn_Status o) \/
     st_VPCUID (sn_Status s) = "" /\ exists v, read_vpc h v /\
       In (new_claim s) (vt_SubnetClaims (vpc_Status v)) /\ st_VPCUID (sn_Status o) = om_UID (vpc_Meta v)).

Definition permitted (h : history) (o : op) : Prop :=
  match o with
  | Get Authority _ _ _ | ListObjects Authority _ _ => True
  | Create Authority k o =>
      match k return object k -> Prop with
      | KBinding => may_create_binding h
      | KConfigMap => fun _ => True (* the network ID registry *)
      | _ => fun _ => False
      end o
  | Update Authority k o =>
      match k return object k -> Prop with
      | KBinding => may_update_binding h
      | KConfigMap => fun _ => True
      | KVPC => may_update_vpc h
      | KSubnet => may_update_subnet h
      | _ => fun _ => False
      end o
  | UpdateStatus Authority k o =>
      match k return object k -> Prop with
      | KVPC => may_status_vpc h
      | KSubnet => may_status_subnet h
      | _ => fun _ => False
      end o
  | Delete Authority k nsp nm p => may_delete h k nsp nm p
  | _ => False
  end.
End contract.

(** ** The network ID registry only touches ConfigMaps *)

Section registry_calls.
Context (R : history -> op -> Prop).
Hypothesis R_read : forall h c k ns nm, c = Authority -> R h (Get c k ns nm).
Hypothesis R_list : forall h k s, R h (ListObjects Authority k s).
Hypothesis R_create : forall h o, R h (Create Authority KConfigMap o).
Hypothesis R_update : forall h o, R h (Update Authority KConfigMap o).

Lemma wp_create_shards nsp shards objects claims h (Q : history -> res _ -> Prop) :
  (forall h' r, extends h h' -> Q h' r) -> wp any_answer R (create_shards nsp shards objects claims) h Q.
Proof.
  revert objects claims h Q. induction shards as [|s shards IH]; intros objects claims h Q HQ; simpl create_shards.
  { apply HQ, extends_refl. }
  destruct (objects !! s); [by apply IH|]. wstep. wstep; [apply R_create|]. intros [cm|e] _; [|apply HQ, extends_snoc].
  apply IH. intros h' r HE. apply HQ. eapply extends_trans; [apply extends_snoc|exact HE].
Qed.

Lemma wp_publish shards groups objects claims result h (Q : history -> res unit -> Prop) :
  (forall h' r, extends h h' -> Q h' r) -> wp any_answer R (publish shards groups objects claims result) h Q.
Proof.
  revert h Q. induction shards as [|s shards IH]; intros h Q HQ; simpl publish.
  { apply HQ, extends_refl. }
  case_bool_decide; [by apply IH|]. destruct (900000 <? _); [apply HQ, extends_refl|].
  destruct (objects !! s) as [cm|]; [|apply HQ, extends_refl].
  wstep. wstep; [apply R_update|]. intros [?|e] _; [|apply HQ, extends_snoc].
  apply IH. intros h' r HE. apply HQ. eapply extends_trans; [apply extends_snoc|exact HE].
Qed.

Lemma wp_networkIDs cfg keys h (Q : history -> res (gmap string Z) -> Prop) :
  (forall h' r, Q h' r) -> wp any_answer R (networkIDs cfg keys) h Q.
Proof.
  intros HQ. unfold networkIDs. wstep. wstep; [apply R_list|]. intros [all|e] _; [|apply HQ].
  wstep. wstep. destruct (scan_claims _ _) as [s|]; [|apply HQ]. wstep. unfold get_anchor. wstep. wstep; [by apply R_read|].
  intros x _. destruct (found x) as [a|]; [|apply HQ].
  eapply (wp_mono _ _ _ _ (fun _ _ => True)); [|destruct a as [a|]; simpl; [by destruct (negb _)|done]].
  intros h1 [anchor|] _; [|apply HQ]. wstep. unfold get_sequence. wstep. wstep; [by apply R_read|].
  intros y _. destruct (found y) as [sq|]; [|apply HQ].
  eapply (wp_mono _ _ _ _ (fun _ _ => True)).
  2:{ destruct sq as [sq|]; simpl; [done|]. destruct (_ || _); simpl; [done|]. split; [apply R_create|done]. }
  intros h2 [seq|] _; [|apply HQ]. wstep. wstep. destruct (check_sequence _ _) as [next|]; [|apply HQ]. wstep.
  eapply (wp_mono _ _ _ _ (fun _ _ => True)).
  2:{ unfold ensure_anchor. destruct anchor as [a'|]; [by destruct (negb _)|]. destruct (_ || _); [done|].
      wstep. wstep; [apply R_create|]. by intros [?|?] _. }
  intros h3 [[]|] _; [|apply HQ]. unfold reserve. destruct (_ =? 0)%nat; [apply HQ|]. destruct (_ <? _); [apply HQ|].
  wstep. apply wp_create_shards. intros h4 [oc|] _; [|apply HQ]. wstep. wstep; [apply R_update|].
  intros [?|] _; [|apply HQ]. wstep. apply wp_publish. intros h5 [[]|] _; apply HQ.
Qed.
End registry_calls.

(** ** Each phase keeps the contract *)

Lemma admits_in r v bs old cs c : admits r v bs old cs -> In c old -> In c cs.
Proof. induction 1; [done|]. rewrite in_app_iff. auto. Qed.

Lemma own_claim_some cs s c : own_claim cs s = Some c -> In c cs /\ pc_SubnetUID c = om_UID (sn_Meta s).
Proof. intros [Hin Hb]%find_some. by breflect. Qed.
Lemma own_claim_none cs s c : own_claim cs s = None -> In c cs -> pc_SubnetUID c <> om_UID (sn_Meta s).
Proof. intros Hn Hc E. pose proof (find_none _ _ Hn c Hc) as Hb. simpl in Hb. by breflect. Qed.

Lemma decide_admission_valid r v bs cs s : decide_admission r v bs cs s = Ok tt ->
  ValidateSubnet v s (rc_Config r) = Ok tt /\
  (own_claim cs s = None \/ own_claim cs s = Some (new_claim s)).
Proof.
  unfold decide_admission. destruct (own_claim cs s) as [c|] eqn:Eo.
  - pose proof (own_claim_some _ _ _ Eo) as [_ EU]. destruct (negb _ || negb _) eqn:En; [done|]. intros HV.
    split; [done|]. right. breflect. f_equal. destruct c. unfold new_claim. simpl in *. congruence.
  - destruct (ValidateSubnet v s (rc_Config r)) as [[]|]; [|done]. auto.
Qed.
Lemma ValidateSubnet_identity v s cfg : ValidateSubnet v s cfg = Ok tt ->
  st_VPCUID (sn_Status s) = "" \/ st_VPCUID (sn_Status s) = om_UID (vpc_Meta v).
Proof.
  unfold ValidateSubnet.
  intros H. follow H. match goal with X : _ && _ = false |- _ => apply andb_false_iff in X as [X|X] end; breflect; auto.
Qed.

Section phases.
Context {MACH : Machinery}.
Variable r : Reconciler.
Variables ns name : string.
Let R := permitted r ns name.

Lemma wp_vpcState v phase reason message ready h (Q : history -> res Result -> Prop) :
  read_vpc ns name h v -> (forall h' x, Q h' x) -> wp any_answer R (vpcState r v phase reason message ready) h Q.
Proof.
  intros Hv HQ. unfold vpcState. wstep; [wstep; apply HQ|]. wstep. wstep.
  - exists v. repeat (split; [done|]). left. exists []. apply admits_refl.
  - intros [?|?] _; apply HQ.
Qed.
Lemma wp_subnetState s phase reason message ready h (Q : history -> res unit -> Prop) :
  seen KSubnet h s -> (forall h' x, extends h h' -> Q h' x) -> wp any_answer R (subnetState s phase reason message ready) h Q.
Proof.
  intros Hs HQ. unfold subnetState. wstep; [wstep; apply HQ, extends_refl|]. wstep. wstep.
  - exists s. repeat (split; [done|]). by left.
  - intros [?|?] _; [wstep|]; apply HQ, extends_snoc.
Qed.
Lemma wp_stop_vpc {B} v phase reason message ready h (Q : history -> flow B -> Prop) :
  read_vpc ns name h v -> (forall h' x, Q h' (Return x)) ->
  wp any_answer R (finish (vpcState r v phase reason message ready)) h Q.
Proof. intros Hv HQ. wstep. by apply wp_vpcState. Qed.

Lemma wp_registry cfg keys h (Q : history -> res (gmap string Z) -> Prop) :
  (forall h' x, extends h h' -> Q h' x) -> wp any_answer R (networkIDs cfg keys) h Q.
Proof.
  intros HQ. eapply wp_mono; [|apply wp_extends, (wp_networkIDs R) with (Q := fun _ _ => True)]; try done.
  - intros h' x [HE _]. auto.
  - by intros ? ? ? ? ? ->.
Qed.

Lemma wp_vpc_missing h (Q : history -> flow Result -> Prop) :
  (forall h' x, Q h' x) -> wp any_answer R (vpc_missing r ns name) h Q.
Proof.
  intros HQ. unfold vpc_missing. wstep. wstep. wstep; [done|]. intros [subnets|e] _; [|apply HQ]. wstep.
  eapply wp_mono; [|apply (wp_ffold any_answer R _ (fun h' _ _ => forall s, In s subnets -> seen KSubnet h' s) (fun _ _ => True))].
  - intros h' [res|[]] _; [apply HQ|wstep; apply HQ].
  - intros h' [] done s todo -> HI. wstep; [|by apply wp_Ret]. wstep. apply wp_subnetState.
    + apply HI. rewrite in_app_iff. right. by left.
    + intros h2 [[]|e] HE; [|done]. intros s' Hs'. eapply seen_extends; [exact HE|by apply HI].
  - intros s Hs. right. eauto using asked_snoc.
Qed.

Lemma wp_add_finalizer v h (Q : history -> flow unit -> Prop) :
  read_vpc ns name h v -> (forall h' x, Q h' (Return x)) -> Q h (Continue tt) -> wp any_answer R (add_finalizer r v) h Q.
Proof.
  intros Hv HR HC. unfold add_finalizer, again_after. wstep; [done|]. wstep; [apply HR|]. wstep. wstep.
  - exists v. split; [done|]. left. done.
  - intros; apply HR.
Qed.

Lemma wp_network_id v h (Q : history -> flow unit -> Prop) :
  read_vpc ns name h v -> (forall h' x, Q h' (Return x)) -> (forall h', extends h h' -> Q h' (Continue tt)) ->
  wp any_answer R (network_id r v) h Q.
Proof.
  intros Hv HR HC. unfold network_id, again_after. wstep. wstep.
  apply wp_registry. intros h' [ids|e] HE; [|apply HR]. wstep.
  { apply wp_stop_vpc; [|auto]. by eapply asked_extends. }
  wstep; [|wstep; by apply HC]. wstep. wstep; [|intros; apply HR].
  exists v. split; [by eapply asked_extends|]. do 2 (split; [done|]). split.
  - intros Hz. breflect. congruence.
  - left. exists []. apply admits_refl.
Qed.

Lemma acknowledged_cleaned b : acknowledged b = true -> cleaned b.
Proof. unfold acknowledged, cleaned. intros H. breflect. auto. Qed.

Lemma wp_tombstones v bs h (Q : history -> flow unit -> Prop) :
  read_vpc ns name h v -> listed_bindings h v bs ->
  (forall h' x, Q h' (Return x)) -> (forall h', extends h h' -> Q h' (Continue tt)) ->
  wp any_answer R (ffold (forget_tombstone r v) tt bs) h Q.
Proof.
  intros Hv Hbs HR HC.
  eapply wp_mono; [|apply wp_extends, (wp_ffold any_answer R _ (fun h' _ _ => extends h h') (fun _ _ => True)); [|apply extends_refl]].
  - intros h' [x|[]] [HE _]; auto.
  - intros h' [] done b todo -> HE. unfold forget_tombstone, again_after.
    destruct (acknowledged b) eqn:Ea; cbn [negb]; [|by wstep].
    destruct (existsb _ _); [by apply wp_stop_vpc; [by eapply asked_extends|]|].
    destruct (List.filter _ _) as [|ref refs].
    + wstep. wstep; [|done]. split; [done|]. exists b. split; [|by split; [apply acknowledged_cleaned|]].
      right. do 2 eexists. split; [by eapply asked_extends|]. rewrite in_app_iff. right. by left.
    + wstep. wstep; [|done]. exists v. split; [by eapply asked_extends|]. repeat (split; [done|]). left. exists []. apply admits_refl.
Qed.

(** What admission leaves behind. *)
Definition admission_inv (v : VPC) (bs : list NetworkBinding) (subnets : list Subnet) (a : admission) : Prop :=
  admits r v bs (vt_SubnetClaims (vpc_Status v)) (ad_claims a) /\
  forall s, In s (ad_accepted a) -> In s subnets /\ ValidateSubnet v s (rc_Config r) = Ok tt /\ In (new_claim s) (ad_claims a).

Lemma wp_admission v bs subnets h (Q : history -> flow admission -> Prop) :
  read_vpc ns name h v -> (forall s, In s subnets -> seen KSubnet h s /\ ss_VPCRef (sn_Spec s) = om_Name (vpc_Meta v)) ->
  (forall h' x, Q h' (Return x)) ->
  (forall h' a, extends h h' -> admission_inv v bs subnets a -> Q h' (Continue a)) ->
  wp any_answer R (ffold (admit_subnet r v bs) (mkAdmission (vt_SubnetClaims (vpc_Status v)) []) subnets) h Q.
Proof.
  intros Hv Hs HR HC.
  eapply wp_mono; [|apply (wp_ffold any_answer R _ (fun h' a _ => extends h h' /\ admission_inv v bs subnets a) (fun _ _ => True))].
  - intros h' [x|a]; [auto|]. intros [HE HI]. auto.
  - intros h' a done s todo El [HE [HA HI]]. unfold admit_subnet, again_after.
    assert (In s subnets) as Hin by (rewrite El, in_app_iff; right; by left).
    destruct (Hs _ Hin) as [Hseen Href]. pose proof (seen_extends _ _ _ _ HE Hseen) as Hseen'.
    assert (read_vpc ns name h' v) as Hv' by (by eapply asked_extends).
    wstep; [wstep; [by wstep|wstep; wstep; [|done]]|]. { exists v, s. do 3 (split; [done|]). by left. }
    destruct (decide_admission r v bs (ad_claims a) s) as [[]|e] eqn:Ed.
    + wstep. split; [done|]. destruct (decide_admission_valid _ _ _ _ _ Ed) as [HV Ho].
      split; cbn [ad_claims ad_accepted].
      * destruct (own_claim (ad_claims a) s) eqn:Eo; [done|]. by eapply admits_snoc.
      * intros s' [Hs'|[<-|[]]]%in_app_iff.
        -- destruct (HI _ Hs') as (? & ? & ?). do 2 (split; [done|]). destruct (own_claim (ad_claims a) s); [done|]. rewrite in_app_iff. by left.
        -- do 2 (split; [done|]). destruct (own_claim (ad_claims a) s) as [c|] eqn:Eo; [|rewrite in_app_iff; right; by left].
           destruct Ho as [?|Ho]; [done|]. injection Ho as ->. by apply own_claim_some in Eo as [? _].
    + wstep.
      * wstep. wstep; [|done]. breflect. exists v, s. do 3 (split; [done|]). right. do 2 (split; [done|]). left.
        intros c Hc. eapply own_claim_none; [done|]. by eapply admits_in.
      * wstep. wstep. apply wp_subnetState; [done|]. intros h2 [?|?] HE2; [|done]. wstep. split; [|done]. by eapply extends_trans.
  - split; [apply extends_refl|]. split; [apply admits_refl|done].
Qed.

(** The claims in hand are the persisted ones once the pass goes on. *)
Lemma wp_persist v cs h (Q : history -> flow unit -> Prop) :
  read_vpc ns name h v -> claims_step r h v cs ->
  (forall h' x, Q h' (Return x)) -> (cs = vt_SubnetClaims (vpc_Status v) -> Q h (Continue tt)) ->
  wp any_answer R (persist_claims r v cs) h Q.
Proof.
  intros Hv Hcs HR HC. unfold persist_claims, again_after. wstep; [breflect; wstep; auto|]. wstep. wstep; [|intros; apply HR].
  exists v. repeat (split; [done|]). done.
Qed.

Lemma wp_bind_subnets v accepted h (Q : history -> flow unit -> Prop) :
  read_vpc ns name h v -> (forall s, In s accepted -> seen KSubnet h s /\ In (new_claim s) (vt_SubnetClaims (vpc_Status v))) ->
  (forall h' x, Q h' (Return x)) ->
  (forall h', extends h h' -> (forall s, In s accepted -> st_VPCUID (sn_Status s) <> "") -> Q h' (Continue tt)) ->
  wp any_answer R (ffold (bind_subnet r v) tt accepted) h Q.
Proof.
  intros Hv Hs HR HC.
  eapply wp_mono; [|apply (wp_ffold any_answer R _ (fun h' _ done => extends h h' /\ forall s, In s done -> st_VPCUID (sn_Status s) <> "") (fun _ _ => True))].
  - intros h' [x|[]]; [auto|]. intros [HE HI]. auto.
  - intros h' [] done s todo El [HE HI]. unfold bind_subnet, again_after.
    assert (In s accepted) as Hin by (rewrite El, in_app_iff; right; by left). destruct (Hs _ Hin) as [Hseen Hc].
    wstep.
    + wstep. split; [done|]. intros s' [?|[<-|[]]]%in_app_iff; [auto|]. by breflect.
    + wstep. wstep; [|done]. breflect. exists s. split; [by eapply seen_extends|]. do 2 (split; [done|]). right.
      split; [done|]. exists v. split; [by eapply asked_extends|]. done.
  - split; [apply extends_refl|done].
Qed.

(** Every planned snapshot is stored as planned. *)
Definition settled (h : history) (planned desired : list NetworkBinding) : Prop :=
  Forall2 (fun want d => seen KBinding h d /\ nb_Spec d = nb_Spec want) planned desired.
Lemma settled_extends h h' planned desired : extends h h' -> settled h planned desired -> settled h' planned desired.
Proof. intros HE HF. eapply Forall2_impl; [exact HF|]. intros w d [? ?]. split; [by eapply seen_extends|done]. Qed.

Lemma wp_put_snapshots v planned h (Q : history -> flow (list NetworkBinding) -> Prop) :
  read_vpc ns name h v -> (forall w, In w planned -> backed v (nb_Spec w)) ->
  (forall h' x, Q h' (Return x)) -> (forall h' ds, extends h h' -> settled h' planned ds -> Q h' (Continue ds)) ->
  wp any_answer R (ffold (put_snapshot r v) [] planned) h Q.
Proof.
  intros Hv Hb HR HC.
  eapply wp_mono; [|apply (wp_ffold any_answer R _ (fun h' ds done => extends h h' /\ settled h' done ds) (fun _ _ => True))].
  - intros h' [x|ds]; [auto|]. intros [HE HI]. auto.
  - intros h' ds done w todo El [HE HI]. unfold put_snapshot, again_after.
    assert (In w planned) as Hin by (rewrite El, in_app_iff; right; by left). specialize (Hb _ Hin).
    wstep. wstep. wstep; [done|]. intros x _. set (h2 := h' ++ _).
    assert (extends h h2) as HE2 by (eapply extends_trans; [exact HE|apply extends_snoc]).
    assert (read_vpc ns name h2 v) as Hv2 by (by eapply asked_extends).
    destruct (found x) as [[current|]|e] eqn:Ef; [| |done].
    + assert (seen KBinding h2 current) as Hcur by (left; do 2 eexists; apply found_some in Ef; subst x; apply asked_snoc).
      wstep; [by apply wp_stop_vpc|]. wstep; [by apply wp_stop_vpc|]. wstep; [by apply wp_stop_vpc|]. breflect.
      wstep.
      * wstep. wstep; [|done]. exists v, current. do 9 (split; [done|]).
        intros ref Href Er.
        assert (refers ref current = true) as Er' by (revert Er; unfold refers; cbn [nb_with_Spec nb_Meta nb_Spec]; congruence).
        cbn [nb_with_Spec nb_Meta]. destruct (String.eqb_spec (br_UID ref) (om_UID (nb_Meta current))) as [|Hne]; [done|].
        exfalso. rewrite <- not_true_iff_false in Ec0. apply Ec0. apply existsb_exists. exists ref. split; [done|].
        apply andb_true_iff. split; [exact Er'|]. apply negb_true_iff. by apply String.eqb_neq.
      * wstep. split; [done|]. apply Forall2_app; [by eapply settled_extends; [apply extends_snoc|]|].
        constructor; [|done]. split; [done|]. breflect. done.
    + wstep; [by apply wp_stop_vpc|]. wstep. wstep; [|done]. exists v. do 2 (split; [done|]). intros ref Href.
      rewrite <- not_true_iff_false in Ec |- *. intros Et. apply Ec. apply existsb_exists. eauto.
  - split; [apply extends_refl|constructor].
Qed.

Lemma wp_persist_refs v ds h (Q : history -> flow unit -> Prop) :
  read_vpc ns name h v -> (forall h' x, Q h' (Return x)) -> Q h (Continue tt) -> wp any_answer R (persist_refs r v ds) h Q.
Proof.
  intros Hv HR HC. unfold persist_refs, again_after. wstep; [by wstep|]. wstep. wstep; [|intros; apply HR].
  exists v. repeat (split; [done|]). left. exists []. apply admits_refl.
Qed.

(** ** The planned snapshots *)

Lemma transport_spec_spec v existing ids b :
  nb_VPCRef (nb_Spec (transport_spec v existing ids b)) = nb_VPCRef (nb_Spec b) /\
  nb_Subnets (nb_Spec (transport_spec v existing ids b)) = nb_Subnets (nb_Spec b) /\
  location_of (transport_spec v existing ids b) = location_of b.
Proof. done. Qed.

(** The plan covers every listed binding, and exports only persisted claims. *)
Record plan_inv (v : VPC) (bs : list NetworkBinding) (accepted : list Subnet) (planned : list NetworkBinding) : Prop := {
  pi_backed : forall w, In w planned -> backed v (nb_Spec w);
  pi_covers : forall b, In b bs -> exists w, In w planned /\ location_of w = location_of b;
  pi_exports : forall s, In s accepted -> own v s = true ->
    forall w, In w planned -> location_of w = ss_LocationRef (sn_Spec s) -> In (subnet_of s) (nb_Subnets (nb_Spec w)) }.

Lemma planned_inv v bs accepted planned ids :
  (forall s, In s accepted -> In (new_claim s) (vt_SubnetClaims (vpc_Status v))) ->
  Build v accepted bs (rc_Config r) = Ok planned ->
  plan_inv v bs accepted (map (transport_spec v bs ids) planned).
Proof.
  intros Hc HB. destruct (Build_locations_ok _ _ _ _ _ HB) as (HN & HL & HF). rewrite List.Forall_forall in HF.
  assert (forall b, In b planned -> forall x, In x (nb_Subnets (nb_Spec b)) <->
    exists s, In s accepted /\ own v s = true /\ ss_LocationRef (sn_Spec s) = location_of b /\ x = subnet_of s) as HX.
  { intros b Hb x. destruct (Build_exports_ok _ _ _ _ _ _ HB Hb) as [HP _]. rewrite <- exports_in. split; apply Permutation_in; [done|by symmetry]. }
  split.
  - intros w (b & <- & Hb)%in_map_iff. destruct (HF _ Hb) as [_ HU]. split; [done|].
    intros x Hx. apply (HX _ Hb) in Hx as (s & Hs & Ho & Hl & ->). specialize (Hc _ Hs).
    unfold new_claim in Hc. rewrite Hl in Hc. exact Hc.
  - intros b Hb. assert (In (location_of b) (map location_of planned)) as (w & E & Hw)%in_map_iff by (apply HL; left; eauto).
    exists (transport_spec v bs ids w). split; [by apply in_map|done].
  - intros s Hs Ho w (b & <- & Hb)%in_map_iff El. apply (HX _ Hb). eauto.
Qed.

Lemma wp_plan v bs accepted h (Q : history -> flow (list NetworkBinding) -> Prop) :
  read_vpc ns name h v -> (forall s, In s accepted -> In (new_claim s) (vt_SubnetClaims (vpc_Status v))) ->
  (forall h' x, Q h' (Return x)) -> (forall h' ps, extends h h' -> plan_inv v bs accepted ps -> Q h' (Continue ps)) ->
  wp any_answer R (plan_snapshots r v accepted bs) h Q.
Proof.
  intros Hv Hc HR HC. unfold plan_snapshots. destruct (Build _ _ _ _) as [planned|e] eqn:EB; [|by apply wp_stop_vpc].
  wstep. unfold assignTransport. wstep. apply wp_registry. intros h' [ids|e] HE; [|apply HR]. wstep.
  apply HC; [done|]. by apply planned_inv.
Qed.

(** ** Reports, release and deletion *)

Lemma everywhere_intro (P : NetworkBinding -> Prop) h v bs accepted planned ds :
  listed_bindings h v bs -> plan_inv v bs accepted planned -> settled h planned ds -> (forall d, In d ds -> P d) ->
  everywhere P h v.
Proof.
  intros Hl HI HS HP. exists bs. split; [done|]. intros b Hb. destruct (pi_covers _ _ _ _ HI b Hb) as (w & Hw & E).
  destruct (Forall2_in_l _ _ _ _ HS Hw) as (d & Hd & Hs & Es). exists d. split; [done|]. split; [|auto].
  unfold location_of in *. by rewrite Es.
Qed.

(** What the pass knows once its snapshots are stored. *)
Record settled_inv (h : history) (v : VPC) (all : list Subnet) (bs : list NetworkBinding) (accepted : list Subnet)
    (planned ds : list NetworkBinding) : Prop := {
  si_vpc : read_vpc ns name h v;
  si_subnets : listed_subnets h v all;
  si_bindings : listed_bindings h v bs;
  si_accepted : forall s, In s accepted -> In s (vpc_subnets v all) /\ own v s = true;
  si_plan : plan_inv v bs accepted planned;
  si_settled : settled h planned ds }.
Lemma settled_inv_extends h h' v all bs accepted planned ds : extends h h' ->
  settled_inv h v all bs accepted planned ds -> settled_inv h' v all bs accepted planned ds.
Proof. intros HE []. split; try done; try (by eapply asked_extends). by eapply settled_extends. Qed.

Lemma vpc_subnets_in v all s : In s (vpc_subnets v all) <-> In s all /\ ss_VPCRef (sn_Spec s) = om_Name (vpc_Meta v).
Proof. unfold vpc_subnets. rewrite sort_by_in, filter_In, String.eqb_eq. done. Qed.

Lemma wp_report_subnets h v all bs accepted planned ds (Q : history -> flow unit -> Prop) :
  settled_inv h v all bs accepted planned ds ->
  (forall h' x, Q h' (Return x)) -> (forall h', extends h h' -> Q h' (Continue tt)) ->
  wp any_answer R (ffold (report_subnet r ds) tt accepted) h Q.
Proof.
  intros HI HR HC.
  eapply wp_mono; [|apply (wp_ffold any_answer R _ (fun h' _ _ => extends h h') (fun _ _ => True)); [|apply extends_refl]].
  { intros h' [x|[]]; auto. }
  intros h' [] done s todo El HE. pose proof (settled_inv_extends _ _ _ _ _ _ _ _ HE HI) as HI'.
  assert (In s accepted) as Hin by (rewrite El, in_app_iff; right; by left).
  destruct (si_accepted _ _ _ _ _ _ _ HI' _ Hin) as [[Ha Href]%vpc_subnets_in Ho].
  assert (seen KSubnet h' s) as Hseen by (right; do 2 eexists; split; [apply (si_subnets _ _ _ _ _ _ _ HI')|done]).
  assert (forall ph rs ms rd, wp any_answer R (try (subnetState s ph rs ms rd)) h'
    (fun h1 x => match x with Return _ => True | Continue _ => extends h h1 end)) as HState.
  { intros. wstep. apply wp_subnetState; [done|]. intros h2 [?|?] HE2; [by eapply extends_trans|done]. }
  unfold report_subnet, again_after. destruct (deleting (sn_Meta s)) eqn:Ed; [|by wstep; auto].
  wstep; [|auto]. wstep. wstep; [|done]. apply andb_true_iff in Ec as [Eall Eloc].
  rewrite forallb_forall in Eall. exists v, s. split; [apply HI'|]. do 2 (split; [done|]). right. do 2 (split; [done|]). right.
  split; [by eapply everywhere_intro; try apply HI'|].
  destruct (List.find _ ds) as [b|] eqn:Ef; [|done]. apply find_some in Ef as [Hb El']. breflect.
  destruct (Forall2_in_r _ _ _ _ (si_settled _ _ _ _ _ _ _ HI') Hb) as (w & Hw & Hs & Es).
  exists b. split; [done|]. split; [done|]. split; [auto|]. split; [done|].
  exists (subnet_of s). rewrite Es. split; [|split; [done|]].
  - apply (pi_exports _ _ _ _ (si_plan _ _ _ _ _ _ _ HI')); [done|done|done|]. unfold location_of. congruence.
  - unfold deleting in Ed. breflect. simpl. by apply bool_decide_eq_true.
Qed.

Lemma keep_claim_false subnets ds c : keep_claim subnets ds c = false ->
  (forall s, In s subnets -> om_UID (sn_Meta s) <> pc_SubnetUID c) /\
  (forall d, In d ds -> applied d = true /\ forall s, In s (nb_Subnets (nb_Spec d)) -> bs_UID s <> pc_SubnetUID c).
Proof.
  unfold keep_claim. rewrite !orb_false_iff, negb_false_iff, forallb_forall. intros [[H1 H2] H3]. split.
  - intros s Hs E. rewrite <- not_true_iff_false in H1. apply H1. apply existsb_exists. exists s. by rewrite String.eqb_eq.
  - intros d Hd. split; [auto|]. intros s Hs E. rewrite <- not_true_iff_false in H2. apply H2.
    apply existsb_exists. exists d. split; [done|]. apply existsb_exists. exists s. by rewrite String.eqb_eq.
Qed.

Lemma wp_release h v all bs accepted planned ds (Q : history -> flow unit -> Prop) :
  settled_inv h v all bs accepted planned ds ->
  (forall h' x, Q h' (Return x)) -> Q h (Continue tt) ->
  wp any_answer R (release_claims r v (vpc_subnets v all) ds (vt_SubnetClaims (vpc_Status v))) h Q.
Proof.
  intros HI HR HC. unfold release_claims. apply wp_persist; [apply HI| |done|done].
  right. exists (keep_claim (vpc_subnets v all) ds). split; [done|]. intros c Hc Hk. destruct (keep_claim_false _ _ _ Hk) as [H1 H2].
  split.
  - exists all. split; [apply HI|]. intros s Hs Href. apply H1. by apply vpc_subnets_in.
  - eapply everywhere_intro; try apply HI. exact H2.
Qed.

Lemma cleanup_pending_false b : cleanup_pending b = false -> cleaned b.
Proof. unfold cleanup_pending, cleaned, applied. intros H. breflect. auto. Qed.

Definition delete_of (b : NetworkBinding) : op :=
  Delete Authority KBinding (om_Namespace (nb_Meta b)) (om_Name (nb_Meta b))
    (mkPre (Some (om_UID (nb_Meta b))) (Some (om_ResourceVersion (nb_Meta b)))).
Definition deleted (h : history) (b : NetworkBinding) : Prop :=
  exists x : res unit, asked h (delete_of b) x /\ match x with Ok _ => True | Err e => IsNotFound e = true end.

Lemma wp_delete_bindings h v all bs accepted planned ds (Q : history -> flow unit -> Prop) :
  settled_inv h v all bs accepted planned ds -> (forall d, In d ds -> cleaned d) ->
  (forall h' x, Q h' (Return x)) -> (forall h', extends h h' -> (forall d, In d ds -> deleted h' d) -> Q h' (Continue tt)) ->
  wp any_answer R (ffold delete_binding tt ds) h Q.
Proof.
  intros HI Hcl HR HC.
  eapply wp_mono; [|apply (wp_ffold any_answer R _ (fun h' _ done => extends h h' /\ forall d, In d done -> deleted h' d) (fun _ _ => True));
                    [|split; [apply extends_refl|done]]].
  { intros h' [x|[]]; [auto|]. intros [? ?]. auto. }
  intros h' [] done d todo El [HE HD]. assert (In d ds) as Hin by (rewrite El, in_app_iff; right; by left).
  destruct (Forall2_in_r _ _ _ _ (si_settled _ _ _ _ _ _ _ HI) Hin) as (w & Hw & Hs & Es).
  unfold delete_binding. wstep. wstep.
  - split; [done|]. exists d. split; [by eapply seen_extends|]. split; [auto|done].
  - intros x _.
    assert (forall d', In d' done -> deleted (h' ++ [Ev (delete_of d) x]) d') as HD'.
    { intros d' Hd'. destruct (HD _ Hd') as (y & Hy & ?). exists y. split; [by apply asked_app|done]. }
    assert (extends h (h' ++ [Ev (delete_of d) x])) as HE' by (eapply extends_trans; [exact HE|apply extends_snoc]).
    destruct x as [[]|e]; [|destruct (IsNotFound e) eqn:En; [|by wstep]]; wstep; (split; [exact HE'|]);
      intros d' [Hd'|[<-|[]]]%in_app_iff; auto; eexists; (split; [apply asked_snoc|done]).
Qed.

Lemma wp_delete_vpc h v all bs accepted planned ds :
  settled_inv h v all bs accepted planned ds -> deleting (vpc_Meta v) = true ->
  wp any_answer R (delete_vpc r v (vpc_subnets v all) ds) h (fun _ _ => True).
Proof.
  intros HI Hd. unfold delete_vpc. wstep; [apply wp_stop_vpc; [apply HI|done]|].
  wstep; [apply wp_stop_vpc; [apply HI|done]|]. breflect.
  assert (forall d, In d ds -> cleaned d) as Hcl by (intros d Hin; eapply cleanup_pending_false, existsb_forall; done).
  wstep. eapply wp_delete_bindings; [done..|]. intros h' HE HD. pose proof (settled_inv_extends _ _ _ _ _ _ _ _ HE HI) as HI'.
  wstep. wstep. wstep; [|by intros [?|?] _].
  exists v. split; [apply HI'|]. right. split; [done|]. split; [done|]. split.
  - exists all. split; [apply HI'|]. intros s Hs Href. assert (In s (vpc_subnets v all)) as Hin by (by apply vpc_subnets_in).
    destruct (vpc_subnets v all); done.
  - eapply everywhere_intro; try apply HI'. intros d Hin. split; [auto|]. destruct (HD _ Hin) as (x & Hx & ?). by exists x.
Qed.

Lemma wp_report_vpc v subnets accepted ds h :
  read_vpc ns name h v -> wp any_answer R (report_vpc r v subnets accepted ds) h (fun _ _ => True).
Proof. intros Hv. unfold report_vpc. destruct (_ && _); by apply wp_stop_vpc. Qed.

(** ** The handler *)

Lemma wp_reconcile_vpc v h : read_vpc ns name h v -> wp any_answer R (reconcile_vpc r v) h (fun _ _ => True).
Proof.
  intros Hv. unfold reconcile_vpc.
  wstep. apply wp_add_finalizer; [done..|]. wstep. apply wp_network_id; [done..|]. intros h1 HE1.
  wstep. wstep. wstep; [done|]. intros [all|e] _; [|done].
  set (h2 := h1 ++ _). assert (listed_subnets h2 v all) as Hall by apply asked_snoc.
  wstep. wstep. wstep; [done|]. intros [bs|e] _; [|done].
  set (h3 := h2 ++ _). assert (listed_bindings h3 v bs) as Hbs by apply asked_snoc.
  assert (extends h2 h3) as HE3 by apply extends_snoc. assert (extends h h3) as HE03.
  { eapply extends_trans; [exact HE1|]. eapply extends_trans; [apply extends_snoc|exact HE3]. }
  assert (read_vpc ns name h3 v) as Hv3 by (by eapply asked_extends). assert (listed_subnets h3 v all) as Hall3 by (eapply asked_extends; [exact HE3|exact Hall]).
  clearbody h3. clear Hall HE3. clearbody h2. clear h2 h1 HE1 h HE03 Hv.
  wstep. apply (wp_tombstones v bs); [done..|]. intros h4 HE4.
  assert (forall s, In s (vpc_subnets v all) -> seen KSubnet h4 s /\ ss_VPCRef (sn_Spec s) = om_Name (vpc_Meta v)) as Hsub.
  { intros s [Hs Href]%vpc_subnets_in. split; [|done]. right. do 2 eexists. split; [eapply asked_extends; [exact HE4|exact Hall3]|done]. }
  wstep. apply wp_admission; [eapply asked_extends; [exact HE4|exact Hv3]|done|done|]. intros h5 a HE5 [Ha Hacc].
  assert (extends h3 h5) as HE35 by (by eapply extends_trans).
  wstep. apply wp_persist; [eapply asked_extends; [exact HE35|exact Hv3]|left; by exists bs|done|]. intros Ec. rewrite Ec in *.
  wstep. apply wp_bind_subnets; [eapply asked_extends; [exact HE35|exact Hv3]| |done|].
  { intros s Hs. destruct (Hacc _ Hs) as (? & _ & Hc). split; [|done]. eapply seen_extends; [exact HE5|]. by apply Hsub. }
  intros h6 HE6 Hbound. assert (extends h3 h6) as HE36 by (by eapply extends_trans).
  wstep. apply wp_plan; [eapply asked_extends; [exact HE36|exact Hv3]|intros s Hs; by apply Hacc|done|]. intros h7 planned HE7 HP.
  wstep. apply wp_put_snapshots; [eapply asked_extends; [|exact Hv3]; by eapply extends_trans|apply HP|done|]. intros h8 ds HE8 HS.
  assert (extends h3 h8) as HE38 by (eapply extends_trans; [exact HE36|by eapply extends_trans]).
  assert (settled_inv h8 v all bs (ad_accepted a) planned ds) as HI.
  { split; try done; try (eapply asked_extends; [exact HE38|done]). intros s Hs. destruct (Hacc _ Hs) as (Hin & HV & _). split; [done|].
    apply String.eqb_eq. destruct (ValidateSubnet_identity _ _ _ HV) as [E|E]; [by destruct (Hbound _ Hs)|done]. }
  wstep. apply wp_persist_refs; [apply HI|done|]. wstep. eapply wp_report_subnets; [done|done|]. intros h9 HE9.
  pose proof (settled_inv_extends _ _ _ _ _ _ _ _ HE9 HI) as HI9. wstep. eapply wp_release; [done|done|].
  wstep; [by eapply wp_delete_vpc|apply wp_report_vpc; apply HI9].
Qed.

Lemma Reconcile_obeys : obeys R (Reconcile r ns name).
Proof.
  apply (wp_obeys _ _ (fun _ _ => True)). unfold Reconcile, handler. wstep.
  eapply (wp_mono _ _ _ _ (fun _ _ => True)); [done|]. wstep. wstep. wstep; [done|]. intros x _.
  destruct (found x) as [[v|]|e] eqn:Ef; [| |done].
  - apply wp_reconcile_vpc. apply found_some in Ef. subst x. apply asked_snoc.
  - by apply wp_vpc_missing.
Qed.
End phases.

(** ** The safety properties *)

(** The binding a call writes. *)
Definition written_binding (o : op) : option NetworkBinding :=
  match o with
  | Create Authority k b | Update Authority k b =>
      match k return object k -> option NetworkBinding with KBinding => Some | _ => fun _ => None end b
  | _ => None
  end.

Section safety.
Context {MACH : Machinery}.
Variable r : Reconciler.
Variables ns name : string.

(** C2: admission before realization. Whatever the API server answers and
    wherever a pass stops, a snapshot is created or updated only for subnets whose
    prefix, location and UID are claimed in the VPC status that this pass read, and
    only under that VPC's UID. *)
Theorem snapshots_need_persisted_claims h p' h1 o b :
  exec (Reconcile r ns name) h p' -> called h h1 o -> written_binding o = Some b ->
  exists v, read_vpc ns name h1 v /\ backed v (nb_Spec b).
Proof.
  intros HX HC HB. pose proof (called_permitted _ _ _ _ _ _ (Reconcile_obeys r ns name) HX HC) as HP.
  destruct o as [| |[] k x|[] k x| | | | |]; try done; destruct k; try done; injection HB as <-.
  - destruct HP as (v & Hv & Hb & _). eauto.
  - destruct HP as (v & current & Hv & Hb & _). eauto.
Qed.

(** A binding written by a pass is created anew, or keeps its owner and target. *)
Lemma bindings_keep_their_target h p' h1 o b :
  exec (Reconcile r ns name) h p' -> called h h1 o -> written_binding o = Some b ->
  match o with
  | Update _ _ _ => may_update_binding ns name h1 b
  | _ => may_create_binding ns name h1 b
  end.
Proof.
  intros HX HC HB. pose proof (called_permitted _ _ _ _ _ _ (Reconcile_obeys r ns name) HX HC) as HP.
  destruct o as [| |[] k x|[] k x| | | | |]; try done; destruct k; try done; injection HB as <-; exact HP.
Qed.

(** The only objects a pass deletes are bindings it read as fully cleaned
    tombstones, and every delete is conditional on the UID and resource version that
    were read. *)
Theorem deletes_are_acknowledged h p' h1 c k nsp nm p :
  exec (Reconcile r ns name) h p' -> called h h1 (Delete c k nsp nm p) ->
  c = Authority /\ k = KBinding /\ exists b, seen KBinding h1 b /\ cleaned b /\ nsp = om_Namespace (nb_Meta b) /\
    nm = om_Name (nb_Meta b) /\ p = mkPre (Some (om_UID (nb_Meta b))) (Some (om_ResourceVersion (nb_Meta b))).
Proof.
  intros HX HC. pose proof (called_permitted _ _ _ _ _ _ (Reconcile_obeys r ns name) HX HC) as HP.
  destruct c; [|done]. split; [done|]. exact HP.
Qed.

Lemma claim_disjoint_overlap a b : is_ok (Prefix (pc_CIDR a)) = true -> is_ok (Prefix (pc_CIDR b)) = true ->
  Overlaps (ParsePrefix_ (pc_CIDR a)) (ParsePrefix_ (pc_CIDR b)) = false -> claim_disjoint a b.
Proof.
  intros Ha Hb HO x Hx H1. destruct (Prefix (pc_CIDR a)) as [p|] eqn:Ep; [|done]. destruct (Prefix (pc_CIDR b)) as [q|] eqn:Eq; [|done].
  rewrite (ParsePrefix_installed _ _ Ep), (ParsePrefix_installed _ _ Eq) in *. apply not_true_iff_false. intros H2.
  rewrite <- not_true_iff_false in HO. apply HO, (Prefix_overlap _ _ _ _ Ep Eq). eauto.
Qed.
Lemma claim_disjoint_sym a b : claim_disjoint a b -> claim_disjoint b a.
Proof. intros H x Hx H1. apply not_true_iff_false. intros H2. rewrite (H x Hx H2) in H1. done. Qed.

Lemma decide_admission_fresh v bs cs s : decide_admission r v bs cs s = Ok tt -> own_claim cs s = None ->
  Forall (fun c => is_ok (Prefix (pc_CIDR c)) = true) cs ->
  is_ok (Prefix (ss_CIDR (sn_Spec s))) = true /\ Forall (fun c => claim_disjoint (new_claim s) c) cs.
Proof.
  unfold decide_admission. intros HD HN HF. rewrite HN in HD. destruct (ValidateSubnet _ _ _) as [[]|] eqn:HV; [|done].
  follow HD. assert (is_ok (Prefix (ss_CIDR (sn_Spec s))) = true) as HP by (unfold ValidateSubnet in HV; by follow HV).
  split; [done|]. rewrite List.Forall_forall in *. intros c Hc. apply claim_disjoint_overlap; [done|by apply HF|].
  match goal with X : existsb _ cs = false |- _ => exact (existsb_forall _ _ X c Hc) end.
Qed.

Lemma claims_ok_admits v bs cs : claims_ok (vt_SubnetClaims (vpc_Status v)) ->
  admits r v bs (vt_SubnetClaims (vpc_Status v)) cs -> claims_ok cs.
Proof.
  intros H0. induction 1 as [|cs s HA IH Hd Ho]; [done|]. destruct IH as [V U D].
  destruct (decide_admission_fresh _ _ _ _ Hd Ho V) as [HV HF]. split.
  - apply List.Forall_app. by repeat constructor.
  - rewrite map_app. apply NoDup_app. split; [done|]. split; [|simpl; apply NoDup_singleton].
    intros u Hu. simpl. rewrite list_elem_of_singleton. intros ->. apply list_elem_of_In, in_map_iff in Hu as (c & E & Hc).
    by eapply own_claim_none.
  - clear -D HF. induction D as [|c cs HFc D IH]; simpl; [by repeat constructor|].
    apply List.Forall_cons_iff in HF as [Hc HF]. constructor; [|by apply IH]. apply List.Forall_app. split; [done|].
    constructor; [|done]. by apply claim_disjoint_sym.
Qed.

Lemma pairs_filter {A} (P : A -> A -> Prop) keep l : ForallOrdPairs P l -> ForallOrdPairs P (List.filter keep l).
Proof.
  induction 1 as [|x l HF HD IH]; simpl; [constructor|]. destruct (keep x); [|done]. constructor; [|done].
  rewrite List.Forall_forall in *. intros y [Hy _]%filter_In. auto.
Qed.
Lemma claims_ok_filter keep cs : claims_ok cs -> claims_ok (List.filter keep cs).
Proof.
  intros [V U D]. split.
  - rewrite List.Forall_forall in *. intros c [Hc _]%filter_In. auto.
  - clear -U. induction cs as [|c cs IH]; simpl in *; [done|]. apply NoDup_cons in U as [Hn U]. destruct (keep c); [|auto].
    simpl. apply NoDup_cons. split; [|auto]. intros (x & E & Hx)%list_elem_of_In%in_map_iff. apply Hn.
    apply list_elem_of_In, in_map_iff. apply filter_In in Hx as [Hx _]. eauto.
  - by apply pairs_filter.
Qed.

(** C5: the accepted prefixes of a VPC stay valid networks of distinct
    subnets that share no address: if the claims a pass read are, so are the claims
    of every status it writes. *)
Theorem accepted_prefixes_stay_disjoint h p' h1 o :
  exec (Reconcile r ns name) h p' -> called h h1 (UpdateStatus Authority KVPC o) ->
  exists v, read_vpc ns name h1 v /\
    (claims_ok (vt_SubnetClaims (vpc_Status v)) -> claims_ok (vt_SubnetClaims (vpc_Status o))).
Proof.
  intros HX HC. destruct (called_permitted _ _ _ _ _ _ (Reconcile_obeys r ns name) HX HC) as (v & Hv & _ & _ & _ & HS).
  exists v. split; [done|]. intros Hok. destruct HS as [[bs HA]|(keep & -> & _)]; [by eapply claims_ok_admits|by apply claims_ok_filter].
Qed.

(** A claim disappears from the status only when no subnet with its UID
    is listed any more and every location acknowledged a snapshot without it. *)
Lemma claim_released_last h p' h1 o :
  exec (Reconcile r ns name) h p' -> called h h1 (UpdateStatus Authority KVPC o) ->
  exists v, read_vpc ns name h1 v /\
    forall c, In c (vt_SubnetClaims (vpc_Status v)) -> ~ In c (vt_SubnetClaims (vpc_Status o)) -> released h1 v c.
Proof.
  intros HX HC. destruct (called_permitted _ _ _ _ _ _ (Reconcile_obeys r ns name) HX HC) as (v & Hv & _ & _ & _ & HS).
  exists v. split; [done|]. intros c Hc Hn. destruct HS as [[bs HA]|(keep & E & HK)].
  - destruct Hn. by eapply admits_in.
  - rewrite E in Hn. destruct (keep c) eqn:Ek; [|auto]. destruct Hn. by apply filter_In.
Qed.

(** Whatever finalizer library the code runs on, a write of a subnet's
    metadata only adds the finalizer of a live subnet, or removes that of a deleting
    one which never had a claim, or which every location acknowledged as withdrawn
    while its own location lists no native subnet of its name. *)
Lemma subnet_finalizer_last h p' h1 o :
  exec (Reconcile r ns name) h p' -> called h h1 (Update Authority KSubnet o) ->
  exists v s, read_vpc ns name h1 v /\ seen KSubnet h1 s /\ ss_VPCRef (sn_Spec s) = om_Name (vpc_Meta v) /\
    (o = sn_with_Meta (fun m => AddFinalizer m PlanFinalizer) s /\ deleting (sn_Meta s) = false \/
     o = sn_with_Meta (fun m => RemoveFinalizer m PlanFinalizer) s /\ deleting (sn_Meta s) = true /\
       ((forall c, In c (vt_SubnetClaims (vpc_Status v)) -> pc_SubnetUID c <> om_UID (sn_Meta s)) \/
        subnet_withdrawn h1 v s)).
Proof. intros HX HC. exact (called_permitted _ _ _ _ _ _ (Reconcile_obeys r ns name) HX HC). Qed.

(** The finalizer of a VPC is removed only when it is deleting, no listed
    subnet references it, and every binding of it was read as cleaned and its
    deletion was answered by success or not found. *)
Lemma vpc_finalizer_last h p' h1 o :
  exec (Reconcile r ns name) h p' -> called h h1 (Update Authority KVPC o) ->
  exists v, read_vpc ns name h1 v /\
    (o = vpc_with_Meta (fun m => AddFinalizer m PlanFinalizer) v /\ deleting (vpc_Meta v) = false \/
     o = vpc_with_Meta (fun m => RemoveFinalizer m PlanFinalizer) v /\ vpc_released h1 v).
Proof. intros HX HC. exact (called_permitted _ _ _ _ _ _ (Reconcile_obeys r ns name) HX HC). Qed.

(** Nothing is let go before it is gone. The finalizer of a subnet is removed only when it is deleting and
    was never admitted, or every location acknowledged its snapshot and its own lists no native subnet; that
    of a VPC only when no listed subnet references it and each of its bindings was read as cleaned and its
    deletion answered; and a claim disappears from the VPC's status only when its subnet is no longer listed
    and every location applied a snapshot without it. *)
Theorem nothing_is_released_early h p' h1 : exec (Reconcile r ns name) h p' ->
  (forall o, called h h1 (Update Authority KSubnet o) ->
     exists v s, read_vpc ns name h1 v /\ seen KSubnet h1 s /\ ss_VPCRef (sn_Spec s) = om_Name (vpc_Meta v) /\
       (o = sn_with_Meta (fun m => AddFinalizer m PlanFinalizer) s /\ deleting (sn_Meta s) = false \/
        o = sn_with_Meta (fun m => RemoveFinalizer m PlanFinalizer) s /\ deleting (sn_Meta s) = true /\
          ((forall c, In c (vt_SubnetClaims (vpc_Status v)) -> pc_SubnetUID c <> om_UID (sn_Meta s)) \/
           subnet_withdrawn h1 v s))) /\
  (forall o, called h h1 (Update Authority KVPC o) ->
     exists v, read_vpc ns name h1 v /\
       (o = vpc_with_Meta (fun m => AddFinalizer m PlanFinalizer) v /\ deleting (vpc_Meta v) = false \/
        o = vpc_with_Meta (fun m => RemoveFinalizer m PlanFinalizer) v /\ vpc_released h1 v)) /\
  (forall o, called h h1 (UpdateStatus Authority KVPC o) ->
     exists v, read_vpc ns name h1 v /\
       forall c, In c (vt_SubnetClaims (vpc_Status v)) -> ~ In c (vt_SubnetClaims (vpc_Status o)) -> released h1 v c).
Proof.
  intros HX. split; [|split]; intros o HC; [by eapply subnet_finalizer_last|by eapply vpc_finalizer_last|by eapply claim_released_last].
Qed.

(** Accepted identities are permanent: no status write replaces a network ID or
    the identity of an admitted subnet, and no update takes over or re-targets a binding:
    the updated object was read in this pass, is labelled as this VPC's, keeps its
    metadata, status, VPC identity, location and transport profile, and has the UID of
    every reference the VPC status holds to it; a binding is only created when no
    reference to it exists. *)
Theorem identities_are_permanent h p' h1 :
  exec (Reconcile r ns name) h p' ->
  (forall o, called h h1 (UpdateStatus Authority KVPC o) -> exists v, read_vpc ns name h1 v /\
     (vt_NetworkID (vpc_Status v) <> 0 -> vt_NetworkID (vpc_Status o) = vt_NetworkID (vpc_Status v))) /\
  (forall o, called h h1 (UpdateStatus Authority KSubnet o) -> exists s, seen KSubnet h1 s /\ sn_Meta o = sn_Meta s /\
     sn_Spec o = sn_Spec s /\ (st_VPCUID (sn_Status s) <> "" -> same_identity (sn_Status s) (sn_Status o))) /\
  (forall o b, called h h1 o -> written_binding o = Some b ->
     match o with
     | Update _ _ _ => may_update_binding ns name h1 b
     | _ => may_create_binding ns name h1 b
     end).
Proof.
  intros HX. split; [|split; [|intros o b; by eapply bindings_keep_their_target]]; intros o HC;
    pose proof (called_permitted _ _ _ _ _ _ (Reconcile_obeys r ns name) HX HC) as HP.
  - destruct HP as (v & Hv & _ & _ & HN & _). eauto.
  - destruct HP as (s & Hs & E1 & E2 & [HI|[Hz _]]); exists s; do 3 (split; [done|]); intros ?; [done|congruence].
Qed.
End safety.
