(* ===== verification/PlatformWitness.v ===== *)
(** * Executions of the platform controller

    A small API server that answers from a scenario, and passes of the controller
    against it: the safety theorems at work on concrete histories. *)
From S2P Require Import Prelude GoStd Json NetIP NetIPFacts Validation SiteConfig Api PlatformConfig Prog Kube.
From S2P Require Import PlatformPlan PlatformPlanFacts NetworkID PlatformReconciler PlatformSafety.
Open Scope Z_scope.

(** The library helpers as documented: conditions by type, finalizers as a set. *)
#[export] Instance machinery : Machinery := {|
  SetStatusCondition cs c := c :: List.filter (fun d => negb (cd_Type d =? cd_Type c)%string) cs;
  IsStatusConditionTrue cs t := existsb (fun c => (cd_Type c =? t)%string && (cd_Status c =? "True")%string) cs;
  ContainsFinalizer m f := existsb (String.eqb f) (om_Finalizers m);
  AddFinalizer m f := set_Finalizers (om_Finalizers m ++ [f]) m;
  RemoveFinalizer m f := set_Finalizers (List.filter (fun g => negb (String.eqb f g)) (om_Finalizers m)) m |}.

Definition stored (name namespace uid : string) (labels : gmap string string) (finalizers : list string) (deleted : option Z) : ObjectMeta :=
  mkMeta name namespace uid "7" 1 0 deleted labels ∅ finalizers [].

(** What the API server holds. *)
Record scenario := mkScenario { s_vpc : VPC; s_subnets : list Subnet; s_bindings : list NetworkBinding; s_configs : list ConfigMap }.

Definition absent {A} : res A := Err (ErrAPI NotFound "not found").
Definition by_name {A} (name_of : A -> string) (name : string) (l : list A) : res A :=
  match List.find (fun a => (name_of a =? name)%string) l with Some a => Ok a | None => absent end.
Definition get_from (s : scenario) (k : kind) (name : string) : res (object k) :=
  match k return res (object k) with
  | KVPC => Ok (s_vpc s)
  | KSubnet => by_name (fun x => om_Name (sn_Meta x)) name (s_subnets s)
  | KBinding => by_name (fun x => om_Name (nb_Meta x)) name (s_bindings s)
  | KConfigMap => by_name (fun x => om_Name (cm_Meta x)) name (s_configs s)
  | _ => absent
  end.
Definition list_from (s : scenario) (k : kind) : res (list (object k)) :=
  match k return res (list (object k)) with
  | KSubnet => Ok (s_subnets s) | KBinding => Ok (s_bindings s) | KConfigMap => Ok (s_configs s) | _ => Ok []
  end.
Definition answer (s : scenario) (o : op) (u : unit) : ans o * unit :=
  match o return ans o * unit with
  | Get _ k _ name => (get_from s k name, u)
  | ListObjects _ k _ => (list_from s k, u)
  | Create _ k x | Update _ k x | UpdateStatus _ k x => (Ok x, u)
  | Delete _ _ _ _ _ => (Ok tt, u)
  | RandRead _ | ReadFile _ _ | Probe _ _ => (absent, u)
  end.

(** ** A registry with the IDs of the example VPC and location *)

Definition registry_object (name uid label : string) (immutable : option bool) (data : gmap string string) : ConfigMap :=
  mkConfigMap (stored name "global-vpc-system" uid (<[networkIDAllocatorLabel := label]> ∅) [] None) immutable data.
Definition claim_object (key : string) (id : Z) : ConfigMap :=
  registry_object (networkIDClaimPrefix ++ networkIDShard key) ("claims-of-" ++ key) claimsLabel None
    (<["claims.json" := encode_claims (<[key := id]> ∅)]> ∅).
Definition example_registry : list ConfigMap :=
  [claim_object "vpc/u1" 1; claim_object "asn/east" 2;
   registry_object networkIDSequenceName "q1" networkIDSequenceName None (<["next" := "3"]> ∅);
   registry_object networkIDAnchorName "a1" networkIDAnchorName (Some true) (<["sequenceUID" := "q1"]> ∅)].

Definition example_config : PlatformConfig.Config :=
  PlatformConfig.mkConfig "" (<["default" := mkClass "wireguard-bgp"]> ∅)
    [mkLocation "east" "r1" "s1" "d1" "bind-east" ["proj"] ["10.0.0.0/8"]].
Definition example_reconciler : Reconciler := mkReconciler example_config (10 * second).

Definition example_vpc (deleted : option Z) (refs : list BindingReference) (claims : list PrefixClaim) : VPC :=
  mkVPC (stored "net" "proj" "u1" ∅ [PlanFinalizer] deleted) (mkVPCSpec "") (mkVPCStatus 1 1 "" refs claims []).
Definition example_subnet (deleted : option Z) : Subnet :=
  mkSubnet (stored "app" "proj" "s1" ∅ [PlanFinalizer] deleted) (mkSubnetSpec "net" "east" "10.1.0.0/16")
    (mkSubnetStatus 1 "" "u1" "" "" "" []).
Definition example_claim : PrefixClaim := mkClaim "s1" "10.1.0.0/16" "east".

Definition history_of (s : scenario) : history := fst (fst (run (answer s) (Reconcile example_reconciler "proj" "net") tt)).
Lemma history_of_exec s : exists p', exec (Reconcile example_reconciler "proj" "net") (history_of s) p'.
Proof. eexists. apply run_history. Qed.

(** ** The passes *)

(** An admitted subnet whose snapshot does not exist yet. *)
Definition creating : scenario := mkScenario (example_vpc None [] [example_claim]) [example_subnet None] [] example_registry.
(** The binding the [n]-th call of a pass writes. *)
Definition no_binding : NetworkBinding :=
  mkBinding (newMeta "" "" ∅ ∅) (mkBindingSpec (mkIdentity "" "" "") 0 0 "" "" "" "" [] None [] [] [] "" false)
    (mkBindingStatus 0 "" "" [] [] []).
Definition binding_at (s : scenario) (n : nat) : NetworkBinding := default no_binding (written_binding (nth_op (history_of s) n)).
Lemma binding_at_written s n :
  match written_binding (nth_op (history_of s) n) with Some _ => true | None => false end = true ->
  written_binding (nth_op (history_of s) n) = Some (binding_at s n).
Proof. unfold binding_at. by destruct (written_binding _). Qed.
(** A fresh VPC with one valid subnet. *)
Definition admitting : scenario := mkScenario (example_vpc None [] []) [example_subnet None] [] example_registry.
(** A VPC whose only subnet is gone. *)
Definition releasing : scenario := mkScenario (example_vpc None [] [example_claim]) [] [] example_registry.
(** A VPC that is deleted after everything else. *)
Definition finishing : scenario := mkScenario (example_vpc (Some 5) [] []) [] [] example_registry.
(** A deleting subnet: its snapshot, then the same snapshot stored and applied. *)
Definition withdrawing : scenario := mkScenario (example_vpc (Some 5) [] [example_claim]) [example_subnet (Some 5)] [] example_registry.
Definition applied_binding : NetworkBinding :=
  let b := binding_at withdrawing 10 in
  mkBinding (stored (om_Name (nb_Meta b)) "bind-east" "b1" (om_Labels (nb_Meta b)) [] None) (nb_Spec b)
    (mkBindingStatus 1 "Ready" (nb_Revision (nb_Spec b)) [] [] []).
Definition withdrawn_everywhere : scenario :=
  mkScenario (example_vpc (Some 5) [reference applied_binding] [example_claim]) [example_subnet (Some 5)] [applied_binding] example_registry.
(** A cleaned tombstone whose reference is forgotten already. *)
Definition tombstone : NetworkBinding :=
  mkBinding (stored "nb-old" "bind-east" "b2" (<[PlanOwnerLabel := "u1"]> ∅) [] None)
    (mkBindingSpec (mkIdentity "proj" "net" "u1") 1 0 "east" "default" "" "wireguard-bgp" [] None [] [] [] "rev" true)
    (mkBindingStatus 1 "Deleted" "rev" [] [] []).
Definition forgetting : scenario := mkScenario (example_vpc None [] []) [] [tombstone] example_registry.

(** ** The theorems at work *)

Lemma snapshots_need_persisted_claims_witness :
  exists v, read_vpc "proj" "net" (firstn 10 (history_of creating)) v /\ backed v (nb_Spec (binding_at creating 10)).
Proof.
  destruct (history_of_exec creating) as [p' HX]. eapply snapshots_need_persisted_claims; [exact HX| |].
  - apply called_nth. by vm_compute.
  - apply binding_at_written. by vm_compute.
Defined.

Lemma deletes_are_acknowledged_witness :
  exists b, seen KBinding (firstn 6 (history_of forgetting)) b /\ cleaned b /\ om_Name (nb_Meta b) = "nb-old".
Proof.
  destruct (history_of_exec forgetting) as [p' HX].
  destruct (deletes_are_acknowledged example_reconciler "proj" "net" _ _ (firstn 6 (history_of forgetting))
              Authority KBinding "bind-east" "nb-old" (mkPre (Some "b2") (Some "7")) HX) as (_ & _ & b & Hs & Hc & _ & En & _).
  - replace (Delete Authority KBinding "bind-east" "nb-old" (mkPre (Some "b2") (Some "7")))
      with (nth_op (history_of forgetting) 6) by (by vm_compute). apply called_nth. by vm_compute.
  - by exists b.
Defined.

(** The [n]-th call of a pass, given literally. *)
Lemma called_literal s n o : (n <? List.length (history_of s))%nat = true -> nth_op (history_of s) n = o ->
  called (history_of s) (firstn n (history_of s)) o.
Proof. intros Hn <-. by apply called_nth. Qed.

Lemma accepted_prefixes_stay_disjoint_witness :
  exists v, read_vpc "proj" "net" (firstn 6 (history_of admitting)) v /\
    (claims_ok (vt_SubnetClaims (vpc_Status v)) -> claims_ok [example_claim]).
Proof.
  destruct (history_of_exec admitting) as [p' HX].
  apply (accepted_prefixes_stay_disjoint example_reconciler "proj" "net" _ _ _ (example_vpc None [] [example_claim]) HX).
  apply called_literal; by vm_compute.
Defined.

Lemma nothing_is_released_early_witness :
  let h1 := firstn 10 (history_of withdrawn_everywhere) in
  let o := sn_with_Meta (fun m => RemoveFinalizer m PlanFinalizer) (example_subnet (Some 5)) in
  exists v s, read_vpc "proj" "net" h1 v /\ seen KSubnet h1 s /\ ss_VPCRef (sn_Spec s) = om_Name (vpc_Meta v) /\
    (o = sn_with_Meta (fun m => AddFinalizer m PlanFinalizer) s /\ deleting (sn_Meta s) = false \/
     o = sn_with_Meta (fun m => RemoveFinalizer m PlanFinalizer) s /\ deleting (sn_Meta s) = true /\
       ((forall c, In c (vt_SubnetClaims (vpc_Status v)) -> pc_SubnetUID c <> om_UID (sn_Meta s)) \/
        subnet_withdrawn h1 v s)).
Proof.
  intros h1 o. destruct (history_of_exec withdrawn_everywhere) as [p' HX].
  apply (proj1 (nothing_is_released_early example_reconciler "proj" "net" _ _ h1 HX) o).
  apply called_literal; by vm_compute.
Defined.

(** A claim whose subnet is gone, and a VPC that is deleted last. *)
Lemma claim_released_example :
  exists v, read_vpc "proj" "net" (firstn 9 (history_of releasing)) v /\
    forall c, In c (vt_SubnetClaims (vpc_Status v)) -> ~ In c [] -> released (firstn 9 (history_of releasing)) v c.
Proof.
  destruct (history_of_exec releasing) as [p' HX].
  apply (claim_released_last example_reconciler "proj" "net" _ _ _ (example_vpc None [] []) HX).
  apply called_literal; by vm_compute.
Qed.
Lemma vpc_finalizer_example :
  let h1 := firstn 9 (history_of finishing) in
  let o := vpc_with_Meta (fun m => RemoveFinalizer m PlanFinalizer) (example_vpc (Some 5) [] []) in
  exists v, read_vpc "proj" "net" h1 v /\
    (o = vpc_with_Meta (fun m => AddFinalizer m PlanFinalizer) v /\ deleting (vpc_Meta v) = false \/
     o = vpc_with_Meta (fun m => RemoveFinalizer m PlanFinalizer) v /\ vpc_released h1 v).
Proof.
  intros h1 o. destruct (history_of_exec finishing) as [p' HX].
  apply (vpc_finalizer_last example_reconciler "proj" "net" _ _ h1 o HX).
  apply called_literal; by vm_compute.
Qed.

Lemma identities_are_permanent_witness :
  (exists v, read_vpc "proj" "net" (firstn 6 (history_of admitting)) v /\
    (vt_NetworkID (vpc_Status v) <> 0 -> 1 = vt_NetworkID (vpc_Status v))) /\
  match nth_op (history_of creating) 10 with
  | Update _ _ _ => may_update_binding "proj" "net" (firstn 10 (history_of creating)) (binding_at creating 10)
  | _ => may_create_binding "proj" "net" (firstn 10 (history_of creating)) (binding_at creating 10)
  end.
Proof.
  split.
  - destruct (history_of_exec admitting) as [p' HX].
    apply (proj1 (identities_are_permanent example_reconciler "proj" "net" _ _ (firstn 6 (history_of admitting)) HX)
             (example_vpc None [] [example_claim])).
    apply called_literal; by vm_compute.
  - destruct (history_of_exec creating) as [p' HX].
    apply (proj2 (proj2 (identities_are_permanent example_reconciler "proj" "net" _ _ (firstn 10 (history_of creating)) HX))).
    + apply called_nth. by vm_compute.
    + apply binding_at_written. by vm_compute.
Defined.
