(* ===== verification/Allocation.v ===== *)
(** * [internal/localcontroller/allocation.go]: retained transit and BFD addresses

    The allocation ledger of one cluster: a digest-protected map from authority
    binding to its reservation, anchored by an immutable identity, with a receipt on
    every local binding that got addresses. *)
From S2P Require Import Prelude GoStd Json JsonDecode NetIP NetIPFacts Validation SiteConfig Api LocalConfig Prog Kube.
Open Scope Z_scope.

Definition allocationLedgerName : string := "managed-network-allocations".
Definition allocationIdentityName : string := "managed-network-allocation-identity".
Definition allocationLabel : string := "platform.globalvpc.io/allocator".
Definition allocationDigestAnnotation : string := "platform.globalvpc.io/allocation-digest".
Definition AllocationReceiptAnnotation : string := "platform.globalvpc.io/allocation-receipt".
Definition SourceUIDAnnotation : string := "platform.globalvpc.io/source-binding-uid".
Definition SourceGenerationAnnotation : string := "platform.globalvpc.io/source-generation".

Record Allocation := mkAllocation { TransitCIDR : string; RouterIP : string; BFDSourceIP : string }.
(** The maps are [None] when nil. *)
Record allocatorState := mkState {
  as_ClusterUID : string; as_Allocations : option (gmap string Allocation);
  as_BindingUIDs : option (gmap string string) }.
Record allocationReceipt := mkReceipt {
  ar_ClusterUID : string; ar_SourceUID : string; ar_BindingUID : string; ar_LedgerUID : string;
  ar_Allocation : Allocation }.
#[export] Instance Allocation_eq_dec : EqDecision Allocation. Proof. solve_decision. Defined.

Definition noAllocation : Allocation := mkAllocation "" "" "".

(** ** JSON *)

Definition allocation_json (a : Allocation) : json :=
  JObj [("transitCIDR", JStr (TransitCIDR a)); ("routerIP", JStr (RouterIP a)); ("bfdSourceIP", JStr (BFDSourceIP a))].
Definition allocation_decoder : decoder Allocation := decode_struct
  [field "transitCIDR" TransitCIDR (fun s a => mkAllocation s (RouterIP a) (BFDSourceIP a)) decode_string;
   field "routerIP" RouterIP (fun s a => mkAllocation (TransitCIDR a) s (BFDSourceIP a)) decode_string;
   field "bfdSourceIP" BFDSourceIP (fun s a => mkAllocation (TransitCIDR a) (RouterIP a) s) decode_string].
Definition state_json (s : allocatorState) : json :=
  JObj [("clusterUID", JStr (as_ClusterUID s)); ("allocations", opt_map_json allocation_json (as_Allocations s));
        ("bindingUIDs", opt_map_json JStr (as_BindingUIDs s))].
Definition state_decoder : decoder allocatorState := decode_struct
  [field "clusterUID" as_ClusterUID (fun c s => mkState c (as_Allocations s) (as_BindingUIDs s)) decode_string;
   field "allocations" as_Allocations (fun m s => mkState (as_ClusterUID s) m (as_BindingUIDs s)) (decode_map allocation_decoder noAllocation);
   field "bindingUIDs" as_BindingUIDs (fun m s => mkState (as_ClusterUID s) (as_Allocations s) m) (decode_map decode_string "")].
Definition noState : allocatorState := mkState "" None None.
Definition receipt_json (r : allocationReceipt) : json :=
  JObj [("clusterUID", JStr (ar_ClusterUID r)); ("sourceUID", JStr (ar_SourceUID r)); ("bindingUID", JStr (ar_BindingUID r));
        ("ledgerUID", JStr (ar_LedgerUID r)); ("allocation", allocation_json (ar_Allocation r))].
Definition receipt_decoder : decoder allocationReceipt := decode_struct
  [field "clusterUID" ar_ClusterUID (fun c r => mkReceipt c (ar_SourceUID r) (ar_BindingUID r) (ar_LedgerUID r) (ar_Allocation r)) decode_string;
   field "sourceUID" ar_SourceUID (fun c r => mkReceipt (ar_ClusterUID r) c (ar_BindingUID r) (ar_LedgerUID r) (ar_Allocation r)) decode_string;
   field "bindingUID" ar_BindingUID (fun c r => mkReceipt (ar_ClusterUID r) (ar_SourceUID r) c (ar_LedgerUID r) (ar_Allocation r)) decode_string;
   field "ledgerUID" ar_LedgerUID (fun c r => mkReceipt (ar_ClusterUID r) (ar_SourceUID r) (ar_BindingUID r) c (ar_Allocation r)) decode_string;
   field "allocation" ar_Allocation (fun a r => mkReceipt (ar_ClusterUID r) (ar_SourceUID r) (ar_BindingUID r) (ar_LedgerUID r) a) allocation_decoder].
Definition noReceipt : allocationReceipt := mkReceipt "" "" "" "" noAllocation.

(** ** The ledger *)

(** [ipAt]: 32-bit wrap-around addition. *)
Definition ipAt (p : NetIP.Prefix) (index : Z) : Addr :=
  match paddr p with
  | Addr4 v => Addr4 ((v + index) mod 2 ^ 32)
  | _ => AddrZero (* [As4] panics: the pools are validated IPv4 *)
  end.

Definition allocationDigest (raw : string) : string := sha256_hex raw.
Definition writeAllocationState (cm : ConfigMap) (s : allocatorState) : ConfigMap :=
  let b := Marshal (state_json s) in
  mkConfigMap (set_Annotations (<[allocationDigestAnnotation := allocationDigest b]> (om_Annotations (cm_Meta cm))) (cm_Meta cm))
    (cm_Immutable cm) (<["state.json" := b]> ∅).

(** The loop over the retained allocations of the ledger. *)
Record used := mkUsed { us_Transit : gset string; us_BFD : gset string; us_UID : gset string }.
Definition retained_ok (cfg : LocalConfig.Config) (pool bfdPool : NetIP.Prefix) (uids : gmap string string) (u : used)
    (owner : string) (a : Allocation) : bool :=
  let uid := get uids owner in
  match Prefix (TransitCIDR a), Host (BFDSourceIP a) bfdPool with
  | Ok p, Ok _ =>
      negb (owner =? "")%string && negb (uid =? "")%string && negb (bool_decide (uid ∈ us_UID u)) &&
      (pbits p =? TransitPrefixLength cfg) && Contains pool (paddr p) && Contains pool (LastAddress p) &&
      (RouterIP a =? AddrString (Next (paddr p)))%string &&
      negb (bool_decide (TransitCIDR a ∈ us_Transit u)) && negb (bool_decide (BFDSourceIP a ∈ us_BFD u))
  | _, _ => false
  end.
Fixpoint check_retained (cfg : LocalConfig.Config) (pool bfdPool : NetIP.Prefix) (uids : gmap string string) (u : used)
    (l : list (string * Allocation)) : bool :=
  match l with
  | [] => true
  | (owner, a) :: rest =>
      retained_ok cfg pool bfdPool uids u owner a &&
      check_retained cfg pool bfdPool uids
        (mkUsed ({[TransitCIDR a]} ∪ us_Transit u) ({[BFDSourceIP a]} ∪ us_BFD u) ({[get uids owner]} ∪ us_UID u)) rest
  end.

(** A validated ledger, with its two maps. *)
Record ledger_state := mkLedger { ld_Allocations : gmap string Allocation; ld_BindingUIDs : gmap string string }.

(** [p, _ := siteconfig.Prefix(raw)] *)
Definition Prefix_ (raw : string) : NetIP.Prefix := match Prefix raw with Ok p => p | Err _ => PrefixZero end.

Definition readAllocationState (cm : ConfigMap) (cfg : LocalConfig.Config) : res ledger_state :=
  let raw := get (cm_Data cm) "state.json" in
  let corrupt := Errorf "local allocation ledger is corrupt or belongs to another cluster; fenced recovery required" in
  match UnmarshalInto state_decoder noState raw with
  | Some (mkState cluster (Some allocations) (Some uids)) =>
      reject (om_UID (cm_Meta cm) =? "")%string ||
             negb (get (om_Labels (cm_Meta cm)) allocationLabel =? "true")%string ||
             negb (get (om_Annotations (cm_Meta cm)) allocationDigestAnnotation =? allocationDigest raw)%string ||
             negb (cluster =? ClusterUID cfg)%string || negb (size allocations =? size uids)%nat
        with corrupt ;;
      reject negb (check_retained cfg (Prefix_ (TransitPool cfg)) (Prefix_ (BFDSourcePool cfg)) uids (mkUsed ∅ ∅ ∅)
                     (map_to_list allocations))
        with Errorf "retained local allocation is invalid, duplicated or outside installed pools; fenced recovery required" ;;
      Ok (mkLedger allocations uids)
  | _ => Err corrupt
  end.

(** ** Receipts *)

Definition receipt_ok (cfg : LocalConfig.Config) (ledgerUID : string) (s : ledger_state) (b : NetworkBinding) : bool :=
  let raw := get (om_Annotations (nb_Meta b)) AllocationReceiptAnnotation in
  let owner := get (om_Annotations (nb_Meta b)) SourceUIDAnnotation in
  (raw =? "")%string ||
  match UnmarshalInto receipt_decoder noReceipt raw, ld_Allocations s !! owner with
  | Some receipt, Some a =>
      (ar_ClusterUID receipt =? ClusterUID cfg)%string && (ar_SourceUID receipt =? owner)%string &&
      (ar_BindingUID receipt =? om_UID (nb_Meta b))%string &&
      (get (ld_BindingUIDs s) owner =? om_UID (nb_Meta b))%string &&
      (ar_LedgerUID receipt =? ledgerUID)%string && bool_decide (ar_Allocation receipt = a)
  | _, _ => false
  end.
Definition validateAllocationReceipts (cfg : LocalConfig.Config) (bindings : list NetworkBinding) (ledgerUID : string)
    (s : ledger_state) : res unit :=
  reject negb (forallb (receipt_ok cfg ledgerUID s) bindings)
    with Errorf "local allocation receipt does not match retained ledger; fenced recovery required" ;;
  Ok tt.

Definition bootstrapAllocationEvidence (bindings : list NetworkBinding) : bool :=
  existsb (fun b => negb (get (om_Annotations (nb_Meta b)) AllocationReceiptAnnotation =? "")%string ||
                    negb (bool_decide (bt_Resources (nb_Status b) = [])) ||
                    negb (bool_decide (bt_Gateways (nb_Status b) = [])) ||
                    negb (bt_AppliedRevision (nb_Status b) =? "")%string) bindings.

(** ** Choosing fresh addresses *)

(** The index of the first of [n] candidates, from [i], that is not in use. *)
Fixpoint first_free (candidate : Z -> string) (taken : gset string) (n : nat) (i : Z) : option Z :=
  match n with
  | O => None
  | S n => if bool_decide (candidate i ∈ taken) then first_free candidate taken n (i + 1) else Some i
  end.

Definition transit_candidate (cfg : LocalConfig.Config) (pool : NetIP.Prefix) (i : Z) : NetIP.Prefix :=
  PrefixFrom (ipAt pool (Z.shiftl i (32 - TransitPrefixLength cfg))) (TransitPrefixLength cfg).
Definition bfd_candidate (bfdPool : NetIP.Prefix) (i : Z) : string := AddrString (ipAt bfdPool i).

Definition choose (cfg : LocalConfig.Config) (allocations : gmap string Allocation) : option Allocation :=
  let pool := ParsePrefix_ (TransitPool cfg) in
  let bfdPool := ParsePrefix_ (BFDSourcePool cfg) in
  let used := map snd (map_to_list allocations) in
  match first_free (fun i => PrefixString (transit_candidate cfg pool i)) (list_to_set (map TransitCIDR used))
          (Z.to_nat (2 ^ (TransitPrefixLength cfg - pbits pool))) 0,
        first_free (bfd_candidate bfdPool) (list_to_set (map BFDSourceIP used))
          (Z.to_nat (2 ^ (32 - pbits bfdPool) - 2)) 1 with
  | Some i, Some j =>
      let p := transit_candidate cfg pool i in
      Some (mkAllocation (PrefixString p) (AddrString (Next (paddr p))) (bfd_candidate bfdPool j))
  | _, _ => None
  end.

(** ** [allocate] *)

Section allocate.
Context {VAL : Validation}.
Variable cfg : LocalConfig.Config.

Definition new_ledger : ConfigMap :=
  writeAllocationState
    (mkConfigMap (newMeta allocationLedgerName (lc_Namespace cfg) (<[allocationLabel := "true"]> ∅) ∅) None ∅)
    (mkState (ClusterUID cfg) (Some ∅) (Some ∅)).
Definition new_identity (ledgerUID : string) : ConfigMap :=
  mkConfigMap (newMeta allocationIdentityName (lc_Namespace cfg) (<[allocationLabel := "identity"]> ∅) ∅) (Some true)
    (<["clusterUID" := ClusterUID cfg]> (<["ledgerUID" := ledgerUID]> ∅)).
Definition identity_ok (identity : ConfigMap) (ledgerUID : string) : bool :=
  negb (om_UID (cm_Meta identity) =? "")%string &&
  match cm_Immutable identity with Some true => true | _ => false end &&
  (get (om_Labels (cm_Meta identity)) allocationLabel =? "identity")%string &&
  (get (cm_Data identity) "clusterUID" =? ClusterUID cfg)%string &&
  (get (cm_Data identity) "ledgerUID" =? ledgerUID)%string.

(** The ledger, created on a first installation only. *)
Definition open_ledger (identity : option ConfigMap) (evidence : bool) : kprog (res ConfigMap) :=
  found <-! kfind Local KConfigMap (lc_Namespace cfg) allocationLedgerName ;;
  match found with
  | Some cm => Ret (Ok cm)
  | None =>
      stop bool_decide (identity <> None) || evidence
        with Errorf "local allocation ledger is missing beside retained identity or receipts; fenced recovery required" ;;
      kcreate Local KConfigMap new_ledger
  end.
Definition open_identity (identity : option ConfigMap) (evidence : bool) (cm : ConfigMap) (s : ledger_state)
    : kprog (res ConfigMap) :=
  match identity with
  | Some i => Ret (Ok i)
  | None =>
      stop negb (size (ld_Allocations s) =? 0)%nat || evidence
        with Errorf "local allocation identity is missing beside retained state; fenced recovery required" ;;
      kcreate Local KConfigMap (new_identity (om_UID (cm_Meta cm)))
  end.

(** A new reservation, committed to the ledger before it is used. *)
Definition reserve_allocation (cm : ConfigMap) (s : ledger_state) (owner uid : string) : kprog (res (ConfigMap * Allocation)) :=
  stop existsb (fun kv => (snd kv =? uid)%string) (map_to_list (ld_BindingUIDs s))
    with Errorf "local binding source identity changed for retained allocation; fenced recovery required" ;;
  match choose cfg (ld_Allocations s) with
  | None => Ret (Err (Errorf "reserved local network pool exhausted; retained allocations are not automatically reused"))
  | Some a =>
      let cm' := writeAllocationState cm
                   (mkState (ClusterUID cfg) (Some (<[owner := a]> (ld_Allocations s))) (Some (<[owner := uid]> (ld_BindingUIDs s)))) in
      stored <-! kupdate Local KConfigMap cm' ;;
      Ret (Ok (stored, a))
  end.

(** The receipt on the local binding; the handler continues with the stored binding. *)
Definition write_receipt (b : NetworkBinding) (owner ledgerUID : string) (a : Allocation) : kprog (res NetworkBinding) :=
  if negb (get (om_Annotations (nb_Meta b)) AllocationReceiptAnnotation =? "")%string then Ret (Ok b)
  else
    let receipt := mkReceipt (ClusterUID cfg) owner (om_UID (nb_Meta b)) ledgerUID a in
    kupdate Local KBinding (nb_with_Meta (fun m =>
      set_Annotations (<[AllocationReceiptAnnotation := Marshal (receipt_json receipt)]> (om_Annotations m)) m) b).

(** Returns the allocation and the binding as the caller sees it afterwards. *)
Definition allocate (b : NetworkBinding) : kprog (res (Allocation * NetworkBinding)) :=
  _ <-! Ret (Validate cfg) ;;
  let owner := get (om_Annotations (nb_Meta b)) SourceUIDAnnotation in
  stop (owner =? "")%string || (om_UID (nb_Meta b) =? "")%string || negb (om_Namespace (nb_Meta b) =? lc_Namespace cfg)%string
    with Errorf "local allocation requires a persisted binding and source UID" ;;
  bindings <-! klist Local KBinding (InNamespace (lc_Namespace cfg)) ;;
  stop negb (existsb (fun current : NetworkBinding =>
         (om_Name (nb_Meta current) =? om_Name (nb_Meta b))%string && (om_UID (nb_Meta current) =? om_UID (nb_Meta b))%string &&
         (get (om_Annotations (nb_Meta current)) SourceUIDAnnotation =? owner)%string) bindings)
    with Errorf "local allocation binding identity is missing or changed" ;;
  found <-! kfind Local KConfigMap (lc_Namespace cfg) allocationIdentityName ;;
  let evidence := bootstrapAllocationEvidence bindings in
  cm <-! open_ledger found evidence ;;
  s <-! Ret (readAllocationState cm cfg) ;;
  identity <-! open_identity found evidence cm s ;;
  stop negb (identity_ok identity (om_UID (cm_Meta cm)))
    with Errorf "local allocation identity or ledger UID changed; fenced recovery required" ;;
  _ <-! Ret (validateAllocationReceipts cfg bindings (om_UID (cm_Meta cm)) s) ;;
  _ <-! Ret (validateAllocationReceipts cfg [b] (om_UID (cm_Meta cm)) s) ;;
  reserved <-! match ld_Allocations s !! owner with
               | Some a =>
                   stop negb (get (ld_BindingUIDs s) owner =? om_UID (nb_Meta b))%string
                     with Errorf "local binding UID changed for retained allocation; fenced recovery required" ;;
                   Ret (Ok (cm, a))
               | None => reserve_allocation cm s owner (om_UID (nb_Meta b))
               end ;;
  b' <-! write_receipt b owner (om_UID (cm_Meta (fst reserved))) (snd reserved) ;;
  Ret (Ok (snd reserved, b')).
End allocate.
