(* ===== verification/AllocationFacts.v ===== *)
(** * What the allocation ledger promises

    A ledger that is accepted holds reservations that share no address; a new
    reservation is fresh and lies inside the installed pools; a ledger that is
    written can be read back. *)
From S2P Require Import Prelude GoStd Json JsonFacts JsonDecode NetIP NetIPFacts Validation SiteConfig Api LocalConfig Prog Kube Allocation.
Open Scope Z_scope.

(** ** Accepted ledgers *)

Section ledger.
Context {VAL : Validation}.
Variables (cfg : LocalConfig.Config) (pool bfdPool : NetIP.Prefix).

(** One reservation of the ledger: a network of the installed size inside the
    transit pool with its first host, and a host of the BFD pool. *)
Definition reservation_ok (owner uid : string) (a : Allocation) : Prop :=
  owner <> "" /\ uid <> "" /\ exists p h,
  Prefix (TransitCIDR a) = Ok p /\ Host (BFDSourceIP a) bfdPool = Ok h /\
  pbits p = TransitPrefixLength cfg /\ Contains pool (paddr p) = true /\ Contains pool (LastAddress p) = true /\
  RouterIP a = AddrString (Next (paddr p)).

Record ledger_ok (s : ledger_state) : Prop := {
  lo_each : forall owner a, ld_Allocations s !! owner = Some a -> reservation_ok owner (get (ld_BindingUIDs s) owner) a;
  lo_transit : tells_apart (fun _ a => TransitCIDR a) (ld_Allocations s);
  lo_bfd : tells_apart (fun _ a => BFDSourceIP a) (ld_Allocations s);
  lo_uid : tells_apart (fun owner _ => get (ld_BindingUIDs s) owner) (ld_Allocations s);
  lo_size : size (ld_Allocations s) = size (ld_BindingUIDs s) }.

(** What [retained_ok] adds to [reservation_ok]: nothing used before. *)
Lemma retained_ok_spec uids u owner a :
  retained_ok cfg pool bfdPool uids u owner a = true <->
  reservation_ok owner (get uids owner) a /\ TransitCIDR a ∉ us_Transit u /\ BFDSourceIP a ∉ us_BFD u /\ get uids owner ∉ us_UID u.
Proof.
  unfold retained_ok, reservation_ok. split.
  - intros H. destruct (Prefix (TransitCIDR a)) as [p|] eqn:Ep; [|done]. destruct (Host (BFDSourceIP a) bfdPool) as [h|] eqn:Eh; [|done].
    breflect. split; [|done]. do 2 (split; [done|]). by exists p, h.
  - intros ((H1 & H2 & p & h & -> & -> & H3 & -> & -> & ->) & H4 & H5 & H6). rewrite H3, Z.eqb_refl, String.eqb_refl.
    apply String.eqb_neq in H1, H2. rewrite H1, H2, !bool_decide_eq_false_2 by done. done.
Qed.
Lemma check_retained_spec uids u l :
  check_retained cfg pool bfdPool uids u l = true <->
  (forall owner a, In (owner, a) l -> reservation_ok owner (get uids owner) a) /\
  distinct_from (fun kv => TransitCIDR (snd kv)) (us_Transit u) l /\
  distinct_from (fun kv => BFDSourceIP (snd kv)) (us_BFD u) l /\
  distinct_from (fun kv => get uids (fst kv)) (us_UID u) l.
Proof.
  revert u. induction l as [|[owner a] l IH]; intros u; simpl.
  - unfold distinct_from. simpl. split; [|done]. intros _. repeat split; try done; constructor.
  - rewrite andb_true_iff, retained_ok_spec, IH, !distinct_from_cons. simpl. split.
    + intros ((H1 & H2) & H3 & H4). split; [|tauto]. intros o' a' [[= <- <-]|Hin]; auto.
    + intros (H1 & H2). split; [split; [apply H1; by left|tauto]|]. split; [|tauto]. intros; apply H1; by right.
Qed.

(** The check of the ledger, in any order of iteration. *)
Lemma check_retained_map (A : gmap string Allocation) (U : gmap string string) :
  size A = size U -> check_retained cfg pool bfdPool U (mkUsed ∅ ∅ ∅) (map_to_list A) = true <-> ledger_ok (mkLedger A U).
Proof.
  intros HS. rewrite check_retained_spec. simpl.
  rewrite (distinct_from_map (fun _ a => TransitCIDR a)), (distinct_from_map (fun _ a => BFDSourceIP a)),
    (distinct_from_map (fun k _ => get U k)). split.
  - intros (H1 & H2 & H3 & H4). split; simpl; try done. intros owner a Ho. apply H1, list_elem_of_In. by apply elem_of_map_to_list.
  - intros [H1 H2 H3 H4 _]. do 2 (split; [|tauto] || split; [|done] || idtac).
    split; [|done]. intros owner a Ho%list_elem_of_In%elem_of_map_to_list. by apply H1.
Qed.
End ledger.

Section ledger_files.
Context {VAL : Validation}.
Variables (cfg : LocalConfig.Config) (pool bfdPool control : NetIP.Prefix).
Hypothesis Hpools : pools_ok cfg pool bfdPool control.

Lemma installed_pools : Prefix_ (TransitPool cfg) = pool /\ Prefix_ (BFDSourcePool cfg) = bfdPool.
Proof. unfold Prefix_. by rewrite (po_transit _ _ _ _ Hpools), (po_bfd _ _ _ _ Hpools). Qed.

Lemma read_ledger_ok cm s : readAllocationState cm cfg = Ok s -> ledger_ok cfg pool bfdPool s.
Proof.
  unfold readAllocationState. destruct installed_pools as [-> ->]. intros H. follow H. subst.
  injection H as <-. by apply check_retained_map.
Qed.

(** *** The text of a ledger *)

Lemma decode_allocation a : allocation_decoder (allocation_json a) noAllocation = Some a.
Proof. by destruct a. Qed.
Lemma decode_state s : state_decoder (state_json s) noState = Some s.
Proof.
  assert (forall V (dec : decoder V) zero f (m : option (gmap string V)), (forall v, dec (f v) zero = Some v) ->
    decode_map dec zero (opt_map_json f m) None = Some m) as D.
  { intros V dec zero f [m|] HD; [|done]. simpl opt_map_json. rewrite decode_map_json by done. done. }
  destruct s as [c A U]. unfold state_decoder, state_json, decode_struct.
  cbn -[decode_map opt_map_json]. rewrite D by apply decode_allocation. cbn -[decode_map opt_map_json].
  by rewrite D.
Qed.

(** The names in a ledger are ASCII, as Kubernetes UIDs are. *)
Definition names_ascii (s : ledger_state) : Prop :=
  ascii_only (ClusterUID cfg) = true /\
  (forall owner a, ld_Allocations s !! owner = Some a -> ascii_only owner = true) /\
  forall owner uid, ld_BindingUIDs s !! owner = Some uid -> ascii_only owner = true /\ ascii_only uid = true.
Definition file_state (s : ledger_state) : allocatorState :=
  mkState (ClusterUID cfg) (Some (ld_Allocations s)) (Some (ld_BindingUIDs s)).

Lemma reservation_ascii owner uid a : reservation_ok cfg pool bfdPool owner uid a ->
  ascii_only (TransitCIDR a) = true /\ ascii_only (RouterIP a) = true /\ ascii_only (BFDSourceIP a) = true.
Proof.
  intros (_ & _ & p & h & HP & HH & _ & _ & _ & ->).
  pose proof (po_bfd _ _ _ _ Hpools) as HB. apply Prefix_ok in HB as (w & c & Hw & Hc & Halw & _).
  destruct (Host_ok _ _ _ _ _ Hw ltac:(lia) Halw HH) as (x & _ & Eh & _). rewrite Eh.
  apply Prefix_ok in HP as (v & b & Hp & Hb & Hal & Et & _). rewrite <- Et.
  split; [by eapply ascii_Prefix4|]. split; [|apply ascii_Addr4].
  destruct Hp as (-> & Hv & Hb'). simpl. pose proof (block_u32 v b ltac:(lia) Hv) as [_ Hle]. rewrite Hal in Hle.
  assert (2 <= 2 ^ (32 - b)) by (change 2 with (2 ^ 1) at 1; apply Z.pow_le_mono_r; lia).
  destruct (v =? 4294967295) eqn:E; breflect; [lia|apply ascii_Addr4].
Qed.
Lemma printable_state s : ledger_ok cfg pool bfdPool s -> names_ascii s -> printable (state_json (file_state s)).
Proof.
  intros HL (H1 & H2 & H3). unfold state_json. apply printable_obj. simpl. constructor; [done|].
  assert (forall owner a, ld_Allocations s !! owner = Some a -> ascii_only owner = true /\ printable (allocation_json a)) as HA.
  { intros owner a Ho. split; [by eauto|]. apply printable_obj.
    destruct (reservation_ascii _ _ _ (lo_each _ _ _ _ HL _ _ Ho)) as (? & ? & ?). repeat constructor; done. }
  constructor; [split; [done|]; apply printable_obj, printable_map_json, HA|].
  constructor; [split; [done|]; apply printable_obj, printable_map_json|constructor].
  intros owner uid Ho. simpl. eauto.
Qed.

(** A ledger that is written can be read back: the digest, the JSON text and every
    check of the reader accept exactly the reservations that were stored. *)
Lemma read_written_ledger cm s :
  om_UID (cm_Meta cm) <> "" -> get (om_Labels (cm_Meta cm)) allocationLabel = "true"%string ->
  ledger_ok cfg pool bfdPool s -> names_ascii s ->
  readAllocationState (writeAllocationState cm (file_state s)) cfg = Ok s.
Proof.
  intros HU HLb HL HN.
  assert (UnmarshalInto state_decoder noState (Marshal (state_json (file_state s))) = Some (file_state s)) as EU.
  { unfold UnmarshalInto. by rewrite Unmarshal_Marshal, decode_state by by apply printable_state. }
  unfold readAllocationState, writeAllocationState. generalize dependent (Marshal (state_json (file_state s))). intros raw EU.
  cbn [cm_Data cm_Meta]. unfold get at 1. rewrite lookup_insert_eq. cbn [default from_option id]. rewrite EU. unfold file_state at 1.
  cbn [om_UID om_Labels om_Annotations set_Annotations]. rewrite HLb. unfold get at 1 2. rewrite !lookup_insert_eq.
  cbn [default from_option id]. rewrite !String.eqb_refl, (lo_size _ _ _ _ HL), Nat.eqb_refl.
  apply String.eqb_neq in HU. rewrite HU. cbn [orb negb].
  destruct installed_pools as [-> ->]. destruct s as [A U]. cbn [ld_Allocations ld_BindingUIDs].
  assert (check_retained cfg pool bfdPool U (mkUsed ∅ ∅ ∅) (map_to_list A) = true) as ->; [|done].
  apply check_retained_map; [apply (lo_size _ _ _ _ HL)|done].
Qed.

(** *** Choosing *)

Lemma first_free_some c t n i j : first_free c t n i = Some j ->
  i <= j < i + Z.of_nat n /\ c j ∉ t.
Proof.
  revert i. induction n as [|n IH]; intros i; simpl; [done|].
  destruct (bool_decide (c i ∈ t)) eqn:E; breflect.
  - intros H%IH. destruct H. split; [lia|done].
  - intros [= <-]. split; [lia|done].
Qed.
Lemma first_free_none c t n i : first_free c t n i = None -> forall k, i <= k < i + Z.of_nat n -> c k ∈ t.
Proof.
  revert i. induction n as [|n IH]; intros i; simpl; [lia|].
  destruct (bool_decide (c i ∈ t)) eqn:E; breflect; [|done]. intros H k Hk.
  destruct (Z.eq_dec k i) as [->|]; [done|]. apply (IH _ H). lia.
Qed.

(** The [i]-th network of the transit pool. *)
Lemma transit_candidate_at v b i : prefix4 pool v b -> block v b = v -> b <= TransitPrefixLength cfg <= 29 ->
  0 <= i < 2 ^ (TransitPrefixLength cfg - b) ->
  let len := TransitPrefixLength cfg in
  let w := v + i * 2 ^ (32 - len) in
  prefix4 (transit_candidate cfg pool i) w len /\ block w len = w /\
  v <= w /\ w + 2 ^ (32 - len) <= v + 2 ^ (32 - b).
Proof.
  intros (Ep & Hv & Hb) Hal Hlen Hi len w. pose proof (block_u32 v b Hb Hv) as [_ Hle]. rewrite Hal in Hle.
  assert (2 ^ (32 - b) = 2 ^ (len - b) * 2 ^ (32 - len)) as Hsz by (rewrite <- Z.pow_add_r by lia; f_equal; lia).
  assert (0 < 2 ^ (32 - len)) as Hpos by (apply Z.pow_pos_nonneg; lia).
  assert (v <= w /\ w + 2 ^ (32 - len) <= v + 2 ^ (32 - b)) as Hw.
  { rewrite Hsz. unfold w. fold len in Hi. assert ((i + 1) * 2 ^ (32 - len) <= 2 ^ (len - b) * 2 ^ (32 - len)) by (apply Z.mul_le_mono_nonneg_r; lia). nia. }
  assert (u32 w) as Hu by (unfold u32 in *; lia).
  assert (block w len = w) as Hbw.
  { unfold w, block. rewrite <- Hal. unfold block at 1 2. rewrite Hsz.
    replace (v / (2 ^ (len - b) * 2 ^ (32 - len)) * (2 ^ (len - b) * 2 ^ (32 - len)) + i * 2 ^ (32 - len))
      with ((v / (2 ^ (len - b) * 2 ^ (32 - len)) * 2 ^ (len - b) + i) * 2 ^ (32 - len)) by lia.
    by rewrite Z.div_mul by lia. }
  split; [|done]. split; [|unfold len; split; [done|lia]].
  unfold transit_candidate, ipAt. rewrite Ep. simpl. rewrite Z.shiftl_mul_pow2 by (fold len; lia). fold len. fold w.
  rewrite Z.mod_small by (unfold u32 in Hu; lia). unfold PrefixFrom. simpl.
  replace ((0 <=? len) && (len <=? 32)) with true; [done|]. symmetry. apply andb_true_iff. rewrite !Z.leb_le. lia.
Qed.
Lemma bfd_candidate_at v b i : prefix4 bfdPool v b -> block v b = v -> 0 <= i < 2 ^ (32 - b) ->
  bfd_candidate bfdPool i = AddrString (Addr4 (v + i)).
Proof.
  intros (Ep & Hv & Hb) Hal Hi. pose proof (block_u32 v b Hb Hv) as [_ Hle]. rewrite Hal in Hle.
  unfold bfd_candidate, ipAt. rewrite Ep. simpl. rewrite Z.mod_small by (unfold u32 in *; lia). done.
Qed.

(** [choose] takes the first free network and the first free source address. *)
Lemma choose_ok A a owner uid : clear_of_link_local pool -> clear_of_link_local bfdPool -> owner <> ""%string -> uid <> ""%string ->
  choose cfg A = Some a ->
  reservation_ok cfg pool bfdPool owner uid a /\
  forall o a', A !! o = Some a' -> TransitCIDR a' <> TransitCIDR a /\ BFDSourceIP a' <> BFDSourceIP a.
Proof.
  intros HLp HLb Ho Hu. unfold choose.
  rewrite (ParsePrefix_installed _ _ (po_transit _ _ _ _ Hpools)), (ParsePrefix_installed _ _ (po_bfd _ _ _ _ Hpools)).
  destruct (first_free _ _ (Z.to_nat (2 ^ (_ - _))) 0) as [i|] eqn:Ei; [|done].
  destruct (first_free _ _ _ 1) as [j|] eqn:Ej; [|done]. intros [= <-].
  apply first_free_some in Ei as [Hi Fi], Ej as [Hj Fj].
  pose proof (po_transit _ _ _ _ Hpools) as HT. pose proof (po_bfd _ _ _ _ Hpools) as HB. pose proof (po_length _ _ _ _ Hpools) as Hlen.
  pose proof HT as HT'. pose proof HB as HB'.
  apply Prefix_ok in HT' as (v & b & Hp & Hb & Hal & _). apply Prefix_ok in HB' as (w & c & Hq & Hc & Haw & _).
  assert (pbits pool = b /\ pbits bfdPool = c) as [Epb Eqc] by (destruct Hp as (-> & _), Hq as (-> & _); done).
  rewrite Epb, Eqc in *. rewrite !Z2Nat.id in * by (try apply Z.lt_le_incl; lia || (apply Z.pow_nonneg; lia)).
  destruct (transit_candidate_at v b i Hp Hal ltac:(lia) ltac:(lia)) as (Hn & Hbn & Hlo & Hhi).
  set (x := v + i * _) in *. set (p := transit_candidate cfg pool i) in *.
  rewrite (bfd_candidate_at w c j Hq Haw) in * by lia.
  assert (forall y, v <= y < v + 2 ^ (32 - b) -> IsGlobalUnicast (Addr4 y) = true /\ Contains pool (Addr4 y) = true) as Gp.
  { intros y Hy. assert (Contains pool (Addr4 y) = true) as Cy by (apply (Contains_range _ _ _ _ Hp); by rewrite Hal).
    split; [|done]. by apply (Prefix_unicast_clear _ _ _ HT HLp Cy). }
  assert (0 < 2 ^ (32 - TransitPrefixLength cfg)) as Hpos by (apply Z.pow_pos_nonneg; lia).
  split.
  - split; [done|]. split; [done|]. exists p, (Addr4 (w + j)). cbn [TransitCIDR BFDSourceIP RouterIP].
    split; [|split; [|split; [by destruct Hn as (-> & _)|]]].
    + apply (Prefix_accepts _ _ _ Hn); [lia|done| |]; apply Gp; lia.
    + apply (Host_accepts _ _ _ _ Hq); [lia|done|lia|]. apply (Prefix_unicast_clear _ _ _ HB HLb).
      apply (Contains_range _ _ _ _ Hq). rewrite Haw. lia.
    + rewrite (LastAddress_block _ _ _ Hn) by (lia || done). assert (paddr p = Addr4 x) as Ea by (destruct Hn as (E & _); by rewrite E). rewrite Ea.
      split; [apply Gp; lia|]. split; [apply Gp; lia|]. by rewrite <- Ea.
  - intros o a' Ha. cbn [TransitCIDR BFDSourceIP]. apply elem_of_map_to_list, list_elem_of_In in Ha.
    assert (forall f : Allocation -> string, f a' ∈ (list_to_set (map f (map snd (map_to_list A))) : gset string)) as Hin.
    { intros f. apply elem_of_list_to_set, list_elem_of_In. rewrite map_map. by apply (in_map (fun kv => f (snd kv))) in Ha. }
    split; intros E; [apply Fi|apply Fj]; rewrite <- E; apply Hin.
Qed.

(** It gives up only when every network or every source address is taken. *)
Lemma choose_none A : choose cfg A = None ->
  (forall i, 0 <= i < 2 ^ (TransitPrefixLength cfg - pbits pool) -> exists o a, A !! o = Some a /\ TransitCIDR a = PrefixString (transit_candidate cfg pool i)) \/
  (forall j, 1 <= j < 2 ^ (32 - pbits bfdPool) - 1 -> exists o a, A !! o = Some a /\ BFDSourceIP a = bfd_candidate bfdPool j).
Proof.
  unfold choose. rewrite (ParsePrefix_installed _ _ (po_transit _ _ _ _ Hpools)), (ParsePrefix_installed _ _ (po_bfd _ _ _ _ Hpools)).
  assert (forall (f : Allocation -> string) y, y ∈ (list_to_set (map f (map snd (map_to_list A))) : gset string) ->
    exists o a, A !! o = Some a /\ f a = y) as Hin.
  { intros f y Hy%elem_of_list_to_set%list_elem_of_In. rewrite map_map in Hy. apply in_map_iff in Hy as ([o a] & E & Ho).
    exists o, a. split; [|done]. by apply elem_of_map_to_list, list_elem_of_In. }
  destruct (first_free _ _ (Z.to_nat (2 ^ (_ - _))) 0) as [i|] eqn:Ei.
  - destruct (first_free _ _ _ 1) as [j|] eqn:Ej; [done|]. intros _. right. intros k Hk. apply Hin.
    apply (first_free_none _ _ _ _ Ej). lia.
  - intros _. left. intros k Hk. apply Hin. apply (first_free_none _ _ _ _ Ei). lia.
Qed.

(** *** A new reservation *)

Lemma ledger_domain s : ledger_ok cfg pool bfdPool s -> dom (ld_Allocations s) = dom (ld_BindingUIDs s).
Proof.
  intros HL. apply set_eq_subseteq. assert (dom (ld_Allocations s) ⊆ dom (ld_BindingUIDs s)) as HS.
  { intros o [a Ho]%elem_of_dom. destruct (lo_each _ _ _ _ HL _ _ Ho) as (_ & Hu & _). unfold get in Hu.
    destruct (ld_BindingUIDs s !! o) eqn:E; [|done]. by apply elem_of_dom_2 in E. }
  split; [done|]. rewrite (set_subseteq_size_eq _ _ HS); [done|]. rewrite !size_dom, (lo_size _ _ _ _ HL). done.
Qed.

Lemma reservation_uid owner uid uid' a : reservation_ok cfg pool bfdPool owner uid a -> uid' <> ""%string ->
  reservation_ok cfg pool bfdPool owner uid' a.
Proof. intros (H1 & _ & H2) Hu. done. Qed.

(** The ledger with one more reservation. *)
Definition with_reservation (s : ledger_state) (owner uid : string) (a : Allocation) : ledger_state :=
  mkLedger (<[owner := a]> (ld_Allocations s)) (<[owner := uid]> (ld_BindingUIDs s)).

Lemma with_reservation_ok s owner uid a : ledger_ok cfg pool bfdPool s -> ld_Allocations s !! owner = None ->
  (forall o u, ld_BindingUIDs s !! o = Some u -> u <> uid) -> reservation_ok cfg pool bfdPool owner uid a ->
  (forall o a', ld_Allocations s !! o = Some a' -> TransitCIDR a' <> TransitCIDR a /\ BFDSourceIP a' <> BFDSourceIP a) ->
  ledger_ok cfg pool bfdPool (with_reservation s owner uid a).
Proof.
  intros HL Ho Hu HR HF.
  assert (forall o a', ld_Allocations s !! o = Some a' -> owner <> o) as Hne by (intros o a' Ha <-; congruence).
  assert (ld_BindingUIDs s !! owner = None) as Hou by (apply not_elem_of_dom; rewrite <- (ledger_domain s HL); by apply not_elem_of_dom).
  split; simpl.
  - intros o a' [[<- <-]|[N Ha]]%lookup_insert_Some; [by rewrite get_insert_eq|].
    rewrite get_insert_ne by done. by apply (lo_each _ _ _ _ HL).
  - apply (tells_apart_insert (fun _ a => TransitCIDR a)); [done|apply (lo_transit _ _ _ _ HL)|done|]. intros. by eapply HF.
  - apply (tells_apart_insert (fun _ a => BFDSourceIP a)); [done|apply (lo_bfd _ _ _ _ HL)|done|]. intros. by eapply HF.
  - apply (tells_apart_insert (fun o _ => get (ld_BindingUIDs s) o)); [done|apply (lo_uid _ _ _ _ HL)| |].
    + intros o a' Ha. apply get_insert_ne. by eapply Hne.
    + intros o a' Ha. rewrite get_insert_eq. destruct (lo_each _ _ _ _ HL _ _ Ha) as (_ & Hn & _). unfold get in *.
      destruct (ld_BindingUIDs s !! o) eqn:E; [|done]. by eapply Hu.
  - rewrite !map_size_insert_None by done. by rewrite (lo_size _ _ _ _ HL).
Qed.

Lemma networks_disjoint o1 o2 u1 u2 a1 a2 p1 p2 : reservation_ok cfg pool bfdPool o1 u1 a1 -> reservation_ok cfg pool bfdPool o2 u2 a2 ->
  TransitCIDR a1 <> TransitCIDR a2 -> Prefix (TransitCIDR a1) = Ok p1 -> Prefix (TransitCIDR a2) = Ok p2 -> disjoint p1 p2.
Proof.
  intros (_ & _ & p & h & E1 & _ & L1 & _) (_ & _ & q & h' & E2 & _ & L2 & _) Hne H1 H2 x Hx [C1 C2].
  rewrite E1 in H1. rewrite E2 in H2. injection H1 as <-. injection H2 as <-. apply Hne. apply (Prefix_inj _ _ q); [|done].
  rewrite E1. f_equal. apply Prefix_ok in E1 as (v & b & Hp & Hb & Hal & _), E2 as (w & c & Hq & _ & Haw & _).
  rewrite (Contains_block _ _ _ _ Hp) in C1. rewrite (Contains_block _ _ _ _ Hq) in C2. breflect.
  destruct Hp as (-> & _), Hq as (-> & _). cbn [pbits] in *. subst. congruence.
Qed.

(** The reservations of an accepted ledger do not collide: the networks
    of two owners are inside the transit pool and share no address, and their BFD
    sources differ and are hosts of the BFD pool. *)
Theorem accepted_ledgers_do_not_collide cm s o1 o2 a1 a2 :
  readAllocationState cm cfg = Ok s -> ld_Allocations s !! o1 = Some a1 -> ld_Allocations s !! o2 = Some a2 -> o1 <> o2 ->
  exists p1 p2 x1 x2, Prefix (TransitCIDR a1) = Ok p1 /\ Prefix (TransitCIDR a2) = Ok p2 /\ disjoint p1 p2 /\
    (forall x, u32 x -> Contains p1 (Addr4 x) = true -> Contains pool (Addr4 x) = true) /\
    BFDSourceIP a1 = AddrString (Addr4 x1) /\ BFDSourceIP a2 = AddrString (Addr4 x2) /\ x1 <> x2 /\
    Contains bfdPool (Addr4 x1) = true /\ Contains bfdPool (Addr4 x2) = true.
Proof.
  intros HR H1 H2 Hne. apply read_ledger_ok in HR as HL.
  pose proof (lo_each _ _ _ _ HL _ _ H1) as R1. pose proof (lo_each _ _ _ _ HL _ _ H2) as R2.
  pose proof R1 as (_ & _ & p1 & h1 & E1 & F1 & L1 & C1 & D1 & _). pose proof R2 as (_ & _ & p2 & h2 & E2 & F2 & _).
  pose proof (po_bfd _ _ _ _ Hpools) as HB. apply Prefix_ok in HB as (w & c & Hw & Hc & Haw & _).
  destruct (Host_ok _ _ _ _ _ Hw ltac:(lia) Haw F1) as (x1 & _ & B1 & X1 & _).
  destruct (Host_ok _ _ _ _ _ Hw ltac:(lia) Haw F2) as (x2 & _ & B2 & X2 & _).
  exists p1, p2, x1, x2. split; [done|]. split; [done|]. split.
  { apply (networks_disjoint _ _ _ _ a1 a2 p1 p2 R1 R2); [|done..]. intros E. exact (Hne (lo_transit _ _ _ _ HL _ _ _ _ H1 H2 E)). }
  split; [|do 2 (split; [done|]); split].
  - intros x Hx Cx. pose proof (po_transit _ _ _ _ Hpools) as HT. apply Prefix_ok in HT as (v & b & Hp & Hb & Hal & _).
    apply Prefix_ok in E1 as (v1 & b1 & Hp1 & Hb1 & Hal1 & _).
    rewrite (LastAddress_block _ _ _ Hp1) in D1 by (lia || done).
    assert (paddr p1 = Addr4 v1) as Ea by (destruct Hp1 as (E & _); by rewrite E). rewrite Ea in C1.
    apply (Contains_range _ _ _ _ Hp). apply (Contains_range _ _ _ _ Hp) in C1, D1. apply (Contains_range _ _ _ _ Hp1) in Cx. lia.
  - intros ->. apply Hne. apply (lo_bfd _ _ _ _ HL _ _ _ _ H1 H2). congruence.
  - split; apply (Contains_range _ _ _ _ Hw); lia.
Qed.

(** A new reservation keeps the ledger sound. For a source and a binding
    that have none yet, [choose] on an accepted ledger gives a network and a source
    address that are disjoint from every retained one, and the ledger it writes is
    accepted again with exactly that reservation added; it gives up only when every
    network of the transit pool or every source address is taken. *)
Theorem reservations_extend_the_ledger cm s owner uid :
  clear_of_link_local pool -> clear_of_link_local bfdPool ->
  readAllocationState cm cfg = Ok s -> names_ascii s -> ascii_only owner = true -> ascii_only uid = true ->
  owner <> ""%string -> uid <> ""%string -> ld_Allocations s !! owner = None ->
  existsb (fun kv => (snd kv =? uid)%string) (map_to_list (ld_BindingUIDs s)) = false ->
  match choose cfg (ld_Allocations s) with
  | Some a =>
      readAllocationState (writeAllocationState cm (file_state (with_reservation s owner uid a))) cfg =
        Ok (with_reservation s owner uid a) /\
      (forall o a' p p', ld_Allocations s !! o = Some a' -> Prefix (TransitCIDR a) = Ok p -> Prefix (TransitCIDR a') = Ok p' ->
         disjoint p p' /\ BFDSourceIP a' <> BFDSourceIP a)
  | None =>
      (forall i, 0 <= i < 2 ^ (TransitPrefixLength cfg - pbits pool) -> exists o a, ld_Allocations s !! o = Some a /\
         TransitCIDR a = PrefixString (transit_candidate cfg pool i)) \/
      (forall j, 1 <= j < 2 ^ (32 - pbits bfdPool) - 1 -> exists o a, ld_Allocations s !! o = Some a /\
         BFDSourceIP a = bfd_candidate bfdPool j)
  end.
Proof.
  intros HLp HLb HR (N1 & N2 & N3) Ao Au Ho Hu Hf He. apply read_ledger_ok in HR as HL.
  destruct (choose cfg (ld_Allocations s)) as [a|] eqn:Ec; [|by apply choose_none].
  destruct (choose_ok _ _ _ _ HLp HLb Ho Hu Ec) as [Ha Hd].
  assert (ledger_ok cfg pool bfdPool (with_reservation s owner uid a)) as HL'.
  { apply with_reservation_ok; try done. intros o u Eu ->.
    assert (existsb (fun kv => (snd kv =? uid)%string) (map_to_list (ld_BindingUIDs s)) = true); [|congruence].
    apply existsb_exists. exists (o, uid). split; [by apply list_elem_of_In, elem_of_map_to_list|apply String.eqb_refl]. }
  split.
  - apply read_written_ledger; [| |done|].
    + intros E. unfold readAllocationState in HR. rewrite E in HR. by follow HR.
    + unfold readAllocationState in HR. follow HR. done.
    + split; [done|]. cbn [with_reservation ld_Allocations ld_BindingUIDs]. split.
      * intros o a' [[<- <-]|[_ Hx]]%lookup_insert_Some; eauto.
      * intros o u [[<- <-]|[_ Hx]]%lookup_insert_Some; [done|eauto].
  - intros o a' p p' Hx Hp Hp'. destruct (Hd _ _ Hx) as [D1 D2]. split; [|done].
    eapply networks_disjoint; [exact Ha|apply (lo_each _ _ _ _ HL _ _ Hx)|congruence|done|done].
Qed.
End ledger_files.

(** * What [allocate] promises

    [allocation_permitted] is its contract: addresses are handed out only once they
    are recorded, and nothing retained is forgotten or replaced. *)

Section allocate.
Context {VAL : Validation}.
Variable cfg : LocalConfig.Config.

(** The ledger of this pass, read or just created, with its accepted content. *)
Definition ledger_in (h : history) (cm : ConfigMap) (s : ledger_state) : Prop :=
  (asked h (Get Local KConfigMap (lc_Namespace cfg) allocationLedgerName) (Ok cm) \/
   asked h (Create Local KConfigMap (new_ledger cfg)) (Ok cm)) /\
  readAllocationState cm cfg = Ok s.
(** The local API answered that there is no object of this name. *)
Definition no_map (h : history) (name : string) : Prop :=
  exists x, asked h (Get Local KConfigMap (lc_Namespace cfg) name) x /\ found x = Ok None.
Definition listed (h : history) (l : list NetworkBinding) : Prop :=
  asked h (ListObjects Local KBinding (InNamespace (lc_Namespace cfg))) (Ok l).
(** [b] is a listed binding, under the source it is annotated with. *)
Definition listed_binding (h : history) (b : NetworkBinding) (owner : string) : Prop :=
  owner = get (om_Annotations (nb_Meta b)) SourceUIDAnnotation /\ owner <> ""%string /\ om_UID (nb_Meta b) <> ""%string /\
  exists l current, listed h l /\ In current l /\ om_Name (nb_Meta current) = om_Name (nb_Meta b) /\
    om_UID (nb_Meta current) = om_UID (nb_Meta b) /\ get (om_Annotations (nb_Meta current)) SourceUIDAnnotation = owner.

(** A reservation that the ledger of this pass has room for. *)
Definition fresh (s : ledger_state) (owner uid : string) (a : Allocation) : Prop :=
  ld_Allocations s !! owner = None /\ choose cfg (ld_Allocations s) = Some a /\
  existsb (fun kv => (snd kv =? uid)%string) (map_to_list (ld_BindingUIDs s)) = false.
Definition reserved_ledger (cm : ConfigMap) (s : ledger_state) (owner uid : string) (a : Allocation) : ConfigMap :=
  writeAllocationState cm (file_state cfg (with_reservation s owner uid a)).
(** The reservation is durable: it was in the ledger, or the write was answered. *)
Definition recorded (h : history) (owner uid : string) (a : Allocation) : Prop :=
  exists cm s, ledger_in h cm s /\
    (ld_Allocations s !! owner = Some a /\ get (ld_BindingUIDs s) owner = uid \/
     fresh s owner uid a /\ exists stored, asked h (Update Local KConfigMap (reserved_ledger cm s owner uid a)) (Ok stored)).

Definition allocation_permitted (h : history) (o : op) : Prop :=
  match o with
  | Get Local _ _ _ | ListObjects Local _ _ => True
  | Create Local k x =>
      match k return object k -> Prop with
      | KConfigMap => fun cm => no_map h allocationIdentityName /\ (exists l, listed h l /\ bootstrapAllocationEvidence l = false) /\
          (cm = new_ledger cfg /\ no_map h allocationLedgerName \/
           exists ledger s, cm = new_identity cfg (om_UID (cm_Meta ledger)) /\ ledger_in h ledger s /\ size (ld_Allocations s) = 0%nat)
      | _ => fun _ => False
      end x
  | Update Local k x =>
      match k return object k -> Prop with
      | KConfigMap => fun cm => exists ledger s b owner a, ledger_in h ledger s /\ listed_binding h b owner /\
          fresh s owner (om_UID (nb_Meta b)) a /\ cm = reserved_ledger ledger s owner (om_UID (nb_Meta b)) a
      | KBinding => fun b' => exists b owner a ledgerUID, listed_binding h b owner /\ recorded h owner (om_UID (nb_Meta b)) a /\
          b' = nb_with_Meta (fun m => set_Annotations
                 (<[AllocationReceiptAnnotation := Marshal (receipt_json (mkReceipt (ClusterUID cfg) owner (om_UID (nb_Meta b)) ledgerUID a))]>
                    (om_Annotations m)) m) b
      | _ => fun _ => False
      end x
  | _ => False
  end.

Lemma recorded_extends h h' owner uid a : extends h h' -> recorded h owner uid a -> recorded h' owner uid a.
Proof.
  intros HE (cm & s & [Hl Hr] & Ha). exists cm, s. split; [split; [|done]; destruct Hl; eauto using asked_extends|].
  destruct Ha as [?|(? & st & ?)]; [by left|right]. split; [done|]. exists st. by eapply asked_extends.
Qed.
Lemma ledger_in_extends h h' cm s : extends h h' -> ledger_in h cm s -> ledger_in h' cm s.
Proof. intros HE [Hl Hr]. split; [|done]. destruct Hl; eauto using asked_extends. Qed.
Lemma no_map_extends h h' name : extends h h' -> no_map h name -> no_map h' name.
Proof. intros HE (x & Ha & Hf). exists x. split; [by eapply asked_extends|done]. Qed.
Lemma listed_binding_extends h h' b owner : extends h h' -> listed_binding h b owner -> listed_binding h' b owner.
Proof.
  intros HE (H1 & H2 & H3 & l & c & Hl & Hc). do 3 (split; [done|]). exists l, c. split; [by eapply asked_extends|done].
Qed.

(** What [allocate] returns. *)
Definition allocated (b : NetworkBinding) (h : history) (r : res (Allocation * NetworkBinding)) : Prop :=
  match r with
  | Ok (a, b') => listed_binding h b (get (om_Annotations (nb_Meta b)) SourceUIDAnnotation) /\
      recorded h (get (om_Annotations (nb_Meta b)) SourceUIDAnnotation) (om_UID (nb_Meta b)) a /\
      (b' = b /\ get (om_Annotations (nb_Meta b)) AllocationReceiptAnnotation <> ""%string \/
       exists sent, asked h (Update Local KBinding sent) (Ok b'))
  | Err _ => True
  end.

Let R := allocation_permitted.

Lemma wp_open_ledger h l identity (Q : history -> res ConfigMap -> Prop) :
  listed h l -> (identity = None -> no_map h allocationIdentityName) ->
  (forall e h', extends h h' -> Q h' (Err e)) ->
  (forall cm h', extends h h' -> (forall s, readAllocationState cm cfg = Ok s -> ledger_in h' cm s) -> Q h' (Ok cm)) ->
  wp any_answer R (open_ledger cfg identity (bootstrapAllocationEvidence l)) h Q.
Proof.
  intros Hl Hi HE HQ. unfold open_ledger. wstep. wstep; [done|]. intros x _.
  set (h1 := h ++ [_]). assert (extends h h1) as HE1 by apply extends_snoc.
  destruct (found x) as [[cm|]|e] eqn:Ef; [| |by apply HE].
  - apply found_some in Ef. subst x. apply HQ; [done|]. intros s Hs. split; [left; apply asked_snoc|done].
  - wstep; [by apply HE|]. breflect. apply dec_stable in H. wstep.
    + simpl. split; [apply (no_map_extends h); auto|]. split; [exists l; split; [by eapply asked_extends|done]|].
      left. split; [done|]. exists x. split; [apply asked_snoc|done].
    + intros [cm|e] _; [apply HQ; [by eapply extends_trans; [|apply extends_snoc]|]|apply HE; by eapply extends_trans; [|apply extends_snoc]].
      intros s Hs. split; [right; apply asked_snoc|done].
Qed.

Lemma wp_open_identity h l identity cm s (Q : history -> res ConfigMap -> Prop) :
  listed h l -> (identity = None -> no_map h allocationIdentityName) -> ledger_in h cm s ->
  (forall x h', extends h h' -> Q h' x) ->
  wp any_answer R (open_identity cfg identity (bootstrapAllocationEvidence l) cm s) h Q.
Proof.
  intros Hl Hi HL HQ. unfold open_identity. destruct identity as [i|]; [apply HQ, extends_refl|].
  wstep; [apply HQ, extends_refl|]. breflect. wstep; [|intros; apply HQ, extends_snoc].
  simpl. split; [auto|]. split; [by exists l|]. right. by exists cm, s.
Qed.

Lemma wp_reserve_allocation h cm s b owner (Q : history -> res (ConfigMap * Allocation) -> Prop) :
  ledger_in h cm s -> listed_binding h b owner -> ld_Allocations s !! owner = None ->
  (forall e h', extends h h' -> Q h' (Err e)) ->
  (forall st a h', extends h h' -> recorded h' owner (om_UID (nb_Meta b)) a -> Q h' (Ok (st, a))) ->
  wp any_answer R (reserve_allocation cfg cm s owner (om_UID (nb_Meta b))) h Q.
Proof.
  intros HL HB Hf HE HQ. unfold reserve_allocation. wstep; [apply HE, extends_refl|].
  destruct (choose cfg (ld_Allocations s)) as [a|] eqn:Ech; [|apply HE, extends_refl].
  assert (fresh s owner (om_UID (nb_Meta b)) a) as HF by done.
  wstep. wstep; [by exists cm, s, b, owner, a|].
  intros [st|e] _; [wstep; apply HQ|apply HE]; try apply extends_snoc.
  exists cm, s. split; [eapply ledger_in_extends; [apply extends_snoc|done]|]. right. split; [done|].
  exists st. apply asked_snoc.
Qed.

Lemma wp_write_receipt h b owner ledgerUID a :
  listed_binding h b owner -> recorded h owner (om_UID (nb_Meta b)) a ->
  wp any_answer R (write_receipt cfg b owner ledgerUID a) h (fun h' r => extends h h' /\
    match r with
    | Ok b' => b' = b /\ get (om_Annotations (nb_Meta b)) AllocationReceiptAnnotation <> ""%string \/
               exists sent, asked h' (Update Local KBinding sent) (Ok b')
    | Err _ => True
    end).
Proof.
  intros HB HR. unfold write_receipt. wstep.
  - breflect. split; [apply extends_refl|by left].
  - wstep; [by exists b, owner, a, ledgerUID|]. intros [b'|e] _; (split; [apply extends_snoc|]); [|done].
    right. eexists. apply asked_snoc.
Qed.

Lemma wp_allocate h b (Q : history -> res (Allocation * NetworkBinding) -> Prop) :
  (forall h' r, extends h h' -> allocated b h' r -> Q h' r) ->
  wp any_answer R (allocate cfg b) h Q.
Proof.
  intros HQ. assert (forall e h', extends h h' -> Q h' (Err e)) as HE by (intros; by apply HQ).
  unfold allocate. wstep. wstep. destruct (Validate cfg) as [[]|e]; [|apply HE, extends_refl].
  set (owner := get _ SourceUIDAnnotation). wstep; [apply HE, extends_refl|]. breflect.
  wstep. wstep; [done|]. intros [l|e] _; [|apply HE, extends_snoc]. set (h1 := h ++ [_]).
  assert (extends h h1) as E1 by apply extends_snoc. assert (listed h1 l) as Hl by apply asked_snoc.
  wstep; [by apply HE|]. breflect. match goal with HX : existsb _ l = true |- _ => apply existsb_exists in HX as (cur & Hc & Hm) end. breflect.
  assert (listed_binding h1 b owner) as HB.
  { split; [done|]. split; [done|]. split; [done|]. exists l, cur. done. }
  wstep. wstep; [done|]. intros x _. set (h2 := h1 ++ [_]). assert (extends h1 h2) as E2 by apply extends_snoc.
  destruct (found x) as [identity|e] eqn:Ef; [|apply HE; by eapply extends_trans].
  assert (identity = None -> no_map h2 allocationIdentityName) as Hi by (intros ->; exists x; split; [apply asked_snoc|done]).
  assert (listed h2 l) as Hl2 by by eapply asked_extends.
  wstep. apply wp_open_ledger; [done|done|intros; apply HE; by repeat (eapply extends_trans; [eassumption|])|].
  intros cm h3 E3 HL3. wstep. wstep. destruct (readAllocationState cm cfg) as [s|e] eqn:Es; [|apply HE; by repeat (eapply extends_trans; [eassumption|])].
  specialize (HL3 s eq_refl).
  wstep. apply (wp_open_identity h3 l); [by apply (asked_extends h2)|intros; apply (no_map_extends h2); auto|done|].
  intros [i|e] h4 E4; [|apply HE; by repeat (eapply extends_trans; [eassumption|])].
  assert (extends h1 h4) as E14 by by repeat (eapply extends_trans; [eassumption|]).
  assert (extends h h4) as E04 by by eapply extends_trans.
  assert (ledger_in h4 cm s) as HL by by apply (ledger_in_extends h3).
  pose proof (listed_binding_extends _ _ _ _ E14 HB) as HB4.
  wstep; [by apply HE|]. wstep. wstep. destruct (validateAllocationReceipts _ _ _ _) as [[]|e]; [|by apply HE].
  wstep. wstep. destruct (validateAllocationReceipts _ _ _ _) as [[]|e]; [|by apply HE].
  assert (forall (reserved : ConfigMap * Allocation) h5, extends h4 h5 -> recorded h5 owner (om_UID (nb_Meta b)) (snd reserved) ->
    wp any_answer R (b' <-! write_receipt cfg b owner (om_UID (cm_Meta (fst reserved))) (snd reserved) ;; Ret (Ok (snd reserved, b')))
      h5 Q) as HW.
  { intros [st a] h5 E5 HR5. wstep. eapply wp_mono; [|apply wp_write_receipt; [by apply (listed_binding_extends h4)|done]].
    intros h6 [b'|e] [E6 Hb']; [wstep; apply HQ|apply HE]; try (by repeat (eapply extends_trans; [eassumption|])).
    split; [apply (listed_binding_extends h5); [done|]; by apply (listed_binding_extends h4)|]. split; [by apply (recorded_extends h5)|done]. }
  wstep. destruct (ld_Allocations s !! owner) as [a|] eqn:Ea.
  - wstep; [by apply HE|]. breflect. wstep. apply HW; [apply extends_refl|]. exists cm, s. split; [done|by left].
  - apply wp_reserve_allocation; [done..|intros; apply HE; by eapply extends_trans|]. intros st a h5 E5 HR5. by apply HW.
Qed.

Lemma allocate_obeys b : obeys R (allocate cfg b).
Proof. apply (wp_obeys _ _ (fun _ _ => True)). by apply wp_allocate. Qed.

(** C7: addresses are handed out only once they are durable. Wherever the
    pass stops, a receipt is written only for a reservation that the ledger of
    this pass holds for that source and that binding UID, or whose write to the
    ledger was answered; and [allocate] returns only such a reservation, beside a
    binding that carries a receipt or whose receipt was answered. *)
Theorem addresses_are_recorded_first b h p' :
  exec (allocate cfg b) h p' ->
  (forall h1 b', called h h1 (Update Local KBinding b') -> exists b0 owner a ledgerUID,
     listed_binding h1 b0 owner /\ recorded h1 owner (om_UID (nb_Meta b0)) a /\
     get (om_Annotations (nb_Meta b')) AllocationReceiptAnnotation =
       Marshal (receipt_json (mkReceipt (ClusterUID cfg) owner (om_UID (nb_Meta b0)) ledgerUID a))) /\
  (forall a b', p' = Ret (Ok (a, b')) -> allocated b h (Ok (a, b'))).
Proof.
  intros HX. split.
  - intros h1 b' HC. destruct (called_permitted _ _ _ _ _ _ (allocate_obeys b) HX HC) as (b0 & owner & a & l & H1 & H2 & ->).
    exists b0, owner, a, l. split; [done|]. split; [done|]. unfold nb_with_Meta. simpl. apply get_insert_eq.
  - intros a b' ->. refine (wp_ret_exec any_answer R _ _ _ _ (wp_allocate [] b (allocated b) (fun h' r _ Hr => Hr)) HX (answered_any _ _)).
Qed.

(** C14: nothing retained is forgotten or replaced. The only writes to the
    allocation state add one fresh reservation for a listed binding to the ledger
    that this pass read; and a ledger or its identity is created only when the
    local API answered that there is none and no listed binding shows that
    addresses were given before. *)
Theorem retained_state_is_never_replaced b h p' h1 :
  exec (allocate cfg b) h p' ->
  (forall cm, called h h1 (Update Local KConfigMap cm) -> exists ledger s b0 owner a, ledger_in h1 ledger s /\
     listed_binding h1 b0 owner /\ fresh s owner (om_UID (nb_Meta b0)) a /\ cm = reserved_ledger ledger s owner (om_UID (nb_Meta b0)) a) /\
  (forall cm, called h h1 (Create Local KConfigMap cm) -> no_map h1 allocationIdentityName /\
     (exists l, listed h1 l /\ bootstrapAllocationEvidence l = false) /\
     (cm = new_ledger cfg /\ no_map h1 allocationLedgerName \/
      exists ledger s, cm = new_identity cfg (om_UID (cm_Meta ledger)) /\ ledger_in h1 ledger s /\ size (ld_Allocations s) = 0%nat)) /\
  (forall c k ns name p, ~ called h h1 (Delete c k ns name p)).
Proof.
  intros HX. split; [|split].
  - intros cm HC. exact (called_permitted _ _ _ _ _ _ (allocate_obeys b) HX HC).
  - intros cm HC. exact (called_permitted _ _ _ _ _ _ (allocate_obeys b) HX HC).
  - intros c k ns name p HC. exact (called_permitted _ _ _ _ _ _ (allocate_obeys b) HX HC).
Qed.
End allocate.
