(* ===== verification/Sync.v ===== *)
(** * [internal/localcontroller/sync.go]: authority snapshots to local copies

    [Once] copies every authorized snapshot of this location into the local API and
    reports the local status back; a snapshot that is absent changes nothing. *)
From S2P Require Import Prelude GoStd Json NetIP Api LocalConfig Prog Kube PlatformPlan Allocation.
Open Scope Z_scope.

Section sync.
Variable cfg : LocalConfig.Config.

Definition new_local (remote : NetworkBinding) : NetworkBinding :=
  mkBinding
    (newMeta (om_Name (nb_Meta remote)) (lc_Namespace cfg) (<[LocationLabel := LocationRef cfg]> ∅)
       (<[SourceUIDAnnotation := om_UID (nb_Meta remote)]>
          (<[SourceGenerationAnnotation := Itoa (om_Generation (nb_Meta remote))]> ∅)))
    (nb_Spec remote) (mkBindingStatus 0 "" "" [] [] []).

(** The local status as the authority stores it. *)
Definition reported_status (local remote : NetworkBinding) : NetworkBindingStatus :=
  let t := nb_Status local in
  let observed := if (bt_AppliedRevision t =? nb_Revision (nb_Spec remote))%string
                  then om_Generation (nb_Meta remote) else 0 in
  mkBindingStatus observed (bt_Phase t) (bt_AppliedRevision t) (bt_Resources t) (bt_Gateways t)
    (map (fun c => mkCondition (cd_Type c) (cd_Status c) (cd_Reason c) (cd_Message c) observed (cd_LastTransitionTime c))
       (bt_Conditions t)).

Definition report_status (local remote : NetworkBinding) : kprog (res unit) :=
  let status := reported_status local remote in
  if bool_decide (nb_Status remote = status) then Ret (Ok tt)
  else _ <-! kstatus Authority KBinding (nb_with_Status status remote) ;; Ret (Ok tt).

Definition source_of (b : NetworkBinding) : string := get (om_Annotations (nb_Meta b)) SourceUIDAnnotation.
Definition generation_of (b : NetworkBinding) : option Z := ParseInt (get (om_Annotations (nb_Meta b)) SourceGenerationAnnotation).

(** The accepted snapshot advances to the authority's. *)
Definition advance (local remote : NetworkBinding) : NetworkBinding :=
  nb_with_Spec (nb_Spec remote)
    (nb_with_Meta (fun m => set_Annotations (<[SourceGenerationAnnotation := Itoa (om_Generation (nb_Meta remote))]> (om_Annotations m)) m) local).

Definition clean_tombstone (local : NetworkBinding) : bool :=
  nb_Deleting (nb_Spec local) && (bt_Phase (nb_Status local) =? "Deleted")%string &&
  (bt_AppliedRevision (nb_Status local) =? nb_Revision (nb_Spec local))%string &&
  (List.length (bt_Resources (nb_Status local)) =? 0)%nat && (List.length (bt_Gateways (nb_Status local)) =? 0)%nat.

(** An existing local copy. *)
Definition update_local (local remote : NetworkBinding) : kprog (res unit) :=
  if negb (source_of local =? om_UID (nb_Meta remote))%string then
    if clean_tombstone local then delete_object Local KBinding local
    else Ret (Err (Errorf "previous local binding incarnation has not completed cleanup"))
  else
    stop negb (bool_decide (nb_VPCRef (nb_Spec local) = nb_VPCRef (nb_Spec remote))) ||
         negb (nb_LocationRef (nb_Spec local) =? LocationRef cfg)%string
      with Errorf "local snapshot belongs to another authority identity" ;;
    match generation_of local with
    | None => Ret (Err (Errorf "authority generation is older than the accepted local snapshot"))
    | Some generation =>
        let current := om_Generation (nb_Meta remote) in
        stop current <? generation
          with Errorf "authority generation is older than the accepted local snapshot" ;;
        stop (current =? generation) && negb (bool_decide (nb_Spec local = nb_Spec remote))
          with Errorf "authority changed snapshot without advancing generation" ;;
        if generation <? current then
          stop nb_Deleting (nb_Spec local) && negb (nb_Deleting (nb_Spec remote))
            with Errorf "cannot resurrect a deleting local snapshot" ;;
          stored <-! kupdate Local KBinding (advance local remote) ;;
          report_status stored remote
        else report_status local remote
    end.

(** [Syncer.binding] *)
Definition binding (remote : NetworkBinding) : kprog (res unit) :=
  stop negb (nb_LocationRef (nb_Spec remote) =? LocationRef cfg)%string
    with Errorf "authority snapshot belongs to another location" ;;
  stop negb (om_Name (nb_Meta remote) =? BindingName (oi_UID (nb_VPCRef (nb_Spec remote))) (LocationRef cfg))%string ||
       negb (nb_Revision (nb_Spec remote) =? Revision (nb_Spec remote))%string
    with Errorf "authority snapshot identity or revision is invalid" ;;
  found <-! kfind Local KBinding (lc_Namespace cfg) (om_Name (nb_Meta remote)) ;;
  match found with
  | None => _ <-! kcreate Local KBinding (new_local remote) ;; Ret (Ok tt)
  | Some local => update_local local remote
  end.

(** Every snapshot is tried; the failures are joined ([[]] is a nil error). *)
Fixpoint sync_all (l : list NetworkBinding) : kprog (list error) :=
  match l with
  | [] => Ret []
  | remote :: rest =>
      x <- binding remote ;;
      failures <- sync_all rest ;;
      Ret (match x with
           | Ok _ => failures
           | Err e => Wrapf ("binding " ++ om_Name (nb_Meta remote)) e :: failures
           end)
  end.
Definition Once : kprog (list error) :=
  all <- klist Authority KBinding (InNamespace (AuthorityNamespace cfg)) ;;
  match all with
  | Err _ => Ret [Errorf "cannot read authorized location snapshots"]
  | Ok items => sync_all items
  end.
End sync.

(** * What synchronization promises

    [sync_permitted] is the contract of [Syncer.Once]: every call it may make, with
    what it must have read before. An accepted snapshot only moves forward, only
    snapshots that the authority listed are touched, and the only deletes are of
    cleaned tombstones. *)

Section contract.
Variable cfg : LocalConfig.Config.

(** A snapshot the authority listed in this pass, meant for this location, under
    its derived name and with its own revision. *)
Definition authorized (h : history) (remote : NetworkBinding) : Prop :=
  (exists items, asked h (ListObjects Authority KBinding (InNamespace (AuthorityNamespace cfg))) (Ok items) /\ In remote items) /\
  nb_LocationRef (nb_Spec remote) = LocationRef cfg /\
  om_Name (nb_Meta remote) = BindingName (oi_UID (nb_VPCRef (nb_Spec remote))) (LocationRef cfg) /\
  nb_Revision (nb_Spec remote) = Revision (nb_Spec remote).
Definition read_local (h : history) (remote local : NetworkBinding) : Prop :=
  asked h (Get Local KBinding (lc_Namespace cfg) (om_Name (nb_Meta remote))) (Ok local).

(** The location withdrew everything of this copy: nothing is left behind by its
    deletion. *)
Definition drained (local : NetworkBinding) : Prop :=
  nb_Deleting (nb_Spec local) = true /\ bt_Phase (nb_Status local) = "Deleted"%string /\
  bt_AppliedRevision (nb_Status local) = nb_Revision (nb_Spec local) /\
  bt_Resources (nb_Status local) = [] /\ bt_Gateways (nb_Status local) = [].
Lemma clean_tombstone_drained local : clean_tombstone local = true -> drained local.
Proof.
  unfold clean_tombstone. intros H. breflect. unfold drained. rewrite <- (List.length_zero_iff_nil (bt_Resources _)).
  rewrite <- (List.length_zero_iff_nil (bt_Gateways _)). done.
Qed.

(** The accepted copy may advance to the authority's snapshot. *)
Definition may_advance (local remote : NetworkBinding) : Prop :=
  source_of local = om_UID (nb_Meta remote) /\
  nb_VPCRef (nb_Spec local) = nb_VPCRef (nb_Spec remote) /\ nb_LocationRef (nb_Spec local) = LocationRef cfg /\
  (exists generation, generation_of local = Some generation /\ generation < om_Generation (nb_Meta remote)) /\
  (nb_Deleting (nb_Spec local) = true -> nb_Deleting (nb_Spec remote) = true).
Definition sync_permitted (h : history) (o : op) : Prop :=
  match o with
  | Get Local _ _ _ | ListObjects Authority _ _ => True
  | Create Local k b =>
      match k return object k -> Prop with
      | KBinding => fun b => exists remote, authorized h remote /\ b = new_local cfg remote
      | _ => fun _ => False
      end b
  | Update Local k b =>
      match k return object k -> Prop with
      | KBinding => fun b => exists remote local, authorized h remote /\ read_local h remote local /\
                      may_advance local remote /\ b = advance local remote
      | _ => fun _ => False
      end b
  | Delete Local k ns name p =>
      k = KBinding /\ exists remote local, authorized h remote /\ read_local h remote local /\
        drained local /\ source_of local <> om_UID (nb_Meta remote) /\
        ns = om_Namespace (nb_Meta local) /\ name = om_Name (nb_Meta local) /\
        p = mkPre (Some (om_UID (nb_Meta local))) (Some (om_ResourceVersion (nb_Meta local)))
  | UpdateStatus Authority k b =>
      match k return object k -> Prop with
      | KBinding => fun b => exists remote local, authorized h remote /\
                      (read_local h remote local \/ exists before, asked h (Update Local KBinding (advance before remote)) (Ok local)) /\
                      b = nb_with_Status (reported_status local remote) remote
      | _ => fun _ => False
      end b
  | _ => False
  end.

Lemma authorized_extends h h' remote : extends h h' -> authorized h remote -> authorized h' remote.
Proof. intros HE ((items & Ha & Hi) & ?). split; [|done]. exists items. split; [by eapply asked_extends|done]. Qed.

Let R := sync_permitted.

Lemma wp_report_status h remote local (Q : history -> res unit -> Prop) :
  authorized h remote ->
  (read_local h remote local \/ exists before, asked h (Update Local KBinding (advance before remote)) (Ok local)) ->
  (forall h' x, extends h h' -> Q h' x) -> wp any_answer R (report_status local remote) h Q.
Proof.
  intros Ha Hl HQ. unfold report_status. wstep; [apply HQ, extends_refl|]. wstep. wstep.
  - exists remote, local. done.
  - intros [?|?] _; [wstep|]; apply HQ, extends_snoc.
Qed.

Lemma wp_update_local h remote local (Q : history -> res unit -> Prop) :
  authorized h remote -> read_local h remote local ->
  (forall h' x, extends h h' -> Q h' x) -> wp any_answer R (update_local cfg local remote) h Q.
Proof.
  intros Ha Hl HQ. unfold update_local. wstep.
  { wstep; [|apply HQ, extends_refl]. breflect. wstep; [|intros; apply HQ, extends_snoc]. split; [done|]. exists remote, local. eauto 10 using clean_tombstone_drained. }
  wstep; [apply HQ, extends_refl|]. destruct (generation_of local) as [g|] eqn:Eg; [|apply HQ, extends_refl].
  wstep; [apply HQ, extends_refl|]. wstep; [apply HQ, extends_refl|]. wstep.
  2:{ apply wp_report_status; auto. }
  wstep; [apply HQ, extends_refl|]. breflect. wstep. wstep.
  - exists remote, local. split; [done|]. split; [done|]. split; [|done]. do 3 (split; [done|]). split; [by exists g|].
    intros Hd. rewrite Hd in *. by destruct (nb_Deleting (nb_Spec remote)).
  - intros [stored|e] _; [|apply HQ, extends_snoc]. apply wp_report_status.
    + by eapply authorized_extends; [apply extends_snoc|].
    + right. eexists. apply asked_snoc.
    + intros h' x HE. apply HQ. eapply extends_trans; [apply extends_snoc|done].
Qed.

Lemma wp_binding h remote (Q : history -> res unit -> Prop) :
  (exists items, asked h (ListObjects Authority KBinding (InNamespace (AuthorityNamespace cfg))) (Ok items) /\ In remote items) ->
  (forall h' x, extends h h' -> Q h' x) -> wp any_answer R (binding cfg remote) h Q.
Proof.
  intros Hi HQ. unfold binding. wstep; [apply HQ, extends_refl|]. wstep; [apply HQ, extends_refl|]. breflect.
  assert (authorized h remote) as Ha by done.
  wstep. wstep; [done|]. intros x _. assert (extends h (h ++ [Ev (Get Local KBinding (lc_Namespace cfg) (om_Name (nb_Meta remote))) x])) as HE by apply extends_snoc.
  pose proof (authorized_extends _ _ _ HE Ha) as Ha'.
  destruct (found x) as [[local|]|e] eqn:Ef; [| |by apply HQ].
  - apply found_some in Ef. subst x. apply wp_update_local; [done|apply asked_snoc|]. intros h' x HE'. apply HQ. by eapply extends_trans.
  - wstep. wstep; [by exists remote|]. intros [?|?] _; [wstep|]; apply HQ; (eapply extends_trans; [exact HE|apply extends_snoc]).
Qed.

Lemma wp_sync_all items : forall h,
  (exists items', asked h (ListObjects Authority KBinding (InNamespace (AuthorityNamespace cfg))) (Ok items') /\ incl items items') ->
  wp any_answer R (sync_all cfg items) h (fun _ _ => True).
Proof.
  induction items as [|remote rest IH]; intros h (items' & Ha & Hi); [done|]. cbn [sync_all]. wstep. apply wp_binding.
  - exists items'. split; [done|]. apply Hi. by left.
  - intros h' x HE. wstep. eapply wp_mono; [|apply IH]; [done|]. exists items'. split; [by eapply asked_extends|].
    intros y Hy. apply Hi. by right.
Qed.

Lemma Once_obeys : obeys R (Once cfg).
Proof.
  apply (wp_obeys _ _ (fun _ _ => True)). unfold Once. wstep. wstep; [done|]. intros [items|e] _; [|done].
  apply wp_sync_all. exists items. split; [apply asked_snoc|apply incl_refl].
Qed.

(** ** Properties *)

(** C15: an accepted snapshot only moves forward. Every update of a local
    copy puts the authority's spec, of a snapshot listed in this pass for this
    location under its derived name and revision, over a copy of the same authority
    object and VPC whose generation is strictly older, and never brings a deleting
    copy back. *)
Theorem snapshots_only_move_forward h p' h1 b :
  exec (Once cfg) h p' -> called h h1 (Update Local KBinding b) ->
  exists remote local, authorized h1 remote /\ read_local h1 remote local /\ may_advance local remote /\ b = advance local remote.
Proof. intros HX HC. exact (called_permitted _ _ _ _ _ _ Once_obeys HX HC). Qed.

(** C28: omission is never a delete instruction. The only deletes are of
    local copies of another incarnation of a snapshot the authority does list, whose
    cleanup is complete, conditional on the UID and version that were read; and
    nothing is created but the copy of a listed snapshot. *)
Theorem omission_never_deletes h p' h1 :
  exec (Once cfg) h p' ->
  (forall c k ns name p, called h h1 (Delete c k ns name p) -> c = Local /\ k = KBinding /\
     exists remote local, authorized h1 remote /\ read_local h1 remote local /\ drained local /\
       source_of local <> om_UID (nb_Meta remote) /\ ns = om_Namespace (nb_Meta local) /\ name = om_Name (nb_Meta local) /\
       p = mkPre (Some (om_UID (nb_Meta local))) (Some (om_ResourceVersion (nb_Meta local)))) /\
  (forall b, called h h1 (Create Local KBinding b) -> exists remote, authorized h1 remote /\ b = new_local cfg remote).
Proof.
  intros HX. split.
  - intros c k ns name p HC. pose proof (called_permitted _ _ _ _ _ _ Once_obeys HX HC) as HP. by destruct c.
  - intros b HC. exact (called_permitted _ _ _ _ _ _ Once_obeys HX HC).
Qed.

(** A new copy and an advanced copy carry the UID and generation of the
    snapshot they were taken from, so the next pass recognises them: the snapshot
    itself can no longer advance them. *)
Theorem copies_are_stamped remote local : 0 <= om_Generation (nb_Meta remote) < 2 ^ 63 ->
  source_of local = om_UID (nb_Meta remote) ->
  let stamped b := source_of b = om_UID (nb_Meta remote) /\ generation_of b = Some (om_Generation (nb_Meta remote)) /\
                   nb_Spec b = nb_Spec remote /\ ~ may_advance b remote in
  stamped (new_local cfg remote) /\ stamped (advance local remote).
Proof.
  intros Hg Hs stamped.
  assert (forall b, source_of b = om_UID (nb_Meta remote) -> generation_of b = Some (om_Generation (nb_Meta remote)) ->
    nb_Spec b = nb_Spec remote -> stamped b) as G.
  { intros b H1 H2 H3. do 3 (split; [done|]). intros (_ & _ & _ & (g & E & Hlt) & _). rewrite H2 in E. injection E as <-. lia. }
  split; apply G; try done; unfold source_of, generation_of, get; cbn; rewrite ?lookup_insert_eq; cbn;
    rewrite ?lookup_insert_ne by done; rewrite ?lookup_insert_eq; cbn; try done; by apply ParseInt_Itoa.
Qed.

(** C38: a copy that is in step with its snapshot, and whose status the
    authority has, costs one read: in every world that answers the read with that
    copy, the pass over the snapshot makes no other call and succeeds. *)
Theorem steady_snapshots_are_left_alone {W} (step : forall o : op, W -> ans o * W) w w' remote local :
  nb_LocationRef (nb_Spec remote) = LocationRef cfg ->
  om_Name (nb_Meta remote) = BindingName (oi_UID (nb_VPCRef (nb_Spec remote))) (LocationRef cfg) ->
  nb_Revision (nb_Spec remote) = Revision (nb_Spec remote) ->
  source_of local = om_UID (nb_Meta remote) -> nb_Spec local = nb_Spec remote ->
  generation_of local = Some (om_Generation (nb_Meta remote)) -> nb_Status remote = reported_status local remote ->
  step (Get Local KBinding (lc_Namespace cfg) (om_Name (nb_Meta remote))) w = (Ok local, w') ->
  run step (binding cfg remote) w =
    ([Ev (Get Local KBinding (lc_Namespace cfg) (om_Name (nb_Meta remote))) (Ok local)], Ok tt, w').
Proof.
  intros HL HN HRv HS HSp HG HSt HW.
  assert (update_local cfg local remote = Ret (Ok tt)) as EU.
  { unfold update_local. rewrite HS, HSp, HL, HG, !String.eqb_refl, !bool_decide_eq_true_2 by done. cbn [negb orb].
    rewrite Z.eqb_refl, Z.ltb_irrefl. cbn [andb]. unfold report_status. by rewrite bool_decide_eq_true_2 by done. }
  unfold binding. rewrite HL, <- HN, <- HRv, !String.eqb_refl. cbn [negb orb bind_ok bind kfind kget call run].
  rewrite HW. cbn [found]. rewrite EU. done.
Qed.
End contract.
