(* ===== verification/SyncWitness.v ===== *)
(** * Executions of snapshot synchronization *)
From S2P Require Import Prelude GoStd Json NetIP Api LocalConfig Prog Kube PlatformPlan Allocation Sync PlatformWitness.
Open Scope Z_scope.

Definition example_local : LocalConfig.Config :=
  LocalConfig.mkConfig "east" "c1" "global-vpc" "bind-east" "/etc/authority" (<["role" := "gateway"]> ∅) ""
    "100.64.0.0/16" 29 "100.65.0.0/24" 2 "gateway:1" 1400 "10.255.0.0/24" 20000 20999 "/run/gw".

(** The authority lists one snapshot; the local API holds at most one copy. *)
Record sites := mkSites { remote_snapshot : NetworkBinding; local_copy : option NetworkBinding }.
Definition local_object (s : sites) (k : kind) : res (object k) :=
  match k return res (object k) with
  | KBinding => match local_copy s with Some b => Ok b | None => absent end
  | _ => absent
  end.
Definition remote_objects (s : sites) (k : kind) : res (list (object k)) :=
  match k return res (list (object k)) with KBinding => Ok [remote_snapshot s] | _ => Ok [] end.
Definition sites_answer (s : sites) (o : op) (u : unit) : ans o * unit :=
  match o return ans o * unit with
  | Get _ k _ _ => (local_object s k, u)
  | ListObjects _ k _ => (remote_objects s k, u)
  | Create _ k x | Update _ k x | UpdateStatus _ k x => (Ok x, u)
  | Delete _ _ _ _ _ => (Ok tt, u)
  | RandRead _ | ReadFile _ _ | Probe _ _ => (absent, u)
  end.
Definition sync_history (s : sites) : history := fst (fst (run (sites_answer s) (Once example_local) tt)).
Lemma sync_history_exec s : exists p', exec (Once example_local) (sync_history s) p'.
Proof. eexists. apply run_history. Qed.
Lemma sync_called s n o : (n <? List.length (sync_history s))%nat = true -> nth_op (sync_history s) n = o ->
  called (sync_history s) (firstn n (sync_history s)) o.
Proof. intros Hn <-. by apply called_nth. Qed.

Definition example_spec (subnets : list BindingSubnet) (deleting : bool) : NetworkBindingSpec :=
  let s := mkBindingSpec (mkIdentity "proj" "net" "u1") 1 2 "east" "default" "net-u1" "wireguard-bgp" subnets
             (Some ["east"]) [] [] [] "" deleting in
  nbs_with_Revision (Revision s) s.
Definition example_snapshot (generation : Z) (spec : NetworkBindingSpec) : NetworkBinding :=
  mkBinding (mkMeta (BindingName "u1" "east") "bind-east" "b1" "7" generation 0 None (<[PlanOwnerLabel := "u1"]> ∅) ∅ [] [])
    spec (mkBindingStatus 0 "" "" [] [] []).
Definition first_snapshot : NetworkBinding := example_snapshot 1 (example_spec [] false).
Definition second_snapshot : NetworkBinding :=
  example_snapshot 2 (example_spec [mkBindingSubnet "app" "s1" "10.1.0.0/16" "10.1.0.1" "app-s1" false] false).
(** A snapshot of a binding that was created anew under the same name. *)
Definition recreated_snapshot : NetworkBinding :=
  mkBinding (mkMeta (BindingName "u1" "east") "bind-east" "b9" "8" 1 0 None ∅ ∅ [] []) (example_spec [] false)
    (mkBindingStatus 0 "" "" [] [] []).
Definition copy_of (b : NetworkBinding) (t : NetworkBindingStatus) : NetworkBinding :=
  let c := new_local example_local b in
  mkBinding (mkMeta (om_Name (nb_Meta c)) (om_Namespace (nb_Meta c)) "l1" "3" 1 0 None (om_Labels (nb_Meta c))
               (om_Annotations (nb_Meta c)) [] []) (nb_Spec c) t.
Definition cleaned_copy : NetworkBinding :=
  let b := example_snapshot 3 (example_spec [] true) in
  copy_of b (mkBindingStatus 0 "Deleted" (nb_Revision (nb_Spec b)) [] [] []).

Definition advancing : sites := mkSites second_snapshot (Some (copy_of first_snapshot (mkBindingStatus 0 "" "" [] [] []))).
Definition replacing : sites := mkSites recreated_snapshot (Some cleaned_copy).

Lemma snapshots_only_move_forward_witness :
  let h1 := firstn 2 (sync_history advancing) in
  exists remote local, authorized example_local h1 remote /\ read_local example_local h1 remote local /\
    may_advance example_local local remote /\
    advance (copy_of first_snapshot (mkBindingStatus 0 "" "" [] [] [])) second_snapshot = advance local remote.
Proof.
  intros h1. destruct (sync_history_exec advancing) as [p' HX].
  apply (snapshots_only_move_forward example_local _ _ h1 _ HX). apply sync_called; by vm_compute.
Defined.

Lemma omission_never_deletes_witness :
  let h1 := firstn 2 (sync_history replacing) in
  exists remote local, authorized example_local h1 remote /\ read_local example_local h1 remote local /\
    drained local /\ om_Name (nb_Meta local) = BindingName "u1" "east".
Proof.
  intros h1. destruct (sync_history_exec replacing) as [p' HX].
  destruct (proj1 (omission_never_deletes example_local _ _ h1 HX) Local KBinding "global-vpc" (BindingName "u1" "east")
              (mkPre (Some "l1") (Some "3"))) as (_ & _ & remote & local & H1 & H2 & H3 & _ & _ & H4 & _).
  - apply sync_called; by vm_compute.
  - exists remote, local. exact (conj H1 (conj H2 (conj H3 (eq_sym H4)))).
Defined.

Lemma copies_are_stamped_witness :
  generation_of (advance (copy_of first_snapshot (mkBindingStatus 0 "" "" [] [] [])) second_snapshot) = Some 2.
Proof.
  refine (proj1 (proj2 (proj2 (copies_are_stamped example_local second_snapshot _ _ _)))).
  - cbn. lia.
  - by vm_compute.
Defined.

Lemma steady_snapshots_are_left_alone_witness :
  let local := copy_of first_snapshot (mkBindingStatus 0 "" "" [] [] []) in
  run (sites_answer (mkSites first_snapshot (Some local))) (binding example_local first_snapshot) tt =
    ([Ev (Get Local KBinding "global-vpc" (BindingName "u1" "east")) (Ok local)], Ok tt, tt).
Proof. intros local. apply (steady_snapshots_are_left_alone example_local); by vm_compute. Defined.

(** * The allocation ledger at work *)
From S2P Require Import JsonFacts JsonDecode NetIPFacts Validation SiteConfig AllocationFacts.

(** Kubernetes names at their simplest: any non-empty text is valid. *)
Definition nonempty (s : string) : list string := if (s =? "")%string then ["must not be empty"%string] else [].
#[export] Instance validation : Validation := {|
  IsDNS1123Label := nonempty; IsDNS1123Subdomain := nonempty; IsValidLabelValue _ := []; IsQualifiedName := nonempty;
  ValidateLabelSelector _ := [] |}.

Lemma example_pools : exists transit bfd control, pools_ok example_local transit bfd control.
Proof. apply Validate_ok. by vm_compute. Qed.
Lemma clear_pool raw p : Prefix raw = Ok p -> (16 <=? pbits p) = true -> clear_of_link_local p.
Proof.
  intros H Hb%Z.leb_le. pose proof H as H'. apply Prefix_ok in H' as (v & b & Hp & _).
  apply (Prefix_clear _ _ _ _ H Hp). by destruct Hp as (-> & _).
Qed.

(** [names_ascii], as a check. *)
Lemma ascii_names s :
  ascii_only (ClusterUID example_local) && forallb (fun kv => ascii_only (fst kv)) (map_to_list (ld_Allocations s)) &&
  forallb (fun kv => ascii_only (fst kv) && ascii_only (snd kv)) (map_to_list (ld_BindingUIDs s)) = true ->
  names_ascii example_local s.
Proof.
  intros [[H1 H2]%andb_true_iff H3]%andb_true_iff. rewrite forallb_forall in H2, H3. split; [done|]. split.
  - intros o a Ho%elem_of_map_to_list%list_elem_of_In. apply (H2 _ Ho).
  - intros o u Ho%elem_of_map_to_list%list_elem_of_In. by apply andb_true_iff, (H3 _ Ho).
Qed.

(** A ledger with one and with two reservations. *)
Definition example_reservation (s : ledger_state) (owner uid : string) : ledger_state :=
  with_reservation s owner uid (default noAllocation (choose example_local (ld_Allocations s))).
Definition one_reservation : ledger_state := example_reservation (mkLedger ∅ ∅) "b1" "l1".
Definition two_reservations : ledger_state := example_reservation one_reservation "b2" "l2".
Definition ledger_file (s : ledger_state) : ConfigMap :=
  writeAllocationState
    (mkConfigMap (stored allocationLedgerName "global-vpc" "u9" (<[allocationLabel := "true"]> ∅) [] None) None ∅)
    (file_state example_local s).

Lemma accepted_ledgers_do_not_collide_witness :
  exists p1 p2, Prefix "100.64.0.0/29" = Ok p1 /\ Prefix "100.64.0.8/29" = Ok p2 /\ disjoint p1 p2.
Proof.
  destruct example_pools as (transit & bfd & control & HP).
  destruct (accepted_ledgers_do_not_collide example_local transit bfd control HP (ledger_file two_reservations) two_reservations
              "b1" "b2" (mkAllocation "100.64.0.0/29" "100.64.0.1" "100.65.0.1") (mkAllocation "100.64.0.8/29" "100.64.0.9" "100.65.0.2"))
    as (p1 & p2 & _ & _ & H1 & H2 & HD & _); [by vm_compute..|done|]. exists p1, p2. exact (conj H1 (conj H2 HD)).
Defined.

Lemma reservations_extend_the_ledger_witness :
  readAllocationState (ledger_file two_reservations) example_local = Ok two_reservations.
Proof.
  destruct example_pools as (transit & bfd & control & HP).
  assert (clear_of_link_local transit /\ clear_of_link_local bfd) as [C1 C2].
  { split; [eapply clear_pool; [apply (po_transit _ _ _ _ HP)|]|eapply clear_pool; [apply (po_bfd _ _ _ _ HP)|]].
    - pose proof (po_transit _ _ _ _ HP) as E. vm_compute in E. injection E as <-. reflexivity.
    - pose proof (po_bfd _ _ _ _ HP) as E. vm_compute in E. injection E as <-. reflexivity. }
  pose proof (reservations_extend_the_ledger example_local transit bfd control HP (ledger_file one_reservation) one_reservation
                "b2" "l2" C1 C2) as H.
  assert (names_ascii example_local one_reservation) as HN by (apply ascii_names; by vm_compute).
  assert (readAllocationState (ledger_file one_reservation) example_local = Ok one_reservation) as HR by by vm_compute.
  specialize (H HR HN eq_refl eq_refl ltac:(done) ltac:(done) ltac:(by vm_compute) ltac:(by vm_compute)).
  destruct (choose example_local (ld_Allocations one_reservation)) as [a|] eqn:E; [|by vm_compute in E].
  assert (two_reservations = with_reservation one_reservation "b2" "l2" a) as ->
    by (unfold two_reservations, example_reservation; by rewrite E).
  destruct H as [H _].
  assert (forall s, readAllocationState (writeAllocationState (ledger_file one_reservation) (file_state example_local s)) example_local =
                    readAllocationState (ledger_file s) example_local) as HW.
  { intros s. unfold ledger_file, readAllocationState, writeAllocationState. cbn [cm_Data cm_Meta om_UID om_Labels om_Annotations set_Annotations].
    by rewrite !get_insert_eq. }
  by rewrite <- HW.
Defined.

(** ** Passes of [allocate] *)

(** A local API with one synchronized binding and some config maps; created
    objects get a UID. *)
Record local_api := mkLocalApi { la_binding : NetworkBinding; la_maps : list ConfigMap }.
Definition with_uid (uid : string) (m : ObjectMeta) : ObjectMeta :=
  mkMeta (om_Name m) (om_Namespace m) uid "1" (om_Generation m) 0 None (om_Labels m) (om_Annotations m) (om_Finalizers m) [].
Definition local_get (s : local_api) (k : kind) (name : string) : res (object k) :=
  match k return res (object k) with
  | KConfigMap => by_name (fun x => om_Name (cm_Meta x)) name (la_maps s)
  | _ => absent
  end.
Definition local_list (s : local_api) (k : kind) : res (list (object k)) :=
  match k return res (list (object k)) with KBinding => Ok [la_binding s] | _ => Ok [] end.
Definition created (k : kind) : object k -> object k :=
  match k return object k -> object k with
  | KConfigMap => fun cm => cm_with_Meta (fun m => with_uid ("uid-of-" ++ om_Name m) m) cm
  | _ => fun x => x
  end.
Definition local_answer (s : local_api) (o : op) (u : unit) : ans o * unit :=
  match o return ans o * unit with
  | Get _ k _ name => (local_get s k name, u)
  | ListObjects _ k _ => (local_list s k, u)
  | Create _ k x => (Ok (created k x), u)
  | Update _ k x | UpdateStatus _ k x => (Ok x, u)
  | Delete _ _ _ _ _ => (Ok tt, u)
  | RandRead _ | ReadFile _ _ | Probe _ _ => (absent, u)
  end.
Definition example_binding : NetworkBinding := copy_of first_snapshot (mkBindingStatus 0 "" "" [] [] []).
(** The first allocation of a fresh installation. *)
Definition fresh_installation : local_api := mkLocalApi example_binding [].
Definition allocation_history : history := fst (fst (run (local_answer fresh_installation) (allocate example_local example_binding) tt)).
Definition allocation_result : res (Allocation * NetworkBinding) :=
  snd (fst (run (local_answer fresh_installation) (allocate example_local example_binding) tt)).
Lemma allocation_exec : exec (allocate example_local example_binding) allocation_history (Ret allocation_result).
Proof. exact (run_history (local_answer fresh_installation) (allocate example_local example_binding) tt). Qed.

Lemma addresses_are_recorded_first_witness :
  exists b', recorded example_local allocation_history "b1" "l1" (mkAllocation "100.64.0.0/29" "100.64.0.1" "100.65.0.1") /\
    allocation_result = Ok (mkAllocation "100.64.0.0/29" "100.64.0.1" "100.65.0.1", b').
Proof.
  destruct (proj2 (addresses_are_recorded_first example_local example_binding _ _ allocation_exec)
    (mkAllocation "100.64.0.0/29" "100.64.0.1" "100.65.0.1")
    (match allocation_result with Ok (_, b') => b' | Err _ => example_binding end)) as (_ & H & _).
  - refine (f_equal Ret _). by vm_compute.
  - eexists. split; [exact H|]. by vm_compute.
Defined.

Lemma retained_state_is_never_replaced_witness :
  no_map example_local (firstn 3 allocation_history) allocationLedgerName.
Proof.
  destruct (retained_state_is_never_replaced example_local example_binding _ _ (firstn 3 allocation_history) allocation_exec) as (_ & H & _).
  destruct (H (new_ledger example_local)) as (_ & _ & [[_ HN]|(ledger & s & E & _)]); [|exact HN|].
  - replace (Create Local KConfigMap (new_ledger example_local)) with (nth_op allocation_history 3) by by vm_compute.
    apply called_nth. by vm_compute.
  - exfalso. apply (f_equal (fun c => om_Name (cm_Meta c))) in E. by vm_compute in E.
Defined.
