(* ===== verification/LocalReconciler.v ===== *)
(** * [internal/localcontroller/reconciler.go]: realizing an accepted snapshot

    One pass of the local controller for a binding. The handler mutates its copy of
    the binding in memory before writing the status, and later writes of the same
    pass send that copy: the phases are state transformers over the binding. *)
From S2P Require Import Prelude GoStd Json JsonDecode NetIP Validation SiteConfig DestinationRoute Api LocalConfig Prog Kube PlatformPlan Allocation.
Open Scope Z_scope.

Definition NativeOwnerLabel : string := "platform.globalvpc.io/binding-uid".
Definition kubeovn : string := "kubeovn.io/v1".
Notation native_kind k := (KNative kubeovn k).

Record GatewayResult := mkGatewayResult {
  gr_Gateways : list GatewayEndpoint; gr_Resources : list ResourceRecord; gr_Ready : bool; gr_Reason : string }.
Definition noGatewayResult : GatewayResult := mkGatewayResult [] [] false "".
(** The gateway backend the handler is given. *)
Record Gateway := mkGateway {
  Ensure : NetworkBinding -> Allocation -> kprog (res GatewayResult);
  GatewayDelete : NetworkBinding -> kprog (res bool) }.

Record Reconciler := mkReconciler { lr_Config : LocalConfig.Config; lr_Gateway : option Gateway; lr_Interval : Z }.

(** ** Phases over the binding *)

Definition lprog (A : Type) : Type := NetworkBinding -> kprog (A * NetworkBinding).
Definition lret {A} (a : A) : lprog A := fun b => Ret (a, b).
Definition lbind {A B} (p : lprog A) (f : A -> lprog B) : lprog B := fun b => bind (p b) (fun ab => f (fst ab) (snd ab)).
Definition lift {A} (p : kprog A) : lprog A := fun b => bind p (fun a => Ret (a, b)).
Definition current {A} (f : NetworkBinding -> lprog A) : lprog A := fun b => f b b.
Definition put (b' : NetworkBinding) : lprog unit := fun _ => Ret (tt, b').
(** Failing phases, and phases that may return from the handler. *)
Definition lbind_ok {A B} (p : lprog (res A)) (f : A -> lprog (res B)) : lprog (res B) :=
  lbind p (fun r => match r with Ok a => f a | Err e => lret (Err e) end).
Definition lfbind {A B} (p : lprog (flow A)) (f : A -> lprog (flow B)) : lprog (flow B) :=
  lbind p (fun x => match x with Return r => lret (Return r) | Continue a => f a end).

Declare Scope lflow_scope.
Delimit Scope lflow_scope with lflow.
Open Scope lflow_scope.
Notation "x <- p ';;l' k" := (lbind p (fun x => k)) (at level 60, p at next level, right associativity) : lflow_scope.
Notation "x <-! p ';;l' k" := (lbind_ok p (fun x => k)) (at level 60, p at next level, right associativity) : lflow_scope.
Notation "x <~ p ';;l' k" := (lfbind p (fun x => k)) (at level 60, p at next level, right associativity) : lflow_scope.

Fixpoint lfold {A S} (f : S -> A -> lprog (flow S)) (s : S) (l : list A) : lprog (flow S) :=
  match l with
  | [] => lret (Continue s)
  | x :: l => s' <~ f s x ;;l lfold f s' l
  end.

(** [r.Status().Update(ctx, b)]: the stored object replaces the copy on success. *)
Definition save_status : lprog (res unit) := fun b =>
  bind (kstatus Local KBinding b) (fun r =>
    Ret (match r with Ok b' => (Ok tt, b') | Err e => (Err e, b) end)).

Definition transitName (b : NetworkBinding) : string :=
  ("pt-" ++ Short (oi_UID (nb_VPCRef (nb_Spec b)) ++ "/" ++ nb_LocationRef (nb_Spec b)))%string.

(** [native] and [nativeSpec]; a [map[string]any] is an object with sorted keys. *)
Definition nativeSpec (kind name owner : string) (spec : list (string * json)) : Native :=
  mkNative kubeovn kind (newMeta name "" (<[NativeOwnerLabel := owner]> ∅) ∅) (JObj [("spec", JObj spec)]).

Definition is_record (kind name : string) (rec : ResourceRecord) : bool :=
  (rr_APIVersion rec =? kubeovn)%string && (rr_Kind rec =? kind)%string && (rr_Name rec =? name)%string.
Definition recorded (b : NetworkBinding) (kind name : string) : bool :=
  existsb (is_record kind name) (bt_Resources (nb_Status b)).
Definition native_record (kind name uid : string) : ResourceRecord := mkRecord kubeovn kind "" name uid.
Definition add_resource (rec : ResourceRecord) (b : NetworkBinding) : NetworkBinding :=
  nb_with_Status (bt_with_Resources (bt_Resources (nb_Status b) ++ [rec]) (nb_Status b)) b.

Definition guardNative (b : NetworkBinding) (o : Native) : res unit :=
  reject negb (get (om_Labels (un_Meta o)) NativeOwnerLabel =? om_UID (nb_Meta b))%string
    with Errorf ("native " ++ un_Kind o ++ " " ++ om_Name (un_Meta o) ++ " has another owner") ;;
  reject existsb (fun rec => is_record (un_Kind o) (om_Name (un_Meta o)) rec && negb (rr_UID rec =? om_UID (un_Meta o))%string)
           (bt_Resources (nb_Status b))
    with Errorf ("native " ++ un_Kind o ++ " " ++ om_Name (un_Meta o) ++ " UID changed") ;;
  Ok tt.

(** A member of a [map[string]any]. *)
Fixpoint member (k : string) (l : list (string * json)) : option json :=
  match l with [] => None | (k', v) :: l => if (k =? k')%string then Some v else member k l end.
Definition jmember (k : string) (j : json) : option json := match j with JObj l => member k l | _ => None end.
Fixpoint json_eqb (a b : json) : bool :=
  match a, b with
  | JNull, JNull => true
  | JBool x, JBool y => Bool.eqb x y
  | JNum x, JNum y => (x =? y)%string
  | JStr x, JStr y => (x =? y)%string
  | JArr x, JArr y =>
      (fix go x y := match x, y with
                     | [], [] => true
                     | a :: x, b :: y => json_eqb a b && go x y
                     | _, _ => false
                     end) x y
  | JObj x, JObj y =>
      (fix go x y := match x, y with
                     | [], [] => true
                     | (k, a) :: x, (k', b) :: y => (k =? k')%string && json_eqb a b && go x y
                     | _, _ => false
                     end) x y
  | _, _ => false
  end.
Definition jis (j : option json) (v : json) : bool := match j with Some j => json_eqb j v | None => false end.

Section reconciler.
Context {VAL : Validation} {MACH : Machinery} {UNS : Unstructured}.
Variable r : Reconciler.
Let cfg := lr_Config r.

Definition l_again : Result := again (lr_Interval r).
Definition leave_again {A} : lprog (flow A) := lret (Return (Ok l_again)).

(** [r.state(...)] ends the pass. *)
Definition state {A} (phase reason message : string) (ready applied : bool) : lprog (flow A) := fun b =>
  let old := nb_Status b in
  let gen := om_Generation (nb_Meta b) in
  let conditions := SetStatusCondition (bt_Conditions old)
                      (mkCondition "Ready" (if ready then "True" else "False") reason message gen 0) in
  let new := mkBindingStatus gen phase (if applied then nb_Revision (nb_Spec b) else bt_AppliedRevision old)
               (bt_Resources old) (bt_Gateways old) conditions in
  let b' := nb_with_Status new b in
  if bool_decide (old = new) then Ret (Return (Ok l_again), b')
  else bind (save_status b') (fun x =>
         Ret (Return (match fst x with Ok _ => Ok l_again | Err e => Err e end), snd x)).
Definition blocked {A} (e : error) : lprog (flow A) :=
  state "Blocked" "LocalReconcileBlocked" (error_text e) false false.

(** An error blocks the binding; a change ends the pass. *)
Definition or_blocked {A} (p : lprog (res A)) : lprog (flow A) :=
  x <- p ;;l match x with Ok a => lret (Continue a) | Err e => blocked e end.
Definition unless_changed (p : lprog (res bool)) : lprog (flow unit) :=
  changed <~ or_blocked p ;;l if changed : bool then leave_again else lret (Continue tt).
(** [return ctrl.Result{}, err] *)
Definition or_fail {A} (p : lprog (res A)) : lprog (flow A) :=
  x <- p ;;l match x with Ok a => lret (Continue a) | Err e => lret (Return (Err e)) end.

(** ** Native objects *)

Definition get_native (kind name : string) : kprog (res Native) := kget Local (native_kind kind) "" name.
Definition find_native (kind name : string) : kprog (res (option Native)) := kfind Local (native_kind kind) "" name.

(** The loop over [fields] of [ensure]. *)
Fixpoint merge_fields (content : json) (changed : bool) (spec : list (string * json)) : res (json * bool) :=
  match spec with
  | [] => Ok (content, changed)
  | (k, v) :: rest =>
      if jis (NestedFieldCopy content ["spec"; k]) v then merge_fields content changed rest
      else content' <-? SetNestedField content v ["spec"; k] ;; merge_fields content' true rest
  end.
Definition spec_fields (o : Native) : list (string * json) :=
  match NestedMap (un_Object o) ["spec"] with Some (JObj l) => l | _ => [] end.

(** Records a native object in the status, once. *)
Definition record_native (kind name uid : string) : lprog (res bool) := current (fun b =>
  if recorded b kind name then lret (Ok false)
  else _ <- put (add_resource (native_record kind name uid) b) ;;l
       _ <-! save_status ;;l lret (Ok true)).

Definition ensure (want : Native) : lprog (res bool) := current (fun b =>
  let kind := un_Kind want in
  let name := om_Name (un_Meta want) in
  found <-! lift (find_native kind name) ;;l
  match found with
  | None =>
      if recorded b kind name
      then lret (Err (Errorf ("recorded native " ++ kind ++ " " ++ name ++ " is missing; fenced recovery is required")))
      else created <-! lift (kcreate Local (native_kind kind) want) ;;l
           record_native kind (om_Name (un_Meta created)) (om_UID (un_Meta created))
  | Some o =>
      _ <-! lret (guardNative b o) ;;l
      merged <-! lret (merge_fields (un_Object o) false (spec_fields want)) ;;l
      if snd merged : bool
      then _ <-! lift (kupdate Local (native_kind kind) (mkNative (un_APIVersion o) (un_Kind o) (un_Meta o) (fst merged))) ;;l
           lret (Ok true)
      else record_native kind (om_Name (un_Meta o)) (om_UID (un_Meta o))
  end).

Definition ready_condition (c : json) : bool := jis (jmember "type" c) (JStr "Ready") && jis (jmember "status" c) (JStr "True").
Definition nativeReady (kind name : string) : kprog (res bool) :=
  o <-! get_native kind name ;;
  Ret (Ok (existsb ready_condition (default [] (NestedSlice (un_Object o) ["status"; "conditions"])))).

Definition requireCapability : kprog (res unit) :=
  x <- kget Local (KNative "apiextensions.k8s.io/v1" "CustomResourceDefinition") "" "vpcs.kubeovn.io" ;;
  match x with
  | Err _ => Ret (Err (Errorf "cannot verify native Vpc destination-route API"))
  | Ok crd =>
      let served v := jis (jmember "served" v) (JBool true) &&
        match NestedMap v ["schema"; "openAPIV3Schema"; "properties"; "spec"; "properties"; "destinationRoutes"] with
        | Some field => jis (jmember "type" field) (JStr "array")
        | None => false
        end in
      stop negb (existsb served (default [] (NestedSlice (un_Object (crd : Native)) ["spec"; "versions"])))
        with Errorf "install the source-pinned Kube-OVN destination-routes.v1 extension; legacy OVN command patching is not enabled" ;;
      Ret (Ok tt)
  end.

(** ** Destination routes *)

Definition route_value (route : Intent) : json :=
  JObj [("bfd", JObj [("minRX", JInt (MinRX (in_BFD route))); ("minTX", JInt (MinTX (in_BFD route)));
                      ("multiplier", JInt (Multiplier (in_BFD route)))]);
        ("cidr", JStr (CIDR route)); ("nextHops", JArr (map JStr (NextHops route)));
        ("selectionFields", JArr (map JStr (SelectionFields route)))].

(** Whether the native acknowledgement is for this plan and generation. *)
Definition routes_ready (o : Native) (hash : string) : bool :=
  let status := default JNull (NestedMap (un_Object o) ["status"; "destinationRoutes"]) in
  jis (jmember "capability" status) (JStr Capability) && jis (jmember "ready" status) (JBool true) &&
  jis (jmember "appliedHash" status) (JStr hash) &&
  (default 0 (NestedInt64 (un_Object o) ["status"; "destinationRoutes"; "observedGeneration"]) =? om_Generation (un_Meta o)).

(** [(changed, ready)] *)
Definition routes (b : NetworkBinding) (intents : list Intent) : kprog (res (bool * bool)) :=
  plan <-! Ret (Compile intents) ;;
  let value := map route_value (Routes plan) in
  o <-! get_native "Vpc" (nb_NativeVpcName (nb_Spec b)) ;;
  _ <-! Ret (guardNative b o) ;;
  let old := default [] (NestedSlice (un_Object o) ["spec"; "destinationRoutes"]) in
  if (negb (List.length old =? 0)%nat || negb (List.length value =? 0)%nat) && negb (json_eqb (JArr old) (JArr value))
  then content <-! Ret (SetNestedSlice (un_Object o) value ["spec"; "destinationRoutes"]) ;;
       _ <-! kupdate Local (native_kind "Vpc") (mkNative (un_APIVersion o) (un_Kind o) (un_Meta o) content) ;;
       Ret (Ok (true, false))
  else Ret (Ok (false, routes_ready o (Hash plan))).

(** ** Gateway reports *)

Definition record_key (rec : ResourceRecord) : string := (rr_APIVersion rec ++ rr_Kind rec ++ rr_Name rec)%string.
Definition gatewayReport (report : GatewayResult) : lprog (res bool) := current (fun b =>
  let own := List.filter (fun rec => (rr_APIVersion rec =? kubeovn)%string) (bt_Resources (nb_Status b)) in
  let resources := sort_by_key record_key (own ++ gr_Resources report) in
  if bool_decide (resources = bt_Resources (nb_Status b)) && bool_decide (gr_Gateways report = bt_Gateways (nb_Status b))
  then lret (Ok false)
  else _ <- put (nb_with_Status (bt_with_Gateways (gr_Gateways report) (bt_with_Resources resources (nb_Status b))) b) ;;l
       _ <-! save_status ;;l lret (Ok true)).

(** ** Endpoints and deletion *)

Fixpoint ip_in_use (name : string) (ips : list Native) : res unit :=
  match ips with
  | [] => Ok tt
  | ip :: rest =>
      reject (default "" (NestedString (un_Object ip) ["spec"; "subnet"]) =? name)%string
        with Errorf "subnet still has a native IP allocation" ;;
      reject existsb (String.eqb name) (default [] (NestedStringSlice (un_Object ip) ["spec"; "attachSubnets"]))
        with Errorf "subnet still has an attached native IP allocation" ;;
      ip_in_use name rest
  end.
Definition references (name : string) (p : Pod) : bool :=
  existsb (fun kv => HasSuffix (fst kv) "/logical_switch" && (snd kv =? name)%string) (map_to_list (om_Annotations (pd_Meta p))).

Definition endpointsEmpty (name : string) : kprog (res unit) :=
  pods <-! klist Local KPod Everything ;;
  stop existsb (references name) pods with Errorf "subnet still has a referencing Pod" ;;
  x <- klist Local (native_kind "IP") Everything ;;
  match x with
  | Err _ => Ret (Err (Errorf "cannot verify native subnet IP allocation cleanup"))
  | Ok ips => Ret (ip_in_use name ips)
  end.

(** [true] when the object is gone and no receipt of it is left. *)
Definition deleteNative (kind name : string) (checkEndpoints : bool) : lprog (res bool) := current (fun b =>
  found <-! lift (find_native kind name) ;;l
  match found with
  | None =>
      if recorded b kind name then
        let kept := List.filter (fun rec => negb (is_record kind name rec)) (bt_Resources (nb_Status b)) in
        _ <- put (nb_with_Status (bt_with_Resources kept (nb_Status b)) b) ;;l
        _ <-! save_status ;;l lret (Ok false)
      else lret (Ok true)
  | Some o =>
      _ <-! lret (guardNative b o) ;;l
      _ <-! lift (if checkEndpoints then endpointsEmpty name else Ret (Ok tt)) ;;l
      if bool_decide (om_DeletionTimestamp (un_Meta o) <> None) then lret (Ok false)
      else _ <-! lift (delete_object Local (native_kind kind) o) ;;l lret (Ok false)
  end).

(** ** Recovering lost receipts *)

(** The first loop: every candidate name with the object it has, validated. *)
Fixpoint inventory (b : NetworkBinding) (objects : gmap string Native) (names : list string)
    : kprog (res (gmap string Native)) :=
  match names with
  | [] => Ret (Ok objects)
  | name :: rest =>
      found <-! match objects !! name with Some o => Ret (Ok (Some o)) | None => find_native "Subnet" name end ;;
      match found with
      | None => inventory b objects rest
      | Some o =>
          stop (om_UID (un_Meta o) =? "")%string with Errorf ("native Subnet " ++ name ++ " has no identity") ;;
          _ <-! Ret (guardNative b o) ;;
          inventory b (<[name := o]> objects) rest
      end
  end.
(** The second loop: records for the objects that have none. *)
Definition missing_records (b : NetworkBinding) (objects : gmap string Native) (names : list string) : list ResourceRecord :=
  flat_map (fun name =>
    match objects !! name with
    | Some o => if recorded b "Subnet" name then [] else [native_record "Subnet" name (om_UID (un_Meta o))]
    | None => []
    end) names.
Definition candidate_names (b : NetworkBinding) (objects : list Native) : list string :=
  let names := [transitName b] ++ map (fun o => om_Name (un_Meta o)) objects ++ map bs_NativeSubnetName (nb_Subnets (nb_Spec b)) ++
               map rr_Name (List.filter (fun rec => (rr_APIVersion rec =? kubeovn)%string && (rr_Kind rec =? "Subnet")%string)
                              (bt_Resources (nb_Status b))) in
  sort_strings (elements (list_to_set (List.filter (fun n => negb (n =? "")%string) names) : gset string)).

(** [(changed, err)]: a change is returned even when its write failed. *)
Definition recoverNativeSubnets : lprog (bool * option error) := current (fun b =>
  x <- lift (klist Local (native_kind "Subnet") (MatchingLabels (<[NativeOwnerLabel := om_UID (nb_Meta b)]> ∅))) ;;l
  match x with
  | Err e => lret (false, Some (Wrapf "cannot recover owned native subnet receipts" e))
  | Ok items =>
      let objects := list_to_map (rev (map (fun o : Native => (om_Name (un_Meta o), o)) items)) in
      let names := candidate_names b items in
      y <- lift (inventory b objects names) ;;l
      match y with
      | Err e => lret (false, Some e)
      | Ok objects =>
          match missing_records b objects names with
          | [] => lret (false, None)
          | recs =>
              _ <- put (nb_with_Status (bt_with_Resources (bt_Resources (nb_Status b) ++ recs) (nb_Status b)) b) ;;l
              z <- save_status ;;l
              lret (true, match z with Ok _ => None | Err e => Some e end)
          end
      end
  end).
Definition recover : lprog (flow unit) :=
  x <- recoverNativeSubnets ;;l
  match x with
  | (true, Some e) => lret (Return (Err e))
  | (false, Some e) => blocked e
  | (true, None) => leave_again
  | (false, None) => lret (Continue tt)
  end.

(** ** Withdrawal of gateways and routes *)

(** Native routes, if there ever were any, are withdrawn and acknowledged. *)
Definition withdraw_routes (b : NetworkBinding) : kprog (res bool) :=
  found <-! find_native "Vpc" (nb_NativeVpcName (nb_Spec b)) ;;
  match found with
  | None => Ret (Ok true)
  | Some o =>
      _ <-! Ret (guardNative b o) ;;
      let raw := default [] (NestedSlice (un_Object o) ["spec"; "destinationRoutes"]) in
      if negb (List.length raw =? 0)%nat || bool_decide (NestedMap (un_Object o) ["status"; "destinationRoutes"] <> None) ||
         negb (List.length (bt_Gateways (nb_Status b)) =? 0)%nat
      then x <-! routes b [] ;; Ret (Ok (negb (fst x) && snd x))
      else Ret (Ok true)
  end.

(** [disconnect]: [true] when everything cross-site is gone. *)
Definition disconnect : lprog (res bool) := current (fun b =>
  withdrawn <-! lift (withdraw_routes b) ;;l
  if negb withdrawn then lret (Ok false)
  else
    gone <-! match lr_Gateway r with
             | Some g =>
                 gone <-! lift (GatewayDelete g b) ;;l
                 if negb gone then lret (Ok false)
                 else changed <-! gatewayReport noGatewayResult ;;l lret (Ok (negb changed))
             | None =>
                 if negb (List.length (bt_Gateways (nb_Status b)) =? 0)%nat
                 then lret (Err (Errorf "gateway cleanup backend is unavailable"))
                 else lret (Ok true)
             end ;;l
    if negb gone then lret (Ok false)
    else current (fun b =>
      if existsb (fun rec => (rr_Kind rec =? "Subnet")%string && (rr_Name rec =? transitName b)%string) (bt_Resources (nb_Status b))
      then deleteNative "Subnet" (transitName b) true
      else lret (Ok true))).

(** ** A tombstone *)

Definition check_empty (phase : string) (_ : unit) (name : string) : lprog (flow unit) :=
  x <- lift (endpointsEmpty name) ;;l
  match x with
  | Ok _ => lret (Continue tt)
  | Err e => state phase "SubnetInUse" (error_text e) false false
  end.
Definition delete_subnet (_ : unit) (name : string) : lprog (flow unit) :=
  x <- deleteNative "Subnet" name true ;;l
  match x with
  | Err e => state "Deleting" "SubnetInUse" (error_text e) false false
  | Ok gone => if negb gone then leave_again else lret (Continue tt)
  end.
Definition native_subnets (b : NetworkBinding) : list string :=
  map rr_Name (List.filter (fun rec => (rr_APIVersion rec =? kubeovn)%string && (rr_Kind rec =? "Subnet")%string)
                 (bt_Resources (nb_Status b))).

Definition remove_gateways : lprog (flow unit) := current (fun b =>
  match lr_Gateway r with
  | Some g =>
      gone <~ or_blocked (lift (GatewayDelete g b)) ;;l
      if negb gone
      then state "Deleting" "GatewayCleanupPending" "Waiting for owned gateway resources to terminate" false false
      else lret (Continue tt)
  | None =>
      if negb (List.length (bt_Gateways (nb_Status b)) =? 0)%nat
      then blocked (Errorf "gateway cleanup backend unavailable")
      else lret (Continue tt)
  end).

Definition remove : lprog (flow unit) := current (fun b =>
  _ <~ lfold (check_empty "Deleting") tt (List.filter (fun n => negb (n =? transitName b)%string) (native_subnets b)) ;;l
  withdrawn <~ or_blocked (lift (withdraw_routes b)) ;;l
  if negb withdrawn
  then state "Deleting" "RouteWithdrawalPending" "Waiting for native route and BFD withdrawal acknowledgement" false false
  else
    _ <~ remove_gateways ;;l
    changed <~ or_fail (gatewayReport noGatewayResult) ;;l
    if changed : bool then leave_again
    else current (fun b =>
      _ <~ lfold delete_subnet tt (native_subnets b) ;;l
      gone <~ or_blocked (deleteNative "Vpc" (nb_NativeVpcName (nb_Spec b)) false) ;;l
      if negb gone then leave_again
      else state "Deleted" "CleanupComplete" "Owned native and gateway resources are absent; allocation receipts retained" false true)).

(** ** A live snapshot *)

Definition conflicts (transit : NetIP.Prefix) (source : Addr) (cidr : string) : bool :=
  match ParsePrefix cidr with
  | None => true
  | Some p => Overlaps p transit || Contains p source
  end.

Definition vpc_object (b : NetworkBinding) (a : Allocation) (cross : bool) : Native :=
  nativeSpec "Vpc" (nb_NativeVpcName (nb_Spec b)) (om_UID (nb_Meta b))
    (if cross
     then [("bfdPort", JObj [("enabled", JBool true); ("ip", JStr (BFDSourceIP a));
                             ("nodeSelector", JObj [("matchLabels", map_json JStr (GatewayNodeSelector cfg))])])]
     else [("bfdPort", JObj [("enabled", JBool false)])]).
Definition workload_object (b : NetworkBinding) (s : BindingSubnet) : Native :=
  nativeSpec "Subnet" (bs_NativeSubnetName s) (om_UID (nb_Meta b))
    [("cidrBlock", JStr (bs_CIDR s)); ("excludeIps", JArr [JStr (bs_Gateway s)]); ("gateway", JStr (bs_Gateway s));
     ("natOutgoing", JBool false); ("protocol", JStr "IPv4"); ("provider", JStr "ovn"); ("vpc", JStr (nb_NativeVpcName (nb_Spec b)))].
Definition transit_object (b : NetworkBinding) (a : Allocation) : Native :=
  nativeSpec "Subnet" (transitName b) (om_UID (nb_Meta b))
    [("cidrBlock", JStr (TransitCIDR a)); ("disableGatewayCheck", JBool true); ("excludeIps", JArr [JStr (RouterIP a)]);
     ("gateway", JStr (RouterIP a)); ("natOutgoing", JBool false); ("protocol", JStr "IPv4"); ("provider", JStr "ovn");
     ("vpc", JStr (nb_NativeVpcName (nb_Spec b)))].

(** [ensure] then wait for Kube-OVN to report the subnet ready. *)
Definition ensure_subnet (o : Native) (reason message : string) : lprog (flow unit) :=
  _ <~ unless_changed (ensure o) ;;l
  ready <~ or_blocked (lift (nativeReady "Subnet" (om_Name (un_Meta o)))) ;;l
  if ready : bool then lret (Continue tt) else state "Pending" reason message false false.
Definition ensure_workload (_ : unit) (s : BindingSubnet) : lprog (flow unit) :=
  if bs_Deleting s then lret (Continue tt)
  else current (fun b => ensure_subnet (workload_object b s) "SubnetPending" "Waiting for Kube-OVN to configure a workload subnet").

Definition route_intents (b : NetworkBinding) (hops : list string) : list Intent :=
  map (fun remote => mkIntent (rs_CIDR remote) hops (mkBFD 300 300 3) ["ip_src"; "ip_dst"; "ip_proto"; "tp_src"; "tp_dst"])
    (nb_RemoteSubnets (nb_Spec b)).

(** The cross-site half: transit subnet, gateways, native routes. *)
Definition connect (a : Allocation) : lprog (flow unit) := current (fun b =>
  _ <~ ensure_subnet (transit_object b a) "TransitPending" "Waiting for Kube-OVN to configure the gateway transit subnet" ;;l
  capable <- lift requireCapability ;;l
  match capable with
  | Err e => state "Pending" "NativeCapabilityRequired" (error_text e) false false
  | Ok _ =>
      match lr_Gateway r with
      | None => blocked (Errorf "managed gateway backend is not configured")
      | Some g => current (fun b =>
          report <~ or_blocked (lift (Ensure g b a)) ;;l
          changed <~ or_fail (gatewayReport report) ;;l
          if changed : bool then leave_again
          else if (List.length (gr_Gateways report) <? 2)%nat
          then state "Pending" "GatewayRegistrationPending" (gr_Reason report) false false
          else
            let hops := List.filter (fun ip => negb (ip =? "")%string) (map ge_TransitIP (gr_Gateways report)) in
            if (List.length hops <? 2)%nat
            then state "Pending" "GatewayRegistrationPending" "Waiting for two distinct local gateway addresses" false false
            else
              x <~ or_blocked (current (fun b => lift (routes b (route_intents b hops)))) ;;l
              if fst x : bool then leave_again
              else if negb (snd x)
              then state "Pending" "NativeRoutesPending" "Waiting for native destination-route transaction acknowledgement" false false
              else if negb (gr_Ready report) then state "Pending" "GatewayPending" (gr_Reason report) false false
              else lret (Continue tt))
      end
  end).

Definition retire_subnet (_ : unit) (s : BindingSubnet) : lprog (flow unit) :=
  if negb (bs_Deleting s) then lret (Continue tt)
  else
    x <- deleteNative "Subnet" (bs_NativeSubnetName s) true ;;l
    match x with
    | Err e => state "Pending" "SubnetInUse" (error_text e) false false
    | Ok gone => if negb gone then state "Pending" "SubnetDeleting" "Waiting for native subnet cleanup" false false
                 else lret (Continue tt)
    end.

Definition is_cross (b : NetworkBinding) : bool :=
  existsb (fun s => negb (bs_Deleting s)) (nb_Subnets (nb_Spec b)) && negb (List.length (nb_RemoteSubnets (nb_Spec b)) =? 0)%nat.

Definition realize : lprog (flow unit) := current (fun b =>
  _ <~ lfold (fun _ s => if bs_Deleting s then check_empty "Pending" tt (bs_NativeSubnetName s) else lret (Continue tt)) tt
         (nb_Subnets (nb_Spec b)) ;;l
  let cross := is_cross b in
  disconnected <~ (if cross then lret (Continue true) else or_blocked disconnect) ;;l
  if negb disconnected
  then state "Pending" "GatewayWithdrawalPending" "Waiting for gateway and native route withdrawal" false false
  else
    a <~ or_blocked (fun b => bind (allocate cfg b) (fun x => Ret (match x with Ok (a, b') => (Ok a, b') | Err e => (Err e, b) end))) ;;l
    let transit := ParsePrefix_ (TransitCIDR a) in
    let source := ParseAddr_ (BFDSourceIP a) in
    if existsb (conflicts transit source) (map bs_CIDR (nb_Subnets (nb_Spec b)))
    then blocked (Errorf "workload and allocated infrastructure ranges overlap")
    else if existsb (conflicts transit source) (map rs_CIDR (nb_RemoteSubnets (nb_Spec b)))
    then blocked (Errorf "remote and allocated infrastructure ranges overlap")
    else current (fun b =>
      _ <~ unless_changed (ensure (vpc_object b a cross)) ;;l
      _ <~ lfold ensure_workload tt (nb_Subnets (nb_Spec b)) ;;l
      _ <~ (if cross then connect a else lret (Continue tt)) ;;l
      _ <~ lfold retire_subnet tt (nb_Subnets (nb_Spec b)) ;;l
      state "Ready" "LocalNetworkReady" "Native resources and required gateway configuration are ready" true true)).

(** ** The handler *)

Definition reconcile_binding : lprog (flow unit) := current (fun b =>
  if (get (om_Annotations (nb_Meta b)) SourceUIDAnnotation =? "")%string ||
     negb (nb_Revision (nb_Spec b) =? Revision (nb_Spec b))%string
  then blocked (Errorf "local snapshot is not an accepted authority revision")
  else
    ns <~ or_fail (lift (kget Local KNamespace "" "kube-system")) ;;l
    if negb (om_UID (nsp_Meta (ns : Namespace)) =? ClusterUID cfg)%string
    then blocked (Errorf "local Infra identity changed")
    else
      _ <~ recover ;;l
      current (fun b => if nb_Deleting (nb_Spec b) then remove else realize)).

Definition Reconcile (ns name : string) : kprog (res Result) :=
  found <-! kfind Local KBinding ns name ;;
  match found with
  | None => Ret (Ok (mkResult 0))
  | Some b =>
      if negb (om_Namespace (nb_Meta b) =? lc_Namespace cfg)%string ||
         negb (nb_LocationRef (nb_Spec b) =? LocationRef cfg)%string
      then Ret (Ok (mkResult 0))
      else x <- reconcile_binding b ;;
           Ret (match fst x with Return res => res | Continue _ => Ok l_again end)
  end.
End reconciler.

(** * Reasoning about phases over the binding

    The local controller threads its copy of the binding through the phases of a
    pass. [lwp] is [wp] for such phases, with the copy in the postcondition;
    [GatewayContract] is what the controller relies on from a gateway backend. *)

Section lwp.
Context (R : history -> op -> Prop).

Definition lwp {A} (p : lprog A) (b : NetworkBinding) (h : history) (Q : history -> A -> NetworkBinding -> Prop) : Prop :=
  wp any_answer R (p b) h (fun h' ab => Q h' (fst ab) (snd ab)).

Lemma lwp_mono {A} (p : lprog A) b h (Q Q' : history -> A -> NetworkBinding -> Prop) :
  (forall h' a b', Q h' a b' -> Q' h' a b') -> lwp p b h Q -> lwp p b h Q'.
Proof. intros HQ. apply wp_mono. auto. Qed.
Lemma lwp_extends {A} (p : lprog A) b h Q : lwp p b h Q -> lwp p b h (fun h' a b' => extends h h' /\ Q h' a b').
Proof. intros H. exact (wp_extends _ _ _ _ _ H). Qed.
Lemma lwp_lret {A} (a : A) b h (Q : history -> A -> NetworkBinding -> Prop) : Q h a b -> lwp (lret a) b h Q.
Proof. done. Qed.
Lemma lwp_lbind {A B} (p : lprog A) (f : A -> lprog B) b h Q :
  lwp p b h (fun h' a b' => lwp (f a) b' h' Q) -> lwp (lbind p f) b h Q.
Proof. intros H. apply wp_bind. exact H. Qed.
Lemma lwp_lbind_ok {A B} (p : lprog (res A)) (f : A -> lprog (res B)) b h Q :
  lwp p b h (fun h' x b' => match x with Ok a => lwp (f a) b' h' Q | Err e => Q h' (Err e) b' end) -> lwp (lbind_ok p f) b h Q.
Proof. intros H. apply lwp_lbind. eapply lwp_mono; [|exact H]. by intros h' [a|e] b'. Qed.
Lemma lwp_lfbind {A B} (p : lprog (flow A)) (f : A -> lprog (flow B)) b h Q :
  lwp p b h (fun h' x b' => match x with Continue a => lwp (f a) b' h' Q | Return x => Q h' (Return x) b' end) -> lwp (lfbind p f) b h Q.
Proof. intros H. apply lwp_lbind. eapply lwp_mono; [|exact H]. by intros h' [a|e] b'. Qed.
Lemma lwp_lift {A} (p : kprog A) b h (Q : history -> A -> NetworkBinding -> Prop) :
  wp any_answer R p h (fun h' a => Q h' a b) -> lwp (lift p) b h Q.
Proof. intros H. apply wp_bind. eapply wp_mono; [|exact H]. done. Qed.
Lemma lwp_current {A} (f : NetworkBinding -> lprog A) b h Q : lwp (f b) b h Q -> lwp (current f) b h Q.
Proof. done. Qed.
Lemma lwp_put b' b h (Q : history -> unit -> NetworkBinding -> Prop) : Q h tt b' -> lwp (put b') b h Q.
Proof. done. Qed.

(** A loop whose body leaves the copy alone when it goes on. *)
Lemma lwp_lfold {A} (f : unit -> A -> lprog (flow unit)) (I : history -> A -> Prop) (QR : history -> res Result -> NetworkBinding -> Prop) l b h0 :
  (forall h h' x, extends h h' -> I h x -> I h' x) ->
  (forall h x, extends h0 h -> In x l ->
     lwp (f tt x) b h (fun h' r b' => match r with Return y => QR h' y b' | Continue _ => b' = b /\ I h' x end)) ->
  lwp (lfold f tt l) b h0 (fun h' r b' => match r with Return y => QR h' y b' | Continue _ => b' = b /\ forall x, In x l -> I h' x end).
Proof.
  intros HI HF. enough (forall todo h, extends h0 h -> (forall x, In x todo -> In x l) ->
    lwp (lfold f tt todo) b h (fun h' r b' => match r with Return y => QR h' y b' | Continue _ => b' = b /\ forall x, In x todo -> I h' x end)) as G
    by (apply G; [apply extends_refl|auto]).
  induction todo as [|x todo IH]; intros h HE Hl; [by apply lwp_lret|]. cbn [lfold]. apply lwp_lfbind.
  eapply lwp_mono; [|apply lwp_extends, HF; [done|apply Hl; by left]]. intros h1 [y|[]] b1 [E1 H]; [done|]. destruct H as [-> Hx].
  eapply lwp_mono; [|apply lwp_extends, IH; [by eapply extends_trans|intros; apply Hl; by right]].
  intros h2 [y|[]] b2 [E2 H]; [done|]. destruct H as [-> Hr].
  split; [done|]. intros z [<-|Hz]; [by eapply HI|auto].
Qed.
End lwp.

Ltac lstep :=
  lazymatch goal with
  | |- lwp _ (lbind _ _) _ _ _ => apply lwp_lbind
  | |- lwp _ (lbind_ok _ _) _ _ _ => apply lwp_lbind_ok
  | |- lwp _ (lfbind _ _) _ _ _ => apply lwp_lfbind
  | |- lwp _ (lift _) _ _ _ => apply lwp_lift
  | |- lwp _ (current _) _ _ _ => apply lwp_current; cbv beta
  | |- lwp _ (put _) _ _ _ => apply lwp_put
  | |- lwp _ (lret _) _ _ _ => apply lwp_lret
  | |- lwp _ (if ?c then _ else _) _ _ _ => let Ec := fresh "Ec" in destruct c eqn:Ec
  end.

(** ** What the controller relies on from a gateway backend *)

(** Calls a backend may make: never on native objects, bindings or the authority. *)
Definition gateway_kind (o : op) : Prop :=
  match o with
  | Get Local _ _ _ | ListObjects Local _ _ | RandRead _ | ReadFile _ _ | Probe _ _ => True
  | Create Local k _ | Update Local k _ | Delete Local k _ _ _ => k = KConfigMap \/ k = KSecret \/ k = KPod
  | _ => False
  end.
(** [gone h b]: the pass saw that nothing of the backend is left for [b]. *)
Class GatewayContract (gone : history -> NetworkBinding -> Prop) (g : Gateway) := {
  gone_extends : forall h h' b, extends h h' -> gone h b -> gone h' b;
  ensure_confined : forall b a h, wp any_answer (fun _ => gateway_kind) (Ensure g b a) h (fun _ _ => True);
  delete_confined : forall b h, wp any_answer (fun _ => gateway_kind) (GatewayDelete g b) h (fun h' x => x = Ok true -> gone h' b) }.
