(* ===== verification/LocalSafety.v ===== *)
(** * What a local pass may do

    [local_permitted] is the contract of the local controller: every call a pass may
    make, with what it must have read before. Native objects are created, changed
    and deleted only under the binding's ownership, a subnet is deleted only when it
    is withdrawn and nothing uses it, and completion is reported only from what the
    pass saw. *)
From S2P Require Import Prelude GoStd Json NetIP Validation SiteConfig DestinationRoute Api LocalConfig Prog Kube PlatformPlan.
From S2P Require Import Allocation AllocationFacts LocalReconciler.
Open Scope Z_scope.

Section safety.
Context {VAL : Validation} {MACH : Machinery} {UNS : Unstructured}.
Variable r : Reconciler.
Context (gone : history -> NetworkBinding -> Prop) (GC : forall g, lr_Gateway r = Some g -> GatewayContract gone g).
Let cfg := lr_Config r.

(** ** The contract *)

(** The binding as the local API returned it, and with another status. *)
Definition copy (h : history) (b : NetworkBinding) : Prop :=
  (exists ns name, asked h (Get Local KBinding ns name) (Ok b)) \/
  (exists sent, asked h (UpdateStatus Local KBinding sent) (Ok b)) \/
  (exists sent, asked h (Update Local KBinding sent) (Ok b)).
Definition version (h : history) (b : NetworkBinding) : Prop :=
  exists b0, copy h b0 /\ nb_Meta b = nb_Meta b0 /\ nb_Spec b = nb_Spec b0.
(** The copy in memory: only the recorded resources and gateways were edited. *)
Definition like (h : history) (b : NetworkBinding) : Prop :=
  exists b0, copy h b0 /\ nb_Meta b = nb_Meta b0 /\ nb_Spec b = nb_Spec b0 /\
    bt_Phase (nb_Status b) = bt_Phase (nb_Status b0) /\ bt_AppliedRevision (nb_Status b) = bt_AppliedRevision (nb_Status b0).

(** A native object that was read, and is the binding's by label and recorded UID. *)
Definition guarded (h : history) (b : NetworkBinding) (k : string) (o : Native) : Prop :=
  (exists name, asked h (Get Local (native_kind k) "" name) (Ok o)) /\
  get (om_Labels (un_Meta o)) NativeOwnerLabel = om_UID (nb_Meta b) /\
  (forall rec, In rec (bt_Resources (nb_Status b)) -> rr_APIVersion rec = kubeovn -> rr_Kind rec = un_Kind o -> rr_Name rec = om_Name (un_Meta o) ->
     rr_UID rec = om_UID (un_Meta o)).
Definition no_native (h : history) (k name : string) : Prop :=
  exists x, asked h (Get Local (native_kind k) "" name) x /\ found x = Ok None.

(** The native objects of a snapshot. *)
Definition wanted (b : NetworkBinding) (o : Native) : Prop :=
  (exists a cross, o = vpc_object r b a cross) \/
  (exists s, In s (nb_Subnets (nb_Spec b)) /\ bs_Deleting s = false /\ o = workload_object b s) \/
  (exists a, o = transit_object b a).

(** No Pod is attached to a native subnet and no address of it is allocated. *)
Definition unused (h : history) (name : string) : Prop := exists pods ips,
  asked h (ListObjects Local KPod Everything) (Ok pods) /\ (forall p, In p pods -> references name p = false) /\
  asked h (ListObjects Local (native_kind "IP") Everything) (Ok ips) /\
  (forall ip, In ip ips -> default "" (NestedString (un_Object ip) ["spec"; "subnet"]) <> name /\
     ~ In name (default [] (NestedStringSlice (un_Object ip) ["spec"; "attachSubnets"]))).
(** The snapshot does not want this subnet any more. *)
Definition withdrawn_subnet (b : NetworkBinding) (name : string) : Prop :=
  nb_Deleting (nb_Spec b) = true \/
  (exists s, In s (nb_Subnets (nb_Spec b)) /\ bs_Deleting s = true /\ bs_NativeSubnetName s = name) \/
  (name = transitName b /\ is_cross b = false).

(** Everything that was realized is seen to be gone. *)
Record cleaned_up (h : history) (b : NetworkBinding) : Prop := {
  cu_deleting : nb_Deleting (nb_Spec b) = true;
  cu_revision : bt_AppliedRevision (nb_Status b) = nb_Revision (nb_Spec b);
  cu_gateways : bt_Gateways (nb_Status b) = [];
  cu_backend : lr_Gateway r <> None -> exists b0, copy h b0 /\ gone h b0;
  cu_records : forall rec, In rec (bt_Resources (nb_Status b)) -> rr_APIVersion rec = kubeovn /\ rr_Kind rec <> "Subnet"%string /\
    ~ (rr_Kind rec = "Vpc"%string /\ rr_Name rec = nb_NativeVpcName (nb_Spec b));
  cu_vpc : no_native h "Vpc" (nb_NativeVpcName (nb_Spec b));
  cu_subnets : exists items, asked h (ListObjects Local (native_kind "Subnet") (MatchingLabels (<[NativeOwnerLabel := om_UID (nb_Meta b)]> ∅))) (Ok items) /\
    forall o, In o items -> om_Name (un_Meta o) = ""%string }.

(** What a ready report rests on. *)
Definition subnet_ready (h : history) (name : string) : Prop := exists o,
  asked h (Get Local (native_kind "Subnet") "" name) (Ok o) /\
  existsb ready_condition (default [] (NestedSlice (un_Object o) ["status"; "conditions"])) = true.
Definition routes_acknowledged (h : history) (b : NetworkBinding) : Prop := exists hops plan o,
  (2 <= List.length hops)%nat /\ Compile (route_intents b hops) = Ok plan /\
  asked h (Get Local (native_kind "Vpc") "" (nb_NativeVpcName (nb_Spec b))) (Ok o) /\ routes_ready o (Hash plan) = true.
Record connected (h : history) (b : NetworkBinding) : Prop := {
  cn_decided : exists b0, copy h b0 /\ nb_Deleting (nb_Spec b0) = false /\
    (is_cross b0 = true -> subnet_ready h (transitName b) /\ routes_acknowledged h b);
  cn_revision : bt_AppliedRevision (nb_Status b) = nb_Revision (nb_Spec b);
  cn_subnets : forall s, In s (nb_Subnets (nb_Spec b)) -> bs_Deleting s = false -> subnet_ready h (bs_NativeSubnetName s);
  cn_withdrawn : forall s, In s (nb_Subnets (nb_Spec b)) -> bs_Deleting s = true -> no_native h "Subnet" (bs_NativeSubnetName s) }.

(** A status report: of an unfinished pass, of one that kept the phase, or of a
    completed one. *)
Definition reportable (h : history) (b : NetworkBinding) : Prop :=
  (exists b0, copy h b0 /\ bt_Phase (nb_Status b) = bt_Phase (nb_Status b0) /\ bt_AppliedRevision (nb_Status b) = bt_AppliedRevision (nb_Status b0)) \/
  (In (bt_Phase (nb_Status b)) ["Blocked"; "Pending"; "Deleting"]%string /\
     exists b0, copy h b0 /\ bt_AppliedRevision (nb_Status b) = bt_AppliedRevision (nb_Status b0)) \/
  (bt_Phase (nb_Status b) = "Deleted"%string /\ cleaned_up h b) \/
  (bt_Phase (nb_Status b) = "Ready"%string /\ connected h b).

Definition realization (h : history) (o : op) : Prop :=
  match o with
  | Get Local _ _ _ | ListObjects Local _ _ => True
  | UpdateStatus Local k x =>
      match k return object k -> Prop with
      | KBinding => fun b => version h b /\ reportable h b
      | _ => fun _ => False
      end x
  | Create Local k x =>
      match k return object k -> Prop with
      | KNative v kd => fun o => v = kubeovn /\ kd = un_Kind o /\ exists b, copy h b /\ wanted b o /\
          no_native h kd (om_Name (un_Meta o)) /\ recorded b kd (om_Name (un_Meta o)) = false
      | _ => fun _ => False
      end x
  | Update Local k x =>
      match k return object k -> Prop with
      | KNative v kd => fun o' => v = kubeovn /\ exists b o, copy h b /\ guarded h b kd o /\
          un_Meta o' = un_Meta o /\ un_Kind o' = un_Kind o /\ un_APIVersion o' = un_APIVersion o
      | _ => fun _ => False
      end x
  | Delete Local k ns name p => exists kd b o, k = native_kind kd /\ copy h b /\ guarded h b kd o /\
      ns = om_Namespace (un_Meta o) /\ name = om_Name (un_Meta o) /\
      p = mkPre (Some (om_UID (un_Meta o))) (Some (om_ResourceVersion (un_Meta o))) /\
      (kd = "Vpc"%string /\ nb_Deleting (nb_Spec b) = true \/
       kd = "Subnet"%string /\ exists name, asked h (Get Local (native_kind kd) "" name) (Ok o) /\ withdrawn_subnet b name /\ unused h name)
  | _ => False
  end.
Definition local_permitted (h : history) (o : op) : Prop :=
  realization h o \/ allocation_permitted cfg h o \/ gateway_kind o.
Let R := local_permitted.

(** ** Histories grow *)

Lemma copy_extends h h' b : extends h h' -> copy h b -> copy h' b.
Proof. intros HE [(x & y & H)|[(x & H)|(x & H)]]; [left|right; left|right; right]; eauto using asked_extends. Qed.
Lemma like_extends h h' b : extends h h' -> like h b -> like h' b.
Proof. intros HE (b0 & H & H'). exists b0. split; [by eapply copy_extends|done]. Qed.
Lemma copy_like h b : copy h b -> like h b.
Proof. intros H. exists b. done. Qed.
Lemma like_version h b : like h b -> version h b.
Proof. intros (b0 & H1 & H2 & H3 & _). by exists b0. Qed.
Lemma no_native_extends h h' k n : extends h h' -> no_native h k n -> no_native h' k n.
Proof. intros HE (x & H & H'). exists x. split; [by eapply asked_extends|done]. Qed.
Lemma unused_extends h h' n : extends h h' -> unused h n -> unused h' n.
Proof. intros HE (p & i & H1 & H2 & H3 & H4). exists p, i. split; [by eapply asked_extends|]. split; [done|]. split; [by eapply asked_extends|done]. Qed.
Lemma subnet_ready_extends h h' n : extends h h' -> subnet_ready h n -> subnet_ready h' n.
Proof. intros HE (o & H & H'). exists o. split; [by eapply asked_extends|done]. Qed.
Lemma guarded_extends h h' b k o : extends h h' -> guarded h b k o -> guarded h' b k o.
Proof. intros HE ((n & H) & H'). split; [|done]. exists n. by eapply asked_extends. Qed.
Lemma routes_acknowledged_extends h h' b : extends h h' -> routes_acknowledged h b -> routes_acknowledged h' b.
Proof. intros HE (hops & plan & o & H1 & H2 & H3 & H4). exists hops, plan, o. do 2 (split; [done|]). split; [by eapply asked_extends|done]. Qed.

Lemma reads_ok h o : match o with Get Local _ _ _ | ListObjects Local _ _ => True | _ => False end -> R h o.
Proof. intros Ho. left. by destruct o as [[]|[]| | | | | | |]. Qed.

(** ** Phases that may end the pass *)

Definition cont {A} (P : history -> A -> NetworkBinding -> Prop) (h : history) (x : flow A) (b : NetworkBinding) : Prop :=
  match x with Return _ => True | Continue a => P h a b end.
Definition okl {A} (P : history -> A -> NetworkBinding -> Prop) (h : history) (x : res A) (b : NetworkBinding) : Prop :=
  match x with Ok a => P h a b | Err _ => like h b end.

Lemma lwp_seq {A B} (p : lprog (flow A)) (f : A -> lprog (flow B)) b h P P' :
  lwp R p b h (cont P) -> (forall h' a b', extends h h' -> P h' a b' -> lwp R (f a) b' h' (cont P')) -> lwp R (lfbind p f) b h (cont P').
Proof. intros HP HF. lstep. eapply lwp_mono; [|by apply lwp_extends]. intros h' [y|a] b' [HE HPa]; [done|]. by apply HF. Qed.
Lemma lwp_seq_ok {A B} (p : lprog (res A)) (f : A -> lprog (res B)) b h P P' :
  lwp R p b h (okl P) -> (forall h' a b', extends h h' -> P h' a b' -> lwp R (f a) b' h' (okl P')) -> lwp R (lbind_ok p f) b h (okl P').
Proof. intros HP HF. lstep. eapply lwp_mono; [|by apply lwp_extends]. intros h' [a|e] b' [HE HPa]; [by apply HF|done]. Qed.

Lemma lwp_save_status b h : version h b -> reportable h b ->
  lwp R save_status b h (fun h' x b' => match x with Ok _ => copy h' b' | Err _ => b' = b end).
Proof.
  intros HV HR. unfold lwp, save_status. wstep. wstep; [left; done|]. intros [b'|e] _; [|done]. right. left. exists b. apply asked_snoc.
Qed.
Lemma like_reportable h b : like h b -> reportable h b.
Proof. intros (b0 & H & _ & _ & H1 & H2). left. by exists b0. Qed.
Lemma lwp_save_like b h : like h b -> lwp R save_status b h (okl (fun h' _ b' => copy h' b')).
Proof.
  intros HL. eapply lwp_mono; [|apply lwp_extends, lwp_save_status; [by apply like_version|by apply like_reportable]].
  intros h' [u|e] b' [HE H]; [done|]. rewrite H. by apply (like_extends h).
Qed.

Definition reported (phase reason message : string) (ready applied : bool) (b : NetworkBinding) : NetworkBinding :=
  let old := nb_Status b in
  let gen := om_Generation (nb_Meta b) in
  nb_with_Status (mkBindingStatus gen phase (if applied then nb_Revision (nb_Spec b) else bt_AppliedRevision old)
    (bt_Resources old) (bt_Gateways old)
    (SetStatusCondition (bt_Conditions old) (mkCondition "Ready" (if ready then "True" else "False") reason message gen 0))) b.
Lemma lwp_state {A} phase reason message ready applied b h (P : history -> A -> NetworkBinding -> Prop) :
  version h b -> reportable h (reported phase reason message ready applied b) ->
  lwp R (state r phase reason message ready applied) b h (cont P).
Proof.
  intros HV HR. unfold lwp, state. fold (reported phase reason message ready applied b). wstep; [done|]. wstep.
  eapply wp_mono; [|apply lwp_save_status; [|done]]; [done|]. destruct HV as (b0 & H1 & H2 & H3). by exists b0.
Qed.
Lemma lwp_unfinished {A} phase reason message ready b h (P : history -> A -> NetworkBinding -> Prop) : like h b ->
  In phase ["Blocked"; "Pending"; "Deleting"]%string -> lwp R (state r phase reason message ready false) b h (cont P).
Proof.
  intros HL Hp. apply lwp_state; [by apply like_version|]. destruct HL as (b0 & H & _ & _ & _ & H2). right. left. split; [done|].
  exists b0. split; [done|exact H2].
Qed.
Lemma lwp_blocked {A} e b h (P : history -> A -> NetworkBinding -> Prop) : like h b -> lwp R (blocked r e) b h (cont P).
Proof. intros HL. apply lwp_unfinished; [done|by left]. Qed.
Lemma lwp_or_blocked {A} (p : lprog (res A)) b h P : lwp R p b h (okl P) -> lwp R (or_blocked r p) b h (cont P).
Proof.
  intros HP. unfold or_blocked. lstep. eapply lwp_mono; [|exact HP]. intros h' [a|e] b' H; [by lstep|by apply lwp_blocked].
Qed.
Lemma lwp_or_fail {A} (p : lprog (res A)) b h P : lwp R p b h (okl P) -> lwp R (or_fail p) b h (cont P).
Proof. intros HP. unfold or_fail. lstep. eapply lwp_mono; [|exact HP]. by intros h' [a|e] b' H; lstep. Qed.
Lemma lwp_unless_changed (p : lprog (res bool)) b h (P : history -> unit -> NetworkBinding -> Prop) :
  lwp R p b h (okl (fun h' changed b' => changed = false -> P h' tt b')) -> lwp R (unless_changed r p) b h (cont P).
Proof.
  intros HP. unfold unless_changed. eapply lwp_seq; [by apply lwp_or_blocked|]. intros h' [] b' HE H; [done|]. lstep. by apply H.
Qed.
(** Effectful code that leaves the copy alone. *)
Lemma lwp_lifted {A} (p : kprog (res A)) b h (P : history -> A -> NetworkBinding -> Prop) : like h b ->
  wp any_answer R p h (fun h' x => forall a, x = Ok a -> P h' a b) -> lwp R (lift p) b h (okl P).
Proof.
  intros HL HP. lstep. eapply wp_mono; [|by apply wp_extends]. intros h' [a|e] [HE H]; [by apply H|]. by apply (like_extends h).
Qed.

(** ** Native objects *)

Lemma guardNative_ok b o : guardNative b o = Ok tt ->
  get (om_Labels (un_Meta o)) NativeOwnerLabel = om_UID (nb_Meta b) /\
  (forall rec, In rec (bt_Resources (nb_Status b)) -> rr_APIVersion rec = kubeovn -> rr_Kind rec = un_Kind o -> rr_Name rec = om_Name (un_Meta o) ->
     rr_UID rec = om_UID (un_Meta o)).
Proof.
  unfold guardNative. intros H. destruct (negb _) eqn:E1; [done|]. destruct (existsb _ _) eqn:E2; [done|]. breflect. split; [done|].
  intros rec Hr Hv Hk Hn. pose proof (existsb_forall _ _ E2 rec Hr) as Hx. cbv beta in Hx. unfold is_record in Hx.
  rewrite Hv, Hk, Hn, !String.eqb_refl in Hx. cbn [andb] in Hx. by breflect.
Qed.
Lemma guarded_read h b k name o : asked h (Get Local (native_kind k) "" name) (Ok o) -> guardNative b o = Ok tt -> guarded h b k o.
Proof. intros HA [H1 H2]%guardNative_ok. split; [by exists name|done]. Qed.

Lemma lwp_record_native kind name uid b h : copy h b ->
  lwp R (record_native kind name uid) b h (okl (fun h' changed b' => copy h' b' /\ (changed = false -> b' = b /\ extends h h'))).
Proof.
  intros HC. unfold record_native. lstep. lstep; [lstep; split; [done|]; intros _; split; [done|apply extends_refl]|].
  lstep. lstep. eapply lwp_seq_ok; [apply lwp_save_like|].
  - exists b. done.
  - intros h' [] b' HE H. lstep. split; [done|]. done.
Qed.

Lemma lwp_ensure want b h : copy h b -> wanted b want ->
  lwp R (ensure want) b h (okl (fun h' changed b' => copy h' b' /\ (changed = false -> b' = b /\ extends h h'))).
Proof.
  intros HC HW. pose proof (copy_like _ _ HC) as HL. unfold ensure. lstep. cbv zeta. lstep. lstep. unfold find_native. wstep; [by apply reads_ok|]. intros x _.
  set (h1 := h ++ [_]). assert (extends h h1) as E1 by extending. assert (like h1 b) as HL1 by by apply (like_extends h).
  assert (forall kind name uid h2, extends h1 h2 -> lwp R (record_native kind name uid) b h2
    (okl (fun h' changed b' => copy h' b' /\ (changed = false -> b' = b /\ extends h h')))) as HRec.
  { intros kind name uid h2 E2. eapply lwp_mono; [|apply lwp_record_native, (copy_extends h); [extending|done]].
    intros h3 [[]|e] b3; [|intros [H1 H2]|done]; [intros [H1 _]; split; [done|done]|]. split; [done|]. intros _.
    destruct (H2 eq_refl) as [-> E3]. split; [done|extending]. }
  destruct (found x) as [[o|]|e] eqn:Ef; [| |done].
  - apply found_some in Ef. subst x. assert (asked h1 (Get Local (native_kind (un_Kind want)) "" (om_Name (un_Meta want))) (Ok o)) as HA by apply asked_snoc.
    lstep. lstep. destruct (guardNative b o) as [[]|] eqn:Eg; [|done]. lstep. lstep. destruct (merge_fields _ _ _) as [[content changed]|]; [|done].
    cbn [snd]. lstep; [|apply HRec, extends_refl]. lstep. lstep. wstep.
    + left. split; [done|]. exists b, o. split; [by apply (copy_extends h)|]. split; [by eapply guarded_read|done].
    + intros [o'|e] _; [|apply (like_extends h); [extending|done]]. lstep. split; [|done]. apply (copy_extends h); [extending|done].
  - lstep; [done|]. lstep. lstep. wstep.
    + left. split; [done|]. split; [done|]. exists b. split; [by apply (copy_extends h)|]. split; [done|]. split; [|done]. exists x.
      split; [apply asked_snoc|done].
    + intros [o|e] _; [|apply (like_extends h); [extending|done]]. apply HRec. extending.
Qed.

Lemma wp_nativeReady name h : wp any_answer R (nativeReady "Subnet" name) h
  (fun h' x => forall a, x = Ok a -> a = true -> subnet_ready h' name).
Proof.
  unfold nativeReady, get_native. wstep. wstep; [by apply reads_ok|]. intros [o|e] _; [|done]. wstep. intros a [= <-] Ha. exists o.
  split; [apply asked_snoc|done].
Qed.

Lemma lwp_ensure_subnet o reason message b h : copy h b -> wanted b o ->
  lwp R (ensure_subnet r o reason message) b h (cont (fun h' _ b' => b' = b /\ subnet_ready h' (om_Name (un_Meta o)))).
Proof.
  intros HC HW. unfold ensure_subnet.
  eapply (lwp_seq _ _ _ _ (fun h' _ b' => b' = b /\ extends h h')); [apply lwp_unless_changed|].
  { eapply lwp_mono; [|by apply lwp_ensure]. intros h' [c|e] b'; [|done]. intros [_ H]. exact H. }
  intros h1 [] b1 E1 [-> _]. eapply (lwp_seq _ _ _ _ (fun h' a b' => b' = b /\ (a = true -> subnet_ready h' (om_Name (un_Meta o)))));
    [apply lwp_or_blocked, lwp_lifted; [apply (like_extends h); [done|by apply copy_like]|]|].
  { eapply wp_mono; [|apply wp_nativeReady]. intros h' x H a ->. split; [done|]. by apply H. }
  intros h2 a b2 E2 [-> H]. lstep; [lstep; split; [done|auto]|]. apply lwp_unfinished; [|by right; left].
  apply (like_extends h); [extending|by apply copy_like].
Qed.

(** ** Deleting native objects *)

Lemma ip_in_use_ok name ips : ip_in_use name ips = Ok tt -> forall ip, In ip ips ->
  default "" (NestedString (un_Object ip) ["spec"; "subnet"]) <> name /\
  ~ In name (default [] (NestedStringSlice (un_Object ip) ["spec"; "attachSubnets"])).
Proof.
  induction ips as [|ip ips IH]; cbn [ip_in_use]; [done|]. destruct (_ =? name)%string eqn:E1; [done|].
  destruct (existsb _ _) eqn:E2; [done|]. intros H x [<-|Hx]; [|by apply IH]. breflect. split; [done|]. intros Hi.
  pose proof (existsb_forall _ _ E2 name Hi) as E. by rewrite String.eqb_refl in E.
Qed.
Lemma wp_endpointsEmpty name h : wp any_answer R (endpointsEmpty name) h (fun h' x => forall a, x = Ok a -> unused h' name).
Proof.
  unfold endpointsEmpty. wstep. wstep; [by apply reads_ok|]. intros [pods|e] _; [|done]. set (h1 := h ++ [_]).
  wstep; [done|]. wstep. wstep; [by apply reads_ok|]. intros [ips|e] _; [|done]. wstep. intros [] H.
  exists pods, ips. split; [apply asked_app, asked_snoc|]. split; [intros p Hp; by apply (existsb_forall _ _ Ec)|].
  split; [apply asked_snoc|]. by apply ip_in_use_ok.
Qed.

Lemma lwp_deleteNative kind name check b h : copy h b ->
  kind = "Vpc"%string /\ nb_Deleting (nb_Spec b) = true \/ kind = "Subnet"%string /\ withdrawn_subnet b name /\ check = true ->
  lwp R (deleteNative kind name check) b h (okl (fun h' gone b' => copy h' b' /\
    (gone = true -> b' = b /\ no_native h' kind name /\ recorded b kind name = false))).
Proof.
  intros HC HK. pose proof (copy_like _ _ HC) as HL. unfold deleteNative. lstep. lstep. lstep. unfold find_native. wstep; [by apply reads_ok|]. intros x _.
  set (h1 := h ++ [_]). assert (extends h h1) as E1 by extending. destruct (found x) as [[o|]|e] eqn:Ef.
  3:{ by apply (like_extends h). }
  2:{ lstep.
      - lstep. lstep. eapply lwp_seq_ok; [apply lwp_save_like; exists b; split; [by apply (copy_extends h)|done]|].
        intros h' [] b' HE H. lstep. done.
      - lstep. split; [by apply (copy_extends h)|]. intros _. split; [done|]. split; [|done]. exists x. split; [apply asked_snoc|done]. }
  apply found_some in Ef. subst x. assert (asked h1 (Get Local (native_kind kind) "" name) (Ok o)) as HA by apply asked_snoc.
  assert (like h1 b) as HL1 by by apply (like_extends h).
  lstep. lstep. destruct (guardNative b o) as [[]|] eqn:Eg; [|done].
  eapply (lwp_seq_ok _ _ _ _ (fun h' _ b' => b' = b /\ (check = true -> unused h' name))).
  { apply lwp_lifted; [done|]. destruct check; [|by intros]. eapply wp_mono; [|apply wp_endpointsEmpty]. intros h' x H a ->. split; [done|]. intros _. by eapply H. }
  intros h2 [] b2 E2 [-> HU]. assert (copy h2 b) as HC2 by by (apply (copy_extends h); [extending|]).
  lstep; [by lstep|]. eapply (lwp_seq_ok _ _ _ _ (fun h' _ b' => copy h' b')).
  { lstep. wstep.
    - left. exists kind, b, o. split; [done|]. split; [done|]. split; [apply (guarded_extends h1); [done|by eapply guarded_read]|].
      do 3 (split; [done|]). destruct HK as [HK|(-> & HW & ->)]; [by left|]. right. split; [done|]. exists name.
      split; [by apply (asked_extends h1)|]. split; [done|]. by apply HU.
    - intros [u|e] _; [apply (copy_extends h2); [extending|done]|]. apply (like_extends h2); [extending|by apply copy_like]. }
  intros h3 u b3 E3 H3. lstep. done.
Qed.

(** ** Recovering receipts *)

(** The owned subnets that the pass listed all have a record. *)
Definition subnets_recorded (h : history) (b : NetworkBinding) : Prop := exists items,
  asked h (ListObjects Local (native_kind "Subnet") (MatchingLabels (<[NativeOwnerLabel := om_UID (nb_Meta b)]> ∅))) (Ok items) /\
  forall o, In o items -> om_Name (un_Meta o) <> ""%string -> recorded b "Subnet" (om_Name (un_Meta o)) = true.
Lemma subnets_recorded_extends h h' b : extends h h' -> subnets_recorded h b -> subnets_recorded h' b.
Proof. intros HE (i & H & H'). exists i. split; [by eapply asked_extends|done]. Qed.

Lemma wp_inventory b names : forall objects h, wp any_answer R (inventory b objects names) h
  (fun h' x => forall objects', x = Ok objects' -> forall name, is_Some (objects !! name) -> is_Some (objects' !! name)).
Proof.
  induction names as [|name names IH]; intros objects h; [by intros ? [= <-]|]. cbn [inventory]. wstep.
  assert (forall (x : res (option Native)) h', wp any_answer R
    match x with
    | Ok None => inventory b objects names
    | Ok (Some o) => stop (om_UID (un_Meta o) =? "")%string with Errorf ("native Subnet " ++ name ++ " has no identity") ;;
        _ <-! Ret (guardNative b o) ;; inventory b (<[name := o]> objects) names
    | Err e => Ret (Err e)
    end h' (fun h'' y => forall objects', y = Ok objects' -> forall n, is_Some (objects !! n) -> is_Some (objects' !! n))) as HX.
  { intros [[o|]|e] h'; [|apply IH|done]. wstep; [done|]. wstep. wstep. destruct (guardNative b o) as [[]|]; [|done].
    eapply wp_mono; [|apply IH]. intros h2 y Hy objects' E n Hn. apply (Hy objects' E). apply lookup_insert_is_Some'. by right. }
  destruct (objects !! name) as [o|]; [exact (HX (Ok (Some o)) h)|]. unfold find_native. wstep; [by apply reads_ok|]. intros x _.
  pose proof (HX (found x) (h ++ [Ev (Get Local (native_kind "Subnet") "" name) x])) as HX'. by destruct (found x) as [[o|]|e].
Qed.

Lemma candidate_listed b items o : In o items -> om_Name (un_Meta o) <> ""%string -> In (om_Name (un_Meta o)) (candidate_names b items).
Proof.
  intros Ho Hn. unfold candidate_names. apply sort_strings_in, list_elem_of_In, elem_of_elements, elem_of_list_to_set, list_elem_of_In, filter_In.
  split; [|by apply negb_true_iff, String.eqb_neq]. rewrite !in_app_iff. right. left. by apply (in_map (fun o => om_Name (un_Meta o))).
Qed.
Lemma missing_records_nil b objects names : missing_records b objects names = [] ->
  forall name, In name names -> is_Some (objects !! name) -> recorded b "Subnet" name = true.
Proof.
  induction names as [|n names IH]; intros H name; [by intros []|]. cbn [missing_records flat_map] in H.
  apply app_eq_nil in H as [H1 H2]. intros [<-|Hn] Hs; [|by apply IH]. destruct Hs as [o Ho]. rewrite Ho in H1.
  by destruct (recorded b "Subnet" n).
Qed.

Lemma lwp_recover b h : copy h b -> lwp R (recover r) b h (cont (fun h' _ b' => b' = b /\ subnets_recorded h' b)).
Proof.
  intros HC. pose proof (copy_like _ _ HC) as HL. unfold recover, recoverNativeSubnets. lstep. lstep. lstep. lstep. wstep; [by apply reads_ok|].
  intros x _. set (h1 := h ++ [_]). assert (extends h h1) as E1 by extending. assert (like h1 b) as HL1 by by apply (like_extends h).
  destruct x as [items|e]; [|lstep; by apply lwp_blocked]. cbv zeta. lstep. lstep.
  eapply wp_mono; [|apply wp_extends, wp_inventory]. intros h2 [objects|e] [E2 HO].
  2:{ lstep. apply lwp_blocked. by apply (like_extends h1). }
  specialize (HO objects eq_refl).
  assert (asked h2 (ListObjects Local (native_kind "Subnet") (MatchingLabels (<[NativeOwnerLabel := om_UID (nb_Meta b)]> ∅))) (Ok items)) as HA
    by (apply (asked_extends h1); [done|apply asked_snoc]).
  destruct (missing_records b objects _) as [|rec recs] eqn:Em.
  - lstep. lstep. split; [done|]. exists items. split; [done|]. intros o Ho Hn.
    apply (missing_records_nil _ _ _ Em); [by apply candidate_listed|]. apply HO.
    apply not_eq_None_Some. intros Hz%not_elem_of_list_to_map_2. apply Hz, list_elem_of_In, in_map_iff.
    exists (om_Name (un_Meta o), o). split; [done|]. rewrite <- in_rev. by apply (in_map (fun o : Native => (om_Name (un_Meta o), o))).
  - lstep. lstep. lstep. eapply lwp_mono; [|apply lwp_save_like].
    + by intros h3 [u|e] b3 _.
    + exists b. split; [apply (copy_extends h); [extending|done]|done].
Qed.

(** ** Routes and gateways *)

Lemma wp_routes b intents h : copy h b -> wp any_answer R (routes b intents) h (fun h' x => forall a, x = Ok a -> fst a = false -> snd a = true ->
  exists plan o, Compile intents = Ok plan /\ asked h' (Get Local (native_kind "Vpc") "" (nb_NativeVpcName (nb_Spec b))) (Ok o) /\ routes_ready o (Hash plan) = true).
Proof.
  intros HC. unfold routes, get_native. wstep. wstep. destruct (Compile intents) as [plan|] eqn:Ep; [|done]. wstep. wstep; [by apply reads_ok|].
  intros [o|e] _; [|done]. set (h1 := h ++ [_]). assert (asked h1 (Get Local (native_kind "Vpc") "" (nb_NativeVpcName (nb_Spec b))) (Ok o)) as HA by apply asked_snoc.
  wstep. wstep. destruct (guardNative b o) as [[]|] eqn:Eg; [|done]. cbv zeta. wstep.
  - wstep. wstep. destruct (SetNestedSlice _ _ _) as [content|]; [|done]. wstep. wstep.
    + left. split; [done|]. exists b, o. split; [apply (copy_extends h); [extending|done]|]. split; [by eapply guarded_read|done].
    + intros [o'|e] _; [|done]. wstep. by intros a [= <-].
  - wstep. intros a [= <-] _ Hr. by exists plan, o.
Qed.
Lemma wp_withdraw_routes b h : copy h b -> wp any_answer R (withdraw_routes b) h (fun _ _ => True).
Proof.
  intros HC. unfold withdraw_routes, find_native. wstep. wstep; [by apply reads_ok|]. intros x _.
  destruct (found x) as [[o|]|e]; [|done..]. wstep. wstep. destruct (guardNative b o) as [[]|]; [|done]. cbv zeta. wstep; [|done].
  wstep. eapply wp_mono; [|apply wp_routes, (copy_extends h); [extending|done]]. by intros h' [a|e] _.
Qed.

Lemma wp_gateway_delete g b h : lr_Gateway r = Some g ->
  wp any_answer R (GatewayDelete g b) h (fun h' x => x = Ok true -> gone h' b).
Proof.
  intros HG. apply (wp_weaken any_answer any_answer (fun _ => gateway_kind)); [done|by intros; right; right|].
  apply (delete_confined (GatewayContract := GC g HG)).
Qed.
Lemma wp_gateway_ensure g b a h : lr_Gateway r = Some g -> wp any_answer R (Ensure g b a) h (fun _ _ => True).
Proof.
  intros HG. apply (wp_weaken any_answer any_answer (fun _ => gateway_kind)); [done|by intros; right; right|].
  apply (ensure_confined (GatewayContract := GC g HG)).
Qed.

(** The records a gateway report leaves. *)
Definition own_records (b : NetworkBinding) : list ResourceRecord :=
  List.filter (fun rec => (rr_APIVersion rec =? kubeovn)%string) (bt_Resources (nb_Status b)).
Lemma lwp_gatewayReport report b h : copy h b -> lwp R (gatewayReport report) b h (okl (fun h' changed b' => copy h' b' /\
  (changed = false -> b' = b /\ bt_Gateways (nb_Status b) = gr_Gateways report /\
     Permutation (bt_Resources (nb_Status b)) (own_records b ++ gr_Resources report)))).
Proof.
  intros HC. unfold gatewayReport. lstep. cbv zeta. fold (own_records b). lstep.
  - lstep. breflect. split; [done|]. intros _. split; [done|]. split; [done|].
    match goal with X : _ = bt_Resources (nb_Status b) |- _ => rewrite <- X at 1 end. apply sort_by_key_perm.
  - lstep. lstep. eapply lwp_seq_ok; [apply lwp_save_like; exists b; done|]. intros h' [] b' HE H. lstep. done.
Qed.

Lemma lwp_disconnect b h : copy h b -> is_cross b = false ->
  lwp R (disconnect r) b h (okl (fun h' gone b' => copy h' b' /\ (gone = true -> b' = b))).
Proof.
  intros HC HX. unfold disconnect. lstep. eapply (lwp_seq_ok _ _ _ _ (fun h' _ b' => b' = b)).
  { apply lwp_lifted; [by apply copy_like|]. eapply wp_mono; [|by apply wp_withdraw_routes]. done. }
  intros h1 withdrawn b1 E1 ->. assert (copy h1 b) as HC1 by by apply (copy_extends h).
  lstep; [by lstep|]. eapply (lwp_seq_ok _ _ _ _ (fun h' gone b' => copy h' b' /\ (gone = true -> b' = b))).
  { destruct (lr_Gateway r) as [g|] eqn:Eg in |- *.
    - eapply (lwp_seq_ok _ _ _ _ (fun h' _ b' => b' = b)).
      { apply lwp_lifted; [by apply copy_like|]. eapply wp_mono; [|apply (wp_gateway_delete g); exact Eg]. done. }
      intros h2 gn b2 E2 ->. assert (copy h2 b) as HC2 by by apply (copy_extends h1). lstep; [by lstep|].
      eapply lwp_seq_ok; [by apply lwp_gatewayReport|]. intros h3 changed b3 E3 [H3 H4]. lstep. split; [done|].
      intros Hn. apply negb_true_iff in Hn. by apply H4.
    - lstep; [lstep; by apply copy_like|]. by lstep. }
  intros h2 gn b2 E2 [H2 H3]. lstep; [by lstep|]. assert (b2 = b) as -> by (apply H3; by destruct gn).
  lstep. lstep; [|by lstep].
  eapply lwp_mono; [|apply lwp_deleteNative; [done|]].
  - intros h3 [gn'|e] b3 H; [|done]. destruct H as [H4 H5]. split; [done|]. intros Hg. by apply H5.
  - right. split; [done|]. split; [|done]. right. right. done.
Qed.
End safety.
