(* ===== verification/LocalPass.v ===== *)
(** * A local pass from the accepted snapshot to its status report

    The phases of [LocalSafety] put together: withdrawal of a tombstone, realization
    of a live snapshot, and the handler; with the safety theorems of the pass. *)
From S2P Require Import Prelude GoStd Json NetIP Validation SiteConfig DestinationRoute Api LocalConfig Prog Kube PlatformPlan.
From S2P Require Import Allocation AllocationFacts LocalReconciler LocalSafety.
Open Scope Z_scope.

Section pass.
Context {VAL : Validation} {MACH : Machinery} {UNS : Unstructured}.
Variable r : Reconciler.
Context (gone : history -> NetworkBinding -> Prop) (GC : forall g, lr_Gateway r = Some g -> GatewayContract gone g).
Let cfg := lr_Config r.
Let R := local_permitted r gone.

(** ** A tombstone *)

(** A loop whose body leaves the copy alone when it goes on. *)
Lemma lwp_each {A} (f : unit -> A -> lprog (flow unit)) (I : history -> A -> Prop) l b h : copy h b ->
  (forall h h' x, extends h h' -> I h x -> I h' x) ->
  (forall h x, copy h b -> In x l -> lwp R (f tt x) b h (cont (fun h' _ b' => b' = b /\ I h' x))) ->
  lwp R (lfold f tt l) b h (cont (fun h' _ b' => b' = b /\ forall x, In x l -> I h' x)).
Proof.
  intros HC HI HF. apply (lwp_lfold _ f I (fun _ _ _ => True)); [done|]. intros h' x HE Hx. apply HF; [by apply (copy_extends h)|done].
Qed.

Lemma lwp_check_empty phase name b h (P : history -> unit -> NetworkBinding -> Prop) : copy h b ->
  In phase ["Blocked"; "Pending"; "Deleting"]%string -> (forall h', P h' tt b) -> lwp R (check_empty r phase tt name) b h (cont P).
Proof.
  intros HC Hp HP. unfold check_empty. lstep. lstep. eapply wp_mono; [|apply wp_extends, wp_endpointsEmpty].
  intros h' [[]|e] [HE _]; [lstep; apply HP|]. apply lwp_unfinished; [|done]. by apply (like_extends h), copy_like.
Qed.

Lemma native_subnets_recorded b name : In name (native_subnets b) -> LocalReconciler.recorded b "Subnet" name = true.
Proof.
  unfold native_subnets. intros (rec & <- & [Hr Hm]%filter_In)%in_map_iff. apply existsb_exists. exists rec. split; [done|].
  breflect. unfold is_record. by rewrite H, H0, !String.eqb_refl.
Qed.

Lemma lwp_remove_gateways b h : copy h b -> lwp R (remove_gateways r) b h (cont (fun h' _ b' => b' = b /\
  (lr_Gateway r <> None -> gone h' b))).
Proof.
  intros HC. unfold remove_gateways. lstep.
  destruct (lr_Gateway r) as [g|] eqn:Eg in |- *.
  - eapply (lwp_seq _ _ _ _ _ _ (fun h' gn b' => b' = b /\ (gn = true -> gone h' b))).
    { apply lwp_or_blocked, lwp_lifted; [by apply copy_like|]. eapply wp_mono; [|by apply (wp_gateway_delete r gone GC g)].
      intros h' x H a ->. split; [done|]. intros ->. by apply H. }
    intros h1 gn b1 E1 [-> H]. lstep; [apply lwp_unfinished; [by apply (like_extends h), copy_like|by right; right; left]|].
    lstep. split; [done|]. intros _. apply H. by destruct gn.
  - lstep; [apply lwp_blocked; by apply copy_like|]. lstep. by split.
Qed.

Lemma lwp_delete_subnet name b h : copy h b -> nb_Deleting (nb_Spec b) = true ->
  lwp R (delete_subnet r tt name) b h (cont (fun h' _ b' => b' = b /\ LocalReconciler.recorded b "Subnet" name = false)).
Proof.
  intros HC HD. unfold delete_subnet. lstep. eapply lwp_mono; [|apply lwp_deleteNative; [done|]].
  - intros h1 [gn|e] b1 H; [|by apply lwp_unfinished; [|right; right; left]]. destruct H as [H1 H2]. lstep; [done|]. lstep.
    apply negb_false_iff in Ec. destruct (H2 Ec) as (-> & _ & ?). done.
  - right. split; [done|]. split; [by left|done].
Qed.

Lemma lwp_remove b h : copy h b -> nb_Deleting (nb_Spec b) = true -> subnets_recorded h b ->
  lwp R (remove r) b h (cont (fun _ _ _ => True)).
Proof.
  intros HC HD HS. unfold remove. lstep. eapply lwp_seq.
  { apply (lwp_each _ (fun _ _ => True)); [done..|]. intros h' x HC' _. apply lwp_check_empty; [done| |done]. by right; right; left. }
  intros h1 [] b1 E1 [-> _]. eapply (lwp_seq _ _ _ _ _ _ (fun h' _ b' => b' = b)).
  { apply lwp_or_blocked, lwp_lifted; [by apply (like_extends h), copy_like|].
    eapply wp_mono; [|apply wp_withdraw_routes; by apply (copy_extends h)]. done. }
  intros h2 withdrawn b2 E2 ->. assert (copy h2 b) as HC2 by by (apply (copy_extends h); [extending|]).
  lstep; [apply lwp_unfinished; [by apply copy_like|by right; right; left]|].
  eapply lwp_seq; [by apply lwp_remove_gateways|]. intros h3 [] b3 E3 [-> HG]. assert (copy h3 b) as HC3 by by apply (copy_extends h2).
  eapply lwp_seq; [by apply lwp_or_fail, lwp_gatewayReport|]. intros h4 changed b4 E4 [_ H]. lstep; [done|].
  destruct (H eq_refl) as (-> & HGw & HP). clear H. assert (copy h4 b) as HC4 by by apply (copy_extends h3). lstep.
  eapply lwp_seq.
  { apply (lwp_each _ (fun _ name => LocalReconciler.recorded b "Subnet" name = false)); [done..|].
    intros h' x HC' _. by apply lwp_delete_subnet. }
  intros h5 [] b5 E5 [-> HN]. assert (copy h5 b) as HC5 by by apply (copy_extends h4).
  eapply lwp_seq; [apply lwp_or_blocked, lwp_deleteNative; [done|by left]|].
  intros h6 gn b6 E6 [HC6 H]. lstep; [done|]. apply negb_false_iff in Ec1. destruct (H Ec1) as (-> & HV & HVr).
  apply lwp_state; [by exists b|]. right; right; left. split; [done|].
  cbn [gr_Resources noGatewayResult] in HP. rewrite app_nil_r in HP.
  assert (forall rec, In rec (bt_Resources (nb_Status b)) -> rr_APIVersion rec = kubeovn) as HO.
  { intros rec Hr. eapply Permutation_in in Hr; [|exact HP]. apply filter_In in Hr as [_ Hr]. by breflect. }
  assert (forall name, LocalReconciler.recorded b "Subnet" name = false) as HR.
  { intros name. destruct (LocalReconciler.recorded b "Subnet" name) eqn:E; [|done]. exfalso. pose proof E as E'.
    apply existsb_exists in E as (rec & Hr & Hm). unfold is_record in Hm. breflect. subst name.
    rewrite HN in E'; [done|]. apply in_map_iff. exists rec. split; [done|]. apply filter_In. split; [done|].
    apply andb_true_iff; split; by apply String.eqb_eq. }
  split; try done.
  - intros HS0. exists b. split; [done|]. destruct (lr_Gateway r) as [g|] eqn:Eg in |- *; [|done].
    apply (gone_extends (GatewayContract := GC g Eg) h3); [extending|auto].
  - intros rec Hr. specialize (HO rec Hr). split; [done|]. split; [intros HK|intros [HK HNm]].
    + pose proof (existsb_forall _ _ (HR (rr_Name rec)) rec Hr) as Hx. unfold is_record in Hx. by rewrite HO, HK, !String.eqb_refl in Hx.
    + pose proof (existsb_forall _ _ HVr rec Hr) as Hx. unfold is_record in Hx. by rewrite HO, HK, HNm, !String.eqb_refl in Hx.
  - destruct HS as (items & HA & HI). exists items. split; [apply (asked_extends h); [extending|done]|].
    intros o Ho. destruct (decide (om_Name (un_Meta o) = ""%string)) as [|Hn]; [done|]. specialize (HI o Ho Hn). by rewrite HR in HI.
Qed.

(** ** A live snapshot *)

Lemma wp_allocate_copy b h : copy h b -> wp any_answer R (allocate cfg b) h
  (fun h' x => match x with Ok (_, b') => copy h' b' | Err _ => True end).
Proof.
  intros HC. apply (wp_weaken any_answer any_answer (allocation_permitted cfg)); [done|by intros; right; left|].
  apply wp_allocate. intros h' [[a b']|e] HE; [|done]. intros (_ & _ & [[-> _]|[sent H]]); [by apply (copy_extends h)|].
  right; right. by exists sent.
Qed.

Lemma lwp_ensure_workload s b h : copy h b -> In s (nb_Subnets (nb_Spec b)) ->
  lwp R (ensure_workload r tt s) b h (cont (fun h' _ b' => b' = b /\ (bs_Deleting s = false -> subnet_ready h' (bs_NativeSubnetName s)))).
Proof.
  intros HC Hs. unfold ensure_workload. lstep; [by lstep|]. lstep. eapply lwp_mono; [|apply lwp_ensure_subnet; [done|]].
  - intros h' [y|[]] b' H; [done|]. destruct H as [-> H]. by split.
  - right; left. by exists s.
Qed.

Lemma lwp_retire_subnet s b h : copy h b -> In s (nb_Subnets (nb_Spec b)) ->
  lwp R (retire_subnet r tt s) b h (cont (fun h' _ b' => b' = b /\ (bs_Deleting s = true -> no_native h' "Subnet" (bs_NativeSubnetName s)))).
Proof.
  intros HC Hs. unfold retire_subnet. lstep; [lstep; split; [done|]; intros E; by rewrite E in Ec|]. apply negb_false_iff in Ec.
  lstep. eapply lwp_mono; [|apply lwp_deleteNative; [done|]].
  - intros h' [gn|e] b' H; [|by apply lwp_unfinished; [|by right; left]]. destruct H as [H1 H2].
    lstep; [apply lwp_unfinished; [by apply copy_like|by right; left]|]. lstep. apply negb_false_iff in Ec0.
    destruct (H2 Ec0) as (-> & HN & _). done.
  - right. split; [done|]. split; [|done]. right; left. by exists s.
Qed.

Lemma lwp_connect a b h : copy h b ->
  lwp R (connect r a) b h (cont (fun h' _ b' => b' = b /\ subnet_ready h' (transitName b) /\ routes_acknowledged h' b)).
Proof.
  intros HC. unfold connect. lstep. eapply lwp_seq; [apply lwp_ensure_subnet; [done|right; right; by exists a]|].
  intros h1 [] b1 E1 [-> HT]. change (om_Name _) with (transitName b) in HT. assert (copy h1 b) as HC1 by by apply (copy_extends h).
  lstep. lstep. eapply (wp_mono _ _ _ _ (fun h' _ => extends h1 h')).
  2:{ unfold requireCapability. wstep. wstep; [by apply reads_ok|]. intros [crd|e] _; [|wstep; extending]. cbv zeta. wstep; wstep; extending. }
  intros h2 [[]|e] E2; [|apply lwp_unfinished; [by apply (like_extends h1), copy_like|by right; left]].
  destruct (lr_Gateway r) as [g|] eqn:Eg in |- *; [|by apply lwp_blocked, (like_extends h1), copy_like]. lstep.
  assert (copy h2 b) as HC2 by by apply (copy_extends h1).
  eapply (lwp_seq _ _ _ _ _ _ (fun h' _ b' => b' = b)).
  { apply lwp_or_blocked, lwp_lifted; [by apply copy_like|]. eapply wp_mono; [|by apply (wp_gateway_ensure r gone GC g)]. done. }
  intros h3 report b3 E3 ->. assert (copy h3 b) as HC3 by by apply (copy_extends h2).
  eapply lwp_seq; [by apply lwp_or_fail, lwp_gatewayReport|]. intros h4 changed b4 E4 [_ H]. lstep; [done|].
  destruct (H eq_refl) as [-> _]. assert (copy h4 b) as HC4 by by apply (copy_extends h3).
  lstep; [apply lwp_unfinished; [by apply copy_like|by right; left]|]. cbv zeta.
  lstep; [apply lwp_unfinished; [by apply copy_like|by right; left]|]. apply Nat.ltb_ge in Ec1. set (hops := List.filter _ _) in *.
  eapply (lwp_seq _ _ _ _ _ _ (fun h' x b' => b' = b /\ (fst x = false -> snd x = true -> routes_acknowledged h' b))).
  { apply lwp_or_blocked. lstep. apply lwp_lifted; [by apply copy_like|]. eapply wp_mono; [|by apply wp_routes].
    intros h' x Hx a' E. split; [done|]. intros Hf Ht. destruct (Hx a' E Hf Ht) as (plan & o & H1 & H2 & H3). by exists hops, plan, o. }
  intros h5 x b5 E5 [-> HR]. lstep; [done|]. assert (like h5 b) as HL5 by by apply (like_extends h4), copy_like.
  lstep; [by apply lwp_unfinished; [|right; left]|]. lstep; [by apply lwp_unfinished; [|right; left]|]. lstep.
  apply negb_false_iff in Ec3. split; [done|]. split; [apply (subnet_ready_extends h1); [extending|done]|auto].
Qed.

Lemma lwp_realize b h : copy h b -> nb_Deleting (nb_Spec b) = false -> lwp R (realize r) b h (cont (fun _ _ _ => True)).
Proof.
  intros HC HD. unfold realize. lstep. eapply lwp_seq.
  { apply (lwp_each _ (fun _ _ => True)); [done..|]. intros h' s HC' _. lstep; [|by lstep].
    apply lwp_check_empty; [done|by right; left|done]. }
  intros h1 [] b1 E1 [-> _]. assert (copy h1 b) as HC1 by by apply (copy_extends h). cbv zeta.
  eapply (lwp_seq _ _ _ _ _ _ (fun h' gn b' => copy h' b' /\ (gn = true -> b' = b))).
  { lstep; [by lstep|]. apply lwp_or_blocked. by apply (lwp_disconnect r gone GC). }
  intros h2 gn b2 E2 [HC2 H]. lstep; [apply lwp_unfinished; [by apply copy_like|by right; left]|].
  apply negb_false_iff in Ec. rewrite (H Ec) in *. clear H b2.
  eapply (lwp_seq _ _ _ _ _ _ (fun h' _ b' => copy h' b')).
  { apply lwp_or_blocked. unfold lwp. wstep. eapply wp_mono; [|by apply wp_extends, wp_allocate_copy].
    intros h' [[a b']|e] [HE H]; wstep; [done|]. by apply (like_extends h2), copy_like. }
  intros h3 a b' E3 HC3. cbv zeta. assert (copy h3 b) as HC3' by by apply (copy_extends h2).
  lstep; [by apply lwp_blocked, copy_like|]. lstep; [by apply lwp_blocked, copy_like|]. lstep.
  eapply (lwp_seq _ _ _ _ _ _ (fun h' _ b'' => b'' = b')); [apply lwp_unless_changed|].
  { eapply lwp_mono; [|apply lwp_ensure; [done|left; by exists a, (is_cross b)]]. intros h' [c|e] b'' H5; [|done]. intros ->. by apply H5. }
  intros h4 [] b4 E4 ->. assert (copy h4 b') as HC4 by by apply (copy_extends h3). eapply lwp_seq.
  { apply (lwp_each _ (fun h' s => bs_Deleting s = false -> subnet_ready h' (bs_NativeSubnetName s))); [done| |].
    - intros h' h'' s HE H5 Hs. by eapply subnet_ready_extends, H5.
    - intros h' s HC' Hs. by apply lwp_ensure_workload. }
  intros h5 [] b5 E5 [-> HW]. assert (copy h5 b') as HC5 by by apply (copy_extends h4).
  eapply (lwp_seq _ _ _ _ _ _ (fun h' _ b'' => b'' = b' /\ (is_cross b = true -> subnet_ready h' (transitName b') /\ routes_acknowledged h' b'))).
  { lstep; [|by lstep]. eapply lwp_mono; [|by apply lwp_connect]. intros h' [y|[]] b'' H5; [done|]. destruct H5 as [-> H5]. by split. }
  intros h6 [] b6 E6 [-> HX]. assert (copy h6 b') as HC6 by by apply (copy_extends h5). eapply lwp_seq.
  { apply (lwp_each _ (fun h' s => bs_Deleting s = true -> no_native h' "Subnet" (bs_NativeSubnetName s))); [done| |].
    - intros h' h'' s HE H5 Hs. by eapply no_native_extends, H5.
    - intros h' s HC' Hs. by apply lwp_retire_subnet. }
  intros h7 [] b7 E7 [-> HT]. assert (copy h7 b') as HC7 by by apply (copy_extends h6).
  apply lwp_state; [by exists b'|]. right; right; right. split; [done|]. split; [|done| |done].
  - exists b. split; [apply (copy_extends h3); [extending|done]|]. split; [done|]. intros Hx. destruct (HX Hx) as [H5 H6].
    split; [by apply (subnet_ready_extends h6)|by apply (routes_acknowledged_extends h6)].
  - intros s Hs Hd. apply (subnet_ready_extends h5); [extending|auto].
Qed.

(** ** The handler *)

Lemma lwp_reconcile_binding b h : copy h b -> lwp R (reconcile_binding r) b h (cont (fun _ _ _ => True)).
Proof.
  intros HC. unfold reconcile_binding. lstep. lstep; [by apply lwp_blocked, copy_like|].
  eapply (lwp_seq _ _ _ _ _ _ (fun h' _ b' => b' = b)).
  { apply lwp_or_fail, lwp_lifted; [by apply copy_like|]. wstep; [by apply reads_ok|]. done. }
  intros h1 ns b1 E1 ->. assert (copy h1 b) as HC1 by by apply (copy_extends h).
  lstep; [by apply lwp_blocked, copy_like|]. eapply lwp_seq; [by apply lwp_recover|]. intros h2 [] b2 E2 [-> HS].
  assert (copy h2 b) as HC2 by by apply (copy_extends h1). lstep. lstep; [by apply lwp_remove|by apply lwp_realize].
Qed.

Lemma local_obeys ns name : obeys R (LocalReconciler.Reconcile r ns name).
Proof.
  apply (wp_obeys _ _ (fun _ _ => True)). unfold LocalReconciler.Reconcile. wstep. wstep; [by apply reads_ok|]. intros x _.
  destruct (found x) as [[b|]|e] eqn:Ef; [|done..]. apply found_some in Ef. subst x.
  wstep; [done|]. wstep. eapply wp_mono; [|apply lwp_reconcile_binding; left; exists ns, name; apply asked_snoc]. done.
Qed.

(** ** The safety of a pass *)

(** C10: native networks are made once and never taken from another owner.
    Wherever a pass stops, every native object it created is one that the binding's
    snapshot wants, of a name that the local API answered does not exist and the
    binding has no receipt of; every native object it changed was read as labelled
    with the binding's UID and agrees with the UID recorded for it, and keeps its
    identity and metadata; and the pass writes nothing on the authority. *)
Theorem native_writes_are_guarded ns name h p' h1 :
  exec (LocalReconciler.Reconcile r ns name) h p' ->
  (forall v k o, called h h1 (Create Local (KNative v k) o) -> v = kubeovn /\ k = un_Kind o /\
     exists b, copy h1 b /\ wanted r b o /\ no_native h1 k (om_Name (un_Meta o)) /\
       LocalReconciler.recorded b k (om_Name (un_Meta o)) = false) /\
  (forall v k o', called h h1 (Update Local (KNative v k) o') -> v = kubeovn /\
     exists b o, copy h1 b /\ guarded h1 b k o /\ un_Meta o' = un_Meta o /\ un_Kind o' = un_Kind o /\ un_APIVersion o' = un_APIVersion o) /\
  (forall o, called h h1 o -> writes o = true ->
     match o with Create c _ _ | Update c _ _ | UpdateStatus c _ _ | Delete c _ _ _ _ => c = Local | _ => True end).
Proof.
  intros HX. pose proof (fun o HC => called_permitted _ _ _ _ h1 o (local_obeys ns name) HX HC) as HP. split; [|split].
  - intros v k o HC. destruct (HP _ HC) as [H|[H|H]]; [exact H|done|]. by destruct H as [?|[?|?]].
  - intros v k o HC. destruct (HP _ HC) as [H|[H|H]]; [exact H|done|]. by destruct H as [?|[?|?]].
  - intros o HC _. destruct (HP _ HC) as [H|[H|H]]; by destruct o as [| |[]|[]|[]|[]| | |].
Qed.

(** C3: a network that is wanted or in use is never deleted. Every native object
    a pass deletes was read under the binding's label and recorded UID and is
    deleted under the UID and version that were read; it is the Vpc of a tombstone,
    or a subnet that the binding's snapshot withdrew, after the pass saw no Pod that
    refers to it and no address allocated from it. *)
Theorem live_networks_are_kept ns name h p' h1 c v k nsp nm p :
  exec (LocalReconciler.Reconcile r ns name) h p' -> called h h1 (Delete c (KNative v k) nsp nm p) ->
  c = Local /\ v = kubeovn /\ exists b o, copy h1 b /\ guarded h1 b k o /\ nm = om_Name (un_Meta o) /\
    p = mkPre (Some (om_UID (un_Meta o))) (Some (om_ResourceVersion (un_Meta o))) /\
    (k = "Vpc"%string /\ nb_Deleting (nb_Spec b) = true \/
     k = "Subnet"%string /\ exists name, asked h1 (Get Local (native_kind "Subnet") "" name) (Ok o) /\ withdrawn_subnet b name /\ unused h1 name).
Proof.
  intros HX HC. destruct (called_permitted _ _ _ _ _ _ (local_obeys ns name) HX HC) as [H|[H|H]]; [|by destruct c|].
  - destruct c; [done|]. destruct H as (kd & b & o & [= -> ->] & H1 & H2 & _ & H3 & H4 & H5). split; [done|]. split; [done|].
    exists b, o. do 4 (split; [done|]). destruct H5 as [?|[-> ?]]; [by left|by right].
  - destruct c; [done|]. by destruct H as [?|[?|?]].
Qed.

(** C12: completion is reported only from what the pass observed. Every
    status a pass writes is of its binding and keeps the phase and the applied
    revision it had, or reports an unfinished phase and keeps the applied revision,
    or is "Deleted" of a tombstone of which the Vpc, every recorded and every listed
    subnet and all gateways were seen to be absent, or is "Ready" of a live snapshot
    all of whose subnets were seen ready, withdrawn ones absent, and, across
    locations, whose transit subnet was ready and whose routes over at least two
    gateways were acknowledged under their plan hash. *)
Theorem completion_is_observed ns name h p' h1 c b :
  exec (LocalReconciler.Reconcile r ns name) h p' -> called h h1 (UpdateStatus c KBinding b) ->
  c = Local /\ version h1 b /\
  ((exists b0, copy h1 b0 /\ bt_Phase (nb_Status b) = bt_Phase (nb_Status b0) /\ bt_AppliedRevision (nb_Status b) = bt_AppliedRevision (nb_Status b0)) \/
   (In (bt_Phase (nb_Status b)) ["Blocked"; "Pending"; "Deleting"]%string /\
      exists b0, copy h1 b0 /\ bt_AppliedRevision (nb_Status b) = bt_AppliedRevision (nb_Status b0)) \/
   (bt_Phase (nb_Status b) = "Deleted"%string /\ cleaned_up r gone h1 b) \/
   (bt_Phase (nb_Status b) = "Ready"%string /\ connected h1 b)).
Proof.
  intros HX HC. destruct (called_permitted _ _ _ _ _ _ (local_obeys ns name) HX HC) as [H|[H|H]]; destruct c; try done.
Qed.
End pass.
