(* ===== verification/GatewayRegistry.v ===== *)
(** * [internal/managedgateway/registry.go]: gateway addresses and ports

    One digest-protected registry per installation holds the control address of
    every gateway link and health check and the WireGuard port of every link on its
    node. [registry] validates it against every published claim; [allocate] commits
    one more claim. *)
From S2P Require Import Prelude GoStd Json JsonDecode NetIP NetIPFacts SiteConfig Api Prog Kube PlatformPlan.
Open Scope Z_scope.

Definition componentLabel : string := "platform.globalvpc.io/component".
Definition ledgerData : string := "ledger.json".
Definition gatewayRegistryName : string := "managed-gateway-allocations".
Definition gatewayRegistryIdentityName : string := "managed-gateway-allocation-identity".
Definition gatewayRegistryDigest : string := "platform.globalvpc.io/gateway-allocation-digest".

(** [managedgateway.Reconciler]; the probe is a call of [Kube]. *)
Record GatewayReconciler := mkGW {
  gw_Namespace : string; gw_ClusterUID : string; gw_Image : string; gw_RuntimeDir : string;
  gw_EndpointAnnotation : string; gw_NodeSelector : gmap string string; gw_Replicas : Z; gw_MTU : Z;
  gw_AllocationPool : string; gw_PortStart : Z; gw_PortEnd : Z; gw_RolloutProbe : bool }.
Record member := mkMember { mb_Endpoint : GatewayEndpoint; mb_SecretName : string }.
Record ledger := mkGatewayLedger {
  lg_OwnerUID : string; lg_VPCUID : string; lg_Location : string; lg_TransitCIDR : string; lg_Profile : string;
  lg_Members : list member }.
Record allocationRegistry := mkRegistry {
  rg_ClusterUID : string; rg_Addresses : option (gmap string string); rg_Ports : option (gmap string Z) }.

(** ** JSON *)

Definition link_decoder : decoder GatewayLink := decode_struct
  [field "peerID" gl_PeerID (fun x l => mkLink x (gl_ListenPort l) (gl_TunnelIP l) (gl_ControlVNI l)) decode_string;
   field "listenPort" gl_ListenPort (fun x l => mkLink (gl_PeerID l) x (gl_TunnelIP l) (gl_ControlVNI l)) decode_int32;
   field "tunnelIP" gl_TunnelIP (fun x l => mkLink (gl_PeerID l) (gl_ListenPort l) x (gl_ControlVNI l)) decode_string;
   field "controlVNI" gl_ControlVNI (fun x l => mkLink (gl_PeerID l) (gl_ListenPort l) (gl_TunnelIP l) x) decode_uint32].
Definition noLink : GatewayLink := mkLink "" 0 "" 0.
Definition endpoint_decoder : decoder GatewayEndpoint := decode_struct
  [field "id" ge_ID (fun x g => mkEndpoint x (ge_NodeName g) (ge_NodeUID g) (ge_EndpointIP g) (ge_TransitIP g) (ge_PublicKey g) (ge_LocalASN g) (ge_HealthIP g) (ge_Links g) (ge_Ready g)) decode_string;
   field "nodeName" ge_NodeName (fun x g => mkEndpoint (ge_ID g) x (ge_NodeUID g) (ge_EndpointIP g) (ge_TransitIP g) (ge_PublicKey g) (ge_LocalASN g) (ge_HealthIP g) (ge_Links g) (ge_Ready g)) decode_string;
   field "nodeUID" ge_NodeUID (fun x g => mkEndpoint (ge_ID g) (ge_NodeName g) x (ge_EndpointIP g) (ge_TransitIP g) (ge_PublicKey g) (ge_LocalASN g) (ge_HealthIP g) (ge_Links g) (ge_Ready g)) decode_string;
   field "endpointIP" ge_EndpointIP (fun x g => mkEndpoint (ge_ID g) (ge_NodeName g) (ge_NodeUID g) x (ge_TransitIP g) (ge_PublicKey g) (ge_LocalASN g) (ge_HealthIP g) (ge_Links g) (ge_Ready g)) decode_string;
   field "transitIP" ge_TransitIP (fun x g => mkEndpoint (ge_ID g) (ge_NodeName g) (ge_NodeUID g) (ge_EndpointIP g) x (ge_PublicKey g) (ge_LocalASN g) (ge_HealthIP g) (ge_Links g) (ge_Ready g)) decode_string;
   field "publicKey" ge_PublicKey ge_with_PublicKey decode_string;
   field "localASN" ge_LocalASN (fun x g => mkEndpoint (ge_ID g) (ge_NodeName g) (ge_NodeUID g) (ge_EndpointIP g) (ge_TransitIP g) (ge_PublicKey g) x (ge_HealthIP g) (ge_Links g) (ge_Ready g)) decode_uint32;
   field "healthIP" ge_HealthIP (fun x g => mkEndpoint (ge_ID g) (ge_NodeName g) (ge_NodeUID g) (ge_EndpointIP g) (ge_TransitIP g) (ge_PublicKey g) (ge_LocalASN g) x (ge_Links g) (ge_Ready g)) decode_string;
   field "links" ge_Links ge_with_Links (decode_slice link_decoder noLink);
   field "ready" ge_Ready ge_with_Ready decode_bool].
Definition noEndpoint : GatewayEndpoint := mkEndpoint "" "" "" "" "" "" 0 "" [] false.
Definition member_json (m : member) : json :=
  fields [req "endpoint" (endpoint_json (mb_Endpoint m)); opt_str "secretName" (mb_SecretName m)].
Definition member_decoder : decoder member := decode_struct
  [field "endpoint" mb_Endpoint (fun x m => mkMember x (mb_SecretName m)) endpoint_decoder;
   field "secretName" mb_SecretName (fun x m => mkMember (mb_Endpoint m) x) decode_string].
Definition noMember : member := mkMember noEndpoint "".
Definition ledger_json (l : ledger) : json :=
  JObj [("OwnerUID", JStr (lg_OwnerUID l)); ("VPCUID", JStr (lg_VPCUID l)); ("Location", JStr (lg_Location l));
        ("TransitCIDR", JStr (lg_TransitCIDR l)); ("Profile", JStr (lg_Profile l));
        ("Members", match lg_Members l with [] => JNull | ms => JArr (map member_json ms) end)].
Definition ledger_decoder : decoder ledger := decode_struct
  [field "OwnerUID" lg_OwnerUID (fun x l => mkGatewayLedger x (lg_VPCUID l) (lg_Location l) (lg_TransitCIDR l) (lg_Profile l) (lg_Members l)) decode_string;
   field "VPCUID" lg_VPCUID (fun x l => mkGatewayLedger (lg_OwnerUID l) x (lg_Location l) (lg_TransitCIDR l) (lg_Profile l) (lg_Members l)) decode_string;
   field "Location" lg_Location (fun x l => mkGatewayLedger (lg_OwnerUID l) (lg_VPCUID l) x (lg_TransitCIDR l) (lg_Profile l) (lg_Members l)) decode_string;
   field "TransitCIDR" lg_TransitCIDR (fun x l => mkGatewayLedger (lg_OwnerUID l) (lg_VPCUID l) (lg_Location l) x (lg_Profile l) (lg_Members l)) decode_string;
   field "Profile" lg_Profile (fun x l => mkGatewayLedger (lg_OwnerUID l) (lg_VPCUID l) (lg_Location l) (lg_TransitCIDR l) x (lg_Members l)) decode_string;
   field "Members" lg_Members (fun x l => mkGatewayLedger (lg_OwnerUID l) (lg_VPCUID l) (lg_Location l) (lg_TransitCIDR l) (lg_Profile l) x) (decode_slice member_decoder noMember)].
Definition noGatewayLedger : ledger := mkGatewayLedger "" "" "" "" "" [].
Definition decode_ledger (raw : string) : option ledger := UnmarshalInto ledger_decoder noGatewayLedger raw.
Definition encode_ledger (l : ledger) : string := Marshal (ledger_json l).
Definition registry_json (g : allocationRegistry) : json :=
  JObj [("ClusterUID", JStr (rg_ClusterUID g)); ("Addresses", opt_map_json JStr (rg_Addresses g)); ("Ports", opt_map_json JInt (rg_Ports g))].
Definition registry_decoder : decoder allocationRegistry := decode_struct
  [field "ClusterUID" rg_ClusterUID (fun x g => mkRegistry x (rg_Addresses g) (rg_Ports g)) decode_string;
   field "Addresses" rg_Addresses (fun x g => mkRegistry (rg_ClusterUID g) x (rg_Ports g)) (decode_map decode_string "");
   field "Ports" rg_Ports (fun x g => mkRegistry (rg_ClusterUID g) (rg_Addresses g) x) (decode_map decode_int 0)].
Definition noRegistry : allocationRegistry := mkRegistry "" None None.

(** ** The retained registry *)

(** A validated registry: both maps are there. *)
Record claims := mkClaims { cl_Addresses : gmap string string; cl_Ports : gmap string Z }.

Definition registryDigest (raw : string) : string := sha256_hex raw.
Definition storeRegistry (cluster : string) (cm : ConfigMap) (g : claims) : ConfigMap :=
  let body := Marshal (registry_json (mkRegistry cluster (Some (cl_Addresses g)) (Some (cl_Ports g)))) in
  mkConfigMap (set_Annotations (<[gatewayRegistryDigest := registryDigest body]> (om_Annotations (cm_Meta cm))) (cm_Meta cm))
    (cm_Immutable cm) (<[ledgerData := body]> ∅).

Fixpoint check_addresses (pool : NetIP.Prefix) (seen : gset string) (l : list (string * string)) : bool :=
  match l with
  | [] => true
  | (claim, ip) :: rest =>
      is_ok (Host ip pool) && negb (claim =? "")%string && negb (bool_decide (ip ∈ seen)) &&
      check_addresses pool ({[ip]} ∪ seen) rest
  end.
Fixpoint check_ports (r : GatewayReconciler) (addresses : gmap string string) (seen : gset string) (l : list (string * Z)) : bool :=
  match l with
  | [] => true
  | (claim, port) :: rest =>
      match cut_byte "/" claim with
      | None => false
      | Some (node, key) =>
          let identity := (node ++ "/" ++ Itoa port)%string in
          negb (node =? "")%string && negb (key =? "")%string && negb (port <? gw_PortStart r) && negb (gw_PortEnd r <? port) &&
          negb (bool_decide (identity ∈ seen)) && negb (get addresses key =? "")%string &&
          check_ports r addresses ({[identity]} ∪ seen) rest
      end
  end.

Definition decodeRegistry (r : GatewayReconciler) (cm : ConfigMap) : res claims :=
  let raw := get (cm_Data cm) ledgerData in
  let invalid := Errorf "GatewayAllocationRegistryInvalid: corrupt or foreign registry requires fenced recovery" in
  match UnmarshalInto registry_decoder noRegistry raw with
  | Some (mkRegistry cluster (Some addresses) (Some ports)) =>
      reject (om_UID (cm_Meta cm) =? "")%string ||
             negb (get (om_Labels (cm_Meta cm)) componentLabel =? "gateway-allocator")%string ||
             negb (get (om_Annotations (cm_Meta cm)) gatewayRegistryDigest =? registryDigest raw)%string ||
             negb (cluster =? gw_ClusterUID r)%string with invalid ;;
      match Prefix (gw_AllocationPool r) with
      | Err _ => Err (Errorf "invalid gateway allocation pools")
      | Ok pool =>
          reject (gw_PortStart r <? 1024) || (65535 <? gw_PortEnd r) || (gw_PortEnd r <? gw_PortStart r)
            with Errorf "invalid gateway allocation pools" ;;
          reject negb (check_addresses pool ∅ (map_to_list addresses))
            with Errorf "GatewayAllocationRegistryInvalid: duplicate or invalid retained address" ;;
          reject negb (check_ports r addresses ∅ (map_to_list ports))
            with Errorf "GatewayAllocationRegistryInvalid: duplicate, orphaned or invalid retained port" ;;
          Ok (mkClaims addresses ports)
      end
  | _ => Err invalid
  end.

(** ** Published claims *)

Definition link_claimed (g : claims) (profile prefix node : string) (l : GatewayLink) : res unit :=
  let key := (prefix ++ "/" ++ gl_PeerID l)%string in
  reject (gl_PeerID l =? "")%string || (gl_TunnelIP l =? "")%string || negb (get (cl_Addresses g) key =? gl_TunnelIP l)%string
    with Errorf "GatewayAllocationReceiptMismatch: member control address disagrees with retained registry" ;;
  reject (profile =? "wireguard-bgp")%string &&
         ((gl_ListenPort l =? 0) || negb (default 0 (cl_Ports g !! (node ++ "/" ++ key)%string) =? gl_ListenPort l))
    with Errorf "GatewayAllocationReceiptMismatch: member port disagrees with retained registry" ;;
  Ok tt.
Fixpoint links_claimed (g : claims) (profile prefix node : string) (ls : list GatewayLink) : res unit :=
  match ls with
  | [] => Ok tt
  | l :: ls => _ <-? link_claimed g profile prefix node l ;; links_claimed g profile prefix node ls
  end.
Fixpoint validateGatewayClaims (g : claims) (owner profile : string) (gateways : list GatewayEndpoint) : res unit :=
  match gateways with
  | [] => Ok tt
  | e :: rest =>
      let prefix := (owner ++ "/" ++ ge_ID e)%string in
      reject (owner =? "")%string || (ge_ID e =? "")%string || (ge_NodeUID e =? "")%string ||
             negb (get (cl_Addresses g) (prefix ++ "/health")%string =? ge_HealthIP e)%string || (ge_HealthIP e =? "")%string
        with Errorf "GatewayAllocationReceiptMismatch: member health identity disagrees with retained registry" ;;
      _ <-? links_claimed g profile prefix (ge_NodeUID e) (ge_Links e) ;;
      validateGatewayClaims g owner profile rest
  end.
Fixpoint validate_all (check : NetworkBinding -> res unit) (bs : list NetworkBinding) : res unit :=
  match bs with [] => Ok tt | b :: bs => _ <-? check b ;; validate_all check bs end.
Fixpoint validate_ledgers (g : claims) (ls : list ledger) : res unit :=
  match ls with
  | [] => Ok tt
  | l :: ls => _ <-? validateGatewayClaims g (lg_OwnerUID l) (lg_Profile l) (map mb_Endpoint (lg_Members l)) ;; validate_ledgers g ls
  end.
Definition binding_claims (g : claims) (b : NetworkBinding) : res unit :=
  validateGatewayClaims g (om_UID (nb_Meta b)) (nb_TransportProfile (nb_Spec b)) (bt_Gateways (nb_Status b)).

Definition gatewayStatusEvidence (namespace : string) (b : NetworkBinding) : bool :=
  negb (List.length (bt_Gateways (nb_Status b)) =? 0)%nat ||
  existsb (fun rec => (rr_Namespace rec =? namespace)%string && HasPrefix (rr_Name rec) "pg-" &&
                      bool_decide (rr_Kind rec ∈ ["ConfigMap"; "Secret"; "Pod"])) (bt_Resources (nb_Status b)).

(** The loop over the ConfigMaps of the namespace: the member ledgers, and whether
    there is any trace of an earlier installation. *)
Definition gateway_shaped (cm : ConfigMap) : bool :=
  negb ((om_Name (cm_Meta cm) =? gatewayRegistryName)%string || (om_Name (cm_Meta cm) =? gatewayRegistryIdentityName)%string) &&
  ((get (om_Labels (cm_Meta cm)) componentLabel =? "gateway")%string || HasPrefix (om_Name (cm_Meta cm)) "pg-").
Definition controller_ref (uid : string) (ref : OwnerReference) : bool :=
  (or_UID ref =? uid)%string && (or_Kind ref =? "NetworkBinding")%string && (or_APIVersion ref =? GroupVersion)%string &&
  match or_Controller ref with Some true => true | _ => false end.
Fixpoint member_ledgers (evidence : bool) (ledgers : list ledger) (cms : list ConfigMap) : res (bool * list ledger) :=
  match cms with
  | [] => Ok (evidence, ledgers)
  | cm :: rest =>
      if negb (gateway_shaped cm) then member_ledgers evidence ledgers rest
      else match cm_Data cm !! ledgerData with
           | None => member_ledgers true ledgers rest
           | Some raw =>
               match decode_ledger raw with
               | None => Err (Errorf "GatewayAllocationReceiptMismatch: invalid member ledger")
               | Some l =>
                   reject (lg_OwnerUID l =? "")%string || negb (om_Name (cm_Meta cm) =? "pg-" ++ Short (lg_OwnerUID l))%string ||
                          negb (get (om_Labels (cm_Meta cm)) OwnerLabel =? lg_OwnerUID l)%string ||
                          negb (get (om_Labels (cm_Meta cm)) componentLabel =? "gateway")%string
                     with Errorf "GatewayAllocationReceiptMismatch: invalid member ledger" ;;
                   reject negb (existsb (controller_ref (lg_OwnerUID l)) (om_OwnerReferences (cm_Meta cm)))
                     with Errorf "GatewayAllocationReceiptMismatch: member ledger ownership changed" ;;
                   member_ledgers true (ledgers ++ [l]) rest
               end
           end
  end.

(** ** [registry] and [allocate] *)

Section registry.
Context {RT : Retry}.
Variable r : GatewayReconciler.

Definition new_registry : ConfigMap :=
  storeRegistry (gw_ClusterUID r)
    (mkConfigMap (newMeta gatewayRegistryName (gw_Namespace r) (<[componentLabel := "gateway-allocator"]> ∅) ∅) None ∅)
    (mkClaims ∅ ∅).
Definition new_registry_identity (uid : string) : ConfigMap :=
  mkConfigMap (newMeta gatewayRegistryIdentityName (gw_Namespace r) (<[componentLabel := "gateway-allocator-identity"]> ∅) ∅)
    (Some true) (<["clusterUID" := gw_ClusterUID r]> (<["registryUID" := uid]> ∅)).
Definition registry_identity_ok (identity : ConfigMap) (uid : string) : bool :=
  negb (om_UID (cm_Meta identity) =? "")%string &&
  match cm_Immutable identity with Some true => true | _ => false end &&
  (get (om_Labels (cm_Meta identity)) componentLabel =? "gateway-allocator-identity")%string &&
  (get (cm_Data identity) "clusterUID" =? gw_ClusterUID r)%string &&
  (get (cm_Data identity) "registryUID" =? uid)%string.

(** A create that lost a race reports a conflict, to be retried. *)
Definition create_raced (cm : ConfigMap) (message : string) : kprog (res ConfigMap) :=
  x <- kcreate Local KConfigMap cm ;;
  match x with
  | Ok cm => Ret (Ok cm)
  | Err e => Ret (Err (if IsAlreadyExists e then ErrAPI Conflict message else e))
  end.

(** Every trace of an earlier installation, with the member ledgers and bindings. *)
Definition survey (extra : list NetworkBinding) : kprog (res (bool * list ledger * list NetworkBinding)) :=
  cms <-! klist Local KConfigMap (InNamespace (gw_Namespace r)) ;;
  bindings <-! klist Local KBinding (InNamespace (gw_Namespace r)) ;;
  found <-! Ret (member_ledgers false [] cms) ;;
  pods <-! klist Local KPod (InNamespace (gw_Namespace r)) ;;
  keys <-! klist Local KSecret (mkSel (Some (gw_Namespace r)) (<[componentLabel := "gateway"]> ∅)) ;;
  let evidence := fst found || existsb (gatewayStatusEvidence (gw_Namespace r)) bindings ||
                  existsb (gatewayStatusEvidence (gw_Namespace r)) extra ||
                  existsb (fun p : Pod => (get (om_Labels (pd_Meta p)) componentLabel =? "gateway")%string ||
                                          HasPrefix (om_Name (pd_Meta p)) "pg-") pods ||
                  negb (List.length (keys : list Secret) =? 0)%nat in
  Ret (Ok (evidence, snd found, bindings)).

Definition open_registry (identity : option ConfigMap) (evidence bootstrap : bool) : kprog (res (option ConfigMap)) :=
  found <-! kfind Local KConfigMap (gw_Namespace r) gatewayRegistryName ;;
  match found with
  | Some cm => Ret (Ok (Some cm))
  | None =>
      stop bool_decide (identity <> None) || evidence
        with Errorf "GatewayAllocationRegistryLost: retained identity or member receipts require fenced recovery" ;;
      if negb bootstrap then Ret (Ok None)
      else cm <-! create_raced new_registry "allocator bootstrap raced" ;; Ret (Ok (Some cm))
  end.
Definition open_registry_identity (identity : option ConfigMap) (evidence : bool) (cm : ConfigMap) (g : claims)
    : kprog (res ConfigMap) :=
  match identity with
  | Some i => Ret (Ok i)
  | None =>
      stop negb (size (cl_Addresses g) =? 0)%nat || negb (size (cl_Ports g) =? 0)%nat || evidence
        with Errorf "GatewayAllocationIdentityLost: retained reservations require fenced recovery" ;;
      create_raced (new_registry_identity (om_UID (cm_Meta cm))) "allocator identity bootstrap raced"
  end.

(** [None]: there is no registry yet and none may be created. *)
Definition registry (bootstrap : bool) (extra : list NetworkBinding) : kprog (res (option (ConfigMap * claims))) :=
  s <-! survey extra ;;
  let '(evidence, ledgers, bindings) := s in
  identity <-! kfind Local KConfigMap (gw_Namespace r) gatewayRegistryIdentityName ;;
  opened <-! open_registry identity evidence bootstrap ;;
  match opened with
  | None => Ret (Ok None)
  | Some cm =>
      g <-! Ret (decodeRegistry r cm) ;;
      i <-! open_registry_identity identity evidence cm g ;;
      stop negb (registry_identity_ok i (om_UID (cm_Meta cm)))
        with Errorf "GatewayAllocationIdentityChanged: registry UID changed; fenced recovery required" ;;
      _ <-! Ret (validate_ledgers g ledgers) ;;
      _ <-! Ret (validate_all (binding_claims g) bindings) ;;
      _ <-! Ret (validate_all (binding_claims g) extra) ;;
      Ret (Ok (Some (cm, g)))
  end.

(** The first free port of a node, and the first free address of the pool. *)
Fixpoint free_port (taken : gset Z) (n : nat) (v : Z) : option Z :=
  match n with
  | O => None
  | S n => if bool_decide (v ∈ taken) then free_port taken n (v + 1) else Some v
  end.
Definition node_ports (g : claims) (node : string) : gset Z :=
  list_to_set (map snd (List.filter (fun kv => HasPrefix (fst kv) (node ++ "/")) (map_to_list (cl_Ports g)))).
Fixpoint free_address (pool : NetIP.Prefix) (taken : gset string) (n : nat) (ip : Addr) : option string :=
  match n with
  | O => None
  | S n => if IsValid ip && Contains pool (Next ip)
           then if bool_decide (AddrString ip ∈ taken) then free_address pool taken n (Next ip) else Some (AddrString ip)
           else None
  end.

(** The claim of [key] ([port]: on [node]) in a registry: the retained one, or a
    fresh one with the registry to store. *)
Inductive choice := Kept (value : string) | Fresh (value : string) (g : claims) | NoChoice (e : error).
Definition exhausted : choice := NoChoice (Errorf "gateway allocation pool exhausted").
Definition choose_claim (g : claims) (key : string) (port : bool) (node : string) : choice :=
  if port then
    if (get (cl_Addresses g) key =? "")%string then NoChoice (Errorf "gateway port needs a retained link address")
    else
      let claim := (node ++ "/" ++ key)%string in
      match cl_Ports g !! claim with
      | Some v => Kept (Itoa v)
      | None =>
          match free_port (node_ports g node) (Z.to_nat (gw_PortEnd r - gw_PortStart r + 1)) (gw_PortStart r) with
          | Some v => Fresh (Itoa v) (mkClaims (cl_Addresses g) (<[claim := v]> (cl_Ports g)))
          | None => exhausted
          end
      end
  else
    match cl_Addresses g !! key with
    | Some v => Kept v
    | None =>
        let pool := ParsePrefix_ (gw_AllocationPool r) in
        match free_address pool (list_to_set (map snd (map_to_list (cl_Addresses g))))
                (Z.to_nat (2 ^ (32 - pbits pool))) (Next (paddr pool)) with
        | Some ip => Fresh ip (mkClaims (<[key := ip]> (cl_Addresses g)) (cl_Ports g))
        | None => exhausted
        end
    end.

(** One attempt: read, choose, commit. *)
Definition allocate_once (key : string) (port : bool) (node : string) : kprog (res string) :=
  found <-! registry true [] ;;
  match found with
  | None => Ret (Err (Errorf "unreachable: bootstrap creates the registry"))
  | Some (cm, g) =>
      match choose_claim g key port node with
      | NoChoice e => Ret (Err e)
      | Kept v => Ret (Ok v)
      | Fresh v g' => _ <-! kupdate Local KConfigMap (storeRegistry (gw_ClusterUID r) cm g') ;; Ret (Ok v)
      end
  end.

Definition allocate (key : string) (port : bool) (node : string) : kprog (res string) :=
  stop (key =? "")%string || (port && ((node =? "")%string || match cut_byte "/" node with Some _ => true | None => false end))
    with Errorf "gateway allocation identity is empty or invalid" ;;
  RetryOnConflict 10 (allocate_once key port node).
End registry.
