(* ===== verification/GatewayRegistryFacts.v ===== *)
(** * What the gateway registry promises

    An accepted registry gives no address twice and no port twice on a node; a
    retained claim is answered as it is; a fresh claim extends the registry, and the
    registry written with it is read back. *)
From S2P Require Import Prelude GoStd Json JsonFacts JsonDecode NetIP NetIPFacts SiteConfig Api Prog Kube PlatformPlan GatewayRegistry.
Open Scope Z_scope.

(** ** Accepted registries *)

Section registry.
Variables (r : GatewayReconciler) (pool : NetIP.Prefix).

(** The port of a claim on its node, as the reader tells ports apart. *)
Definition port_identity (claim : string) (port : Z) : string :=
  match cut_byte "/" claim with
  | Some (node, _) => (node ++ "/" ++ Itoa port)%string
  | None => ""
  end.
Lemma port_identity_eq node key port : no_slash node = true ->
  port_identity (node ++ "/" ++ key) port = (node ++ "/" ++ Itoa port)%string.
Proof. intros Hn. unfold port_identity. by rewrite (proj2 (cut_slash _ node key)). Qed.
Definition address_ok (claim ip : string) : Prop := claim <> ""%string /\ is_ok (Host ip pool) = true.
Definition port_ok (addresses : gmap string string) (claim : string) (port : Z) : Prop :=
  exists node key, claim = (node ++ "/" ++ key)%string /\ no_slash node = true /\ node <> ""%string /\ key <> ""%string /\
    gw_PortStart r <= port <= gw_PortEnd r /\ get addresses key <> ""%string.

Record registry_ok (g : claims) : Prop := {
  ro_address : forall claim ip, cl_Addresses g !! claim = Some ip -> address_ok claim ip;
  ro_addresses : tells_apart (fun _ ip => ip) (cl_Addresses g);
  ro_port : forall claim port, cl_Ports g !! claim = Some port -> port_ok (cl_Addresses g) claim port;
  ro_ports : tells_apart port_identity (cl_Ports g) }.

Lemma check_addresses_spec seen l : check_addresses pool seen l = true <->
  (forall claim ip, In (claim, ip) l -> address_ok claim ip) /\ distinct_from snd seen l.
Proof.
  revert seen. induction l as [|[claim ip] l IH]; intros seen; cbn [check_addresses].
  - unfold distinct_from. simpl. split; [|done]. intros _. split; [done|]. split; [constructor|done].
  - rewrite !andb_true_iff, IH, distinct_from_cons, !negb_true_iff, String.eqb_neq, bool_decide_eq_false.
    unfold address_ok. simpl. split.
    + intros (((H1 & H2) & H3) & H4 & H5). split; [|done]. intros c i [[= <- <-]|Hin]; auto.
    + intros (H1 & H2 & H3). destruct (H1 claim ip (or_introl eq_refl)). auto 10.
Qed.

Lemma check_ports_spec addresses seen l : check_ports r addresses seen l = true <->
  (forall claim port, In (claim, port) l -> port_ok addresses claim port) /\
  distinct_from (fun kv => port_identity (fst kv) (snd kv)) seen l.
Proof.
  revert seen. induction l as [|[claim port] l IH]; intros seen; cbn [check_ports].
  - unfold distinct_from. simpl. split; [|done]. intros _. split; [done|]. split; [constructor|done].
  - rewrite distinct_from_cons. cbn [fst snd]. destruct (cut_byte "/" claim) as [[node key]|] eqn:Ec.
    + apply cut_slash in Ec as [-> Hn]. rewrite (port_identity_eq _ _ _ Hn).
      rewrite !andb_true_iff, IH, !negb_true_iff, !String.eqb_neq, bool_decide_eq_false, !Z.ltb_ge. split.
      * intros [[[[[[H1 H2] H3] H4] H5] H6] [H7 H8]]. split; [|done].
        intros c p [[= <- <-]|Hin]; [by exists node, key|auto].
      * intros (H1 & H2 & H3). destruct (H1 _ _ (or_introl eq_refl)) as (n & k & E & Hn' & N1 & N2 & Hp & Ha).
        apply slash_inj in E as [-> ->]; [|done..]. split; [|split; [|done]]; [tauto|]. intros c p Hin. apply H1. by right.
    + split; [done|]. intros (H1 & _). destruct (H1 _ _ (or_introl eq_refl)) as (n & k & -> & Hn' & _).
      assert (cut_byte "/" (n ++ "/" ++ k) = Some (n, k)) as E by by apply cut_slash. by rewrite E in Ec.
Qed.

Lemma checks_ok g : check_addresses pool ∅ (map_to_list (cl_Addresses g)) = true /\
  check_ports r (cl_Addresses g) ∅ (map_to_list (cl_Ports g)) = true <-> registry_ok g.
Proof.
  rewrite check_addresses_spec, check_ports_spec, (distinct_from_map (fun _ ip => ip)), (distinct_from_map port_identity).
  split.
  - intros ((H1 & H2) & H3 & H4). split; [|done| |done].
    + intros c i Hc%elem_of_map_to_list%list_elem_of_In. by apply H1.
    + intros c p Hc%elem_of_map_to_list%list_elem_of_In. by apply H3.
  - intros [H1 H2 H3 H4]. split; (split; [|done]).
    + intros c i Hc%list_elem_of_In%elem_of_map_to_list. by apply H1.
    + intros c p Hc%list_elem_of_In%elem_of_map_to_list. by apply H3.
Qed.
End registry.

(** An accepted registry, its pool and its port range. *)
Record accepted (r : GatewayReconciler) (cm : ConfigMap) (g : claims) (pool : NetIP.Prefix) : Prop := {
  ac_pool : Prefix (gw_AllocationPool r) = Ok pool;
  ac_range : 1024 <= gw_PortStart r <= gw_PortEnd r /\ gw_PortEnd r <= 65535;
  ac_UID : om_UID (cm_Meta cm) <> ""%string;
  ac_label : get (om_Labels (cm_Meta cm)) componentLabel = "gateway-allocator"%string;
  ac_ok : registry_ok r pool g }.

Lemma decodeRegistry_ok r cm g : decodeRegistry r cm = Ok g -> exists pool, accepted r cm g pool.
Proof.
  unfold decodeRegistry. destruct (UnmarshalInto _ _ _) as [[cluster [addresses|] [ports|]]|]; try done.
  intros H. destruct (_ || _) eqn:E1 in H; [done|]. destruct (Prefix (gw_AllocationPool r)) as [pool|] eqn:EP; [|done].
  exists pool. destruct (_ || _) eqn:E2 in H; [done|]. destruct (check_addresses _ _ _) eqn:E3 in H; [|done].
  destruct (check_ports _ _ _ _) eqn:E4 in H; [|done]. injection H as <-. breflect.
  split; [done|lia|done|done|]. by apply checks_ok.
Qed.

(** ** A registry that is written can be read back *)

Section files.
Variables (r : GatewayReconciler) (cm : ConfigMap) (pool : NetIP.Prefix).

(** The names in a registry are ASCII, as Kubernetes UIDs and member IDs are. *)
Record names_ascii (g : claims) : Prop := {
  na_cluster : ascii_only (gw_ClusterUID r) = true;
  na_address : forall claim ip, cl_Addresses g !! claim = Some ip -> ascii_only claim = true;
  na_port : forall claim port, cl_Ports g !! claim = Some port -> ascii_only claim = true }.

Lemma decode_registry cluster A P : (forall claim port, P !! claim = Some port -> 0 <= port < 2 ^ 63) ->
  registry_decoder (registry_json (mkRegistry cluster (Some A) (Some P))) noRegistry = Some (mkRegistry cluster (Some A) (Some P)).
Proof.
  intros HP. unfold registry_decoder, registry_json, decode_struct, opt_map_json. cbn -[decode_map map_json].
  rewrite decode_map_json by done. cbn -[decode_map map_json]. rewrite decode_map_json; [done|].
  intros k v Hk. simpl. apply ParseInt_Itoa. by eapply HP.
Qed.

Lemma host_text ip : Prefix (gw_AllocationPool r) = Ok pool -> is_ok (Host ip pool) = true ->
  exists x, ip = AddrString (Addr4 x) /\ Contains pool (Addr4 x) = true.
Proof.
  intros HP. destruct (Host ip pool) as [a|] eqn:EH; [|done]. intros _. apply Prefix_ok in HP as (v & b & Hp & Hb & Hal & _).
  destruct (Host_ok _ _ _ _ _ Hp ltac:(lia) Hal EH) as (x & _ & -> & Hx & _). exists x. split; [done|].
  apply (Contains_range _ _ _ _ Hp). lia.
Qed.

Lemma read_written_registry g : accepted r cm g pool -> forall g', registry_ok r pool g' -> names_ascii g' ->
  decodeRegistry r (storeRegistry (gw_ClusterUID r) cm g') = Ok g'.
Proof.
  intros [HP HR HU HL _] g' HG [N1 N2 N3]. unfold decodeRegistry, storeRegistry.
  set (x := mkRegistry _ _ _).
  assert (UnmarshalInto registry_decoder noRegistry (Marshal (registry_json x)) = Some x) as EU.
  { unfold UnmarshalInto. rewrite Unmarshal_Marshal; [apply decode_registry|].
    - intros c p Hc. destruct (ro_port _ _ _ HG _ _ Hc) as (? & ? & _ & _ & _ & _ & ? & _). lia.
    - apply printable_obj. constructor; [done|]. constructor; [|constructor; [|constructor]]; (split; [done|]);
        apply printable_obj, printable_map_json; intros c v Hc; (split; [by eauto|]).
      + destruct (ro_address _ _ _ HG _ _ Hc) as [_ Hh]. destruct (host_text v HP Hh) as (y & -> & _). apply ascii_Addr4.
      + by eexists. }
  generalize dependent (Marshal (registry_json x)). intros raw EU. cbn [cm_Data cm_Meta om_UID om_Labels om_Annotations set_Annotations].
  rewrite !get_insert_eq, EU. subst x. cbv iota beta. rewrite HL, !String.eqb_refl, HP.
  apply String.eqb_neq in HU. rewrite HU. cbn [orb negb].
  assert ((gw_PortStart r <? 1024) || (65535 <? gw_PortEnd r) || (gw_PortEnd r <? gw_PortStart r) = false) as ->.
  { rewrite !orb_false_iff, !Z.ltb_ge. lia. }
  destruct (proj2 (checks_ok r pool g') HG) as [-> ->]. by destruct g'.
Qed.
End files.

(** ** Choosing *)

Lemma free_port_some taken n v w : free_port taken n v = Some w -> v <= w < v + Z.of_nat n /\ w ∉ taken.
Proof.
  revert v. induction n as [|n IH]; intros v; cbn [free_port]; [done|]. destruct (bool_decide (v ∈ taken)) eqn:E; breflect.
  - intros [H1 H2]%IH. split; [lia|done].
  - intros [= <-]. split; [lia|done].
Qed.
Lemma free_port_none taken n v : free_port taken n v = None -> forall w, v <= w < v + Z.of_nat n -> w ∈ taken.
Proof.
  revert v. induction n as [|n IH]; intros v; cbn [free_port]; [lia|]. destruct (bool_decide (v ∈ taken)) eqn:E; breflect; [|done].
  intros H w Hw. destruct (Z.eq_dec w v) as [->|]; [done|]. apply (IH _ H). lia.
Qed.

Section address.
Variables (pool : NetIP.Prefix) (v b : Z) (taken : gset string).
Hypothesis (Hp : prefix4 pool v b) (Hal : block v b = v).

(** The loop guard: there is an address after this one in the pool. *)
Lemma loop_guard x : v <= x < v + 2 ^ (32 - b) ->
  IsValid (Addr4 x) && Contains pool (Next (Addr4 x)) = (x <? v + 2 ^ (32 - b) - 1) /\
  (x < v + 2 ^ (32 - b) - 1 -> Next (Addr4 x) = Addr4 (x + 1)).
Proof.
  intros Hx. pose proof (block_u32 v b ltac:(destruct Hp; lia) (proj1 (proj2 Hp))) as [_ Hle]. rewrite Hal in Hle.
  pose proof (proj1 (proj2 Hp)) as Hv. unfold u32 in Hv.
  assert (x < v + 2 ^ (32 - b) - 1 -> Next (Addr4 x) = Addr4 (x + 1)) as HN by (intros; apply Next4; unfold u32; lia).
  split; [|done]. destruct (x <? _) eqn:E; breflect.
  - rewrite HN by done. simpl. apply (Contains_range _ _ _ _ Hp). lia.
  - simpl. destruct (x =? 4294967295) eqn:E2; [unfold Contains; by rewrite andb_false_r|]. apply not_true_iff_false.
    intros HC%(Contains_range _ _ _ _ Hp). lia.
Qed.

Lemma free_address_spec n x : v <= x < v + 2 ^ (32 - b) ->
  match free_address pool taken n (Addr4 x) with
  | Some ip => exists y, ip = AddrString (Addr4 y) /\ x <= y < v + 2 ^ (32 - b) - 1 /\ ip ∉ taken
  | None => v + 2 ^ (32 - b) - 1 - x <= Z.of_nat n -> forall y, x <= y < v + 2 ^ (32 - b) - 1 -> AddrString (Addr4 y) ∈ taken
  end.
Proof.
  revert x. induction n as [|n IH]; intros x Hx; cbn [free_address]; [lia|].
  destruct (loop_guard x Hx) as [-> HN]. destruct (x <? _) eqn:E; breflect; [|lia]. rewrite HN by done.
  destruct (bool_decide (_ ∈ taken)) eqn:Et; breflect; [|by exists x].
  specialize (IH (x + 1) ltac:(lia)). destruct (free_address _ _ _ _) as [ip|].
  - destruct IH as (y & -> & Hy & ?). exists y. split; [done|]. split; [lia|done].
  - intros Hn y Hy. destruct (Z.eq_dec y x) as [->|]; [done|]. apply IH; lia.
Qed.
End address.

(** The claim of a key: an address, or a port on a node. *)
Definition claimed (g : claims) (key : string) (port : bool) (node value : string) : Prop :=
  if port then exists p, cl_Ports g !! (node ++ "/" ++ key)%string = Some p /\ value = Itoa p
  else cl_Addresses g !! key = Some value.

Lemma node_ports_in g node p : p ∈ node_ports g node <-> exists key, cl_Ports g !! (node ++ "/" ++ key)%string = Some p.
Proof.
  unfold node_ports. rewrite elem_of_list_to_set, list_elem_of_In, in_map_iff. split.
  - intros ([c q] & <- & [Hc Hx]%filter_In). simpl in *. apply HasPrefix_spec in Hx as (key & ->). rewrite str_app_assoc in Hc.
    exists key. by apply elem_of_map_to_list, list_elem_of_In.
  - intros (key & Hk). exists (node ++ "/" ++ key, p)%string. split; [done|]. apply filter_In. split.
    + by apply list_elem_of_In, elem_of_map_to_list.
    + apply HasPrefix_spec. exists key. by rewrite str_app_assoc.
Qed.

Section choose.
Variables (r : GatewayReconciler) (pool : NetIP.Prefix).

Lemma fresh_port g node key p : registry_ok r pool g -> node <> ""%string -> no_slash node = true -> key <> ""%string ->
  get (cl_Addresses g) key <> ""%string -> gw_PortStart r <= p <= gw_PortEnd r -> p ∉ node_ports g node ->
  cl_Ports g !! (node ++ "/" ++ key)%string = None ->
  registry_ok r pool (mkClaims (cl_Addresses g) (<[(node ++ "/" ++ key)%string := p]> (cl_Ports g))).
Proof.
  intros [H1 H2 H3 H4] Hn Hs Hk Ha Hp Hf Hc. split; simpl; [done|done| |].
  - intros c q [[<- <-]|[N Hq]]%lookup_insert_Some; [by exists node, key|auto].
  - apply (tells_apart_insert port_identity); [done|done|done|]. intros c q Hq E.
    destruct (H3 _ _ Hq) as (n & k & -> & Hn' & _). rewrite !port_identity_eq in E by done.
    apply slash_inj in E as [-> E%Itoa_inj]; [|done..]. subst q. apply Hf, node_ports_in. eauto.
Qed.
Lemma fresh_address g key ip : registry_ok r pool g -> key <> ""%string -> is_ok (Host ip pool) = true ->
  (forall c i, cl_Addresses g !! c = Some i -> i <> ip) -> cl_Addresses g !! key = None -> ip <> ""%string ->
  registry_ok r pool (mkClaims (<[key := ip]> (cl_Addresses g)) (cl_Ports g)).
Proof.
  intros [H1 H2 H3 H4] Hk Hh Hf Hc Hi. split; simpl; [| | |done].
  - intros c i [[<- <-]|[N Hx]]%lookup_insert_Some; [done|auto].
  - apply (tells_apart_insert (fun _ ip => ip)); done.
  - intros c p Hp. destruct (H3 _ _ Hp) as (n & k & -> & Hs & Hn & Hk' & Hr & Ha). exists n, k. do 5 (split; [done|]).
    destruct (decide (key = k)) as [->|N]; [by rewrite get_insert_eq|by rewrite get_insert_ne].
Qed.

(** An address or port claim that can be asked for. *)
Definition claimable (key : string) (port : bool) (node : string) : Prop :=
  key <> ""%string /\ (port = true -> node <> ""%string /\ no_slash node = true).

(** The registry with one more claim. *)
Definition with_claim (g : claims) (key : string) (port : bool) (node value : string) (g' : claims) : Prop :=
  if port then exists p, value = Itoa p /\ g' = mkClaims (cl_Addresses g) (<[(node ++ "/" ++ key)%string := p]> (cl_Ports g))
  else g' = mkClaims (<[key := value]> (cl_Addresses g)) (cl_Ports g).

(** What a choice promises: the retained claim of the key, or a fresh value that no
    key holds, or that there is none. *)
Definition choice_ok (g : claims) (key : string) (port : bool) (node : string) (c : choice) : Prop :=
  match c with
  | Kept v => claimed g key port node v
  | Fresh v g' => (forall u, ~ claimed g key port node u) /\ (forall key', ~ claimed g key' port node v) /\
      with_claim g key port node v g' /\ registry_ok r pool g'
  | NoChoice _ =>
      if port then get (cl_Addresses g) key = ""%string \/
        forall p, gw_PortStart r <= p <= gw_PortEnd r -> exists key', claimed g key' true node (Itoa p)
      else forall x, is_ok (Host (AddrString (Addr4 x)) pool) = true -> u32 x ->
        exists key', claimed g key' false node (AddrString (Addr4 x))
  end.

Lemma choose_port_ok g key node : registry_ok r pool g -> claimable key true node ->
  choice_ok g key true node (choose_claim r g key true node).
Proof.
  intros HG [Hk HN]. destruct (HN eq_refl) as [Hn Hs]. unfold choose_claim. destruct (_ =? "")%string eqn:Ea; breflect; [by left|].
  destruct (cl_Ports g !! _) as [p|] eqn:Ep; [by exists p|].
  destruct (free_port _ _ _) as [p|] eqn:Ef.
  - apply free_port_some in Ef as [Hr Hf]. split; [|split; [|split]].
    + intros u (q & Hq & _). congruence.
    + intros k (q & Hq & E%Itoa_inj). subst q. apply Hf, node_ports_in. eauto.
    + by exists p.
    + apply fresh_port; try done. lia.
  - right. intros p Hp. apply (free_port_none _ _ _ Ef) in Hp || (assert (p ∈ node_ports g node) as Hi by (apply (free_port_none _ _ _ Ef); lia)).
    apply node_ports_in in Hi as (k & Hk'). exists k, p. done.
Qed.

Lemma choose_address_ok g key node : Prefix (gw_AllocationPool r) = Ok pool -> clear_of_link_local pool ->
  registry_ok r pool g -> claimable key false node -> choice_ok g key false node (choose_claim r g key false node).
Proof.
  intros HP HL HG [Hk _]. unfold choose_claim. destruct (cl_Addresses g !! key) as [ip|] eqn:Ei; [done|].
  rewrite (ParsePrefix_installed _ _ HP). pose proof HP as HP'. apply Prefix_ok in HP' as (v & b & Hp & Hb & Hal & _).
  assert (paddr pool = Addr4 v /\ pbits pool = b) as [Ev Eb] by (destruct Hp as (-> & _); done). rewrite Ev, Eb.
  pose proof (block_u32 v b ltac:(lia) (proj1 (proj2 Hp))) as [_ Hle]. rewrite Hal in Hle.
  pose proof (proj1 (proj2 Hp)) as Hv.
  assert (2 < 2 ^ (32 - b)) as Hpos by (change 2 with (2 ^ 1) at 1; apply Z.pow_lt_mono_r; lia).
  destruct (loop_guard pool v b Hp Hal v ltac:(lia)) as [_ HN]. rewrite HN by lia.
  set (taken := list_to_set _ : gset string).
  assert (forall ip, ip ∈ taken <-> exists k, cl_Addresses g !! k = Some ip) as HT.
  { intros ip. unfold taken. rewrite elem_of_list_to_set, list_elem_of_In, in_map_iff. split.
    - intros ([k i] & <- & Hi). exists k. by apply elem_of_map_to_list, list_elem_of_In.
    - intros (k & Hi). exists (k, ip). split; [done|]. by apply list_elem_of_In, elem_of_map_to_list. }
  pose proof (free_address_spec pool v b taken Hp Hal (Z.to_nat (2 ^ (32 - b))) (v + 1) ltac:(lia)) as HF.
  destruct (free_address _ _ _ _) as [ip|].
  - destruct HF as (y & -> & Hy & Hf). split; [congruence|]. split; [|split; [done|]].
    + intros k Hk'. apply Hf, HT. eauto.
    + apply fresh_address; try done.
      * rewrite (Host_accepts _ _ _ _ Hp); [done|lia|done|lia|]. apply (Prefix_unicast_clear _ _ _ HP HL).
        apply (Contains_range _ _ _ _ Hp). lia.
      * intros c i Hi ->. apply Hf, HT. eauto.
      * intros E. pose proof (ParseAddr_string y ltac:(unfold u32 in *; lia)) as HS. rewrite E in HS. by vm_compute in HS.
  - intros x Hx Hu. destruct (Host _ _) as [a|] eqn:EH; [|done].
    destruct (Host_ok _ _ _ _ _ Hp ltac:(lia) Hal EH) as (x' & _ & E & Hr & _).
    apply AddrString_inj in E as ->; [|done|unfold u32 in *; lia]. apply HT, HF; lia.
Qed.
End choose.

Lemma choose_claim_ok r pool g key port node : Prefix (gw_AllocationPool r) = Ok pool -> clear_of_link_local pool ->
  registry_ok r pool g -> claimable key port node -> choice_ok r pool g key port node (choose_claim r g key port node).
Proof. intros. destruct port; [by apply choose_port_ok|by apply choose_address_ok]. Qed.

Lemma with_claim_ascii r g key port node v g' : names_ascii r g -> ascii_only key = true -> ascii_only node = true ->
  with_claim g key port node v g' -> names_ascii r g'.
Proof.
  intros [H1 H2 H3] Hk Hn HW. destruct port; [destruct HW as (p & _ & ->)|rewrite HW]; split; simpl; try done.
  - intros c q [[<- _]|[_ Hq]]%lookup_insert_Some; [|by eauto]. by repeat apply ascii_only_app.
  - intros c q [[<- _]|[_ Hq]]%lookup_insert_Some; [done|by eauto].
Qed.

(** ** Properties *)

(** C37: the claims of an accepted registry do not collide: no two keys hold one
    address, no two links of a node hold one port, every address is inside the
    pool, every port is unprivileged, in the configured range and belongs to a link
    that holds an address. *)
Theorem accepted_registries_do_not_collide r cm g : decodeRegistry r cm = Ok g ->
  (forall k1 k2 ip, cl_Addresses g !! k1 = Some ip -> cl_Addresses g !! k2 = Some ip -> k1 = k2) /\
  (forall node k1 k2 p, no_slash node = true -> cl_Ports g !! (node ++ "/" ++ k1)%string = Some p ->
     cl_Ports g !! (node ++ "/" ++ k2)%string = Some p -> k1 = k2) /\
  (forall k ip, cl_Addresses g !! k = Some ip -> exists pool x, Prefix (gw_AllocationPool r) = Ok pool /\
     ip = AddrString (Addr4 x) /\ Contains pool (Addr4 x) = true) /\
  (forall c p, cl_Ports g !! c = Some p -> 1024 <= p <= 65535 /\ gw_PortStart r <= p <= gw_PortEnd r /\
     exists node key, c = (node ++ "/" ++ key)%string /\ no_slash node = true /\ get (cl_Addresses g) key <> ""%string).
Proof.
  intros (pool & [HP HR _ _ HG])%decodeRegistry_ok. split; [|split; [|split]].
  - intros k1 k2 ip H1 H2. exact (ro_addresses _ _ _ HG _ _ _ _ H1 H2 eq_refl).
  - intros node k1 k2 p Hn H1 H2. assert (node ++ "/" ++ k1 = node ++ "/" ++ k2)%string as E.
    { apply (ro_ports _ _ _ HG _ _ _ _ H1 H2). by rewrite !port_identity_eq. }
    by apply slash_inj in E as [_ E].
  - intros k ip Hk. destruct (ro_address _ _ _ HG _ _ Hk) as [_ Hh]. destruct (host_text _ pool _ HP Hh) as (x & -> & Hx). eauto.
  - intros c p Hc. destruct (ro_port _ _ _ HG _ _ Hc) as (node & key & -> & Hs & _ & _ & Hr & Ha). split; [lia|]. split; [done|]. eauto.
Qed.

(** A retained claim is answered as it is; a fresh claim gives a value no
    key of an address, or of a port on the node, holds, and the registry stored with
    it is read back as the old registry with exactly that claim; there is no choice
    only for a port of a link without an address, or when the pool or the port
    range is exhausted. *)
Theorem choices_extend_the_registry r cm g pool key port node :
  decodeRegistry r cm = Ok g -> Prefix (gw_AllocationPool r) = Ok pool -> clear_of_link_local pool ->
  claimable key port node -> names_ascii r g -> ascii_only key = true -> ascii_only node = true ->
  match choose_claim r g key port node with
  | Kept v => claimed g key port node v
  | Fresh v g' => (forall u, ~ claimed g key port node u) /\ (forall key', ~ claimed g key' port node v) /\
      with_claim g key port node v g' /\ decodeRegistry r (storeRegistry (gw_ClusterUID r) cm g') = Ok g'
  | NoChoice _ =>
      if port then get (cl_Addresses g) key = ""%string \/
        forall p, gw_PortStart r <= p <= gw_PortEnd r -> exists key', claimed g key' true node (Itoa p)
      else forall x, is_ok (Host (AddrString (Addr4 x)) pool) = true -> u32 x ->
        exists key', claimed g key' false node (AddrString (Addr4 x))
  end.
Proof.
  intros HD HP HL HK HN Ha Hn. destruct (decodeRegistry_ok _ _ _ HD) as (pool' & HA).
  pose proof (ac_pool _ _ _ _ HA) as HP'. rewrite HP in HP'. injection HP' as <-.
  pose proof (choose_claim_ok _ _ _ _ _ _ HP HL (ac_ok _ _ _ _ HA) HK) as HC.
  destruct (choose_claim r g key port node) as [v|v g'|e]; [done| |done].
  destruct HC as (H1 & H2 & H3 & H4). do 3 (split; [done|]).
  apply (read_written_registry _ _ _ _ HA _ H4). exact (with_claim_ascii _ _ _ _ _ _ _ HN Ha Hn H3).
Qed.

(** * What allocating from the gateway registry promises

    [registry_permitted] is the contract of [allocate]: nothing is deleted, a
    registry is created only where there is no trace of an earlier one, and a value
    is handed out only once the registry holds it. *)

(** ** Published claims *)

(** A published gateway agrees with the registry. *)
Record published_in (g : claims) (owner profile : string) (e : GatewayEndpoint) : Prop := {
  pi_health : cl_Addresses g !! (owner ++ "/" ++ ge_ID e ++ "/health")%string = Some (ge_HealthIP e);
  pi_links : forall l, In l (ge_Links e) ->
    cl_Addresses g !! (owner ++ "/" ++ ge_ID e ++ "/" ++ gl_PeerID l)%string = Some (gl_TunnelIP l) /\
    (profile = "wireguard-bgp"%string ->
     cl_Ports g !! (ge_NodeUID e ++ "/" ++ owner ++ "/" ++ ge_ID e ++ "/" ++ gl_PeerID l)%string = Some (gl_ListenPort l)) }.

Lemma get_nonempty (m : gmap string string) k v : get m k = v -> v <> ""%string -> m !! k = Some v.
Proof. unfold get. intros <- H. by destruct (m !! k). Qed.

Lemma link_claimed_ok g profile prefix node l : link_claimed g profile prefix node l = Ok tt ->
  cl_Addresses g !! (prefix ++ "/" ++ gl_PeerID l)%string = Some (gl_TunnelIP l) /\
  (profile = "wireguard-bgp"%string -> cl_Ports g !! (node ++ "/" ++ prefix ++ "/" ++ gl_PeerID l)%string = Some (gl_ListenPort l)).
Proof.
  unfold link_claimed. intros H. follow H. breflect. split; [by apply get_nonempty|]. intros ->.
  match goal with X : (_ =? _)%string && _ = false |- _ => rewrite String.eqb_refl in X; cbn [andb] in X end. breflect.
  destruct (cl_Ports g !! _) as [p|]; simpl in *; congruence.
Qed.
Lemma links_claimed_ok g profile prefix node ls : links_claimed g profile prefix node ls = Ok tt ->
  forall l, In l ls -> link_claimed g profile prefix node l = Ok tt.
Proof.
  induction ls as [|l ls IH]; cbn [links_claimed]; [done|]. destruct (link_claimed _ _ _ _ l) as [[]|] eqn:E; [|done].
  intros H x [<-|Hx]; [done|]. by apply IH.
Qed.
Lemma validateGatewayClaims_ok g owner profile es : validateGatewayClaims g owner profile es = Ok tt ->
  forall e, In e es -> published_in g owner profile e.
Proof.
  induction es as [|e es IH]; cbn [validateGatewayClaims]; [done|]. destruct (_ || _) eqn:Ec; [done|].
  destruct (links_claimed _ _ _ _ _) as [[]|] eqn:El; [|done]. intros HV x [<-|Hx]; [|by apply IH]. breflect. split.
  - rewrite str_app_assoc in *. by apply get_nonempty.
  - intros l Hl. pose proof (links_claimed_ok _ _ _ _ _ El l Hl) as [HA HP]%link_claimed_ok. rewrite !str_app_assoc in *. done.
Qed.
Lemma validate_all_ok check bs : validate_all check bs = Ok tt -> forall b, In b bs -> check b = Ok tt.
Proof.
  induction bs as [|b bs IH]; cbn [validate_all]; [done|]. destruct (check b) as [[]|] eqn:E; [|done].
  intros H x [<-|Hx]; [done|]. by apply IH.
Qed.
Lemma validate_ledgers_ok g ls : validate_ledgers g ls = Ok tt ->
  forall l m, In l ls -> In m (lg_Members l) -> published_in g (lg_OwnerUID l) (lg_Profile l) (mb_Endpoint m).
Proof.
  induction ls as [|l ls IH]; cbn [validate_ledgers]; [done|]. destruct (validateGatewayClaims _ _ _ _) as [[]|] eqn:E; [|done].
  intros H x m [<-|Hx] Hm; [|by apply IH]. eapply validateGatewayClaims_ok; [exact E|]. by apply in_map.
Qed.

(** ** Traces of an earlier installation *)

Lemma member_ledgers_spec cms : forall ev ls ev' ls', member_ledgers ev ls cms = Ok (ev', ls') ->
  (ev' = false -> ev = false /\ forall cm, In cm cms -> gateway_shaped cm = false) /\
  (forall l, In l ls -> In l ls') /\
  (forall cm raw, In cm cms -> gateway_shaped cm = true -> cm_Data cm !! ledgerData = Some raw ->
     exists l, decode_ledger raw = Some l /\ In l ls').
Proof.
  induction cms as [|cm cms IH]; intros ev ls ev' ls'; cbn [member_ledgers]; [by intros [= <- <-]|].
  destruct (gateway_shaped cm) eqn:Eg; cbn [negb].
  - destruct (cm_Data cm !! ledgerData) as [raw|] eqn:Ed.
    + destruct (decode_ledger raw) as [l|] eqn:El; [|done]. destruct (_ || _); [done|]. destruct (negb (existsb _ _)); [done|].
      intros (H1 & H2 & H3)%IH. split; [by intros [? _]%H1|]. split; [intros x Hx; apply H2, in_app_iff; by left|].
      intros c raw' [<-|Hc]; [|by apply H3]. rewrite Ed. intros _ [= <-]. exists l. split; [done|]. apply H2, in_app_iff. right. by left.
    + intros (H1 & H2 & H3)%IH. split; [by intros [? _]%H1|]. split; [done|]. intros c raw' [<-|Hc]; [congruence|by apply H3].
  - intros (H1 & H2 & H3)%IH. split; [|split; [done|]].
    + intros [He Hs]%H1. split; [done|]. intros c [<-|Hc]; auto.
    + intros c raw' [<-|Hc]; [congruence|by apply H3].
Qed.

(** ** The contract *)

Section allocate.
Context {RT : Retry}.
Variable r : GatewayReconciler.
Let ns := gw_Namespace r.

(** The lists of one survey. *)
Record surveyed (h : history) (cms : list ConfigMap) (bs : list NetworkBinding) (pods : list Pod) (keys : list Secret) : Prop := {
  su_maps : asked h (ListObjects Local KConfigMap (InNamespace ns)) (Ok cms);
  su_bindings : asked h (ListObjects Local KBinding (InNamespace ns)) (Ok bs);
  su_pods : asked h (ListObjects Local KPod (InNamespace ns)) (Ok pods);
  su_keys : asked h (ListObjects Local KSecret (mkSel (Some ns) (<[componentLabel := "gateway"]> ∅))) (Ok keys) }.
(** Nothing of an earlier installation is listed: no gateway ConfigMap, no
    recorded or published gateway, no gateway Pod and no key. *)
Definition no_trace (h : history) : Prop := exists cms bs pods keys, surveyed h cms bs pods keys /\
  (forall cm, In cm cms -> gateway_shaped cm = false) /\
  (forall b, In b bs -> bt_Gateways (nb_Status b) = []) /\
  (forall p, In p pods -> get (om_Labels (pd_Meta p)) componentLabel <> "gateway"%string /\ HasPrefix (om_Name (pd_Meta p)) "pg-" = false) /\
  keys = [].
Definition absent (h : history) (name : string) : Prop :=
  exists x, asked h (Get Local KConfigMap ns name) x /\ found x = Ok None.
(** The registry of an attempt, read or just created. *)
Definition registry_in (h : history) (cm : ConfigMap) (g : claims) : Prop :=
  (asked h (Get Local KConfigMap ns gatewayRegistryName) (Ok cm) \/ asked h (Create Local KConfigMap (new_registry r)) (Ok cm)) /\
  decodeRegistry r cm = Ok g.
(** Every gateway that a listed binding publishes, and every member of a listed
    ledger, has its claims in the registry. *)
Definition agrees (h : history) (g : claims) : Prop := exists cms bs pods keys, surveyed h cms bs pods keys /\
  (forall b e, In b bs -> In e (bt_Gateways (nb_Status b)) -> published_in g (om_UID (nb_Meta b)) (nb_TransportProfile (nb_Spec b)) e) /\
  (forall cm raw, In cm cms -> gateway_shaped cm = true -> cm_Data cm !! ledgerData = Some raw ->
     exists l, decode_ledger raw = Some l /\
       forall m, In m (lg_Members l) -> published_in g (lg_OwnerUID l) (lg_Profile l) (mb_Endpoint m)).

(** The fresh claim of one attempt. *)
Definition commit (h : history) (key : string) (port : bool) (node value : string) (cm : ConfigMap) : Prop :=
  exists cm0 g g', registry_in h cm0 g /\ agrees h g /\ choose_claim r g key port node = Fresh value g' /\
    cm = storeRegistry (gw_ClusterUID r) cm0 g'.

(** The value is durable: the registry has it, or the write was answered. *)
Definition held (h : history) (key : string) (port : bool) (node value : string) : Prop :=
  (exists cm g, registry_in h cm g /\ agrees h g /\ claimed g key port node value) \/
  (exists cm stored, commit h key port node value cm /\ asked h (Update Local KConfigMap cm) (Ok stored)).

Definition registry_permitted (key : string) (port : bool) (node : string) (h : history) (o : op) : Prop :=
  match o with
  | Get Local _ _ _ | ListObjects Local _ _ => True
  | Create Local k x =>
      match k return object k -> Prop with
      | KConfigMap => fun cm => no_trace h /\ absent h gatewayRegistryIdentityName /\
          (cm = new_registry r /\ absent h gatewayRegistryName \/
           exists cm0 g, cm = new_registry_identity r (om_UID (cm_Meta cm0)) /\ registry_in h cm0 g /\ cl_Addresses g = ∅ /\ cl_Ports g = ∅)
      | _ => fun _ => False
      end x
  | Update Local k x =>
      match k return object k -> Prop with
      | KConfigMap => fun cm => exists value, commit h key port node value cm
      | _ => fun _ => False
      end x
  | _ => False
  end.

Section attempt.
Variables (key : string) (port : bool) (node : string).
Let R := registry_permitted key port node.

Lemma surveyed_extends h h' cms bs pods keys : extends h h' -> surveyed h cms bs pods keys -> surveyed h' cms bs pods keys.
Proof. intros HE []. split; by eapply asked_extends. Qed.
Lemma no_trace_extends h h' : extends h h' -> no_trace h -> no_trace h'.
Proof. intros HE (c & b & p & k & HS & H). exists c, b, p, k. split; [by eapply surveyed_extends|done]. Qed.
Lemma absent_extends h h' name : extends h h' -> absent h name -> absent h' name.
Proof. intros HE (x & Ha & Hf). exists x. split; [by eapply asked_extends|done]. Qed.
Lemma registry_in_extends h h' cm g : extends h h' -> registry_in h cm g -> registry_in h' cm g.
Proof. intros HE [Hl Hr]. split; [|done]. destruct Hl; eauto using asked_extends. Qed.
Lemma agrees_extends h h' g : extends h h' -> agrees h g -> agrees h' g.
Proof. intros HE (c & b & p & k & HS & H). exists c, b, p, k. split; [by eapply surveyed_extends|done]. Qed.

Definition ledgers_read (cms : list ConfigMap) (ls : list ledger) : Prop :=
  forall cm raw, In cm cms -> gateway_shaped cm = true -> cm_Data cm !! ledgerData = Some raw ->
    exists l, decode_ledger raw = Some l /\ In l ls.

Lemma no_evidence h cms bs pods (keys : list Secret) extra ls : surveyed h cms bs pods keys ->
  member_ledgers false [] cms = Ok ls ->
  fst ls || existsb (gatewayStatusEvidence ns) bs || existsb (gatewayStatusEvidence ns) extra ||
    existsb (fun p : Pod => (get (om_Labels (pd_Meta p)) componentLabel =? "gateway")%string ||
                            HasPrefix (om_Name (pd_Meta p)) "pg-") pods || negb (List.length keys =? 0)%nat = false ->
  no_trace h.
Proof.
  intros HS HM HE. destruct ls as [ev ls]. apply member_ledgers_spec in HM as (HM & _). cbn [fst] in HE.
  apply orb_false_iff in HE as [HE HK]. apply orb_false_iff in HE as [HE HP]. apply orb_false_iff in HE as [HE _].
  apply orb_false_iff in HE as [HC HB]. destruct (HM HC) as [_ HG].
  exists cms, bs, pods, keys. split; [done|]. split; [done|]. split; [|split].
  - intros b Hb. pose proof (existsb_forall _ _ HB b Hb) as Hx. unfold gatewayStatusEvidence in Hx. breflect.
    by destruct (bt_Gateways (nb_Status b)).
  - intros p Hp. pose proof (existsb_forall _ _ HP p Hp) as Hx. cbv beta in Hx. by breflect.
  - by destruct keys.
Qed.

Lemma wp_survey h extra (Q : history -> res (bool * list ledger * list NetworkBinding) -> Prop) :
  (forall e h', extends h h' -> Q h' (Err e)) ->
  (forall ev ls bs h' cms pods keys, extends h h' -> surveyed h' cms bs pods keys -> (ev = false -> no_trace h') ->
     ledgers_read cms ls -> Q h' (Ok (ev, ls, bs))) ->
  wp any_answer R (survey r extra) h Q.
Proof.
  intros HE HQ. unfold survey. wstep. wstep; [done|]. intros [cms|e] _; [|apply HE; extending]. set (h1 := h ++ [_]).
  assert (extends h h1) as E1 by extending. assert (asked h1 (ListObjects Local KConfigMap (InNamespace ns)) (Ok cms)) as A1 by apply asked_snoc.
  wstep. wstep; [done|]. intros [bs|e] _; [|apply HE; extending]. set (h2 := h1 ++ [_]).
  assert (extends h1 h2) as E2 by extending. assert (asked h2 (ListObjects Local KBinding (InNamespace ns)) (Ok bs)) as A2 by apply asked_snoc.
  wstep. wstep. destruct (member_ledgers false [] cms) as [ls|e] eqn:Em; [|apply HE; extending].
  wstep. wstep; [done|]. intros [pods|e] _; [|apply HE; extending]. set (h3 := h2 ++ [_]). assert (extends h2 h3) as E3 by extending.
  assert (asked h3 (ListObjects Local KPod (InNamespace ns)) (Ok pods)) as A3 by apply asked_snoc.
  wstep. wstep; [done|]. intros [keys|e] _; [|apply HE; extending]. set (h4 := h3 ++ [_]). assert (extends h3 h4) as E4 by extending.
  assert (surveyed h4 cms bs pods keys) as HS.
  { split; [apply (asked_extends h1)|apply (asked_extends h2)|apply (asked_extends h3)|apply asked_snoc]; (done || extending). }
  wstep. apply (HQ _ _ _ _ cms pods keys); [extending|done| |].
  - intros HN. exact (no_evidence _ _ _ _ _ _ _ HS Em HN).
  - destruct ls as [ev ls]. apply member_ledgers_spec in Em as (_ & _ & H3). exact H3.
Qed.

Lemma wp_create_raced h cm message (Q : history -> res ConfigMap -> Prop) :
  R h (Create Local KConfigMap cm) -> (forall e h', extends h h' -> Q h' (Err e)) ->
  (forall stored h', extends h h' -> asked h' (Create Local KConfigMap cm) (Ok stored) -> Q h' (Ok stored)) ->
  wp any_answer R (create_raced cm message) h Q.
Proof.
  intros HR HE HQ. unfold create_raced. wstep. wstep; [done|]. intros [stored|e] _; wstep; [|apply HE; extending].
  apply HQ; [extending|apply asked_snoc].
Qed.

Lemma wp_open_registry h identity ev bootstrap (Q : history -> res (option ConfigMap) -> Prop) :
  (ev = false -> no_trace h) -> (identity = None -> absent h gatewayRegistryIdentityName) ->
  (forall e h', extends h h' -> Q h' (Err e)) -> (forall h', extends h h' -> bootstrap = false -> Q h' (Ok None)) ->
  (forall cm h', extends h h' -> (forall g, decodeRegistry r cm = Ok g -> registry_in h' cm g) -> Q h' (Ok (Some cm))) ->
  wp any_answer R (open_registry r identity ev bootstrap) h Q.
Proof.
  intros Hev Hi HE HN HQ. unfold open_registry. wstep. wstep; [done|]. intros x _. set (h1 := h ++ [_]).
  assert (extends h h1) as E1 by extending. destruct (found x) as [[cm|]|e] eqn:Ef; [| |by apply HE].
  - apply found_some in Ef. subst x. wstep. apply HQ; [done|]. intros g Hg. split; [left; apply asked_snoc|done].
  - wstep; [by apply HE|]. breflect. apply dec_stable in H. wstep; [apply HN; [done|by apply negb_true_iff]|].
    wstep. apply wp_create_raced; [|intros; apply HE; extending|].
    + simpl. split; [apply (no_trace_extends h); auto|]. split; [apply (absent_extends h); auto|]. left. split; [done|].
      exists x. split; [apply asked_snoc|done].
    + intros cm h2 E2 Ha. wstep. apply HQ; [extending|]. intros g Hg. split; [by right|done].
Qed.

Lemma wp_open_gateway_identity h identity ev cm g (Q : history -> res ConfigMap -> Prop) :
  (ev = false -> no_trace h) -> (identity = None -> absent h gatewayRegistryIdentityName) -> registry_in h cm g ->
  (forall x h', extends h h' -> Q h' x) ->
  wp any_answer R (open_registry_identity r identity ev cm g) h Q.
Proof.
  intros Hev Hi HG HQ. unfold open_registry_identity. destruct identity as [i|]; [apply HQ, extends_refl|].
  wstep; [apply HQ, extends_refl|]. breflect. apply wp_create_raced; [|intros; by apply HQ|intros; by apply HQ].
  simpl. split; [auto|]. split; [auto|]. right. exists cm, g. split; [done|]. split; [done|].
  split; apply map_size_empty_iff; done.
Qed.

(** What [registry] returns: a registry of this attempt that agrees with everything
    published, or nothing where none may be created. *)
Definition registry_answer (bootstrap : bool) (h : history) (x : res (option (ConfigMap * claims))) : Prop :=
  match x with
  | Ok (Some (cm, g)) => registry_in h cm g /\ agrees h g
  | Ok None => bootstrap = false
  | Err _ => True
  end.

Lemma wp_gateway_registry h bootstrap extra (Q : history -> res (option (ConfigMap * claims)) -> Prop) :
  (forall x h', extends h h' -> registry_answer bootstrap h' x -> Q h' x) ->
  wp any_answer R (registry r bootstrap extra) h Q.
Proof.
  intros HQ. assert (forall e h', extends h h' -> Q h' (Err e)) as HE by (intros; by apply HQ).
  unfold registry. wstep. apply wp_survey; [done|]. intros ev ls bs h1 cms pods keys E1 HS Hev HL.
  wstep. wstep; [done|]. intros x _. set (h2 := h1 ++ [_]). assert (extends h1 h2) as E2 by extending.
  destruct (found x) as [identity|e] eqn:Ef; [|apply HE; extending].
  assert (ev = false -> no_trace h2) as Hev2 by (intros; apply (no_trace_extends h1); auto).
  assert (identity = None -> absent h2 gatewayRegistryIdentityName) as Hi by (intros ->; exists x; split; [apply asked_snoc|done]).
  wstep. apply wp_open_registry; [done|done|intros; apply HE; extending|intros; wstep; apply HQ; [extending|done]|].
  intros cm h3 E3 HG. wstep. wstep. destruct (decodeRegistry r cm) as [g|e] eqn:Eg; [|apply HE; extending].
  specialize (HG g eq_refl). wstep.
  apply wp_open_gateway_identity; [intros; apply (no_trace_extends h2); auto|intros; apply (absent_extends h2); auto|done|].
  intros [i|e] h4 E4; [|apply HE; extending]. wstep; [apply HE; extending|].
  wstep. wstep. destruct (validate_ledgers g ls) as [[]|] eqn:E5; [|apply HE; extending].
  wstep. wstep. destruct (validate_all _ bs) as [[]|] eqn:E6; [|apply HE; extending].
  wstep. wstep. destruct (validate_all _ extra) as [[]|] eqn:E7; [|apply HE; extending].
  wstep. apply HQ; [extending|]. split; [by apply (registry_in_extends h3)|].
  exists cms, bs, pods, keys. split; [apply (surveyed_extends h1); [extending|done]|]. split.
  - intros b e Hb. exact (validateGatewayClaims_ok _ _ _ _ (validate_all_ok _ _ E6 b Hb) e).
  - intros c raw Hc Hs Hd. destruct (HL c raw Hc Hs Hd) as (l & Hl & Hin). exists l. split; [done|].
    intros m. exact (validate_ledgers_ok _ _ E5 l m Hin).
Qed.

Lemma held_extends h h' value : extends h h' -> held h key port node value -> held h' key port node value.
Proof.
  intros HE [(cm & g & HG & HA & HC)|(cm & stored & (cm0 & g & g' & HG & HA & HC) & HU)].
  - left. exists cm, g. split; [by apply (registry_in_extends h)|]. split; [by apply (agrees_extends h)|done].
  - right. exists cm, stored. split; [|by apply (asked_extends h)]. exists cm0, g, g'.
    split; [by apply (registry_in_extends h)|]. split; [by apply (agrees_extends h)|done].
Qed.

Definition allocated (h : history) (x : res string) : Prop :=
  match x with Ok value => held h key port node value | Err _ => True end.

Lemma choose_kept g value : claimable key port node -> choose_claim r g key port node = Kept value -> claimed g key port node value.
Proof.
  intros _. unfold choose_claim, claimed. destruct port.
  - destruct (_ =? "")%string; [done|]. destruct (cl_Ports g !! _) as [p|]; [|by destruct (free_port _ _ _)].
    intros [= <-]. by exists p.
  - destruct (cl_Addresses g !! key); [by intros [= ->]|by destruct (free_address _ _ _ _)].
Qed.

Lemma wp_allocate_once h : claimable key port node -> wp any_answer R (allocate_once r key port node) h (fun h' x => allocated h' x).
Proof.
  intros HK. unfold allocate_once. wstep. apply wp_gateway_registry. intros [[[cm g]|]|e] h1 E1 HA; [|done..]. destruct HA as [HG HA].
  destruct (choose_claim r g key port node) as [v|v g'|e] eqn:EC; [| |done].
  - left. exists cm, g. split; [done|]. split; [done|]. by apply choose_kept.
  - assert (forall h', extends h1 h' -> commit h' key port node v (storeRegistry (gw_ClusterUID r) cm g')) as HC.
    { intros h' E. exists cm, g, g'. split; [by apply (registry_in_extends h1)|]. split; [by apply (agrees_extends h1)|done]. }
    wstep. wstep; [exists v; apply HC, extends_refl|]. intros [stored|e] _; [|done]. wstep. right.
    exists (storeRegistry (gw_ClusterUID r) cm g'), stored. split; [apply HC; extending|apply asked_snoc].
Qed.
End attempt.

Lemma wp_gateway_allocate key port node h (Q : history -> res string -> Prop) :
  (forall x h', extends h h' -> allocated key port node h' x -> Q h' x) ->
  wp any_answer (registry_permitted key port node) (allocate r key port node) h Q.
Proof.
  intros HQ. unfold allocate. wstep; [apply HQ; [apply extends_refl|done]|]. assert (claimable key port node) as HK.
  { breflect. split; [done|]. intros ->. cbn [andb] in *. breflect. split; [done|].
    apply cut_slash_none. by destruct (cut_byte "/" node). }
  destruct (RetryOnConflict_attempts _ 10 (allocate_once r key port node)) as (n & ->).
  apply (wp_attempts _ _ (extends h)); [|apply extends_refl]. intros h1 E1.
  eapply wp_mono; [|by apply wp_extends, wp_allocate_once]. intros h2 x [E2 HA]. split; [apply HQ; [extending|done]|]. intros _. extending.
Qed.
Lemma gateway_allocate_obeys key port node : obeys (registry_permitted key port node) (allocate r key port node).
Proof. apply (wp_obeys _ _ (fun _ _ => True)). by apply wp_gateway_allocate. Qed.

(** C13: gateway addresses and ports are handed out only once they are
    durable. In every execution, with any number of retries: a registry or its
    identity is created only if neither exists and no list shows a trace of an
    earlier installation; the only update adds one fresh claim of the asked key to
    a registry of this pass that holds the claims of every listed gateway and
    member ledger; nothing is deleted; and a returned value was in that registry or
    its write was answered. *)
Theorem gateway_claims_are_recorded_first key port node h p' :
  exec (allocate r key port node) h p' ->
  (forall h1 cm, called h h1 (Update Local KConfigMap cm) -> exists value, commit h1 key port node value cm) /\
  (forall h1 cm, called h h1 (Create Local KConfigMap cm) -> no_trace h1 /\ absent h1 gatewayRegistryIdentityName /\
     (cm = new_registry r /\ absent h1 gatewayRegistryName \/
      exists cm0 g, cm = new_registry_identity r (om_UID (cm_Meta cm0)) /\ registry_in h1 cm0 g /\ cl_Addresses g = ∅ /\ cl_Ports g = ∅)) /\
  (forall h1 c k nsp nm p, ~ called h h1 (Delete c k nsp nm p)) /\
  (forall value, p' = Ret (Ok value) -> held h key port node value).
Proof.
  intros HX. split; [|split; [|split]].
  - intros h1 cm HC. exact (called_permitted _ _ _ _ _ _ (gateway_allocate_obeys key port node) HX HC).
  - intros h1 cm HC. exact (called_permitted _ _ _ _ _ _ (gateway_allocate_obeys key port node) HX HC).
  - intros h1 c k nsp nm p HC. exact (called_permitted _ _ _ _ _ _ (gateway_allocate_obeys key port node) HX HC).
  - intros value ->. exact (wp_ret_exec any_answer _ _ _ _ _ (wp_gateway_allocate key port node [] (allocated key port node) (fun _ _ _ H => H)) HX (answered_any _ _)).
Qed.
End allocate.
