(* ===== verification/X25519.v ===== *)
(** * [crypto/ecdh] X25519 and base64 encoding, as the gateway keys use them *)
From S2P Require Import Prelude GoStd.
Open Scope Z_scope.

(** [base64.StdEncoding.EncodeToString] *)
Definition base64_char (v : Z) : ascii :=
  if v <? 26 then byte_of (65 + v) else if v <? 52 then byte_of (71 + v) else if v <? 62 then byte_of (v - 4)
  else if v =? 62 then byte_of 43 else byte_of 47.
Fixpoint base64_encode (l : list Z) : string :=
  match l with
  | [] => ""
  | [x] => String (base64_char (Z.shiftr x 2)) (String (base64_char (Z.shiftl (Z.land x 3) 4)) "==")
  | [x; y] =>
      String (base64_char (Z.shiftr x 2)) (String (base64_char (Z.lor (Z.shiftl (Z.land x 3) 4) (Z.shiftr y 4)))
        (String (base64_char (Z.shiftl (Z.land y 15) 2)) "="))
  | x :: y :: z :: rest =>
      String (base64_char (Z.shiftr x 2)) (String (base64_char (Z.lor (Z.shiftl (Z.land x 3) 4) (Z.shiftr y 4)))
        (String (base64_char (Z.lor (Z.shiftl (Z.land y 15) 2) (Z.shiftr z 6))) (String (base64_char (Z.land z 63)) (base64_encode rest))))
  end.

(** RFC 7748: the Montgomery ladder on the base point 9. *)
Definition p25519 : Z := 2 ^ 255 - 19.
Definition fmul (a b : Z) : Z := (a * b) mod p25519.
Definition fadd (a b : Z) : Z := (a + b) mod p25519.
Definition fsub (a b : Z) : Z := (a - b) mod p25519.

Definition ladder_step (x1 x2 z2 x3 z3 : Z) : Z * Z * Z * Z :=
  let a := fadd x2 z2 in let aa := fmul a a in
  let b := fsub x2 z2 in let bb := fmul b b in
  let e := fsub aa bb in
  let c := fadd x3 z3 in let d := fsub x3 z3 in
  let da := fmul d a in let cb := fmul c b in
  let s := fadd da cb in let t := fsub da cb in
  (fmul aa bb, fmul e (fadd aa (fmul 121665 e)), fmul s s, fmul x1 (fmul t t)).
(** [n] more bits of the scalar, from bit [n - 1] down. *)
Fixpoint ladder (k x1 : Z) (n : nat) (x2 z2 x3 z3 : Z) : Z * Z :=
  match n with
  | O => (x2, z2)
  | S n =>
      if Z.testbit k (Z.of_nat n)
      then let '(x3, z3, x2, z2) := ladder_step x1 x3 z3 x2 z2 in ladder k x1 n x2 z2 x3 z3
      else let '(x2, z2, x3, z3) := ladder_step x1 x2 z2 x3 z3 in ladder k x1 n x2 z2 x3 z3
  end.
(** [n] squarings-and-multiplications of [a ^ e]. *)
Fixpoint fpow (a e : Z) (n : nat) (acc : Z) : Z :=
  match n with
  | O => acc
  | S n => let acc := fmul acc acc in fpow a e n (if Z.testbit e (Z.of_nat n) then fmul acc a else acc)
  end.
Fixpoint of_le (l : list Z) : Z := match l with [] => 0 | b :: l => b + 256 * of_le l end.
Fixpoint to_le (n : nat) (z : Z) : list Z := match n with O => [] | S n => z mod 256 :: to_le n (z / 256) end.
Definition clamp (k : Z) : Z := Z.lor (Z.land k (2 ^ 255 - 1 - 7)) (2 ^ 254).
(** [ecdh.X25519().NewPrivateKey(raw)] checks the length; [PublicKey().Bytes()]. *)
Definition x25519_public (raw : list Z) : option (list Z) :=
  if negb (List.length raw =? 32)%nat then None
  else
    let '(x, z) := ladder (clamp (of_le raw)) 9 255 1 0 9 1 in
    Some (to_le 32 (fmul x (fpow z (p25519 - 2) 255 1))).
