(* ===== verification/GatewayRender.v ===== *)
(** * [internal/managedgateway/render.go]: the runtime configuration of one gateway

    [render] turns a snapshot, an attachment and the member ledger into the JSON a
    gateway process reads, or reports that a peer has not published its half of a
    link yet. *)
From S2P Require Import Prelude GoStd Json JsonDecode NetIP NetIPFacts SiteConfig Api Prog Kube PlatformPlan GatewayRegistry.
Open Scope Z_scope.

Record Attachment := mkAttachment {
  at_TransitCIDR : string; at_RouterIP : string; at_BFDSourceIP : string; at_MemberIPs : list string }.

Definition peerID (location id : string) : string := (location ++ "/" ++ id)%string.

Definition ipv4 (s : string) : bool :=
  match ParseAddr s with Some ip => Is4 ip && (AddrString ip =? s)%string | None => false end.
Definition findLink (links : list GatewayLink) (id : string) : option GatewayLink :=
  List.find (fun l => (gl_PeerID l =? id)%string) links.

(** [base64.StdEncoding.DecodeString]: padded, standard alphabet; line breaks are
    skipped, anything else is an error. *)
Definition base64_val (c : ascii) : option Z :=
  let v := byte_val c in
  if (65 <=? v) && (v <=? 90) then Some (v - 65)
  else if (97 <=? v) && (v <=? 122) then Some (v - 71)
  else if (48 <=? v) && (v <=? 57) then Some (v + 4)
  else if v =? 43 then Some 62
  else if v =? 47 then Some 63
  else None.
Fixpoint skip_newlines (s : string) : string :=
  match s with
  | EmptyString => EmptyString
  | String c s => if (byte_val c =? 10) || (byte_val c =? 13) then skip_newlines s else String c (skip_newlines s)
  end.
Fixpoint base64_groups (fuel : nat) (s : string) : option (list Z) :=
  match fuel with
  | O => None
  | S fuel =>
      match s with
      | EmptyString => Some []
      | String a (String b (String c (String d rest))) =>
          match base64_val a, base64_val b with
          | Some x, Some y =>
              let b0 := Z.lor (Z.shiftl x 2) (Z.shiftr y 4) in
              match base64_val c, base64_val d with
              | Some z, Some w =>
                  match base64_groups fuel rest with
                  | Some l => Some (b0 :: Z.lor (Z.shiftl (Z.land y 15) 4) (Z.shiftr z 2) :: Z.lor (Z.shiftl (Z.land z 3) 6) w :: l)
                  | None => None
                  end
              | Some z, None =>
                  if (byte_val d =? 61) && (String.length rest =? 0)%nat
                  then Some [b0; Z.lor (Z.shiftl (Z.land y 15) 4) (Z.shiftr z 2)] else None
              | None, None =>
                  if (byte_val c =? 61) && (byte_val d =? 61) && (String.length rest =? 0)%nat then Some [b0] else None
              | None, Some _ => None
              end
          | _, _ => None
          end
      | _ => None
      end
  end.
Definition base64_decode (s : string) : option (list Z) :=
  let s := skip_newlines s in base64_groups (S (String.length s)) s.

(** What [render] gives: an error, an incomplete configuration, or the document. *)
Inductive rendered := Broken (e : error) | Incomplete | Rendered (config : json).

Section render.
Variable r : GatewayReconciler.
Variable b : NetworkBinding.
Variable a : Attachment.
Variable l : ledger.
Variable m : member.
Let spec := nb_Spec b.
Let self := mb_Endpoint m.

Definition local_cidrs : list string :=
  sort_strings (map bs_CIDR (List.filter (fun s => negb (bs_Deleting s)) (nb_Subnets spec))).
Definition bridge_name : string := ("pt-" ++ Short (oi_UID (nb_VPCRef spec) ++ "/" ++ nb_LocationRef spec))%string.

(** A [map[string]any] is an object with sorted keys. *)
Definition gateway_section (cidrs : list string) : json :=
  JObj [("attachmentID", JStr (om_Name (nb_Meta b)));
        ("bfd", JObj [("minRX", JInt 300); ("minTX", JInt 300); ("multiplier", JInt 3); ("sourceIP", JStr (at_BFDSourceIP a))]);
        ("cidr", JStr (List.hd "" cidrs)); ("cidrs", JArr (map JStr cidrs)); ("gatewayID", JStr (ge_ID self));
        ("gatewayIP", JStr (ge_TransitIP self)); ("globalVpcID", JStr (nb_NativeVpcName spec));
        ("ownerUID", JStr (om_UID (nb_Meta b))); ("routerIP", JStr (at_RouterIP a)); ("siteID", JStr (nb_LocationRef spec));
        ("transitCIDR", JStr (at_TransitCIDR a)); ("transitName", JStr bridge_name); ("version", JStr "v2");
        ("vpcName", JStr (nb_NativeVpcName spec))].
Definition siblings : list json :=
  map (fun s => JObj [("id", JStr (ge_ID (mb_Endpoint s))); ("ip", JStr (ge_TransitIP (mb_Endpoint s)))])
    (List.filter (fun s => negb (ge_ID (mb_Endpoint s) =? ge_ID self)%string) (lg_Members l)).

Definition sorted_peers : list PeerGateway :=
  sort_by_key (fun p => peerID (pg_LocationRef p) (ge_ID (pg_Endpoint p))) (nb_Peers spec).
Definition peer_prefixes (p : PeerGateway) : list string :=
  sort_strings (map rs_CIDR (List.filter (fun s => (rs_LocationRef s =? pg_LocationRef p)%string) (nb_RemoteSubnets spec))).

Definition link_ok (local remote : GatewayLink) : bool :=
  ipv4 (gl_TunnelIP local) && ipv4 (gl_TunnelIP remote) && negb (gl_TunnelIP local =? gl_TunnelIP remote)%string &&
  (1024 <=? gl_ListenPort local) && (gl_ListenPort local <=? 65535) &&
  (1024 <=? gl_ListenPort remote) && (gl_ListenPort remote <=? 65535).
Definition native_ok (local remote : GatewayLink) : bool :=
  (gl_ListenPort local =? gl_ListenPort remote) && negb (gl_ControlVNI local =? 0) && (gl_ControlVNI local <=? 16777215) &&
  (gl_ControlVNI local =? gl_ControlVNI remote) && negb (gl_ControlVNI local =? nb_NetworkID spec).
Definition wireguard_key_ok (key : string) : bool :=
  match base64_decode key with Some bytes => (List.length bytes =? 32)%nat | None => false end.

Definition opt_member (c : bool) (k : string) (j : json) : list (string * json) := if c then [(k, j)] else [].
Definition link_section (p : PeerGateway) (id localID : string) (prefixes : list string) (local remote : GatewayLink) : json :=
  let wireguard := (nb_TransportProfile spec =? "wireguard-bgp")%string in
  let vxlan := (nb_TransportProfile spec =? "vxlan-evpn")%string in
  JObj ([("asn", JInt (ge_LocalASN (pg_Endpoint p))); ("delegatedPrefixes", JArr (map JStr prefixes));
         ("endpoint", JStr (ge_EndpointIP (pg_Endpoint p) ++ ":" ++ Itoa (gl_ListenPort remote)));
         ("id", JStr (Short (localID ++ "/" ++ id))); ("listenPort", JInt (gl_ListenPort local));
         ("localTunnelIP", JStr (gl_TunnelIP local))] ++
        opt_member wireguard "publicKey" (JStr (ge_PublicKey (pg_Endpoint p))) ++
        [("remoteAttachmentID", JStr (pg_LocationRef p))] ++
        opt_member vxlan "remoteHealthIP" (JStr (ge_HealthIP (pg_Endpoint p))) ++
        [("remoteSiteID", JStr (pg_LocationRef p)); ("tunnelIP", JStr (gl_TunnelIP remote))] ++
        opt_member (negb wireguard) "vni" (JInt (gl_ControlVNI local))).

(** The loop over the peers: the links, and the locations they reach. *)
Inductive linked := LinkError (e : error) | LinkWaiting | Links (links : list json) (locations : gset string).
Fixpoint render_links (seen : gset string) (links : list json) (locations : gset string) (peers : list PeerGateway) : linked :=
  match peers with
  | [] => Links links locations
  | p :: rest =>
      let id := peerID (pg_LocationRef p) (ge_ID (pg_Endpoint p)) in
      let localID := peerID (nb_LocationRef spec) (ge_ID self) in
      if bool_decide (id ∈ seen) || (pg_LocationRef p =? nb_LocationRef spec)%string ||
         negb (bool_decide (pg_LocationRef p ∈ default [] (nb_AuthorizedLocations spec)))
      then LinkError (Errorf "duplicate or unauthorized remote gateway")
      else
        match peer_prefixes p with
        | [] => render_links ({[id]} ∪ seen) links locations rest
        | prefixes =>
            if negb (ipv4 (ge_EndpointIP (pg_Endpoint p))) || negb (ipv4 (ge_HealthIP (pg_Endpoint p))) ||
               (ge_LocalASN (pg_Endpoint p) <? 4200000000) || (ge_LocalASN (pg_Endpoint p) =? nb_LocalASN spec)
            then LinkError (Errorf "invalid remote endpoint identity")
            else
              match findLink (ge_Links self) id, findLink (ge_Links (pg_Endpoint p)) localID with
              | Some local, Some remote =>
                  if negb (link_ok local remote) then LinkError (Errorf "invalid reciprocal link allocation")
                  else if (nb_TransportProfile spec =? "wireguard-bgp")%string && negb (wireguard_key_ok (ge_PublicKey (pg_Endpoint p)))
                  then LinkError (Errorf "invalid public WireGuard key")
                  else if negb (nb_TransportProfile spec =? "wireguard-bgp")%string && negb (native_ok local remote)
                  then LinkError (Errorf "native peer allocations disagree")
                  else render_links ({[id]} ∪ seen) (links ++ [link_section p id localID prefixes local remote])
                         ({[pg_LocationRef p]} ∪ locations) rest
              | _, _ => LinkWaiting
              end
        end
  end.

(** The loop over the remote subnets. *)
Fixpoint check_remotes (cidrs : list string) (locations : gset string) (remotes : list RemoteSubnet) : rendered + unit :=
  match remotes with
  | [] => inr tt
  | s :: rest =>
      if negb (bool_decide (rs_LocationRef s ∈ locations)) then inl Incomplete
      else
        match ParsePrefix (rs_CIDR s) with
        | None => inl (Broken (Errorf "invalid remote subnet"))
        | Some p =>
            if negb (Is4 (paddr p)) || negb (bool_decide (p = Masked p)) then inl (Broken (Errorf "invalid remote subnet"))
            else if existsb (fun local => Overlaps p (ParsePrefix_ local)) cidrs
            then inl (Broken (Errorf "overlapping subnet ownership within a VPC"))
            else check_remotes cidrs locations rest
        end
  end.

Definition transport_base (links : list json) : list (string * json) :=
  [("links", JArr links); ("localASN", JInt (nb_LocalASN spec))].
(** The members of [transport], sorted, for each profile. *)
Definition transport_section (links : list json) : option json :=
  let common_tail := [("routerID", JStr (ge_HealthIP self)); ("siblings", JArr siblings)] in
  if (nb_TransportProfile spec =? "wireguard-bgp")%string then
    Some (JObj (transport_base links ++ [("mtu", JInt (gw_MTU r)); ("privateKeySecretName", JStr (mb_SecretName m));
                  ("profile", JStr (nb_TransportProfile spec))] ++ common_tail))
  else if (nb_TransportProfile spec =? "geneve-bgp")%string then
    Some (JObj (transport_base links ++ [("mtu", JInt (gw_MTU r)); ("profile", JStr (nb_TransportProfile spec))] ++ common_tail ++
                [("trustedUnderlay", JBool true); ("underlayIP", JStr (ge_EndpointIP self))]))
  else if (nb_TransportProfile spec =? "vxlan-evpn")%string then
    Some (JObj ([("healthIP", JStr (ge_HealthIP self))] ++ transport_base links ++
                [("localVtepIP", JStr (ge_EndpointIP self)); ("mtu", JInt (gw_MTU r)); ("profile", JStr (nb_TransportProfile spec));
                 ("routeDistinguisher", JStr (ge_HealthIP self ++ ":1"));
                 ("routeTarget", JStr ("64512:" ++ Itoa (nb_NetworkID spec)))] ++ common_tail ++
                [("trustedUnderlay", JBool true); ("vni", JInt (nb_NetworkID spec)); ("vxlanPort", JInt 4789)]))
  else None.

Definition render : rendered :=
  match local_cidrs with
  | [] => Incomplete
  | cidrs =>
      match render_links ∅ [] ∅ sorted_peers with
      | LinkError e => Broken e
      | LinkWaiting => Incomplete
      | Links links locations =>
          match check_remotes cidrs locations (nb_RemoteSubnets spec) with
          | inl x => x
          | inr _ =>
              if (nb_TransportProfile spec =? "vxlan-evpn")%string &&
                 ((nb_NetworkID spec =? 0) || (16777215 <? nb_NetworkID spec))
              then Broken (Errorf "native tenant VNI required")
              else match transport_section links with
                   | None => Broken (Errorf "unknown transport profile")
                   | Some transport =>
                       Rendered (JObj [("gateway", gateway_section cidrs); ("managedVersion", JStr "v1"); ("transport", transport)])
                   end
          end
      end
  end.
End render.

(** * When a gateway configuration is rendered, and what it says

    [renderable] states the conditions of the snapshot, the attachment and the ledger
    under which a gateway may run, [document] the configuration it runs with;
    [render] gives exactly that. *)

Section render.
Variables (r : GatewayReconciler) (b : NetworkBinding) (a : Attachment) (l : ledger) (m : member).
Let spec := nb_Spec b.
Let self := mb_Endpoint m.

Definition peer_id (p : PeerGateway) : string := peerID (pg_LocationRef p) (ge_ID (pg_Endpoint p)).
Definition local_id : string := peerID (nb_LocationRef spec) (ge_ID self).
Definition served (p : PeerGateway) : bool := negb (List.length (peer_prefixes b p) =? 0)%nat.

(** Both halves of a link, and that they fit each other. *)
Definition canonical_ipv4 (s : string) : Prop := exists x, ParseAddr s = Some (Addr4 x) /\ AddrString (Addr4 x) = s.
Record reciprocal (p : PeerGateway) (local remote : GatewayLink) : Prop := {
  rc_endpoint : canonical_ipv4 (ge_EndpointIP (pg_Endpoint p)) /\ canonical_ipv4 (ge_HealthIP (pg_Endpoint p));
  rc_asn : 4200000000 <= ge_LocalASN (pg_Endpoint p) /\ ge_LocalASN (pg_Endpoint p) <> nb_LocalASN spec;
  rc_local : findLink (ge_Links self) (peer_id p) = Some local;
  rc_remote : findLink (ge_Links (pg_Endpoint p)) local_id = Some remote;
  rc_tunnel : canonical_ipv4 (gl_TunnelIP local) /\ canonical_ipv4 (gl_TunnelIP remote) /\ gl_TunnelIP local <> gl_TunnelIP remote;
  rc_ports : 1024 <= gl_ListenPort local <= 65535 /\ 1024 <= gl_ListenPort remote <= 65535;
  rc_key : nb_TransportProfile spec = "wireguard-bgp"%string ->
    exists key, base64_decode (ge_PublicKey (pg_Endpoint p)) = Some key /\ List.length key = 32%nat;
  rc_native : nb_TransportProfile spec <> "wireguard-bgp"%string ->
    gl_ListenPort local = gl_ListenPort remote /\ gl_ControlVNI local = gl_ControlVNI remote /\
    gl_ControlVNI local <> 0 /\ gl_ControlVNI local <= 16777215 /\ gl_ControlVNI local <> nb_NetworkID spec }.

(** The link of a peer, as the document shows it. *)
Definition link_of (p : PeerGateway) : json :=
  match findLink (ge_Links self) (peer_id p), findLink (ge_Links (pg_Endpoint p)) local_id with
  | Some local, Some remote => link_section b p (peer_id p) local_id (peer_prefixes b p) local remote
  | _, _ => JNull
  end.
Definition authorized (p : PeerGateway) : Prop :=
  pg_LocationRef p <> nb_LocationRef spec /\ In (pg_LocationRef p) (default [] (nb_AuthorizedLocations spec)).

Lemma ipv4_ok s : ipv4 s = true <-> canonical_ipv4 s.
Proof.
  unfold ipv4, canonical_ipv4. split.
  - destruct (ParseAddr s) as [ad|]; [|done]. destruct ad as [|x|]; try done. intros H. breflect. by exists x.
  - intros (x & -> & ->). by rewrite String.eqb_refl.
Qed.

Lemma reciprocal_checks p local remote :
  findLink (ge_Links self) (peer_id p) = Some local -> findLink (ge_Links (pg_Endpoint p)) local_id = Some remote ->
  reciprocal p local remote <->
  negb (ipv4 (ge_EndpointIP (pg_Endpoint p))) || negb (ipv4 (ge_HealthIP (pg_Endpoint p))) ||
    (ge_LocalASN (pg_Endpoint p) <? 4200000000) || (ge_LocalASN (pg_Endpoint p) =? nb_LocalASN spec) = false /\
  link_ok local remote = true /\
  (nb_TransportProfile spec =? "wireguard-bgp")%string && negb (wireguard_key_ok (ge_PublicKey (pg_Endpoint p))) = false /\
  negb (nb_TransportProfile spec =? "wireguard-bgp")%string && negb (native_ok b local remote) = false.
Proof.
  intros HL HR. unfold link_ok, native_ok, wireguard_key_ok. fold spec. split.
  - intros [[E1 E2] [A1 A2] _ _ (T1 & T2 & T3) [P1 P2] HK HN].
    apply ipv4_ok in E1, E2, T1, T2. apply String.eqb_neq in T3. rewrite E1, E2, T1, T2, T3.
    rewrite !orb_false_iff, !andb_true_iff, Z.ltb_ge, Z.eqb_neq, !Z.leb_le. split; [done|]. split; [tauto|].
    destruct (_ =? "wireguard-bgp")%string eqn:Ew; breflect; cbn [andb negb].
    + destruct (HK Ew) as (key & -> & ->). done.
    + destruct (HN Ew) as (-> & -> & N1 & N2 & N3). rewrite !Z.eqb_refl. apply Z.eqb_neq in N1, N3. apply Z.leb_le in N2.
      by rewrite N1, N2, N3.
  - intros (H1 & H2 & H3 & H4). breflect. split; rewrite ?ipv4_ok in *; try done; try lia.
    + intros Ew. rewrite Ew, String.eqb_refl in H3. cbn [andb negb] in H3. breflect. destruct (base64_decode _) as [key|]; [|done]. breflect. eauto.
    + intros Ew. apply String.eqb_neq in Ew. rewrite Ew in H4. cbn [andb negb] in H4. breflect. tauto.
Qed.

(** ** The loop over the peers *)

Lemma served_prefixes p : served p = true <-> peer_prefixes b p <> [].
Proof. unfold served. rewrite negb_true_iff, Nat.eqb_neq. by destruct (peer_prefixes b p). Qed.

Lemma render_links_spec peers : forall seen links locations links' locations',
  render_links b m seen links locations peers = Links links' locations' <->
  distinct_from peer_id seen peers /\ (forall p, In p peers -> authorized p) /\
  (forall p, In p peers -> served p = true -> exists local remote, reciprocal p local remote) /\
  links' = links ++ map link_of (List.filter served peers) /\
  locations' = list_to_set (map pg_LocationRef (List.filter served peers)) ∪ locations.
Proof.
  induction peers as [|p peers IH]; intros seen links locations links' locations'; cbn [render_links].
  - cbn [List.filter map list_to_set]. rewrite List.app_nil_r, (left_id_L ∅ (∪)). unfold distinct_from. simpl. split.
    + intros [= -> ->]. repeat split; try done. constructor.
    + by intros (_ & _ & _ & -> & ->).
  - rewrite distinct_from_cons. fold (peer_id p) spec self local_id.
    destruct (bool_decide (peer_id p ∈ seen)) eqn:Es; breflect.
    { split; [done|]. intros ((Hs & _) & _). done. }
    destruct (pg_LocationRef p =? nb_LocationRef spec)%string eqn:El; breflect.
    { split; [done|]. intros (_ & HA & _). by destruct (HA p (or_introl eq_refl)). }
    destruct (bool_decide (_ ∈ default _ _)) eqn:Ea; breflect; cbn [negb orb].
    2:{ split; [done|]. intros (_ & HA & _). destruct (HA p (or_introl eq_refl)) as [_ Hi]. by apply list_elem_of_In in Hi. }
    apply list_elem_of_In in Ea. assert (authorized p) as Hp by done.
    assert (forall P : PeerGateway -> Prop, (forall q, In q (p :: peers) -> P q) <-> P p /\ forall q, In q peers -> P q) as HF.
    { intros P. split; [intros H; split; [apply H; by left|intros; apply H; by right]|]. intros [H1 H2] q [<-|Hq]; auto. }
    cbn [List.filter]. destruct (peer_prefixes b p) as [|x xs] eqn:Ex.
    + assert (served p = false) as Hsv by (unfold served; by rewrite Ex). rewrite IH, !HF, Hsv. intuition congruence.
    + assert (served p = true) as Hsv by (unfold served; by rewrite Ex). rewrite !HF, Hsv.
      destruct (findLink (ge_Links self) (peer_id p)) as [local|] eqn:EL.
      2:{ split; [by destruct (_ || _)|]. intros (_ & _ & [HR _] & _). destruct (HR eq_refl) as (? & ? & []). congruence. }
      destruct (findLink (ge_Links (pg_Endpoint p)) local_id) as [remote|] eqn:ER.
      2:{ split; [by destruct (_ || _)|]. intros (_ & _ & [HR _] & _). destruct (HR eq_refl) as (? & ? & []). congruence. }
      pose proof (reciprocal_checks p local remote EL ER) as HC.
      assert ((true = true -> exists local remote, reciprocal p local remote) <-> reciprocal p local remote) as ->.
      { split; [|eauto]. intros HR. destruct (HR eq_refl) as (x1 & x2 & Hx). pose proof (rc_local _ _ _ Hx).
        pose proof (rc_remote _ _ _ Hx). congruence. }
      rewrite HC. destruct (_ || (ge_LocalASN (pg_Endpoint p) =? _)); [split; [done|intuition congruence]|].
      destruct (link_ok local remote); cbn [negb]; [|split; [done|intuition congruence]].
      destruct (_ && negb (wireguard_key_ok _)); [split; [done|intuition congruence]|].
      destruct (_ && negb (native_ok _ _ _)); [split; [done|intuition congruence]|].
      rewrite IH. cbn [map list_to_set]. rewrite <- List.app_assoc.
      assert (link_of p = link_section b p (peer_id p) local_id (x :: xs) local remote) as ->.
      { unfold link_of. by rewrite EL, ER, Ex. }
      rewrite <- (assoc_L (∪)), (comm_L (∪) (list_to_set _) locations), (assoc_L (∪) _ locations), (comm_L (∪) _ (list_to_set _)).
      tauto.
Qed.

(** ** The remote subnets *)

(** A remote subnet that shares no address with the local ones. *)
Definition foreign (s : RemoteSubnet) : Prop := exists q, ParsePrefix (rs_CIDR s) = Some q /\ Is4 (paddr q) = true /\
  Masked q = q /\ forall local, In local (local_cidrs b) -> Overlaps q (ParsePrefix_ local) = false.

Lemma check_remotes_spec locations remotes : check_remotes (local_cidrs b) locations remotes = inr tt <->
  forall s, In s remotes -> rs_LocationRef s ∈ locations /\ foreign s.
Proof.
  induction remotes as [|s remotes IH]; cbn [check_remotes]; [done|].
  assert ((forall x, In x (s :: remotes) -> rs_LocationRef x ∈ locations /\ foreign x) <->
    (rs_LocationRef s ∈ locations /\ foreign s) /\ forall x, In x remotes -> rs_LocationRef x ∈ locations /\ foreign x) as ->.
  { split; [intros H; split; [apply H; by left|intros; apply H; by right]|]. intros [H1 H2] x [<-|Hx]; auto. }
  destruct (bool_decide _) eqn:El; breflect; cbn [negb]; [|split; [done|by intros [[? _] _]]].
  destruct (ParsePrefix (rs_CIDR s)) as [q|] eqn:Eq; [|split; [done|]].
  2:{ intros [[_ (q & Hq & _)] _]. congruence. }
  assert (foreign s <-> Is4 (paddr q) = true /\ Masked q = q /\ forall local, In local (local_cidrs b) -> Overlaps q (ParsePrefix_ local) = false) as ->.
  { unfold foreign. rewrite Eq. split; [intros (? & [= <-] & H); done|intros H; by exists q]. }
  destruct (Is4 (paddr q)); cbn [negb orb]; [|split; [done|by intros [[_ [? _]] _]]].
  destruct (bool_decide _) eqn:Em; breflect; cbn [negb]; [|split; [done|intros [[_ (_ & E & _)] _]; congruence]].
  destruct (existsb _ _) eqn:Ex.
  - apply existsb_exists in Ex as (local & Hl & Ho). split; [done|]. intros [[_ (_ & _ & HO)] _]. specialize (HO _ Hl). congruence.
  - rewrite IH. pose proof (existsb_forall _ _ Ex). intuition auto.
Qed.

Lemma check_remotes_rejects cidrs locations remotes doc : check_remotes cidrs locations remotes <> inl (Rendered doc).
Proof.
  induction remotes as [|s remotes IH]; cbn [check_remotes]; [done|]. destruct (negb _); [done|].
  destruct (ParsePrefix _) as [q|]; [|done]. destruct (_ || _); [done|]. by destruct (existsb _ _).
Qed.

(** ** The whole document *)

(** When a gateway may run. *)
Record renderable : Prop := {
  rn_local : local_cidrs b <> [];
  rn_distinct : NoDup (map peer_id (nb_Peers spec));
  rn_authorized : forall p, In p (nb_Peers spec) -> authorized p;
  rn_links : forall p, In p (nb_Peers spec) -> served p = true -> exists local remote, reciprocal p local remote;
  rn_remotes : forall s, In s (nb_RemoteSubnets spec) ->
    foreign s /\ exists p, In p (nb_Peers spec) /\ pg_LocationRef p = rs_LocationRef s;
  rn_profile : In (nb_TransportProfile spec) ["wireguard-bgp"; "geneve-bgp"; "vxlan-evpn"]%string;
  rn_vni : nb_TransportProfile spec = "vxlan-evpn"%string -> nb_NetworkID spec <> 0 /\ nb_NetworkID spec <= 16777215 }.

(** The configuration: one link per peer that serves a subnet. *)
Definition document_links : list json := map link_of (List.filter served (sorted_peers b)).
Definition document : json :=
  JObj [("gateway", gateway_section b a m (local_cidrs b)); ("managedVersion", JStr "v1");
        ("transport", default JNull (transport_section r b l m document_links))].

Lemma served_location s : In s (nb_RemoteSubnets spec) ->
  rs_LocationRef s ∈ (list_to_set (map pg_LocationRef (List.filter served (sorted_peers b))) ∪ ∅ : gset string) <->
  exists p, In p (nb_Peers spec) /\ pg_LocationRef p = rs_LocationRef s.
Proof.
  intros Hs. rewrite (right_id_L ∅ (∪)), elem_of_list_to_set, list_elem_of_In, in_map_iff. unfold sorted_peers. split.
  - intros (p & E & [Hp _]%filter_In). apply sort_by_key_in in Hp. eauto.
  - intros (p & Hp & E). exists p. split; [done|]. apply filter_In. split; [by apply sort_by_key_in|].
    apply served_prefixes. unfold peer_prefixes. intros Hz.
    assert (In (rs_CIDR s) []) as []. rewrite <- Hz. apply sort_strings_in, in_map, filter_In. split; [done|]. rewrite E. apply String.eqb_refl.
Qed.

Definition served_locations : gset string := list_to_set (map pg_LocationRef (List.filter served (sorted_peers b))) ∪ ∅.
Lemma render_links_renderable :
  render_links b m ∅ [] ∅ (sorted_peers b) = Links document_links served_locations <->
  NoDup (map peer_id (nb_Peers spec)) /\ (forall p, In p (nb_Peers spec) -> authorized p) /\
  (forall p, In p (nb_Peers spec) -> served p = true -> exists local remote, reciprocal p local remote).
Proof.
  rewrite render_links_spec. unfold sorted_peers at 1 2 3. unfold distinct_from. fold spec.
  rewrite (sort_by_key_perm _ (nb_Peers spec)) at 1. setoid_rewrite sort_by_key_in.
  split; [by intros ([HD _] & HA & HR & _)|]. intros (HD & HA & HR). split; [split; [done|set_solver]|]. done.
Qed.
Lemma render_links_only links locations : render_links b m ∅ [] ∅ (sorted_peers b) = Links links locations ->
  links = document_links /\ locations = served_locations.
Proof. by intros (_ & _ & _ & -> & ->)%render_links_spec. Qed.

Lemma transport_known links : is_Some (transport_section r b l m links) <->
  In (nb_TransportProfile spec) ["wireguard-bgp"; "geneve-bgp"; "vxlan-evpn"]%string.
Proof.
  unfold transport_section. fold spec. simpl. destruct (_ =? "wireguard-bgp")%string eqn:E1; breflect; [by split; eauto|].
  destruct (_ =? "geneve-bgp")%string eqn:E2; breflect; [by split; eauto|].
  destruct (_ =? "vxlan-evpn")%string eqn:E3; breflect; [by split; eauto|]. split; [by intros []|]. intros [?|[?|[?|[]]]]; congruence.
Qed.

(** C39: a configuration is rendered exactly when the gateway may run: every
    peer is distinct and of another, authorized location, every peer that serves a
    subnet has both halves of its link, with fitting addresses, ports and keys, every
    remote subnet is served and overlaps no local one, and the profile is known; and
    then it is the document with one link per serving peer. *)
Theorem render_refines_document doc : render r b a l m = Rendered doc <-> renderable /\ doc = document.
Proof.
  unfold render. fold spec. destruct (local_cidrs b) as [|c cs] eqn:Ec.
  { split; [done|]. intros [[HL _ _ _ _ _ _] _]. by rewrite Ec in HL. }
  rewrite <- Ec. destruct (render_links b m ∅ [] ∅ (sorted_peers b)) as [e| |links locations] eqn:EL.
  1-2: split; [done|]; intros [[_ H1 H2 H3 _ _ _] _]; pose proof (proj2 render_links_renderable (conj H1 (conj H2 H3))); congruence.
  destruct (render_links_only _ _ EL) as [-> ->]. apply render_links_renderable in EL as (H1 & H2 & H3).
  pose proof (check_remotes_spec served_locations (nb_RemoteSubnets spec)) as HC.
  destruct (check_remotes _ _ _) as [x|[]] eqn:ER.
  { split.
    - intros ->. by destruct (check_remotes_rejects _ _ _ _ ER).
    - intros [[_ _ _ _ HR _ _] _]. exfalso. enough (inl x = inr tt :> rendered + unit) by done. apply HC. intros s Hs.
      destruct (HR s Hs) as [HF HP]. split; [by apply served_location|done]. }
  assert (forall s, In s (nb_RemoteSubnets spec) -> foreign s /\ exists p, In p (nb_Peers spec) /\ pg_LocationRef p = rs_LocationRef s) as HR.
  { clear ER. intros s Hs. destruct (proj1 HC eq_refl s Hs) as [HL HF]. split; [done|]. by apply served_location. }
  destruct ((_ =? "vxlan-evpn")%string && _) eqn:Ev.
  { split; [done|]. intros [[_ _ _ _ _ _ HV] _]. breflect. destruct (HV H) as [V1 V2].
    exfalso. apply Z.eqb_neq in V1. rewrite V1 in H0. cbn [orb] in H0. breflect. lia. }
  pose proof (transport_known document_links) as HT. unfold document.
  destruct (transport_section r b l m document_links) as [t|].
  - split; [intros [= <-]; split; [|done]|by intros [_ ->]]. split; try done; [by rewrite Ec|by apply HT; eauto|].
    intros E. rewrite E in Ev. cbn in Ev. breflect. split; [done|lia].
  - split; [done|]. intros [[_ _ _ _ _ HP _] _]. apply HT in HP as [? ?]. done.
Qed.
End render.
