(* ===== verification/GatewayReconciler.v ===== *)
(** * [internal/managedgateway/reconciler.go]: gateway members, Pods and rollout

    [Ensure] publishes durable membership, then runs immutable Pod generations, at
    most one of which is retired per pass; [Delete] removes Pods, then
    configurations and keys, then the ledger. *)
From S2P Require Import Prelude GoStd Json JsonDecode NetIP NetIPFacts SiteConfig Api Prog Kube PlatformPlan Allocation LocalReconciler GatewayRegistry X25519 GatewayRender.
Open Scope Z_scope.

Definition configHash : string := "platform.globalvpc.io/config-hash".
Definition memberLabel : string := "platform.globalvpc.io/gateway-id".

Definition labels (b : NetworkBinding) : gmap string string :=
  <[OwnerLabel := om_UID (nb_Meta b)]> (<[VPCUIDLabel := oi_UID (nb_VPCRef (nb_Spec b))]>
    (<[LocationLabel := nb_LocationRef (nb_Spec b)]> (<[componentLabel := "gateway"]> ∅))).
Definition ref (b : NetworkBinding) : OwnerReference :=
  mkOwnerRef GroupVersion "NetworkBinding" (om_Name (nb_Meta b)) (om_UID (nb_Meta b)) (Some true) (Some true).
Definition owned (o : ObjectMeta) (b : NetworkBinding) : bool :=
  (get (om_Labels o) OwnerLabel =? om_UID (nb_Meta b))%string &&
  existsb (fun v => (or_UID v =? om_UID (nb_Meta b))%string && (or_Kind v =? "NetworkBinding")%string &&
                    (or_APIVersion v =? GroupVersion)%string && (or_Name v =? om_Name (nb_Meta b))%string &&
                    match or_Controller v with Some true => true | _ => false end) (om_OwnerReferences o).
Definition metadata (name : string) (b : NetworkBinding) (ns : string) (annotations : gmap string string) : ObjectMeta :=
  mkMeta name ns "" "" 0 0 None (labels b) annotations [] [ref b].
Definition ledgerName (b : NetworkBinding) : string := ("pg-" ++ Short (om_UID (nb_Meta b)))%string.
Definition podName (b : NetworkBinding) (m : member) : string := (ledgerName b ++ "-" ++ ge_ID (mb_Endpoint m))%string.
Definition immutable (i : option bool) : bool := match i with Some true => true | _ => false end.

Definition podReady (p : Pod) : bool :=
  negb (bool_decide (om_DeletionTimestamp (pd_Meta p) <> None)) &&
  match List.find (fun c => (cc_Type c =? "Ready")%string) (pd_Conditions p) with
  | Some c => (cc_Status c =? "True")%string
  | None => false
  end.
Definition eligible (n : Node) : bool :=
  negb (nd_Unschedulable n) &&
  negb (existsb (fun t => (t =? "NoSchedule")%string || (t =? "NoExecute")%string) (nd_TaintEffects n)) &&
  match List.find (fun c => (cc_Type c =? "Ready")%string) (nd_Conditions n) with
  | Some c => (cc_Status c =? "True")%string
  | None => false
  end.

Section gateway.
Context {RT : Retry}.
Variable r : GatewayReconciler.

Fixpoint internal_ip (l : list NodeAddress) : string :=
  match l with
  | [] => ""
  | a :: l =>
      if (na_Type a =? "InternalIP")%string
      then match ParseAddr (na_Address a) with
           | Some ip => if Is4 ip then AddrString ip else internal_ip l
           | None => internal_ip l
           end
      else internal_ip l
  end.
Definition nodeEndpoint (n : Node) : string :=
  if negb (gw_EndpointAnnotation r =? "")%string then get (om_Annotations (nd_Meta n)) (gw_EndpointAnnotation r)
  else internal_ip (nd_Addresses n).

(** ** Validation *)

Definition subnet_conflict (transit pool : NetIP.Prefix) (cidr : string) : bool :=
  match ParsePrefix cidr with
  | None => true
  | Some q => negb (Is4 (paddr q)) || negb (bool_decide (q = Masked q)) || Overlaps q transit || Overlaps q pool
  end.
Definition validate (b : NetworkBinding) (a : Attachment) : res unit :=
  reject (gw_Namespace r =? "")%string || (gw_ClusterUID r =? "")%string || (gw_Image r =? "")%string ||
         (gw_RuntimeDir r =? "")%string || negb (om_Namespace (nb_Meta b) =? gw_Namespace r)%string ||
         (om_UID (nb_Meta b) =? "")%string || (oi_UID (nb_VPCRef (nb_Spec b)) =? "")%string
    with Errorf "incomplete local gateway identity or configuration" ;;
  reject (gw_Replicas r <? 2) || (64 <? gw_Replicas r) || bool_decide (gw_NodeSelector r = ∅) || (gw_MTU r <? 1280) ||
         (1400 <? gw_MTU r) || (gw_PortStart r <? 1024) || (65535 <? gw_PortEnd r) || (gw_PortEnd r <? gw_PortStart r)
    with Errorf "invalid managed gateway settings" ;;
  reject (nb_LocalASN (nb_Spec b) <? 4200000000) || (4294967294 <? nb_LocalASN (nb_Spec b))
    with Errorf "durable private location ASN is required" ;;
  match ParsePrefix (at_TransitCIDR a) with
  | None => Err (Errorf "invalid transit prefix")
  | Some p =>
      reject negb (Is4 (paddr p)) || negb (bool_decide (p = Masked p)) with Errorf "invalid transit prefix" ;;
      reject (pbits p <? 16) || (29 <? pbits p) || (Z.shiftl 1 (32 - pbits p) - 3 <? gw_Replicas r) ||
             negb (at_RouterIP a =? AddrString (Next (paddr p)))%string || negb (List.length (at_MemberIPs a) =? 0)%nat
        with Errorf "transit allocation must fit durable members and use its first host as router" ;;
      reject existsb (fun v => match ParseAddr v with Some ip => negb (Is4 ip) | None => true end)
               [at_RouterIP a; at_BFDSourceIP a]
        with Errorf "invalid attachment address" ;;
      let bfd := ParseAddr_ (at_BFDSourceIP a) in
      match ParsePrefix (gw_AllocationPool r) with
      | None => Err (Errorf "invalid reserved control pool")
      | Some pool =>
          reject negb (Is4 (paddr pool)) || negb (bool_decide (pool = Masked pool)) || Overlaps pool p ||
                 Contains pool bfd || Contains p bfd
            with Errorf "invalid reserved control pool" ;;
          reject existsb (subnet_conflict p pool) (map rs_CIDR (nb_RemoteSubnets (nb_Spec b)))
            with Errorf "remote subnet overlaps infrastructure or is invalid" ;;
          reject existsb (subnet_conflict p pool) (map bs_CIDR (nb_Subnets (nb_Spec b)))
            with Errorf "local subnet overlaps infrastructure or is invalid" ;;
          Ok tt
      end
  end.

(** The loop over the links of one member, then over the members. *)
Fixpoint ledger_links (pool : NetIP.Prefix) (ips peers : gset string) (ls : list GatewayLink) : option (gset string) :=
  match ls with
  | [] => Some ips
  | link :: rest =>
      match ParseAddr (gl_TunnelIP link) with
      | None => None
      | Some ip =>
          if negb (Contains pool ip) || bool_decide (gl_TunnelIP link ∈ ips) || bool_decide (gl_PeerID link ∈ peers) ||
             (gl_PeerID link =? "")%string
          then None
          else ledger_links pool ({[gl_TunnelIP link]} ∪ ips) ({[gl_PeerID link]} ∪ peers) rest
      end
  end.
Fixpoint ledger_members (b : NetworkBinding) (pool transit : NetIP.Prefix) (ids nodes ips : gset string) (ms : list member)
    : res unit :=
  match ms with
  | [] => Ok tt
  | m :: rest =>
      let g := mb_Endpoint m in
      let changed := Errorf "gateway ledger identity or reserved allocation changed" in
      match ParseAddr (ge_TransitIP g), ParseAddr (ge_HealthIP g) with
      | Some ip, Some health =>
          reject (ge_ID g =? "")%string || (ge_NodeUID g =? "")%string || bool_decide (ge_ID g ∈ ids) ||
                 bool_decide (ge_NodeUID g ∈ nodes) || negb (Contains transit ip) || negb (Contains pool health) ||
                 bool_decide (ge_TransitIP g ∈ ips) || bool_decide (ge_HealthIP g ∈ ips) ||
                 negb (ge_LocalASN g =? nb_LocalASN (nb_Spec b)) ||
                 negb (mb_SecretName m =? ledgerName b ++ "-" ++ ge_ID g ++ "-key")%string
            with changed ;;
          match ledger_links pool ({[ge_HealthIP g]} ∪ ({[ge_TransitIP g]} ∪ ips)) ∅ (ge_Links g) with
          | None => Err (Errorf "gateway ledger contains conflicting control addresses")
          | Some ips' => ledger_members b pool transit ({[ge_ID g]} ∪ ids) ({[ge_NodeUID g]} ∪ nodes) ips' rest
          end
      | _, _ => Err changed
      end
  end.
Definition validateLedger (b : NetworkBinding) (a : Attachment) (l : ledger) : res unit :=
  ledger_members b (ParsePrefix_ (gw_AllocationPool r)) (ParsePrefix_ (at_TransitCIDR a)) ∅ ∅
    {[at_RouterIP a; at_BFDSourceIP a]} (lg_Members l).

(** ** Owned resources *)

Definition record (kind : string) (o : ObjectMeta) : ResourceRecord :=
  mkRecord "v1" kind (om_Namespace o) (om_Name o) (om_UID o).
(** Label, name or owner reference: drift of one cannot hide an object. *)
Definition suspect (b : NetworkBinding) (o : ObjectMeta) : bool :=
  (get (om_Labels o) OwnerLabel =? om_UID (nb_Meta b))%string || (om_Name o =? ledgerName b)%string ||
  HasPrefix (om_Name o) (ledgerName b ++ "-") ||
  existsb (fun owner => (or_UID owner =? om_UID (nb_Meta b))%string) (om_OwnerReferences o).

Definition pod_records (b : NetworkBinding) (pods : list Pod) : res (list ResourceRecord * list string) :=
  let mine := List.filter (fun p => suspect b (pd_Meta p)) pods in
  reject negb (forallb (fun p => owned (pd_Meta p) b) mine) with Errorf "gateway Pod ownership changed" ;;
  Ok (map (fun p => record "Pod" (pd_Meta p)) mine, flat_map (fun p => omap vo_Secret (pd_Volumes p)) mine).
Fixpoint config_records (b : NetworkBinding) (cms : list ConfigMap) : res (list ResourceRecord * list string) :=
  match cms with
  | [] => Ok ([], [])
  | cm :: rest =>
      if negb (suspect b (cm_Meta cm)) then config_records b rest
      else
        reject negb (owned (cm_Meta cm) b) with Errorf "gateway ConfigMap ownership changed" ;;
        secrets <-? (if negb (om_Name (cm_Meta cm) =? ledgerName b)%string then Ok []
                     else match decode_ledger (get (cm_Data cm) ledgerData) with
                          | None => Err (Errorf "invalid gateway ledger")
                          | Some l => Ok (if (lg_Profile l =? "wireguard-bgp")%string then map mb_SecretName (lg_Members l) else [])
                          end) ;;
        more <-? config_records b rest ;;
        Ok (record "ConfigMap" (cm_Meta cm) :: fst more, secrets ++ snd more)
  end.
(** Secrets with durable names that the label selection missed. *)
Fixpoint named_secrets (b : NetworkBinding) (names : list string) : kprog (res (list ResourceRecord)) :=
  match names with
  | [] => Ret (Ok [])
  | name :: rest =>
      found <-! kfind Local KSecret (gw_Namespace r) name ;;
      match found with
      | None => named_secrets b rest
      | Some s =>
          stop negb (owned (sc_Meta s) b) with Errorf "gateway Secret ownership changed" ;;
          more <-! named_secrets b rest ;;
          Ret (Ok (record "Secret" (sc_Meta s) :: more))
      end
  end.

Definition resources (b : NetworkBinding) : kprog (res (list ResourceRecord)) :=
  pods <-! klist Local KPod (InNamespace (gw_Namespace r)) ;;
  cms <-! klist Local KConfigMap (InNamespace (gw_Namespace r)) ;;
  p <-! Ret (pod_records b pods) ;;
  c <-! Ret (config_records b cms) ;;
  secrets <-! klist Local KSecret (mkSel (Some (gw_Namespace r)) (<[OwnerLabel := om_UID (nb_Meta b)]> ∅)) ;;
  stop negb (forallb (fun s : Secret => owned (sc_Meta s) b) secrets) with Errorf "gateway Secret ownership changed" ;;
  let recorded := map rr_Name (List.filter (fun rec => (rr_Kind rec =? "Secret")%string && (rr_Namespace rec =? gw_Namespace r)%string)
                                 (bt_Resources (nb_Status b))) in
  let found := map (fun s : Secret => om_Name (sc_Meta s)) secrets in
  let names := elements ((list_to_set (recorded ++ snd p ++ snd c) : gset string) ∖ list_to_set ("" :: found)) in
  named <-! named_secrets b (sort_strings names) ;;
  Ret (Ok (sort_by_key (fun rec => rr_Kind rec ++ rr_Name rec)%string
             (fst p ++ fst c ++ map (fun s : Secret => record "Secret" (sc_Meta s)) secrets ++ named))).

Definition withResources (b : NetworkBinding) (result : GatewayResult) : kprog (res GatewayResult) :=
  rs <-! resources b ;;
  Ret (Ok (mkGatewayResult (gr_Gateways result) rs (gr_Ready result) (gr_Reason result))).

(** ** Deleting *)

(** [client.IgnoreNotFound] *)
Definition ignore_not_found (x : res unit) : res unit :=
  match x with Err e => if IsNotFound e then Ok tt else Err e | Ok _ => Ok tt end.
Definition delete_owned (k : kind) (b : NetworkBinding) (rec : ResourceRecord) : kprog (res unit) :=
  found <-! kfind Local k (gw_Namespace r) (rr_Name rec) ;;
  match found with
  | None => Ret (Ok tt)
  | Some o =>
      stop negb (om_UID (meta_of o) =? rr_UID rec)%string || negb (owned (meta_of o) b)
        with Errorf "gateway resource incarnation changed" ;;
      x <- delete_object Local k o ;; Ret (ignore_not_found x)
  end.
Definition deleteRecord (b : NetworkBinding) (rec : ResourceRecord) : kprog (res unit) :=
  if (rr_Kind rec =? "ConfigMap")%string then delete_owned KConfigMap b rec
  else if (rr_Kind rec =? "Secret")%string then delete_owned KSecret b rec
  else Ret (Err (Errorf "unsupported gateway resource")).
Fixpoint delete_records (b : NetworkBinding) (recs : list ResourceRecord) : kprog (res unit) :=
  match recs with [] => Ret (Ok tt) | rec :: recs => _ <-! deleteRecord b rec ;; delete_records b recs end.

Definition delete_pod (b : NetworkBinding) (rec : ResourceRecord) : kprog (res unit) :=
  found <-! kfind Local KPod (gw_Namespace r) (rr_Name rec) ;;
  match found with
  | None => Ret (Ok tt)
  | Some p =>
      stop negb (om_UID (pd_Meta p) =? rr_UID rec)%string || negb (owned (pd_Meta p) b)
        with Errorf "gateway Pod incarnation changed" ;;
      if bool_decide (om_DeletionTimestamp (pd_Meta p) <> None) then Ret (Ok tt)
      else x <- delete_object Local KPod p ;; Ret (ignore_not_found x)
  end.
Fixpoint delete_pods (b : NetworkBinding) (recs : list ResourceRecord) : kprog (res unit) :=
  match recs with [] => Ret (Ok tt) | rec :: recs => _ <-! delete_pod b rec ;; delete_pods b recs end.

Definition is_ledger (b : NetworkBinding) (rec : ResourceRecord) : bool :=
  (rr_Kind rec =? "ConfigMap")%string && (rr_Name rec =? ledgerName b)%string.
(** The loop over what remains: anything but the ledger ends the pass. *)
Fixpoint delete_ledger (b : NetworkBinding) (recs : list ResourceRecord) : kprog (res bool) :=
  match recs with
  | [] => Ret (Ok true)
  | rec :: recs => if negb (is_ledger b rec) then Ret (Ok false) else _ <-! deleteRecord b rec ;; delete_ledger b recs
  end.

Definition Delete (b : NetworkBinding) : kprog (res bool) :=
  rs <-! resources b ;;
  let pods := List.filter (fun rec => (rr_Kind rec =? "Pod")%string) rs in
  _ <-! delete_pods b pods ;;
  if negb (List.length pods =? 0)%nat then Ret (Ok false)
  else
    _ <-! delete_records b (List.filter (fun rec => negb (is_ledger b rec)) rs) ;;
    remaining <-! resources b ;;
    only <-! delete_ledger b remaining ;;
    if negb only then Ret (Ok false)
    else remaining <-! resources b ;; Ret (Ok (List.length remaining =? 0)%nat).
End gateway.
