(* ===== verification/GatewayDeleteFacts.v ===== *)
(** * What [Delete] of the gateway backend promises

    Pods go first: configurations and keys are removed only when no Pod of the
    binding is listed, everything that is removed was read as owned by the binding
    under the recorded UID, and the backend reports absence only from a listing that
    shows nothing. *)
From S2P Require Import Prelude GoStd Json JsonDecode NetIP SiteConfig Api Prog Kube PlatformPlan Allocation LocalReconciler.
From S2P Require Import GatewayRegistry GatewayRender GatewayReconciler.
Open Scope Z_scope.

Section delete.
Context {RT : Retry}.
Variables (r : GatewayReconciler) (b : NetworkBinding).
Let ns := gw_Namespace r.

(** One inventory, with the records it was summed up in. *)
Record inventoried (h : history) (rs : list ResourceRecord) (pods : list Pod) (cms : list ConfigMap) (secrets : list Secret) : Prop := {
  iv_pods : asked h (ListObjects Local KPod (InNamespace ns)) (Ok pods);
  iv_maps : asked h (ListObjects Local KConfigMap (InNamespace ns)) (Ok cms);
  iv_secrets : asked h (ListObjects Local KSecret (mkSel (Some ns) (<[OwnerLabel := om_UID (nb_Meta b)]> ∅))) (Ok secrets);
  iv_pod : forall p, In p pods -> suspect b (pd_Meta p) = true -> In (record "Pod" (pd_Meta p)) rs;
  iv_map : forall cm, In cm cms -> suspect b (cm_Meta cm) = true -> In (record "ConfigMap" (cm_Meta cm)) rs;
  iv_secret : forall s, In s secrets -> In (record "Secret" (sc_Meta s)) rs;
  iv_named : forall rec, In rec (bt_Resources (nb_Status b)) -> rr_Kind rec = "Secret"%string -> rr_Namespace rec = ns -> rr_Name rec <> ""%string ->
    (exists s, In s secrets /\ om_Name (sc_Meta s) = rr_Name rec) \/
    (exists s, asked h (Get Local KSecret ns (rr_Name rec)) (Ok s) /\ In (record "Secret" (sc_Meta s)) rs) \/
    (exists x, asked h (Get Local KSecret ns (rr_Name rec)) x /\ found x = Ok None) }.

(** No Pod that could belong to the binding is listed. *)
Definition pods_gone (h : history) : Prop := exists pods, asked h (ListObjects Local KPod (InNamespace ns)) (Ok pods) /\
  forall p, In p pods -> suspect b (pd_Meta p) = false.

Definition delete_permitted (h : history) (o : op) : Prop :=
  match o with
  | Get Local _ _ _ | ListObjects Local _ _ => True
  | Kube.Delete Local k nsp nm p =>
      exists name (x : object k), asked h (Get Local k ns name) (Ok x) /\ owned (meta_of x) b = true /\
        nsp = om_Namespace (meta_of x) /\ nm = om_Name (meta_of x) /\ p = mkPre (Some (om_UID (meta_of x))) (Some (om_ResourceVersion (meta_of x))) /\
        (k = KPod \/ (k = KConfigMap \/ k = KSecret) /\ pods_gone h)
  | _ => False
  end.
Let R := delete_permitted.

Lemma pods_gone_extends h h' : extends h h' -> pods_gone h -> pods_gone h'.
Proof. intros HE (pods & Ha & Hn). exists pods. split; [by eapply asked_extends|done]. Qed.

Lemma pod_records_ok pods x : pod_records b pods = Ok x ->
  forall p, In p pods -> suspect b (pd_Meta p) = true -> In (record "Pod" (pd_Meta p)) (fst x).
Proof.
  unfold pod_records. destruct (negb _); [done|]. intros [= <-] p Hp Hs. simpl. apply (in_map (fun p => record "Pod" (pd_Meta p))).
  by apply filter_In.
Qed.
Lemma config_records_ok cms x : config_records b cms = Ok x ->
  forall cm, In cm cms -> suspect b (cm_Meta cm) = true -> In (record "ConfigMap" (cm_Meta cm)) (fst x).
Proof.
  revert x. induction cms as [|cm cms IH]; intros x; cbn [config_records]; [by intros [= <-]|].
  destruct (suspect b (cm_Meta cm)) eqn:Es; cbn [negb].
  - destruct (negb (owned _ _)); [done|]. destruct (if negb _ then _ else _) as [ss|]; [|done].
    destruct (config_records b cms) as [more|] eqn:Em; [|done]. intros [= <-] c [<-|Hc] Hs; [by left|]. right. by apply (IH more).
  - intros H c [<-|Hc] Hs; [congruence|by apply (IH x)].
Qed.

Lemma wp_named_secrets names : forall h, wp any_answer R (named_secrets r b names) h (fun h' x => forall recs, x = Ok recs ->
  forall name, In name names ->
    (exists s, asked h' (Get Local KSecret ns name) (Ok s) /\ In (record "Secret" (sc_Meta s)) recs) \/
    (exists y, asked h' (Get Local KSecret ns name) y /\ found y = Ok None)).
Proof.
  induction names as [|name names IH]; intros h; [by intros recs [= <-] name []|]. cbn [named_secrets].
  wstep. wstep; [done|]. intros x _. set (h1 := h ++ [_]). destruct (found x) as [[s|]|e] eqn:Ef; [| |done].
  - apply found_some in Ef. subst x. wstep; [done|]. wstep. eapply wp_mono; [|apply wp_extends, IH].
    intros h2 [more|e] [E2 HQ]; [|done]. wstep. intros recs [= <-] n [<-|Hn].
    + left. exists s. split; [apply (asked_extends h1); [done|apply asked_snoc]|by left].
    + destruct (HQ more eq_refl n Hn) as [(s' & H1 & H2)|?]; [left; exists s'; split; [done|by right]|by right].
  - eapply wp_mono; [|apply wp_extends, IH]. intros h2 x2 [E2 HQ] recs -> n [<-|Hn]; [|by apply HQ].
    right. exists x. split; [apply (asked_extends h1); [done|apply asked_snoc]|done].
Qed.

Lemma wp_resources h (Q : history -> res (list ResourceRecord) -> Prop) :
  (forall x h', extends h h' -> (forall rs, x = Ok rs -> exists pods cms secrets, inventoried h' rs pods cms secrets) -> Q h' x) ->
  wp any_answer R (resources r b) h Q.
Proof.
  intros HQ. assert (forall e h', extends h h' -> Q h' (Err e)) as HE by (intros; by apply HQ).
  unfold resources. wstep. wstep; [done|]. intros [pods|e] _; [|apply HE; extending]. set (h1 := h ++ [_]).
  assert (extends h h1) as E1 by extending. assert (asked h1 (ListObjects Local KPod (InNamespace ns)) (Ok pods)) as A1 by apply asked_snoc.
  wstep. wstep; [done|]. intros [cms|e] _; [|apply HE; extending]. set (h2 := h1 ++ [_]).
  assert (extends h1 h2) as E2 by extending. assert (asked h2 (ListObjects Local KConfigMap (InNamespace ns)) (Ok cms)) as A2 by apply asked_snoc.
  wstep. wstep. destruct (pod_records b pods) as [ps|e] eqn:Ep; [|apply HE; extending].
  wstep. wstep. destruct (config_records b cms) as [cs|e] eqn:Ec; [|apply HE; extending].
  wstep. wstep; [done|]. intros [secrets|e] _; [|apply HE; extending]. set (h3 := h2 ++ [_]).
  assert (extends h2 h3) as E3 by extending. assert (asked h3 (ListObjects Local KSecret (mkSel (Some ns) (<[OwnerLabel := om_UID (nb_Meta b)]> ∅))) (Ok secrets)) as A3 by apply asked_snoc.
  wstep; [apply HE; extending|]. cbv zeta. set (names := elements _). wstep.
  eapply wp_mono; [|apply wp_extends, wp_named_secrets]. intros h4 [named|e] [E4 HN]; [|apply HE; extending]. wstep.
  apply HQ; [extending|]. intros rs [= <-]. exists pods, cms, secrets.
  split; try (apply (asked_extends h1) + apply (asked_extends h2) + apply (asked_extends h3); done || extending).
  - intros p Hp Hs. apply sort_by_key_in, in_app_iff. left. by apply (pod_records_ok pods).
  - intros cm Hc Hs. apply sort_by_key_in, in_app_iff. right. apply in_app_iff. left. by apply (config_records_ok cms).
  - intros s Hs. apply sort_by_key_in. rewrite !in_app_iff. right. right. left. by apply (in_map (fun s : Secret => record "Secret" (sc_Meta s))).
  - intros rec Hr Hk Hns Hn. destruct (decide (rr_Name rec ∈ map (fun s : Secret => om_Name (sc_Meta s)) secrets)) as [Hi|Hi].
    + left. apply list_elem_of_In, in_map_iff in Hi as (s & <- & Hs). eauto.
    + right. assert (In (rr_Name rec) (sort_strings names)) as Hin.
      { apply sort_strings_in. unfold names. apply list_elem_of_In, elem_of_elements, elem_of_difference. split.
        - apply elem_of_list_to_set, elem_of_app. left. apply list_elem_of_In, in_map, filter_In. split; [done|].
          rewrite Hk, Hns. by rewrite !String.eqb_refl.
        - rewrite elem_of_list_to_set, elem_of_cons. intros [?|?]; done. }
      destruct (HN named eq_refl _ Hin) as [(s & H1 & H2)|?]; [left|by right]. exists s. split; [done|].
      apply sort_by_key_in. rewrite !in_app_iff. right. right. by right.
Qed.

Lemma wp_delete_owned k rec h : k = KConfigMap \/ k = KSecret -> pods_gone h ->
  wp any_answer R (delete_owned r k b rec) h (fun _ _ => True).
Proof.
  intros Hk Hp. unfold delete_owned. wstep. wstep; [done|]. intros x _. destruct (found x) as [[o|]|e] eqn:Ef; [|done..].
  apply found_some in Ef. subst x. wstep; [done|]. breflect. wstep. wstep; [|done].
  exists (rr_Name rec), o. split; [apply asked_snoc|]. do 4 (split; [done|]). right. split; [done|].
  apply (pods_gone_extends h); [extending|done].
Qed.
Lemma wp_deleteRecord rec h : pods_gone h -> wp any_answer R (deleteRecord r b rec) h (fun _ _ => True).
Proof.
  intros Hp. unfold deleteRecord. destruct (_ =? "ConfigMap")%string; [apply wp_delete_owned; auto|].
  destruct (_ =? "Secret")%string; [apply wp_delete_owned; auto|done].
Qed.
Lemma wp_delete_records recs : forall h, pods_gone h -> wp any_answer R (delete_records r b recs) h (fun _ _ => True).
Proof.
  induction recs as [|rec recs IH]; intros h Hp; [done|]. cbn [delete_records]. wstep.
  eapply wp_mono; [|by apply wp_extends, wp_deleteRecord]. intros h1 [u|e] [E1 _]; [|done].
  apply IH. by apply (pods_gone_extends h).
Qed.
Lemma wp_delete_ledger recs : forall h, pods_gone h -> wp any_answer R (delete_ledger r b recs) h (fun _ _ => True).
Proof.
  induction recs as [|rec recs IH]; intros h Hp; [done|]. cbn [delete_ledger]. wstep; [done|]. wstep.
  eapply wp_mono; [|by apply wp_extends, wp_deleteRecord]. intros h1 [u|e] [E1 _]; [|done].
  apply IH. by apply (pods_gone_extends h).
Qed.
Lemma wp_delete_pods recs : forall h, wp any_answer R (delete_pods r b recs) h (fun _ _ => True).
Proof.
  induction recs as [|rec recs IH]; intros h; [done|]. cbn [delete_pods]. wstep. unfold delete_pod. wstep. wstep; [done|].
  intros x _. destruct (found x) as [[p|]|e] eqn:Ef; [|apply IH|done]. apply found_some in Ef. subst x.
  wstep; [done|]. wstep; [apply IH|]. breflect. wstep. wstep.
  - exists (rr_Name rec), p. split; [apply asked_snoc|]. do 4 (split; [done|]). by left.
  - intros x _. wstep. destruct (ignore_not_found x); [apply IH|done].
Qed.

(** Nothing of the binding is left, in the eyes of one inventory. *)
Definition absent (h : history) : Prop := exists pods cms secrets,
  asked h (ListObjects Local KPod (InNamespace ns)) (Ok pods) /\ (forall p, In p pods -> suspect b (pd_Meta p) = false) /\
  asked h (ListObjects Local KConfigMap (InNamespace ns)) (Ok cms) /\ (forall cm, In cm cms -> suspect b (cm_Meta cm) = false) /\
  asked h (ListObjects Local KSecret (mkSel (Some ns) (<[OwnerLabel := om_UID (nb_Meta b)]> ∅))) (Ok secrets) /\ secrets = [] /\
  (forall rec, In rec (bt_Resources (nb_Status b)) -> rr_Kind rec = "Secret"%string -> rr_Namespace rec = ns -> rr_Name rec <> ""%string ->
     exists x, asked h (Get Local KSecret ns (rr_Name rec)) x /\ found x = Ok None).

Lemma empty_inventory h pods cms secrets : inventoried h [] pods cms secrets -> absent h.
Proof.
  intros [H1 H2 H3 H4 H5 H6 H7]. exists pods, cms, secrets. split; [done|]. split.
  { intros p Hp. apply not_true_iff_false. intros Hs. exact (H4 p Hp Hs). }
  split; [done|]. split.
  { intros cm Hc. apply not_true_iff_false. intros Hs. exact (H5 cm Hc Hs). }
  split; [done|]. assert (secrets = []) as -> by (destruct secrets as [|s ss]; [done|]; destruct (H6 s); by left). split; [done|].
  intros rec Hr Hk Hn Hne. destruct (H7 rec Hr Hk Hn Hne) as [(s & [] & _)|[(s & _ & [])|?]]. done.
Qed.

Lemma wp_Delete h0 : wp any_answer R (Delete r b) h0 (fun h x => x = Ok true -> absent h).
Proof.
  unfold Delete. wstep. apply wp_resources. intros [rs|e] h1 E1 Hr; [|done]. destruct (Hr rs eq_refl) as (pods & cms & secrets & HI).
  wstep. eapply wp_mono; [|apply wp_extends, wp_delete_pods]. intros h2 [[]|e] [E2 _]; [|done]. wstep; [done|]. breflect.
  assert (pods_gone h2) as Hp.
  { apply (pods_gone_extends h1); [done|]. exists pods. split; [exact (iv_pods _ _ _ _ _ HI)|]. intros p Hin.
    apply not_true_iff_false. intros Hs. pose proof (iv_pod _ _ _ _ _ HI p Hin Hs) as Hrec.
    assert (In (record "Pod" (pd_Meta p)) (List.filter (fun rec => (rr_Kind rec =? "Pod")%string) rs)) as Hf by by apply filter_In.
    by destruct (List.filter _ rs). }
  wstep. eapply wp_mono; [|by apply wp_extends, wp_delete_records]. intros h3 [[]|e] [E3 _]; [|done].
  wstep. apply wp_resources. intros [remaining|e] h4 E4 _; [|done].
  wstep. eapply wp_mono; [|apply wp_extends, wp_delete_ledger; apply (pods_gone_extends h2); [extending|done]]. intros h5 [only|e] [E5 _]; [|done].
  wstep; [done|]. wstep. apply wp_resources. intros [rest|e] h6 E6 Hr6; [|done]. wstep. intros [= Hz].
  apply Nat.eqb_eq, List.length_zero_iff_nil in Hz as ->. destruct (Hr6 [] eq_refl) as (pods' & cms' & secrets' & HI').
  by eapply empty_inventory.
Qed.
Lemma Delete_obeys : obeys R (Delete r b).
Proof. eapply wp_obeys, (wp_Delete []). Qed.

(** C30: the gateways of a binding are taken down Pods first, and their
    absence is seen before it is reported. Every deletion is of an object that was
    read as owned by the binding, under the UID and version that were read; a
    configuration, a key or the ledger is deleted only after a list showed no Pod
    that could belong to the binding; nothing else is written; and the answer is
    true only from an inventory without a Pod, a ConfigMap or a key of the
    binding. *)
Theorem teardown_is_ordered h p' :
  exec (Delete r b) h p' ->
  (forall h1 c k nsp nm p, called h h1 (Kube.Delete c k nsp nm p) -> c = Local /\
     exists name (x : object k), asked h1 (Get Local k ns name) (Ok x) /\ owned (meta_of x) b = true /\
       nsp = om_Namespace (meta_of x) /\ nm = om_Name (meta_of x) /\ p = mkPre (Some (om_UID (meta_of x))) (Some (om_ResourceVersion (meta_of x))) /\
       (k = KPod \/ (k = KConfigMap \/ k = KSecret) /\ pods_gone h1)) /\
  (forall h1 o, called h h1 o -> writes o = true -> exists c k nsp nm p, o = Kube.Delete c k nsp nm p) /\
  (p' = Ret (Ok true) -> absent h).
Proof.
  intros HX. split; [|split].
  - intros h1 c k nsp nm p HC. pose proof (called_permitted _ _ _ _ _ _ Delete_obeys HX HC) as HP. destruct c; [done|]. split; [done|exact HP].
  - intros h1 o HC Hw. pose proof (called_permitted _ _ _ _ _ _ Delete_obeys HX HC) as HP. destruct o; try done. eauto 10.
  - intros ->. exact (wp_ret_exec any_answer _ _ _ _ _ (wp_Delete []) HX (answered_any _ _) eq_refl).
Qed.
End delete.
