(* ===== verification/GatewayEnsure.v ===== *)
(** * [managedgateway.Reconciler.Ensure]: membership, runtime generations, rollout *)
From S2P Require Import Prelude GoStd Json JsonDecode NetIP NetIPFacts SiteConfig Api Prog Kube PlatformPlan Allocation LocalReconciler GatewayRegistry X25519 GatewayRender GatewayReconciler.
Open Scope Z_scope.

Section ensure.
Context {RT : Retry}.
Variable r : GatewayReconciler.

(** The source restarts [members] and [ensureKey] after every lost creation race;
    the model restarts [fuel] times and then gives this error. *)
Definition out_of_fuel : error := Errorf "out of fuel: every creation race was lost".

(** ** Members *)

Definition selectable (n : Node) : bool :=
  eligible n && ipv4 (nodeEndpoint r n) && negb (om_UID (nd_Meta n) =? "")%string.
Definition insufficient : error :=
  Errorf ("InsufficientGatewayNodes: need " ++ Itoa (gw_Replicas r) ++ " distinct ready selected nodes").

Definition address (key : string) : kprog (res string) := allocate r key false "".

(** One member per selected node, in node order, on consecutive transit addresses;
    [n] more members are wanted. *)
Fixpoint new_members (b : NetworkBinding) (transit : NetIP.Prefix) (ip : Addr) (n : nat) (nodes : list Node)
    : kprog (res (list member)) :=
  match n, nodes with
  | O, _ | _, [] => Ret (Ok [])
  | S n, node :: rest =>
      match ParseAddr (nodeEndpoint r node) with
      | None => new_members b transit ip (S n) rest
      | Some endpoint =>
          if negb (eligible node) || negb (Is4 endpoint) || (om_UID (nd_Meta node) =? "")%string
          then new_members b transit ip (S n) rest
          else
            stop negb (Contains transit (Next ip)) with Errorf "transit pool lacks member addresses" ;;
            raw <-! call (RandRead 8) ;;
            let id := ("g" ++ hex_encode raw)%string in
            health <-! address (om_UID (nb_Meta b) ++ "/" ++ id ++ "/health") ;;
            let e := mkEndpoint id (om_Name (nd_Meta node)) (om_UID (nd_Meta node)) (AddrString endpoint) (AddrString ip) ""
                       (nb_LocalASN (nb_Spec b)) health [] false in
            more <-! new_members b transit (Next ip) n rest ;;
            Ret (Ok (mkMember e (ledgerName b ++ "-" ++ id ++ "-key") :: more))
      end
  end.

Definition ledger_current (b : NetworkBinding) (a : Attachment) (l : ledger) : bool :=
  (lg_OwnerUID l =? om_UID (nb_Meta b))%string && (lg_VPCUID l =? oi_UID (nb_VPCRef (nb_Spec b)))%string &&
  (lg_Location l =? nb_LocationRef (nb_Spec b))%string && (lg_TransitCIDR l =? at_TransitCIDR a)%string &&
  (lg_Profile l =? nb_TransportProfile (nb_Spec b))%string && (Z.of_nat (List.length (lg_Members l)) =? gw_Replicas r).

Definition ledger_object (b : NetworkBinding) (l : ledger) : ConfigMap :=
  mkConfigMap (metadata (ledgerName b) b (gw_Namespace r) ∅) None (<[ledgerData := encode_ledger l]> ∅).

(** A first membership, committed before it is used; [None]: another writer won. *)
Definition create_members (b : NetworkBinding) (a : Attachment) : kprog (res (option ledger)) :=
  rs <-! resources r b ;;
  stop negb (List.length rs =? 0)%nat with Errorf "GatewayLedgerLost: preserve existing incarnations for explicit recovery" ;;
  nodes <-! klist Local KNode (MatchingLabels (gw_NodeSelector r)) ;;
  let selected := List.filter selectable (sort_by_key (fun n : Node => om_Name (nd_Meta n)) nodes) in
  stop Z.of_nat (List.length selected) <? gw_Replicas r with insufficient ;;
  let transit := ParsePrefix_ (at_TransitCIDR a) in
  ms <-! new_members b transit (Next (Next (paddr transit))) (Z.to_nat (gw_Replicas r)) selected ;;
  stop negb (Z.of_nat (List.length ms) =? gw_Replicas r) with insufficient ;;
  let l := mkGatewayLedger (om_UID (nb_Meta b)) (oi_UID (nb_VPCRef (nb_Spec b))) (nb_LocationRef (nb_Spec b))
             (at_TransitCIDR a) (nb_TransportProfile (nb_Spec b)) ms in
  x <- kcreate Local KConfigMap (ledger_object b l) ;;
  Ret (match x with
       | Ok _ => Ok (Some l)
       | Err e => if IsAlreadyExists e then Ok None else Err e
       end).

Fixpoint members (fuel : nat) (b : NetworkBinding) (a : Attachment) : kprog (res ledger) :=
  found <-! kfind Local KConfigMap (gw_Namespace r) (ledgerName b) ;;
  match found with
  | Some cm =>
      stop negb (owned (cm_Meta cm) b) with Errorf "foreign gateway ledger" ;;
      match decode_ledger (get (cm_Data cm) ledgerData) with
      | None => Ret (Err (Errorf "invalid gateway ledger"))
      | Some l =>
          stop negb (ledger_current b a l)
            with Errorf "gateway allocation is immutable; replacement requires explicit retirement" ;;
          Ret (Ok l)
      end
  | None =>
      created <-! create_members b a ;;
      match created, fuel with
      | Some l, _ => Ret (Ok l)
      | None, S fuel => members fuel b a
      | None, O => Ret (Err out_of_fuel)
      end
  end.

Definition save_once (b : NetworkBinding) (l : ledger) : kprog (res unit) :=
  cm <-! kget Local KConfigMap (gw_Namespace r) (ledgerName b) ;;
  stop negb (owned (cm_Meta (cm : ConfigMap)) b) with Errorf "foreign gateway ledger" ;;
  let body := encode_ledger l in
  if (get (cm_Data (cm : ConfigMap)) ledgerData =? body)%string then Ret (Ok tt)
  else _ <-! kupdate Local KConfigMap (cm_with_Data (<[ledgerData := body]> (cm_Data (cm : ConfigMap))) cm) ;; Ret (Ok tt).
Definition saveLedger (b : NetworkBinding) (l : ledger) : kprog (res unit) := RetryOnConflict DefaultRetrySteps (save_once b l).

(** ** Keys and links *)

Definition clamp_bytes (raw : list Z) : list Z :=
  alter (fun x => Z.lor (Z.land x 127) 64) 31%nat (alter (fun x => Z.land x 248) 0%nat raw).
Definition new_secret (b : NetworkBinding) (m : member) (private public : list Z) : Secret :=
  mkSecret (metadata (mb_SecretName m) b (gw_Namespace r) ∅) (Some true) "Opaque"
    (<["privateKey" := base64_encode private]> (<["publicKey" := base64_encode public]> ∅)).
(** The member with the public key of an accepted secret. *)
Definition accept_key (b : NetworkBinding) (m : member) (s : Secret) : res member :=
  reject negb (owned (sc_Meta s) b) || negb (immutable (sc_Immutable s)) with Errorf "foreign or mutable gateway key" ;;
  match base64_decode (get (sc_Data s) "privateKey") with
  | None => Err (Errorf "invalid private key encoding")
  | Some raw =>
      match x25519_public raw with
      | None => Err (Errorf "invalid private key encoding")
      | Some public =>
          let pub := base64_encode public in
          reject negb (pub =? get (sc_Data s) "publicKey")%string with Errorf "gateway key pair mismatch" ;;
          reject negb (ge_PublicKey (mb_Endpoint m) =? "")%string && negb (ge_PublicKey (mb_Endpoint m) =? pub)%string
            with Errorf "gateway public key changed" ;;
          Ok (mkMember (ge_with_PublicKey pub (mb_Endpoint m)) (mb_SecretName m))
      end
  end.
Fixpoint ensureKey (fuel : nat) (b : NetworkBinding) (m : member) : kprog (res member) :=
  found <-! kfind Local KSecret (gw_Namespace r) (mb_SecretName m) ;;
  match found with
  | Some s => Ret (accept_key b m s)
  | None =>
      stop negb (ge_PublicKey (mb_Endpoint m) =? "")%string with Errorf "GatewayKeyLost: published identity cannot be regenerated" ;;
      random <-! call (RandRead 32) ;;
      let raw := clamp_bytes random in
      match x25519_public raw with
      | None => Ret (Err (Errorf "invalid private key"))
      | Some public =>
          x <- kcreate Local KSecret (new_secret b m raw public) ;;
          match x, fuel with
          | Ok s, _ => Ret (accept_key b m s)
          | Err e, S fuel => if IsAlreadyExists e then ensureKey fuel b m else Ret (Err e)
          | Err e, O => Ret (Err (if IsAlreadyExists e then out_of_fuel else e))
          end
      end
  end.

(** The link to one peer, or [None] while its native control VNI is not issued. *)
Definition claim_link (b : NetworkBinding) (m : member) (remote : string) : kprog (res (option GatewayLink)) :=
  let key := (om_UID (nb_Meta b) ++ "/" ++ ge_ID (mb_Endpoint m) ++ "/" ++ remote)%string in
  let profile := nb_TransportProfile (nb_Spec b) in
  let here := peerID (nb_LocationRef (nb_Spec b)) (ge_ID (mb_Endpoint m)) in
  ip <-! address key ;;
  if (profile =? "wireguard-bgp")%string then
    port <-! allocate r key true (ge_NodeUID (mb_Endpoint m)) ;;
    Ret (Ok (Some (mkLink remote (default 0 (Atoi port)) ip 0)))
  else if (profile =? "geneve-bgp")%string || (profile =? "vxlan-evpn")%string then
    let vni := foldl (fun v pair =>
                 if ((la_PeerA pair =? here)%string && (la_PeerB pair =? remote)%string) ||
                    ((la_PeerB pair =? here)%string && (la_PeerA pair =? remote)%string)
                 then la_ControlVNI pair else v) 0 (nb_LinkAllocations (nb_Spec b)) in
    Ret (Ok (if vni =? 0 then None
             else Some (mkLink remote (if (profile =? "vxlan-evpn")%string then 4788 else 6082) ip vni)))
  else Ret (Err (Errorf "unknown transport profile")).
Fixpoint claim_links (b : NetworkBinding) (m : member) (existing : gmap string GatewayLink) (peers : list PeerGateway)
    : kprog (res (gmap string GatewayLink)) :=
  match peers with
  | [] => Ret (Ok existing)
  | p :: rest =>
      let remote := peerID (pg_LocationRef p) (ge_ID (pg_Endpoint p)) in
      stop (pg_LocationRef p =? nb_LocationRef (nb_Spec b))%string || (ge_ID (pg_Endpoint p) =? "")%string
        with Errorf "invalid remote peer identity" ;;
      if bool_decide (existing !! remote <> None) then claim_links b m existing rest
      else
        x <-! claim_link b m remote ;;
        claim_links b m (match x with Some l => <[remote := l]> existing | None => existing end) rest
  end.
Definition linkClaims (b : NetworkBinding) (m : member) : kprog (res member) :=
  let existing := foldl (fun e l => <[gl_PeerID l := l]> e) ∅ (ge_Links (mb_Endpoint m)) in
  links <-! claim_links b m existing (nb_Peers (nb_Spec b)) ;;
  Ret (Ok (mkMember (ge_with_Links (sort_by_key gl_PeerID (map snd (map_to_list links))) (mb_Endpoint m)) (mb_SecretName m))).

Fixpoint prepare_members (fuel : nat) (b : NetworkBinding) (ms : list member) : kprog (res (list member)) :=
  match ms with
  | [] => Ret (Ok [])
  | m :: rest =>
      m <-! (if (nb_TransportProfile (nb_Spec b) =? "wireguard-bgp")%string then ensureKey fuel b m else Ret (Ok m)) ;;
      m <-! linkClaims b m ;;
      more <-! prepare_members fuel b rest ;;
      Ret (Ok (m :: more))
  end.

Fixpoint check_nodes (ms : list member) : kprog (res unit) :=
  match ms with
  | [] => Ret (Ok tt)
  | m :: rest =>
      x <- kget Local KNode "" (ge_NodeName (mb_Endpoint m)) ;;
      match x with
      | Err e => Ret (Err (Wrapf "NodeIdentityUnavailable" e))
      | Ok n =>
          stop negb (om_UID (nd_Meta (n : Node)) =? ge_NodeUID (mb_Endpoint m))%string ||
               negb (nodeEndpoint r n =? ge_EndpointIP (mb_Endpoint m))%string
            with Errorf "NodeIdentityChanged: explicit fenced replacement is required" ;;
          check_nodes rest
      end
  end.

(** ** Runtime objects *)

(** The struct whose JSON is hashed to name a runtime generation. *)
Definition generation_hash (data : gmap string string) (image : string) : string :=
  sha256_hex (Marshal (JObj [("Data", map_json JStr data); ("Image", JStr image)])).

Fixpoint read_runtime (names : list string) (data : gmap string string) : kprog (res (gmap string string)) :=
  match names with
  | [] => Ret (Ok data)
  | name :: rest =>
      x <- call (ReadFile (gw_RuntimeDir r) name) ;;
      match x with
      | Err e => Ret (Err (Wrapf ("read gateway runtime " ++ name) e))
      | Ok raw => read_runtime rest (<[name := raw]> data)
      end
  end.

Definition gateway_container (wireguard : bool) : Container :=
  mkContainer "gateway" (gw_Image r) ["python3"; "/app/managed.py"] [] (Some true) (Some ["python3"; "/app/managed.py"; "--ready"])
    ([mkMount "runtime" "/app" true "" ""; mkMount "runtime" "/config" true "" ""] ++
     if wireguard then [mkMount "keys" "/keys" true "" ""] else []).
Definition pod_annotations (b : NetworkBinding) (m : member) (hash : string) : gmap string string :=
  <[configHash := hash]> (<["ovn.kubernetes.io/logical_switch" := transitName b]>
    (<["ovn.kubernetes.io/ip_address" := ge_TransitIP (mb_Endpoint m)]> (<["ovn.kubernetes.io/port_security" := "false"]> ∅))).

(** The immutable configuration and the Pod of one generation. Write-only constants
    of the Pod (resources, probe timing, pull and restart policy) are not kept. *)
Definition objects (b : NetworkBinding) (m : member) (config : json) : kprog (res (ConfigMap * Pod)) :=
  files <-! read_runtime ["gateway.py"; "overlay.py"; "evpn.py"; "managed.py"] ∅ ;;
  let data := <["gateway.json" := Marshal config]> files in
  let hash := generation_hash data (gw_Image r) in
  let name := podName b m in
  let cm := mkConfigMap (metadata (name ++ "-" ++ take 10 hash) b (gw_Namespace r) ∅) (Some true) data in
  let wireguard := (nb_TransportProfile (nb_Spec b) =? "wireguard-bgp")%string in
  let meta := metadata name b (gw_Namespace r) (pod_annotations b m hash) in
  let pod := mkPod (set_Labels (<[memberLabel := ge_ID (mb_Endpoint m)]> (om_Labels meta)) meta)
               (ge_NodeName (mb_Endpoint m)) false true (Some false) [gateway_container wireguard] []
               ([mkVolume "runtime" (Some (om_Name (cm_Meta cm))) None] ++
                if wireguard then [mkVolume "keys" None (Some (mb_SecretName m))] else []) [] in
  Ret (Ok (cm, pod)).

Definition ensureConfig (b : NetworkBinding) (want : ConfigMap) : kprog (res unit) :=
  found <-! kfind Local KConfigMap (om_Namespace (cm_Meta want)) (om_Name (cm_Meta want)) ;;
  match found with
  | None => _ <-! kcreate Local KConfigMap want ;; Ret (Ok tt)
  | Some actual =>
      stop negb (owned (cm_Meta actual) b) || negb (bool_decide (cm_Data actual = cm_Data want)) ||
           negb (immutable (cm_Immutable actual))
        with Errorf "foreign or modified runtime ConfigMap" ;;
      Ret (Ok tt)
  end.

Fixpoint prune (b : NetworkBinding) (used : list string) (cms : list ConfigMap) : kprog (res unit) :=
  match cms with
  | [] => Ret (Ok tt)
  | cm :: rest =>
      if bool_decide (om_Name (cm_Meta cm) ∈ used) then prune b used rest
      else _ <-! deleteRecord r b (record "ConfigMap" (cm_Meta cm)) ;; prune b used rest
  end.
Definition pruneConfigs (b : NetworkBinding) : kprog (res unit) :=
  let mine := mkSel (Some (gw_Namespace r)) (<[OwnerLabel := om_UID (nb_Meta b)]> ∅) in
  pods <-! klist Local KPod mine ;;
  cms <-! klist Local KConfigMap mine ;;
  prune b (ledgerName b :: flat_map (fun p => omap vo_ConfigMap (pd_Volumes p)) pods) cms.

(** ** Verifying a running Pod *)

Definition mount_ok (i : nat) (mount : VolumeMount) : bool :=
  (vm_Name mount =? (if (i =? 2)%nat then "keys" else "runtime"))%string &&
  (vm_MountPath mount =? (match i with 0%nat => "/app" | 1%nat => "/config" | 2%nat => "/keys" | _ => "/app" end))%string &&
  vm_ReadOnly mount && (vm_SubPath mount =? "")%string && (vm_SubPathExpr mount =? "")%string.
Fixpoint mounts_ok (i : nat) (l : list VolumeMount) : bool :=
  match l with [] => true | m :: l => mount_ok i m && mounts_ok (S i) l end.
Definition volumes_ok (wireguard : bool) (secret : string) (p : Pod) (c : Container) : res string :=
  let want := if wireguard then 2%nat else 1%nat in
  match pd_Volumes p with
  | v :: rest =>
      match vo_ConfigMap v with
      | None => Err (Errorf "gateway Pod runtime volume changed")
      | Some name =>
          reject negb (List.length (pd_Volumes p) =? want)%nat || negb (List.length (ct_VolumeMounts c) =? want + 1)%nat ||
                 negb (vo_Name v =? "runtime")%string with Errorf "gateway Pod runtime volume changed" ;;
          reject wireguard && negb (match rest with
                                    | k :: _ => (vo_Name k =? "keys")%string && bool_decide (vo_Secret k = Some secret)
                                    | [] => false
                                    end) with Errorf "gateway Pod key reference changed" ;;
          reject negb (mounts_ok 0 (ct_VolumeMounts c)) with Errorf "gateway Pod runtime mount changed" ;;
          Ok name
      end
  | [] => Err (Errorf "gateway Pod runtime volume changed")
  end.
(** The checks on the Pod alone, giving the name of its configuration. *)
Definition pod_shape (b : NetworkBinding) (m : member) (p : Pod) : res (string * string) :=
  match pd_Containers p with
  | [c] =>
      reject negb (pd_NodeName p =? ge_NodeName (mb_Endpoint m))%string || pd_HostNetwork p || negb (pd_HostPID p) ||
             negb (bool_decide (pd_Automount p = Some false)) || negb (List.length (pd_InitContainers p) =? 0)%nat
        with Errorf "gateway Pod isolation or placement changed" ;;
      reject negb (ct_Name c =? "gateway")%string || negb (bool_decide (ct_Command c = ["python3"; "/app/managed.py"])) ||
             negb (List.length (ct_Args c) =? 0)%nat || negb (bool_decide (ct_Privileged c = Some true)) ||
             negb (bool_decide (ct_ReadinessExec c = Some ["python3"; "/app/managed.py"; "--ready"]))
        with Errorf "gateway Pod runtime command changed" ;;
      name <-? volumes_ok (nb_TransportProfile (nb_Spec b) =? "wireguard-bgp")%string (mb_SecretName m) p c ;;
      Ok (name, ct_Image c)
  | _ => Err (Errorf "gateway Pod isolation or placement changed")
  end.
Definition verifyPod (b : NetworkBinding) (m : member) (p : Pod) : kprog (res unit) :=
  shape <-! Ret (pod_shape b m p) ;;
  cm <-! kget Local KConfigMap (gw_Namespace r) (fst shape) ;;
  stop negb (owned (cm_Meta (cm : ConfigMap)) b) || negb (immutable (cm_Immutable (cm : ConfigMap)))
    with Errorf "gateway accepted configuration ownership changed" ;;
  let annotation := get (om_Annotations (pd_Meta p)) in
  stop negb (generation_hash (cm_Data (cm : ConfigMap)) (snd shape) =? annotation configHash)%string
    with Errorf "gateway accepted image or configuration changed" ;;
  stop negb (annotation "ovn.kubernetes.io/logical_switch" =? transitName b)%string ||
       negb (annotation "ovn.kubernetes.io/ip_address" =? ge_TransitIP (mb_Endpoint m))%string ||
       negb (annotation "ovn.kubernetes.io/port_security" =? "false")%string
    with Errorf "gateway native network attachment changed" ;;
  Ret (Ok tt).

(** ** Rollout *)

(** A member with its desired configuration and the Pod it has. *)
Record slot := mkSlot { sl_member : member; sl_config : json; sl_pod : option Pod; sl_ready : bool }.

Fixpoint read_pods (b : NetworkBinding) (ms : list member) : kprog (res (list (option Pod))) :=
  match ms with
  | [] => Ret (Ok [])
  | m :: rest =>
      found <-! kfind Local KPod (gw_Namespace r) (podName b m) ;;
      p <-! match found with
            | None => Ret (Ok None)
            | Some p =>
                stop negb (owned (pd_Meta p) b) with Errorf "foreign gateway Pod" ;;
                _ <-! verifyPod b m p ;; Ret (Ok (Some p))
            end ;;
      more <-! read_pods b rest ;;
      Ret (Ok (p :: more))
  end.

Definition terminating (p : Pod) : bool := bool_decide (om_DeletionTimestamp (pd_Meta p) <> None).
Definition slot_recovered (s : slot) : bool :=
  match sl_pod s with Some p => negb (terminating p) && sl_ready s | None => false end.

(** Every other member must pass the native probe against its own configuration. *)
Fixpoint probe_all (others : list slot) : kprog (res bool) :=
  match others with
  | [] => Ret (Ok true)
  | s :: rest =>
      match sl_pod s with
      | None => Ret (Err (Errorf "unreachable: a recovered sibling has a Pod"))
      | Some p =>
          healthy <-! call (Probe p (sl_config s)) ;;
          if healthy : bool then probe_all rest else Ret (Ok false)
      end
  end.

(** How the loop over the members ends. *)
Inductive progress :=
| Halt (reason : string)
| Retired (index : nat)
| Through (changed : bool) (reason : string).

(** The replacement of one outdated generation. *)
Definition retire (index : nat) (old : Pod) (others : list slot) : kprog (res progress) :=
  if negb (existsb sl_ready others) then Ret (Ok (Halt "UpdateBlockedByUnavailableSibling"))
  else if negb (forallb slot_recovered others) then Ret (Ok (Halt "WaitingForSiblingRecovery"))
  else if negb (gw_RolloutProbe r) then Ret (Ok (Halt "UpdateBlockedWithoutNativeProbe"))
  else
    healthy <-! probe_all others ;;
    if negb healthy then Ret (Ok (Halt "WaitingForSiblingNativeConvergence"))
    else x <- delete_object Local KPod old ;;
         Ret (match ignore_not_found x with Ok _ => Ok (Retired index) | Err e => Err e end).

Fixpoint rollout (b : NetworkBinding) (before todo : list slot) (changed : bool) (reason : string) : kprog (res progress) :=
  match todo with
  | [] => Ret (Ok (Through changed reason))
  | s :: rest =>
      made <-! objects b (sl_member s) (sl_config s) ;;
      _ <-! ensureConfig b (fst made) ;;
      match sl_pod s with
      | None =>
          x <- kcreate Local KPod (snd made) ;;
          match x with
          | Err e => if IsAlreadyExists e then rollout b (before ++ [s]) rest true reason else Ret (Err e)
          | Ok _ => rollout b (before ++ [s]) rest true reason
          end
      | Some old =>
          if terminating old then rollout b (before ++ [s]) rest true "WaitingForGatewayTermination"
          else if (get (om_Annotations (pd_Meta old)) configHash =? get (om_Annotations (pd_Meta (snd made))) configHash)%string
          then rollout b (before ++ [s]) rest changed reason
          else retire (List.length before) old (before ++ rest)
      end
  end.

(** ** [Ensure] *)

Fixpoint render_all (b : NetworkBinding) (a : Attachment) (l : ledger) (ms : list member) : res (list (option json)) :=
  match ms with
  | [] => Ok []
  | m :: rest =>
      match render r b a l m with
      | Broken e => Err e
      | Incomplete => more <-? render_all b a l rest ;; Ok (None :: more)
      | Rendered c => more <-? render_all b a l rest ;; Ok (Some c :: more)
      end
  end.
Fixpoint slots (ms : list member) (configs : list (option json)) (pods : list (option Pod)) : list slot :=
  match ms, configs, pods with
  | m :: ms, c :: configs, p :: pods =>
      mkSlot m (default JNull c) p (match p with Some p => podReady p | None => false end) :: slots ms configs pods
  | _, _, _ => []
  end.
Definition endpoints (ss : list slot) : list GatewayEndpoint :=
  map (fun s => match sl_pod s with
                | Some _ => ge_with_Ready (sl_ready s) (mb_Endpoint (sl_member s))
                | None => mb_Endpoint (sl_member s)
                end) ss.

Definition conclude (b : NetworkBinding) (gateways : list GatewayEndpoint) (p : progress) : kprog (res GatewayResult) :=
  match p with
  | Halt reason => withResources r b (mkGatewayResult gateways [] false reason)
  | Retired i => withResources r b (mkGatewayResult (alter (ge_with_Ready false) i gateways) [] false "RollingGatewayGeneration")
  | Through changed reason =>
      let ready := negb changed && forallb ge_Ready gateways in
      let reason := if ready then "Ready" else if (reason =? "Initializing")%string then "WaitingForGatewayHealth" else reason in
      _ <-! pruneConfigs b ;;
      withResources r b (mkGatewayResult gateways [] ready reason)
  end.

Definition EnsureGateway (fuel : nat) (b : NetworkBinding) (a : Attachment) : kprog (res GatewayResult) :=
  _ <-! Ret (validate r b a) ;;
  _ <-! registry r false [b] ;;
  l <-! members fuel b a ;;
  _ <-! Ret (validateLedger r b a l) ;;
  _ <-! check_nodes (lg_Members l) ;;
  ms <-! prepare_members fuel b (lg_Members l) ;;
  let l := mkGatewayLedger (lg_OwnerUID l) (lg_VPCUID l) (lg_Location l) (lg_TransitCIDR l) (lg_Profile l) ms in
  _ <-! saveLedger b l ;;
  configs <-! Ret (render_all b a l ms) ;;
  pods <-! read_pods b ms ;;
  let ss := slots ms configs pods in
  if existsb (fun c => bool_decide (c = None)) (map (option_map (fun _ => tt)) configs)
  then conclude b (endpoints ss) (Halt "DiscoveringPeerAllocations")
  else p <-! rollout b [] ss false "Initializing" ;; conclude b (endpoints ss) p.

(** The adapter of [cmd/platform-vpc-controller]. *)
Definition managed_gateway (fuel : nat) : Gateway :=
  mkGateway (fun b a => EnsureGateway fuel b (mkAttachment (TransitCIDR a) (RouterIP a) (BFDSourceIP a) []))
            (Delete r).
End ensure.
