(* ===== verification/GatewayEnsureFacts.v ===== *)
(** * What [Ensure] promises

    [ensure_permitted] is the contract of a gateway pass: it writes only the
    registry and objects owned by its binding, it generates a key only for a member
    that published none, and it takes down a running Pod only when every other
    member was found healthy. *)
From S2P Require Import Prelude GoStd Json JsonDecode NetIP NetIPFacts SiteConfig Api Prog Kube PlatformPlan Allocation LocalReconciler.
From S2P Require Import GatewayRegistry GatewayRegistryFacts X25519 GatewayRender GatewayReconciler GatewayEnsure.
Open Scope Z_scope.

Definition reads (o : op) : Prop := match o with Get Local _ _ _ | ListObjects Local _ _ => True | _ => False end.
Definition pod_delete (o : op) : Prop := match o with Kube.Delete _ KPod _ _ _ => True | _ => False end.

(** Sequencing when the first part only has to keep the discipline. *)
Section sequencing.
Context (R : history -> op -> Prop).
Definition keeps {A} (p : kprog A) (h : history) : Prop := wp any_answer R p h (fun _ _ => True).
Lemma wp_after {A} (p : kprog A) h Q : keeps p h -> (forall a h', extends h h' -> Q h' a) -> wp any_answer R p h Q.
Proof. intros HK HQ. eapply wp_mono; [|by apply wp_extends]. intros h' a [HE _]. auto. Qed.
Lemma keeps_call o h : R h o -> keeps (call o) h.
Proof. intros. by apply wp_call. Qed.
Lemma keeps_bind {A B} (p : kprog A) (f : A -> kprog B) h :
  keeps p h -> (forall a h', extends h h' -> keeps (f a) h') -> keeps (bind p f) h.
Proof. intros HK HF. apply wp_bind_rule. by apply wp_after. Qed.
Lemma keeps_bind_ok {A B} (p : kprog (res A)) (f : A -> kprog (res B)) h :
  keeps p h -> (forall a h', extends h h' -> keeps (f a) h') -> keeps (bind_ok p f) h.
Proof. intros HK HF. apply wp_bind_ok_rule. apply wp_after; [done|]. intros [a|e] h' HE; [by apply HF|done]. Qed.
Lemma keeps_attempts {A} n (body : kprog (res A)) h : (forall h', extends h h' -> keeps body h') -> keeps (attempts n body) h.
Proof.
  intros HB. apply (wp_attempts _ _ (extends h)); [|apply extends_refl]. intros h1 E1.
  eapply wp_mono; [|by apply wp_extends, HB]. intros h2 x [E2 _]. split; [done|]. intros _. extending.
Qed.
End sequencing.

(** Of two calls of one history, one is the other or comes before it. *)
Lemma called_order (h h1 h2 : history) o1 o2 (x1 : ans o1) (x2 : ans o2) t1 t2 : h = h1 ++ Ev o1 x1 :: t1 -> h = h2 ++ Ev o2 x2 :: t2 ->
  h2 = h1 \/ In (Ev o1 x1) h2 \/ In (Ev o2 x2) h1.
Proof.
  intros -> E. revert h2 E. induction h1 as [|e h1 IH]; intros [|e' h2] E; simpl in E.
  - by left.
  - injection E as E _. right. left. left. by rewrite E.
  - injection E as E _. right. right. left. done.
  - injection E as -> E. destruct (IH _ E) as [->|[?|?]]; [by left|right; left; by right|right; right; by right].
Qed.

Section ensure.
Context {RT : Retry}.
Variables (r : GatewayReconciler) (b : NetworkBinding).
Let ns := gw_Namespace r.

(** ** The contract *)

(** The membership of this pass, read or just created. *)
Definition membership (h : history) (l : ledger) : Prop :=
  (exists cm, asked h (Get Local KConfigMap ns (ledgerName b)) (Ok cm) /\ owned (cm_Meta cm) b = true /\
     decode_ledger (get (cm_Data cm) ledgerData) = Some l) \/
  (exists stored, asked h (Create Local KConfigMap (ledger_object r b l)) (Ok stored)).
(** The ledger holds exactly this content. *)
Definition saved (h : history) (l : ledger) : Prop :=
  exists cm, asked h (Get Local KConfigMap ns (ledgerName b)) (Ok cm) /\ owned (cm_Meta cm) b = true /\
    (get (cm_Data cm) ledgerData = encode_ledger l \/
     exists stored, asked h (Update Local KConfigMap (cm_with_Data (<[ledgerData := encode_ledger l]> (cm_Data cm)) cm)) (Ok stored)).
Definition own (o : ObjectMeta) : Prop := owned o b = true /\ om_Namespace o = ns.
Definition missing (h : history) (k : kind) (name : string) : Prop :=
  exists x, asked h (Get Local k ns name) x /\ found x = Ok None.
Definition mine : selector := mkSel (Some ns) (<[OwnerLabel := om_UID (nb_Meta b)]> ∅).

Definition registry_call (h : history) (o : op) : Prop := exists key port node, registry_permitted r key port node h o.

(** Everything but taking down a Pod. *)
Definition benign (h : history) (o : op) : Prop :=
  registry_call h o \/
  match o with
  | RandRead _ | ReadFile _ _ => True
  | Probe p _ => exists name, asked h (Get Local KPod ns name) (Ok p)
  | Create Local k x =>
      match k return object k -> Prop with
      | KConfigMap => fun cm => own (cm_Meta cm)
      | KPod => fun p => own (pd_Meta p)
      | KSecret => fun s => own (sc_Meta s) /\ sc_Immutable s = Some true /\ missing h KSecret (om_Name (sc_Meta s)) /\
          exists l m, membership h l /\ In m (lg_Members l) /\ mb_SecretName m = om_Name (sc_Meta s) /\ ge_PublicKey (mb_Endpoint m) = ""%string
      | _ => fun _ => False
      end x
  | Update Local k x =>
      match k return object k -> Prop with
      | KConfigMap => fun cm => exists cm0 l, asked h (Get Local KConfigMap ns (ledgerName b)) (Ok cm0) /\ owned (cm_Meta cm0) b = true /\
          cm = cm_with_Data (<[ledgerData := encode_ledger l]> (cm_Data cm0)) cm0
      | _ => fun _ => False
      end x
  | Kube.Delete Local k nsp nm p =>
      k = KConfigMap /\ exists name cm pods, asked h (Get Local KConfigMap ns name) (Ok cm) /\ owned (cm_Meta cm) b = true /\ name <> ledgerName b /\
        asked h (ListObjects Local KPod mine) (Ok pods) /\ (forall q v, In q pods -> In v (pd_Volumes q) -> vo_ConfigMap v <> Some name) /\
        nsp = om_Namespace (cm_Meta cm) /\ nm = om_Name (cm_Meta cm) /\ p = mkPre (Some (om_UID (cm_Meta cm))) (Some (om_ResourceVersion (cm_Meta cm)))
  | _ => False
  end.

(** A member whose Pod was found running and converged in this pass. *)
Definition healthy (h : history) (a : Attachment) (l : ledger) (m : member) : Prop :=
  exists p config, asked h (Get Local KPod ns (podName b m)) (Ok p) /\ owned (pd_Meta p) b = true /\
    om_DeletionTimestamp (pd_Meta p) = None /\ podReady p = true /\
    render r b a l m = Rendered config /\ asked h (Probe p config) (Ok true).

(** One outdated Pod may be taken down. *)
Definition retirement (a : Attachment) (h : history) (nsp nm : string) (pre : Preconditions) : Prop :=
  gw_RolloutProbe r = true /\ never pod_delete h /\
  exists l i m old, saved h l /\ lg_Members l !! i = Some m /\ (2 <= List.length (lg_Members l))%nat /\
    asked h (Get Local KPod ns (podName b m)) (Ok old) /\ owned (pd_Meta old) b = true /\ om_DeletionTimestamp (pd_Meta old) = None /\
    nsp = om_Namespace (pd_Meta old) /\ nm = om_Name (pd_Meta old) /\
    pre = mkPre (Some (om_UID (pd_Meta old))) (Some (om_ResourceVersion (pd_Meta old))) /\
    forall j m', j <> i -> lg_Members l !! j = Some m' -> healthy h a l m'.

Definition ensure_permitted (a : Attachment) (h : history) (o : op) : Prop :=
  benign h o \/ match o with Kube.Delete Local KPod nsp nm p => retirement a h nsp nm p | _ => False end.

Lemma benign_reads h o : reads o -> benign h o.
Proof. intros Hr. left. exists "", false, "". by destruct o as [[]| [] | | | | | | |]. Qed.
Lemma benign_no_pod_delete h o : benign h o -> ~ pod_delete o.
Proof.
  intros [(key & port & node & H)|H] Hp; destruct o as [| | | | |[] [] ? ? ?| | |]; try done. by destruct H.
Qed.

(** ** Steps that keep the discipline *)

Let R := benign.
Notation keeps p h := (keeps R p h).

Lemma membership_extends h h' l : extends h h' -> membership h l -> membership h' l.
Proof.
  intros HE [(cm & H1 & H2)|(st & H1)]; [left|right]; [exists cm; split; [by eapply asked_extends|done]|].
  exists st. by eapply asked_extends.
Qed.
Lemma saved_extends h h' l : extends h h' -> saved h l -> saved h' l.
Proof.
  intros HE (cm & H1 & H2 & H3). exists cm. split; [by eapply asked_extends|]. split; [done|].
  destruct H3 as [?|(st & ?)]; [by left|right]. exists st. by eapply asked_extends.
Qed.

Lemma keeps_read o h : reads o -> keeps (call o) h.
Proof. intros. by apply keeps_call, benign_reads. Qed.
Lemma keeps_find k nsp name h : keeps (kfind Local k nsp name) h.
Proof. apply keeps_bind; [by apply keeps_read|]. done. Qed.
Hint Resolve keeps_find : core.

Lemma keeps_named_secrets names h : keeps (named_secrets r b names) h.
Proof.
  revert h. induction names as [|name names IH]; intros h; [done|]. apply keeps_bind_ok; [done|]. intros [s|] h1 E1; [|done].
  destruct (negb _); [done|]. apply keeps_bind_ok; [done|]. done.
Qed.
Lemma keeps_resources h : keeps (resources r b) h.
Proof.
  unfold resources. do 2 (apply keeps_bind_ok; [by apply keeps_read|]; intros). do 2 (apply keeps_bind_ok; [done|]; intros).
  apply keeps_bind_ok; [by apply keeps_read|]. intros. destruct (negb _); [done|].
  apply keeps_bind_ok; [apply keeps_named_secrets|done].
Qed.
Lemma keeps_withResources x h : keeps (withResources r b x) h.
Proof. apply keeps_bind_ok; [apply keeps_resources|done]. Qed.

Lemma keeps_allocate key port node h : keeps (allocate r key port node) h.
Proof.
  apply (wp_weaken any_answer _ (registry_permitted r key port node)); [done| |by apply wp_gateway_allocate].
  intros h' o Ho. left. by exists key, port, node.
Qed.
Lemma keeps_registry bootstrap extra h : keeps (registry r bootstrap extra) h.
Proof.
  apply (wp_weaken any_answer _ (registry_permitted r "" false "")); [done| |by apply wp_gateway_registry].
  intros h' o Ho. left. by exists ""%string, false, ""%string.
Qed.

Lemma owned_metadata name annotations : owned (metadata name b ns annotations) b = true.
Proof. unfold owned, metadata. cbn. unfold labels, get. rewrite lookup_insert_eq. cbn. by rewrite !String.eqb_refl. Qed.
Lemma own_metadata name annotations : own (metadata name b ns annotations).
Proof. split; [apply owned_metadata|done]. Qed.

Lemma keeps_new_members transit n nodes : forall ip h, keeps (new_members r b transit ip n nodes) h.
Proof.
  revert n. induction nodes as [|node nodes IH]; intros n ip h; [by destruct n|]. destruct n as [|n]; [done|]. cbn [new_members].
  destruct (ParseAddr _); [|apply IH]. destruct (_ || _); [apply IH|]. destruct (negb _); [done|].
  apply keeps_bind_ok; [apply keeps_call; by right|]. intros raw h1 E1.
  apply keeps_bind_ok; [apply keeps_allocate|]. intros health h2 E2. by apply keeps_bind_ok.
Qed.

(** ** Members *)

Lemma wp_create_members a h (Q : history -> res (option ledger) -> Prop) :
  (forall x h', extends h h' -> (forall l, x = Ok (Some l) -> membership h' l) -> Q h' x) ->
  wp any_answer R (create_members r b a) h Q.
Proof.
  intros HQ. assert (forall e h', extends h h' -> Q h' (Err e)) as HE by (intros; by apply HQ).
  unfold create_members. wstep. apply wp_after; [apply keeps_resources|]. intros [rs|e] h1 E1; [|by apply HE].
  wstep; [by apply HE|]. wstep. apply wp_after; [by apply keeps_read|]. intros [nodes|e] h2 E2; [|apply HE; extending].
  wstep; [apply HE; extending|]. wstep. apply wp_after; [apply keeps_new_members|]. intros [ms|e] h3 E3; [|apply HE; extending].
  wstep; [apply HE; extending|]. wstep. wstep.
  { right. apply own_metadata. }
  intros [st|e] _; wstep; [|destruct (IsAlreadyExists e); apply HQ; done || extending].
  apply HQ; [extending|]. intros l [= <-]. right. exists st. apply asked_snoc.
Qed.

Lemma wp_members fuel a h (Q : history -> res ledger -> Prop) :
  (forall x h', extends h h' -> (forall l, x = Ok l -> membership h' l) -> Q h' x) ->
  wp any_answer R (members r fuel b a) h Q.
Proof.
  revert h Q. induction fuel as [|fuel IH]; intros h Q HQ;
    (assert (forall e h', extends h h' -> Q h' (Err e)) as HE by (intros; by apply HQ));
    cbn [members]; wstep; (wstep; [by apply benign_reads|]); intros x _;
    (assert (extends h (h ++ [Ev (Get Local KConfigMap ns (ledgerName b)) x])) as E1 by extending);
    (destruct (found x) as [[cm|]|e] eqn:Ef; [| |by apply HE]).
  1,3: apply found_some in Ef; subst x; (wstep; [by apply HE|]); breflect;
    (destruct (decode_ledger _) as [l|] eqn:El; [|by apply HE]); (wstep; [by apply HE|]);
    apply HQ; [done|]; intros l' [= <-]; left; exists cm; split; [apply asked_snoc|done].
  all: wstep; apply wp_create_members; intros [[l|]|e] h2 E2 Hm; try (apply HE; extending).
  1,2: apply HQ; [extending|]; intros l' [= <-]; by apply Hm.
  apply IH. intros x' h3 E3. apply HQ. extending.
Qed.

Lemma wp_saveLedger l h (Q : history -> res unit -> Prop) :
  (forall x h', extends h h' -> (x = Ok tt -> saved h' l) -> Q h' x) -> wp any_answer R (saveLedger r b l) h Q.
Proof.
  intros HQ. unfold saveLedger. destruct (RetryOnConflict_attempts _ DefaultRetrySteps (save_once r b l)) as (n & ->).
  apply (wp_attempts _ _ (extends h)); [|apply extends_refl]. intros h1 E1.
  assert (forall x h', extends h1 h' -> (x = Ok tt -> saved h' l) -> Q h' x /\ (is_ok x = false -> extends h h')) as HQ1.
  { intros x h' HE Hs. split; [apply HQ; [extending|done]|]. intros _. extending. }
  unfold save_once. wstep. wstep; [by apply benign_reads|]. intros [cm|e] _; [|apply HQ1; [extending|done]].
  set (h2 := h1 ++ [_]). assert (extends h1 h2) as E2 by extending.
  assert (asked h2 (Get Local KConfigMap ns (ledgerName b)) (Ok cm)) as HA by apply asked_snoc.
  wstep; [apply HQ1; done|]. breflect. cbv zeta. wstep.
  - breflect. apply HQ1; [done|]. intros _. exists cm. split; [done|]. split; [done|by left].
  - wstep. wstep; [right; by exists cm, l|]. intros [st|e] _; [wstep|]; (apply HQ1; [extending|]); [|done].
    intros _. exists cm. split; [by apply (asked_extends h2); [extending|]|]. split; [done|]. right. exists st. apply asked_snoc.
Qed.

(** ** Keys and links *)

Lemma keeps_ensureKey fuel l m : forall h, membership h l -> In m (lg_Members l) -> keeps (ensureKey r fuel b m) h.
Proof.
  induction fuel as [|fuel IH]; intros h Hl Hm; cbn [ensureKey]; apply wp_bind_ok_rule; (wstep; [by apply benign_reads|]); intros x _;
    (assert (extends h (h ++ [Ev (Get Local KSecret ns (mb_SecretName m)) x])) as E1 by extending);
    (destruct (found x) as [[s|]|e] eqn:Ef; [done| |done]); (destruct (negb _) eqn:Ek; [done|]); breflect;
    (apply keeps_bind_ok; [apply keeps_call; by right|]); intros raw h2 E2;
    (destruct (x25519_public _) as [public|]; [|done]);
    (assert (R h2 (Create Local KSecret (new_secret r b m (clamp_bytes raw) public))) as HR by
       (right; split; [apply own_metadata|]; split; [done|]; split;
        [exists x; split; [apply (asked_extends (h ++ [Ev (Get Local KSecret ns (mb_SecretName m)) x])); [extending|apply asked_snoc]|done]|];
        exists l, m; split; [apply (membership_extends h); [extending|done]|done])).
  all: apply keeps_bind; [by apply keeps_call|]; intros [s|e] h3 E3; try done.
  destruct (IsAlreadyExists e); [|done]. apply IH; [|done]. apply (membership_extends h); [extending|done].
Qed.

Lemma keeps_claim_links m peers : forall existing h, keeps (claim_links r b m existing peers) h.
Proof.
  induction peers as [|p peers IH]; intros existing h; [done|]. cbn [claim_links]. destruct (_ || _); [done|].
  destruct (bool_decide _); [apply IH|]. apply keeps_bind_ok; [|intros; apply IH]. unfold claim_link.
  apply keeps_bind_ok; [apply keeps_allocate|]. intros ip h1 E1. destruct (_ =? "wireguard-bgp")%string; [|by destruct (_ || _)].
  apply keeps_bind_ok; [apply keeps_allocate|done].
Qed.

Lemma keeps_prepare_members fuel l ms : (forall m, In m ms -> In m (lg_Members l)) -> forall h, membership h l ->
  keeps (prepare_members r fuel b ms) h.
Proof.
  induction ms as [|m ms IH]; intros Hms h Hl; [done|]. cbn [prepare_members]. apply keeps_bind_ok.
  { destruct (_ =? _)%string; [|done]. apply (keeps_ensureKey fuel l); [done|]. apply Hms. by left. }
  intros m1 h1 E1. apply keeps_bind_ok; [apply keeps_bind_ok; [apply keeps_claim_links|done]|]. intros m2 h2 E2.
  apply keeps_bind_ok; [|done]. apply IH; [intros; apply Hms; by right|]. apply (membership_extends h); [extending|done].
Qed.
Lemma keeps_check_nodes ms h : keeps (check_nodes r ms) h.
Proof.
  revert h. induction ms as [|m ms IH]; intros h; [done|]. cbn [check_nodes]. apply wp_bind_rule. wstep; [by apply benign_reads|].
  intros [n|e] _; [|done]. destruct (_ || _); [done|]. apply IH.
Qed.

(** ** Runtime objects *)

Lemma keeps_read_runtime names : forall data h, keeps (read_runtime r names data) h.
Proof.
  induction names as [|name names IH]; intros data h; [done|]. cbn [read_runtime]. apply keeps_bind; [apply keeps_call; by right|].
  intros [raw|e] h1 E1; [apply IH|done].
Qed.
(** What [objects] gives. *)
Definition made (x : ConfigMap * Pod) : Prop := own (cm_Meta (fst x)) /\ own (pd_Meta (snd x)).
Lemma wp_objects m config h (Q : history -> res (ConfigMap * Pod) -> Prop) :
  (forall x h', extends h h' -> (forall y, x = Ok y -> made y) -> Q h' x) -> wp any_answer R (objects r b m config) h Q.
Proof.
  intros HQ. unfold objects. wstep. apply wp_after; [apply keeps_read_runtime|]. intros [files|e] h1 E1; [|by apply HQ].
  apply HQ; [done|]. intros y [= <-]. split; simpl; [apply own_metadata|]. split; [|done].
  unfold owned, set_Labels, metadata. cbn. unfold get, labels. rewrite lookup_insert_ne by done. rewrite lookup_insert_eq. cbn.
  by rewrite !String.eqb_refl.
Qed.
Lemma keeps_ensureConfig want h : own (cm_Meta want) -> keeps (ensureConfig b want) h.
Proof.
  intros Ho. apply keeps_bind_ok; [done|]. intros [cm|] h1 E1; [by destruct (_ || _)|].
  apply keeps_bind_ok; [|done]. apply keeps_call. by right.
Qed.

(** Configurations that no listed Pod mounts. *)
Lemma keeps_prune pods used cms : In (ledgerName b) used ->
  (forall q v name, In q pods -> In v (pd_Volumes q) -> vo_ConfigMap v = Some name -> In name used) ->
  forall h, asked h (ListObjects Local KPod mine) (Ok pods) -> keeps (prune r b used cms) h.
Proof.
  intros HL HU. induction cms as [|cm cms IH]; intros h Hp; [done|]. cbn [prune]. destruct (bool_decide _) eqn:Eu; [by apply IH|].
  breflect. rewrite list_elem_of_In in Eu. apply keeps_bind_ok; [|intros _ h1 E1; apply IH; by apply (asked_extends h)].
  unfold deleteRecord. cbn [rr_Kind record]. apply wp_bind_ok_rule. wstep; [by apply benign_reads|]. intros x _.
  destruct (found x) as [[o|]|e] eqn:Ef; [|done..]. apply found_some in Ef. subst x. destruct (_ || _) eqn:Eo; [done|]. breflect.
  apply keeps_bind; [|done]. apply keeps_call. right. split; [done|]. exists (om_Name (cm_Meta cm)), o, pods. cbn [rr_Name record].
  split; [apply asked_snoc|]. split; [done|]. split; [by intros E; rewrite E in Eu|]. split; [by apply asked_app|]. split; [|done].
  intros q v Hq Hv E. apply Eu. by eapply HU.
Qed.
Lemma keeps_pruneConfigs h : keeps (pruneConfigs r b) h.
Proof.
  unfold pruneConfigs. apply wp_bind_ok_rule. wstep; [by apply benign_reads|]. intros [pods|e] _; [|done].
  set (h1 := h ++ [_]). apply wp_bind_ok_rule. wstep; [by apply benign_reads|]. intros [cms|e] _; [|done].
  apply (keeps_prune pods); [by left| |apply asked_app, asked_snoc].
  intros q v name Hq Hv E. right. apply in_flat_map. exists q. split; [done|]. apply list_elem_of_In, list_elem_of_omap.
  exists v. split; [by apply list_elem_of_In|done].
Qed.

(** ** Rollout *)

Definition read_pod (h : history) (m : member) (p : Pod) : Prop :=
  asked h (Get Local KPod ns (podName b m)) (Ok p) /\ owned (pd_Meta p) b = true.
Lemma read_pod_extends h h' m p : extends h h' -> read_pod h m p -> read_pod h' m p.
Proof. intros HE [H1 H2]. split; [by eapply asked_extends|done]. Qed.

Lemma keeps_verifyPod m p h : keeps (verifyPod r b m p) h.
Proof.
  unfold verifyPod. apply keeps_bind_ok; [done|]. intros shape h1 _. apply keeps_bind_ok; [by apply keeps_read|].
  intros cm h2 _. destruct (_ || _); [done|]. destruct (negb _); [done|]. by destruct (_ || _).
Qed.

Definition pod_of (h : history) (m : member) (x : option Pod) : Prop := match x with Some p => read_pod h m p | None => True end.
Lemma wp_read_pods ms : forall h, wp any_answer R (read_pods r b ms) h
  (fun h' x => forall pods, x = Ok pods -> Forall2 (pod_of h') ms pods).
Proof.
  induction ms as [|m ms IH]; intros h; [by intros pods [= <-]; constructor|]. cbn [read_pods].
  wstep. wstep; [by apply benign_reads|]. intros x _. set (h1 := h ++ [_]).
  destruct (found x) as [found|e] eqn:Ef; [|done]. wstep.
  assert (forall op h2, extends h1 h2 -> pod_of h2 m op -> wp any_answer R (more <-! read_pods r b ms ;; Ret (Ok (op :: more))) h2
    (fun h' x => forall pods, x = Ok pods -> Forall2 (pod_of h') (m :: ms) pods)) as HK.
  { intros op h2 E2 Hop. wstep. eapply wp_mono; [|apply wp_extends, IH]. intros h3 [more|e] [E3 HF]; [|done].
    wstep. intros pods [= <-]. constructor; [|by apply HF]. destruct op as [p|]; [|done]. by eapply read_pod_extends. }
  destruct found as [p|]; [|apply HK; [apply extends_refl|done]]. apply found_some in Ef. subst x.
  wstep; [done|]. breflect. wstep. apply wp_after; [apply keeps_verifyPod|]. intros [u|e] h2 E2; [|done].
  apply HK; [done|]. split; [apply (asked_extends h1); [done|apply asked_snoc]|done].
Qed.

Variable a : Attachment.

(** A slot of this pass: its Pod was read, its configuration is the rendered one. *)
Record slot_ok (h : history) (l : ledger) (s : slot) : Prop := {
  so_pod : pod_of h (sl_member s) (sl_pod s);
  so_ready : sl_ready s = match sl_pod s with Some p => podReady p | None => false end;
  so_config : render r b a l (sl_member s) = Rendered (sl_config s) }.
Lemma slot_ok_extends h h' l s : extends h h' -> slot_ok h l s -> slot_ok h' l s.
Proof. intros HE [H1 H2 H3]. split; try done. destruct (sl_pod s); [|done]. by eapply read_pod_extends. Qed.

Lemma render_all_ok l ms configs : render_all r b a l ms = Ok configs ->
  Forall2 (fun m c => forall config, c = Some config -> render r b a l m = Rendered config) ms configs.
Proof.
  revert configs. induction ms as [|m ms IH]; intros configs; cbn [render_all]; [intros [= <-]; constructor|].
  destruct (render _ _ _ _ _) as [e| |c] eqn:Er; [done| |]; (destruct (render_all _ _ _ _ _) as [more|]; [|done]); intros [= <-];
    (constructor; [|by apply IH]); [done|by intros config [= <-]].
Qed.
Lemma slots_ok h l ms configs pods : Forall2 (fun m c => forall config, c = Some config -> render r b a l m = Rendered config) ms configs ->
  existsb (fun c => bool_decide (c = None)) (map (option_map (fun _ => tt)) configs) = false -> Forall2 (pod_of h) ms pods ->
  map sl_member (slots ms configs pods) = ms /\ forall s, In s (slots ms configs pods) -> slot_ok h l s.
Proof.
  intros HC. revert pods. induction HC as [|m c ms configs Hc HC IH]; intros pods HN HP; inversion HP as [|? p ? pods' Hp HP']; subst; [done|].
  simpl in HN. apply orb_false_iff in HN as [HN HN']. destruct c as [c|]; [|done]. destruct (IH _ HN' HP') as [IH1 IH2].
  cbn [slots map]. split; [by rewrite IH1|]. intros s [<-|Hs]; [|by apply IH2]. split; [done|done|]. by apply Hc.
Qed.

Let R' := ensure_permitted a.

(** A step that keeps the discipline takes down no Pod. *)
Lemma wp_quiet {A} (p : kprog A) h Q : never pod_delete h -> wp any_answer R p h Q ->
  wp any_answer R' p h (fun h' x => extends h h' /\ never pod_delete h' /\ Q h' x).
Proof.
  intros Hn HW. apply (wp_weaken any_answer any_answer R R'); [done|by left|]. apply wp_extends.
  apply wp_never; [apply benign_no_pod_delete|done|done].
Qed.

Lemma wp_probe_all others : forall h, (forall s, In s others -> exists p, sl_pod s = Some p /\ read_pod h (sl_member s) p) ->
  wp any_answer R (probe_all others) h (fun h' x => x = Ok true -> forall s, In s others ->
    exists p, sl_pod s = Some p /\ asked h' (Probe p (sl_config s)) (Ok true)).
Proof.
  induction others as [|s others IH]; intros h HP; [by intros _ s []|]. cbn [probe_all]. destruct (HP s (or_introl eq_refl)) as (p & Ep & [Hp _]).
  rewrite Ep. wstep. wstep; [right; by exists (podName b (sl_member s))|]. intros [[]|e] _; [|done..]. set (h1 := h ++ [_]).
  assert (asked h1 (Probe p (sl_config s)) (Ok true)) as HA by apply asked_snoc.
  eapply wp_mono; [|apply wp_extends, IH].
  - intros h' x [E1 HQ] -> q [<-|Hq]; [|by apply HQ]. exists p. split; [done|]. by apply (asked_extends h1).
  - intros q Hq. destruct (HP q (or_intror Hq)) as (pq & Eq & Hpq). exists pq. split; [done|].
    apply (read_pod_extends h); [apply extends_snoc|done].
Qed.

Lemma others_lookup {A} (before rest : list A) s j x : (before ++ s :: rest) !! j = Some x -> j <> List.length before -> In x (before ++ rest).
Proof.
  intros Hj Hne. apply lookup_app_Some in Hj as [Hj|[Hle Hj]]; apply in_app_iff; [left|right].
  - by apply list_elem_of_lookup_2, list_elem_of_In in Hj.
  - destruct (j - List.length before)%nat as [|k] eqn:Ek; [lia|]. simpl in Hj. by apply list_elem_of_lookup_2, list_elem_of_In in Hj.
Qed.

Lemma wp_retire l before s rest old h : lg_Members l = map sl_member (before ++ s :: rest) -> sl_pod s = Some old -> terminating old = false ->
  (forall x, In x (before ++ s :: rest) -> slot_ok h l x) -> saved h l -> never pod_delete h ->
  wp any_answer R' (retire r (List.length before) old (before ++ rest)) h (fun _ _ => True).
Proof.
  intros HM Es Ht HS HL Hn. assert (forall x, In x (before ++ rest) -> slot_ok h l x) as HO.
  { intros x Hx. apply HS. apply in_app_iff in Hx as [Hx|Hx]; apply in_app_iff; [by left|right; by right]. }
  unfold retire. wstep; [done|]. wstep; [done|]. wstep; [done|]. breflect.
  assert (forall x, In x (before ++ rest) -> exists p, sl_pod x = Some p /\ terminating p = false /\ podReady p = true) as Hrec.
  { intros x Hx. assert (slot_recovered x = true) as Hr by (match goal with X : forallb _ _ = true |- _ => by apply (proj1 (forallb_forall _ _) X) end).
    unfold slot_recovered in Hr. pose proof (so_ready _ _ _ (HO x Hx)) as Er. destruct (sl_pod x) as [p|]; [|done]. breflect.
    exists p. split; [done|]. split; [done|congruence]. }
  wstep. eapply wp_mono; [|apply wp_quiet; [done|apply wp_probe_all]].
  2:{ intros x Hx. destruct (Hrec x Hx) as (p & Ep & _). exists p. split; [done|]. pose proof (so_pod _ _ _ (HO x Hx)) as Hp. by rewrite Ep in Hp. }
  intros h1 [healthy|e] (E1 & Hn1 & HP); [|done]. destruct healthy; cbn [negb]; [|done]. specialize (HP eq_refl).
  wstep. wstep; [|done]. right. cbn. unfold retirement. split; [done|]. split; [done|].
  exists l, (List.length before), (sl_member s), old.
  split; [by apply (saved_extends h)|]. rewrite HM. rewrite list_lookup_fmap, list_lookup_middle by done. split; [done|].
  split.
  { match goal with X : existsb sl_ready _ = true |- _ => apply existsb_exists in X as (x & Hx & _) end.
    rewrite length_map, length_app. simpl. apply in_app_iff in Hx as [Hx|Hx]; [destruct before|destruct rest]; done || (simpl; lia). }
  pose proof (so_pod _ _ _ (HS s ltac:(apply in_app_iff; right; by left))) as Hso. rewrite Es in Hso. destruct Hso as [Hg Ho].
  split; [by apply (asked_extends h)|]. split; [done|]. split; [unfold terminating in Ht; breflect; by apply dec_stable in Ht|].
  do 3 (split; [done|]). intros j m' Hj Hm'. apply list_lookup_fmap_Some in Hm' as (x & -> & Hx).
  pose proof (others_lookup _ _ _ _ _ Hx Hj) as Hin. destruct (Hrec x Hin) as (p & Ep & Hp1 & Hp2). destruct (HP x Hin) as (p' & Ep' & HA).
  assert (p' = p) as -> by congruence. pose proof (so_pod _ _ _ (HO x Hin)) as Hp. rewrite Ep in Hp. destruct Hp as [Hp3 Hp4].
  exists p, (sl_config x). split; [by apply (asked_extends h)|]. split; [done|].
  split; [unfold terminating in Hp1; breflect; by apply dec_stable in Hp1|]. split; [done|].
  split; [exact (so_config _ _ _ (HO x Hin))|done].
Qed.

Lemma wp_rollout l todo : forall before changed reason h, lg_Members l = map sl_member (before ++ todo) ->
  (forall x, In x (before ++ todo) -> slot_ok h l x) -> saved h l -> never pod_delete h ->
  wp any_answer R' (rollout r b before todo changed reason) h (fun _ _ => True).
Proof.
  induction todo as [|s todo IH]; intros before changed reason h HM HS HL Hn; [done|]. cbn [rollout].
  wstep. eapply wp_mono; [|apply wp_quiet; [done|]; apply (wp_objects _ _ _ (fun _ x => forall y, x = Ok y -> made y)); auto].
  intros h1 [y|e] (E1 & Hn1 & Hy); [|done]. specialize (Hy y eq_refl). destruct Hy as [Hy1 Hy2].
  wstep. eapply wp_mono; [|apply wp_quiet; [done|]; by apply keeps_ensureConfig]. intros h2 [u|e] (E2 & Hn2 & _); [|done].
  assert (forall h', extends h2 h' -> never pod_delete h' -> forall changed reason,
    wp any_answer R' (rollout r b (before ++ [s]) todo changed reason) h' (fun _ _ => True)) as HIH.
  { intros h' E' Hn' ch re. apply IH; [by rewrite <- List.app_assoc| |apply (saved_extends h); [extending|done]|done].
    intros x Hx. apply (slot_ok_extends h); [extending|]. apply HS. by rewrite <- List.app_assoc in Hx. }
  destruct (sl_pod s) as [old|] eqn:Es.
  - destruct (terminating old) eqn:Et; [apply HIH; [apply extends_refl|done]|]. destruct (_ =? _)%string; [apply HIH; [apply extends_refl|done]|].
    apply (wp_retire l before s todo); try done; [|apply (saved_extends h); [extending|done]].
    intros x Hx. apply (slot_ok_extends h); [extending|by apply HS].
  - wstep. wstep; [left; by right|]. assert (forall x, never pod_delete (h2 ++ [Ev (Create Local KPod (snd y)) x])) as HN by (intros; apply never_snoc; [done|by intros []]).
    intros [p|e] _; [apply HIH; [extending|apply HN]|]. destruct (IsAlreadyExists e); [|done]. apply HIH; [extending|apply HN].
Qed.

Lemma keeps_conclude gateways p h : keeps (conclude r b gateways p) h.
Proof.
  destruct p; cbn [conclude]; try apply keeps_withResources. apply keeps_bind_ok; [apply keeps_pruneConfigs|].
  intros. apply keeps_withResources.
Qed.

Lemma wp_EnsureGateway fuel : wp any_answer R' (EnsureGateway r fuel b a) [] (fun _ _ => True).
Proof.
  unfold EnsureGateway. wstep. wstep. destruct (validate r b a) as [[]|]; [|done].
  assert (never pod_delete ([] : history)) as Hn by by intros e [].
  wstep. eapply wp_mono; [|apply wp_quiet; [done|apply keeps_registry]]. intros h1 [rg|e] (E1 & Hn1 & _); [|done].
  wstep. eapply wp_mono; [|apply wp_quiet; [done|]; apply (wp_members fuel a h1 (fun h' x => forall l, x = Ok l -> membership h' l)); auto].
  intros h2 [l|e] (E2 & Hn2 & Hl); [|done]. specialize (Hl l eq_refl).
  wstep. wstep. destruct (validateLedger _ _ _ _) as [[]|]; [|done].
  wstep. eapply wp_mono; [|apply wp_quiet; [done|apply keeps_check_nodes]]. intros h3 [[]|e] (E3 & Hn3 & _); [|done].
  wstep. eapply wp_mono; [|apply wp_quiet; [done|]; apply (keeps_prepare_members fuel l); [done|by apply (membership_extends h2)]].
  intros h4 [ms|e] (E4 & Hn4 & _); [|done]. set (l' := mkGatewayLedger _ _ _ _ _ ms).
  wstep. eapply wp_mono; [|apply wp_quiet; [done|]; apply (wp_saveLedger l' h4 (fun h' x => x = Ok tt -> saved h' l')); auto].
  intros h5 [[]|e] (E5 & Hn5 & HL); [|done]. specialize (HL eq_refl).
  wstep. wstep. destruct (render_all r b a l' ms) as [configs|] eqn:Er; [|done]. apply render_all_ok in Er.
  wstep. eapply wp_mono; [|apply wp_quiet; [done|apply wp_read_pods]]. intros h6 [pods|e] (E6 & Hn6 & HP); [|done]. specialize (HP pods eq_refl).
  wstep.
  { apply (wp_weaken any_answer any_answer R R'); [done|by left|]. apply keeps_conclude. }
  destruct (slots_ok h6 _ _ _ _ Er Ec HP) as [HM HS].
  wstep. eapply wp_mono; [|apply (wp_rollout l'); [exact (eq_sym HM)|exact HS|by apply (saved_extends h5)|done]].
  intros h7 [p|e] _; [|done]. apply (wp_weaken any_answer any_answer R R'); [done|by left|]. apply keeps_conclude.
Qed.
Lemma EnsureGateway_obeys fuel : obeys R' (EnsureGateway r fuel b a).
Proof. eapply wp_obeys, wp_EnsureGateway. Qed.

(** C9: at most one gateway is taken down, and only while all others work.
    In every pass of [Ensure], wherever it stops: a Pod is deleted only under the
    UID and version that were read, at most once in the pass, and only if for every
    other member of the saved ledger the pass read a ready Pod that is not
    terminating and runs that member's rendered configuration according to a
    successful probe. *)
Theorem rollouts_keep_siblings_running fuel h p' h1 c nsp nm pre :
  exec (EnsureGateway r fuel b a) h p' -> called h h1 (Kube.Delete c KPod nsp nm pre) ->
  c = Local /\ retirement a h1 nsp nm pre /\
  (forall h2 c' nsp' nm' pre', called h h2 (Kube.Delete c' KPod nsp' nm' pre') -> h2 = h1).
Proof.
  intros HX HC.
  assert (forall h2 c' nsp' nm' pre', called h h2 (Kube.Delete c' KPod nsp' nm' pre') -> c' = Local /\ retirement a h2 nsp' nm' pre') as HR.
  { intros h2 c' nsp' nm' pre' HC'. destruct (called_permitted _ _ _ _ _ _ (EnsureGateway_obeys fuel) HX HC') as [HB|HB].
    - by destruct (benign_no_pod_delete _ _ HB).
    - by destruct c'. }
  destruct (HR _ _ _ _ _ HC) as [-> Hr]. split; [done|]. split; [done|].
  intros h2 c' nsp' nm' pre' HC'. destruct (HR _ _ _ _ _ HC') as [-> (_ & Hn2 & _)]. destruct Hr as (_ & Hn1 & _).
  destruct HC as (x1 & t1 & E1), HC' as (x2 & t2 & E2).
  destruct (called_order h h1 h2 _ _ x1 x2 t1 t2 E1 E2) as [?|[H|H]]; [done| |].
  - destruct (Hn2 _ H). done.
  - destruct (Hn1 _ H). done.
Qed.

(** A gateway pass stays inside its binding. It creates only
    ConfigMaps, Pods and Secrets of the local cluster, every Pod owned by the
    binding; a key only for a name that has none and a member of this pass's ledger
    that never published one, so a published key is not generated again; it updates
    only ConfigMaps, changes no status, and deletes only Pods and owned
    configurations other than the ledger that no listed Pod of the binding mounts. *)
Theorem gateway_passes_stay_confined fuel h p' h1 o :
  exec (EnsureGateway r fuel b a) h p' -> called h h1 o ->
  match o with
  | Create c k x => c = Local /\ match k return object k -> Prop with
      | KConfigMap => fun _ => True
      | KPod => fun p => own (pd_Meta p)
      | KSecret => fun s => own (sc_Meta s) /\ sc_Immutable s = Some true /\ missing h1 KSecret (om_Name (sc_Meta s)) /\
          exists l m, membership h1 l /\ In m (lg_Members l) /\ mb_SecretName m = om_Name (sc_Meta s) /\ ge_PublicKey (mb_Endpoint m) = ""%string
      | _ => fun _ => False
      end x
  | Update c k _ => c = Local /\ k = KConfigMap
  | UpdateStatus _ _ _ => False
  | Kube.Delete c k nsp nm p => c = Local /\ (k = KPod \/ k = KConfigMap /\ exists name cm pods,
        asked h1 (Get Local KConfigMap ns name) (Ok cm) /\ owned (cm_Meta cm) b = true /\ name <> ledgerName b /\
        asked h1 (ListObjects Local KPod mine) (Ok pods) /\ (forall q v, In q pods -> In v (pd_Volumes q) -> vo_ConfigMap v <> Some name) /\
        nsp = om_Namespace (cm_Meta cm) /\ nm = om_Name (cm_Meta cm) /\ p = mkPre (Some (om_UID (cm_Meta cm))) (Some (om_ResourceVersion (cm_Meta cm))))
  | _ => True
  end.
Proof.
  intros HX HC. pose proof (called_permitted _ _ _ _ _ _ (EnsureGateway_obeys fuel) HX HC) as HP.
  destruct HP as [[(key & port & node & HP)|HP]|HP].
  - destruct o as [| |[] k x|[] k x| |[] k nsp nm p| | |]; try done; (split; [done|]); by destruct k.
  - destruct o as [| |[] k x|[] k x| |[] k nsp nm p| | |]; try done; (split; [done|]); try by destruct k. by right.
  - destruct o as [| | | | |[] [] nsp nm p| | |]; try done. split; [done|by left].
Qed.
End ensure.

(** * The managed gateway implements the backend the local controller relies on

    [GatewayContract] is what the theorems on local passes assume of a gateway
    backend; the backend of [internal/managedgateway] has it. *)
From S2P Require Import GatewayDeleteFacts.

Section backend.
Context {RT : Retry}.
Variable r : GatewayReconciler.

Lemma ensure_kinds b a h o : ensure_permitted r b a h o -> gateway_kind o.
Proof.
  intros [[(key & port & node & H)|H]|H]; destruct o as [[]| [] |[] k x|[] k x| |[] k ? ? ?| | |]; try done.
  all: destruct k; try done; simpl; auto. all: by destruct H.
Qed.
Lemma delete_kinds b h o : delete_permitted r b h o -> gateway_kind o.
Proof.
  intros H. destruct o as [[]| []| | | |[] k ? ? ?| | |]; try done. destruct H as (? & ? & _ & _ & _ & _ & _ & H).
  simpl. destruct H as [->|[[->| ->] _]]; auto.
Qed.

#[export] Instance managed_gateway_contract fuel :
  GatewayContract (fun h b => GatewayDeleteFacts.absent r b h) (managed_gateway r fuel).
Proof.
  split.
  - intros h h' b HE (pods & cms & secrets & H1 & H2 & H3 & H4 & H5 & H6 & H7). exists pods, cms, secrets.
    split; [by eapply asked_extends|]. split; [done|]. split; [by eapply asked_extends|]. split; [done|].
    split; [by eapply asked_extends|]. split; [done|]. intros rec Hr Hk Hn Hne. destruct (H7 rec Hr Hk Hn Hne) as (x & Hx & Hf).
    exists x. split; [by eapply asked_extends|done].
  - intros b a h. eapply wp_anywhere; [done|intros; by eapply ensure_kinds|apply wp_EnsureGateway].
  - intros b h. eapply wp_weaken; [done| |apply wp_Delete]. intros. by eapply delete_kinds.
Qed.
End backend.
