(* ===== verification/LocalWorld.v ===== *)
(** * A local cluster that stores what is written to it

    The API server of the examples: objects are kept by name, Kube-OVN reports every
    native subnet ready, the kubelet reports every Pod ready, and a ConfigMap or
    Secret with a finalizer outlives its deletion. *)
From S2P Require Import Prelude GoStd Json NetIP Validation SiteConfig Api Prog Kube LocalReconciler PlatformWitness SyncWitness.
Open Scope Z_scope.

(** The helpers of [unstructured] as documented. *)
Fixpoint nested (j : json) (path : list string) : option json :=
  match path with [] => Some j | k :: path => match jmember k j with Some v => nested v path | None => None end end.
Fixpoint set_member (k : string) (v : json) (l : list (string * json)) : list (string * json) :=
  match l with
  | [] => [(k, v)]
  | (k', w) :: l => if (k =? k')%string then (k, v) :: l else (k', w) :: set_member k v l
  end.
Fixpoint set_nested (j : json) (v : json) (path : list string) : res json :=
  match path with
  | [] => Ok v
  | k :: path =>
      match j with
      | JObj l => w <-? set_nested (default (JObj []) (member k l)) v path ;; Ok (JObj (set_member k w l))
      | _ => Err (Errorf "value cannot be set")
      end
  end.
Definition strings_of (l : list json) : option (list string) := mapM (fun j => match j with JStr s => Some s | _ => None end) l.
Definition nested_slice (j : json) (path : list string) : option (list json) :=
  match nested j path with Some (JArr l) => Some l | _ => None end.
#[export] Instance unstructured : Unstructured := {|
  NestedMap j path := match nested j path with Some (JObj l) => Some (JObj l) | _ => None end;
  NestedSlice := nested_slice;
  NestedFieldCopy := nested;
  NestedString j path := match nested j path with Some (JStr s) => Some s | _ => None end;
  NestedStringSlice j path := nested_slice j path ≫= strings_of;
  NestedInt64 _ _ := None;
  SetNestedField := set_nested;
  SetNestedSlice j l path := set_nested j (JArr l) path |}.
#[export] Program Instance retry : Retry := {| RetryOnConflict A steps body := attempts (Z.to_nat steps) body; DefaultRetrySteps := 5 |}.
Next Obligation. intros A steps body. by exists (Z.to_nat steps). Defined.

(** ** The API server *)

Record world := mkWorld {
  w_binding : NetworkBinding; w_maps : list ConfigMap; w_natives : list Native;
  w_pods : list Pod; w_secrets : list Secret; w_nodes : list Node; w_random : Z }.
Definition with_binding (b : NetworkBinding) (w : world) : world :=
  mkWorld b (w_maps w) (w_natives w) (w_pods w) (w_secrets w) (w_nodes w) (w_random w).
Definition with_maps (l : list ConfigMap) (w : world) : world :=
  mkWorld (w_binding w) l (w_natives w) (w_pods w) (w_secrets w) (w_nodes w) (w_random w).
Definition with_natives (l : list Native) (w : world) : world :=
  mkWorld (w_binding w) (w_maps w) l (w_pods w) (w_secrets w) (w_nodes w) (w_random w).
Definition with_pods (l : list Pod) (w : world) : world :=
  mkWorld (w_binding w) (w_maps w) (w_natives w) l (w_secrets w) (w_nodes w) (w_random w).
Definition with_secrets (l : list Secret) (w : world) : world :=
  mkWorld (w_binding w) (w_maps w) (w_natives w) (w_pods w) l (w_nodes w) (w_random w).
Definition with_random (n : Z) (w : world) : world :=
  mkWorld (w_binding w) (w_maps w) (w_natives w) (w_pods w) (w_secrets w) (w_nodes w) n.

Definition selected (s : selector) (m : ObjectMeta) : bool :=
  forallb (fun kv => (get (om_Labels m) (fst kv) =? snd kv)%string) (map_to_list (sel_Labels s)).
Definition of_kind (kd : string) (l : list Native) : list Native := List.filter (fun x => (un_Kind x =? kd)%string) l.
Definition w_get (w : world) (k : kind) (name : string) : res (object k) :=
  match k return res (object k) with
  | KBinding => by_name (fun x => om_Name (nb_Meta x)) name [w_binding w]
  | KConfigMap => by_name (fun x => om_Name (cm_Meta x)) name (w_maps w)
  | KPod => by_name (fun x => om_Name (pd_Meta x)) name (w_pods w)
  | KSecret => by_name (fun x => om_Name (sc_Meta x)) name (w_secrets w)
  | KNode => by_name (fun x => om_Name (nd_Meta x)) name (w_nodes w)
  | KNamespace => Ok (mkNamespace (stored name "" "c1" ∅ [] None))
  | KNative _ kd => by_name (fun x => om_Name (un_Meta x)) name (of_kind kd (w_natives w))
  | _ => absent
  end.
Definition w_list (w : world) (k : kind) (s : selector) : res (list (object k)) :=
  match k return res (list (object k)) with
  | KBinding => Ok [w_binding w]
  | KConfigMap => Ok (List.filter (fun x => selected s (cm_Meta x)) (w_maps w))
  | KPod => Ok (List.filter (fun x => selected s (pd_Meta x)) (w_pods w))
  | KSecret => Ok (List.filter (fun x => selected s (sc_Meta x)) (w_secrets w))
  | KNode => Ok (w_nodes w)
  | KNative _ kd => Ok (List.filter (fun x => selected s (un_Meta x)) (of_kind kd (w_natives w)))
  | _ => Ok []
  end.
(** Created objects get an identity, and a status that says ready. *)
Definition identified (m : ObjectMeta) : ObjectMeta :=
  mkMeta (om_Name m) (om_Namespace m) ("uid-of-" ++ om_Name m) "1" (om_Generation m) 0 None (om_Labels m) (om_Annotations m)
    (om_Finalizers m) (om_OwnerReferences m).
Definition native_created (x : Native) : Native :=
  mkNative (un_APIVersion x) (un_Kind x) (identified (un_Meta x))
    match set_nested (un_Object x) (JArr [JObj [("type", JStr "Ready"); ("status", JStr "True")]]) ["status"; "conditions"] with
    | Ok j => j | Err _ => un_Object x end.
Definition pod_created (p : Pod) : Pod :=
  mkPod (identified (pd_Meta p)) (pd_NodeName p) (pd_HostNetwork p) (pd_HostPID p) (pd_Automount p) (pd_Containers p)
    (pd_InitContainers p) (pd_Volumes p) [mkCoreCondition "Ready" "True"].
Definition w_create (w : world) (k : kind) : object k -> object k * world :=
  match k return object k -> object k * world with
  | KConfigMap => fun x => let x := cm_with_Meta identified x in (x, with_maps (w_maps w ++ [x]) w)
  | KSecret => fun x =>
      let x := mkSecret (identified (sc_Meta x)) (sc_Immutable x) (sc_Type x) (sc_Data x) in (x, with_secrets (w_secrets w ++ [x]) w)
  | KPod => fun x => let x := pod_created x in (x, with_pods (w_pods w ++ [x]) w)
  | KNative _ _ => fun x => let x := native_created x in (x, with_natives (w_natives w ++ [x]) w)
  | _ => fun x => (x, w)
  end.
Definition w_update (w : world) (k : kind) : object k -> world :=
  match k return object k -> world with
  | KBinding => fun x => with_binding x w
  | KConfigMap => fun x => with_maps (map (fun y => if (om_Name (cm_Meta y) =? om_Name (cm_Meta x))%string then x else y) (w_maps w)) w
  | _ => fun _ => w
  end.
Definition lingers (name : string) (m : ObjectMeta) : bool :=
  negb (om_Name m =? name)%string || negb (List.length (om_Finalizers m) =? 0)%nat.
Definition w_delete (w : world) (k : kind) (name : string) : world :=
  match k with
  | KNative _ kd => with_natives (List.filter (fun x => negb ((un_Kind x =? kd)%string && (om_Name (un_Meta x) =? name)%string)) (w_natives w)) w
  | KConfigMap => with_maps (List.filter (fun x => lingers name (cm_Meta x)) (w_maps w)) w
  | KPod => with_pods (List.filter (fun x => negb (om_Name (pd_Meta x) =? name)%string) (w_pods w)) w
  | KSecret => with_secrets (List.filter (fun x => lingers name (sc_Meta x)) (w_secrets w)) w
  | _ => w
  end.
Definition local_step (o : op) (w : world) : ans o * world :=
  match o return ans o * world with
  | Get _ k _ name => (w_get w k name, w)
  | ListObjects _ k s => (w_list w k s, w)
  | Create _ k x => let (x, w) := w_create w k x in (Ok x, w)
  | Update _ k x | UpdateStatus _ k x => (Ok x, w_update w k x)
  | Delete _ k _ name _ => (Ok tt, w_delete w k name)
  | RandRead n => (Ok (map (fun i => (w_random w + 7 * Z.of_nat i) mod 256) (seq 0 (Z.to_nat n))), with_random (w_random w + 1) w)
  | ReadFile _ name => (Ok ("# " ++ name)%string, w)
  | Probe _ _ => (Ok true, w)
  end.
