(* ===== verification/LocalWitness.v ===== *)
(** * A network realized and withdrawn by the local controller

    The passes of the controller with the managed gateway, on the API server of
    [LocalWorld]: a snapshot becomes ready, and its tombstone is cleaned up. *)
From S2P Require Import Prelude GoStd Json JsonDecode NetIP Validation SiteConfig DestinationRoute Api LocalConfig Prog Kube PlatformPlan.
From S2P Require Import LocalReconciler GatewayRegistry GatewayRender GatewayReconciler GatewayDeleteFacts GatewayEnsure GatewayEnsureFacts.
From S2P Require Import Allocation AllocationFacts Sync PlatformWitness SyncWitness LocalSafety LocalPass LocalWorld.
Open Scope Z_scope.

(** ** The passes *)

Definition example_gateway : GatewayReconciler :=
  mkGW "global-vpc" "c1" "gateway:1" "/run/gw" "" (<["role" := "gateway"]> ∅) 2 1400 "10.255.0.0/24" 20000 20999 false.
Definition local_reconciler : LocalReconciler.Reconciler :=
  LocalReconciler.mkReconciler example_local (Some (managed_gateway example_gateway 3)) (10 * second).
Definition nothing_left (h : history) (b : NetworkBinding) : Prop := GatewayDeleteFacts.absent example_gateway b h.
Lemma backend_contract g : lr_Gateway local_reconciler = Some g -> GatewayContract nothing_left g.
Proof. intros [= <-]. exact (managed_gateway_contract example_gateway 3). Qed.

Definition one_pass (w : world) : list (event ans) * res Result * world :=
  run local_step (LocalReconciler.Reconcile local_reconciler "global-vpc" (BindingName "u1" "east")) w.
Definition pass_history (w : world) : history := fst (fst (one_pass w)).
Lemma pass_exec w : exists p', exec (LocalReconciler.Reconcile local_reconciler "global-vpc" (BindingName "u1" "east")) (pass_history w) p'.
Proof. eexists. apply run_history. Qed.
Fixpoint after_passes (n : nat) (w : world) : world :=
  match n with O => w | S n => after_passes n (snd (one_pass w)) end.

(** A snapshot with one subnet, as synchronization left it. *)
Definition snapshot (deleting : bool) : NetworkBindingSpec :=
  example_spec (if deleting then [] else [mkBindingSubnet "app" "s1" "10.1.0.0/16" "10.1.0.1" "app-s1" false]) deleting.
Definition start : world :=
  mkWorld (copy_of (example_snapshot 2 (snapshot false)) (mkBindingStatus 0 "" "" [] [] [])) [] [] [] [] [] 0.
Definition nearly_ready : world := Eval vm_compute in after_passes 3 start.
Definition realized : world := Eval vm_compute in snd (one_pass nearly_ready).
(** The same snapshot as a tombstone. *)
Definition withdrawn (w : world) : world :=
  with_binding (mkBinding (nb_Meta (w_binding w)) (snapshot true) (nb_Status (w_binding w))) w.
Definition emptied : world := Eval vm_compute in after_passes 4 (withdrawn realized).
Lemma pass_called w n o : (n <? List.length (pass_history w))%nat = true -> nth_op (pass_history w) n = o ->
  called (pass_history w) (firstn n (pass_history w)) o.
Proof. intros Hn <-. by apply called_nth. Qed.

(** The first pass records the addresses and creates the Vpc. *)
Definition first_vpc : Native :=
  vpc_object local_reconciler (w_binding start) (mkAllocation "100.64.0.0/29" "100.64.0.1" "100.65.0.1") false.
Lemma native_writes_are_guarded_witness :
  exists b, copy (firstn 23 (pass_history start)) b /\ wanted local_reconciler b first_vpc /\
    no_native (firstn 23 (pass_history start)) "Vpc" "net-u1" /\ LocalReconciler.recorded b "Vpc" "net-u1" = false.
Proof.
  destruct (pass_exec start) as [p' HX].
  destruct (native_writes_are_guarded local_reconciler nothing_left backend_contract _ _ _ _ (firstn 23 (pass_history start)) HX) as (H & _).
  destruct (H kubeovn "Vpc"%string first_vpc) as (_ & _ & HN); [|exact HN]. apply pass_called; by vm_compute.
Defined.

(** The first pass of the tombstone deletes the subnet. *)
Definition first_deletion : history := firstn 19 (pass_history (withdrawn realized)).
Lemma live_networks_are_kept_witness :
  exists b name, copy first_deletion b /\ withdrawn_subnet b name /\ unused first_deletion name.
Proof.
  destruct (pass_exec (withdrawn realized)) as [p' HX].
  destruct (live_networks_are_kept local_reconciler nothing_left backend_contract _ _ _ _ first_deletion Local kubeovn "Subnet" "" "app-s1"
              (mkPre (Some "uid-of-app-s1") (Some "1")) HX) as (_ & _ & b & o & HC & _ & _ & _ & [[E _]|(_ & name & _ & HW & HU)]).
  - apply pass_called; by vm_compute.
  - discriminate E.
  - exists b, name. exact (conj HC (conj HW HU)).
Defined.

(** The last passes of the snapshot and of its tombstone. *)
Definition report (w : world) (n : nat) : NetworkBinding :=
  match nth_op (pass_history w) n with
  | UpdateStatus _ k x => match k return object k -> NetworkBinding with KBinding => fun b => b | _ => fun _ => w_binding w end x
  | _ => w_binding w
  end.
Definition ready_report : NetworkBinding := report nearly_ready 20.
Definition deleted_report : NetworkBinding := report emptied 15.
Lemma ready_phase : bt_Phase (nb_Status ready_report) = "Ready"%string.
Proof. by vm_compute. Qed.
Lemma deleted_phase : bt_Phase (nb_Status deleted_report) = "Deleted"%string.
Proof. by vm_compute. Qed.
Lemma ready_called : called (pass_history nearly_ready) (firstn 20 (pass_history nearly_ready)) (UpdateStatus Local KBinding ready_report).
Proof. apply pass_called; vm_compute; reflexivity. Qed.
Lemma deleted_called : called (pass_history emptied) (firstn 15 (pass_history emptied)) (UpdateStatus Local KBinding deleted_report).
Proof. apply pass_called; vm_compute; reflexivity. Qed.
Lemma completion_is_observed_witness :
  bt_Phase (nb_Status ready_report) = "Ready"%string /\ version (firstn 20 (pass_history nearly_ready)) ready_report /\
  bt_Phase (nb_Status deleted_report) = "Deleted"%string /\ version (firstn 15 (pass_history emptied)) deleted_report.
Proof.
  destruct (pass_exec nearly_ready) as [p1 HX1]. destruct (pass_exec emptied) as [p2 HX2].
  exact (conj ready_phase (conj (proj1 (proj2 (completion_is_observed local_reconciler nothing_left backend_contract _ _ _ _ _ _ _ HX1 ready_called)))
    (conj deleted_phase (proj1 (proj2 (completion_is_observed local_reconciler nothing_left backend_contract _ _ _ _ _ _ _ HX2 deleted_called)))))).
Defined.
