(* ===== verification/GatewayWitness.v ===== *)
(** * The managed gateway at work

    Passes of the gateway backend on the API server of [LocalWorld]: two members are
    installed, rolled to a new image and taken down. *)
From S2P Require Import Prelude GoStd Json JsonFacts JsonDecode NetIP NetIPFacts Validation SiteConfig Api LocalConfig Prog Kube PlatformPlan Allocation.
From S2P Require Import PlatformWitness SyncWitness LocalReconciler LocalWorld.
From S2P Require Import GatewayRegistry GatewayRegistryFacts GatewayRender GatewayReconciler GatewayDeleteFacts GatewayEnsure GatewayEnsureFacts.
Open Scope Z_scope.

Definition gateway (image : string) : GatewayReconciler :=
  mkGW "global-vpc" "c1" image "/run/gw" "" (<["role" := "gateway"]> ∅) 2 1400 "10.255.0.0/24" 20000 20999 true.
Definition attachment : Attachment := mkAttachment "100.64.0.0/29" "100.64.0.1" "100.65.0.1" [].
Definition gateway_binding : NetworkBinding :=
  copy_of (example_snapshot 2 (mkBindingSpec (mkIdentity "proj" "net" "u1") 1 4200000001 "east" "default" "net-u1" "geneve-bgp"
    [mkBindingSubnet "app" "s1" "10.1.0.0/16" "10.1.0.1" "app-s1" false] (Some ["east"]) [] [] [] "" false))
    (mkBindingStatus 0 "" "" [] [] []).
Definition gateway_node (name ip : string) : Node :=
  mkNode (mkMeta name "" ("uid-of-" ++ name) "1" 1 0 None (<["role" := "gateway"]> ∅) ∅ [] []) false []
    [mkNodeAddress "InternalIP" ip] [mkCoreCondition "Ready" "True"].
Definition empty_cluster : world :=
  mkWorld gateway_binding [] [] [] [] [gateway_node "n1" "192.0.2.1"; gateway_node "n2" "192.0.2.2"] 1.

Definition ensure_run (image : string) (w : world) := run local_step (EnsureGateway (gateway image) 3 gateway_binding attachment) w.
Definition ensure_history (image : string) (w : world) : history := fst (fst (ensure_run image w)).
Definition installed : world := Eval vm_compute in snd (ensure_run "gateway:1" empty_cluster).
Lemma call_at (h : history) n o : (n <? List.length h)%nat = true -> nth_op h n = o -> called h (firstn n h) o.
Proof. intros Hn <-. by apply called_nth. Qed.
Lemma ensure_exec image w : exists p', exec (EnsureGateway (gateway image) 3 gateway_binding attachment) (ensure_history image w) p'.
Proof. eexists. apply run_history. Qed.

(** ** The registry *)

Definition registry_map : ConfigMap := nth 0 (w_maps installed) (mkConfigMap (newMeta "" "" ∅ ∅) None ∅).
Definition registered : claims :=
  match decodeRegistry (gateway "gateway:1") registry_map with Ok g => g | Err _ => mkClaims ∅ ∅ end.
Lemma registered_ok : decodeRegistry (gateway "gateway:1") registry_map = Ok registered.
Proof. by vm_compute. Qed.
Lemma control_pool : exists pool, Prefix (gw_AllocationPool (gateway "gateway:1")) = Ok pool /\ clear_of_link_local pool.
Proof.
  destruct (Prefix (gw_AllocationPool (gateway "gateway:1"))) as [pool|] eqn:E; [|by vm_compute in E]. exists pool. split; [done|].
  apply (clear_pool _ _ E). vm_compute in E. by injection E as <-.
Qed.

Lemma first_health : cl_Addresses registered !! "l1/g01080f161d242b32/health"%string = Some "10.255.0.1"%string.
Proof. by vm_compute. Qed.
Lemma accepted_registries_do_not_collide_witness :
  cl_Addresses registered !! "l1/g01080f161d242b32/health"%string = Some "10.255.0.1"%string /\
  (forall key, cl_Addresses registered !! key = Some "10.255.0.1"%string -> key = "l1/g01080f161d242b32/health"%string).
Proof.
  exact (conj first_health (fun key H =>
    proj1 (accepted_registries_do_not_collide (gateway "gateway:1") registry_map registered registered_ok) key _ _ H first_health)).
Defined.

Definition claim_key : string := "l1/g3/health".
Definition claimed_registry : claims := mkClaims (<[claim_key := "10.255.0.3"%string]> (cl_Addresses registered)) (cl_Ports registered).
Lemma next_choice : choose_claim (gateway "gateway:1") registered claim_key false "" = Fresh "10.255.0.3" claimed_registry.
Proof. by vm_compute. Qed.
Lemma registered_ascii : names_ascii (gateway "gateway:1") registered.
Proof.
  assert (forallb (fun kv => ascii_only (fst kv)) (map_to_list (cl_Addresses registered)) &&
          forallb (fun kv => ascii_only (fst kv)) (map_to_list (cl_Ports registered)) = true) as [H1 H2]%andb_true_iff by by vm_compute.
  rewrite forallb_forall in H1, H2. split; [done| |].
  - intros c ip Hc%elem_of_map_to_list%list_elem_of_In. exact (H1 _ Hc).
  - intros c p Hc%elem_of_map_to_list%list_elem_of_In. exact (H2 _ Hc).
Qed.
Lemma key_claimable : claimable claim_key false "".
Proof. done. Qed.
Lemma key_ascii : ascii_only claim_key = true.
Proof. done. Qed.
Lemma choices_extend_the_registry_witness :
  decodeRegistry (gateway "gateway:1") (storeRegistry "c1" registry_map claimed_registry) = Ok claimed_registry.
Proof.
  destruct control_pool as (pool & HP & HC).
  pose proof (choices_extend_the_registry (gateway "gateway:1") registry_map registered pool claim_key false "" registered_ok HP HC
                key_claimable registered_ascii key_ascii eq_refl) as H.
  rewrite next_choice in H. exact (proj2 (proj2 (proj2 H))).
Defined.

Definition claim_history : history :=
  fst (fst (run local_step (allocate (gateway "gateway:1") claim_key false "") installed)).
Lemma claim_exec : exists p', exec (allocate (gateway "gateway:1") claim_key false "") claim_history p'.
Proof. eexists. apply run_history. Qed.
Definition claim_update : op := Update Local KConfigMap (storeRegistry "c1" registry_map claimed_registry).
Lemma claim_called : called claim_history (firstn 6 claim_history) claim_update.
Proof. apply call_at; vm_compute; reflexivity. Qed.
Lemma gateway_claims_are_recorded_first_witness :
  exists value, commit (gateway "gateway:1") (firstn 6 claim_history) claim_key false "" value
    (storeRegistry "c1" registry_map claimed_registry).
Proof.
  destruct claim_exec as [p' HX].
  exact (proj1 (gateway_claims_are_recorded_first (gateway "gateway:1") claim_key false "" _ _ HX) _ _ claim_called).
Defined.

(** ** A rollout and a first installation *)

Definition first_pod : Pod := nth 0 (w_pods installed) (mkPod (newMeta "" "" ∅ ∅) "" false false None [] [] [] []).
Definition roll_history : history := ensure_history "gateway:2" installed.
Lemma roll_called : called roll_history (firstn 21 roll_history)
  (Kube.Delete Local KPod "global-vpc" (om_Name (pd_Meta first_pod)) (mkPre (Some (om_UID (pd_Meta first_pod))) (Some "1"))).
Proof. apply call_at; vm_compute; reflexivity. Qed.
Lemma rollouts_keep_siblings_running_witness :
  retirement (gateway "gateway:2") gateway_binding attachment (firstn 21 roll_history) "global-vpc" (om_Name (pd_Meta first_pod))
    (mkPre (Some (om_UID (pd_Meta first_pod))) (Some "1")).
Proof.
  destruct (ensure_exec "gateway:2" installed) as [p' HX].
  exact (proj1 (proj2 (rollouts_keep_siblings_running (gateway "gateway:2") gateway_binding attachment 3 _ _ _ _ _ _ _ HX roll_called))).
Defined.

Definition new_pod : Pod := mkPod (newMeta "" "" ∅ ∅) "" false false None [] [] [] [].
Definition pod_of_op (o : op) : Pod :=
  match o with Create _ k x => match k return object k -> Pod with KPod => fun p => p | _ => fun _ => new_pod end x | _ => new_pod end.
Definition install_history : history := ensure_history "gateway:1" empty_cluster.
Lemma install_called : called install_history (firstn 41 install_history) (Create Local KPod (pod_of_op (nth_op install_history 41))).
Proof. apply call_at; vm_compute; reflexivity. Qed.
Lemma gateway_passes_stay_confined_witness : own (gateway "gateway:1") gateway_binding (pd_Meta (pod_of_op (nth_op install_history 41))).
Proof.
  destruct (ensure_exec "gateway:1" empty_cluster) as [p' HX].
  exact (proj2 (gateway_passes_stay_confined (gateway "gateway:1") gateway_binding attachment 3 _ _ _ _ HX install_called)).
Defined.

(** ** Taking the gateways down *)

Definition delete_run (w : world) := run local_step (Delete (gateway "gateway:1") gateway_binding) w.
Definition delete_history (w : world) : history := fst (fst (delete_run w)).
Definition podless : world := with_pods [] installed.
(** The runtime configurations have a finalizer. *)
Definition held_back : world :=
  with_maps (map (cm_with_Meta (fun m => if HasPrefix (om_Name m) (ledgerName gateway_binding ++ "-") then set_Finalizers ["example.com/hold"] m else m))
    (w_maps installed)) podless.
Lemma delete_exec w : exists p', exec (Delete (gateway "gateway:1") gateway_binding) (delete_history w) p'.
Proof. eexists. apply run_history. Qed.
Definition ledger_map : ConfigMap :=
  match by_name (fun x => om_Name (cm_Meta x)) (ledgerName gateway_binding) (w_maps installed) with Ok cm => cm | Err _ => registry_map end.
Lemma ledger_called : called (delete_history podless) (firstn 11 (delete_history podless))
  (Kube.Delete Local KConfigMap "global-vpc" (ledgerName gateway_binding) (mkPre (Some (om_UID (cm_Meta ledger_map))) (Some "1"))).
Proof. apply call_at; vm_compute; reflexivity. Qed.
Lemma teardown_is_ordered_witness : pods_gone (gateway "gateway:1") gateway_binding (firstn 11 (delete_history podless)).
Proof.
  destruct (delete_exec podless) as [p' HX].
  destruct (proj2 (proj1 (teardown_is_ordered (gateway "gateway:1") gateway_binding _ _ HX) _ _ _ _ _ _ ledger_called))
    as (name & x & _ & _ & _ & _ & _ & [H|[_ H]]); [discriminate H|exact H].
Defined.

(** The guard of the last loop of [Delete] only stops at the first record that is not
    the ledger, and the ledger is the first record of a sorted inventory: it is
    deleted while a runtime configuration is still there. *)
Lemma the_ledger_may_go_first :
  let '(_, answer, w) := delete_run held_back in
  answer = Ok false /\ forallb (fun cm => negb (om_Name (cm_Meta cm) =? ledgerName gateway_binding)%string) (w_maps w) = true /\
  existsb (fun cm => owned (cm_Meta cm) gateway_binding) (w_maps w) = true.
Proof. by vm_compute. Qed.
