(* ===== verification/InfraWorld.v ===== *)
(** * An authority and its clusters that store what is written to them

    The API servers of the [v1alpha1] examples: Kube-OVN reports every native resource
    ready, a dedicated native IC Deployment follows its replicas at once, and the OVN and
    gateway adapters succeed. *)
From S2P Require Import Prelude GoStd Json NetIP Validation SiteConfig Api Prog Kube PlatformWitness SyncWitness LocalWorld.
From S2P Require Import GlobalApi GlobalConfig GlobalPlan SitePlan Infra Domain.
Open Scope Z_scope.

#[export] Instance nested_fields : NestedFields := {|
  NestedFieldMap j path :=
    match nested j path with None => Ok None | Some (JObj l) => Ok (Some l) | Some _ => Err (Errorf "not a map") end;
  SetNestedMap j l path := set_nested j (JObj l) path |}.
#[export] Instance converter : Converter := {|
  ToUnstructured s := Ok (JObj (map (fun kv => (fst kv, JStr (snd kv))) (map_to_list (ls_MatchLabels s)))) |}.

Record infra := mkInfra {
  i_globals : list GlobalVpc; i_sites : list SiteVpc; i_maps : list ConfigMap;
  i_natives : list (store * Native); i_deployments : list (store * Deployment);
  i_gateway : bool (* the site gateway is installed *); i_bfd : bool (* its sessions exist *) }.
Definition set_globals (l : list GlobalVpc) (w : infra) : infra :=
  mkInfra l (i_sites w) (i_maps w) (i_natives w) (i_deployments w) (i_gateway w) (i_bfd w).
Definition set_sites (l : list SiteVpc) (w : infra) : infra :=
  mkInfra (i_globals w) l (i_maps w) (i_natives w) (i_deployments w) (i_gateway w) (i_bfd w).
Definition set_maps (l : list ConfigMap) (w : infra) : infra :=
  mkInfra (i_globals w) (i_sites w) l (i_natives w) (i_deployments w) (i_gateway w) (i_bfd w).
Definition set_natives (l : list (store * Native)) (w : infra) : infra :=
  mkInfra (i_globals w) (i_sites w) (i_maps w) l (i_deployments w) (i_gateway w) (i_bfd w).
Definition set_deployments (l : list (store * Deployment)) (w : infra) : infra :=
  mkInfra (i_globals w) (i_sites w) (i_maps w) (i_natives w) l (i_gateway w) (i_bfd w).

Definition set_gateway (b : bool) (w : infra) : infra :=
  mkInfra (i_globals w) (i_sites w) (i_maps w) (i_natives w) (i_deployments w) b (i_bfd w).
Definition set_bfd (b : bool) (w : infra) : infra :=
  mkInfra (i_globals w) (i_sites w) (i_maps w) (i_natives w) (i_deployments w) (i_gateway w) b.

(** The objects of one API server. *)
Definition on {A} (s : store) (l : list (store * A)) : list A := map snd (List.filter (fun x => bool_decide (fst x = s)) l).
Definition replace {A} (name : A -> string) (x : A) (l : list A) : list A :=
  map (fun y => if (name y =? name x)%string then x else y) l.
(** A ReplicaSet of each Deployment, and its Pod while there is one. *)
Definition replica_set (d : Deployment) : ReplicaSet :=
  mkReplicaSet (mkMeta (om_Name (dp_Meta d)) (om_Namespace (dp_Meta d)) ("set-" ++ om_UID (dp_Meta d)) "1" 1 0 None ∅ ∅ []
                  [mkOwnerRef "apps/v1" "Deployment" (om_Name (dp_Meta d)) (om_UID (dp_Meta d)) (Some true) None]) (dp_Replicas d) 1.
Definition ic_pods (d : Deployment) : list ICPod :=
  if bool_decide (dp_Replicas d = Some 0) then []
  else [mkICPod (mkMeta "ic-pod" (om_Namespace (dp_Meta d)) "pod" "1" 1 0 None ∅ ∅ []
                   [mkOwnerRef "apps/v1" "ReplicaSet" (om_Name (dp_Meta d)) ("set-" ++ om_UID (dp_Meta d)) (Some true) None]) "Running"].
(** The controllers of the cluster bring a Deployment to its replicas. *)
Definition converged (d : Deployment) : Deployment :=
  let n := default 1 (dp_Replicas d) in mkDeployment (dp_Meta d) (dp_Replicas d) (dp_TemplateLabels d) (dp_ObservedGeneration d) n n.

Definition cluster_name (s : store) : string := match s with AuthorityAPI => "authority" | InfraAPI c => c end.
Definition i_get (w : infra) (s : store) (k : kind) (name : string) : res (object k) :=
  match k return res (object k) with
  | KGlobalVpc => PlatformWitness.by_name (fun x => om_Name (gv_Meta x)) name (i_globals w)
  | KSiteVpc => PlatformWitness.by_name (fun x => om_Name (sv_Meta x)) name (i_sites w)
  | KConfigMap => PlatformWitness.by_name (fun x => om_Name (cm_Meta x)) name (i_maps w)
  | KNamespace => Ok (mkNamespace (stored name "" ("uid-" ++ cluster_name s) ∅ [] None))
  | KDeployment => PlatformWitness.by_name (fun x => om_Name (dp_Meta x)) name (on s (i_deployments w))
  | KNative kd => PlatformWitness.by_name (fun x => om_Name (un_Meta x)) name (of_kind kd (on s (i_natives w)))
  | KReplicaSet | KPod => absent
  end.
Definition i_list (w : infra) (s : store) (k : kind) : res (list (object k)) :=
  match k return res (list (object k)) with
  | KReplicaSet => Ok (map replica_set (on s (i_deployments w)))
  | KPod => Ok (flat_map ic_pods (on s (i_deployments w)))
  | _ => Ok []
  end.
(** Every write of a ConfigMap gives it a version of its own. *)
Definition next_version (m : ObjectMeta) : ObjectMeta :=
  mkMeta (om_Name m) (om_Namespace m) ("uid-of-" ++ om_Name m) ("1" ++ om_ResourceVersion m) (om_Generation m) 0 None
    (om_Labels m) (om_Annotations m) (om_Finalizers m) (om_OwnerReferences m).
Definition i_create (w : infra) (s : store) (k : kind) : object k -> object k * infra :=
  match k return object k -> object k * infra with
  | KConfigMap => fun x => let x := cm_with_Meta next_version x in (x, set_maps (i_maps w ++ [x]) w)
  | KNative _ => fun x => let x := native_created x in (x, set_natives (i_natives w ++ [(s, x)]) w)
  | _ => fun x => (x, w)
  end.
Definition i_update (w : infra) (s : store) (k : kind) : object k -> object k * infra :=
  match k return object k -> object k * infra with
  | KGlobalVpc => fun x => (x, set_globals (replace (fun v => om_Name (gv_Meta v)) x (i_globals w)) w)
  | KSiteVpc => fun x => (x, set_sites (replace (fun v => om_Name (sv_Meta v)) x (i_sites w)) w)
  | KConfigMap => fun x =>
      let x := cm_with_Meta next_version x in (x, set_maps (replace (fun m => om_Name (cm_Meta m)) x (i_maps w)) w)
  | KDeployment => fun x =>
      let x := converged x in
      (x, set_deployments (map (fun y => if bool_decide (fst y = s) && (om_Name (dp_Meta (snd y)) =? om_Name (dp_Meta x))%string
                                         then (s, x) else y) (i_deployments w)) w)
  | KNative kd => fun x =>
      (x, set_natives (map (fun y => if bool_decide (fst y = s) && (un_Kind (snd y) =? kd)%string &&
                                        (om_Name (un_Meta (snd y)) =? om_Name (un_Meta x))%string
                                     then (s, x) else y) (i_natives w)) w)
  | _ => fun x => (x, w)
  end.
Definition i_delete (w : infra) (s : store) (k : kind) (name : string) : infra :=
  match k with
  | KNative kd => set_natives (List.filter (fun y => negb (bool_decide (fst y = s) && (un_Kind (snd y) =? kd)%string &&
                                                          (om_Name (un_Meta (snd y)) =? name)%string)) (i_natives w)) w
  | _ => w
  end.
Definition gateway_result (g : GatewayConfig) : GatewayResult :=
  mkGatewayResult true false false (Z.of_nat (List.length (Members g))) (map gw_ID (Members g))
    [mkGatewayRecord "apps/v1" "Deployment" "gateways" (gc_VpcName g) "gw"].
Definition sessions (g : GatewayConfig) : BFDState :=
  mkBFDState (map (fun m => mkBFDRecord (gw_ID m) ("bfd-" ++ gw_ID m)) (Members g)) (map gw_ID (Members g)) true.
Definition gateway_gone : GatewayResult := mkGatewayResult false true true 0 [] [].
Definition i_adapt (w : infra) (a : adapter) : res (adapted a) :=
  match a return res (adapted a) with
  | InspectTransit _ _ _ expected => Ok expected
  | EnsureTransit _ name _ _ => Ok ("uid-of-" ++ name)%string
  | NetworkCheck _ | Mark _ _ | Gateways _ _ | DeleteTransit _ _ _ _ => Ok tt
  | EndpointsEmpty _ _ | LocalAbsent _ _ _ _ | Connected _ _ _ _ | RoutesReady _ _ _ => Ok true
  | GetBFD _ g _ => Ok (if i_bfd w then sessions g else mkBFDState [] [] false)
  | EnsureBFD _ g _ => Ok (sessions g)
  | DeleteBFD _ _ _ => Ok true
  | EnsureECMPFields _ _ _ => Ok true
  | BFDRouteConflicts _ _ _ => Ok ∅
  | GatewayEnsure g _ => Ok (gateway_result g)
  | GatewayGet g _ => Ok (if i_gateway w then gateway_result g else gateway_gone)
  | GatewayDelete _ _ | GatewayEndpointsEmpty _ _ => Ok gateway_gone
  end.
(** The gateway and its sessions after a call. *)
Definition after_adapt (w : infra) (a : adapter) : infra :=
  match a with
  | GatewayEnsure _ _ => set_gateway true w | GatewayDelete _ _ => set_gateway false w
  | EnsureBFD _ _ _ => set_bfd true w | DeleteBFD _ _ _ => set_bfd false w
  | _ => w
  end.
(** There is no answer to the use of a nil client. *)
Definition infra_step (o : op) (w : infra) : option (ans o * infra) :=
  match o return option (ans o * infra) with
  | Get s k _ name => Some (i_get w s k name, w)
  | ListIn s k _ => Some (i_list w s k, w)
  | Create s k x => let (x, w) := i_create w s k x in Some (Ok x, w)
  | Update s k x | UpdateStatus s k x => let (x, w) := i_update w s k x in Some (Ok x, w)
  | Delete s k _ name _ => Some (Ok tt, i_delete w s k name)
  | Reserve _ c => Some (Ok (mkAllocation c ("allocation-of-" ++ pc_ClaimUID c) "Retain"), w)
  | Adapter a => Some (i_adapt w a, after_adapt w a)
  | Panic => None
  end.

(** ** Passes *)

Section play.
Context {Op : Type} {Ans : Op -> Type} {W : Type} (step : forall o : Op, W -> option (Ans o * W)).
(** A pass up to the first call without an answer. *)
Fixpoint play {A} (p : prog Ans A) (w : W) : list (event Ans) * prog Ans A * W :=
  match p with
  | Ret a => ([], Ret a, w)
  | Act o k =>
      match step o w with
      | None => ([], Act o k, w)
      | Some (x, w') => let '(h, q, w'') := play (k x) w' in (Ev o x :: h, q, w'')
      end
  end.
Lemma play_exec {A} (p : prog Ans A) w : exec p (fst (fst (play p w))) (snd (fst (play p w))).
Proof.
  revert w. induction p as [a|o k IH]; intros w; simpl; [constructor|]. destruct (step o w) as [[x w1]|]; [|constructor].
  specialize (IH x w1). destruct (play (k x) w1) as [[h q] w2]. by constructor.
Qed.
End play.
