(* ===== verification/GlobalWitness.v ===== *)
(** * A GlobalVpc created, connected and deleted

    The passes of the controller over a domain of two clusters, on the API servers of
    [InfraWorld], and the theorems of the [v1alpha1] components at work on them. *)
From S2P Require Import Prelude GoStd Json NetIP NetIPFacts Validation SiteConfig Api Prog Kube PlatformWitness SyncWitness LocalWorld.
From S2P Require Import GlobalApi GlobalConfig SitePlan GlobalPlan GlobalPlanFacts Infra InfraFacts Domain DomainFacts GlobalReconciler GlobalSafety InfraWorld.
Open Scope Z_scope.

Definition example_cluster (name : string) : Cluster :=
  mkCluster name ("uid-" ++ name) "r1" ("s-" ++ name) ("d-" ++ name) ("/etc/" ++ name) ["nbctl"] ["sbctl"] ["node-2"; "node-1"]
    ("az-" ++ name) (mkDeploymentRef "kube-system" ("ic-" ++ name) ("ic-uid-" ++ name)).
Definition example_domain : Config :=
  mkConfig "metro" [example_cluster "east"; example_cluster "west"] ["ic-nbctl"] (<["static" := ["ipam"]]> ∅).
Definition example_stores : gmap string ResourceStore :=
  <["east" := mkStore (Some (InfraAPI "east")) (example_cluster "east")]>
    (<["west" := mkStore (Some (InfraAPI "west")) (example_cluster "west")]> ∅).
Definition global_reconciler : Reconciler :=
  mkReconciler example_domain example_stores ["static"] (mkGate "global-vpc" example_domain example_stores) 0.

Definition east_attachment : Attachment := mkAttachment "east" "10.1.0.0/16" "10.1.0.1" "100.64.0.2".
Definition west_attachment : Attachment := mkAttachment "west" "10.2.0.0/16" "10.2.0.1" "100.64.0.3".
Definition example_global (l : list Attachment) : GlobalVpc :=
  mkGlobalVpc (stored "net" "" "u1" ∅ [Finalizer] None)
    (mkGlobalSpec "metro" (mkIPAM "static" "scope-1") "100.64.0.0/24" l) (mkGlobalStatus 0 "" "" "" [] [] "" [] []).
Definition example_intent : GlobalVpc := example_global [west_attachment; east_attachment].
Definition ic_deployment (name : string) : store * Deployment :=
  (InfraAPI name, mkDeployment (stored ("ic-" ++ name) "kube-system" ("ic-uid-" ++ name) (<[DomainLabel := "metro"]> ∅) [] None)
                    (Some 1) (<[DomainLabel := "metro"]> ∅) 1 1 1).
Definition start : infra := mkInfra [example_intent] [] [] [] [ic_deployment "east"; ic_deployment "west"] false false.

Definition one_pass (w : infra) := play infra_step (Reconcile global_reconciler "" "net") w.
Definition pass_history (w : infra) : ghistory := fst (fst (one_pass w)).
Fixpoint after_passes (n : nat) (w : infra) : infra :=
  match n with O => w | S n => after_passes n (snd (one_pass w)) end.
Lemma global_pass_exec w : exists p', exec (Reconcile global_reconciler "" "net") (pass_history w) p'.
Proof. eexists. apply play_exec. Qed.

(** Created up to the stopped native IC, up to its resumption, and connected. *)
Definition quiesced : infra := Eval vm_compute in after_passes 1 start.
Definition resuming : infra := Eval vm_compute in after_passes 1 quiesced.
Definition connected : infra := Eval vm_compute in after_passes 2 resuming.
(** Deleted up to the removal of the routers. *)
Definition deleted (m : ObjectMeta) : ObjectMeta :=
  mkMeta (om_Name m) (om_Namespace m) (om_UID m) (om_ResourceVersion m) (om_Generation m) 0 (Some 9)
    (om_Labels m) (om_Annotations m) (om_Finalizers m) (om_OwnerReferences m).
Definition withdrawn : infra :=
  Eval vm_compute in after_passes 2 (set_globals (map (gv_with_Meta deleted) (i_globals connected)) connected).

(** ** Passes at work *)

Definition vpc_name : string := "gv-bb82030dbc2bcaba-dc72a2d56ad6d439".
Definition switch_name : string := "gt-bb82030dbc2bcaba".
Lemma ensure_called : called (pass_history quiesced) (firstn 45 (pass_history quiesced)) (Adapter (EnsureTransit ["ic-nbctl"] switch_name "u1" "")).
Proof. apply called_at. vm_compute. reflexivity. Qed.
Lemma topology_changes_are_fenced_witness :
  exists p, planned global_reconciler (firstn 45 (pass_history quiesced)) p /\ "u1"%string = pl_UID p /\
    fenced (re_Gate global_reconciler) "u1" (pl_Hash p) (firstn 45 (pass_history quiesced)).
Proof.
  destruct (global_pass_exec quiesced) as [p' HX].
  exact (proj1 (topology_changes_are_fenced global_reconciler "" "net" _ _ _ HX) _ _ _ ensure_called).
Defined.

(** The lock of the domain as a pass stored it. *)
Definition lock_written (h : ghistory) (n : nat) : ConfigMap :=
  match option_map ev_op (nth_error h n) with
  | Some (Update _ k x) => match k return object k -> ConfigMap with KConfigMap => fun m => m | _ => fun _ => mkConfigMap (stored "" "" "" ∅ [] None) None ∅ end x
  | _ => mkConfigMap (stored "" "" "" ∅ [] None) None ∅
  end.
Definition released : ConfigMap := lock_written (pass_history resuming) 18.
Lemma release_called : called (pass_history resuming) (firstn 18 (pass_history resuming)) (Update AuthorityAPI KConfigMap released).
Proof. apply called_at. vm_compute. reflexivity. Qed.
Lemma released_free : holder_of released = ""%string.
Proof. vm_compute. reflexivity. Qed.
(** Whether the API server kept the UID of the object of a status update. *)
Definition uid_kept (e : event ans) : bool :=
  match ev_op e as o return ans o -> bool with
  | UpdateStatus AuthorityAPI KGlobalVpc sent => fun x =>
      match x with Ok v => (om_UID (gv_Meta v) =? om_UID (gv_Meta sent))%string | Err _ => true end
  | _ => fun _ => true
  end (ev_ans e).
Lemma uids_kept h : forallb uid_kept h = true -> keeps_uid h.
Proof. intros H sent v Ha. rewrite forallb_forall in H. specialize (H _ Ha). by apply String.eqb_eq in H. Qed.
Lemma example_keeps_uid : keeps_uid (pass_history resuming) /\ keeps_uid (pass_history quiesced).
Proof. split; apply uids_kept; vm_compute; reflexivity. Qed.
Definition deployment_written (h : ghistory) (n : nat) : store * Deployment :=
  match option_map ev_op (nth_error h n) with
  | Some (Update api k x) => match k return object k -> store * Deployment with KDeployment => fun d => (api, d) | _ => fun _ => ic_deployment "" end x
  | _ => ic_deployment ""
  end.
Definition scaled_up : store * Deployment := deployment_written (pass_history quiesced) 55.
Lemma scale_called : called (pass_history quiesced) (firstn 55 (pass_history quiesced)) (Update (fst scaled_up) KDeployment (snd scaled_up)).
Proof. apply called_at. vm_compute. reflexivity. Qed.
Lemma the_domain_is_handed_back_running_witness :
  (exists p, planned global_reconciler (firstn 18 (pass_history resuming)) p /\
     resumed (re_Gate global_reconciler) (pl_UID p) (firstn 18 (pass_history resuming))) /\
  exists p, planned global_reconciler (firstn 55 (pass_history quiesced)) p /\
    locked_by (re_Gate global_reconciler) (pl_UID p) (firstn 55 (pass_history quiesced)).
Proof.
  split.
  - destruct (global_pass_exec resuming) as [p' HX].
    destruct (proj1 (the_domain_is_handed_back_running global_reconciler "" "net" _ _ _ HX (proj1 example_keeps_uid)) released release_called released_free)
      as (p & cm & Hp & _ & _ & _ & _ & HR & _). exists p. exact (conj Hp HR).
  - destruct (global_pass_exec quiesced) as [p' HX].
    destruct (proj2 (the_domain_is_handed_back_running global_reconciler "" "net" _ _ _ HX (proj2 example_keeps_uid)) _ _ scale_called) as (p & Hp & HL & _).
    exists p. exact (conj Hp HL).
Defined.

Lemma global_router_deleted : called (pass_history withdrawn) (firstn 44 (pass_history withdrawn))
  (Delete (InfraAPI "east") (KNative "Vpc") "" vpc_name (mkPre (Some ("uid-of-" ++ vpc_name)%string) (Some "1"%string))).
Proof. apply called_at. vm_compute. reflexivity. Qed.
(** The pass after it records that the teardown is over, the next one removes the finalizer. *)
Definition cleared : infra := Eval vm_compute in after_passes 1 withdrawn.
Definition status_written (h : ghistory) (n : nat) : GlobalVpc :=
  match option_map ev_op (nth_error h n) with
  | Some (UpdateStatus _ k x) => match k return object k -> GlobalVpc with KGlobalVpc => fun v => v | _ => fun _ => example_intent end x
  | _ => example_intent
  end.
Definition recorded_end : GlobalVpc := status_written (pass_history cleared) 48.
Lemma end_recorded : called (pass_history cleared) (firstn 48 (pass_history cleared)) (UpdateStatus AuthorityAPI KGlobalVpc recorded_end).
Proof. apply called_at. vm_compute. reflexivity. Qed.
Lemma recorded_end_operation : gt_Operation (gv_Status recorded_end) = "DeleteResume"%string.
Proof. vm_compute. reflexivity. Qed.
Lemma global_teardown_is_ordered_witness :
  (exists p, planned global_reconciler (firstn 44 (pass_history withdrawn)) p /\ disconnected global_reconciler (firstn 44 (pass_history withdrawn)) p) /\
  may_record global_reconciler (firstn 48 (pass_history cleared)).
Proof.
  split.
  - destruct (global_pass_exec withdrawn) as [p' HX].
    destruct (proj1 (global_teardown_is_ordered global_reconciler "" "net" _ _ _ HX) _ _ _ _ _ global_router_deleted)
      as (p & s & o & kind & name & expected & Hp & _ & _ & _ & _ & _ & _ & HD).
    exists p. exact (conj Hp HD).
  - destruct (global_pass_exec cleared) as [p' HX].
    exact (proj1 (proj2 (global_teardown_is_ordered global_reconciler "" "net" _ _ _ HX)) _ end_recorded recorded_end_operation).
Defined.

(** ** The plan *)

Definition no_plan : Plan := mkPlan "" "" "" [] [].
Definition example_plan : Plan := Eval vm_compute in match Build (Some example_intent) example_domain with Ok p => p | Err _ => no_plan end.
Lemma global_example_build : Build (Some example_intent) example_domain = Ok example_plan.
Proof. vm_compute. reflexivity. Qed.
Definition no_site : Site := mkSite zeroCluster east_attachment "" "" "" (resource "" "" ∅ []) (resource "" "" ∅ []) (resource "" "" ∅ []).
Definition site (n : nat) : Site := Eval vm_compute in nth n (pl_Attachments example_plan) no_site.
Definition east_site : Site := Eval vm_compute in nth 0 (pl_Attachments example_plan) no_site.
Definition west_site : Site := Eval vm_compute in nth 1 (pl_Attachments example_plan) no_site.

Lemma infra_objects_are_never_adopted_witness :
  may_create global_reconciler (firstn 22 (pass_history start)) (InfraAPI "east") "Vpc" (si_Vpc east_site).
Proof.
  destruct (global_pass_exec start) as [p' HX].
  refine (proj1 (infra_objects_are_never_adopted global_reconciler "" "net" _ _ _ HX) _ _ _ _).
  apply called_at. vm_compute. reflexivity.
Defined.

(** From the east, 10.2.3.4 is reached through the router of the west. *)
Lemma plans_route_every_address_once_witness : next_hops (si_Vpc east_site) 167904004 = Some ["100.64.0.3"%string].
Proof.
  destruct (plans_route_every_address_once example_intent example_domain example_plan global_example_build) as (transit & nets & _ & HR).
  refine (proj1 (HR east_site 167904004 _ _) west_site _ _).
  - by left.
  - by unfold u32.
  - by right; left.
  - by vm_compute.
Defined.

Definition example_cluster' (name : string) : Cluster := with_chassis ["node-1"; "node-2"] (example_cluster name).
Definition listed_otherwise : Config :=
  mkConfig "metro" [example_cluster' "west"; example_cluster' "east"] ["ic-nbctl"] (<["static" := ["ipam"]]> ∅).
Lemma plans_ignore_listing_order_witness : Build (Some (example_global [east_attachment; west_attachment])) listed_otherwise = Ok example_plan.
Proof.
  apply (plans_ignore_listing_order example_intent _ example_domain).
  - repeat split. apply perm_swap.
  - repeat split. apply perm_swap.
  - exact global_example_build.
Defined.
