(* ===== verification/DomainWitness.v ===== *)
(** * Two controllers on one domain

    The passes of [GlobalWitness] as threads of the concurrent system of [DomainSystem]:
    whether each answer is one the API server may give is checked by evaluation. *)
From S2P Require Import Prelude GoStd Json Validation Api Prog Kube PlatformWitness SyncWitness LocalWorld.
From S2P Require Import GlobalApi GlobalConfig SitePlan GlobalPlan Infra InfraFacts Domain DomainFacts GlobalReconciler GlobalSafety DomainSystem InfraWorld GlobalWitness.
Open Scope Z_scope.

#[export] Instance ConfigMap_eq_dec : EqDecision ConfigMap.
Proof. solve_decision. Defined.

Section served.
Context (gate : DomainGate).

Definition is_lockb (m : ObjectMeta) : bool := (om_Namespace m =? dg_Namespace gate)%string && (om_Name m =? lockName gate)%string.
Definition stored_asb (sent cm : ConfigMap) : bool :=
  (om_Namespace (cm_Meta cm) =? om_Namespace (cm_Meta sent))%string && (om_Name (cm_Meta cm) =? om_Name (cm_Meta sent))%string &&
  bool_decide (om_Labels (cm_Meta cm) = om_Labels (cm_Meta sent)) && bool_decide (cm_Data cm = cm_Data sent).
(** The versions of the lock after an answered call, if the API server may answer so. *)
Definition served (vs : list ConfigMap) (o : op) : ans o -> option (list ConfigMap) :=
  match o return ans o -> option (list ConfigMap) with
  | Get AuthorityAPI KConfigMap _ _ => fun x =>
      match x with Ok cm => if bool_decide (cm ∈ vs) then Some vs else None | Err _ => Some vs end
  | Create AuthorityAPI KConfigMap sent => fun x =>
      match vs, x with
      | [], Ok cm => if is_lockb (cm_Meta sent) && stored_asb sent cm then Some [cm] else None
      | _, _ => None
      end
  | Update AuthorityAPI KConfigMap sent => fun x =>
      match vs, x with
      | cur :: _, Ok cm =>
          if is_lockb (cm_Meta sent) && (version_of cur =? version_of sent)%string && stored_asb sent cm &&
             negb (bool_decide (version_of cm ∈ map version_of vs)) then Some (cm :: vs) else None
      | _, _ => None
      end
  | _ => fun _ => Some vs
  end.
Lemma is_lockb_ok m : is_lockb m = true -> is_lock gate m.
Proof. unfold is_lockb. intros H. breflect. by split. Qed.
Lemma stored_asb_ok sent cm : stored_asb sent cm = true -> stored_as sent cm.
Proof. unfold stored_asb. intros H. breflect. by repeat split. Qed.
Lemma served_serve vs o x vs' : served vs o x = Some vs' -> serve gate vs vs' o x.
Proof.
  destruct o as [[|] []| |[|] [] sent|[|] [] sent| | | | |]; simpl; try (by intros [= <-]).
  - destruct x as [cm|e]; [|by intros [= <-]]. case_bool_decide as Hc; [|done]. intros [= <-]. split; [done|].
    intros _ _ cm' [= <-]. by apply list_elem_of_In.
  - destruct vs as [|]; [|done]. destruct x as [cm|]; [|done]. destruct (_ && _) eqn:E; [|done]. intros [= <-].
    apply andb_prop in E as [E1%is_lockb_ok E2%stored_asb_ok]. left. split; [done|]. split; [done|]. exists cm. split; [done|]. split; [done|]. by intros y [= <-].
  - destruct vs as [|cur past]; [done|]. destruct x as [cm|]; [|done]. destruct (_ && _) eqn:E; [|done]. intros [= <-].
    apply andb_prop in E as [[[E1%is_lockb_ok EV]%andb_prop E2%stored_asb_ok]%andb_prop EF%negb_true_iff]. apply bool_decide_eq_false in EF. breflect.
    left. split; [done|]. exists cur, past, cm. split; [done|]. split; [done|]. split; [done|]. split; [by rewrite <- list_elem_of_In|].
    split; [done|]. by intros y [= <-].
Qed.

(** The versions after a history. *)
Fixpoint chain (vs : list ConfigMap) (h : ghistory) : option (list ConfigMap) :=
  match h with [] => Some vs | Ev o x :: h => match served vs o x with Some vs => chain vs h | None => None end end.
Context {VAL : Validation} {MACH : Machinery} {UNS : Unstructured} {NEST : NestedFields}.
Lemma chain_runs vs vs' ts r h0 p h p' : reachable gate (mkSystem vs (ts ++ [mkThread r h0 p])) -> exec p h p' -> chain vs h = Some vs' ->
  reachable gate (mkSystem vs' (ts ++ [mkThread r (h0 ++ h) p'])).
Proof.
  intros HR HX. revert vs h0 HR. induction HX as [p|o k x h p' HX IH]; intros vs h0 HR HC; simpl in HC.
  - injection HC as <-. by rewrite List.app_nil_r.
  - destruct (served vs o x) as [vs1|] eqn:E; [|done]. apply served_serve in E.
    replace (h0 ++ Ev o x :: h) with ((h0 ++ [Ev o x]) ++ h) by by rewrite <- List.app_assoc.
    apply (IH vs1); [|done]. eapply reachable_step; [exact HR|].
    pose proof (step_call gate vs vs1 (ts ++ [mkThread r h0 (Act o k)]) (List.length ts) r h0 o k x) as HS.
    rewrite list_lookup_middle, insert_app_r_alt, Nat.sub_diag in HS by done. by apply HS.
Qed.
(** A pass that starts and makes the calls [h]. *)
Lemma chain_pass vs vs' ts r ns nm h p' : in_domain gate r -> reachable gate (mkSystem vs ts) -> exec (Reconcile r ns nm) h p' ->
  chain vs h = Some vs' -> reachable gate (mkSystem vs' (ts ++ [mkThread r h p'])).
Proof.
  intros HD HR HX HC. apply (chain_runs vs vs' ts r [] (Reconcile r ns nm)); [|done|done].
  eapply reachable_step; [exact HR|]. by apply step_start.
Qed.
End served.

(** ** The lock taken, used and returned *)

Notation pass w := (mkThread global_reconciler (pass_history w) (snd (fst (one_pass w)))).
Definition lock_versions (l : list infra) : list ConfigMap :=
  match fold_left (fun vs w => match vs with Some vs => chain (re_Gate global_reconciler) vs (pass_history w) | None => None end) l (Some []) with
  | Some vs => vs | None => []
  end.
Definition taken : list ConfigMap := Eval vm_compute in lock_versions [start].
Definition returned : list ConfigMap := Eval vm_compute in lock_versions [start; quiesced; resuming].
Lemma lock_taken : chain (re_Gate global_reconciler) [] (pass_history start) = Some taken.
Proof. vm_compute. reflexivity. Qed.
Lemma lock_kept : chain (re_Gate global_reconciler) taken (pass_history quiesced) = Some taken.
Proof. vm_compute. reflexivity. Qed.
Lemma lock_returned : chain (re_Gate global_reconciler) taken (pass_history resuming) = Some returned.
Proof. vm_compute. reflexivity. Qed.
Definition crowded : system := mkSystem returned [pass start; pass quiesced; pass resuming].
Lemma crowded_reachable : reachable (re_Gate global_reconciler) crowded.
Proof.
  pose proof (fun w => play_exec infra_step (Reconcile global_reconciler "" "net") w) as HX.
  apply (chain_pass _ taken returned [pass start; pass quiesced] _ "" "net"); [done| |exact (HX resuming)|exact lock_returned].
  apply (chain_pass _ taken taken [pass start] _ "" "net"); [done| |exact (HX quiesced)|exact lock_kept].
  apply (chain_pass _ [] taken [] _ "" "net"); [done|constructor|exact (HX start)|exact lock_taken].
Qed.
(** The lock was created for the plan of the example and is free again. *)
Lemma the_domain_lock_excludes_witness :
  map holder_of (sy_lock crowded) = [""; "u1"]%string /\
  forall l1 a b l2, sy_lock crowded = l1 ++ a :: b :: l2 -> holder_of a = ""%string \/ holder_of b = ""%string.
Proof.
  split; [by vm_compute|]. exact (proj1 (the_domain_lock_excludes (re_Gate global_reconciler) crowded crowded_reachable)).
Defined.
