(* ===== verification/SiteWitness.v ===== *)
(** * A SiteVpc attached and detached

    The passes of the site controller for a highly available attachment, on the API
    server of [InfraWorld]. *)
From S2P Require Import Prelude GoStd Json NetIP NetIPFacts Validation SiteConfig Api Prog Kube PlatformWitness SyncWitness LocalWorld.
From S2P Require Import GlobalApi GlobalConfig GlobalPlan SitePlan Infra InfraFacts SiteReconciler SiteSafety InfraWorld.
Open Scope Z_scope.

Definition registered_cluster : SiteConfig.Cluster := SiteConfig.mkCluster "east" "uid-east" "/etc/east" ["nbctl"] ["sbctl"].
Definition example_grant : Grant :=
  mkGrant "tenant-1" ["10.3.0.0/16"; "10.1.0.0/16"] "100.64.0.0/28" "100.64.0.1" ""
    [mkGateway "gw-b" "100.64.0.5"; mkGateway "gw-a" "100.64.0.2"] (Some (mkBFD "100.65.0.1" 300 300 3 None)).
Definition other_grant : Grant := mkGrant "tenant-2" ["10.1.0.0/16"] "100.64.0.0/28" "100.64.0.1" "100.64.0.2" [] None.
Definition site_of (l : list Grant) : SiteConfig.Config :=
  SiteConfig.mkConfig "site-a" "attachment-1" registered_cluster ["gateway"] "rev-1" l ["bfd"].
Definition example_site : SiteConfig.Config := site_of [other_grant; example_grant].
Definition site_client : ResourceStore :=
  mkStore (Some (InfraAPI "east"))
    (mkCluster "east" "uid-east" "" "" "" "/etc/east" ["nbctl"] ["sbctl"] [] "" (mkDeploymentRef "" "" "")).
Definition site_reconciler : Reconciler := mkReconciler example_site site_client true 0.
Definition example_attachment (finalizers : list string) (deleted : option Z) : SiteVpc :=
  mkSiteVpc (stored "net" "" "u7" ∅ finalizers deleted) (mkSiteSpec "tenant-1" "site-a" "attachment-1" "10.1.2.0/24" "10.1.2.1")
    (mkSiteStatus 0 "" "" "" [] [] [] 0 0 []).
Definition start : infra := mkInfra [] [example_attachment [SiteFinalizer] None] [] [] [] false false.

Definition one_pass (w : infra) := play infra_step (Reconcile site_reconciler "" "net") w.
Definition pass_history (w : infra) : ghistory := fst (fst (one_pass w)).
Fixpoint after_passes (n : nat) (w : infra) : infra :=
  match n with O => w | S n => after_passes n (snd (one_pass w)) end.
Lemma site_pass_exec w : exists p', exec (Reconcile site_reconciler "" "net") (pass_history w) p'.
Proof. eexists. apply play_exec. Qed.

(** Attached up to the report, and detached up to the removal of the router. *)
Definition connecting : infra := Eval vm_compute in after_passes 2 start.
Definition deleted (m : ObjectMeta) : ObjectMeta :=
  mkMeta (om_Name m) (om_Namespace m) (om_UID m) (om_ResourceVersion m) (om_Generation m) 0 (Some 9)
    (om_Labels m) (om_Annotations m) (om_Finalizers m) (om_OwnerReferences m).
Definition connected : infra := Eval vm_compute in after_passes 1 connecting.
Definition detaching : infra := Eval vm_compute in after_passes 5 (set_sites (map (sv_with_Meta deleted) (i_sites connected)) connected).

Definition router_name : string := "sv-64124cf21bb8abcb".
Lemma site_router_deleted : called (pass_history detaching) (firstn 19 (pass_history detaching))
  (Delete (InfraAPI "east") (KNative "Vpc") "" router_name (mkPre (Some ("uid-of-" ++ router_name)%string) (Some "1"%string))).
Proof. apply called_at. vm_compute. reflexivity. Qed.
Lemma site_teardown_is_ordered_witness :
  exists p, planned site_reconciler (firstn 19 (pass_history detaching)) p /\
    detached site_reconciler (firstn 19 (pass_history detaching)) p /\ unbound site_reconciler (firstn 19 (pass_history detaching)) p.
Proof.
  destruct (site_pass_exec detaching) as [p' HX].
  destruct (proj1 (proj2 (proj2 (site_teardown_is_ordered site_reconciler "" "net" _ _ _ HX))) _ _ _ _ _ site_router_deleted)
    as (p & o & kind & name & expected & Hp & _ & _ & _ & _ & _ & _ & HD & HU & _).
  exists p. exact (conj Hp (conj HD HU)).
Defined.

Definition no_object : Native := resource "" "" ∅ [].
Definition created (h : ghistory) (n : nat) : Native :=
  match option_map ev_op (nth_error h n) with
  | Some (Create _ k x) => match k return object k -> Native with KNative _ => fun o => o | _ => fun _ => no_object end x
  | _ => no_object
  end.
Definition router : Native := Eval vm_compute in created (pass_history start) 11.
Lemma router_created : called (pass_history start) (firstn 11 (pass_history start)) (Create (InfraAPI "east") (KNative "Vpc") router).
Proof. apply called_at. vm_compute. reflexivity. Qed.
Lemma site_objects_are_never_adopted_witness : may_create site_reconciler (firstn 11 (pass_history start)) (InfraAPI "east") "Vpc" router.
Proof.
  destruct (site_pass_exec start) as [p' HX].
  exact (proj1 (site_objects_are_never_adopted site_reconciler "" "net" _ _ _ HX) _ _ _ router_created).
Defined.

Definition reported (h : ghistory) (n : nat) : SiteVpc :=
  match option_map ev_op (nth_error h n) with
  | Some (UpdateStatus _ k x) => match k return object k -> SiteVpc with KSiteVpc => fun v => v | _ => fun _ => example_attachment [] None end x
  | _ => example_attachment [] None
  end.
Definition report : SiteVpc := Eval vm_compute in reported (pass_history connecting) 22.
Lemma report_called : called (pass_history connecting) (firstn 22 (pass_history connecting)) (UpdateStatus AuthorityAPI KSiteVpc report).
Proof. apply called_at. vm_compute. reflexivity. Qed.
Lemma local_readiness_is_observed_witness :
  vt_Phase (sv_Status report) = "LocalReady"%string /\ may_report site_reconciler (firstn 22 (pass_history connecting)) report.
Proof.
  destruct (site_pass_exec connecting) as [p' HX]. split; [reflexivity|].
  exact (proj2 (local_readiness_is_observed site_reconciler "" "net" _ _ _ HX _ _ report_called)).
Defined.

(** ** The plan *)

Definition no_plan : Plan :=
  mkPlan "" "" "" "" "" "" "" "" no_object no_object no_object (mkGatewayConfig "" "" "" "" "" "" [] "" "" "" "" "" "" "" [] None).
Definition attachment : SiteVpc := example_attachment [SiteFinalizer] None.
Definition example_plan : Plan := Eval vm_compute in match Build (Some attachment) example_site with Ok p => p | Err _ => no_plan end.
Lemma site_example_build : Build (Some attachment) example_site = Ok example_plan.
Proof. vm_compute. reflexivity. Qed.
Definition example_transit : NetIP.Prefix := mkPrefix (Addr4 1681915904) 28.
(** 100.64.0.3 is kept from allocation, the gateway's address 100.64.0.2 is not. *)
Lemma site_plans_stay_inside_the_grant_witness :
  exists transit, Prefix "100.64.0.0/28" = Ok transit /\
    excluded (transit_ranges transit ["100.64.0.2"; "100.64.0.5"]%string) 1681915907 /\
    ~ excluded (transit_ranges transit ["100.64.0.2"; "100.64.0.5"]%string) 1681915906.
Proof.
  destruct (site_plans_stay_inside_the_grant attachment example_site example_plan site_example_build) as (g & net & transit & HC & _ & HX).
  exists transit. destruct (cf_grant _ _ _ _ _ _ HC) as [Hg Eg].
  assert (g = example_grant) as -> by (destruct Hg as [<-|[<-|[]]]; [discriminate Eg|reflexivity]).
  pose proof (cf_transit _ _ _ _ _ _ HC) as HT. split; [exact HT|].
  assert (transit = example_transit) as -> by (vm_compute in HT; by injection HT as <-).
  split; [apply HX|intros HE; apply HX in HE]; try by vm_compute.
  - split; [by vm_compute|]. split; [by vm_compute|]. vm_compute. by intros [?|[?|[]]].
  - destruct HE as (_ & _ & HE). apply HE. vm_compute. by left.
Defined.

Definition listed_otherwise : Grant :=
  mkGrant "tenant-1" ["10.1.0.0/16"; "10.3.0.0/16"] "100.64.0.0/28" "100.64.0.1" ""
    [mkGateway "gw-a" "100.64.0.2"; mkGateway "gw-b" "100.64.0.5"] (Some (mkBFD "100.65.0.1" 300 300 3 None)).
(** Without the other tenant, and with the lists in another order. *)
Lemma site_plans_ignore_other_tenants_witness : Build (Some attachment) (site_of [listed_otherwise]) = Ok example_plan.
Proof.
  apply (site_plans_ignore_other_tenants attachment example_site).
  - do 5 (split; [reflexivity|]). exists example_grant, listed_otherwise.
    split; [by right; left|]. split; [by left|]. split; [reflexivity|].
    split; [reflexivity|]. split; [apply perm_swap|]. do 3 (split; [reflexivity|]). split; [apply perm_swap|reflexivity].
  - vm_compute. reflexivity.
  - exact site_example_build.
Defined.
