(* ===== verification/OvnWitness.v ===== *)
(** * The OVN executor against a small database *)
From stdpp Require Import gmultiset.
From S2P Require Import Prelude GoStd Json JsonDecode Validation SiteConfig Prog Api GlobalApi GlobalConfig GlobalPlan SitePlan Infra InfraWorld.
From S2P Require Import Ovn OvnFacts OvnBFD OvnBFDFacts OvnBFDSafety.
Open Scope Z_scope.

(** ** A server of printed tables *)

(** The rows of a table for a selector, a list of columns each. *)
Definition database := list (string * string * list (list (string * json))).
Fixpoint select (db : database) (table selector : string) : list (list (string * json)) :=
  match db with
  | [] => []
  | (t, s, rows) :: db => if (t =? table)%string && (s =? selector)%string then rows else select db table selector
  end.
Definition column_of (r : list (string * json)) (c : string) : json := default JNull (member c r).
Definition print_table (columns : list string) (rows : list (list (string * json))) : string :=
  Marshal (JObj [("headings", strings_json columns); ("data", JArr (map (fun r => JArr (map (column_of r) columns)) rows))]).
(** Reads answer from the database; other commands and the transaction succeed silently. *)
Definition serve (db : database) (c : command) : ran :=
  match c with
  | _ :: _ :: _ :: columns :: verb :: table :: selector =>
      if (verb =? "find")%string || (verb =? "list")%string
      then Output (print_table (split_comma (TrimPrefix columns "--columns=") "") (select db table (Join " " selector))) false
      else Output "" false
  | _ => Output "" false
  end.
Definition serve_step (db : database) (c : command) (w : unit) : ran_of c * unit := (serve db c, w).
Definition history {A} (db : database) (p : oprog A) : ohistory := fst (fst (Prog.run (Ans := ran_of) (serve_step db) p tt)).
Definition outcome {A} (db : database) (p : oprog A) : A := snd (fst (Prog.run (Ans := ran_of) (serve_step db) p tt)).
Lemma history_exec {A} db (p : oprog A) : exec p (history db p) (Ret (outcome db p)).
Proof. apply run_history. Qed.

Definition uuid (digit : string) : string := (digit ++ "0000000-0000-0000-0000-000000000000")%string.
Definition tagged (id : string) : json := JArr [JStr "uuid"; JStr id].
Definition a_set (l : list json) : json := JArr [JStr "set"; JArr l].
Definition a_map (l : list (string * string)) : json := JArr [JStr "map"; JArr (map (fun kv => strings_json [fst kv; snd kv]) l)].
Definition executor : Exec := mkExec 0 ["ovsdb-client"; "transact"].

(** ** Transit switches *)

Definition transit_db (owner : string) : database :=
  [("Transit_Switch", condition "name" "ts-1",
    [[("_uuid", tagged (uuid "1")); ("name", JStr "ts-1"); ("external_ids", a_map [(ownerKey, owner)])]])].
Definition ensure_transit (expected : string) : oprog (res string) := EnsureTransit executor ["ovn-ic-nbctl"] "ts-1" "vpc-uid" expected.
Lemma transit_found : outcome (transit_db "vpc-uid") (ensure_transit "") = Ok (uuid "1").
Proof. vm_compute. reflexivity. Qed.
Lemma transit_foreign : outcome (transit_db "other") (ensure_transit "") = Err (Errorf "transit switch ownership conflict").
Proof. vm_compute. reflexivity. Qed.
Lemma transit_lost : outcome [] (ensure_transit (uuid "1")) = Err ErrTransitMissing.
Proof. vm_compute. reflexivity. Qed.
Lemma transit_destroyed :
  called (history (transit_db "vpc-uid") (DeleteTransit executor ["ovn-ic-nbctl"] "ts-1" "vpc-uid" (uuid "1")))
    (firstn 1 (history (transit_db "vpc-uid") (DeleteTransit executor ["ovn-ic-nbctl"] "ts-1" "vpc-uid" (uuid "1"))))
    (exec_command executor ["ovn-ic-nbctl"] (destroy_transit (uuid "1") "ts-1" "vpc-uid")).
Proof. apply called_at. vm_compute. reflexivity. Qed.
Lemma transit_switches_are_never_adopted_witness :
  held executor ["ovn-ic-nbctl"] "ts-1" "vpc-uid" "" (history (transit_db "vpc-uid") (ensure_transit "")) (uuid "1").
Proof.
  destruct (transit_switches_are_never_adopted executor ["ovn-ic-nbctl"] "ts-1" "vpc-uid" "") as (_ & _ & _ & _ & HE).
  apply HE. pose proof (history_exec (transit_db "vpc-uid") (ensure_transit "")) as HX. rewrite transit_found in HX. exact HX.
Defined.

(** ** Routes *)

Definition registered : Cluster :=
  mkCluster "east" "uid-east" "r" "s" "d" "/k" ["ovn-nbctl"] ["ovn-sbctl"] ["chassis-1"] "az-east" (mkDeploymentRef "ns" "ic" "u").
Definition route_row (cidr hop : string) (policy bfd : json) : list (string * json) :=
  [("ip_prefix", JStr cidr); ("nexthop", JStr hop); ("policy", policy); ("route_table", JStr ""); ("bfd", bfd)].
Definition routes_db : database :=
  [("Logical_Router", condition "name" "vpc", [[("name", JStr "vpc"); ("static_routes", a_set [tagged (uuid "a"); tagged (uuid "b")])]]);
   ("Logical_Router_Static_Route", uuid "a", [route_row "0.0.0.0/0" "10.0.1.2" (JStr "dst-ip") (tagged (uuid "5"))]);
   ("Logical_Router_Static_Route", uuid "b", [route_row "10.1.0.0/24" "10.1.0.1" (JStr "src-ip") (a_set [])])].
Definition expected_routes : list Route :=
  [mkRoute "10.1.0.0/24" "10.1.0.1" "src-ip" ""; mkRoute "0.0.0.0/0" "10.0.1.2" "" (uuid "5")].
Lemma routes_ready : eval (serve routes_db) (RoutesReady executor registered "vpc" expected_routes) = Ok true.
Proof. vm_compute. reflexivity. Qed.
(** One route less is expected than the router carries. *)
Lemma routes_not_ready : eval (serve routes_db) (RoutesReady executor registered "vpc" (tl expected_routes)) = Ok false.
Proof. vm_compute. reflexivity. Qed.
Lemma routes_are_ready_iff_carried_witness :
  exists keys, carries (serve routes_db) executor registered "vpc" true keys /\ Permutation keys (map with_policy expected_routes).
Proof. exact (proj2 (proj1 (routes_are_ready_iff_carried (serve routes_db) executor registered "vpc" expected_routes) routes_ready)). Defined.

(** ** Sessions *)

Definition two_gateways : list SiteConfig.Gateway := [SiteConfig.mkGateway "gw-a" "10.0.1.2"; SiteConfig.mkGateway "gw-b" "10.0.1.3"].
Definition timers : SiteConfig.BFD := SiteConfig.mkBFD "100.65.0.1" 300 300 3 None.
Definition site_gateway : GatewayConfig :=
  mkGatewayConfig "v2" "global-1" "owner-1" "site-a" "att-1" "rev-1" ["10.0.0.0/8"] "10.1.0.0/24" "10.0.1.0/24" "10.0.1.1" ""
    "vpc" "subnet" "transit" two_gateways (Some timers).
Definition session_row (id member ip : string) : list (string * json) :=
  [("_uuid", tagged id); ("logical_port", JStr "bfd@vpc"); ("dst_ip", JStr ip);
   ("external_ids", a_map [(ownerKey, "owner-1"); (bfdGatewayKey, member); (bfdClusterKey, "uid-east"); (bfdRouterKey, "vpc")]);
   ("min_rx", JInt 300); ("min_tx", a_set [JInt 300]); ("detect_mult", JInt 3); ("status", JStr "up")].
Definition foreign_row : list (string * json) :=
  [("_uuid", tagged (uuid "9")); ("logical_port", JStr "bfd@other"); ("dst_ip", JStr "10.9.9.9");
   ("external_ids", a_map [(ownerKey, "other")]); ("min_rx", JInt 1); ("min_tx", JInt 1); ("detect_mult", JInt 1); ("status", a_set [])].
Definition port_db : database :=
  [("Logical_Router_Port", condition "name" "bfd@vpc",
    [[("_uuid", tagged (uuid "2")); ("name", JStr "bfd@vpc"); ("networks", JStr "100.65.0.1/32");
      ("options", a_map [("bfd-only", "true")]); ("ha_chassis_group", tagged (uuid "3"))]]);
   ("Logical_Router", condition "name" "vpc", [[("name", JStr "vpc"); ("ports", a_set [tagged (uuid "2"); tagged (uuid "4")])]]);
   ("HA_Chassis_Group", uuid "3", [[("ha_chassis", a_set [tagged (uuid "c"); tagged (uuid "d")])]]);
   ("HA_Chassis", uuid "c", [[("chassis_name", JStr "node-c")]]); ("HA_Chassis", uuid "d", [[("chassis_name", JStr "node-d")]])].
Definition sessions_db (sessions : list (list (string * json))) : database := ("BFD", "", sessions) :: port_db.
Definition one_session : database := sessions_db [session_row (uuid "5") "gw-a" "10.0.1.2"; foreign_row].
Definition ensure_bfd : oprog (res BFDState) := EnsureBFD executor registered site_gateway [].
Definition reported : BFDState := mkBFDState [mkBFDRecord "gw-a" (uuid "5")] ["gw-a"] false.
Lemma bfd_ensured : outcome one_session ensure_bfd = Ok reported.
Proof. vm_compute. reflexivity. Qed.
(** The missing member's session is created, after the table and the port were read. *)
Lemma bfd_created : exists n, called (history one_session ensure_bfd) (firstn n (history one_session ensure_bfd))
  (exec_command executor ["ovn-nbctl"] (create_bfd registered site_gateway "gw-b" "10.0.1.3" ++ timer_args timers)).
Proof. exists 7%nat. apply called_at. vm_compute. reflexivity. Qed.
Definition foreign_only : database := sessions_db [foreign_row].
Definition delete_bfd : oprog (res bool) := DeleteBFD executor registered site_gateway [mkBFDRecord "gw-a" (uuid "5")].
Lemma bfd_deleted : outcome foreign_only delete_bfd = Ok true.
Proof. vm_compute. reflexivity. Qed.
Lemma bfd_transacted : called (history one_session delete_bfd) (firstn 3 (history one_session delete_bfd))
  (deletion executor registered site_gateway reported).
Proof. apply called_at. vm_compute. reflexivity. Qed.
Lemma bfd_sessions_are_never_adopted_witness :
  port_ready executor registered site_gateway timers (history one_session ensure_bfd) /\
  exists rows, found executor (history foreign_only delete_bfd) ["ovn-nbctl"] bfdColumns "BFD" [] rows /\
    forall r, In r rows -> ~ owned_by r "owner-1".
Proof.
  split.
  - destruct (proj1 (bfd_sessions_are_never_adopted executor registered site_gateway [] timers eq_refl)) as [_ HR].
    pose proof (history_exec one_session ensure_bfd) as HX. rewrite bfd_ensured in HX. exact (proj1 (HR _ _ HX)).
  - destruct (proj2 (bfd_sessions_are_never_adopted executor registered site_gateway [mkBFDRecord "gw-a" (uuid "5")] timers eq_refl)) as [_ HR].
    pose proof (history_exec foreign_only delete_bfd) as HX. rewrite bfd_deleted in HX. exact (HR _ HX).
Defined.

(** ** Hash fields *)

Definition default_row (hop session : string) (fields : json) (marker : list (string * string)) : list (string * json) :=
  [("ip_prefix", JStr "0.0.0.0/0"); ("nexthop", JStr hop); ("policy", a_set []); ("route_table", JStr ""); ("bfd", tagged session);
   ("selection_fields", fields); ("external_ids", a_map marker)].
Definition balanced_fields : json := a_set (map JStr ["tp_src"; "ip_dst"; "ip_src"; "tp_dst"; "ip_proto"]).
Definition fields_db (fields : json) (marker : list (string * string)) : database :=
  [("Logical_Router", condition "name" "vpc",
    [[("_uuid", tagged (uuid "7")); ("name", JStr "vpc"); ("static_routes", a_set [tagged (uuid "a"); tagged (uuid "b")])]]);
   ("Logical_Router_Static_Route", uuid "a", [default_row "10.0.1.2" (uuid "5") balanced_fields [(ecmpOwnerKey, "owner-1")]]);
   ("Logical_Router_Static_Route", uuid "b", [default_row "10.0.1.3" (uuid "6") fields marker])].
Definition ensure_fields : oprog (res bool) :=
  EnsureECMPFields executor registered site_gateway [mkBFDRecord "gw-a" (uuid "5"); mkBFDRecord "gw-b" (uuid "6")].
Lemma fields_ensured : outcome (fields_db balanced_fields [(ecmpOwnerKey, "owner-1")]) ensure_fields = Ok true.
Proof. vm_compute. reflexivity. Qed.
Lemma fields_written : outcome (fields_db (a_set []) []) ensure_fields = Ok false /\
  List.length (history (fields_db (a_set []) []) ensure_fields) = 4%nat.
Proof. vm_compute. split; reflexivity. Qed.
Lemma fields_foreign : outcome (fields_db (a_set [JStr "ip_src"]) []) ensure_fields =
  Err (Errorf "unregistered native ECMP selection fields").
Proof. vm_compute. reflexivity. Qed.
Lemma hash_fields_are_never_adopted_witness :
  exists expected, bfdExpected site_gateway [mkBFDRecord "gw-a" (uuid "5"); mkBFDRecord "gw-b" (uuid "6")] = Ok expected /\
    all_balanced executor registered site_gateway (wanted site_gateway expected)
      (history (fields_db balanced_fields [(ecmpOwnerKey, "owner-1")]) ensure_fields).
Proof.
  destruct (hash_fields_are_never_adopted executor registered site_gateway
              [mkBFDRecord "gw-a" (uuid "5"); mkBFDRecord "gw-b" (uuid "6")]) as [_ HR].
  pose proof (history_exec (fields_db balanced_fields [(ecmpOwnerKey, "owner-1")]) ensure_fields) as HX.
  rewrite fields_ensured in HX. destruct (HR _ HX) as (expected & HE & _ & HB). exists expected. split; assumption.
Defined.

From S2P Require Import Prelude GoStd Json JsonDecode NetIP Validation SiteConfig Prog Api GlobalApi GlobalConfig SitePlan Infra Subprocess.
From S2P Require Import ProviderExec GatewayExec.

(** * The executors of programs on concrete outcomes *)

(** [{key: value, ...}] of members given as JSON texts. *)
Definition object_text (l : list (string * string)) : string :=
  ("{" ++ Join "," (map (fun kv => dq (fst kv) ++ ": " ++ snd kv) l) ++ "}")%string.

Module ProviderRun.
Definition provider : ProviderExec.Exec := ProviderExec.mkExec ["/usr/bin/ipam"; "--site=a"] 0.
Definition claim : PrefixClaim := mkPrefixClaim "claim-1" "vpc-1" "scope-a" "10.20.0.0/16".
Definition answer (cidr : string) : string :=
  object_text [("apiVersion", dq ProviderExec.apiVersion); ("ok", "true");
               ("result", object_text [("claimUID", dq "claim-1"); ("vpcUID", dq "vpc-1"); ("scopeRef", dq "scope-a");
                                       ("cidr", dq cidr); ("allocationID", dq "a-7"); ("releasePolicy", dq "Retain")])].
Definition answered (cidr : string) : outcome :=
  mkOutcome [GoStd.take 20 (answer cidr); drop 20 (answer cidr)] ["warning"] false false.
Definition allocation : Allocation := mkAllocation claim "a-7" "Retain".

Lemma provider_accepts : ProviderExec.outcome_result claim (answered "10.20.0.0/16") = Ok allocation.
Proof. vm_compute. reflexivity. Qed.
Lemma provider_misdirected : is_ok (ProviderExec.outcome_result claim (answered "10.21.0.0/16")) = false.
Proof. vm_compute. reflexivity. Qed.
Lemma provider_runs o : exec (ProviderExec.Ensure provider claim) [Ev (asked_for provider claim) o] (Ret (ProviderExec.outcome_result claim o)).
Proof.
  unfold ProviderExec.Ensure. replace (validClaim claim) with true by (vm_compute; reflexivity).
  apply exec_act. apply exec_nil.
Qed.
Lemma allocations_are_confirmed_witness :
  exists out, ProviderExec.printed (answered "10.20.0.0/16") out /\ confirms out claim allocation.
Proof.
  pose proof (provider_runs (answered "10.20.0.0/16")) as HR. rewrite provider_accepts in HR.
  destruct (allocations_are_confirmed provider claim _ _ HR) as [(_ & H & _)|(_ & _ & o & H & _ & HA)].
  - discriminate H.
  - apply outcome_inj in H; rewrite H. apply HA. reflexivity.
Defined.
End ProviderRun.

Module GatewayRun.
Definition backend : GatewayExec.Exec := GatewayExec.mkExec ["/usr/bin/gateway"] 0.
Definition members : list SiteConfig.Gateway := [SiteConfig.mkGateway "gw-a" "10.0.1.2"; SiteConfig.mkGateway "gw-b" "10.0.1.3"].
Definition gateway : GatewayConfig :=
  mkGatewayConfig "v2" "global-1" "owner-1" "site-a" "att-1" "rev-1" ["10.0.0.0/8"] "10.1.0.0/24" "10.0.1.0/24" "10.0.1.1" ""
    "vpc" "subnet" "transit" members (Some (SiteConfig.mkBFD "10.0.1.1" 300 300 3 None)).
Definition recorded : list GatewayResourceRecord := [mkGatewayRecord "v1" "Pod" "gateways" "gw-a" "uid-a"].
Definition pod (name uid : string) : string :=
  object_text [("apiVersion", dq "v1"); ("kind", dq "Pod"); ("namespace", dq "gateways"); ("name", dq name); ("uid", dq uid)].
Definition answer (uid : string) : string :=
  object_text [("version", dq "v1"); ("ownerUID", dq "owner-1"); ("globalVpcID", dq "global-1"); ("gatewayRevision", dq "rev-1");
               ("ready", "true"); ("absent", "false"); ("endpointsEmpty", "false"); ("readyGateways", "1");
               ("desiredGateways", "2"); ("readyGatewayIDs", "[" ++ dq "gw-b" ++ "]")%string;
               ("resources", ("[" ++ pod "gw-a" uid ++ "," ++ pod "gw-b" "uid-b" ++ "]")%string)].
Definition answered (uid : string) : outcome := mkOutcome [answer uid] [] false false.
Definition result : Result :=
  mkResult "v1" "owner-1" "global-1" "rev-1" true false false 1 2 ["gw-b"]
    [mkGatewayRecord "v1" "Pod" "gateways" "gw-a" "uid-a"; mkGatewayRecord "v1" "Pod" "gateways" "gw-b" "uid-b"].

Lemma backend_accepts : GatewayExec.outcome_result gateway recorded (answered "uid-a") = Ok result.
Proof. vm_compute. reflexivity. Qed.
(** A backend_replaced pod of the recorded name is refused. *)
Lemma backend_replaced : is_ok (GatewayExec.outcome_result gateway recorded (answered "uid-z")) = false.
Proof. vm_compute. reflexivity. Qed.
Lemma backend_sends : sendable backend "Get" gateway recorded = true.
Proof. vm_compute. reflexivity. Qed.
Lemma backend_runs o : exec (GatewayExec.Get backend gateway recorded) [Ev (sent backend "Get" gateway recorded) o]
                 (Ret (GatewayExec.outcome_result gateway recorded o)).
Proof.
  pose proof backend_sends as HS. unfold sendable in HS. apply andb_true_iff in HS as [HS H5].
  repeat (apply andb_true_iff in HS as [HS ?]). unfold GatewayExec.Get, invoke.
  repeat match goal with H : negb ?b = true |- _ => apply negb_true_iff in H; rewrite H end.
  repeat match goal with H : _ = true |- _ => rewrite H; clear H end.
  apply exec_act. apply exec_nil.
Qed.
Lemma gateway_answers_are_checked_witness :
  agreeing gateway recorded result /\ exists out p, GatewayExec.printed (answered "uid-a") out /\ decodeResponse out = Some p.
Proof.
  pose proof (backend_runs (answered "uid-a")) as HR. rewrite backend_accepts in HR.
  destruct (gateway_answers_are_checked backend "Get" gateway recorded _ _ HR) as [(_ & H & _)|(_ & o & H & _ & HA)].
  - discriminate H.
  - apply outcome_inj in H; rewrite H. destruct (proj1 (HA result) eq_refl) as (out & p & HP & HD & _ & HG).
    split; [exact HG|]. exists out, p. split; assumption.
Defined.
End GatewayRun.
