(* ===== verification/NativePlan.v ===== *)
(** * [internal/vpcctl]: native integration plans

    [native.go], [native_schema.go] and the pure part of [native_lifecycle.go]: the
    bundle and the plan receipts, their validation, the patches they stand for, the
    acknowledgement of a native VPC, the owned rows of an OVN table, and the state a
    receipt restores. A [map[string]any] is a JSON object, [JNull] when nil, and a
    number carries the text [json.Marshal] gives it. *)
From S2P Require Import Prelude GoStd Json JsonDecode Validation DestinationRoute Prog Api Kube GlobalApi GlobalConfig Infra Ovn.
Open Scope Z_scope.

(** ** Text *)

(** [strings.Contains] *)
Definition Contains (s sub : string) : bool := match String.index 0 sub s with Some _ => true | None => false end.
(** [strings.ToLower], as far as the ASCII letters of the result: the dotted capital I
    and the Kelvin sign are the only others that become one. *)
Definition lower (c : ascii) : ascii := if in_range 65 90 c then byte_of (byte_val c + 32) else c.
Fixpoint ToLower (s : string) : string :=
  match s with
  | EmptyString => ""
  | String c s' =>
      match s' with
      | String d s'' =>
          if (byte_val c =? 196) && (byte_val d =? 176) then String "i" (ToLower s'')
          else match s'' with
               | String e s''' =>
                   if (byte_val c =? 226) && (byte_val d =? 132) && (byte_val e =? 170) then String "k" (ToLower s''')
                   else String (lower c) (ToLower s')
               | EmptyString => String (lower c) (ToLower s')
               end
      | EmptyString => String (lower c) (ToLower s')
      end
  end.
Fixpoint all_chars (f : ascii -> bool) (s : string) : bool :=
  match s with EmptyString => true | String c s => f c && all_chars f s end.
(** [digestImage.MatchString] *)
Definition digestImage (image : string) : bool :=
  match cut_byte "@" image with
  | Some (name, digest) =>
      negb (name =? "")%string &&
      all_chars (fun c => negb (existsb (fun n => byte_val c =? n) [9; 10; 12; 13; 32])) name &&
      HasPrefix digest "sha256:" &&
      (let hex := TrimPrefix digest "sha256:" in
       (String.length hex =? 64)%nat && all_chars (fun c => is_digit c || in_range 97 102 c) hex)
  | None => false
  end.
Definition nativeImageReference (image : string) : string :=
  match cut_byte "@" image with
  | None => image
  | Some (repository, digest) =>
      let repository := match cut_last_byte ":" repository with
                        | Some (name, tag) => if no_slash tag then name else repository
                        | None => repository
                        end in
      (repository ++ "@" ++ digest)%string
  end.
(** [path.Clean]: the elements kept so far, last first. *)
Fixpoint split_slash (s current : string) : list string :=
  match s with
  | EmptyString => [current]
  | String c s => if (byte_val c =? 47) then current :: split_slash s "" else split_slash s (current ++ String c "")
  end.
Definition clean_element (rooted : bool) (kept : list string) (e : string) : list string :=
  if (e =? "")%string || (e =? ".")%string then kept
  else if (e =? "..")%string then
    match kept with
    | k :: kept' => if (k =? "..")%string then e :: kept else kept'
    | [] => if rooted then [] else [e]
    end
  else e :: kept.
Definition Clean (p : string) : string :=
  let rooted := HasPrefix p "/" in
  let body := Join "/" (rev (fold_left (clean_element rooted) (split_slash p "") [])) in
  if rooted then ("/" ++ body)%string else if (body =? "")%string then "." else body.

Example clean_examples :
  map Clean ["/kube-ovn/"; "//kube-ovn/./x/.."; "/../a"; "a/../.."; ""; "/"]%string =
  ["/kube-ovn"; "/kube-ovn"; "/a"; ".."; "."; "/"]%string.
Proof. reflexivity. Qed.
Example reference_examples :
  map nativeImageReference ["r:5000/a/b:v1@sha256:x"; "r:5000/b@sha256:x"; "b:v1"]%string =
  ["r:5000/a/b@sha256:x"; "r:5000/b@sha256:x"; "b:v1"]%string.
Proof. reflexivity. Qed.

(** ** Content of unstructured objects

    [unstructured.Nested...] tells a missing field from a mistyped one. *)
Class NestedReads := {
  ReadString : json -> list string -> res (option string);
  ReadSlice : json -> list string -> res (option (list json));
  ReadInt64 : json -> list string -> res (option Z);
  ReadField : json -> list string -> res (option json) }.

(** [nativeJSONEqual] of two values by their JSON *)
Definition nativeJSONEqual (a b : json) : bool := DeepEqual a b.
(** The map of a nested field, nil when it is missing or mistyped *)
Definition map_or_nil (x : res (option (list (string * json)))) : json :=
  match x with Ok (Some m) => JObj m | _ => JNull end.
Definition members_of (j : json) : list (string * json) := match j with JObj l => l | _ => [] end.
(** A run-time panic inside a pure function *)
Definition ErrPanic : error := Errorf "panic".

(** ** Bundles *)

Record NativeSchema := mkNativeSchema { nsc_Spec : json; nsc_Status : json }.
Definition schema_json (s : NativeSchema) : json := JObj [("spec", nsc_Spec s); ("status", nsc_Status s)].
Record NativeBundle := mkBundle {
  nb_APIVersion : string; nb_Kind : string; nb_Target : string; nb_SourceCommit : string;
  nb_PatchSHA256 : string; nb_Image : string; nb_Platform : string; nb_Schema : NativeSchema;
  nb_BaseImage : string; nb_BinarySHA256 : string; nb_Qualification : gmap string string }.

Definition nativeAPIVersion : string := "vpcctl.globalvpc.io/v1alpha1".
Definition nativePatchSHA256 : string := "d338f05a6c4b7fa538637ee78a155a4ab2361d3b2e67ef665f359feaad5d9912".

Definition typed (t : string) (l : list (string * json)) : json := JObj (("type", JStr t) :: l).
Definition int_range (lo hi : Z) : json := typed "integer" [("minimum", JInt lo); ("maximum", JInt hi)].
Definition string_set (lo hi : Z) (items : json) : json :=
  typed "array" [("minItems", JInt lo); ("maxItems", JInt hi); ("x-kubernetes-list-type", JStr "set"); ("items", items)].
(** [nativeSchemaJSON], decoded *)
Definition nativeSchema : NativeSchema := mkNativeSchema
  (JObj [("description", JStr "Native destination-scoped BFD ECMP with a discard guard.");
     ("type", JStr "array"); ("maxItems", JInt 256); ("x-kubernetes-list-type", JStr "map");
     ("x-kubernetes-list-map-keys", JArr [JStr "cidr"]);
     ("items", typed "object"
        [("required", JArr (map JStr ["cidr"; "nextHops"; "bfd"; "selectionFields"]));
         ("properties", JObj
            [("cidr", typed "string" [("maxLength", JInt 18)]);
             ("nextHops", string_set 2 64 (typed "string" [("maxLength", JInt 15)]));
             ("selectionFields", string_set 1 7 (typed "string"
                [("enum", JArr (map JStr ["eth_src"; "eth_dst"; "ip_src"; "ip_dst"; "ip_proto"; "tp_src"; "tp_dst"]))]));
             ("bfd", typed "object"
                [("required", JArr (map JStr ["minRX"; "minTX"; "multiplier"]));
                 ("properties", JObj [("minRX", int_range 1 3600000); ("minTX", int_range 1 3600000);
                                      ("multiplier", int_range 1 255)])])])])])
  (JObj [("description", JStr "Configuration acknowledgement, not dataplane health."); ("type", JStr "object");
     ("properties", JObj [("capability", typed "string" []); ("observedGeneration", typed "integer" [("format", JStr "int64")]);
                          ("appliedHash", typed "string" []); ("ready", typed "boolean" [])])]).

Definition nativeQualification (b : NativeBundle) (key : string) : string :=
  let value := get (nb_Qualification b) key in if (value =? "")%string then "not recorded" else value.
(** [commits[target]], empty for an unknown one *)
Definition commit_of (target : string) : string :=
  if (target =? "v1.16.3")%string then "98af25ffae49193a8dc16bbc39bd8ca4110ec367"
  else if (target =? "v1.16.4")%string then "a9296ef2a37c6519bc0ecb798082ce139c72f8eb" else "".
Definition validateNativeBundle (b : NativeBundle) : res unit :=
  reject negb (nb_APIVersion b =? nativeAPIVersion)%string || negb (nb_Kind b =? "NativeBundle")%string
    with Errorf "unsupported native bundle apiVersion or kind" ;;
  reject (commit_of (nb_Target b) =? "")%string || negb (nb_SourceCommit b =? commit_of (nb_Target b))%string ||
         negb (nb_PatchSHA256 b =? nativePatchSHA256)%string
    with Errorf "bundle target/source/patch does not match a supported pinned integration" ;;
  reject negb (nb_Platform b =? "linux/amd64")%string with Errorf "native bundle platform must be linux/amd64" ;;
  reject negb (digestImage (nb_Image b)) with Errorf "native image must use an immutable @sha256 digest" ;;
  reject negb (nb_BaseImage b =? "")%string && negb (digestImage (nb_BaseImage b))
    with Errorf "native base image must use an immutable @sha256 digest" ;;
  reject negb (nativeJSONEqual (schema_json (nb_Schema b)) (schema_json nativeSchema))
    with Errorf "bundle schema differs from the pinned destination-routes.v1 contract" ;;
  Ok tt.

(** ** The Deployment *)

Record Container := mkContainer {
  cr_Name : string; cr_Image : string; cr_Command : list string; cr_Args : list string; cr_MountPaths : list string }.
(** A pod template: its containers, and everything else of it. *)
Record PodTemplate := mkTemplate { pt_Containers : list Container; pt_Rest : json }.
(** The JSON of a template is the encoding of a type of k8s.io/api. *)
Class TemplateEncoding := { TemplateJSON : PodTemplate -> json }.
(** A selector that is not nil; [dm_Managers] are the managers of [managedFields]. *)
Record Deployment := mkDeployment {
  dm_Meta : ObjectMeta; dm_Managers : list string; dm_Replicas : option Z; dm_Paused : bool;
  dm_Selector : option LabelSelector; dm_Template : PodTemplate; dm_ObservedGeneration : Z;
  dm_StatusReplicas : Z; dm_Updated : Z; dm_Ready : Z; dm_Available : Z; dm_Unavailable : Z }.
(** The Vpc CustomResourceDefinition *)
Record VpcCRD := mkCRD { vc_Object : Native; vc_Managers : list string }.

Definition is_named (name : string) (c : Container) : bool := (cr_Name c =? name)%string.
Fixpoint first_index (name : string) (i : nat) (l : list Container) : option nat :=
  match l with [] => None | c :: l => if is_named name c then Some i else first_index name (S i) l end.
(** The loop without a [break]: the last match. *)
Fixpoint last_index (name : string) (i : nat) (found : option nat) (l : list Container) : option nat :=
  match l with [] => found | c :: l => last_index name (S i) (if is_named name c then Some i else found) l end.
Definition nativeContainerIndex (d : Deployment) (name : string) : res nat :=
  match first_index name 0 (pt_Containers (dm_Template d)) with
  | Some i => Ok i
  | None => Err (Errorf "container is absent from Deployment")
  end.
Definition entrypoint (c : Container) : string :=
  match cr_Command c, cr_Args c with x :: _, _ => x | [], x :: _ => x | [], [] => "" end.
Definition hides_controller (mount : string) : bool :=
  existsb (String.eqb (Clean mount)) ["/"; "/kube-ovn"; "/kube-ovn/kube-ovn-controller"; "/kube-ovn/start-controller.sh"]%string.
Definition validateNativeDeployment (d : Deployment) (container : string) : res nat :=
  reject (om_UID (dm_Meta d) =? "")%string || (om_ResourceVersion (dm_Meta d) =? "")%string
    with Errorf "native Deployment must have UID and resourceVersion" ;;
  reject (match dm_Replicas d with Some n => n <? 1 | None => true end) || dm_Paused d
    with Errorf "native Deployment must have positive explicit replicas and must not be paused" ;;
  reject (match dm_Selector d with
          | Some s => bool_decide (ls_MatchLabels s = ∅) && bool_decide (ls_MatchExpressions s = [])
          | None => true
          end)
    with Errorf "native Deployment must have a nonempty selector" ;;
  i <-? nativeContainerIndex d container ;;
  match pt_Containers (dm_Template d) !! i with
  | None => Err ErrPanic
  | Some native =>
      reject negb (existsb (String.eqb (entrypoint native))
                     ["/kube-ovn/start-controller.sh"; "/kube-ovn/kube-ovn-controller"; "start-controller.sh"; "kube-ovn-controller"]%string)
        with Errorf "unsupported native container command" ;;
      reject existsb hides_controller (cr_MountPaths native)
        with Errorf "volume mount hides the image controller executable or entrypoint" ;;
      Ok i
  end.

(** [nativeManagers] *)
Definition label_managers (l : gmap string string) : list string :=
  omap (fun kv : string * string => let '(key, value) := kv in
    if Contains key "helm" || Contains key "fluxcd" || Contains key "argocd" ||
       ((key =? "app.kubernetes.io/managed-by")%string && negb (value =? "vpcctl")%string)
    then Some (key ++ "=" ++ value)%string else None) (map_to_list l).
Definition annotation_managers (l : gmap string string) : list string :=
  List.filter (fun key => Contains key "helm.sh/" || Contains key "argocd.argoproj.io/") (map fst (map_to_list l)).
Definition field_managers (l : list string) : list string :=
  map (fun m => "manager=" ++ m)%string
    (List.filter (fun m => existsb (Contains (ToLower m)) ["helm"; "flux"; "argocd"; "kustomize-controller"]%string) l).
Definition owner_managers (l : list OwnerReference) : list string :=
  map (fun o => "owner=" ++ or_Kind o ++ "/" ++ or_Name o)%string
    (List.filter (fun o => match or_Controller o with Some b => b | None => false end) l).
Definition nativeManagers (m : ObjectMeta) (fields : list string) : list string :=
  sort_strings (elements (list_to_set
    (label_managers (om_Labels m) ++ annotation_managers (om_Annotations m) ++ field_managers fields ++
     owner_managers (om_OwnerReferences m)) : gset string)).
Definition crd_managers (c : VpcCRD) : list string := nativeManagers (un_Meta (vc_Object c)) (vc_Managers c).
Definition deployment_managers (d : Deployment) : list string := nativeManagers (dm_Meta d) (dm_Managers d).

(** ** Plans *)

Record nativePatchOperation := mkPatchOp { po_Op : string; po_Path : string; po_Value : json }.
Definition patch_json (l : list nativePatchOperation) : json :=
  JArr (map (fun o => JObj [("op", JStr (po_Op o)); ("path", JStr (po_Path o)); ("value", po_Value o)]) l).
(** The fields of [nativePlan] apart from [Previous] *)
Record planFields := mkFields {
  pf_APIVersion : string; pf_Kind : string; pf_Bundle : NativeBundle; pf_Context : string; pf_ClusterUID : string;
  pf_Namespace : string; pf_Deployment : string; pf_Container : string; pf_CRDUID : string; pf_CRDVersion : string;
  pf_CRDSpec : json; pf_DeploymentUID : string; pf_DeploymentVersion : string; pf_Template : PodTemplate;
  pf_CRDPatch : list nativePatchOperation; pf_DeploymentPatch : list nativePatchOperation; pf_Owners : list string;
  pf_InstallBlockers : list string; pf_OriginalRuntimeImages : list string }.
Inductive nativePlan := Plan (f : planFields) (previous : option nativePlan).
Definition fields (p : nativePlan) : planFields := match p with Plan f _ => f end.
Definition Previous (p : nativePlan) : option nativePlan := match p with Plan _ q => q end.
Definition first_install (p : nativePlan) : bool := match Previous p with None => true | Some _ => false end.

Definition sections : list string := ["spec"; "status"].
Definition fragment (s : NativeSchema) (section : string) : json :=
  if (section =? "status")%string then nsc_Status s else nsc_Spec s.
Definition fragment_path (section : string) : string :=
  ("/spec/versions/0/schema/openAPIV3Schema/properties/" ++ section ++ "/properties/destinationRoutes")%string.
Definition guard_patch (uid version : string) : list nativePatchOperation :=
  [mkPatchOp "test" "/metadata/uid" (JStr uid); mkPatchOp "test" "/metadata/resourceVersion" (JStr version)].

(** The loops over the two schema sections: the first problem is returned. *)
Fixpoint each_section (f : string -> res unit) (l : list string) : res unit :=
  match l with [] => Ok tt | s :: l => _ <-? f s ;; each_section f l end.

Section reads.
Context {NEST : NestedFields} {READ : NestedReads} {TMPL : TemplateEncoding}.

(** [nativeCRDProperties] of the content of the definition *)
Definition nativeCRDProperties (o : json) : res (list (string * json)) :=
  reject (match ReadString o ["spec"; "conversion"; "strategy"] with
          | Err _ => true
          | Ok s => let s := default "" s in negb (s =? "")%string && negb (s =? "None")%string
          end)
    with Errorf "unsupported Vpc CRD conversion; require strategy None" ;;
  match ReadSlice o ["spec"; "versions"] with
  | Ok (Some [version]) =>
      let v := members_of version in
      reject negb (match version with JObj _ => true | _ => false end) ||
             negb (match member "name" v with Some (JStr n) => (n =? "v1")%string | _ => false end) ||
             negb (match member "served" v with Some (JBool b) => b | _ => false end) ||
             negb (match member "storage" v with Some (JBool b) => b | _ => false end)
        with Errorf "unsupported Vpc CRD version layout" ;;
      match NestedFieldMap version ["schema"; "openAPIV3Schema"; "properties"] with
      | Ok (Some props) =>
          _ <-? each_section (fun section =>
                  match NestedFieldMap (JObj props) [section; "properties"] with
                  | Ok (Some _) => Ok tt
                  | _ => Err (Errorf "Vpc CRD properties are missing")
                  end) sections ;;
          match NestedFieldMap (JObj props) ["spec"; "properties"; "bfdPort"] with
          | Ok (Some _) => Ok props
          | _ => Err (Errorf "Vpc CRD is missing the required existing spec.bfdPort schema")
          end
      | _ => Err (Errorf "Vpc CRD structural schema is missing")
      end
  | _ => Err (Errorf "unsupported Vpc CRD layout: require a single served/storage v1 schema")
  end.
(** The extension is in neither section. *)
Definition no_extension (props : list (string * json)) : res unit :=
  each_section (fun section =>
    match ReadField (JObj props) [section; "properties"; "destinationRoutes"] with
    | Ok (Some _) => Err (Errorf "Vpc CRD destinationRoutes already exists")
    | _ => Ok tt
    end) sections.
(** [crd.Object["spec"]] *)
Definition crd_spec (c : VpcCRD) : json := map_or_nil (NestedFieldMap (un_Object (vc_Object c)) ["spec"]).

Definition set_image (name image : string) (t : PodTemplate) : PodTemplate :=
  mkTemplate (map (fun c => if is_named name c then mkContainer (cr_Name c) image (cr_Command c) (cr_Args c) (cr_MountPaths c) else c)
                (pt_Containers t)) (pt_Rest t).
(** [_ = unstructured.SetNestedMap(v, ...)] *)
Definition set_fragment (s : NativeSchema) (v : json) (section : string) : json :=
  match SetNestedMap v (members_of (fragment s section))
          ["schema"; "openAPIV3Schema"; "properties"; section; "properties"; "destinationRoutes"] with
  | Ok v => v
  | Err _ => v
  end.
(** The copy through JSON is the identity on numbers a [float64] holds exactly. *)
Definition nativeExpectedState (p : nativePlan) : res (json * PodTemplate) :=
  let f := fields p in
  match pf_CRDSpec f with
  | JObj spec =>
      match member "versions" spec with
      | Some (JArr (JObj v :: versions)) =>
          let v := fold_left (set_fragment (nb_Schema (pf_Bundle f))) sections (JObj v) in
          Ok (JObj (set_member "versions" (JArr (v :: versions)) spec),
              set_image (pf_Container f) (nb_Image (pf_Bundle f)) (pf_Template f))
      | _ => Err ErrPanic
      end
  | _ => Err ErrPanic
  end.

Definition image_patch (uid version : string) (t : PodTemplate) (i : nat) (image : string) : list nativePatchOperation :=
  guard_patch uid version ++
  [mkPatchOp "test" "/spec/template" (TemplateJSON t);
   mkPatchOp "replace" ("/spec/template/spec/containers/" ++ Itoa (Z.of_nat i) ++ "/image")%string (JStr image)].
Definition nativePlanPatches (p : nativePlan) (i : nat) : list nativePatchOperation * list nativePatchOperation :=
  let f := fields p in
  (guard_patch (pf_CRDUID f) (pf_CRDVersion f) ++
   (if first_install p
    then map (fun s => mkPatchOp "add" (fragment_path s) (fragment (nb_Schema (pf_Bundle f)) s)) sections else []),
   image_patch (pf_DeploymentUID f) (pf_DeploymentVersion f) (pf_Template f) i (nb_Image (pf_Bundle f))).
Definition nativeSchemaRestorePatch (crd : VpcCRD) (s : NativeSchema) : list nativePatchOperation :=
  guard_patch (om_UID (un_Meta (vc_Object crd))) (om_ResourceVersion (un_Meta (vc_Object crd))) ++
  flat_map (fun sec => [mkPatchOp "test" (fragment_path sec) (fragment s sec); mkPatchOp "remove" (fragment_path sec) JNull]) sections.

Definition incomplete (f : planFields) : bool :=
  negb (pf_APIVersion f =? nativeAPIVersion)%string || negb (pf_Kind f =? "NativeInstallPlan")%string ||
  (pf_ClusterUID f =? "")%string || (pf_Namespace f =? "")%string || (pf_Deployment f =? "")%string ||
  (pf_Container f =? "")%string || (pf_CRDUID f =? "")%string || (pf_CRDVersion f =? "")%string ||
  (pf_DeploymentUID f =? "")%string || (pf_DeploymentVersion f =? "")%string.
(** The content of [nativeCRD()] with the recorded spec *)
Definition baseline (spec : json) : json :=
  JObj [("apiVersion", JStr "apiextensions.k8s.io/v1"); ("kind", JStr "CustomResourceDefinition");
        ("metadata", JObj [("name", JStr "vpcs.kubeovn.io")]); ("spec", spec)].
(** A receipt continues the state its previous one installed. *)
Definition continues (f : planFields) (previous : nativePlan) : res unit :=
  let q := fields previous in
  expected <-? nativeExpectedState previous ;;
  reject negb (pf_ClusterUID f =? pf_ClusterUID q)%string || negb (pf_CRDUID f =? pf_CRDUID q)%string ||
         negb (pf_DeploymentUID f =? pf_DeploymentUID q)%string || negb (pf_Namespace f =? pf_Namespace q)%string ||
         negb (pf_Deployment f =? pf_Deployment q)%string || negb (pf_Container f =? pf_Container q)%string ||
         negb (nativeJSONEqual (pf_CRDSpec f) (fst expected)) ||
         negb (nativeJSONEqual (TemplateJSON (pf_Template f)) (TemplateJSON (snd expected)))
    with Errorf "upgrade receipt does not continue the previous exact installed state" ;;
  reject negb (nb_Target (pf_Bundle f) =? nb_Target (pf_Bundle q))%string ||
         negb (nativeImageReference (nb_BaseImage (pf_Bundle f)) =? nativeImageReference (nb_BaseImage (pf_Bundle q)))%string
    with Errorf "native upgrade must retain the same upstream target and base image" ;;
  reject negb (match pf_OriginalRuntimeImages f with [i] => (i =? nb_Image (pf_Bundle q))%string | _ => false end)
    with Errorf "upgrade receipt original immutable image differs from its previous bundle" ;;
  Ok tt.
Fixpoint validateNativePlanDepth (p : nativePlan) (depth : nat) {struct p} : res unit :=
  match p with
  | Plan f previous =>
      reject (32 <? depth)%nat with Errorf "native receipt chain exceeds 32 upgrades" ;;
      reject incomplete f with Errorf "invalid or incomplete native install plan" ;;
      _ <-? validateNativeBundle (pf_Bundle f) ;;
      props <-? match nativeCRDProperties (baseline (pf_CRDSpec f)) with
                | Ok props => Ok props
                | Err e => Err (Wrapf "invalid original CRD snapshot in plan" e)
                end ;;
      _ <-? match previous with
            | None => match no_extension props with
                      | Ok _ => Ok tt
                      | Err _ => Err (Errorf "plan original CRD snapshot already contains extension fields")
                      end
            | Some q => match validateNativePlanDepth q (S depth) with
                        | Ok _ => continues f q
                        | Err e => Err (Wrapf "invalid previous plan" e)
                        end
            end ;;
      match last_index (pf_Container f) 0 None (pt_Containers (pf_Template f)) with
      | None => Err (Errorf "plan original template does not contain native container")
      | Some i =>
          let '(cp, dp) := nativePlanPatches p i in
          reject negb (nativeJSONEqual (patch_json cp) (patch_json (pf_CRDPatch f))) ||
                 negb (nativeJSONEqual (patch_json dp) (patch_json (pf_DeploymentPatch f)))
            with Errorf "plan patches differ from the narrow supported image/schema changes; regenerate the plan" ;;
          Ok tt
      end
  end.
Definition validateNativePlan (p : nativePlan) : res unit := validateNativePlanDepth p 0.

(** ** What a receipt restores *)

Fixpoint nativeRootPlan (p : nativePlan) : nativePlan :=
  match p with Plan _ (Some q) => nativeRootPlan q | Plan _ None => p end.
Record restoration := mkRestoration { rt_Spec : json; rt_Template : PodTemplate; rt_Image : string; rt_Stock : bool }.
Definition nativeRestoreTarget (p : nativePlan) (uninstall : bool) : res restoration :=
  let target := fields (if uninstall then nativeRootPlan p else p) in
  let stock := first_install p || uninstall in
  match pf_OriginalRuntimeImages target with
  | [image] =>
      reject negb (digestImage image) with Errorf "receipt does not contain exactly one verified original immutable image" ;;
      reject stock && negb (nb_BaseImage (pf_Bundle target) =? "")%string &&
             negb (nativeImageReference image =? nativeImageReference (nb_BaseImage (pf_Bundle target)))%string
        with Errorf "receipt original image differs from the verified native baseline" ;;
      Ok (mkRestoration (pf_CRDSpec target) (set_image (pf_Container target) image (pf_Template target)) image stock)
  | _ => Err (Errorf "receipt does not contain exactly one verified original immutable image")
  end.

(** ** Acknowledgements *)

Definition decode_bfd : decoder DestinationRoute.BFD :=
  decode_struct [field "minRX" MinRX (fun x b => mkBFD x (MinTX b) (Multiplier b)) decode_int;
                 field "minTX" MinTX (fun x b => mkBFD (MinRX b) x (Multiplier b)) decode_int;
                 field "multiplier" Multiplier (fun x b => mkBFD (MinRX b) (MinTX b) x) decode_int].
Definition decode_intent : decoder Intent :=
  decode_struct [field "cidr" CIDR (fun x i => mkIntent x (NextHops i) (in_BFD i) (SelectionFields i)) decode_string;
                 field "nextHops" NextHops (fun x i => mkIntent (CIDR i) x (in_BFD i) (SelectionFields i)) (decode_slice decode_string "");
                 field "bfd" in_BFD (fun x i => mkIntent (CIDR i) (NextHops i) x (SelectionFields i)) decode_bfd;
                 field "selectionFields" SelectionFields (fun x i => mkIntent (CIDR i) (NextHops i) (in_BFD i) x) (decode_slice decode_string "")].
Definition zeroIntent : Intent := mkIntent "" [] (mkBFD 0 0 0) [].

Record nativeACKReport := mkACK {
  ar_Name : string; ar_Routes : nat; ar_State : string; ar_ExpectedHash : string; ar_Problems : list string }.
Definition problem (ok : bool) (text : string) : list string := if ok then [] else [text].
Definition is_text (v : option json) (s : string) : bool := match v with Some (JStr t) => (t =? s)%string | _ => false end.
Definition is_true (v : option json) : bool := match v with Some (JBool b) => b | _ => false end.
Definition nativeACK (vpc : Native) : nativeACKReport :=
  let name := om_Name (un_Meta vpc) in
  let mismatch n problem := mkACK name n "mismatch" "" [problem] in
  match ReadSlice (un_Object vpc) ["spec"; "destinationRoutes"] with
  | Err _ => mismatch O "malformed spec.destinationRoutes"
  | Ok routes =>
      let routes := default [] routes in
      let n := List.length routes in
      match NestedFieldMap (un_Object vpc) ["status"; "destinationRoutes"] with
      | Err _ => mismatch n "malformed status.destinationRoutes"
      | Ok status =>
          if (n =? 0)%nat && negb (bool_decide (is_Some status)) then mkACK name n "not-configured" "" []
          else
            match decode_slice decode_intent zeroIntent (JArr routes) [] with
            | None => mismatch n "malformed route intent"
            | Some intents =>
                match Compile intents with
                | Err _ => mismatch n "intent does not compile"
                | Ok compiled =>
                    let s := default [] status in
                    let gen := match ReadInt64 (un_Object vpc) ["status"; "destinationRoutes"; "observedGeneration"] with
                               | Ok g => default 0 g
                               | Err _ => 0
                               end in
                    let problems :=
                      problem (is_text (member "capability" s) Capability) "capability is missing or unsupported" ++
                      problem (is_true (member "ready" s)) "ready is not true" ++
                      problem (is_text (member "appliedHash" s) (Hash compiled)) "appliedHash differs from canonical intent" ++
                      problem (gen =? om_Generation (un_Meta vpc)) "observedGeneration differs from current generation" in
                    mkACK name n (if bool_decide (problems = []) then "acknowledged" else "mismatch") (Hash compiled) problems
                end
            end
      end
  end.
(** The loop of [nativeNoIntent] over the VPCs *)
Fixpoint no_intent (l : list Native) : res unit :=
  match l with
  | [] => Ok tt
  | vpc :: l =>
      match ReadSlice (un_Object vpc) ["spec"; "destinationRoutes"] with
      | Err e => Err (Wrapf "Vpc has malformed destinationRoutes" e)
      | Ok routes =>
          reject negb (List.length (default [] routes) =? 0)%nat
            with Errorf "Vpc has active destinationRoutes; first-install workflow refuses mutation" ;;
          no_intent l
      end
  end.
(** The loop of [nativeAllACKs] *)
Fixpoint all_acks (requireEmpty : bool) (l : list Native) : res unit :=
  match l with
  | [] => Ok tt
  | vpc :: l =>
      let ack := nativeACK vpc in
      reject requireEmpty && negb (ar_Routes ack =? 0)%nat
        with Errorf "Vpc still has destination routes; delete tenant resources through their owning API" ;;
      reject negb (ar_State ack =? "not-configured")%string && negb (ar_State ack =? "acknowledged")%string
        with Errorf "Vpc has no current matching native ACK" ;;
      all_acks requireEmpty l
  end.
End reads.

(** ** Owned rows of an OVN table *)

(** The loop over the headings; the first [external_ids] is at [found]. *)
Fixpoint external_ids_index (i : nat) (found : option nat) (l : list string) : res (option nat) :=
  match l with
  | [] => Ok found
  | h :: l =>
      if (h =? "external_ids")%string then
        match found with
        | Some _ => Err (Errorf "OVN table contains duplicate external_ids headings")
        | None => external_ids_index (S i) (Some i) l
        end
      else external_ids_index (S i) found l
  end.
Definition ownedRowKey : string := "kube-ovn.io/destination-vpc-uid".
Fixpoint no_owner_key (entries : list (list string)) : res unit :=
  match entries with
  | [] => Ok tt
  | entry :: rest =>
      match entry with
      | [k; _] =>
          reject (k =? ownedRowKey)%string with Errorf "OVN table still contains a destination-vpc-uid owned row" ;;
          no_owner_key rest
      | _ => Err (Errorf "invalid OVN external_ids pair")
      end
  end.
(** The [external_ids] of one row: a map without the owner key, whose tag the database
    client prints without escapes. *)
Definition check_external_ids (v : json) : res unit :=
  match raw_slice (Some v) with
  | Some [JStr tag; entries] =>
      reject negb (tag =? "map")%string with Errorf "OVN external_ids is not a map" ;;
      match decode_slice (decode_slice decode_string "") [] entries [] with
      | None => Err (Errorf "invalid OVN external_ids entries")
      | Some entries => no_owner_key entries
      end
  | _ => Err (Errorf "OVN external_ids is not a map")
  end.
Fixpoint check_rows (width index : nat) (data : list (list json)) : res unit :=
  match data with
  | [] => Ok tt
  | row :: data =>
      reject negb (List.length row =? width)%nat with Errorf "OVN row has unexpected columns" ;;
      _ <-? match row !! index with Some v => check_external_ids v | None => Err ErrPanic end ;;
      check_rows width index data
  end.
Definition nativeCheckOVNRows (out : string) : res unit :=
  t <-? decode_table out ;;
  index <-? external_ids_index 0 None (tb_Headings t) ;;
  match index, tb_Data t with
  | Some index, Some data => check_rows (List.length (tb_Headings t)) index data
  | _, _ => Err (Errorf "OVN output is missing external_ids or data")
  end.

(** ** What an accepted table shows *)

(** A row carries these pairs as its [external_ids]. *)
Definition carries (index : nat) (row : list json) (entries : list (list string)) : Prop :=
  exists v e, row !! index = Some v /\ raw_slice (Some v) = Some [JStr "map"; e] /\
    decode_slice (decode_slice decode_string "") [] e [] = Some entries.
Definition without_owner (entries : list (list string)) : Prop :=
  forall e, In e entries -> exists k v, e = [k; v] /\ k <> ownedRowKey.

Lemma no_owner_key_iff entries : no_owner_key entries = Ok tt <-> without_owner entries.
Proof.
  unfold without_owner. induction entries as [|e entries IH]; simpl; [done|].
  split.
  - destruct e as [|k [|v [|]]]; try done. destruct (k =? ownedRowKey)%string eqn:E; [done|]. apply String.eqb_neq in E.
    intros H e [<-|He]; [by exists k, v|by apply IH].
  - intros H. destruct (H e (or_introl eq_refl)) as (k & v & -> & Hk). apply String.eqb_neq in Hk as ->. apply IH. auto.
Qed.
Lemma check_external_ids_iff v : check_external_ids v = Ok tt <->
  exists e entries, raw_slice (Some v) = Some [JStr "map"; e] /\
    decode_slice (decode_slice decode_string "") [] e [] = Some entries /\ without_owner entries.
Proof.
  unfold check_external_ids. split.
  - destruct (raw_slice (Some v)) as [[|[| | |tag| |] [|e [|]]]|]; try done.
    destruct (tag =? "map")%string eqn:E; simpl; [|done]. apply String.eqb_eq in E as ->.
    destruct (decode_slice _ _ e []) as [entries|] eqn:ED; [|done]. intros H%no_owner_key_iff. by exists e, entries.
  - intros (e & entries & -> & -> & H%no_owner_key_iff). exact H.
Qed.
Lemma check_rows_iff width index data : check_rows width index data = Ok tt <->
  forall row, In row data -> List.length row = width /\ exists entries, carries index row entries /\ without_owner entries.
Proof.
  induction data as [|row data IH]; simpl; [done|]. split.
  - destruct (_ =? width)%nat eqn:EW; simpl; [|done]. apply Nat.eqb_eq in EW.
    destruct (row !! index) as [v|] eqn:EV; [|done]. destruct (check_external_ids v) as [[]|] eqn:EC; [|done].
    rewrite IH. intros H r [<-|Hr]; [|by apply H]. split; [done|].
    apply check_external_ids_iff in EC as (e & entries & H1 & H2 & H3). exists entries. split; [by exists v, e|done].
  - intros H. destruct (H row (or_introl eq_refl)) as (HW & entries & (v & e & HV & H1 & H2) & H3).
    rewrite HW, Nat.eqb_refl. simpl. rewrite HV.
    assert (check_external_ids v = Ok tt) as -> by (apply check_external_ids_iff; by exists e, entries). apply IH. auto.
Qed.
Lemma external_ids_index_spec i found l r : external_ids_index i found l = Ok r ->
  match found with
  | Some k => r = Some k /\ forall j, l !! j <> Some "external_ids"
  | None => match r with
            | Some k => exists j, k = (i + j)%nat /\ l !! j = Some "external_ids" /\ forall j', l !! j' = Some "external_ids" -> j' = j
            | None => forall j, l !! j <> Some "external_ids"
            end
  end.
Proof.
  revert i found. induction l as [|h l IH]; intros i found; simpl.
  - intros [= <-]. destruct found; [split; [done|]|]; by intros [].
  - destruct (h =? "external_ids")%string eqn:E.
    + apply String.eqb_eq in E as ->. destruct found; [done|]. intros [-> H]%IH. exists O.
      split_and!; [lia|done|]. intros [|j'] Hj; [done|]. by destruct (H j').
    + apply String.eqb_neq in E. intros H%IH. destruct found as [k|].
      * destruct H as [-> H]. split; [done|]. intros [|j]; simpl; [by intros [= ->]|apply H].
      * destruct r as [k|].
        -- destruct H as (j & -> & Hj & HU). exists (S j). split_and!; [lia|done|]. intros [|j']; simpl; [by intros [= ->]|].
           intros Hj'. f_equal. by apply HU.
        -- intros [|j]; simpl; [by intros [= ->]|apply H].
Qed.
Lemma external_ids_index_found i l j : l !! j = Some "external_ids" ->
  (forall j', l !! j' = Some "external_ids" -> j' = j) -> external_ids_index i None l = Ok (Some (i + j)%nat).
Proof.
  revert i j. induction l as [|h l IH]; intros i j Hj HU; [done|]. simpl.
  destruct (h =? "external_ids")%string eqn:E.
  - apply String.eqb_eq in E as ->. assert (j = O) as -> by (symmetry; by apply HU).
    rewrite Nat.add_0_r. clear IH Hj. assert (forall j', l !! j' <> Some "external_ids") as HN.
    { intros j' Hj'. specialize (HU (S j') Hj'). done. }
    clear HU. generalize (S i). induction l as [|h l IH]; intros k; simpl; [done|].
    destruct (h =? "external_ids")%string eqn:E; [apply String.eqb_eq in E as ->; by destruct (HN O)|].
    apply IH. intros j'. exact (HN (S j')).
  - destruct j as [|j]; [injection Hj as ->; done|]. rewrite (IH (S i) j); [f_equal; f_equal; lia|done|].
    intros j' Hj'. specialize (HU (S j') Hj'). lia.
Qed.

(** The check of the database a return to stock relies on accepts exactly the
    outputs that show no owned row: one JSON table, one [external_ids] column, and in
    every row, of the full width, a map in that column whose pairs never have the
    owner key. *)
Theorem accepted_tables_show_no_owned_row out : nativeCheckOVNRows out = Ok tt <->
  exists t data index, decode_table out = Ok t /\ tb_Data t = Some data /\ tb_Headings t !! index = Some "external_ids" /\
    (forall j, tb_Headings t !! j = Some "external_ids" -> j = index) /\
    forall row, In row data -> List.length row = List.length (tb_Headings t) /\
      exists entries, carries index row entries /\ without_owner entries.
Proof.
  unfold nativeCheckOVNRows. destruct (decode_table out) as [t|]; [|by split; [|intros (? & ? & ? & ? & _)]]. split.
  - destruct (external_ids_index 0 None (tb_Headings t)) as [r|] eqn:EI; [|done]. apply external_ids_index_spec in EI.
    destruct r as [index|]; [|done]. destruct EI as (j & -> & Hj & HU). destruct (tb_Data t) as [data|] eqn:ED; [|done].
    rewrite check_rows_iff. intros HC. by exists t, data, j.
  - intros (t' & data & index & [= <-] & HD & Hj & HU & HR). rewrite (external_ids_index_found 0 _ _ Hj HU), HD.
    by apply check_rows_iff.
Qed.

(** ** Receipt chains *)

(** The receipt and those it embeds, newest first *)
Fixpoint receipts (p : nativePlan) : list nativePlan :=
  match p with Plan _ (Some q) => p :: receipts q | Plan _ None => [p] end.
(** Two receipts are about the same objects. *)
Definition same_target (a b : planFields) : Prop :=
  pf_ClusterUID a = pf_ClusterUID b /\ pf_CRDUID a = pf_CRDUID b /\ pf_DeploymentUID a = pf_DeploymentUID b /\
  pf_Namespace a = pf_Namespace b /\ pf_Deployment a = pf_Deployment b /\ pf_Container a = pf_Container b.

Section receipts.
Context {NEST : NestedFields} {READ : NestedReads} {TMPL : TemplateEncoding}.

Definition equal_templates (a b : PodTemplate) : Prop := nativeJSONEqual (TemplateJSON a) (TemplateJSON b) = true.
(** [f]'s receipt starts from the state [q]'s installed. *)
Record continued (f : planFields) (q : nativePlan) (e : json * PodTemplate) : Prop := {
  cn_expected : nativeExpectedState q = Ok e;
  cn_target : same_target f (fields q);
  cn_spec : nativeJSONEqual (pf_CRDSpec f) (fst e) = true;
  cn_template : equal_templates (pf_Template f) (snd e);
  cn_image : pf_OriginalRuntimeImages f = [nb_Image (pf_Bundle (fields q))] }.
Lemma continues_iff f q : continues f q = Ok tt -> exists e, continued f q e.
Proof.
  unfold continues. destruct (nativeExpectedState q) as [e|] eqn:E; [|done]. intros H.
  do 2 follow_step H. destruct (pf_OriginalRuntimeImages f) as [|i [|]] eqn:EI; cbn [negb] in H; try done.
  destruct (i =? _)%string eqn:E3; [|done]. apply String.eqb_eq in E3 as ->. exists e.
  rewrite !orb_false_iff, !negb_false_iff in Ef. destruct Ef as [[[[[[[A1 A2] A3] A4] A5] A6] A7] A8].
  split; try done. split_and!; by apply String.eqb_eq.
Qed.
Lemma validate_step f q depth : validateNativePlanDepth (Plan f (Some q)) depth = Ok tt ->
  validateNativePlanDepth q (S depth) = Ok tt /\ (depth <= 32)%nat /\ exists e, continued f q e.
Proof.
  cbn [validateNativePlanDepth]. destruct (32 <? depth)%nat eqn:ED; [done|]. apply Nat.ltb_ge in ED.
  destruct (incomplete f); [done|]. destruct (validateNativeBundle _) as [[]|]; [|done]. cbn beta iota.
  destruct (nativeCRDProperties _) as [props|]; [|done]. cbn beta iota.
  destruct (validateNativePlanDepth q (S depth)) as [[]|]; [|done]. cbn beta iota.
  destruct (continues f q) as [[]|] eqn:EC; [|done]. intros _. split_and!; [done|done|by apply continues_iff].
Qed.
Lemma validate_root f depth : validateNativePlanDepth (Plan f None) depth = Ok tt ->
  (depth <= 32)%nat /\ exists props, nativeCRDProperties (baseline (pf_CRDSpec f)) = Ok props /\ no_extension props = Ok tt.
Proof.
  cbn [validateNativePlanDepth]. destruct (32 <? depth)%nat eqn:ED; [done|]. apply Nat.ltb_ge in ED.
  destruct (incomplete f); [done|]. destruct (validateNativeBundle _) as [[]|]; [|done]. cbn beta iota.
  destruct (nativeCRDProperties _) as [props|]; [|done]. cbn beta iota.
  destruct (no_extension props) as [[]|] eqn:EN; [|done]. intros _. split; [done|]. by exists props.
Qed.
Lemma validate_patches p depth : validateNativePlanDepth p depth = Ok tt ->
  nativeJSONEqual (patch_json (fst (nativePlanPatches p 0))) (patch_json (pf_CRDPatch (fields p))) = true.
Proof.
  destruct p as [f q]. cbn [validateNativePlanDepth]. intros H. do 2 follow_step H.
  destruct (validateNativeBundle _) as [u|]; [|done]. cbn beta iota in H. follow_step H. follow_step H.
  destruct (last_index _ _ _ _) as [i|]; [|done]. cbn beta iota in H.
  change (fst (nativePlanPatches (Plan f q) 0)) with (fst (nativePlanPatches (Plan f q) i)).
  destruct (nativePlanPatches (Plan f q) i) as [cp dp]. follow_step H. by apply orb_false_iff in Ef3 as [Ef3%negb_false_iff _].
Qed.
Lemma same_target_trans a b c : same_target a b -> same_target b c -> same_target a c.
Proof. unfold same_target. intuition congruence. Qed.
Lemma validate_chain p depth : validateNativePlanDepth p depth = Ok tt ->
  (depth + List.length (receipts p) <= 33)%nat /\
  (forall q, In q (receipts p) -> same_target (fields p) (fields q)) /\
  exists props, nativeCRDProperties (baseline (pf_CRDSpec (fields (nativeRootPlan p)))) = Ok props /\ no_extension props = Ok tt.
Proof.
  revert p depth. fix IH 1. intros [f [q|]] depth H.
  - apply validate_step in H as (H & HD & e & HC). destruct (IH q (S depth) H) as (H1 & H2 & H3). cbn [receipts List.length nativeRootPlan].
    split_and!; [lia| |done]. intros r [<-|Hr]; [done|]. eapply same_target_trans; [apply HC|by apply H2].
  - apply validate_root in H as [HD HP]. cbn [receipts List.length nativeRootPlan]. split_and!; [lia| |done]. by intros r [<-|[]].
Qed.

(** [encoding/json] of a Pod template shows every container: templates with the same JSON
    still have the same JSON when the images of their containers of a name are replaced. *)
Hypothesis images_show : forall name image a b, equal_templates a b -> equal_templates (set_image name image a) (set_image name image b).

Lemma set_image_twice name image t : set_image name image (set_image name image t) = set_image name image t.
Proof.
  unfold set_image. simpl. f_equal. rewrite map_map. apply map_ext. intros c.
  destruct (is_named name c) eqn:E; unfold is_named in *; simpl; by rewrite E.
Qed.

(** C35: A valid receipt leads back: it and the receipts it embeds, at most 33, are about
    the same cluster, definition, Deployment and container; a rollback restores the
    schema, the template and the image the previous receipt installed; and an uninstall
    restores the first receipt's schema, which has neither extension property. *)
Theorem valid_receipts_lead_back p : validateNativePlan p = Ok tt ->
  (List.length (receipts p) <= 33)%nat /\
  (forall q, In q (receipts p) -> same_target (fields p) (fields q)) /\
  (forall q t, Previous p = Some q -> nativeRestoreTarget p false = Ok t ->
     exists e, nativeExpectedState q = Ok e /\ nativeJSONEqual (rt_Spec t) (fst e) = true /\
       equal_templates (rt_Template t) (snd e) /\ rt_Image t = nb_Image (pf_Bundle (fields q)) /\ rt_Stock t = false) /\
  (forall t, nativeRestoreTarget p true = Ok t -> rt_Stock t = true /\
     exists props, nativeCRDProperties (baseline (rt_Spec t)) = Ok props /\ no_extension props = Ok tt).
Proof.
  intros HV. destruct (validate_chain p 0 HV) as (HL & HS & HR). split_and!; [done|done| |].
  - destruct p as [f [q'|]]; [|done]. intros q t [= ->]. apply validate_step in HV as (_ & _ & e & HC).
    unfold nativeRestoreTarget, first_install. cbn [fields Previous orb negb andb]. rewrite (cn_image _ _ _ HC).
    destruct (digestImage _); [|done]. cbn [negb]. intros [= <-]. exists e. split_and!; simpl; try done; try apply HC.
    pose proof (cn_expected _ _ _ HC) as HE. unfold nativeExpectedState in HE.
    destruct (pf_CRDSpec (fields q)) as [| | | | |spec]; try done. destruct (member "versions" spec) as [[| | | |[|[| | | | |v] vs]|]|]; try done.
    injection HE as <-. pose proof (cn_template _ _ _ HC) as HT. simpl in HT |- *.
    destruct (cn_target _ _ _ HC) as (_ & _ & _ & _ & _ & HN).
    pose proof (images_show (pf_Container f) (nb_Image (pf_Bundle (fields q))) _ _ HT) as HI.
    rewrite <- HN, set_image_twice in HI. by rewrite <- HN.
  - unfold nativeRestoreTarget. rewrite orb_true_r. destruct (pf_OriginalRuntimeImages _) as [|i [|]]; cbn [negb]; try done.
    destruct (digestImage i); [|done]. cbn [negb]. destruct (_ && _); [done|]. intros t [= <-]. done.
Qed.
End receipts.
