(* ===== verification/NativeLifecycle.v ===== *)
(** * [internal/vpcctl]: planning, installing, upgrading and restoring the native integration

    The effects of [native.go] and [native_lifecycle.go]: every access to the cluster is
    a call with an arbitrary answer, and the clock is one too. Printing is not modelled;
    a report is returned. *)
From S2P Require Import Prelude GoStd Json JsonDecode Validation DestinationRoute Prog Api Kube GlobalApi GlobalConfig Infra Ovn NativePlan.
Open Scope Z_scope.

(** ** Calls *)

Record ReplicaSet := mkReplicaSet { rp_Meta : ObjectMeta }.
Record ContainerStatus := mkStatus { cs_Name : string; cs_Ready : bool; cs_Running : bool; cs_ImageID : string }.
(** The containers of a Pod are their names and images. *)
Record Pod := mkPod {
  pd_Meta : ObjectMeta; pd_Containers : list (string * string); pd_Phase : string;
  pd_Statuses : list ContainerStatus; pd_Conditions : list CoreCondition }.

Inductive nop :=
| GetNamespace (name : string)
| ListVpcs
| GetCRD
| GetDeployment (ns name : string)
| ListReplicaSets (ns : string) (s : LabelSelector)
| ListPods (ns : string) (s : LabelSelector)
| PatchCRD (dry : bool) (patch : list nativePatchOperation)
| PatchDeployment (dry : bool) (ns name : string) (patch : list nativePatchOperation)
| ExecPod (ns pod container : string) (argv : list string)
(** [ctx.Err()], and the [select] of the deadline and the ticker, [None] for a tick *)
| ContextErr
| NextTick.
(** A Namespace is read for its UID; a successful patch of the Deployment answers with
    its new template. *)
Definition nans (o : nop) : Type :=
  match o with
  | GetNamespace _ => res string
  | ListVpcs => res (list Native)
  | GetCRD => res VpcCRD
  | GetDeployment _ _ => res Deployment
  | ListReplicaSets _ _ => res (list ReplicaSet)
  | ListPods _ _ => res (list Pod)
  | PatchCRD _ _ => res unit
  | PatchDeployment _ _ _ _ => res PodTemplate
  | ExecPod _ _ _ _ => res string
  | ContextErr | NextTick => option error
  end.
Notation nprog := (prog nans).
Notation nhistory := (list (event nans)).
Definition cluster_uid : nprog (res string) := call (GetNamespace "kube-system").
Definition list_vpcs : nprog (res (list Native)) := call ListVpcs.
Definition get_crd : nprog (res VpcCRD) := call GetCRD.
Definition get_deployment (ns name : string) : nprog (res Deployment) := call (GetDeployment ns name).
Definition patch_crd (dry : bool) (p : list nativePatchOperation) : nprog (res unit) := call (PatchCRD dry p).
Definition patch_deployment (dry : bool) (ns name : string) (p : list nativePatchOperation) : nprog (res PodTemplate) :=
  call (PatchDeployment dry ns name p).
Definition list_sets (ns : string) (s : LabelSelector) : nprog (res (list ReplicaSet)) := call (ListReplicaSets ns s).
Definition list_pods (ns : string) (s : LabelSelector) : nprog (res (list Pod)) := call (ListPods ns s).
Definition exec_pod (ns pod container : string) (argv : list string) : nprog (res string) := call (ExecPod ns pod container argv).
Definition context_err : nprog (option error) := call ContextErr.
Definition next_tick : nprog (option error) := call NextTick.
(** [fmt.Errorf("...: %w", err)] around the error of [p] *)
Definition wrapped {Op} {Ans : Op -> Type} {A} (pre : string) (p : prog Ans (res A)) : prog Ans (res A) :=
  x <- p ;; Ret (match x with Ok a => Ok a | Err e => Err (Wrapf pre e) end).

(** [metav1.LabelSelectorAsSelector]: whether the selector converts *)
Class Selectors := { LabelSelectorAsSelector : LabelSelector -> res unit }.

(** [opts]: the context's name and the timeout in nanoseconds *)
Record Options := mkOptions { opt_Context : string; opt_Timeout : Z }.
Definition second : Z := 10 ^ 9.
Definition wait_timeout (o : Options) : Z := if opt_Timeout o <=? 0 then 300 * second else opt_Timeout o.
(** The ticks a wait can see before its deadline, and its first round *)
Definition rounds (o : Options) : nat := S (Z.to_nat (wait_timeout o / second)).
Definition DeadlineExceeded : error := Errorf "context deadline exceeded".

(** ** Rollouts *)

Definition int32 (z : Z) : Z := (z + 2 ^ 31) mod 2 ^ 32 - 2 ^ 31.
Definition controls (kind : string) (o : OwnerReference) : bool :=
  (or_Kind o =? kind)%string && match or_Controller o with Some b => b | None => false end.
Definition owned_sets (uid : string) (sets : list ReplicaSet) : list string :=
  map (fun s => om_UID (rp_Meta s))
    (List.filter (fun s => existsb (fun o => (or_UID o =? uid)%string && controls "Deployment" o) (om_OwnerReferences (rp_Meta s))) sets).
Definition is_owned (sets : list string) (p : Pod) : bool :=
  existsb (fun o => controls "ReplicaSet" o && existsb (String.eqb (or_UID o)) sets) (om_OwnerReferences (pd_Meta p)).
Definition pod_running (p : Pod) : bool :=
  bool_decide (om_DeletionTimestamp (pd_Meta p) = None) && (pd_Phase p =? "Running")%string.
Definition pod_ready (container image : string) (p : Pod) : bool :=
  existsb (fun c => (fst c =? container)%string && (snd c =? image)%string) (pd_Containers p) &&
  existsb (fun s => (cs_Name s =? container)%string && cs_Ready s && cs_Running s) (pd_Statuses p) &&
  existsb (fun c => (cc_Type c =? "Ready")%string && (cc_Status c =? "True")%string) (pd_Conditions p).
(** The loop over the verified Pods *)
Fixpoint pods_waiting (container image : string) (l : list Pod) : option string :=
  match l with
  | [] => None
  | p :: l =>
      if negb (pod_running p) then Some "waiting for running, non-terminating Pods"
      else if negb (pod_ready container image p) then Some "waiting for every Pod to run the expected image and be Ready"
      else pods_waiting container image l
  end.
Record snapshot := mkSnapshot { sn_Ready : bool; sn_Reason : string; sn_Pods : list Pod }.
Definition rollout_of (d : Deployment) (n : Z) (container image : string) (sets : list ReplicaSet) (pods : list Pod) : snapshot :=
  let owned := is_owned (owned_sets (om_UID (dm_Meta d)) sets) in
  let verified := List.filter owned pods in
  let waiting reason := mkSnapshot false reason verified in
  if negb (forallb owned pods) then waiting "selector includes a Pod outside this Deployment owner chain"
  else if negb (int32 (Z.of_nat (List.length verified)) =? n)
  then waiting "waiting for exactly the desired Pods (including removal of old Pods)"
  else if (dm_ObservedGeneration d <? om_Generation (dm_Meta d)) || negb (dm_StatusReplicas d =? n) || negb (dm_Updated d =? n) ||
          negb (dm_Ready d =? n) || negb (dm_Available d =? n) || negb (dm_Unavailable d =? 0)
  then waiting "waiting for Deployment generation and all desired replicas"
  else match pods_waiting container image verified with
       | Some reason => waiting reason
       | None => mkSnapshot true "all desired replicas and owned Pods are Ready on the expected image" verified
       end.

Section native.
Context {NEST : NestedFields} {READ : NestedReads} {TMPL : TemplateEncoding} {SEL : Selectors}.

Definition template_equal (a b : PodTemplate) : bool := nativeJSONEqual (TemplateJSON a) (TemplateJSON b).

Definition nativeRolloutSnapshot (d : Deployment) (container image : string) : nprog (res snapshot) :=
  i <-! lift (nativeContainerIndex d container) ;;
  stop negb (match pt_Containers (dm_Template d) !! i with Some c => (cr_Image c =? image)%string | None => false end)
    with Errorf "Deployment image changed during rollout" ;;
  match dm_Replicas d with
  | None => Ret (Ok (mkSnapshot false "Deployment has no desired replicas" []))
  | Some n =>
      if n <? 1 then Ret (Ok (mkSnapshot false "Deployment has no desired replicas" []))
      else
        match dm_Selector d with
        | None => Ret (Err (Errorf "Deployment selector missing"))
        | Some s =>
            _ <-! lift (LabelSelectorAsSelector s) ;;
            sets <-! list_sets (om_Namespace (dm_Meta d)) s ;;
            pods <-! list_pods (om_Namespace (dm_Meta d)) s ;;
            Ret (Ok (rollout_of d n container image sets pods))
        end
  end.

(** One round of the wait, [None] when the rollout is complete *)
Definition rollout_round (ns deployment container uid image : string) (expected : PodTemplate) : nprog (res (option string)) :=
  d <-! get_deployment ns deployment ;;
  stop negb (om_UID (dm_Meta d) =? uid)%string with Errorf "Deployment was replaced during rollout" ;;
  stop negb (template_equal (dm_Template d) expected) with Errorf "Deployment template drifted during rollout" ;;
  s <-! nativeRolloutSnapshot d container image ;;
  Ret (Ok (if sn_Ready s then None else Some (sn_Reason s))).
Fixpoint nativeWaitRollout (n : nat) (ns deployment container uid image : string) (expected : PodTemplate) : nprog (res unit) :=
  match n with
  | O => Ret (Err DeadlineExceeded)
  | S n =>
      e <- context_err ;;
      match e with
      | Some e => Ret (Err e)
      | None =>
          x <-! rollout_round ns deployment container uid image expected ;;
          match x with
          | None => Ret (Ok tt)
          | Some reason =>
              t <- next_tick ;;
              match t with
              | Some e => Ret (Err (Wrapf reason e))
              | None => nativeWaitRollout n ns deployment container uid image expected
              end
          end
      end
  end.

(** ** Preconditions *)

Definition nativeClusterUID : nprog (res string) :=
  x <- cluster_uid ;;
  match x with
  | Err e => Ret (Err (Wrapf "read cluster identity" e))
  | Ok uid => stop (uid =? "")%string with Errorf "kube-system Namespace has no UID" ;; Ret (Ok uid)
  end.
Definition nativeVPCList : nprog (res (list Native)) := wrapped "list native Vpcs" list_vpcs.
Definition nativeNoIntent : nprog (res unit) := l <-! nativeVPCList ;; lift (no_intent l).
Definition nativeAllACKs (requireEmpty : bool) : nprog (res unit) := l <-! nativeVPCList ;; lift (all_acks requireEmpty l).
Definition nativeInstallIntentPreflight (p : nativePlan) : nprog (res unit) :=
  if first_install p then nativeNoIntent else nativeAllACKs false.
(** The two checks of the cluster a plan is for *)
Definition nativeCheckPlanCluster (p : nativePlan) (o : Options) : nprog (res unit) :=
  uid <-! nativeClusterUID ;;
  stop negb (uid =? pf_ClusterUID (fields p))%string with Errorf "wrong cluster: kube-system UID differs from the plan receipt" ;;
  stop negb (pf_Context (fields p) =? "")%string && negb (opt_Context o =? "")%string &&
       negb (pf_Context (fields p) =? opt_Context o)%string
    with Errorf "context differs from the plan receipt" ;;
  Ret (Ok tt).

(** [nativeImagePreflight]: the blockers and the proven images *)
Definition image_id (id : string) : string :=
  match String.index 0 "://" id with Some n => GoStd.drop (n + 3) id | None => id end.
Definition pod_proves (container base digest : string) (p : Pod) : bool :=
  existsb (fun s =>
    let id := image_id (cs_ImageID s) in
    (cs_Name s =? container)%string &&
    ((id =? digest)%string || (digestImage id && (nativeImageReference id =? nativeImageReference base)%string))) (pd_Statuses p).
Definition blocked : list string * list string :=
  (["current native image is mutable and its running digest cannot be proven equal to bundle.baseImage"], []).
Definition nativeImagePreflight (d : Deployment) (container : string) (b : NativeBundle) : nprog (res (list string * list string)) :=
  let base := nb_BaseImage b in
  match nativeContainerIndex d container with
  | Err _ => Ret (Ok (["container is absent from Deployment"], []))
  | Ok i =>
      match pt_Containers (dm_Template d) !! i with
      | None => Ret (Err ErrPanic)
      | Some c =>
          let original := cr_Image c in
          if digestImage original then
            Ret (Ok (if negb (base =? "")%string && negb (nativeImageReference original =? nativeImageReference base)%string
                     then (["current native image differs from bundle.baseImage; use a bundle built from this exact native distribution"], [])
                     else ([], [nativeImageReference original])))
          else if (base =? "")%string then Ret (Ok blocked)
          else
            x <- nativeRolloutSnapshot d container original ;;
            match x with
            | Err _ => Ret (Ok blocked)
            | Ok s =>
                if negb (sn_Ready s) then Ret (Ok blocked)
                else
                  match cut_byte "@" base with
                  | None => Ret (Err ErrPanic)
                  | Some (_, expected) =>
                      Ret (Ok (if forallb (pod_proves container base expected) (sn_Pods s)
                               then ([], match sn_Pods s with [] => [] | _ => [nativeImageReference base] end)
                               else blocked))
                  end
            end
      end
  end.

(** ** Planning *)

Definition makeNativePlan (contextName ns deployment container : string) (bundle : NativeBundle) : nprog (res nativePlan) :=
  _ <-! lift (validateNativeBundle bundle) ;;
  uid <-! nativeClusterUID ;;
  _ <-! nativeNoIntent ;;
  crd <-! wrapped "get Vpc CRD" get_crd ;;
  let m := un_Meta (vc_Object crd) in
  stop (om_UID m =? "")%string || (om_ResourceVersion m =? "")%string with Errorf "Vpc CRD must have UID and resourceVersion" ;;
  props <-! lift (nativeCRDProperties (un_Object (vc_Object crd))) ;;
  _ <-! lift (no_extension props) ;;
  d <-! wrapped "get native Deployment" (get_deployment ns deployment) ;;
  i <-! lift (validateNativeDeployment d container) ;;
  preflight <-! nativeImagePreflight d container bundle ;;
  let plan cp dp := Plan (mkFields nativeAPIVersion "NativeInstallPlan" bundle contextName uid ns deployment container
    (om_UID m) (om_ResourceVersion m) (crd_spec crd) (om_UID (dm_Meta d)) (om_ResourceVersion (dm_Meta d)) (dm_Template d)
    cp dp (sort_strings (crd_managers crd ++ deployment_managers d)) (fst preflight) (snd preflight)) None in
  let '(cp, dp) := nativePlanPatches (plan [] []) i in
  Ret (Ok (plan cp dp)).

(** The resources are exactly those a receipt installed. *)
Definition installed (p : nativePlan) (expected : json * PodTemplate) (crd : VpcCRD) (d : Deployment) : bool :=
  (om_UID (un_Meta (vc_Object crd)) =? pf_CRDUID (fields p))%string && (om_UID (dm_Meta d) =? pf_DeploymentUID (fields p))%string &&
  nativeJSONEqual (crd_spec crd) (fst expected) && template_equal (dm_Template d) (snd expected).
Definition makeNativeUpgradePlan (o : Options) (previous : nativePlan) (bundle : NativeBundle) : nprog (res nativePlan) :=
  let q := fields previous in
  _ <-! lift (validateNativePlan previous) ;;
  _ <-! lift (validateNativeBundle bundle) ;;
  _ <-! nativeCheckPlanCluster previous o ;;
  stop negb (nb_Target bundle =? nb_Target (pf_Bundle q))%string ||
       negb (nativeImageReference (nb_BaseImage bundle) =? nativeImageReference (nb_BaseImage (pf_Bundle q)))%string
    with Errorf "native upgrade requires the same pinned upstream target and base image" ;;
  stop (nb_Image bundle =? nb_Image (pf_Bundle q))%string with Errorf "target native image is already recorded in the previous receipt" ;;
  crd <-! get_crd ;;
  d <-! get_deployment (pf_Namespace q) (pf_Deployment q) ;;
  i <-! lift (validateNativeDeployment d (pf_Container q)) ;;
  expected <-! lift (nativeExpectedState previous) ;;
  stop negb (installed previous expected crd d)
    with Errorf "installed schema/template or resource identity differs from the previous receipt; reconcile the drift before upgrading" ;;
  s <-! nativeRolloutSnapshot d (pf_Container q) (nb_Image (pf_Bundle q)) ;;
  stop negb (sn_Ready s) with Errorf "previous native rollout is incomplete" ;;
  _ <-! nativeAllACKs false ;;
  let plan cp dp := Plan (mkFields nativeAPIVersion "NativeInstallPlan" bundle (opt_Context o) (pf_ClusterUID q)
    (pf_Namespace q) (pf_Deployment q) (pf_Container q) (pf_CRDUID q) (om_ResourceVersion (un_Meta (vc_Object crd)))
    (crd_spec crd) (pf_DeploymentUID q) (om_ResourceVersion (dm_Meta d)) (dm_Template d) cp dp
    (crd_managers crd ++ deployment_managers d) [] [nb_Image (pf_Bundle q)]) (Some previous) in
  let '(cp, dp) := nativePlanPatches (plan [] []) i in
  _ <-! lift (validateNativePlan (plan cp dp)) ;;
  Ret (Ok (plan cp dp)).

(** ** Installing *)

(** The resources as they were read, and how far the plan was applied then *)
Record install_state := mkInstall {
  is_Deployment : Deployment; is_Index : nat; is_Schema : bool; is_Image : bool; is_Expected : json * PodTemplate }.
(** The checks of [installNativePlan] before anything is changed *)
Definition install_checks (p : nativePlan) (direct : bool) : nprog (res install_state) :=
  let f := fields p in
  crd <-! get_crd ;;
  d <-! get_deployment (pf_Namespace f) (pf_Deployment f) ;;
  stop negb (om_UID (un_Meta (vc_Object crd)) =? pf_CRDUID f)%string || negb (om_UID (dm_Meta d) =? pf_DeploymentUID f)%string
    with Errorf "stale plan: CRD or Deployment UID changed" ;;
  i <-! lift (validateNativeDeployment d (pf_Container f)) ;;
  _ <-! lift (nativeCRDProperties (un_Object (vc_Object crd))) ;;
  expected <-! lift (nativeExpectedState p) ;;
  let schemaApplied := nativeJSONEqual (crd_spec crd) (fst expected) in
  let imageApplied := template_equal (dm_Template d) (snd expected) in
  stop negb schemaApplied && negb (nativeJSONEqual (crd_spec crd) (pf_CRDSpec f))
    with Errorf "stale plan: CRD differs from both the original and exact planned schema" ;;
  stop negb imageApplied && negb (template_equal (dm_Template d) (pf_Template f))
    with Errorf "stale plan: Deployment template differs from both the original and exact planned template" ;;
  stop negb schemaApplied && imageApplied
    with Errorf "inconsistent partial install: target image exists without the planned schema" ;;
  stop negb schemaApplied && (negb (om_ResourceVersion (un_Meta (vc_Object crd)) =? pf_CRDVersion f)%string ||
                              negb (om_ResourceVersion (dm_Meta d) =? pf_DeploymentVersion f)%string)
    with Errorf "stale plan: CRD or Deployment resourceVersion changed; create and review a fresh plan" ;;
  stop negb (bool_decide (crd_managers crd ++ deployment_managers d = [])) && negb direct
    with Errorf "owner-managed resources detected: coordinated direct mutation requires --direct-ownership" ;;
  _ <-! (if negb imageApplied && first_install p then
           b <-! nativeImagePreflight d (pf_Container f) (pf_Bundle f) ;;
           stop negb (bool_decide (fst b = [])) with Errorf "installation blocked" ;;
           Ret (Ok tt)
         else Ret (Ok tt)) ;;
  Ret (Ok (mkInstall d i schemaApplied imageApplied expected)).
(** One round of the loop over [dryRun]; it gives whether the schema is applied and the
    template the rollout is to have. *)
Definition install_round (p : nativePlan) (st : install_state) (dry schemaApplied : bool) (expected : PodTemplate)
    : nprog (res (bool * PodTemplate)) :=
  let f := fields p in
  _ <-! (if schemaApplied
         then wrapped "PARTIAL INSTALL: planned schema exists; stop materializers before resuming" (nativeInstallIntentPreflight p)
         else nativeInstallIntentPreflight p) ;;
  schemaApplied <-! (if schemaApplied then Ret (Ok true)
                     else
                       _ <-! wrapped "CRD patch failed; controller image was not changed" (patch_crd dry (pf_CRDPatch f)) ;;
                       Ret (Ok (negb dry))) ;;
  if is_Image st then Ret (Ok (schemaApplied, expected))
  else
    _ <-! (if dry then nativeInstallIntentPreflight p
           else wrapped "PARTIAL INSTALL: schema applied, image unchanged; stop materializers and resume this plan"
                  (nativeInstallIntentPreflight p)) ;;
    t <-! wrapped (if dry then "Deployment dry-run failed; no new changes applied"
                   else "PARTIAL INSTALL: schema applied, Deployment image patch failed")
            (patch_deployment dry (pf_Namespace f) (pf_Deployment f)
               (image_patch (pf_DeploymentUID f) (om_ResourceVersion (dm_Meta (is_Deployment st))) (pf_Template f)
                  (is_Index st) (nb_Image (pf_Bundle f)))) ;;
    stop negb (template_equal t expected)
      with Errorf "native Deployment admission changed fields beyond the planned image" ;;
    Ret (Ok (schemaApplied, if dry then expected else t)).
Definition installNativePlan (p : nativePlan) (o : Options) (direct : bool) : nprog (res unit) :=
  let f := fields p in
  _ <-! lift (validateNativePlan p) ;;
  _ <-! nativeCheckPlanCluster p o ;;
  _ <-! wrapped "installation preflight" (nativeInstallIntentPreflight p) ;;
  st <-! install_checks p direct ;;
  x <-! install_round p st true (is_Schema st) (snd (is_Expected st)) ;;
  y <-! install_round p st false (fst x) (snd x) ;;
  _ <-! wrapped "PARTIAL INSTALL: schema and image applied, but rollout is unverified"
          (nativeWaitRollout (rounds o) (pf_Namespace f) (pf_Deployment f) (pf_Container f) (pf_DeploymentUID f)
             (nb_Image (pf_Bundle f)) (snd y)) ;;
  crd <-! wrapped "PARTIAL INSTALL: rollout completed but final schema verification failed" get_crd ;;
  stop negb (om_UID (un_Meta (vc_Object crd)) =? pf_CRDUID f)%string || negb (nativeJSONEqual (crd_spec crd) (fst (is_Expected st)))
    with Errorf "PARTIAL INSTALL: Vpc CRD drifted during rollout; inspect native status before enabling intent" ;;
  Ret (Ok tt).

(** ** Status and verification *)

Record nativePodReport := mkPodReport { pr_Name : string; pr_Phase : string; pr_Image : string; pr_ImageID : string; pr_Ready : bool }.
Record nativeReport := mkReport {
  nr_ClusterUID : string; nr_Schema : string; nr_Deployment : string; nr_Image : string; nr_RolloutReady : bool;
  nr_RolloutReason : string; nr_VPCs : list nativeACKReport; nr_Pods : list nativePodReport }.
(** The fragments of both sections, nil when missing, and whether they exist *)
Definition extension (props : list (string * json)) (section : string) : res (option (list (string * json))) :=
  NestedFieldMap (JObj props) [section; "properties"; "destinationRoutes"].
Definition installed_schema (props : list (string * json)) : NativeSchema :=
  mkNativeSchema (map_or_nil (extension props "spec")) (map_or_nil (extension props "status")).
Definition supported (props : list (string * json)) : bool :=
  nativeJSONEqual (schema_json (installed_schema props)) (schema_json nativeSchema).
Definition found_section (props : list (string * json)) (section : string) : bool :=
  match extension props section with Ok (Some _) => true | _ => false end.
Definition schema_state (props : list (string * json)) : string :=
  if existsb (found_section props) sections then (if supported props then "supported" else "mismatched") else "absent".
Definition pod_report (container : string) (p : Pod) : nativePodReport :=
  let r := fold_left (fun r c => if (fst c =? container)%string then mkPodReport (pr_Name r) (pr_Phase r) (snd c) (pr_ImageID r) (pr_Ready r) else r)
             (pd_Containers p) (mkPodReport (om_Name (pd_Meta p)) (pd_Phase p) "" "" false) in
  fold_left (fun r s => if (cs_Name s =? container)%string then mkPodReport (pr_Name r) (pr_Phase r) (pr_Image r) (cs_ImageID s) (cs_Ready s) else r)
    (pd_Statuses p) r.
Definition nativeStatus (ns deployment container : string) : nprog (res nativeReport) :=
  uid <-! nativeClusterUID ;;
  crd <-! get_crd ;;
  props <-! lift (nativeCRDProperties (un_Object (vc_Object crd))) ;;
  d <-! get_deployment ns deployment ;;
  i <-! lift (nativeContainerIndex d container) ;;
  match pt_Containers (dm_Template d) !! i with
  | None => Ret (Err ErrPanic)
  | Some c =>
      s <-! nativeRolloutSnapshot d container (cr_Image c) ;;
      vpcs <-! nativeVPCList ;;
      Ret (Ok (mkReport uid (schema_state props) (ns ++ "/" ++ deployment)%string (cr_Image c) (sn_Ready s) (sn_Reason s)
                 (sort_by_key ar_Name (map nativeACK vpcs)) (sort_by_key pr_Name (map (pod_report container) (sn_Pods s)))))
  end.
(** The comparison with a receipt, if there is one *)
Definition verify_receipt (p : option nativePlan) (o : Options) (crd : VpcCRD) (d : Deployment) : nprog (res unit) :=
  match p with
  | None => Ret (Ok tt)
  | Some p =>
      _ <-! nativeCheckPlanCluster p o ;;
      expected <-! lift (nativeExpectedState p) ;;
      stop negb (installed p expected crd d) with Errorf "native installation differs from the exact plan receipt" ;;
      Ret (Ok tt)
  end.
Definition nativeVerify (p : option nativePlan) (ns deployment container : string) (o : Options) : nprog (res nativeReport) :=
  crd <-! get_crd ;;
  props <-! lift (nativeCRDProperties (un_Object (vc_Object crd))) ;;
  stop negb (supported props) with Errorf "native destination-routes.v1 schema is absent or incompatible" ;;
  d <-! get_deployment ns deployment ;;
  i <-! lift (validateNativeDeployment d container) ;;
  _ <-! verify_receipt p o crd d ;;
  match pt_Containers (dm_Template d) !! i with
  | None => Ret (Err ErrPanic)
  | Some c =>
      s <-! nativeRolloutSnapshot d container (cr_Image c) ;;
      stop negb (sn_Ready s) with Errorf "native rollout is not ready" ;;
      _ <-! nativeAllACKs false ;;
      nativeStatus ns deployment container
  end.

(** ** Draining *)

Record nativeOVNOptions := mkOVNOptions { ov_Namespace : string; ov_Deployment : string; ov_Container : string; ov_Database : string }.
Definition nativeCheckDrainState (p : nativePlan) : nprog (res unit) :=
  crd <-! get_crd ;;
  d <-! get_deployment (pf_Namespace (fields p)) (pf_Deployment (fields p)) ;;
  expected <-! lift (nativeExpectedState p) ;;
  stop negb (installed p expected crd d)
    with Errorf "native cleanup requires the exact installed plan state; use rollback to recover a partial install" ;;
  Ret (Ok tt).
Definition list_argv (db table : string) : list string :=
  ["ovn-nbctl"; "--timeout=15"; ("--db=" ++ db)%string; "--format=json"; "--columns=_uuid,external_ids"; "list"; table].
Definition owned_tables : list string := ["Logical_Router_Static_Route"; "BFD"].
Definition table_empty (ovn : nativeOVNOptions) (pt : string * string) : nprog (res unit) :=
  out <-! wrapped "read OVN table"
            (exec_pod (ov_Namespace ovn) (fst pt) (ov_Container ovn) (list_argv (ov_Database ovn) (snd pt))) ;;
  lift (nativeCheckOVNRows out).
Definition nativeOVNEmpty (ovn : nativeOVNOptions) : nprog (res unit) :=
  stop (ov_Namespace ovn =? "")%string || (ov_Deployment ovn =? "")%string || (ov_Container ovn =? "")%string || (ov_Database ovn =? "")%string
    with Errorf "OVN namespace, Deployment, container, and database must be nonempty" ;;
  d <-! wrapped "read OVN client Deployment" (get_deployment (ov_Namespace ovn) (ov_Deployment ovn)) ;;
  i <-! lift (nativeContainerIndex d (ov_Container ovn)) ;;
  match pt_Containers (dm_Template d) !! i with
  | None => Ret (Err ErrPanic)
  | Some c =>
      s <-! nativeRolloutSnapshot d (ov_Container ovn) (cr_Image c) ;;
      stop negb (sn_Ready s) || (List.length (sn_Pods s) =? 0)%nat with Errorf "OVN client Deployment is not fully ready" ;;
      _ <-! collect (table_empty ovn)
              (flat_map (fun p => map (fun table => (om_Name (pd_Meta p), table)) owned_tables) (sn_Pods s)) ;;
      Ret (Ok tt)
  end.
(** What one round of [nativeWaitDrained] checks *)
Definition drained (ovn : nativeOVNOptions) : nprog (res unit) := _ <-! nativeAllACKs true ;; nativeOVNEmpty ovn.
Definition not_complete (last : error) : error := Wrapf "native cleanup is not complete" last.
Fixpoint nativeWaitDrained (n : nat) (ovn : nativeOVNOptions) (last : option error) : nprog (res unit) :=
  let expired e := Ret (Err (match last with Some l => not_complete l | None => e end)) in
  match n with
  | O => expired DeadlineExceeded
  | S n =>
      e <- context_err ;;
      match e with
      | Some e => expired e
      | None =>
          x <- drained ovn ;;
          match x with
          | Ok _ => Ret (Ok tt)
          | Err err =>
              e <- context_err ;;
              match e, last with
              | Some _, Some l => Ret (Err (not_complete l))
              | _, _ =>
                  t <- next_tick ;;
                  match t with
                  | Some _ => Ret (Err (not_complete err))
                  | None => nativeWaitDrained n ovn (Some err)
                  end
              end
          end
      end
  end.

(** ** Restoring *)

Record restore_state := mkRestore {
  re_Deployment : Deployment; re_Index : nat; re_CRD : VpcCRD; re_Image : bool; re_Schema : bool;
  re_Expected : json * PodTemplate }.
(** The checks of [restoreNative] before it waits or changes anything *)
Definition restore_checks (p : nativePlan) (t : restoration) (direct : bool) : nprog (res restore_state) :=
  let f := fields p in
  expected <-! lift (nativeExpectedState p) ;;
  crd <-! get_crd ;;
  d <-! get_deployment (pf_Namespace f) (pf_Deployment f) ;;
  stop negb (om_UID (un_Meta (vc_Object crd)) =? pf_CRDUID f)%string || negb (om_UID (dm_Meta d) =? pf_DeploymentUID f)%string
    with Errorf "receipt is stale: native CRD or Deployment UID changed" ;;
  i <-! lift (validateNativeDeployment d (pf_Container f)) ;;
  let imageRestored := template_equal (dm_Template d) (rt_Template t) in
  let schemaRestored := nativeJSONEqual (crd_spec crd) (rt_Spec t) in
  stop negb (nativeJSONEqual (crd_spec crd) (fst expected)) && negb schemaRestored
    with Errorf "native CRD drifted from both the installed and restoration schema; no changes applied" ;;
  stop negb imageRestored && negb (template_equal (dm_Template d) (snd expected)) &&
       negb (first_install p && template_equal (dm_Template d) (pf_Template f))
    with Errorf "native Deployment template drifted from both the installed and restoration state; no changes applied" ;;
  stop rt_Stock t && schemaRestored && negb imageRestored && negb (template_equal (dm_Template d) (pf_Template f))
    with Errorf "native schema is already absent while the patched image remains; inspect partial state before restoring" ;;
  stop negb (bool_decide (crd_managers crd ++ deployment_managers d = [])) && negb direct
    with Errorf "owner-managed resources detected: coordinated restoration requires --direct-ownership" ;;
  Ret (Ok (mkRestore d i crd imageRestored schemaRestored expected)).
Definition restore_patch (st : restore_state) (image : string) : list nativePatchOperation :=
  let d := re_Deployment st in
  image_patch (om_UID (dm_Meta d)) (om_ResourceVersion (dm_Meta d)) (dm_Template d) (re_Index st) image.
(** One patch of the image, tried or real *)
Definition restore_image (p : nativePlan) (t : restoration) (st : restore_state) (dry : bool) : nprog (res unit) :=
  template <-! wrapped (if dry then "restoration image dry-run failed; no changes applied"
                        else "restoration image patch failed; schema retained")
                 (patch_deployment dry (pf_Namespace (fields p)) (pf_Deployment (fields p)) (restore_patch st (rt_Image t))) ;;
  stop negb (template_equal template (rt_Template t)) with Errorf "admission changed the Deployment beyond the image" ;;
  Ret (Ok tt).
Definition when {Op} {Ans : Op -> Type} (c : bool) (p : prog Ans (res unit)) : prog Ans (res unit) := if c then p else Ret (Ok tt).
(** The removal of the schema, after the stock rollout *)
Definition remove_schema (p : nativePlan) (t : restoration) (ovn : nativeOVNOptions) (direct : bool) (crd : VpcCRD) : nprog (res unit) :=
  when (rt_Stock t && negb (nativeJSONEqual (crd_spec crd) (rt_Spec t)))
    (stop negb (bool_decide (crd_managers crd = [])) && negb direct
       with Errorf "PARTIAL RESTORATION: CRD acquired an external manager; coordinate it before retrying" ;;
     _ <-! wrapped "PARTIAL RESTORATION: intent changed after stock rollout; schema retained" (nativeAllACKs true) ;;
     _ <-! wrapped "PARTIAL RESTORATION: OVN cleanup no longer verified; schema retained" (nativeOVNEmpty ovn) ;;
     wrapped "PARTIAL RESTORATION: original image is ready but schema removal failed; retry with the same receipt"
       (patch_crd false (nativeSchemaRestorePatch crd (nb_Schema (pf_Bundle (fields p)))))).
Definition restoreNative (p : nativePlan) (o : Options) (ovn : nativeOVNOptions) (direct uninstall : bool) : nprog (res unit) :=
  let f := fields p in
  _ <-! lift (validateNativePlan p) ;;
  _ <-! nativeCheckPlanCluster p o ;;
  t <-! lift (nativeRestoreTarget p uninstall) ;;
  st <-! restore_checks p t direct ;;
  _ <-! (if rt_Stock t then nativeWaitDrained (rounds o) ovn None
         else wrapped "compatible rollback preflight" (nativeAllACKs false)) ;;
  _ <-! when (negb (re_Image st)) (restore_image p t st true) ;;
  _ <-! when (rt_Stock t && negb (re_Schema st))
          (wrapped "restoration schema dry-run failed; no changes applied"
             (patch_crd true (nativeSchemaRestorePatch (re_CRD st) (nb_Schema (pf_Bundle f))))) ;;
  _ <-! when (negb (re_Image st))
          (_ <-! (if rt_Stock t then drained ovn else nativeAllACKs false) ;; restore_image p t st false) ;;
  _ <-! wrapped "PARTIAL RESTORATION: original image applied but rollout unverified; schema retained"
          (nativeWaitRollout (rounds o) (pf_Namespace f) (pf_Deployment f) (pf_Container f) (pf_DeploymentUID f)
             (rt_Image t) (rt_Template t)) ;;
  crd <-! get_crd ;;
  stop negb (om_UID (un_Meta (vc_Object crd)) =? pf_CRDUID f)%string ||
       (negb (nativeJSONEqual (crd_spec crd) (fst (re_Expected st))) && negb (nativeJSONEqual (crd_spec crd) (rt_Spec t)))
    with Errorf "PARTIAL RESTORATION: CRD drifted while restoring the controller; no schema change applied" ;;
  _ <-! remove_schema p t ovn direct crd ;;
  crd <-! get_crd ;;
  stop negb (om_UID (un_Meta (vc_Object crd)) =? pf_CRDUID f)%string || negb (nativeJSONEqual (crd_spec crd) (rt_Spec t))
    with Errorf "restoration schema verification failed" ;;
  when (negb (rt_Stock t)) (wrapped "previous native image restored but ACK verification failed" (nativeAllACKs false)).

(** ** The commands

    [runNativeLifecycle] after the flags and the receipt were read. *)
Inductive lifecycle := Upgrade | Verify | Drain | Rollback | Uninstall.
Record arguments := mkArguments {
  ag_Plan : option nativePlan; ag_Direct : bool; ag_Namespace : string; ag_Deployment : string; ag_Container : string;
  ag_OVN : nativeOVNOptions }.
Definition unit_of {Op} {Ans : Op -> Type} {A} (p : prog Ans (res A)) : prog Ans (res unit) := _ <-! p ;; Ret (Ok tt).
Definition check_receipt (p : option nativePlan) (o : Options) : nprog (res unit) :=
  match p with
  | None => Ret (Ok tt)
  | Some p => _ <-! lift (validateNativePlan p) ;; nativeCheckPlanCluster p o
  end.
Definition runNativeLifecycle (command : lifecycle) (a : arguments) (o : Options) : nprog (res unit) :=
  _ <-! check_receipt (ag_Plan a) o ;;
  match command, ag_Plan a with
  | Verify, None => unit_of (nativeVerify None (ag_Namespace a) (ag_Deployment a) (ag_Container a) o)
  | _, None => Ret (Err (Errorf "native command requires --plan"))
  | Verify, Some p =>
      unit_of (nativeVerify (Some p) (pf_Namespace (fields p)) (pf_Deployment (fields p)) (pf_Container (fields p)) o)
  | Upgrade, Some p =>
      stop first_install p with Errorf "native upgrade requires a plan created with --upgrade-from" ;;
      _ <-! installNativePlan p o (ag_Direct a) ;;
      unit_of (nativeVerify (Some p) (pf_Namespace (fields p)) (pf_Deployment (fields p)) (pf_Container (fields p)) o)
  | Drain, Some p => _ <-! nativeCheckDrainState p ;; nativeWaitDrained (rounds o) (ag_OVN a) None
  | Rollback, Some p => restoreNative p o (ag_OVN a) (ag_Direct a) false
  | Uninstall, Some p => restoreNative p o (ag_OVN a) (ag_Direct a) true
  end.
(** [native install]: an upgrade plan is refused. *)
Definition runInstall (p : nativePlan) (o : Options) (direct : bool) : nprog (res unit) :=
  stop negb (first_install p) with Errorf "upgrade plan requires maintainer native upgrade --plan" ;;
  installNativePlan p o direct.
End native.
