(* ===== verification/NativeSafety.v ===== *)
(** * What the native lifecycle commands change, and when

    Installs, upgrades, rollbacks and uninstalls against a cluster that answers
    anything, and what their receipts and checks mean. *)
From S2P Require Import Prelude GoStd Json JsonDecode Validation DestinationRoute Prog Api Kube GlobalApi GlobalConfig Infra Ovn NativePlan NativeLifecycle.
Open Scope Z_scope.

(** ** Rollouts *)

(** The Deployment has converged: every selected Pod is its own, there are as many as
    wanted, and each runs the image and is ready. *)
Record complete (d : Deployment) (n : Z) (container image : string) (sets : list ReplicaSet) (pods : list Pod) : Prop := {
  co_owned : forall p, In p pods -> is_owned (owned_sets (om_UID (dm_Meta d)) sets) p = true;
  co_count : int32 (Z.of_nat (List.length pods)) = n;
  co_status : om_Generation (dm_Meta d) <= dm_ObservedGeneration d /\ dm_StatusReplicas d = n /\ dm_Updated d = n /\
              dm_Ready d = n /\ dm_Available d = n /\ dm_Unavailable d = 0;
  co_pods : forall p, In p pods -> pod_running p = true /\ pod_ready container image p = true }.

Lemma pods_waiting_None container image l :
  pods_waiting container image l = None <-> forall p, In p l -> pod_running p = true /\ pod_ready container image p = true.
Proof.
  induction l as [|p l IH]; simpl; [done|]. destruct (pod_running p) eqn:E1; simpl.
  2:{ split; [done|]. intros H. destruct (H p (or_introl eq_refl)). congruence. }
  destruct (pod_ready container image p) eqn:E2; simpl.
  2:{ split; [done|]. intros H. destruct (H p (or_introl eq_refl)). congruence. }
  rewrite IH. split; [intros H q [<-|Hq]; auto|auto].
Qed.
Lemma filter_all {A} (f : A -> bool) l : forallb f l = true -> List.filter f l = l.
Proof. induction l as [|x l IH]; simpl; [done|]. intros [-> H]%andb_true_iff. by rewrite IH. Qed.
Lemma rollout_ready d n container image sets pods :
  sn_Ready (rollout_of d n container image sets pods) = true <-> complete d n container image sets pods.
Proof.
  unfold rollout_of. set (owned := is_owned _). split.
  - destruct (forallb owned pods) eqn:EF; simpl; [|done]. rewrite filter_all by done.
    destruct (_ =? n) eqn:EN; simpl; [|done]. apply Z.eqb_eq in EN.
    destruct (_ || _) eqn:ES; [done|]. breflect.
    destruct (pods_waiting container image pods) eqn:EP; [done|]. intros _. rewrite pods_waiting_None in EP.
    split; [by apply forallb_forall|done| |done]. split_and!; (done || lia).
  - intros [HO HN HS HP]. assert (forallb owned pods = true) as HF by by apply forallb_forall.
    rewrite HF. simpl. rewrite filter_all by done. rewrite HN, Z.eqb_refl. simpl.
    destruct HS as (H1 & -> & -> & -> & -> & ->). rewrite !Z.eqb_refl. apply Z.ltb_ge in H1 as ->. simpl.
    by apply pods_waiting_None in HP as ->.
Qed.
Lemma rollout_pods d n container image sets pods :
  sn_Ready (rollout_of d n container image sets pods) = true -> sn_Pods (rollout_of d n container image sets pods) = pods.
Proof.
  intros H. pose proof H as [HO _ _ _]%rollout_ready. unfold rollout_of in *. 
  rewrite filter_all in * by by apply forallb_forall.
  repeat match goal with |- context [if ?c then _ else _] => destruct c; [done|] end.
  by destruct (pods_waiting container image pods).
Qed.

(** ** Reading *)

(** Everything but a patch that is not a dry run *)
Definition harmless (o : nop) : Prop :=
  match o with PatchCRD false _ | PatchDeployment false _ _ _ => False | _ => True end.

Section native.
Context {NEST : NestedFields} {READ : NestedReads} {TMPL : TemplateEncoding} {SEL : Selectors}.

(** The reads showed the Deployment converged on the image with these Pods. *)
Definition converged (h : nhistory) (d : Deployment) (container image : string) (pods : list Pod) : Prop :=
  exists n s sets, dm_Replicas d = Some n /\ 1 <= n /\ dm_Selector d = Some s /\
    asked h (ListReplicaSets (om_Namespace (dm_Meta d)) s) (Ok sets) /\
    asked h (ListPods (om_Namespace (dm_Meta d)) s) (Ok pods) /\ complete d n container image sets pods.
Definition rolled_out (h : nhistory) (ns deployment container uid image : string) (expected : PodTemplate) : Prop :=
  exists d pods, asked h (GetDeployment ns deployment) (Ok d) /\ om_UID (dm_Meta d) = uid /\
    template_equal (dm_Template d) expected = true /\ converged h d container image pods.
(** The last call listed the VPCs, and they permit the step. *)
Definition listed (h : nhistory) (check : list Native -> res unit) : Prop :=
  exists h0 l, h = h0 ++ [Ev ListVpcs (Ok l)] /\ check l = Ok tt.
Definition intents_allow (p : nativePlan) : list Native -> res unit := if first_install p then no_intent else all_acks false.
Definition right_cluster (h : nhistory) (p : nativePlan) (o : Options) : Prop :=
  asked h (GetNamespace "kube-system") (Ok (pf_ClusterUID (fields p))) /\
  (pf_Context (fields p) = "" \/ opt_Context o = "" \/ pf_Context (fields p) = opt_Context o).
(** Every replica of the OVN client showed no owned row in either table. *)
Definition ovn_empty (h : nhistory) (ovn : nativeOVNOptions) : Prop :=
  exists d image pods, asked h (GetDeployment (ov_Namespace ovn) (ov_Deployment ovn)) (Ok d) /\
    converged h d (ov_Container ovn) image pods /\ pods <> [] /\
    forall pod table, In pod pods -> In table owned_tables ->
      exists out, asked h (ExecPod (ov_Namespace ovn) (om_Name (pd_Meta pod)) (ov_Container ovn) (list_argv (ov_Database ovn) table)) (Ok out) /\
        nativeCheckOVNRows out = Ok tt.
Definition emptied (h : nhistory) (ovn : nativeOVNOptions) : Prop :=
  (exists l, asked h ListVpcs (Ok l) /\ all_acks true l = Ok tt) /\ ovn_empty h ovn.

Lemma converged_extends h h' d container image pods : extends h h' -> converged h d container image pods -> converged h' d container image pods.
Proof. intros HE (n & s & sets & H1 & H2 & H3 & H4 & H5 & H6). exists n, s, sets. split_and!; try done; by eapply asked_extends. Qed.

Lemma rolled_out_extends h h' ns deployment container uid image t :
  extends h h' -> rolled_out h ns deployment container uid image t -> rolled_out h' ns deployment container uid image t.
Proof.
  intros HE (d & pods & HA & HU & HT & HC). exists d, pods. split_and!; try done; [by eapply asked_extends|by eapply converged_extends].
Qed.
Lemma right_cluster_extends h h' p o : extends h h' -> right_cluster h p o -> right_cluster h' p o.
Proof. intros HE [HC HX]. split; [by eapply asked_extends|done]. Qed.
Lemma converged_incl h h' d container image pods : (forall o x, asked h o x -> asked h' o x) ->
  converged h d container image pods -> converged h' d container image pods.
Proof. intros HI (n & s & sets & H1 & H2 & H3 & H4 & H5 & H6). exists n, s, sets. split_and!; auto. Qed.
Lemma ovn_empty_incl h h' ovn : (forall o x, asked h o x -> asked h' o x) -> ovn_empty h ovn -> ovn_empty h' ovn.
Proof.
  intros HI (d & image & pods & HA & HC & HN & HP). exists d, image, pods. split_and!; auto; [by eapply converged_incl|].
  intros pod table H1 H2. destruct (HP pod table H1 H2) as (out & HO & HR). exists out. auto.
Qed.

Section rules.
Context (R : nhistory -> nop -> Prop) (HR : forall h o, harmless o -> R h o).

Ltac asks := split; [by apply HR|]; intros [x|err] _; [split; [apply extends_snoc|done]|done].
Lemma okp_get_crd h : okp R get_crd h (fun h' c => h' = h ++ [Ev GetCRD (Ok c)]).
Proof. asks. Qed.
Lemma okp_get_deployment ns name h : okp R (get_deployment ns name) h (fun h' d => h' = h ++ [Ev (GetDeployment ns name) (Ok d)]).
Proof. asks. Qed.
Lemma okp_list_sets ns s h : okp R (list_sets ns s) h (fun h' l => h' = h ++ [Ev (ListReplicaSets ns s) (Ok l)]).
Proof. asks. Qed.
Lemma okp_list_pods ns s h : okp R (list_pods ns s) h (fun h' l => h' = h ++ [Ev (ListPods ns s) (Ok l)]).
Proof. asks. Qed.
Lemma okp_exec_pod ns pod c argv h : okp R (exec_pod ns pod c argv) h (fun h' out => h' = h ++ [Ev (ExecPod ns pod c argv) (Ok out)]).
Proof. asks. Qed.
Lemma okp_patch_crd dry patch h : R h (PatchCRD dry patch) ->
  okp R (patch_crd dry patch) h (fun h' _ => asked h' (PatchCRD dry patch) (Ok tt)).
Proof. intros H. split; [done|]. intros [[]|err] _; [|done]. split; [apply extends_snoc|apply asked_snoc]. Qed.
Lemma okp_patch_deployment dry ns name patch h : R h (PatchDeployment dry ns name patch) ->
  okp R (patch_deployment dry ns name patch) h (fun h' t => asked h' (PatchDeployment dry ns name patch) (Ok t)).
Proof. intros H. split; [done|]. intros [t|err] _; [|done]. split; [apply extends_snoc|apply asked_snoc]. Qed.
Lemma okp_list_vpcs pre h : okp R (wrapped pre list_vpcs) h (fun h' l => h' = h ++ [Ev ListVpcs (Ok l)]).
Proof. apply okp_wrapped. asks. Qed.

Lemma okp_snapshot d container image h : okp R (nativeRolloutSnapshot d container image) h
  (fun h' s => sn_Ready s = true -> converged h' d container image (sn_Pods s)).
Proof.
  unfold nativeRolloutSnapshot. apply okp_check. intros i _. apply okp_stop. intros _. destruct (dm_Replicas d) as [n|] eqn:En; [|by apply okp_Ok].
  destruct (n <? 1) eqn:E1; [by apply okp_Ok|]. apply Z.ltb_ge in E1.
  destruct (dm_Selector d) as [s|] eqn:Es; [|done].
  apply okp_check. intros x _.
  eapply okp_bind; [apply okp_list_sets|]. intros h3 sets _ ->.
  eapply okp_bind; [apply okp_list_pods|]. intros h4 pods _ ->. apply okp_Ok. intros HC.
  rewrite rollout_pods by done. apply rollout_ready in HC. exists n, s, sets. split_and!; try done; [|apply asked_snoc].
  apply asked_app, asked_snoc.
Qed.
Lemma okp_wait_rollout n ns deployment container uid image expected h :
  okp R (nativeWaitRollout n ns deployment container uid image expected) h
    (fun h' _ => rolled_out h' ns deployment container uid image expected).
Proof.
  revert h. induction n as [|n IH]; intros h; cbn [nativeWaitRollout]; [done|].
  eapply okp_call with (P := fun _ _ => True); [split; [by apply HR|done]|]. intros h1 [e|] H1 _; [done|].
  eapply okp_bind with (P := fun h' x => x = None -> rolled_out h' ns deployment container uid image expected).
  - unfold rollout_round. eapply okp_bind; [apply okp_get_deployment|]. intros h2 d _ ->.
    apply okp_stop. intros HU%negb_false_iff%String.eqb_eq. apply okp_stop. intros HT%negb_false_iff.
    eapply okp_bind; [apply okp_snapshot|]. intros h3 s H3 HS. apply okp_Ok.
    destruct (sn_Ready s) eqn:ER; [|done]. intros _. exists d, (sn_Pods s). split_and!; try done; [|by apply HS].
    eapply asked_extends; [exact H3|apply asked_snoc].
  - intros h2 [reason|] H2 HX; [|apply okp_Ok; auto].
    eapply okp_call with (P := fun _ _ => True); [split; [by apply HR|done]|]. intros h3 [e|] H3 _; [done|]. apply IH.
Qed.

Lemma okp_acks b h : okp R (nativeAllACKs b) h (fun h' _ => listed h' (all_acks b)).
Proof.
  unfold nativeAllACKs. eapply okp_bind; [apply okp_list_vpcs|]. intros h1 l _ ->. apply okp_lift. intros [] HA. by exists h, l.
Qed.
Lemma okp_preflight p h : okp R (nativeInstallIntentPreflight p) h (fun h' _ => listed h' (intents_allow p)).
Proof.
  unfold nativeInstallIntentPreflight, intents_allow. destruct (first_install p); [|apply okp_acks].
  unfold nativeNoIntent. eapply okp_bind; [apply okp_list_vpcs|]. intros h1 l _ ->. apply okp_lift. intros [] HA. by exists h, l.
Qed.
Lemma okp_cluster p o h : okp R (nativeCheckPlanCluster p o) h (fun h' _ => right_cluster h' p o).
Proof.
  unfold nativeCheckPlanCluster. eapply okp_bind with (P := fun h' uid => asked h' (GetNamespace "kube-system") (Ok uid)).
  - split; [by apply HR|]. intros [uid|err] _; [|done]. simpl. destruct (_ =? _)%string; [done|].
    split; [apply extends_snoc|apply asked_snoc].
  - intros h1 uid H1 HU. apply okp_stop. intros HC%negb_false_iff%String.eqb_eq. apply okp_stop. intros HX. apply okp_Ok.
    subst uid. split; [done|]. rewrite !andb_false_iff, !negb_false_iff, !String.eqb_eq in HX. tauto.
Qed.

Lemma okp_table ovn pt h : okp R (table_empty ovn pt) h (fun h' _ => exists out,
  asked h' (ExecPod (ov_Namespace ovn) (fst pt) (ov_Container ovn) (list_argv (ov_Database ovn) (snd pt))) (Ok out) /\
  nativeCheckOVNRows out = Ok tt).
Proof.
  unfold table_empty. eapply okp_bind; [apply okp_wrapped, okp_exec_pod|]. intros h1 out _ ->. apply okp_lift. intros [] HC.
  exists out. split; [apply asked_snoc|done].
Qed.
Lemma okp_ovn_empty ovn h : okp R (nativeOVNEmpty ovn) h (fun h' _ => ovn_empty h' ovn).
Proof.
  unfold nativeOVNEmpty. apply okp_stop. intros _. eapply okp_bind; [apply okp_wrapped, okp_get_deployment|]. intros h1 d _ ->.
  apply okp_check. intros i _. destruct (_ !! i) as [c|]; [|done]. eapply okp_bind; [apply okp_snapshot|]. intros h3 s H3 HS.
  apply okp_stop. intros [HR1 HP]%orb_false_iff. apply negb_false_iff in HR1. apply Nat.eqb_neq in HP.
  eapply okp_bind.
  { apply (okp_collect _ _ (fun h' pt _ => exists out,
      asked h' (ExecPod (ov_Namespace ovn) (fst pt) (ov_Container ovn) (list_argv (ov_Database ovn) (snd pt))) (Ok out) /\
      nativeCheckOVNRows out = Ok tt)).
    - intros h' h'' pt _ HE (out & HA & HC). exists out. split; [by eapply asked_extends|done].
    - intros h' pt _ _. apply okp_table. }
  intros h4 us H4 HF. apply okp_Ok. exists d, (cr_Image c), (sn_Pods s). split_and!.
  - eapply asked_extends; [|apply asked_snoc]. extending.
  - eapply converged_extends; [exact H4|auto].
  - by intros E; rewrite E in HP.
  - intros pod table Hpod Ht. destruct (Forall2_in_l _ _ _ (om_Name (pd_Meta pod), table) HF) as (u & _ & HX); [|exact HX].
    apply in_flat_map. exists pod. split; [done|]. by apply (in_map (fun table => (om_Name (pd_Meta pod), table))).
Qed.
Lemma okp_drained ovn h : okp R (drained ovn) h (fun h' _ => emptied h' ovn).
Proof.
  unfold drained. eapply okp_bind; [apply okp_acks|]. intros h1 [] H1 (h0 & l & -> & HA).
  eapply okp_mono; [apply okp_ovn_empty|]. intros h2 [] H2 HO. split; [|done].
  exists l. split; [|done]. eapply asked_extends; [exact H2|apply asked_snoc].
Qed.
Lemma okp_wait_drained n ovn last h : okp R (nativeWaitDrained n ovn last) h (fun h' _ => emptied h' ovn).
Proof.
  revert last h. induction n as [|n IH]; intros last h; cbn [nativeWaitDrained]; [done|].
  eapply okp_call with (P := fun _ _ => True); [split; [by apply HR|done]|]. intros h1 [e|] H1 _; [done|].
  apply wp_bind. eapply wp_mono; [|apply wp_extends, okp_drained]. intros h2 [[]|err] [HE HD].
  { apply okp_from; [done|]. apply okp_Ok, HD. }
  apply okp_from; [exact HE|]. eapply okp_call with (P := fun _ _ => True); [split; [by apply HR|done]|].
  assert (forall h, okp R (t <- next_tick ;; match t with Some _ => Ret (Err (not_complete err)) | None => nativeWaitDrained n ovn (Some err) end)
            h (fun h' _ => emptied h' ovn)) as HT.
  { intros h3. eapply okp_call with (P := fun _ _ => True); [split; [by apply HR|done]|]. intros h4 [e|] H4 _; [done|]. apply IH. }
  intros h3 [e|] H3 _; [destruct last; [done|]|]; apply HT.
Qed.
End rules.

(** ** Installing *)

Section install.
Variables (p : nativePlan) (o : Options) (direct : bool).
Notation f := (fields p).

(** A first install accepts a mutable image only when every running Pod proves the digest
    of the bundle's base image. *)
Definition proven (h : nhistory) (d : Deployment) : Prop :=
  exists i (c : Container), nativeContainerIndex d (pf_Container f) = Ok i /\ pt_Containers (dm_Template d) !! i = Some c /\
    (digestImage (cr_Image c) = true /\
     (nb_BaseImage (pf_Bundle f) = "" \/ nativeImageReference (cr_Image c) = nativeImageReference (nb_BaseImage (pf_Bundle f))) \/
     exists pods name digest, converged h d (pf_Container f) (cr_Image c) pods /\
       cut_byte "@" (nb_BaseImage (pf_Bundle f)) = Some (name, digest) /\
       forall pod, In pod pods -> pod_proves (pf_Container f) (nb_BaseImage (pf_Bundle f)) digest pod = true).
(** The resources were read and are at the start, in the middle or at the end of this plan. *)
Record checked (h : nhistory) (st : install_state) (crd : VpcCRD) : Prop := {
  ck_crd : asked h GetCRD (Ok crd) /\ om_UID (un_Meta (vc_Object crd)) = pf_CRDUID f;
  ck_deployment : asked h (GetDeployment (pf_Namespace f) (pf_Deployment f)) (Ok (is_Deployment st)) /\
                  om_UID (dm_Meta (is_Deployment st)) = pf_DeploymentUID f;
  ck_valid : validateNativeDeployment (is_Deployment st) (pf_Container f) = Ok (is_Index st);
  ck_expected : nativeExpectedState p = Ok (is_Expected st);
  ck_schema : nativeJSONEqual (crd_spec crd) (if is_Schema st then fst (is_Expected st) else pf_CRDSpec f) = true;
  ck_image : template_equal (dm_Template (is_Deployment st)) (if is_Image st then snd (is_Expected st) else pf_Template f) = true;
  ck_fresh : is_Schema st = false -> is_Image st = false /\
             om_ResourceVersion (un_Meta (vc_Object crd)) = pf_CRDVersion f /\
             om_ResourceVersion (dm_Meta (is_Deployment st)) = pf_DeploymentVersion f;
  ck_owners : direct = true \/ crd_managers crd = [] /\ deployment_managers (is_Deployment st) = [];
  ck_proven : is_Image st = false -> first_install p = true -> proven h (is_Deployment st) }.
Lemma checked_extends h h' st crd : extends h h' -> checked h st crd -> checked h' st crd.
Proof.
  intros HE [[] [] H3 H4 H5 H6 H7 H8 H9]. split; try done; try (split; [by eapply asked_extends|done]).
  intros Hi Hf. destruct (H9 Hi Hf) as (i & c & Hc & Hl & [HD|(pods & name & digest & HC & HX)]); exists i, c; split_and!; auto.
  right. exists pods, name, digest. split; [by eapply converged_extends|done].
Qed.

Definition install_patch (st : install_state) : list nativePatchOperation :=
  image_patch (pf_DeploymentUID f) (om_ResourceVersion (dm_Meta (is_Deployment st))) (pf_Template f) (is_Index st) (nb_Image (pf_Bundle f)).
(** The image patch was tried, and admission changes nothing but the image. *)
Definition rehearsed (h : nhistory) (st : install_state) : Prop :=
  exists t, asked h (PatchDeployment true (pf_Namespace f) (pf_Deployment f) (install_patch st)) (Ok t) /\
    template_equal t (snd (is_Expected st)) = true.
Inductive install_call (h : nhistory) : nop -> Prop :=
| ic_harmless c (Hc : harmless c) : install_call h c
| ic_schema st crd (Hp : validateNativePlan p = Ok tt) (Hc : right_cluster h p o) (Hs : checked h st crd) (Ha : is_Schema st = false)
    (Hn : nativeJSONEqual (patch_json (fst (nativePlanPatches p 0))) (patch_json (pf_CRDPatch f)) = true)
    (Hd : asked h (PatchCRD true (pf_CRDPatch f)) (Ok tt)) (Hr : rehearsed h st) (Hl : listed h (intents_allow p)) :
    install_call h (PatchCRD false (pf_CRDPatch f))
| ic_image st crd (Hp : validateNativePlan p = Ok tt) (Hc : right_cluster h p o) (Hs : checked h st crd) (Ha : is_Image st = false)
    (Hd : is_Schema st = true \/ asked h (PatchCRD false (pf_CRDPatch f)) (Ok tt)) (Hr : rehearsed h st)
    (Hl : listed h (intents_allow p)) :
    install_call h (PatchDeployment false (pf_Namespace f) (pf_Deployment f) (install_patch st)).

Lemma install_harmless h c : harmless c -> install_call h c.
Proof. apply ic_harmless. Qed.

Lemma okp_image_preflight d h : okp install_call (nativeImagePreflight d (pf_Container f) (pf_Bundle f)) h
  (fun h' b => fst b = [] -> proven h' d).
Proof.
  unfold nativeImagePreflight. destruct (nativeContainerIndex _ _) as [i|] eqn:Ei; [|by apply okp_Ok].
  destruct (_ !! i) as [c|] eqn:Ec; [|done]. destruct (digestImage (cr_Image c)) eqn:ED.
  - apply okp_Ok. destruct (_ && _) eqn:EB; [done|]. intros _. exists i, c. split_and!; [done|done|]. left. split; [done|].
    rewrite andb_false_iff, !negb_false_iff, !String.eqb_eq in EB. done.
  - destruct (_ =? "")%string; [by apply okp_Ok|].
    eapply okp_call with (P := fun h' x => match x with
      | Ok s => sn_Ready s = true -> converged h' d (pf_Container f) (cr_Image c) (sn_Pods s) | Err _ => True end).
    { eapply wp_mono; [|exact (okp_snapshot install_call install_harmless d (pf_Container f) (cr_Image c) h)]. intros h1 [s|] HS; [exact (proj2 HS)|done]. }
    intros h1 [s|] H1 HS; [|by apply okp_Ok]. apply okp_if; [by intros; apply okp_Ok|]. intros HR%negb_false_iff.
    destruct (cut_byte _ _) as [[name digest]|] eqn:EC; [|done]. apply okp_Ok.
    destruct (forallb _ _) eqn:EF; [|done]. intros _. exists i, c. split_and!; [done|done|]. right.
    exists (sn_Pods s), name, digest. split_and!; [auto|done|by apply forallb_forall].
Qed.
Lemma okp_install_checks h : okp install_call (install_checks p direct) h (fun h' st => exists crd, checked h' st crd).
Proof.
  unfold install_checks. eapply okp_bind; [apply okp_get_crd, install_harmless|]. intros h1 crd _ ->.
  eapply okp_bind; [apply okp_get_deployment, install_harmless|]. intros h2 d _ ->.
  apply okp_stop. intros [HU HV]%orb_false_iff. apply negb_false_iff, String.eqb_eq in HU, HV.
  apply okp_check. intros i Hi. apply okp_check. intros props _. apply okp_check. intros expected He.
  set (schema := nativeJSONEqual (crd_spec crd) (fst expected)). set (image := template_equal (dm_Template d) (snd expected)).
  apply okp_stop. intros HS. apply okp_stop. intros HI. apply okp_stop. intros HP. apply okp_stop. intros HV2. apply okp_stop. intros HO.
  eapply okp_bind with (P := fun h' _ => image = false -> first_install p = true -> proven h' d).
  - apply okp_if; [|intros [HN|HN]%andb_false_iff; apply okp_Ok; [by apply negb_false_iff in HN; rewrite HN|by rewrite HN]].
    intros _. eapply okp_bind; [apply okp_image_preflight|]. intros h3 b H3 HB. apply okp_stop. intros HE. apply okp_Ok.
    intros _ _. apply HB. by breflect.
  - intros h3 [] H3 HB. apply okp_Ok. exists crd.
    assert (forall o (x : nans o), asked ((h ++ [Ev GetCRD (Ok crd)]) ++ [Ev (GetDeployment (pf_Namespace f) (pf_Deployment f)) (Ok d)]) o x -> asked h3 o x) as HA
      by (intros o0 x0; by apply asked_extends).
    split; simpl; try done.
    + split; [|done]. by apply HA, asked_app, asked_snoc.
    + split; [|done]. by apply HA, asked_snoc.
    + subst schema. destruct (nativeJSONEqual (crd_spec crd) (fst expected)) eqn:E; [done|]. by apply negb_false_iff in HS.
    + subst image. destruct (template_equal (dm_Template d) (snd expected)) eqn:E; [done|]. by apply negb_false_iff in HI.
    + intros E. rewrite E in HP, HV2. simpl in HP, HV2. apply orb_false_iff in HV2 as [V1 V2].
      apply negb_false_iff, String.eqb_eq in V1, V2. done.
    + apply andb_false_iff in HO as [HO|HO]; apply negb_false_iff in HO; [right|by left].
      apply bool_decide_eq_true in HO. by apply app_eq_nil in HO.
Qed.
Lemma rehearsed_extends h h' st : extends h h' -> rehearsed h st -> rehearsed h' st.
Proof. intros HE (t & HA & HT). exists t. split; [by eapply asked_extends|done]. Qed.
(** What the dry run showed. *)
Definition tried (h : nhistory) (st : install_state) : Prop :=
  (is_Schema st = false -> asked h (PatchCRD true (pf_CRDPatch f)) (Ok tt)) /\ (is_Image st = false -> rehearsed h st).
Lemma okp_preflight_if (c : bool) pre h :
  okp install_call (if c then wrapped pre (nativeInstallIntentPreflight p) else nativeInstallIntentPreflight p) h
    (fun h' _ => listed h' (intents_allow p)).
Proof. destruct c; [apply okp_wrapped|]; apply okp_preflight, install_harmless. Qed.
Lemma okp_dry_round st h : okp install_call (install_round p st true (is_Schema st) (snd (is_Expected st))) h
  (fun h' x => x = (is_Schema st, snd (is_Expected st)) /\ tried h' st).
Proof.
  unfold install_round. eapply okp_bind; [apply okp_preflight_if|]. intros h1 _ H1 _.
  eapply okp_bind with (P := fun h' x => x = is_Schema st /\ (is_Schema st = false -> asked h' (PatchCRD true (pf_CRDPatch f)) (Ok tt))).
  { destruct (is_Schema st); [by apply okp_Ok|]. eapply okp_bind; [apply okp_wrapped, okp_patch_crd; by apply ic_harmless|].
    intros h2 u2 H2 HA. by apply okp_Ok. }
  intros h2 x H2 [-> HD]. apply okp_if; [intros HI; apply okp_Ok; split; [done|split; [done|congruence]]|]. intros HI.
  eapply okp_bind; [apply okp_preflight, install_harmless|]. intros h3 _ H3 _.
  eapply okp_bind; [apply okp_wrapped, okp_patch_deployment; by apply ic_harmless|]. intros h4 t H4 HA.
  apply okp_stop. intros HT%negb_false_iff. apply okp_Ok. split; [done|]. split; [|intros _; by exists t].
  intros HS. eapply asked_extends; [|by apply HD]. extending.
Qed.
Definition known (h : nhistory) (st : install_state) : Prop :=
  validateNativePlan p = Ok tt /\ right_cluster h p o /\ (exists crd, checked h st crd) /\ tried h st.
Lemma known_extends h h' st : extends h h' -> known h st -> known h' st.
Proof.
  intros HE (HV & [HC HX] & (crd & HS) & HT1 & HT2). split_and!; [done| |exists crd; by eapply checked_extends|].
  - split; [by eapply asked_extends|done].
  - split; intros H; [eapply asked_extends|eapply rehearsed_extends]; eauto.
Qed.
Lemma okp_real_round st h : known h st -> okp install_call (install_round p st false (is_Schema st) (snd (is_Expected st))) h
  (fun h' x => snd x = snd (is_Expected st) \/ template_equal (snd x) (snd (is_Expected st)) = true).
Proof.
  intros HK. unfold install_round. eapply okp_bind; [apply okp_preflight_if|]. intros h1 u1 H1 HL1.
  eapply okp_bind with (P := fun h' _ => is_Schema st = true \/ asked h' (PatchCRD false (pf_CRDPatch f)) (Ok tt)).
  { destruct (is_Schema st) eqn:ES; [by apply okp_Ok; left|].
    destruct (known_extends _ _ _ H1 HK) as (HV & HC & (crd & HS) & HT1 & HT2).
    destruct (ck_fresh _ _ _ HS ES) as (HI & _). eapply okp_bind.
    { apply okp_wrapped, okp_patch_crd. eapply ic_schema; eauto. by eapply validate_patches. }
    intros h2 u2 H2 HA. apply okp_Ok. by right. }
  intros h2 x H2 HD. apply okp_if; [intros HI; apply okp_Ok; by left|]. intros HI.
  eapply okp_bind; [apply okp_wrapped, okp_preflight, install_harmless|]. intros h3 u3 H3 HL3.
  assert (known h3 st) as (HV & HC & (crd & HS) & HT1 & HT2) by (eapply known_extends, HK; extending).
  eapply okp_bind.
  { apply okp_wrapped, okp_patch_deployment. eapply ic_image; eauto. destruct HD as [HD|HD]; [by left|right; by eapply asked_extends]. }
  intros h4 t H4 HA. apply okp_stop. intros HT%negb_false_iff. apply okp_Ok. by right.
Qed.
(** The plan is in place: its rollout was seen complete, and then its schema. *)
Definition in_place (h : nhistory) : Prop :=
  exists st crd0 crd t, checked h st crd0 /\ (t = snd (is_Expected st) \/ template_equal t (snd (is_Expected st)) = true) /\
    rolled_out h (pf_Namespace f) (pf_Deployment f) (pf_Container f) (pf_DeploymentUID f) (nb_Image (pf_Bundle f)) t /\
    (exists h0, h = h0 ++ [Ev GetCRD (Ok crd)]) /\ om_UID (un_Meta (vc_Object crd)) = pf_CRDUID f /\
    nativeJSONEqual (crd_spec crd) (fst (is_Expected st)) = true.
Lemma okp_install h : okp install_call (installNativePlan p o direct) h (fun h' _ => in_place h').
Proof.
  unfold installNativePlan. apply okp_check. intros [] HV.
  eapply okp_bind; [apply okp_cluster, install_harmless|]. intros h1 u1 H1 HC.
  eapply okp_bind; [apply okp_wrapped, okp_preflight, install_harmless|]. intros h2 _ H2 _.
  eapply okp_bind; [apply okp_install_checks|]. intros h3 st H3 (crd0 & HS).
  eapply okp_bind; [apply okp_dry_round|]. intros h4 x H4 [-> HT].
  assert (known h4 st) as HK.
  { split_and!; [done| |exists crd0; by eapply checked_extends|done]. destruct HC as [HC HX]. split; [|done].
    eapply asked_extends; [|exact HC]. extending. }
  eapply okp_bind; [by apply okp_real_round|]. intros h5 y H5 HY.
  eapply okp_bind; [apply okp_wrapped, okp_wait_rollout, install_harmless|]. intros h6 u6 H6 HRO.
  eapply okp_bind; [apply okp_wrapped, okp_get_crd, install_harmless|]. intros h7 crd _ ->.
  apply okp_stop. intros [HU HE]%orb_false_iff. apply negb_false_iff in HU, HE. apply String.eqb_eq in HU. apply okp_Ok.
  exists st, crd0, crd, (snd y). split_and!; try done.
  - eapply checked_extends; [|exact HS]. extending.
  - eapply rolled_out_extends; [apply extends_snoc|done].
  - by exists h6.
Qed.

Lemma schema_call h patch : install_call h (PatchCRD false patch) -> right_cluster h p o /\ listed h (intents_allow p).
Proof. intros H. inversion H; subst; [done|]. by split. Qed.
(** C16: An install or upgrade changes the cluster only under its reviewed plan. The
    schema is patched with exactly the patch of a valid plan, on the plan's cluster, when
    the definition and the Deployment are the recorded objects at the recorded versions,
    the patches passed a dry run in which admission changed nothing but the image, no
    manager owns the objects unless direct ownership was chosen, and the last call listed
    VPCs that allow it. The image is patched under the same conditions, only after the
    schema is in place. Success is reported only after the rollout was seen complete and
    then the planned schema. *)
Theorem native_installs_are_guarded :
  obeys install_call (installNativePlan p o direct) /\
  forall h, exec (installNativePlan p o direct) h (Ret (Ok tt)) -> in_place h.
Proof. split; [eapply okp_obeys, okp_install|]. intros h HX. exact (okp_exec _ _ _ _ _ (okp_install []) HX). Qed.
End install.

(** ** Restoring *)

Section restore.
Variables (p : nativePlan) (o : Options) (ovn : nativeOVNOptions) (direct uninstall : bool).
Notation f := (fields p).

(** Calls that showed [Q] after calls that showed [P] *)
Definition after (P Q : nhistory -> Prop) (h : nhistory) : Prop := exists h1 h2, h = h1 ++ h2 /\ P h1 /\ Q h2.
(** The resources were read and are at the start, in the middle or at the end of the restoration. *)
Record restorable (h : nhistory) (t : restoration) (st : restore_state) : Prop := {
  rs_expected : nativeExpectedState p = Ok (re_Expected st);
  rs_crd : asked h GetCRD (Ok (re_CRD st)) /\ om_UID (un_Meta (vc_Object (re_CRD st))) = pf_CRDUID f;
  rs_deployment : asked h (GetDeployment (pf_Namespace f) (pf_Deployment f)) (Ok (re_Deployment st)) /\
                  om_UID (dm_Meta (re_Deployment st)) = pf_DeploymentUID f;
  rs_valid : validateNativeDeployment (re_Deployment st) (pf_Container f) = Ok (re_Index st);
  rs_schema : nativeJSONEqual (crd_spec (re_CRD st)) (if re_Schema st then rt_Spec t else fst (re_Expected st)) = true;
  rs_image : re_Image st = false ->
             template_equal (dm_Template (re_Deployment st)) (snd (re_Expected st)) = true \/
             first_install p = true /\ template_equal (dm_Template (re_Deployment st)) (pf_Template f) = true;
  rs_owners : direct = true \/ crd_managers (re_CRD st) = [] /\ deployment_managers (re_Deployment st) = [] }.
(** Every change that is still to be made was tried. *)
Definition attempted (t : restoration) (st : restore_state) (h : nhistory) : Prop :=
  (exists template, asked h (PatchDeployment true (pf_Namespace f) (pf_Deployment f) (restore_patch st (rt_Image t))) (Ok template) /\
     template_equal template (rt_Template t) = true) /\
  (rt_Stock t = true -> re_Schema st = false ->
     asked h (PatchCRD true (nativeSchemaRestorePatch (re_CRD st) (nb_Schema (pf_Bundle f)))) (Ok tt)).
(** The stock image needs an empty installation, an earlier one only settled VPCs. *)
Definition quiet (t : restoration) (h : nhistory) : Prop :=
  if rt_Stock t then emptied h ovn else listed h (all_acks false).
Definition stock_running (t : restoration) (h : nhistory) : Prop :=
  rolled_out h (pf_Namespace f) (pf_Deployment f) (pf_Container f) (pf_DeploymentUID f) (rt_Image t) (rt_Template t).
Definition removable (crd : VpcCRD) (h : nhistory) : Prop :=
  asked h GetCRD (Ok crd) /\ om_UID (un_Meta (vc_Object crd)) = pf_CRDUID f /\
  (direct = true \/ crd_managers crd = []) /\ emptied h ovn.
Inductive restore_call (h : nhistory) : nop -> Prop :=
| rc_harmless c (Hc : harmless c) : restore_call h c
| rc_image t st (Hp : validateNativePlan p = Ok tt) (Hc : right_cluster h p o) (Ht : nativeRestoreTarget p uninstall = Ok t)
    (Hs : restorable h t st) (Hi : re_Image st = false) (Hq : after (attempted t st) (quiet t) h) :
    restore_call h (PatchDeployment false (pf_Namespace f) (pf_Deployment f) (restore_patch st (rt_Image t)))
| rc_schema t crd (Hp : validateNativePlan p = Ok tt) (Hc : right_cluster h p o) (Ht : nativeRestoreTarget p uninstall = Ok t)
    (Hk : rt_Stock t = true) (Hq : after (stock_running t) (removable crd) h) :
    restore_call h (PatchCRD false (nativeSchemaRestorePatch crd (nb_Schema (pf_Bundle f)))).
Lemma restore_harmless h c : harmless c -> restore_call h c.
Proof. apply rc_harmless. Qed.

Lemma okp_restore_checks t h : okp restore_call (restore_checks p t direct) h (fun h' st => restorable h' t st).
Proof.
  unfold restore_checks. apply okp_check. intros expected He.
  eapply okp_bind; [apply okp_get_crd, restore_harmless|]. intros h1 crd _ ->.
  eapply okp_bind; [apply okp_get_deployment, restore_harmless|]. intros h2 d _ ->.
  apply okp_stop. intros [HU HV]%orb_false_iff. apply negb_false_iff, String.eqb_eq in HU, HV.
  apply okp_check. intros i Hi. apply okp_stop. intros HS. apply okp_stop. intros HI. apply okp_stop. intros HK.
  apply okp_stop. intros HO. apply okp_Ok. split; simpl; try done.
  - split; [|done]. apply asked_app, asked_snoc.
  - split; [|done]. apply asked_snoc.
  - destruct (nativeJSONEqual (crd_spec crd) (rt_Spec t)) eqn:E; [done|]. rewrite andb_true_r in HS. by apply negb_false_iff in HS.
  - intros E. rewrite E in HI. simpl in HI. apply andb_false_iff in HI as [HI|HI]; apply negb_false_iff in HI; [by left|].
    right. by apply andb_true_iff in HI.
  - apply andb_false_iff in HO as [HO|HO]; apply negb_false_iff in HO; [right|by left].
    apply bool_decide_eq_true in HO. by apply app_eq_nil in HO.
Qed.
Lemma restorable_extends h h' t st : extends h h' -> restorable h t st -> restorable h' t st.
Proof. intros HE [H1 [] [] H4 H5 H6 H7]. split; try done; (split; [by eapply asked_extends|done]). Qed.
Lemma okp_when c q h P : (c = true -> okp restore_call q h P) -> okp restore_call (when c q) h (fun h' u => c = true -> P h' u).
Proof. intros H. unfold when. destruct c; [|by apply okp_Ok]. eapply okp_mono; [by apply H|]. auto. Qed.

Definition committed (t : restoration) (st : restore_state) (h : nhistory) : Prop :=
  validateNativePlan p = Ok tt /\ right_cluster h p o /\ nativeRestoreTarget p uninstall = Ok t /\ restorable h t st.
Lemma committed_extends h h' t st : extends h h' -> committed t st h -> committed t st h'.
Proof.
  intros HE (HV & HC & HT & HS). split_and!; try done; [by eapply right_cluster_extends|by eapply restorable_extends].
Qed.
Lemma okp_quiet t h : okp restore_call (if rt_Stock t then drained ovn else nativeAllACKs false) h
  (fun h' _ => exists h2, h' = h ++ h2 /\ quiet t h2).
Proof.
  unfold quiet. destruct (rt_Stock t); apply (okp_frame harmless); try apply restore_harmless; [by apply okp_drained|by apply okp_acks].
Qed.
Lemma okp_restore_image t st h : committed t st h -> attempted t st h -> re_Image st = false ->
  okp restore_call (_ <-! (if rt_Stock t then drained ovn else nativeAllACKs false) ;; restore_image p t st false) h (fun _ _ => True).
Proof.
  intros HK HA HI. eapply okp_bind; [apply okp_quiet|]. intros h1 u1 H1 (h2 & -> & HQ). unfold restore_image.
  eapply okp_bind; [apply okp_wrapped, okp_patch_deployment|intros h3 tm H3 _; apply okp_stop; intros _; by apply okp_Ok].
  destruct (committed_extends _ _ _ _ H1 HK) as (HV & HC & HT & HS). apply rc_image; try done. by exists h, h2.
Qed.
Lemma okp_remove_schema t crd h : validateNativePlan p = Ok tt -> right_cluster h p o -> nativeRestoreTarget p uninstall = Ok t ->
  stock_running t h -> om_UID (un_Meta (vc_Object crd)) = pf_CRDUID f ->
  okp restore_call (remove_schema p t ovn direct crd) (h ++ [Ev GetCRD (Ok crd)]) (fun _ _ => True).
Proof.
  intros HV HC HT HS HU. unfold remove_schema, when. apply okp_if; [|by intros; apply okp_Ok]. intros [HK _]%andb_true_iff.
  apply okp_stop. intros HO.
  eapply okp_bind; [apply okp_wrapped, (okp_frame harmless); [apply restore_harmless|by apply okp_acks]|].
  intros h1 u1 H1 (t1 & -> & (t0 & l & -> & HL)).
  eapply okp_bind; [apply okp_wrapped, (okp_frame harmless); [apply restore_harmless|by apply okp_ovn_empty]|].
  intros h2 u2 H2 (t2 & -> & HE). eapply okp_mono; [apply okp_wrapped, okp_patch_crd|done].
  apply rc_schema with (t := t); try done; [eapply right_cluster_extends; [|exact HC]; extending|].
  exists h, ([Ev GetCRD (Ok crd)] ++ (t0 ++ [Ev ListVpcs (Ok l)]) ++ t2). split_and!; [by rewrite !List.app_assoc|done|].
  split_and!; [by left|done| |split].
  - apply andb_false_iff in HO as [HO|HO]; apply negb_false_iff in HO; [right; by apply bool_decide_eq_true in HO|by left].
  - exists l. split; [|done]. unfold asked. rewrite !in_app_iff. simpl. tauto.
  - eapply ovn_empty_incl; [|exact HE]. intros o0 x0 HA. unfold asked in *. rewrite !in_app_iff. by right; right.
Qed.

(** The restoration is complete: the target's rollout was seen complete, and then its schema. *)
Definition restored (h : nhistory) : Prop :=
  exists t crd, nativeRestoreTarget p uninstall = Ok t /\ after (stock_running t) (fun h' => asked h' GetCRD (Ok crd)) h /\
    om_UID (un_Meta (vc_Object crd)) = pf_CRDUID f /\ nativeJSONEqual (crd_spec crd) (rt_Spec t) = true /\
    (rt_Stock t = false -> listed h (all_acks false)).
Lemma okp_restore h : okp restore_call (restoreNative p o ovn direct uninstall) h (fun h' _ => restored h').
Proof.
  unfold restoreNative. apply okp_check. intros [] HV.
  eapply okp_bind; [apply okp_cluster, restore_harmless|]. intros h1 u1 H1 HC.
  apply okp_check. intros t HT. eapply okp_bind; [apply okp_restore_checks|]. intros h2 st H2 HS.
  eapply okp_bind with (P := fun _ _ => True).
  { destruct (rt_Stock t); (eapply okp_mono;
      [first [apply okp_wait_drained, restore_harmless|apply okp_wrapped, okp_acks, restore_harmless]|done]). }
  intros h3 u3 H3 _.
  assert (committed t st h3) as HK.
  { split_and!; try done; [eapply right_cluster_extends; [|exact HC]|eapply restorable_extends; [|exact HS]]; extending. }
  eapply okp_bind with (P := fun h' _ => re_Image st = false -> exists template,
    asked h' (PatchDeployment true (pf_Namespace f) (pf_Deployment f) (restore_patch st (rt_Image t))) (Ok template) /\
    template_equal template (rt_Template t) = true).
  { eapply okp_mono; [apply okp_when|intros h4 u4 _ HX HI; apply HX; by rewrite HI]. intros _. unfold restore_image.
    eapply okp_bind; [apply okp_wrapped, okp_patch_deployment; by apply rc_harmless|]. intros h4 tm H4 HA.
    apply okp_stop. intros HE%negb_false_iff. apply okp_Ok. by exists tm. }
  intros h4 u4 H4 HD. eapply okp_bind.
  { apply okp_when. intros _. apply okp_wrapped, okp_patch_crd. by apply rc_harmless. }
  intros h5 u5 H5 HX. eapply okp_bind.
  { apply okp_when. intros HI%negb_true_iff. apply okp_restore_image; [|split|done].
    - eapply committed_extends; [|exact HK]. extending.
    - destruct (HD HI) as (tm & HA & HE). exists tm. split; [by eapply asked_extends|done].
    - intros HS1 HS2. apply HX. by rewrite HS1, HS2. }
  intros h6 u6 H6 _. eapply okp_bind; [apply okp_wrapped, okp_wait_rollout, restore_harmless|]. intros h7 u7 H7 HR.
  eapply okp_bind; [apply okp_get_crd, restore_harmless|]. intros h8 crd _ ->.
  apply okp_stop. intros [HU _]%orb_false_iff. apply negb_false_iff, String.eqb_eq in HU.
  eapply okp_bind; [apply okp_remove_schema; try done; eapply right_cluster_extends; [|exact HC]; extending|].
  intros h9 u9 H9 _. eapply okp_bind; [apply okp_get_crd, restore_harmless|]. intros h10 crd' _ ->.
  apply okp_stop. intros [HU' HE]%orb_false_iff. apply negb_false_iff in HU', HE. apply String.eqb_eq in HU'.
  eapply okp_mono; [apply okp_when; intros _; apply okp_wrapped, okp_acks, restore_harmless|].
  intros h11 u11 [t11 ->] HL. exists t, crd'. split_and!; try done.
  - destruct H9 as [t9 ->]. exists h7, ([Ev GetCRD (Ok crd)] ++ t9 ++ [Ev GetCRD (Ok crd')] ++ t11).
    split_and!; [by rewrite !List.app_assoc|done|]. unfold asked. rewrite !in_app_iff. simpl. tauto.
  - intros E. apply HL. by rewrite E.
Qed.
Lemma removal_call h patch : restore_call h (PatchCRD false patch) ->
  exists t crd, rt_Stock t = true /\ after (stock_running t) (removable crd) h.
Proof. intros H. inversion H; subst; [done|]. eauto. Qed.
(** C17: A rollback or uninstall changes the image only to the receipt's target, with the
    recorded objects in one of the receipt's states and after a dry run of every change,
    since when the installation was seen settled: for the stock image, no intent, only
    empty acknowledgements and no owned row in any replica of the database. The schema is
    removed only on a return to stock, after the stock image was seen running on every
    replica, since when the installation was seen empty again. Success is reported only
    after the target's rollout was seen complete and then its schema. *)
Theorem native_restorations_are_guarded :
  obeys restore_call (restoreNative p o ovn direct uninstall) /\
  forall h, exec (restoreNative p o ovn direct uninstall) h (Ret (Ok tt)) -> restored h.
Proof. split; [eapply okp_obeys, okp_restore|]. intros h HX. exact (okp_exec _ _ _ _ _ (okp_restore []) HX). Qed.
End restore.
End native.
