(* ===== verification/NativeHook.v ===== *)
(** * [internal/vpcctl/native_hook.go]: the native integration as a Helm hook

    The hook keeps the receipts in a Secret: what is installed ([Active]) and what may
    be partially applied ([Pending]). Its passes are the commands of [NativeLifecycle]
    between reads and writes of that Secret. *)
From S2P Require Import Prelude GoStd Json JsonDecode Validation DestinationRoute Prog Api Kube GlobalApi GlobalConfig Infra Ovn NativePlan.
From S2P Require Import NativeLifecycle NativeSafety.
Open Scope Z_scope.

(** ** State and options *)

Record nativeHookState := mkHookState {
  hs_APIVersion : string; hs_Kind : string; hs_Release : string;
  hs_Active : option nativePlan; hs_Pending : option nativePlan }.
Record nativeHookOptions := mkHookOptions {
  ho_Action : string; ho_Release : string; ho_Namespace : string; ho_Secret : string; ho_BundleFile : string;
  ho_ControllerNamespace : string; ho_Deployment : string; ho_Container : string; ho_OVN : nativeOVNOptions }.
(** The JSON of a state holds Pod templates, a type of k8s.io/api: [json.Marshal], and
    [json.Unmarshal] into a state that has its defaults. *)
Class StateEncoding := {
  MarshalState : nativeHookState -> res string;
  UnmarshalState : string -> nativeHookState -> res nativeHookState }.

(** ** Calls

    Those of the lifecycle commands, and those on the Secret. *)
Inductive hop :=
| Native (o : nop)
| GetReceipt (ns name : string)
| CreateReceipt (s : Secret)
| UpdateReceipt (s : Secret)
| DeleteReceipt (ns name : string) (p : Preconditions).
Definition hans (o : hop) : Type :=
  match o with
  | Native o => nans o
  | GetReceipt _ _ | CreateReceipt _ | UpdateReceipt _ => res Secret
  | DeleteReceipt _ _ _ => res unit
  end.
Notation hprog := (prog hans).
Notation hhistory := (list (event hans)).
Definition get_receipt (ns name : string) : hprog (res Secret) := call (GetReceipt ns name).
Definition create_receipt (s : Secret) : hprog (res Secret) := call (CreateReceipt s).
Definition update_receipt (s : Secret) : hprog (res Secret) := call (UpdateReceipt s).
Definition delete_receipt (ns name : string) (p : Preconditions) : hprog (res unit) := call (DeleteReceipt ns name p).
(** A lifecycle command inside the hook *)
Definition within {A} (p : nprog A) : hprog A := embed (Ans2 := hans) Native (fun o x => x) p.

Section hook.
Context {VAL : Validation} {NEST : NestedFields} {READ : NestedReads} {TMPL : TemplateEncoding} {SEL : Selectors} {ENC : StateEncoding}.

(** ** The receipt Secret *)

Definition receipt_limit : Z := 900 * 1024.
Definition new_state (h : nativeHookOptions) : nativeHookState := mkHookState nativeAPIVersion "NativeHelmState" (ho_Release h) None None.
Definition with_receipts (active pending : option nativePlan) (s : nativeHookState) : nativeHookState :=
  mkHookState (hs_APIVersion s) (hs_Kind s) (hs_Release s) active pending.
(** The loop over the two receipts *)
Fixpoint valid_receipts (h : nativeHookOptions) (l : list (option nativePlan)) : res unit :=
  match l with
  | [] => Ok tt
  | None :: l => valid_receipts h l
  | Some p :: l =>
      _ <-? match validateNativePlan p with
            | Ok _ => Ok tt
            | Err e => Err (Wrapf "native receipt Secret contains an invalid plan" e)
            end ;;
      let f := fields p in
      reject negb (pf_Namespace f =? ho_ControllerNamespace h)%string || negb (pf_Deployment f =? ho_Deployment h)%string ||
             negb (pf_Container f =? ho_Container h)%string
        with Errorf "native controller identity differs from the release receipt; a Helm upgrade cannot retarget an installed extension" ;;
      valid_receipts h l
  end.
(** What a Secret holds *)
Definition decode_receipt (h : nativeHookOptions) (s : Secret) : res nativeHookState :=
  let m := sc_Meta s in
  reject negb (get (om_Labels m) "globalvpc.io/native-receipt" =? "true")%string ||
         negb (get (om_Annotations m) "meta.helm.sh/release-name" =? ho_Release h)%string ||
         negb (get (om_Annotations m) "meta.helm.sh/release-namespace" =? ho_Namespace h)%string
    with Errorf "native receipt Secret exists but does not belong to this Helm release" ;;
  let data := get (sc_Data s) "state.json" in
  reject (String.length data =? 0)%nat || (receipt_limit <? Z.of_nat (String.length data))
    with Errorf "native receipt Secret has missing or oversized state" ;;
  state <-? match UnmarshalState data (new_state h) with
            | Ok state => Ok state
            | Err e => Err (Wrapf "invalid native receipt Secret" e)
            end ;;
  reject negb (hs_APIVersion state =? nativeAPIVersion)%string || negb (hs_Kind state =? "NativeHelmState")%string ||
         negb (hs_Release state =? ho_Release h)%string
    with Errorf "native receipt Secret has incompatible identity" ;;
  _ <-? valid_receipts h [hs_Active state; hs_Pending state] ;;
  Ok state.
Definition nativeLoadHookState (h : nativeHookOptions) : hprog (res (option Secret * nativeHookState)) :=
  x <- get_receipt (ho_Namespace h) (ho_Secret h) ;;
  Ret (match x with
       | Err e => if IsNotFound e then Ok (None, new_state h) else Err e
       | Ok s => state <-? decode_receipt h s ;; Ok (Some s, state)
       end).
Definition new_receipt (h : nativeHookOptions) (data : string) : Secret :=
  mkSecret
    (newMeta (ho_Secret h) (ho_Namespace h)
       {["globalvpc.io/native-receipt" := "true"; "app.kubernetes.io/managed-by" := "Helm"]}
       {["meta.helm.sh/release-name" := ho_Release h; "meta.helm.sh/release-namespace" := ho_Namespace h;
         "helm.sh/resource-policy" := "keep"]})
    None "Opaque" {["state.json" := data]}.
Definition with_state (data : string) (s : Secret) : Secret :=
  mkSecret (sc_Meta s) (sc_Immutable s) (sc_Type s) {["state.json" := data]}.
(** The Secret the save leaves *)
Definition nativeSaveHookState (h : nativeHookOptions) (secret : option Secret) (state : nativeHookState) : hprog (res Secret) :=
  data <-! lift (MarshalState state) ;;
  stop receipt_limit <? Z.of_nat (String.length data)
    with Errorf "native receipt chain is too large for a Kubernetes Secret; refusing mutation" ;;
  match secret with
  | None => wrapped "persist native receipt before mutation" (create_receipt (new_receipt h data))
  | Some s => wrapped "persist native receipt (another hook may have changed it)" (update_receipt (with_state data s))
  end.

Definition has_image (image : string) (p : nativePlan) : bool := (nb_Image (pf_Bundle (fields p)) =? image)%string.
Definition nativeReceiptHasImage (p : option nativePlan) (image : string) : bool :=
  match p with Some p => existsb (has_image image) (receipts p) | None => false end.

(** ** The actions *)

(** Without a receipt nothing is restored, but an installed schema is refused. *)
Definition nothing_installed : nprog (res unit) :=
  crd <-! get_crd ;;
  props <-! lift (nativeCRDProperties (un_Object (vc_Object crd))) ;;
  lift (match no_extension props with
        | Ok _ => Ok tt
        | Err _ => Err (Errorf "extension schema exists but no installation receipt is available; refusing to guess the original native image")
        end).
(** The receipt an uninstall restores *)
Definition newest (s : nativeHookState) : option nativePlan :=
  match hs_Pending s with Some p => Some p | None => hs_Active s end.
Definition hook_uninstall (h : nativeHookOptions) (o : Options) (secret : option Secret) (state : nativeHookState) : hprog (res unit) :=
  _ <-! within (match newest state with
                | None => nothing_installed
                | Some p => restoreNative p o (ho_OVN h) true true
                end) ;;
  match secret with
  | None => Ret (Ok tt)
  | Some s =>
      let m := sc_Meta s in
      stop negb (bool_decide (om_Finalizers m = []))
        with Errorf "native restoration completed but receipt Secret has finalizers; they were not removed" ;;
      wrapped "native restoration completed but deleting the receipt failed"
        (delete_receipt (om_Namespace m) (om_Name m) (mkPre (Some (om_UID m)) (Some (om_ResourceVersion m))))
  end.
Definition hook_verify (h : nativeHookOptions) (o : Options) (active : option nativePlan) : hprog (res unit) :=
  unit_of (within (nativeVerify active (ho_ControllerNamespace h) (ho_Deployment h) (ho_Container h) o)).

(** The Secret and the state between two steps of a reconcile *)
Definition hook_pass := hprog (res (option Secret * nativeHookState)).
Definition save (h : nativeHookOptions) (secret : option Secret) (state : nativeHookState) : hook_pass :=
  s <-! nativeSaveHookState h secret state ;; Ret (Ok (Some s, state)).
(** The resumption or the reversal of an interrupted operation *)
Definition settle_pending (h : nativeHookOptions) (o : Options) (image : string) (secret : option Secret) (state : nativeHookState) : hook_pass :=
  match hs_Pending state with
  | None => Ret (Ok (secret, state))
  | Some p =>
      if has_image image p then
        _ <-! within (installNativePlan p o true) ;;
        save h secret (with_receipts (Some p) None state)
      else if nativeReceiptHasImage (Previous p) image then
        _ <-! within (restoreNative p o (ho_OVN h) true false) ;;
        save h secret (with_receipts (Previous p) None state)
      else Ret (Err (Errorf "a different native revision is partially applied; retry that Helm revision or roll back to a recorded previous image before changing targets"))
  end.
(** The rollback loop: the active receipt is [p]. *)
Fixpoint roll_back (h : nativeHookOptions) (o : Options) (image : string) (p : nativePlan) (secret : option Secret) (state : nativeHookState)
    {struct p} : hook_pass :=
  match p with
  | Plan f q =>
      if negb (has_image image p) && nativeReceiptHasImage q image then
        x <-! save h secret (with_receipts (Some p) (Some p) state) ;;
        _ <-! within (restoreNative p o (ho_OVN h) true false) ;;
        y <-! save h (fst x) (with_receipts q None (snd x)) ;;
        match q with
        | Some q => roll_back h o image q (fst y) (snd y)
        | None => Ret (Ok y)
        end
      else Ret (Ok (secret, state))
  end.
Definition roll_back_all (h : nativeHookOptions) (o : Options) (image : string) (secret : option Secret) (state : nativeHookState) : hook_pass :=
  match hs_Active state with
  | Some p => roll_back h o image p secret state
  | None => Ret (Ok (secret, state))
  end.
Definition conflicts (b q : NativeBundle) : bool :=
  negb (nb_Target b =? nb_Target q)%string || negb (nb_SourceCommit b =? nb_SourceCommit q)%string ||
  negb (nativeImageReference (nb_BaseImage b) =? nativeImageReference (nb_BaseImage q))%string.
Definition install_bundle (h : nativeHookOptions) (o : Options) (b : NativeBundle) (secret : option Secret) (state : nativeHookState) : hook_pass :=
  plan <-! within (match hs_Active state with
                   | None => makeNativePlan (opt_Context o) (ho_ControllerNamespace h) (ho_Deployment h) (ho_Container h) b
                   | Some p => makeNativeUpgradePlan o p b
                   end) ;;
  stop negb (bool_decide (pf_InstallBlockers (fields plan) = [])) with Errorf "native Helm installation blocked" ;;
  x <-! save h secret (with_receipts (hs_Active state) (Some plan) state) ;;
  _ <-! within (installNativePlan plan o true) ;;
  save h (fst x) (with_receipts (Some plan) None (snd x)).
Definition hook_reconcile (h : nativeHookOptions) (o : Options) (bundle : res NativeBundle) (secret : option Secret) (state : nativeHookState) : hprog (res unit) :=
  b <-! lift bundle ;;
  _ <-! lift (validateNativeBundle b) ;;
  x <-! settle_pending h o (nb_Image b) secret state ;;
  y <-! roll_back_all h o (nb_Image b) (fst x) (snd x) ;;
  let active := hs_Active (snd y) in
  match active with
  | Some p =>
      if has_image (nb_Image b) p then
        stop conflicts b (pf_Bundle (fields p)) with Errorf "Helm revision bundle identity conflicts with the recorded immutable image" ;;
        hook_verify h o active
      else z <-! install_bundle h o b (fst y) (snd y) ;; hook_verify h o (hs_Active (snd z))
  | None => z <-! install_bundle h o b (fst y) (snd y) ;; hook_verify h o (hs_Active (snd z))
  end.
(** [bundle]: the content of the mounted file *)
Definition nativeHook (h : nativeHookOptions) (o : Options) (bundle : res NativeBundle) : hprog (res unit) :=
  x <-! nativeLoadHookState h ;;
  let '(secret, state) := x in
  if (ho_Action h =? "uninstall")%string then hook_uninstall h o secret state
  else if (ho_Action h =? "verify")%string then
    stop negb (bool_decide (hs_Pending state = None)) || bool_decide (hs_Active state = None)
      with Errorf "native Helm installation has no completed receipt; retry the failed Helm operation first" ;;
    hook_verify h o (hs_Active state)
  else hook_reconcile h o bundle secret state.
(** [runNativeHook] after its flags were parsed *)
Definition runNativeHook (h : nativeHookOptions) (o : Options) (bundle : res NativeBundle) : hprog (res unit) :=
  stop negb ((ho_Action h =? "reconcile")%string || (ho_Action h =? "uninstall")%string || (ho_Action h =? "verify")%string)
    with Errorf "internal native-hook requires --action reconcile|uninstall|verify and no positional arguments" ;;
  stop bad (IsDNS1123Subdomain (ho_Release h)) || (53 <? String.length (ho_Release h))%nat ||
       bad (IsDNS1123Label (ho_Namespace h)) || bad (IsDNS1123Subdomain (ho_Secret h))
    with Errorf "native hook release, release namespace, and state Secret names must be valid Kubernetes names" ;;
  stop (ho_Action h =? "reconcile")%string && (ho_BundleFile h =? "")%string
    with Errorf "native reconcile hook requires --bundle" ;;
  nativeHook h o bundle.

(** ** What the receipts say during a pass *)

(** Induction on a chain of receipts *)
Lemma chain_ind (P : nativePlan -> Prop) : (forall f q, match q with Some p => P p | None => True end -> P (Plan f q)) -> forall p, P p.
Proof. intros H. fix IH 1. intros [f [q|]]; apply H; [apply IH|exact I]. Qed.

Definition seen : event nans -> event hans := embedded (Ans2 := hans) Native (fun o x => x).
(** A lifecycle command keeps its own discipline on the calls it adds. *)
Lemma okp_within S R {A} (p : nprog (res A)) h P : (forall t c, S t c -> R (h ++ map seen t) (Native c)) ->
  okp S p [] P -> okp R (within p) h (fun h' a => exists t, h' = h ++ map seen t /\ P t a).
Proof. by apply okp_embed. Qed.

(** ** Planning and verifying only read *)

Notation reads := (fun _ : nhistory => harmless).
Lemma okp_image_reads d container b t : okp reads (nativeImagePreflight d container b) t (fun _ _ => True).
Proof.
  unfold nativeImagePreflight. destruct (nativeContainerIndex _ _); [|by apply okp_Ok]. destruct (_ !! _) as [c|]; [|done].
  destruct (digestImage _); [by apply okp_Ok|]. destruct (_ =? "")%string; [by apply okp_Ok|].
  eapply okp_call with (P := fun _ _ => True); [eapply wp_mono; [|by apply okp_snapshot]; done|].
  intros t1 [s|] _ _; [|by apply okp_Ok]. apply okp_if; intros _; [by apply okp_Ok|]. destruct (cut_byte _ _) as [[]|]; [|done]. by apply okp_Ok.
Qed.
Lemma okp_cluster_uid t : okp reads nativeClusterUID t (fun _ _ => True).
Proof. split; [done|]. intros [uid|e] _; simpl; [|done]. destruct (_ =? _)%string; [done|]. split; [apply extends_snoc|done]. Qed.
Ltac reading := first [by apply okp_get_crd|by apply okp_get_deployment|by apply okp_snapshot|by apply okp_acks|by apply okp_cluster
  |by apply okp_list_vpcs|apply okp_image_reads|apply okp_cluster_uid|apply okp_wrapped; reading].
Lemma okp_first_plan context ns deployment container b t :
  okp reads (makeNativePlan context ns deployment container b) t (fun _ p => Previous p = None /\ pf_Bundle (fields p) = b).
Proof.
  unfold makeNativePlan. apply okp_check. intros _ _. eapply okp_bind; [reading|]. intros t1 uid _ _.
  eapply okp_bind with (P := fun _ _ => True).
  { unfold nativeNoIntent. eapply okp_bind; [reading|]. intros t2 l _ _. by apply okp_lift. }
  intros t2 _ _ _. eapply okp_bind; [reading|]. intros t3 crd _ _. apply okp_stop. intros _. apply okp_check. intros props _.
  apply okp_check. intros _ _. eapply okp_bind; [reading|]. intros t4 d _ _. apply okp_check. intros i _.
  eapply okp_bind; [reading|]. intros t5 preflight _ _. destruct (nativePlanPatches _ _) as [cp dp]. by apply okp_Ok.
Qed.
Lemma okp_upgrade_plan o previous b t : okp reads (makeNativeUpgradePlan o previous b) t (fun _ p => Previous p = Some previous /\ pf_Bundle (fields p) = b).
Proof.
  unfold makeNativeUpgradePlan. do 2 (apply okp_check; intros _ _). eapply okp_bind; [reading|]. intros t1 [] _ _.
  do 2 (apply okp_stop; intros _). eapply okp_bind; [reading|]. intros t2 crd _ _. eapply okp_bind; [reading|]. intros t3 d _ _.
  apply okp_check. intros i _. apply okp_check. intros e _. apply okp_stop. intros _. eapply okp_bind; [reading|]. intros t4 s _ _.
  apply okp_stop. intros _. eapply okp_bind; [reading|]. intros t5 [] _ _. destruct (nativePlanPatches _ _) as [cp dp].
  apply okp_check. intros _ _. by apply okp_Ok.
Qed.
(** The installation was seen to be what the receipt installs, running and acknowledged. *)
Definition verified (p : nativePlan) (o : Options) (ns deployment container : string) (t : nhistory) : Prop :=
  right_cluster t p o /\ exists e crd d i c pods,
    nativeExpectedState p = Ok e /\ asked t GetCRD (Ok crd) /\ asked t (GetDeployment ns deployment) (Ok d) /\
    installed p e crd d = true /\ validateNativeDeployment d container = Ok i /\ pt_Containers (dm_Template d) !! i = Some c /\
    converged t d container (cr_Image c) pods /\ exists l, asked t ListVpcs (Ok l) /\ all_acks false l = Ok tt.
Lemma okp_status ns deployment container t : okp reads (nativeStatus ns deployment container) t (fun _ _ => True).
Proof.
  unfold nativeStatus. eapply okp_bind; [reading|]. intros t1 uid _ _. eapply okp_bind; [reading|]. intros t2 crd _ _.
  apply okp_check. intros props _. eapply okp_bind; [reading|]. intros t3 d _ _. apply okp_check. intros i _.
  destruct (_ !! i) as [c|]; [|done]. eapply okp_bind; [reading|]. intros t4 s _ _. eapply okp_bind; [reading|]. intros t5 l _ _.
  by apply okp_Ok.
Qed.
Lemma okp_verify p ns deployment container o t : okp reads (nativeVerify (Some p) ns deployment container o) t
  (fun t' _ => verified p o ns deployment container t').
Proof.
  unfold nativeVerify. eapply okp_bind; [reading|]. intros t1 crd _ ->. apply okp_check. intros props _. apply okp_stop. intros _.
  eapply okp_bind; [reading|]. intros t2 d _ ->. apply okp_check. intros i HV.
  set (t2 := (t ++ _) ++ _). assert (asked t2 GetCRD (Ok crd)) as A1 by by apply asked_app, asked_snoc.
  assert (asked t2 (GetDeployment ns deployment) (Ok d)) as A2 by apply asked_snoc.
  eapply okp_bind with (P := fun t' _ => right_cluster t' p o /\ exists e, nativeExpectedState p = Ok e /\ installed p e crd d = true).
  { simpl. eapply okp_bind; [reading|]. intros t3 [] _ HC. apply okp_check. intros e HE. apply okp_stop. intros HI%negb_false_iff.
    apply okp_Ok. split; [done|by exists e]. }
  intros t3 [] H3 [HC (e & HE & HI)]. destruct (_ !! i) as [c|] eqn:EI; [|done].
  eapply okp_bind; [reading|]. intros t4 s H4 HS. apply okp_stop. intros HR%negb_false_iff.
  eapply okp_bind; [reading|]. intros t5 [] H5 (t0 & l & -> & HL). eapply okp_mono; [apply okp_status|]. intros t6 r H6 _.
  split; [eapply right_cluster_extends; [|exact HC]; extending|]. exists e, crd, d, i, c, (sn_Pods s).
  split_and!; try done; try (eapply asked_extends; [|eassumption]; extending).
  - eapply converged_extends; [|by apply HS]. extending.
  - exists l. split; [|done]. eapply asked_extends; [exact H6|apply asked_snoc].
Qed.

Section pass.
Variables (h : nativeHookOptions) (o : Options) (bundle : res NativeBundle).

(** A call on the Secret shows what it holds. *)
Inductive shows : event hans -> option Secret -> nativeHookState -> Prop :=
| sh_none e (HN : IsNotFound e = true) : shows (Ev (GetReceipt (ho_Namespace h) (ho_Secret h)) (Err e)) None (new_state h)
| sh_read s st (HD : decode_receipt h s = Ok st) : shows (Ev (GetReceipt (ho_Namespace h) (ho_Secret h)) (Ok s)) (Some s) st
| sh_created s st data (HM : MarshalState st = Ok data) : shows (Ev (CreateReceipt (new_receipt h data)) (Ok s)) (Some s) st
| sh_updated s0 s st data (HM : MarshalState st = Ok data) : shows (Ev (UpdateReceipt (with_state data s0)) (Ok s)) (Some s) st.
(** The last call on the Secret left [secret] with [st], and the calls since were [t]. *)
Definition holds (hh : hhistory) (secret : option Secret) (st : nativeHookState) (t : nhistory) : Prop :=
  exists h0 e, hh = h0 ++ e :: map seen t /\ shows e secret st.
(** The state machine of the receipts: [t] are the calls since the last state. *)
Inductive receipt_step (st : nativeHookState) (t : nhistory) : nativeHookState -> Prop :=
| rs_begin_rollback p (HA : hs_Active st = Some p) (HP : hs_Pending st = None) :
    receipt_step st t (with_receipts (Some p) (Some p) st)
| rs_begin_install p (HA : Previous p = hs_Active st) (HP : hs_Pending st = None) (HB : pf_InstallBlockers (fields p) = []) :
    receipt_step st t (with_receipts (hs_Active st) (Some p) st)
| rs_installed p (HP : hs_Pending st = Some p) (HI : in_place p true t) : receipt_step st t (with_receipts (Some p) None st)
| rs_reversed p (HP : hs_Pending st = Some p) (HR : restored p false t) : receipt_step st t (with_receipts (Previous p) None st).
(** The extension is in neither section of the definition. *)
Definition absent (t : nhistory) : Prop :=
  exists crd props, asked t GetCRD (Ok crd) /\ nativeCRDProperties (un_Object (vc_Object crd)) = Ok props /\ no_extension props = Ok tt.
Definition returned (st : nativeHookState) (t : nhistory) : Prop :=
  match newest st with Some p => restored p true t | None => absent t end.

Inductive hook_call (hh : hhistory) : hop -> Prop :=
| hk_read c (Hc : harmless c) : hook_call hh (Native c)
| hk_get : hook_call hh (GetReceipt (ho_Namespace h) (ho_Secret h))
| hk_install secret st t p c (Hh : holds hh secret st t) (Hp : hs_Pending st = Some p) (Hc : install_call p o true t c) :
    hook_call hh (Native c)
| hk_rollback secret st t p c (Hh : holds hh secret st t) (Hp : hs_Pending st = Some p)
    (Hc : restore_call p o (ho_OVN h) true false t c) : hook_call hh (Native c)
| hk_uninstall secret st t p c (Ha : ho_Action h = "uninstall") (Hh : holds hh secret st t) (Hp : newest st = Some p)
    (Hc : restore_call p o (ho_OVN h) true true t c) : hook_call hh (Native c)
| hk_create st st' t data (Hh : holds hh None st t) (Hs : receipt_step st t st') (Hd : MarshalState st' = Ok data) :
    hook_call hh (CreateReceipt (new_receipt h data))
| hk_update s st st' t data (Hh : holds hh (Some s) st t) (Hs : receipt_step st t st') (Hd : MarshalState st' = Ok data) :
    hook_call hh (UpdateReceipt (with_state data s))
| hk_delete s st t (Ha : ho_Action h = "uninstall") (Hh : holds hh (Some s) st t) (Hf : om_Finalizers (sc_Meta s) = [])
    (Hr : returned st t) :
    hook_call hh (DeleteReceipt (om_Namespace (sc_Meta s)) (om_Name (sc_Meta s))
                    (mkPre (Some (om_UID (sc_Meta s))) (Some (om_ResourceVersion (sc_Meta s))))).

Lemma holds_more hh secret st t t' : holds hh secret st t -> holds (hh ++ map seen t') secret st (t ++ t').
Proof. intros (h0 & e & -> & HS). exists h0, e. split; [|done]. by rewrite map_app, <- List.app_assoc. Qed.
Lemma okp_command S {A} (p : nprog (res A)) hh secret st P : holds hh secret st [] ->
  (forall t c, holds (hh ++ map seen t) secret st t -> S t c -> hook_call (hh ++ map seen t) (Native c)) ->
  okp S p [] P -> okp hook_call (within p) hh (fun hh' a => exists t, holds hh' secret st t /\ P t a).
Proof.
  intros HH HS HP. eapply okp_mono; [apply (okp_within S); [|exact HP]|].
  - intros t c. apply HS. by apply (holds_more _ _ _ []).
  - intros hh' a _ (t & -> & Ha). exists t. split; [by apply (holds_more _ _ _ [])|done].
Qed.
Lemma okp_save hh secret st st' t : holds hh secret st t -> receipt_step st t st' ->
  okp hook_call (save h secret st') hh (fun hh' x => snd x = st' /\ holds hh' (fst x) st' []).
Proof.
  intros HH HS. unfold save. eapply okp_bind with (P := fun hh' s => holds hh' (Some s) st' []).
  - unfold nativeSaveHookState. destruct (MarshalState st') as [data|] eqn:EM; [|done]. apply okp_stop. intros _.
    destruct secret as [s|]; apply okp_wrapped; (split; [by econstructor|]); intros [s'|] _; try done;
      (split; [apply extends_snoc|]); eexists hh, _; (split; [done|]); by constructor.
  - intros hh' s _ Hs. apply okp_Ok. done.
Qed.
Lemma okp_load hh : okp hook_call (nativeLoadHookState h) hh (fun hh' x => holds hh' (fst x) (snd x) []).
Proof.
  split; [apply hk_get|]. intros [s|e] _; simpl.
  - destruct (decode_receipt h s) as [st|] eqn:ED; simpl; [|done]. split; [apply extends_snoc|]. eexists hh, _. split; [done|]. by apply sh_read.
  - destruct (IsNotFound e) eqn:EN; simpl; [|done]. split; [apply extends_snoc|]. eexists hh, _. split; [done|]. by apply sh_none.
Qed.

Lemma okp_hook_install hh secret st p : holds hh secret st [] -> hs_Pending st = Some p ->
  okp hook_call (within (installNativePlan p o true)) hh (fun hh' _ => exists t, holds hh' secret st t /\ in_place p true t).
Proof.
  intros HH HP. eapply okp_command; [done| |apply okp_install]. intros t c Ht Hc. by eapply hk_install.
Qed.
Lemma okp_hook_restore hh secret st p : holds hh secret st [] -> hs_Pending st = Some p ->
  okp hook_call (within (restoreNative p o (ho_OVN h) true false)) hh (fun hh' _ => exists t, holds hh' secret st t /\ restored p false t).
Proof.
  intros HH HP. eapply okp_command; [done| |apply okp_restore]. intros t c Ht Hc. by eapply hk_rollback.
Qed.
(** Between two steps of a reconcile nothing is pending. *)
Definition settled (hh : hhistory) (x : option Secret * nativeHookState) : Prop :=
  holds hh (fst x) (snd x) [] /\ hs_Pending (snd x) = None.
Lemma okp_finish hh secret st t p q : holds hh secret st t -> hs_Pending st = Some p ->
  (in_place p true t /\ q = Some p \/ restored p false t /\ q = Previous p) ->
  okp hook_call (save h secret (with_receipts q None st)) hh (fun hh' x => settled hh' x /\ hs_Active (snd x) = q).
Proof.
  intros HH HP HQ. eapply okp_mono.
  - eapply okp_save; [exact HH|]. destruct HQ as [[HI ->]|[HR ->]]; [by apply rs_installed|by apply rs_reversed].
  - intros hh' [s st'] _. simpl. intros [-> Hs]. by split.
Qed.
Lemma okp_settle hh secret st image : holds hh secret st [] ->
  okp hook_call (settle_pending h o image secret st) hh (fun hh' x => settled hh' x).
Proof.
  intros HH. unfold settle_pending. destruct (hs_Pending st) as [p|] eqn:EP; [|by apply okp_Ok].
  apply okp_if; intros _; [|apply okp_if; intros _; [|done]];
    (eapply okp_bind; [by first [apply okp_hook_install|apply okp_hook_restore]|]); intros hh1 [] _ (t & HH1 & HI);
    (eapply okp_mono; [eapply okp_finish; eauto|by intros hh2 x _ []]).
Qed.
Lemma okp_roll_back image p hh secret st : holds hh secret st [] -> hs_Pending st = None -> hs_Active st = Some p ->
  okp hook_call (roll_back h o image p secret st) hh (fun hh' x => settled hh' x).
Proof.
  revert hh secret st. induction p as [f [q|] IH] using chain_ind; intros hh secret st HH HP HA; cbn [roll_back].
  - apply okp_if; intros _; [|by apply okp_Ok].
    eapply okp_bind; [eapply okp_save; [exact HH|by apply rs_begin_rollback]|]. intros hh1 [s1 st1] _. simpl. intros [-> HH1].
    eapply okp_bind; [by eapply okp_hook_restore|]. intros hh2 [] _ (t & HH2 & HR).
    eapply okp_bind; [by eapply okp_finish; eauto|]. intros hh3 [s3 st3] _. simpl. intros [[HH3 HP3] HA3]. by apply IH.
  - rewrite andb_false_r. by apply okp_Ok.
Qed.

(** What a successful reconcile ends with *)
Definition completed (b : NativeBundle) (hh : hhistory) : Prop :=
  exists secret st t p, holds hh secret st t /\ hs_Pending st = None /\ hs_Active st = Some p /\
    nb_Image (pf_Bundle (fields p)) = nb_Image b /\ verified p o (ho_ControllerNamespace h) (ho_Deployment h) (ho_Container h) t.
Lemma okp_hook_verify hh secret st p : holds hh secret st [] -> hs_Active st = Some p ->
  okp hook_call (hook_verify h o (hs_Active st)) hh (fun hh' _ => exists t, holds hh' secret st t /\
    verified p o (ho_ControllerNamespace h) (ho_Deployment h) (ho_Container h) t).
Proof.
  intros HH HA. unfold hook_verify, unit_of. rewrite HA. eapply okp_bind.
  - eapply okp_command; [exact HH| |apply okp_verify]. intros t c _ Hc. by apply hk_read.
  - intros hh' r _ HV. by apply okp_Ok.
Qed.
Lemma okp_install_bundle b hh x : settled hh x ->
  okp hook_call (install_bundle h o b (fst x) (snd x)) hh (fun hh' y => settled hh' y /\ exists p,
    hs_Active (snd y) = Some p /\ pf_Bundle (fields p) = b).
Proof.
  destruct x as [secret st]. intros [HH HP]. simpl in *. unfold install_bundle.
  eapply okp_bind with (P := fun hh' p => (exists t, holds hh' secret st t) /\ Previous p = hs_Active st /\ pf_Bundle (fields p) = b).
  { eapply okp_mono; [eapply (okp_command reads _ _ _ _ (fun _ p => Previous p = hs_Active st /\ pf_Bundle (fields p) = b)); [exact HH| |]|].
    - intros t c _ Hc. by apply hk_read.
    - destruct (hs_Active st) as [a|]; [apply okp_upgrade_plan|apply okp_first_plan].
    - intros hh' p _ (t & Ht & HX). split; [by exists t|done]. }
  intros hh1 plan _ ((t1 & HH1) & HA & HB). apply okp_stop. intros HI%negb_false_iff%bool_decide_eq_true.
  eapply okp_bind; [eapply okp_save; [exact HH1|by apply rs_begin_install]|]. intros hh2 [s2 st2] _. simpl. intros [-> HH2].
  eapply okp_bind; [by eapply okp_hook_install|]. intros hh3 [] _ (t & HH3 & HIP).
  eapply okp_mono; [by eapply okp_finish; eauto|]. intros hh4 y _ [HS HY]. split; [done|]. by exists plan.
Qed.
Lemma okp_reconcile hh secret st : holds hh secret st [] ->
  okp hook_call (hook_reconcile h o bundle secret st) hh (fun hh' _ => exists b, bundle = Ok b /\ completed b hh').
Proof.
  intros HH. unfold hook_reconcile. apply okp_check. intros b Hb. apply okp_check. intros _ _.
  eapply okp_bind; [by apply okp_settle|]. intros hh1 [s1 st1] _ [HH1 HP1]. simpl in *.
  eapply okp_bind with (P := settled).
  { unfold roll_back_all. simpl. destruct (hs_Active st1) as [p|] eqn:EA; [by apply okp_roll_back|]. by apply okp_Ok. }
  intros hh2 y _ HS.
  assert (okp hook_call (z <-! install_bundle h o b (fst y) (snd y) ;; hook_verify h o (hs_Active (snd z))) hh2 (fun hh' _ => completed b hh')) as HI.
  { eapply okp_bind; [by apply okp_install_bundle|]. intros hh3 [s3 st3] _ [[HH3 HP3] (p & HA & HB)]. simpl in *.
    eapply okp_mono; [by eapply okp_hook_verify|]. intros hh4 [] _ (t & HH4 & HV). exists s3, st3, t, p. by rewrite HB. }
  eapply okp_mono with (P := fun hh' _ => completed b hh'); [|by exists b].
  destruct (hs_Active (snd y)) as [p|] eqn:EA; [|exact HI]. apply okp_if; intros HE; [|exact HI].
  apply String.eqb_eq in HE. apply okp_stop. intros _. destruct HS as [HH2 HP2]. rewrite <- EA.
  eapply okp_mono; [by eapply okp_hook_verify|]. intros hh3 [] _ (t & HH3 & HV). by exists (fst y), (snd y), t, p.
Qed.
(** What a successful uninstall ends with: the receipts lead back to the stock state, which
    was seen, and the last call removed the Secret they were in. *)
Definition removed (hh : hhistory) : Prop :=
  exists hh0 secret st t, holds hh0 secret st t /\ returned st t /\
    match secret with
    | None => hh = hh0
    | Some s => hh = hh0 ++ [Ev (DeleteReceipt (om_Namespace (sc_Meta s)) (om_Name (sc_Meta s))
                                  (mkPre (Some (om_UID (sc_Meta s))) (Some (om_ResourceVersion (sc_Meta s))))) (Ok tt)]
    end.
Lemma okp_nothing t : okp reads nothing_installed t (fun t' _ => absent t').
Proof.
  unfold nothing_installed. eapply okp_bind; [reading|]. intros t1 crd _ ->. apply okp_check. intros props HP. apply okp_lift.
  intros [] HN. exists crd, props. split_and!; [apply asked_snoc|done|]. by destruct (no_extension props) as [[]|].
Qed.
Lemma okp_uninstall hh secret st : ho_Action h = "uninstall"%string -> holds hh secret st [] ->
  okp hook_call (hook_uninstall h o secret st) hh (fun hh' _ => removed hh').
Proof.
  intros HA HH. unfold hook_uninstall. eapply okp_bind with (P := fun hh' _ => exists t, holds hh' secret st t /\ returned st t).
  { unfold returned. destruct (newest st) as [p|] eqn:EN.
    - eapply okp_command; [exact HH| |apply okp_restore]. intros t c Ht Hc. by eapply hk_uninstall.
    - eapply okp_command; [exact HH| |apply okp_nothing]. intros t c _ Hc. by apply hk_read. }
  intros hh1 [] _ (t & HH1 & HR). destruct secret as [s|]; [|apply okp_Ok; by exists hh1, None, st, t].
  apply okp_stop. intros HF%negb_false_iff%bool_decide_eq_true. apply okp_wrapped.
  split; [by eapply hk_delete|]. intros [[]|e] _; [|done]. split; [apply extends_snoc|]. by exists hh1, (Some s), st, t.
Qed.
(** What the success of an action means *)
Definition succeeded (hh : hhistory) : Prop :=
  (ho_Action h = "reconcile"%string /\ (exists b, bundle = Ok b /\ completed b hh)) \/
  (ho_Action h = "uninstall"%string /\ removed hh) \/
  (ho_Action h = "verify"%string /\ exists secret st t p, holds hh secret st t /\ hs_Pending st = None /\ hs_Active st = Some p /\
     verified p o (ho_ControllerNamespace h) (ho_Deployment h) (ho_Container h) t).
Lemma okp_hook : okp hook_call (runNativeHook h o bundle) [] (fun hh' _ => succeeded hh').
Proof.
  unfold runNativeHook. apply okp_stop. intros HA. do 2 (apply okp_stop; intros _). unfold nativeHook.
  eapply okp_bind; [apply okp_load|]. intros hh1 [secret st] _ HH. simpl in HH.
  apply okp_if; [intros EU%String.eqb_eq|intros EU; apply okp_if; intros EV].
  - eapply okp_mono; [by apply okp_uninstall|]. intros hh2 [] _ HR. right. by left.
  - apply String.eqb_eq in EV. apply okp_stop. intros [HP HN]%orb_false_iff. apply negb_false_iff, bool_decide_eq_true in HP.
    apply bool_decide_eq_false in HN. destruct (hs_Active st) as [p|] eqn:EA; [|done]. rewrite <- EA.
    eapply okp_mono; [by eapply okp_hook_verify|]. intros hh2 [] _ (t & HH2 & HV). right. right. split; [done|]. by exists secret, st, t, p.
  - rewrite EU, EV, orb_false_r in HA. simpl in HA. rewrite orb_false_r in HA. apply negb_false_iff, String.eqb_eq in HA.
    eapply okp_mono; [by apply okp_reconcile|]. intros hh2 [] _ HC. left. by split.
Qed.

(** C8: A Helm hook changes the cluster only under a receipt that is already stored. Every
    change is one an install, rollback or uninstall of that receipt may make given the calls
    since it was stored. The stored receipts follow their state machine: an operation begins
    by storing its plan as pending, and the plan becomes the active receipt, or gives way to
    the previous one, only after it was seen in place, or seen restored. The Secret is
    updated at the version that was read, and deleted only by an uninstall that saw the
    stock state. Success means: a reconcile ends with the bundle's receipt active, nothing
    pending and the installation verified; an uninstall with the stock state seen and the
    Secret deleted. *)
Theorem hooks_act_under_stored_receipts :
  obeys hook_call (runNativeHook h o bundle) /\
  forall hh, exec (runNativeHook h o bundle) hh (Ret (Ok tt)) -> succeeded hh.
Proof. split; [eapply okp_obeys, okp_hook|]. intros hh HX. exact (okp_exec _ _ _ _ _ okp_hook HX). Qed.
End pass.

(** ** The hook ends *)

Definition stores (o : hop) : bool := match o with CreateReceipt _ | UpdateReceipt _ => true | _ => false end.
(** The receipts a history stores *)
Definition stored (hh : hhistory) : nat := List.length (List.filter (fun e => stores (ev_op e)) hh).
Lemma stored_app hh hh' : stored (hh ++ hh') = (stored hh + stored hh')%nat.
Proof. unfold stored. by rewrite List.filter_app, List.length_app. Qed.
Lemma stored_seen t : stored (map seen t) = O.
Proof. induction t as [|[o x] t IH]; [done|exact IH]. Qed.

Section budget.
Variable budget : nat.
(** A receipt is stored while the budget lasts. *)
Definition affordable (hh : hhistory) (o : hop) : Prop := stores o = true -> (stored hh < budget)%nat.
(** [p] stores at most [n] receipts, and [P] holds of its result. *)
Definition costs {A} (n : nat) (p : hprog (res A)) (P : A -> Prop) : Prop := forall hh, (stored hh + n <= budget)%nat ->
  okp affordable p hh (fun hh' a => (stored hh' <= stored hh + n)%nat /\ P a).

Lemma costs_bind {A B} m n (p : hprog (res A)) (f : A -> hprog (res B)) P Q :
  costs m p P -> (forall a, P a -> costs n (f a) Q) -> costs (m + n) (bind_ok p f) Q.
Proof.
  intros HP HF hh HB. eapply okp_bind; [apply HP; lia|]. intros hh1 a _ [H1 Ha].
  eapply okp_mono; [apply (HF a Ha); lia|]. intros hh2 b _ [H2 Hb]. split; [lia|done].
Qed.
Lemma costs_Ok {A} (a : A) (P : A -> Prop) : P a -> costs 0 (Ret (Ok a)) P.
Proof. intros H hh _. apply okp_Ok. split; [lia|done]. Qed.
Lemma costs_less {A} m n (p : hprog (res A)) P : (m <= n)%nat -> costs m p P -> costs n p P.
Proof. intros HL HP hh HB. eapply okp_mono; [apply HP; lia|]. intros hh' a _ [H Ha]. split; [lia|done]. Qed.
Lemma costs_check {A B} n (r : res A) (f : A -> hprog (res B)) P :
  (forall a, r = Ok a -> costs n (f a) P) -> costs n (bind_ok (lift r) f) P.
Proof. intros H hh HB. apply okp_check. intros a E. by apply H. Qed.
Lemma costs_stop {A} n (c : bool) e (k : hprog (res A)) P : costs n k P -> costs n (stop c with e ;; k) P.
Proof. intros H hh HB. apply okp_stop. intros _. by apply H. Qed.
Lemma costs_Err {A} n e (P : A -> Prop) : costs n (Ret (Err e)) P.
Proof. done. Qed.
Lemma wp_reads_only {A} (p : nprog A) hh : wp any_answer affordable (within p) hh (fun hh' _ => extends hh hh' /\ stored hh' = stored hh).
Proof.
  revert hh. induction p as [a|o k IH]; intros hh; simpl; [by split; [apply extends_refl|]|]. split; [done|]. intros x _.
  eapply wp_mono; [|apply IH]. intros hh' a. simpl. rewrite stored_app. intros [HE HS]. split; [|rewrite HS; simpl; unfold stored; simpl; lia].
  eapply extends_trans; [apply extends_snoc|exact HE].
Qed.
Lemma costs_within {A} (p : nprog (res A)) : costs 0 (within p) (fun _ => True).
Proof. intros hh _. eapply wp_mono; [|apply wp_reads_only]. intros hh' [a|] [HE HS]; [|done]. split; [done|]. split; [lia|done]. Qed.
Lemma costs_save h secret st : costs 1 (save h secret st) (fun x => snd x = st).
Proof.
  unfold save, nativeSaveHookState. intros hh HB. eapply okp_bind with (P := fun hh' _ => stored hh' = S (stored hh)).
  - apply okp_check. intros data _. apply okp_stop. intros _.
    destruct secret; apply okp_wrapped; (split; [intros _; lia|]); intros [s1|] _; try done;
      (split; [apply extends_snoc|]); rewrite stored_app; unfold stored at 2; simpl; lia.
  - intros hh' s _ HS. apply okp_Ok. simpl. split; [lia|done].
Qed.
(** The chain of the active receipt *)
Definition depth (p : option nativePlan) : nat := match p with Some p => List.length (receipts p) | None => O end.
Definition shallow (st : nativeHookState) : Prop := (depth (hs_Active st) <= 33)%nat /\ (depth (hs_Pending st) <= 33)%nat.
Lemma depth_previous p : (depth (Previous p) <= List.length (receipts p))%nat.
Proof. destruct p as [f [q|]]; simpl; lia. Qed.
Lemma costs_roll_back h o image p secret st : hs_Active st = Some p ->
  costs (2 * (List.length (receipts p) - 1)) (roll_back h o image p secret st) (fun _ => True).
Proof.
  revert secret st. induction p as [f q IH] using chain_ind. intros secret st HA. cbn [roll_back].
  destruct (_ && _) eqn:EC; [|eapply costs_less; [|by apply costs_Ok]; lia].
  destruct q as [q|]; [|by rewrite andb_false_r in EC].
  cbn [receipts List.length]. destruct (receipts q) as [|r l] eqn:ER; [by destruct q as [? []]|]. cbn [List.length] in *.
  apply (costs_less (1 + (0 + (1 + 2 * (S (List.length l) - 1))))); [lia|].
  eapply costs_bind; [apply costs_save|]. intros x Hx. eapply costs_bind; [apply costs_within|]. intros [] _.
  eapply costs_bind; [apply costs_save|]. intros y Hy. apply IH. by rewrite Hy, Hx.
Qed.
Lemma valid_shallow h p l : valid_receipts h (p :: l) = Ok tt -> (depth p <= 33)%nat /\ valid_receipts h l = Ok tt.
Proof.
  destruct p as [p|]; simpl; [|intros H; split; [lia|done]]. destruct (validateNativePlan p) as [[]|] eqn:EV; simpl; [|done].
  destruct (_ || _); simpl; [done|]. intros H. split; [|done]. apply validate_chain in EV as [HL _]. lia.
Qed.
Lemma decode_shallow h s st : decode_receipt h s = Ok st -> shallow st.
Proof.
  unfold decode_receipt. intros H. do 2 follow_step H. destruct (UnmarshalState _ _) as [st'|]; [|done]. cbn beta iota in H.
  follow_step H. destruct (valid_receipts _ _) as [[]|] eqn:EV; [|done]. injection H as <-.
  apply valid_shallow in EV as [HA [HP _]%valid_shallow]. done.
Qed.
Lemma costs_settle h o image secret st : shallow st ->
  costs 1 (settle_pending h o image secret st) (fun x => (depth (hs_Active (snd x)) <= 33)%nat).
Proof.
  intros [HA HP]. unfold settle_pending. destruct (hs_Pending st) as [p|] eqn:EP; [|eapply costs_less; [|by apply costs_Ok]; lia].
  assert (forall q, (depth q <= 33)%nat -> costs 1 (save h secret (with_receipts q None st)) (fun x => (depth (hs_Active (snd x)) <= 33)%nat)) as HS.
  { intros q Hq hh HB. eapply okp_mono; [by apply costs_save|]. intros hh' x _ [H ->]. done. }
  destruct (has_image image p); [|destruct (nativeReceiptHasImage _ _)]; [| |apply costs_Err];
    apply (costs_bind 0 1 _ _ _ _ (costs_within _)); intros [] _; apply HS; [done|].
  pose proof (depth_previous p). simpl in HP. lia.
Qed.
Lemma costs_reconcile h o bundle secret st : shallow st -> costs 67 (hook_reconcile h o bundle secret st) (fun _ => True).
Proof.
  intros HS. unfold hook_reconcile. apply costs_check. intros b _. apply costs_check. intros _ _.
  apply (costs_bind 1 66 _ _ _ _ (costs_settle _ _ _ _ _ HS)). intros [s1 st1] HD. simpl in *.
  apply (costs_bind 64 2) with (P := fun _ => True).
  { unfold roll_back_all. destruct (hs_Active st1) as [p|] eqn:EA; [|eapply costs_less; [|by apply costs_Ok]; lia].
    eapply costs_less; [|by apply costs_roll_back]. simpl in HD. lia. }
  intros y _. assert (forall active, costs 0 (hook_verify h o active) (fun _ => True)) as HV.
  { intros active. unfold hook_verify, unit_of. apply (costs_bind 0 0 _ _ _ _ (costs_within _)). intros r _. by apply costs_Ok. }
  assert (costs 2 (z <-! install_bundle h o b (fst y) (snd y) ;; hook_verify h o (hs_Active (snd z))) (fun _ => True)) as HI.
  { apply (costs_bind 2 0) with (P := fun _ => True); [|auto]. unfold install_bundle.
    apply (costs_bind 0 2 _ _ _ _ (costs_within _)). intros plan _. apply costs_stop.
    apply (costs_bind 1 1 _ _ _ _ (costs_save _ _ _)). intros x _. apply (costs_bind 0 1 _ _ _ _ (costs_within _)). intros [] _.
    intros hh HB. eapply okp_mono; [by apply costs_save|]. intros hh' z _ [H _]. done. }
  destruct (hs_Active (snd y)) as [p|]; [|exact HI]. destruct (has_image _ p); [|exact HI]. apply costs_stop.
  eapply costs_less; [|apply HV]. lia.
Qed.
Lemma costs_hook h o bundle : costs 67 (runNativeHook h o bundle) (fun _ => True).
Proof.
  unfold runNativeHook. do 3 apply costs_stop. unfold nativeHook. apply (costs_bind 0 67) with (P := fun x => shallow (snd x)).
  - intros hh HB. split; [done|]. intros [s|e] _; simpl.
    + destruct (decode_receipt h s) as [st|] eqn:ED; [|done]. split; [apply extends_snoc|]. rewrite stored_app. unfold stored at 2. simpl.
      split; [lia|by eapply decode_shallow].
    + destruct (IsNotFound e); [|done]. split; [apply extends_snoc|]. rewrite stored_app. unfold stored at 2. simpl.
      split; [lia|]. split; simpl; lia.
  - intros [secret st] HS. simpl in HS. destruct (_ =? "uninstall")%string; [|destruct (_ =? "verify")%string; [|by apply costs_reconcile]].
    + apply (costs_bind 0 67 _ _ _ _ (costs_within _)). intros [] _. destruct secret as [s|]; [|eapply costs_less; [|by apply costs_Ok]; lia].
      apply costs_stop. intros hh HB. apply okp_wrapped. split; [done|]. intros [[]|] _; [|done]. split; [apply extends_snoc|].
      rewrite stored_app. unfold stored at 2. simpl. split; [lia|done].
    + apply costs_stop. apply (costs_bind 0 67 _ _ _ _ (costs_within _)). intros r _. eapply costs_less; [|by apply costs_Ok]. lia.
Qed.
Lemma affordable_bound hh : (forall h1 e h2, hh = h1 ++ e :: h2 -> affordable h1 (ev_op e)) -> (stored hh <= budget)%nat.
Proof.
  induction hh as [|e hh IH] using rev_ind; intros H; [unfold stored; simpl; lia|]. rewrite stored_app.
  assert (stored hh <= budget)%nat as HL.
  { apply IH. intros h1 e1 h2 ->. apply (H h1 e1 (h2 ++ [e])). by rewrite <- List.app_assoc. }
  specialize (H hh e [] eq_refl). unfold affordable in H. unfold stored at 2. simpl. destruct (stores (ev_op e)); simpl; [|lia].
  specialize (H eq_refl). lia.
Qed.
End budget.

(** C18: A hook ends, whatever the cluster answers: every turn of the rollback loop goes one
    receipt down a chain of at most 33, so a pass, complete or cut off, stores at most 67
    receipts, one to finish an interrupted operation, two for each of 32 rollbacks and two
    for an install. *)
Theorem rollbacks_end h o bundle hh p : exec (runNativeHook h o bundle) hh p -> (stored hh <= 67)%nat.
Proof.
  intros HX. apply affordable_bound. intros h1 e h2 E.
  exact (okp_obeys (affordable 67) _ _ (costs_hook 67 h o bundle [] (le_n 67)) _ _ HX _ _ _ E).
Qed.
End hook.
