(* ===== verification/UserCommands.v ===== *)
(** * [internal/vpcctl]: the public commands and the chart hooks of the platform

    [resources.go], [doctor.go] and [platform_hook.go]: creating, listing, waiting for,
    deleting and draining the public objects, and the checks the charts run before they
    change or remove a component. What a command prints is its result. *)
From S2P Require Import Prelude GoStd Json JsonDecode NetIP Validation SiteConfig DestinationRoute PlatformConfig Prog Api GlobalApi GlobalConfig Infra Ovn NativePlan.
From S2P Require Import NativeLifecycle NativeSafety SiteConfig Api PlatformConfig Kube PlatformPlan.
Open Scope Z_scope.

(** ** Calls

    Those of the Kubernetes client, and the reads of a rollout and of the context. *)
Inductive uop :=
| Client (o : Kube.op)
| Rollout (o : nop).
Definition uans (o : uop) : Type := match o with Client o => Kube.ans o | Rollout o => nans o end.
Notation uprog := (prog uans).
Notation uhistory := (list (event uans)).
Definition rollout {A} (p : nprog A) : uprog A := embed (Ans2 := uans) Rollout (fun o x => x) p.

(** [wait.PollUntilContextCancel] with [immediate]: the condition is tried at once and
    then at every tick, until it gives a result, fails, or the context ends. *)
Fixpoint polls {A} (n : nat) (body : uprog (res (option A))) : uprog (res A) :=
  match n with
  | O => Ret (Err DeadlineExceeded)
  | S n =>
      x <-! body ;;
      match x with
      | Some a => Ret (Ok a)
      | None =>
          t <- rollout next_tick ;;
          match t with Some e => Ret (Err e) | None => polls n body end
      end
  end.
Class Polling := {
  PollUntilContextCancel : forall {A}, uprog (res (option A)) -> uprog (res A);
  Poll_polls : forall A (body : uprog (res (option A))), exists n, PollUntilContextCancel body = polls n body }.
(** [meta.FindStatusCondition]: documented to find the condition of a type. *)
Class Conditions := {
  FindStatusCondition : list Condition -> string -> option Condition;
  FindStatusCondition_find : forall l t, FindStatusCondition l t = List.find (fun c => (cd_Type c =? t)%string) l }.

(** ** Readiness *)

(** [resourceStatus] *)
Definition resourceStatus {k : kind} : object k -> Z * list Condition :=
  match k as k return object k -> Z * list Condition with
  | KVPC => fun v => (vt_ObservedGeneration (vpc_Status v), vt_Conditions (vpc_Status v))
  | KSubnet => fun s => (st_ObservedGeneration (sn_Status s), st_Conditions (sn_Status s))
  | _ => fun _ => (0, [])
  end.
Record doctorResource := mkDoctor { dr_Kind : string; dr_Name : string; dr_Phase : string; dr_Ready : bool; dr_Reason : string }.
Definition doctorObservation (kind : string) (m : ObjectMeta) (phase : string) (observed : Z) (conditions : list Condition) : doctorResource :=
  let r := mkDoctor kind (om_Name m) phase in
  if bool_decide (om_DeletionTimestamp m <> None) then r false "Terminating"
  else if negb (observed =? om_Generation m) then r false "StaleGeneration"
  else match List.find (fun c => (cd_Type c =? "Ready")%string) conditions with
       | None => r false "AwaitingController"
       | Some c =>
           if negb (cd_ObservedGeneration c =? om_Generation m) then r false "StaleCondition"
           else r (cd_Status c =? "True")%string (cd_Reason c)
       end.
Definition observe_vpc (v : VPC) : doctorResource :=
  doctorObservation "VPC" (vpc_Meta v) (vt_Phase (vpc_Status v)) (vt_ObservedGeneration (vpc_Status v)) (vt_Conditions (vpc_Status v)).
Definition observe_subnet (s : Subnet) : doctorResource :=
  doctorObservation "Subnet" (sn_Meta s) (st_Phase (sn_Status s)) (st_ObservedGeneration (sn_Status s)) (st_Conditions (sn_Status s)).
Definition observe_binding (b : NetworkBinding) : doctorResource :=
  doctorObservation "NetworkBinding" (nb_Meta b) (bt_Phase (nb_Status b)) (bt_ObservedGeneration (nb_Status b)) (bt_Conditions (nb_Status b)).

(** [platformCompletedBinding] *)
Definition platformCompletedBinding (b : NetworkBinding) : bool :=
  let m := nb_Meta b in let s := nb_Spec b in let t := nb_Status b in
  if (om_UID m =? "")%string || (om_Generation m <? 1) || (get (om_Annotations m) "platform.globalvpc.io/source-binding-uid" =? "")%string ||
     (oi_UID (nb_VPCRef s) =? "")%string || (nb_LocationRef s =? "")%string ||
     negb (om_Name m =? BindingName (oi_UID (nb_VPCRef s)) (nb_LocationRef s))%string ||
     negb (nb_Deleting s) || negb (bt_Phase t =? "Deleted")%string || negb (nb_Revision s =? Revision s)%string ||
     negb (bt_AppliedRevision t =? nb_Revision s)%string || negb (bt_ObservedGeneration t =? om_Generation m) ||
     negb (bool_decide (bt_Resources t = [])) || negb (bool_decide (bt_Gateways t = [])) ||
     negb (bool_decide (om_Finalizers m = [])) || bool_decide (om_DeletionTimestamp m <> None)
  then false
  else
    let ready := List.filter (fun c => (cd_Type c =? "Ready")%string) (bt_Conditions t) in
    forallb (fun c => (cd_Status c =? "False")%string && (cd_Reason c =? "CleanupComplete")%string &&
                      (cd_ObservedGeneration c =? om_Generation m)) ready &&
    (List.length ready =? 1)%nat.
Definition platformPendingBindings (l : list NetworkBinding) (allowLocalReceipts : bool) : Z :=
  Z.of_nat (List.length (List.filter (fun b => negb allowLocalReceipts || negb (platformCompletedBinding b)) l)).

Section commands.
Context {VAL : Validation} {POLL : Polling} {COND : Conditions} {READ : NestedReads} {NEST : NestedFields} {TMPL : TemplateEncoding} {SEL : Selectors}.
(** The API server the kubeconfig selects *)
Variable target : cluster.

Definition uget (k : kind) (ns name : string) : uprog (res (object k)) := call (Client (Kube.Get target k ns name)).
Definition ulist (k : kind) (s : selector) : uprog (res (list (object k))) := call (Client (Kube.ListObjects target k s)).
Definition ucreate (k : kind) (o : object k) : uprog (res (object k)) := call (Client (Kube.Create target k o)).
(** [c.Delete(ctx, o, client.Preconditions{UID: &uid, ResourceVersion: &rv})] *)
Definition udelete (k : kind) (o : object k) : uprog (res unit) :=
  call (Client (Kube.Delete target k (om_Namespace (meta_of o)) (om_Name (meta_of o))
                  (mkPre (Some (om_UID (meta_of o))) (Some (om_ResourceVersion (meta_of o)))))).

Definition resourceReadiness {k : kind} (o : object k) : string * string :=
  if bool_decide (om_DeletionTimestamp (meta_of o) <> None) then ("Terminating", "CleanupPending")
  else
    let '(observed, conditions) := resourceStatus o in
    match FindStatusCondition conditions "Ready" with
    | None => ("Pending", "NotReported")
    | Some ready =>
        if negb (observed =? om_Generation (meta_of o)) || negb (cd_ObservedGeneration ready =? om_Generation (meta_of o))
        then ("Stale", cd_Reason ready)
        else if (cd_Status ready =? "True")%string then ("Ready", cd_Reason ready)
        else if (cd_Status ready =? "Unknown")%string then ("Unknown", cd_Reason ready)
        else ("Pending", cd_Reason ready)
    end.
(** The condition of [resourceWait]. The wait for a deletion ends without an object; its
    callers do not use the one last seen. *)
Definition wait_round (k : kind) (ns name uid : string) (deleted : bool) : uprog (res (option (option (object k)))) :=
  e <- rollout context_err ;;
  match e with
  | Some e => Ret (Err e)
  | None =>
      x <- uget k ns name ;;
      match x with
      | Err e => Ret (if deleted && IsNotFound e then Ok (Some None) else Err e)
      | Ok o =>
          stop negb (om_UID (meta_of o) =? uid)%string with Errorf "was replaced (UID changed); refusing to accept a different resource" ;;
          if deleted then Ret (Ok None)
          else
            stop bool_decide (om_DeletionTimestamp (meta_of o) <> None) with Errorf "is terminating" ;;
            Ret (Ok (if (fst (resourceReadiness o) =? "Ready")%string then Some (Some o) else None))
      end
  end.
Definition resourceWait (k : kind) (ns name uid : string) (deleted : bool) : uprog (res (option (object k))) :=
  stop (uid =? "")%string with Errorf "cannot wait without an observed resource UID" ;;
  wrapped "wait for resource" (PollUntilContextCancel (wait_round k ns name uid deleted)).

(** ** The public commands *)

Inductive action := DoCreate | DoList | DoGet | DoWait | DoDelete.
#[export] Instance action_eq_dec : EqDecision action.
Proof. solve_decision. Defined.
(** The arguments of [runResources] after its flags were parsed *)
Record request := mkRequest {
  rq_Subnet : bool; rq_Action : action; rq_Name : string; rq_VPC : string; rq_VPCChanged : bool; rq_Location : string;
  rq_CIDR : string; rq_NetworkClass : string; rq_DryRun : bool; rq_Await : bool }.
Record settings := mkSettings { se_Namespace : string; se_Output : string }.
Definition kind_of (q : request) : kind := if rq_Subnet q then KSubnet else KVPC.
Definition resourceDNSName (value : string) : res unit :=
  reject bad (IsDNS1123Subdomain value) with Errorf "invalid name" ;; Ok tt.
Definition named (q : request) : bool := negb (bool_decide (rq_Action q = DoList)).
Definition check_request (s : settings) (q : request) : res unit :=
  reject (se_Namespace s =? "")%string
    with Errorf "a project namespace is required; set --namespace or a kubeconfig context namespace" ;;
  reject bad (IsDNS1123Label (se_Namespace s)) with Errorf "invalid project namespace" ;;
  reject negb (existsb (String.eqb (se_Output s)) [""; "table"; "json"; "yaml"]%string) with Errorf "unsupported output" ;;
  _ <-? (if named q then resourceDNSName (rq_Name q) else Ok tt) ;;
  _ <-? (if negb (rq_VPC q =? "")%string || rq_VPCChanged q then resourceDNSName (rq_VPC q) else Ok tt) ;;
  if negb (bool_decide (rq_Action q = DoCreate)) then Ok tt
  else
    reject rq_DryRun q && rq_Await q with Errorf "--dry-run and --wait cannot be combined" ;;
    if rq_Subnet q then
      _ <-? resourceDNSName (rq_VPC q) ;;
      _ <-? resourceDNSName (rq_Location q) ;;
      match Prefix (rq_CIDR q) with Ok _ => Ok tt | Err e => Err (Wrapf "invalid CIDR" e) end
    else resourceDNSName (rq_NetworkClass q).
Definition new_meta (s : settings) (q : request) : ObjectMeta := newMeta (rq_Name q) (se_Namespace s) ∅ ∅.
Definition resourceObject (s : settings) (q : request) : object (kind_of q) :=
  match rq_Subnet q as b return object (if b then KSubnet else KVPC) with
  | true => mkSubnet (new_meta s q) (mkSubnetSpec (rq_VPC q) (rq_Location q) (rq_CIDR q)) (mkSubnetStatus 0 "" "" "" "" "" [])
  | false => mkVPC (new_meta s q) (mkVPCSpec (rq_NetworkClass q)) (mkVPCStatus 0 0 "" [] [] [])
  end.

(** What is printed: objects, or that a deletion was requested, with whether the object
    is gone. *)
Inductive output :=
| Shown (k : kind) (l : list (object k))
| Deletion (gone : bool).
Definition shown (k : kind) (o : option (object k)) : res output :=
  match o with Some o => Ok (Shown k [o]) | None => Err (Errorf "unsupported resource output") end.
Definition refers_to (ns_name : string) (l : list Subnet) : list string :=
  sort_strings (map (fun s => om_Name (sn_Meta s)) (List.filter (fun s => (ss_VPCRef (sn_Spec s) =? ns_name)%string) l)).
(** A VPC is deleted only when its project has no Subnet that refers to it. *)
Definition no_subnets (ns name : string) : uprog (res unit) :=
  l <-! wrapped "check VPC Subnet dependencies" (ulist KSubnet (InNamespace ns)) ;;
  stop negb (bool_decide (refers_to name l = [])) with Errorf "VPC still has Subnets" ;;
  Ret (Ok tt).
Definition delete_resource (s : settings) (q : request) (o : object (kind_of q)) : uprog (res output) :=
  let m := meta_of o in
  _ <-! when (negb (rq_Subnet q)) (no_subnets (se_Namespace s) (rq_Name q)) ;;
  stop (om_UID m =? "")%string || (om_ResourceVersion m =? "")%string
    with Errorf "refusing deletion without an observed UID and resourceVersion" ;;
  _ <-! wrapped "delete (identity guarded)" (udelete (kind_of q) o) ;;
  _ <-! when (rq_Await q)
          (wrapped "deletion requested, but cleanup was not confirmed"
             (unit_of (resourceWait (kind_of q) (se_Namespace s) (rq_Name q) (om_UID m) true))) ;;
  if (se_Output s =? "json")%string || (se_Output s =? "yaml")%string then Ret (Ok (Shown (kind_of q) [o]))
  else Ret (Ok (Deletion (rq_Await q))).
Definition list_resources (s : settings) (q : request) : uprog (res output) :=
  if rq_Subnet q then
    l <-! wrapped "list Subnets" (ulist KSubnet (InNamespace (se_Namespace s))) ;;
    let l := if negb (rq_VPC q =? "")%string then List.filter (fun x => (ss_VPCRef (sn_Spec x) =? rq_VPC q)%string) l else l in
    Ret (Ok (Shown KSubnet (sort_by_key (fun x => om_Name (sn_Meta x)) l)))
  else
    l <-! wrapped "list VPCs" (ulist KVPC (InNamespace (se_Namespace s))) ;;
    Ret (Ok (Shown KVPC (sort_by_key (fun x => om_Name (vpc_Meta x)) l))).
Definition create_resource (s : settings) (q : request) : uprog (res output) :=
  let o := resourceObject s q in
  if rq_DryRun q then Ret (Ok (Shown (kind_of q) [o]))
  else
    o <-! wrapped "create" (ucreate (kind_of q) o) ;;
    r <-! (if rq_Await q
           then wrapped "was created but readiness was not confirmed"
                  (resourceWait (kind_of q) (se_Namespace s) (rq_Name q) (om_UID (meta_of o)) false)
           else Ret (Ok (Some o))) ;;
    lift (shown (kind_of q) r).
Definition runResources (s : settings) (q : request) : uprog (res output) :=
  _ <-! lift (check_request s q) ;;
  match rq_Action q with
  | DoCreate => create_resource s q
  | DoList => list_resources s q
  | _ =>
      o <-! wrapped "get" (uget (kind_of q) (se_Namespace s) (rq_Name q)) ;;
      match rq_Action q with
      | DoDelete => delete_resource s q o
      | DoWait =>
          r <-! resourceWait (kind_of q) (se_Namespace s) (rq_Name q) (om_UID (meta_of o)) false ;;
          lift (shown (kind_of q) r)
      | _ => Ret (Ok (Shown (kind_of q) [o]))
      end
  end.

(** [resourceDash] and the rows of the table that [resourcePrint] writes *)
Definition resourceDash (value : string) : string := if (value =? "")%string then "-" else value.
Definition vpc_row (v : VPC) : list string :=
  let '(state, reason) := resourceReadiness (k := KVPC) v in
  let class := if (vs_NetworkClassRef (vpc_Spec v) =? "")%string then "default" else vs_NetworkClassRef (vpc_Spec v) in
  let mappings := sort_strings (map (fun b => (br_LocationRef b ++ "=" ++ br_NativeVpcName b)%string)
                    (List.filter (fun b => negb (br_NativeVpcName b =? "")%string) (vt_Bindings (vpc_Status v)))) in
  [om_Namespace (vpc_Meta v); om_Name (vpc_Meta v); class; state; resourceDash reason; resourceDash (Join "," mappings)].
Definition subnet_row (s : Subnet) : list string :=
  let '(state, reason) := resourceReadiness (k := KSubnet) s in
  [om_Namespace (sn_Meta s); om_Name (sn_Meta s); ss_VPCRef (sn_Spec s); ss_LocationRef (sn_Spec s); ss_CIDR (sn_Spec s); state;
   resourceDash reason; resourceDash (st_NativeVpcName (sn_Status s)); resourceDash (st_NativeSubnetName (sn_Status s))].
Definition table (out : output) : res (list (list string)) :=
  match out with
  | Shown KVPC l => Ok (["NAMESPACE"; "NAME"; "CLASS"; "READY"; "REASON"; "NATIVE-VPCS"]%string :: map vpc_row l)
  | Shown KSubnet l =>
      Ok (["NAMESPACE"; "NAME"; "VPC"; "LOCATION"; "CIDR"; "READY"; "REASON"; "NATIVE-VPC"; "NATIVE-SUBNET"]%string :: map subnet_row l)
  | _ => Err (Errorf "unsupported resource output")
  end.

(** ** [runDoctor]

    The report is printed whether or not everything is ready. *)

Definition runDoctor (ns : string) : uprog (res (list doctorResource)) :=
  vpcs <-! wrapped "cannot list public VPCs" (ulist KVPC (InNamespace ns)) ;;
  subnets <-! wrapped "cannot list public Subnets" (ulist KSubnet (InNamespace ns)) ;;
  let report := map observe_vpc vpcs ++ map observe_subnet subnets in
  stop negb (forallb dr_Ready report)
    with Errorf "some resources have pending, stale or terminating configuration; inspect vpc/subnet get output" ;;
  Ret (Ok report).

(** ** [runDrain] *)

Definition drain_one (k : kind) (o : object k) : uprog (res unit) :=
  let m := meta_of o in
  e <- rollout context_err ;;
  match e with
  | Some e => Ret (Err e)
  | None =>
      if bool_decide (om_DeletionTimestamp m <> None) then Ret (Ok tt)
      else
        _ <-! when (bool_decide (k = KVPC))
                (children <-! ulist KSubnet (InNamespace (om_Namespace m)) ;;
                 stop existsb (fun s => (ss_VPCRef (sn_Spec s) =? om_Name m)%string) children
                   with Errorf "new Subnet appeared during drain; stop new intent before retrying" ;;
                 Ret (Ok tt)) ;;
        x <- udelete k o ;;
        Ret (match x with Err e => if IsNotFound e then Ok tt else Err e | Ok _ => Ok tt end)
  end.
Definition drain_wait (k : kind) (o : object k) : uprog (res (option (object k))) :=
  wrapped "cleanup remains pending; keep controllers running and remove attached workloads"
    (resourceWait k (om_Namespace (meta_of o)) (om_Name (meta_of o)) (om_UID (meta_of o)) true).
Definition drain_kind (projects : list string) (k : kind) : uprog (res unit) :=
  selected <-! collect (fun ns => ulist k (InNamespace ns)) projects ;;
  _ <-! collect (drain_one k) (List.concat selected) ;;
  _ <-! collect (drain_wait k) (List.concat selected) ;;
  Ret (Ok tt).
Definition drained_project (ns : string) : uprog (res unit) :=
  vpcs <-! ulist KVPC (InNamespace ns) ;;
  subnets <-! ulist KSubnet (InNamespace ns) ;;
  stop negb (List.length vpcs + List.length subnets =? 0)%nat
    with Errorf "new public resources appeared during drain; stop new intent before retrying" ;;
  Ret (Ok tt).
Fixpoint distinct_projects (seen : gset string) (l : list string) : res unit :=
  match l with
  | [] => Ok tt
  | p :: l =>
      reject bad (IsDNS1123Label p) || bool_decide (p ∈ seen) with Errorf "projects must be distinct valid namespaces" ;;
      distinct_projects ({[p]} ∪ seen) l
  end.
(** [projects]: the flags, [ns] the global namespace *)
Definition runDrain (projects : list string) (ns : string) : uprog (res unit) :=
  let projects := if bool_decide (projects = []) && negb (ns =? "")%string then [ns] else projects in
  stop bool_decide (projects = []) with Errorf "select a project with --project or global -n" ;;
  _ <-! lift (distinct_projects ∅ projects) ;;
  _ <-! drain_kind projects KSubnet ;;
  _ <-! drain_kind projects KVPC ;;
  _ <-! collect drained_project projects ;;
  Ret (Ok tt).

(** ** [runPlatformHook] *)

Inductive role := AuthorityRole | SiteRole.
#[export] Instance role_eq_dec : EqDecision role.
Proof. solve_decision. Defined.
Definition bindings_of (r : role) (ns : string) : uprog (res (list NetworkBinding)) :=
  ulist KBinding (if bool_decide (r = SiteRole) then InNamespace ns else Everything).
(** The public objects of every project *)
Definition list_public : uprog (res (list VPC * list Subnet)) :=
  vpcs <-! ulist KVPC Everything ;;
  subnets <-! ulist KSubnet Everything ;;
  Ret (Ok (vpcs, subnets)).
Definition no_public (message : string) : uprog (res unit) :=
  x <-! list_public ;;
  stop negb (List.length (fst x) + List.length (snd x) =? 0)%nat with Errorf message ;;
  Ret (Ok tt).

(** The decoding of a configuration into [map[string]any]: the last of two members
    with one name counts, and the members are in the order [json.Marshal] writes them. A
    number keeps its spelling. *)
Fixpoint to_any (j : json) : json :=
  match j with
  | JArr l => JArr (map to_any l)
  | JObj l => JObj (sort_by_key fst (fold_left (fun acc kv => set_member (fst kv) (snd kv) acc)
                      ((fix go l := match l with [] => [] | (k, v) :: l => (k, to_any v) :: go l end) l) []))
  | _ => j
  end.
(** [json.Unmarshal] into a [map[string]any]; [None] inside is a nil map. *)
Definition unmarshal_map (s : string) : option (option (list (string * json))) :=
  match Unmarshal s with
  | Some (JObj l) => match to_any (JObj l) with JObj l => Some (Some l) | _ => None end
  | Some JNull => Some None
  | _ => None
  end.
Definition without (k : string) (l : list (string * json)) : list (string * json) :=
  List.filter (fun kv => negb (fst kv =? k)%string) l.

(** Strict decoding: an unknown member fails ([DisallowUnknownFields]). *)
Fixpoint strict_object {A} (fs : struct_fields A) (l : list (string * json)) (a : A) : option A :=
  match l with
  | [] => Some a
  | (k, j) :: rest =>
      match field_of fs k with
      | None => None
      | Some d => match d j a with Some a' => strict_object fs rest a' | None => None end
      end
  end.
Definition strict_struct {A} (fs : struct_fields A) : decoder A := fun j a =>
  match j with JObj l => strict_object fs l a | JNull => Some a | _ => None end.
Definition class_decoder : decoder NetworkClass :=
  strict_struct [field "transportProfile" TransportProfile (fun x _ => mkClass x) decode_string].
Definition location_decoder : decoder PlatformConfig.Location := strict_struct
  [field "name" loc_Name (fun x c => mkLocation x (loc_Region c) (loc_Site c) (loc_DC c) (loc_BindingNamespace c) (loc_AllowedProjects c) (loc_CIDRPools c)) decode_string;
   field "region" loc_Region (fun x c => mkLocation (loc_Name c) x (loc_Site c) (loc_DC c) (loc_BindingNamespace c) (loc_AllowedProjects c) (loc_CIDRPools c)) decode_string;
   field "site" loc_Site (fun x c => mkLocation (loc_Name c) (loc_Region c) x (loc_DC c) (loc_BindingNamespace c) (loc_AllowedProjects c) (loc_CIDRPools c)) decode_string;
   field "dc" loc_DC (fun x c => mkLocation (loc_Name c) (loc_Region c) (loc_Site c) x (loc_BindingNamespace c) (loc_AllowedProjects c) (loc_CIDRPools c)) decode_string;
   field "bindingNamespace" loc_BindingNamespace (fun x c => mkLocation (loc_Name c) (loc_Region c) (loc_Site c) (loc_DC c) x (loc_AllowedProjects c) (loc_CIDRPools c)) decode_string;
   field "allowedProjects" loc_AllowedProjects (fun x c => mkLocation (loc_Name c) (loc_Region c) (loc_Site c) (loc_DC c) (loc_BindingNamespace c) x (loc_CIDRPools c)) (decode_slice decode_string "");
   field "cidrPools" loc_CIDRPools (fun x c => mkLocation (loc_Name c) (loc_Region c) (loc_Site c) (loc_DC c) (loc_BindingNamespace c) (loc_AllowedProjects c) x) (decode_slice decode_string "")].
Definition config_decoder : decoder PlatformConfig.Config := strict_struct
  [field "registryNamespace" RegistryNamespace (fun x c => PlatformConfig.mkConfig x (NetworkClasses c) (Locations c)) decode_string;
   field "networkClasses" (fun c => Some (NetworkClasses c)) (fun x c => PlatformConfig.mkConfig (RegistryNamespace c) (default ∅ x) (Locations c))
     (decode_map class_decoder (mkClass ""));
   field "locations" Locations (fun x c => PlatformConfig.mkConfig (RegistryNamespace c) (NetworkClasses c) x) (decode_slice location_decoder noLocation)].
(** The [decode] of [platformAddsLocations] *)
Definition decode_config (l : list (string * json)) : option PlatformConfig.Config :=
  match config_decoder (JObj l) (PlatformConfig.mkConfig "" ∅ []) with
  | Some c => match PlatformConfig.Validate c with Ok _ => Some c | Err _ => None end
  | None => None
  end.
Definition location_json (l : PlatformConfig.Location) : json :=
  JObj [("name", JStr (loc_Name l)); ("region", JStr (loc_Region l)); ("site", JStr (loc_Site l)); ("dc", JStr (loc_DC l));
        ("bindingNamespace", JStr (loc_BindingNamespace l)); ("allowedProjects", JArr (map JStr (loc_AllowedProjects l)));
        ("cidrPools", JArr (map JStr (loc_CIDRPools l)))].
(** The map of the new locations: the last of a name *)
Definition location_named (name : string) (l : list PlatformConfig.Location) : option PlatformConfig.Location :=
  List.find (fun x => (loc_Name x =? name)%string) (rev l).
Definition platformAddsLocations (before after : list (string * json)) : bool :=
  match decode_config before, decode_config after with
  | Some old, Some new =>
      if (List.length (Locations new) <=? List.length (Locations old))%nat then false
      else if negb (nativeJSONEqual (JObj (without "locations" before)) (JObj (without "locations" after))) then false
      else forallb (fun x => match location_named (loc_Name x) (Locations new) with
                             | Some candidate => nativeJSONEqual (location_json x) (location_json candidate)
                             | None => false
                             end) (Locations old)
  | _, _ => false
  end.

(** [file]: what [os.ReadFile] gives for the mounted file [desiredConfig] *)
Definition check_config (r : role) (ns configMap desiredConfig : string) (file : res string) : uprog (res unit) :=
  stop (configMap =? "")%string || (desiredConfig =? "")%string with Errorf "check-config requires --config-map and --desired-config" ;;
  current <-! uget KConfigMap ns configMap ;;
  desired <-! lift file ;;
  stop 2 ^ 20 <? Z.of_nat (String.length desired) with Errorf "proposed configuration is too large" ;;
  let key := if bool_decide (r = SiteRole) then "site.json" else "platform.json" in
  match unmarshal_map (get (cm_Data current) key), unmarshal_map desired with
  | None, _ => Ret (Err (Errorf "current chart configuration is invalid"))
  | _, None => Ret (Err (Errorf "proposed chart configuration is invalid"))
  | Some (Some before), Some (Some after) =>
      let image l := if bool_decide (r = SiteRole) then without "gatewayImage" l else l in
      let before := image before in let after := image after in
      if nativeJSONEqual (JObj before) (JObj after) then Ret (Ok tt)
      else if bool_decide (r = AuthorityRole) && platformAddsLocations before after then Ret (Ok tt)
      else
        bindings <-! bindings_of r ns ;;
        stop negb (List.length bindings =? 0)%nat
          with Errorf "configuration change blocked while NetworkBindings exist; allocation or location changes require a separately reviewed migration" ;;
        when (bool_decide (r = AuthorityRole)) (no_public "configuration change blocked while public resources exist; drain first")
  | _, _ => Ret (Err (Errorf "chart configuration must be an object"))
  end.
Definition check_empty (r : role) (ns : string) : uprog (res unit) :=
  _ <-! when (bool_decide (r = AuthorityRole)) (no_public "uninstall blocked: public objects remain") ;;
  bindings <-! bindings_of r ns ;;
  stop 0 <? platformPendingBindings bindings (bool_decide (r = SiteRole))
    with Errorf "uninstall blocked: NetworkBindings still require controller cleanup" ;;
  when (bool_decide (r = SiteRole))
    (pods <-! ulist KPod (mkSel (Some ns) {["platform.globalvpc.io/component" := "gateway"]}) ;;
     stop negb (List.length pods =? 0)%nat with Errorf "uninstall blocked: managed gateway Pods remain" ;;
     Ret (Ok tt)).
(** A retained cleanup snapshot, or a binding that is Ready in its current revision *)
Definition binding_confirmed (b : NetworkBinding) : bool :=
  platformCompletedBinding b ||
  (dr_Ready (observe_binding b) && (bt_AppliedRevision (nb_Status b) =? nb_Revision (nb_Spec b))%string && negb (nb_Deleting (nb_Spec b))).
Definition verify_controller (r : role) (ns deployment : string) : uprog (res unit) :=
  stop (deployment =? "")%string with Errorf "verify requires --deployment" ;;
  d <-! rollout (get_deployment ns deployment) ;;
  i <-! lift (nativeContainerIndex d "controller") ;;
  match pt_Containers (dm_Template d) !! i with
  | None => Ret (Err ErrPanic)
  | Some c =>
      s <-! rollout (nativeRolloutSnapshot d "controller" (cr_Image c)) ;;
      stop negb (sn_Ready s) with Errorf "controller verification failed" ;;
      match r with
      | AuthorityRole =>
          x <-! list_public ;;
          stop negb (forallb (fun v => dr_Ready (observe_vpc v)) (fst x)) with Errorf "VPC is not currently Ready" ;;
          stop negb (forallb (fun s => dr_Ready (observe_subnet s)) (snd x)) with Errorf "Subnet is not currently Ready" ;;
          Ret (Ok tt)
      | SiteRole =>
          bindings <-! bindings_of r ns ;;
          stop negb (forallb binding_confirmed bindings) with Errorf "NetworkBinding has unconfirmed current configuration" ;;
          Ret (Ok tt)
      end
  end.
Inductive hook_action := CheckEmpty | CheckConfig | VerifyRollout.
Definition runPlatformHook (a : hook_action) (r : role) (ns deployment configMap desiredConfig : string) (file : res string) : uprog (res unit) :=
  stop bad (IsDNS1123Label ns) with Errorf "invalid platform hook action, role or namespace" ;;
  match a with
  | CheckConfig => check_config r ns configMap desiredConfig file
  | CheckEmpty => check_empty r ns
  | VerifyRollout => verify_controller r ns deployment
  end.

(** ** What the commands have seen *)

Definition ran : event nans -> event uans := embedded (Ans2 := uans) Rollout (fun o x => x).
(** Everything but a write *)
Definition reading (o : uop) : Prop :=
  match o with
  | Client (Kube.Get _ _ _ _) | Client (Kube.ListObjects _ _ _) => True
  | Client _ => False
  | Rollout c => harmless c
  end.
Definition got {k : kind} (h : uhistory) (ns name : string) (o : object k) : Prop := asked h (Client (Kube.Get target k ns name)) (Ok o).
Definition gone (h : uhistory) (k : kind) (ns name : string) : Prop :=
  exists e, asked h (Client (Kube.Get target k ns name)) (Err e) /\ IsNotFound e = true.
Definition listing {k : kind} (h : uhistory) (s : selector) (l : list (object k)) : Prop := asked h (Client (Kube.ListObjects target k s)) (Ok l).
(** Ready in its current generation, by the first condition of that type *)
Definition is_ready {k : kind} (o : object k) : Prop :=
  om_DeletionTimestamp (meta_of o) = None /\ fst (resourceStatus o) = om_Generation (meta_of o) /\
  exists c, List.find (fun c => (cd_Type c =? "Ready")%string) (snd (resourceStatus o)) = Some c /\
    cd_Status c = "True" /\ cd_ObservedGeneration c = om_Generation (meta_of o).
Definition ready_seen {k : kind} (h : uhistory) (ns name uid : string) (o : object k) : Prop :=
  got h ns name o /\ om_UID (meta_of o) = uid /\ is_ready o.

Lemma readiness_ready {k : kind} (o : object k) : fst (resourceReadiness o) = "Ready" <-> is_ready o.
Proof.
  unfold resourceReadiness, is_ready. destruct (om_DeletionTimestamp (meta_of o)); simpl; [by split; [|intros []]|].
  destruct (resourceStatus o) as [observed conditions]. cbn [fst snd]. rewrite FindStatusCondition_find.
  destruct (List.find _ conditions) as [c|]; simpl; [|by split; [|intros (_ & _ & c & ? & _)]].
  destruct (observed =? _) eqn:E1; simpl; [|apply Z.eqb_neq in E1; by split; [|intros (_ & ? & _)]].
  apply Z.eqb_eq in E1. destruct (cd_ObservedGeneration c =? _) eqn:E2; simpl.
  2:{ apply Z.eqb_neq in E2. split; [done|]. intros (_ & _ & c' & [= <-] & _ & H). done. }
  apply Z.eqb_eq in E2. destruct (cd_Status c =? "True")%string eqn:E3; simpl.
  - apply String.eqb_eq in E3. split; [|done]. intros _. split_and!; [done|done|]. by exists c.
  - apply String.eqb_neq in E3. destruct (_ =? "Unknown")%string; (split; [done|]); intros (_ & _ & c' & [= <-] & H & _); done.
Qed.

Section rules.
Context (R : uhistory -> uop -> Prop) (HR : forall h o, reading o -> R h o).

Lemma okp_uget k ns name h : okp R (uget k ns name) h (fun h' o => h' = h ++ [Ev (Client (Kube.Get target k ns name)) (Ok o)]).
Proof. split; [by apply HR|]. intros [o|e] _; [split; [apply extends_snoc|done]|done]. Qed.
Lemma okp_ulist k s h : okp R (ulist k s) h (fun h' l => h' = h ++ [Ev (Client (Kube.ListObjects target k s)) (Ok l)]).
Proof. split; [by apply HR|]. intros [l|e] _; [split; [apply extends_snoc|done]|done]. Qed.
(** The context is asked and the code goes on. *)
Lemma okp_asking {B} (c : nop) (f : nans c -> uprog (res B)) h Q : harmless c ->
  (forall h' x, extends h h' -> okp R (f x) h' Q) -> okp R (bind (rollout (call c)) f) h Q.
Proof.
  intros Hc H. eapply okp_call with (P := fun h' _ => extends h h'); [split; [by apply HR|intros x _; apply extends_snoc]|]. auto.
Qed.
Lemma okp_rollout {A} (p : nprog (res A)) h P : okp (fun _ => harmless) p [] P ->
  okp R (rollout p) h (fun h' a => exists t, h' = h ++ map ran t /\ P t a).
Proof. apply okp_embed; [done|]. intros t o Ho. by apply HR. Qed.
Lemma okp_poll {A} (body : uprog (res (option A))) h (J : uhistory -> A -> Prop) :
  (forall h', extends h h' -> okp R body h' (fun h'' x => forall a, x = Some a -> J h'' a)) ->
  okp R (PollUntilContextCancel body) h J.
Proof.
  intros HB. destruct (Poll_polls A body) as [n ->]. assert (forall h', extends h h' -> okp R (polls n body) h' J) as HP; [|apply HP, extends_refl].
  induction n as [|n IH]; intros h' HE; cbn [polls]; [done|]. eapply okp_bind; [by apply HB|]. intros h1 [a|] H1 HJ; [by apply okp_Ok, HJ|].
  apply okp_asking; [done|]. intros h2 [e|] H2; [done|]. apply IH. extending.
Qed.
(** What ends a wait was read during it. *)
Lemma okp_wait_since k ns name uid deleted h : okp R (resourceWait k ns name uid deleted) h (fun h' r => exists t, h' = h ++ t /\
  if deleted then gone t k ns name else exists o : object k, r = Some o /\ ready_seen t ns name uid o).
Proof.
  unfold resourceWait. apply okp_stop. intros _. apply okp_wrapped, okp_poll. intros h' H0. unfold wait_round.
  apply okp_asking; [done|]. intros h1 [e|] H1; [done|]. destruct (extends_trans _ _ _ H0 H1) as [t1 E1].
  eapply okp_call with (P := fun h' x => h' = h1 ++ [Ev (Client (Kube.Get target k ns name)) x]); [split; [by apply HR|done]|].
  intros h2 [o|e] H2 ->.
  - apply okp_stop. intros HU%negb_false_iff%String.eqb_eq. destruct deleted; [by apply okp_Ok|]. apply okp_stop. intros _. apply okp_Ok.
    intros a. destruct (_ =? "Ready")%string eqn:E; [|done]. intros [= <-]. rewrite E1, <- List.app_assoc. eexists. split; [done|].
    exists o. split; [done|]. split_and!; [apply asked_snoc|done|]. apply String.eqb_eq in E. by apply readiness_ready.
  - apply okp_lift. intros x. destruct deleted; simpl; [|done]. destruct (IsNotFound e) eqn:EN; [|done]. intros [= <-] a [= <-].
    rewrite E1, <- List.app_assoc. eexists. split; [done|]. exists e. split; [apply asked_snoc|done].
Qed.
End rules.

Lemma seen_gone_extends h h' k ns name : extends h h' -> gone h k ns name -> gone h' k ns name.
Proof. intros HE (e & HA & HN). exists e. split; [by eapply asked_extends|done]. Qed.
Lemma seen_gone_since h t k ns name : gone t k ns name -> gone (h ++ t) k ns name.
Proof. intros (e & HA & HN). exists e. split; [apply in_app_iff; by right|done]. Qed.

(** ** Creating and deleting *)

(** An object as it was read: by its name, or in a list. *)
Definition observed {k : kind} (h : uhistory) (o : object k) (ns name : string) : Prop :=
  got h ns name o \/
  (ns = om_Namespace (meta_of o) /\ name = om_Name (meta_of o) /\ exists s l, listing h s l /\ In o l).
(** The last call listed the Subnets of the project, and none refers to the VPC. *)
Definition unreferenced (h : uhistory) (ns name : string) : Prop :=
  exists h0 l, h = h0 ++ [Ev (Client (Kube.ListObjects target KSubnet (InNamespace ns))) (Ok l)] /\
    forall s, In s l -> ss_VPCRef (sn_Spec s) <> name.
Definition deletion {k : kind} (o : object k) : uop :=
  Client (Kube.Delete target k (om_Namespace (meta_of o)) (om_Name (meta_of o))
            (mkPre (Some (om_UID (meta_of o))) (Some (om_ResourceVersion (meta_of o))))).
Inductive public_call (s : settings) (q : request) (h : uhistory) : uop -> Prop :=
| pc_read o (Hr : reading o) : public_call s q h o
| pc_create (Hq : check_request s q = Ok tt) (Ha : rq_Action q = DoCreate) (Hd : rq_DryRun q = false) :
    public_call s q h (Client (Kube.Create target (kind_of q) (resourceObject s q)))
| pc_delete (o : object (kind_of q)) (Hq : check_request s q = Ok tt) (Ha : rq_Action q = DoDelete)
    (Ho : got h (se_Namespace s) (rq_Name q) o) (Hu : om_UID (meta_of o) <> "" /\ om_ResourceVersion (meta_of o) <> "")
    (Hv : kind_of q = KVPC -> unreferenced h (se_Namespace s) (rq_Name q)) : public_call s q h (deletion o).
Definition reads_object (s : settings) (q : request) : uop := Client (Kube.Get target (kind_of q) (se_Namespace s) (rq_Name q)).
Definition creates_object (s : settings) (q : request) : uop := Client (Kube.Create target (kind_of q) (resourceObject s q)).
(** What was read last is the object the command began with, Ready. *)
Definition same_ready (s : settings) (q : request) (t : uhistory) (o : object (kind_of q)) : Prop :=
  exists o', ready_seen t (se_Namespace s) (rq_Name q) (om_UID (meta_of o)) (o' : object (kind_of q)).
(** What the success of a command means: its first call gave the object, and what came
    after was about that object. *)
Definition confirmed (s : settings) (q : request) (h : uhistory) : Prop :=
  match rq_Action q with
  | DoCreate => rq_DryRun q = false -> exists o t, h = [Ev (creates_object s q) (Ok o)] ++ t /\ (rq_Await q = true -> same_ready s q t o)
  | DoWait => exists o t, h = [Ev (reads_object s q) (Ok o)] ++ t /\ same_ready s q t o
  | DoDelete => exists o t1 t2, h = [Ev (reads_object s q) (Ok o)] ++ t1 ++ [Ev (deletion o) (Ok tt)] ++ t2 /\
                  (rq_Await q = true -> gone t2 (kind_of q) (se_Namespace s) (rq_Name q))
  | _ => True
  end.

Section resources.
Variables (s : settings) (q : request).
Notation R := (public_call s q).
Lemma public_reading h o : reading o -> R h o.
Proof. apply pc_read. Qed.
Lemma refers_to_nil name l : refers_to name l = [] -> forall x, In x l -> ss_VPCRef (sn_Spec x) <> name.
Proof.
  intros H x Hx E. apply (f_equal (@List.length string)) in H. unfold refers_to, sort_strings in H. rewrite sort_by_length, List.length_map in H.
  assert (In x (List.filter (fun s => (ss_VPCRef (sn_Spec s) =? name)%string) l)) as HI by (apply filter_In; split; [done|by apply String.eqb_eq]).
  by destruct (List.filter _ l).
Qed.
Lemma okp_same_ready (o : object (kind_of q)) h :
  okp R (resourceWait (kind_of q) (se_Namespace s) (rq_Name q) (om_UID (meta_of o)) false) h (fun h' _ => exists t, h' = h ++ t /\ same_ready s q t o).
Proof. eapply okp_mono; [apply okp_wait_since, public_reading|]. intros h' r _ (t & -> & o' & _ & HR). exists t. split; [done|by exists o']. Qed.
Lemma okp_create h : check_request s q = Ok tt -> rq_Action q = DoCreate ->
  okp R (create_resource s q) h (fun h' _ => rq_DryRun q = false ->
    exists o t, h' = h ++ [Ev (creates_object s q) (Ok o)] ++ t /\ (rq_Await q = true -> same_ready s q t o)).
Proof.
  intros Hq Ha. unfold create_resource. destruct (rq_DryRun q) eqn:Hd; [by apply okp_Ok|].
  eapply okp_bind with (P := fun h' o => h' = h ++ [Ev (creates_object s q) (Ok o)]).
  { apply okp_wrapped. split; [by apply pc_create|]. intros [o|e] _; [|done]. split; [apply extends_snoc|done]. }
  intros h1 o H1 ->. eapply okp_bind with (P := fun h' _ => exists t, h' = (h ++ [Ev (creates_object s q) (Ok o)]) ++ t /\ (rq_Await q = true -> same_ready s q t o)).
  { destruct (rq_Await q).
    - eapply okp_mono; [apply okp_wrapped, okp_same_ready|]. intros h2 r _ (t & -> & HR). by exists t.
    - apply okp_Ok. exists []. by rewrite List.app_nil_r. }
  intros h2 r H2 (t & -> & HW). apply okp_lift. intros out _ _. exists o, t. by rewrite <- List.app_assoc.
Qed.
Lemma okp_delete h (o : object (kind_of q)) : check_request s q = Ok tt -> rq_Action q = DoDelete ->
  got h (se_Namespace s) (rq_Name q) o -> okp R (delete_resource s q o) h (fun h' _ =>
    exists t1 t2, h' = h ++ t1 ++ [Ev (deletion o) (Ok tt)] ++ t2 /\ (rq_Await q = true -> gone t2 (kind_of q) (se_Namespace s) (rq_Name q))).
Proof.
  intros Hq Ha Ho. unfold delete_resource.
  eapply okp_bind with (P := fun h' _ => kind_of q = KVPC -> unreferenced h' (se_Namespace s) (rq_Name q)).
  { unfold kind_of. destruct (rq_Subnet q); [by apply okp_Ok|]. simpl. unfold no_subnets.
    eapply okp_bind; [apply okp_wrapped, okp_ulist, public_reading|]. intros h1 l _ ->.
    apply okp_stop. intros HN%negb_false_iff%bool_decide_eq_true. apply okp_Ok. intros _. exists h, l. split; [done|]. by apply refers_to_nil. }
  intros h1 [] H1 HV. apply okp_stop. intros [HU HV2]%orb_false_iff. apply String.eqb_neq in HU, HV2.
  eapply okp_bind with (P := fun h' _ => h' = h1 ++ [Ev (deletion o) (Ok tt)]).
  { apply okp_wrapped. split; [apply (pc_delete _ _ _ o); try done; by eapply asked_extends|]. intros [[]|e] _; [|done].
    split; [apply extends_snoc|done]. }
  intros h2 [] H2 ->. destruct H1 as [t1 ->].
  eapply okp_bind with (P := fun h' _ => exists t2, h' = ((h ++ t1) ++ [Ev (deletion o) (Ok tt)]) ++ t2 /\ (rq_Await q = true -> gone t2 (kind_of q) (se_Namespace s) (rq_Name q))).
  { destruct (rq_Await q); simpl; [|apply okp_Ok; exists []; by rewrite List.app_nil_r]. apply okp_wrapped. unfold unit_of.
    eapply okp_bind; [apply okp_wait_since, public_reading|]. intros h3 r _ (t2 & -> & HG). apply okp_Ok. by exists t2. }
  intros h3 [] H3 (t2 & -> & HG). apply okp_if; intros _; apply okp_Ok; exists t1, t2; by rewrite <- !List.app_assoc.
Qed.
Lemma okp_resources : okp R (runResources s q) [] (fun h' _ => confirmed s q h').
Proof.
  unfold runResources. apply okp_check. intros [] Hq. unfold confirmed.
  assert (forall (f : object (kind_of q) -> uprog (res output)) Q,
    (forall o, okp R (f o) [Ev (reads_object s q) (Ok o)] Q) ->
    okp R (o <-! wrapped "get" (uget (kind_of q) (se_Namespace s) (rq_Name q)) ;; f o) [] Q) as HG.
  { intros f Q HF. eapply okp_bind; [apply okp_wrapped, okp_uget, public_reading|]. intros h1 o _ ->. apply HF. }
  destruct (rq_Action q) eqn:Ha.
  - by apply okp_create.
  - unfold list_resources. apply okp_if; intros _; (eapply okp_bind; [apply okp_wrapped, okp_ulist, public_reading|]); intros; by apply okp_Ok.
  - apply HG. intros o. by apply okp_Ok.
  - apply HG. intros o. eapply okp_bind; [apply okp_same_ready|]. intros h1 r H1 (t & -> & HR). apply okp_lift. intros out _. by exists o, t.
  - apply HG. intros o. eapply okp_mono; [apply okp_delete; [done|done|by left]|]. intros h' out _ (t1 & t2 & -> & HX). by exists o, t1, t2.
Qed.
End resources.

(** C27: The public commands touch only what they were asked to. A create makes exactly the
    requested VPC or Subnet, and nothing is ever updated; a delete removes the object it
    read, under its UID and version, and a VPC only when the last call showed that no Subnet
    of its project refers to it. A wait succeeds only when, after the first read of the
    command or the creation, an object with that same UID was read, Ready in its current
    generation; and a deletion is confirmed only when, after it, the object was seen gone. *)
Theorem public_commands_are_guarded s q : obeys (public_call s q) (runResources s q) /\
  forall h out, exec (runResources s q) h (Ret (Ok out)) -> confirmed s q h.
Proof. split; [eapply okp_obeys, okp_resources|]. intros h out HX. exact (okp_exec _ _ _ _ _ (okp_resources s q) HX). Qed.

(** ** Draining *)

Section drain.
Variable projects : list string.
(** Every object of the kind that the projects listed was seen gone. *)
Definition cleared (k : kind) (h : uhistory) : Prop := forall ns, In ns projects -> exists l : list (object k),
  listing h (InNamespace ns) l /\ forall o, In o l -> gone h k (om_Namespace (meta_of o)) (om_Name (meta_of o)).
Definition listed_once {k : kind} (h : uhistory) (o : object k) : Prop := exists ns l, In ns projects /\ listing h (InNamespace ns) l /\ In o l.
Inductive drain_call (h : uhistory) : uop -> Prop :=
| dc_read o (Hr : reading o) : drain_call h o
| dc_subnet (o : object KSubnet) (Ho : listed_once h o) : drain_call h (deletion o)
| dc_vpc (o : object KVPC) (Ho : listed_once h o) (Hc : cleared KSubnet h)
    (Hv : unreferenced h (om_Namespace (meta_of o)) (om_Name (meta_of o))) : drain_call h (deletion o).

Lemma drain_reading h o : reading o -> drain_call h o.
Proof. apply dc_read. Qed.
Lemma cleared_extends k h h' : extends h h' -> cleared k h -> cleared k h'.
Proof.
  intros HE HC ns Hn. destruct (HC ns Hn) as (l & HL & HG). exists l. split; [by eapply asked_extends|].
  intros o Ho. by eapply seen_gone_extends, HG.
Qed.
Lemma listed_extends {k : kind} h h' (o : object k) : extends h h' -> listed_once h o -> listed_once h' o.
Proof. intros HE (ns & l & Hn & HL & Ho). exists ns, l. split_and!; [done|by eapply asked_extends|done]. Qed.
Lemma okp_drain_one k (o : object k) h : k = KSubnet \/ k = KVPC /\ cleared KSubnet h -> listed_once h o ->
  okp drain_call (drain_one k o) h (fun _ _ => True).
Proof.
  intros HK HO. unfold drain_one. apply okp_asking; [apply drain_reading|done|]. intros h1 [e|] H1; [done|].
  apply okp_if; intros _; [by apply okp_Ok|].
  eapply okp_bind with (P := fun h' _ => k = KVPC -> unreferenced h' (om_Namespace (meta_of o)) (om_Name (meta_of o))).
  { destruct (bool_decide (k = KVPC)) eqn:EK; simpl; [|apply okp_Ok; by apply bool_decide_eq_false in EK].
    eapply okp_bind; [apply okp_ulist, drain_reading|]. intros h2 l _ ->. apply okp_stop. intros HN. apply okp_Ok. intros _.
    exists h1, l. split; [done|]. intros x Hx. by apply (existsb_forall _ _ HN), String.eqb_neq in Hx. }
  intros h2 [] H2 HV. eapply okp_call with (P := fun _ _ => True); [split; [|done]|intros h3 [u|e] _ _; [by apply okp_Ok|]; by apply okp_lift].
  destruct HK as [->|[-> HC]].
  - apply dc_subnet. eapply listed_extends; [|exact HO]. extending.
  - apply dc_vpc; [| |by apply HV]; [eapply listed_extends; [|exact HO]|eapply cleared_extends; [|exact HC]]; extending.
Qed.
Lemma okp_drain_kind k h : k = KSubnet \/ k = KVPC /\ cleared KSubnet h -> okp drain_call (drain_kind projects k) h (fun h' _ => cleared k h').
Proof.
  intros HK. unfold drain_kind. eapply okp_bind.
  { apply (okp_collect _ _ (fun h' ns (l : list (object k)) => listing h' (InNamespace ns) l)).
    - intros h1 h2 ns l HE. by apply asked_extends.
    - intros h' ns _ _. eapply okp_mono; [apply okp_ulist, drain_reading|]. intros h1 l _ ->. apply asked_snoc. }
  intros h1 selected H1 HS.
  assert (forall o, In o (List.concat selected) -> listed_once h1 o) as HL.
  { intros o (l & Hl & Ho)%in_concat. destruct (Forall2_in_r _ _ _ _ HS Hl) as (ns & Hn & HX). by exists ns, l. }
  eapply okp_bind with (P := fun _ _ => True).
  { eapply okp_mono; [apply (okp_collect _ _ (fun _ _ _ => True))|done]; [done|]. intros h2 o Ho H2. apply okp_drain_one.
    - destruct HK as [HK|[HK HC]]; [by left|right; split; [done|]]. eapply cleared_extends; [|exact HC]. extending.
    - eapply listed_extends; [exact H2|by apply HL]. }
  intros h2 us H2 _. eapply okp_bind.
  { apply (okp_collect _ _ (fun h' (o : object k) _ => gone h' k (om_Namespace (meta_of o)) (om_Name (meta_of o)))).
    - intros h3 h4 o r HE. by apply seen_gone_extends.
    - intros h3 o _ _. apply okp_wrapped. eapply okp_mono; [apply (okp_wait_since _ drain_reading k _ _ _ true)|].
      intros h4 r _ (t & -> & HX). by apply seen_gone_since. }
  intros h3 rs H3 HG. apply okp_Ok. intros ns Hn. destruct (Forall2_in_l _ _ _ _ HS Hn) as (l & Hl & HX).
  exists l. split; [eapply asked_extends; [|exact HX]; extending|]. intros o Ho.
  destruct (Forall2_in_l _ _ _ o HG) as (r & _ & HR); [|exact HR]. apply in_concat. by exists l.
Qed.
Definition empty_projects (h : uhistory) : Prop := forall ns, In ns projects ->
  listing (k := KVPC) h (InNamespace ns) [] /\ listing (k := KSubnet) h (InNamespace ns) [].
End drain.

(** Calls that showed [Q] after calls that showed [P] *)
Definition then_seen (P Q : uhistory -> Prop) (h : uhistory) : Prop := exists h1 h2, h = h1 ++ h2 /\ P h1 /\ Q h2.
Definition chosen (projects : list string) (ns : string) : list string :=
  if bool_decide (projects = []) && negb (ns =? "")%string then [ns] else projects.
Lemma okp_drain projects ns h : okp (drain_call (chosen projects ns)) (runDrain projects ns) h
  (fun h' _ => chosen projects ns <> [] /\
     then_seen (fun h => cleared (chosen projects ns) KSubnet h /\ cleared (chosen projects ns) KVPC h) (empty_projects (chosen projects ns)) h').
Proof.
  unfold runDrain. fold (chosen projects ns). set (l := chosen projects ns). apply okp_stop. intros HN%bool_decide_eq_false.
  apply okp_check. intros _ _. eapply okp_bind; [by apply okp_drain_kind; left|]. intros h1 [] H1 HS.
  eapply okp_bind; [by apply okp_drain_kind; right|]. intros h2 [] H2 HV.
  eapply okp_bind with (P := fun h' _ => exists t, h' = h2 ++ t /\ empty_projects l t); [|intros h3 us H3 (t & -> & HE); apply okp_Ok; split; [done|]].
  - apply (okp_frame reading); [apply drain_reading|]. eapply okp_mono.
    + apply (okp_collect _ _ (fun h' ns _ => listing (k := KVPC) h' (InNamespace ns) [] /\ listing (k := KSubnet) h' (InNamespace ns) [])).
      * intros h3 h4 n u HE [H3 H4]. split; by eapply asked_extends.
      * intros h3 n _ _. unfold drained_project. eapply okp_bind; [by apply okp_ulist|]. intros h4 vs _ ->.
        eapply okp_bind; [by apply okp_ulist|]. intros h5 ss _ ->. apply okp_stop. intros HZ%negb_false_iff%Nat.eqb_eq. apply okp_Ok.
        destruct vs; [|done]. destruct ss; [|done]. split; [apply asked_app|]; apply asked_snoc.
    + intros t us _ HF n Hn. by destruct (Forall2_in_l _ _ _ _ HF Hn) as (u & _ & HX).
  - exists h2, t. split_and!; [done|eapply cleared_extends; [|exact HS]; extending|exact HV|exact HE].
Qed.
(** C19: A drain is ordered: it deletes only VPCs and Subnets that the chosen projects listed,
    under the UIDs and versions they were read with; and a VPC only after every Subnet the
    projects listed was seen gone and the last call showed no new Subnet that refers to it.
    It succeeds only when every listed object was seen gone, and then every project was seen
    to be empty. *)
Theorem drains_are_ordered projects ns : obeys (drain_call (chosen projects ns)) (runDrain projects ns) /\
  forall h, exec (runDrain projects ns) h (Ret (Ok tt)) ->
    then_seen (fun h => cleared (chosen projects ns) KSubnet h /\ cleared (chosen projects ns) KVPC h) (empty_projects (chosen projects ns)) h.
Proof. split; [eapply okp_obeys, okp_drain|]. intros h HX. exact (proj2 (okp_exec _ _ _ _ _ (okp_drain projects ns []) HX)). Qed.

(** ** The chart hooks *)

(** A retained snapshot whose cleanup its controller acknowledged: everything of it is gone,
    in the revision and the generation it has, and its only Ready condition says so. *)
Record acknowledged (b : NetworkBinding) : Prop := {
  ak_identity : om_UID (nb_Meta b) <> "" /\ 1 <= om_Generation (nb_Meta b) /\
    om_Name (nb_Meta b) = BindingName (oi_UID (nb_VPCRef (nb_Spec b))) (nb_LocationRef (nb_Spec b));
  ak_intent : nb_Deleting (nb_Spec b) = true /\ nb_Revision (nb_Spec b) = Revision (nb_Spec b);
  ak_status : bt_Phase (nb_Status b) = "Deleted" /\ bt_AppliedRevision (nb_Status b) = nb_Revision (nb_Spec b) /\
    bt_ObservedGeneration (nb_Status b) = om_Generation (nb_Meta b);
  ak_gone : bt_Resources (nb_Status b) = [] /\ bt_Gateways (nb_Status b) = [] /\ om_Finalizers (nb_Meta b) = [] /\
    om_DeletionTimestamp (nb_Meta b) = None;
  ak_ready : exists c, List.filter (fun c => (cd_Type c =? "Ready")%string) (bt_Conditions (nb_Status b)) = [c] /\
    cd_Status c = "False" /\ cd_Reason c = "CleanupComplete" /\ cd_ObservedGeneration c = om_Generation (nb_Meta b) }.
Lemma completed_acknowledged b : platformCompletedBinding b = true -> acknowledged b.
Proof.
  unfold platformCompletedBinding. cbv zeta. destruct (_ || _) eqn:E; [done|].
  rewrite !orb_false_iff in E. destruct E as [[[[[[[[[[[[[[E1 E2] E3] E4] E5] E6] E7] E8] E9] E10] E11] E12] E13] E14] E15].
  breflect. intros [HF HL]%andb_true_iff.
  destruct (List.filter _ _) as [|c [|]] eqn:EF; try done. cbn [forallb] in HF. breflect. split; try done.
  - apply dec_stable in E15. done.
  - exists c. done.
Qed.
Lemma pending_none l : platformPendingBindings l true <= 0 -> forall b, In b l -> platformCompletedBinding b = true.
Proof.
  unfold platformPendingBindings. intros H b Hb. destruct (platformCompletedBinding b) eqn:E; [done|].
  assert (In b (List.filter (fun b => negb true || negb (platformCompletedBinding b)) l)) as HI by (apply filter_In; by rewrite E).
  destruct (List.filter _ l); [done|]. simpl in H. lia.
Qed.
Lemma pending_any l : platformPendingBindings l false <= 0 -> l = [].
Proof. destruct l as [|b l]; [done|]. unfold platformPendingBindings. simpl. lia. Qed.

Definition scope (r : role) (ns : string) : selector := if bool_decide (r = SiteRole) then InNamespace ns else Everything.
Definition no_public_left (h : uhistory) : Prop := listing (k := KVPC) h Everything [] /\ listing (k := KSubnet) h Everything [].
Definition gateways : gmap string string := {["platform.globalvpc.io/component" := "gateway"]}.
(** What the success of a hook means *)
Definition cleaned (r : role) (ns : string) (h : uhistory) : Prop :=
  match r with
  | AuthorityRole => no_public_left h /\ listing (k := KBinding) h Everything []
  | SiteRole => (exists l : list NetworkBinding, listing (k := KBinding) h (InNamespace ns) l /\ forall b, In b l -> acknowledged b) /\
                listing (k := KPod) h (mkSel (Some ns) gateways) []
  end.
Definition config_key (r : role) : string := if bool_decide (r = SiteRole) then "site.json" else "platform.json".
Definition compared (r : role) (l : list (string * json)) : list (string * json) :=
  if bool_decide (r = SiteRole) then without "gatewayImage" l else l.
Definition config_allowed (r : role) (ns configMap : string) (file : res string) (h : uhistory) : Prop :=
  exists (cm : ConfigMap) desired before after, got (k := KConfigMap) h ns configMap cm /\ file = Ok desired /\
    unmarshal_map (get (cm_Data cm) (config_key r)) = Some (Some before) /\ unmarshal_map desired = Some (Some after) /\
    (nativeJSONEqual (JObj (compared r before)) (JObj (compared r after)) = true \/
     r = AuthorityRole /\ platformAddsLocations before after = true \/
     listing (k := KBinding) h (scope r ns) [] /\ (r = AuthorityRole -> no_public_left h)).
Definition controller_verified (r : role) (ns deployment : string) (h : uhistory) : Prop :=
  (exists d i c pods t, asked h (Rollout (GetDeployment ns deployment)) (Ok d) /\ nativeContainerIndex d "controller" = Ok i /\
     pt_Containers (dm_Template d) !! i = Some c /\ (forall o x, asked t o x -> asked h (Rollout o) x) /\
     converged t d "controller" (cr_Image c) pods) /\
  match r with
  | AuthorityRole => exists vpcs subnets, listing (k := KVPC) h Everything vpcs /\ listing (k := KSubnet) h Everything subnets /\
      (forall v, In v vpcs -> is_ready (k := KVPC) v) /\ (forall s, In s subnets -> is_ready (k := KSubnet) s)
  | SiteRole => exists l : list NetworkBinding, listing (k := KBinding) h (InNamespace ns) l /\
      forall b, In b l -> acknowledged b \/ dr_Ready (observe_binding b) = true /\
        bt_AppliedRevision (nb_Status b) = nb_Revision (nb_Spec b) /\ nb_Deleting (nb_Spec b) = false
  end.
Definition hook_passed (a : hook_action) (r : role) (ns deployment configMap : string) (file : res string) (h : uhistory) : Prop :=
  match a with
  | CheckEmpty => cleaned r ns h
  | CheckConfig => config_allowed r ns configMap file h
  | VerifyRollout => controller_verified r ns deployment h
  end.

Lemma observation_ready kind m phase observed conditions : dr_Ready (doctorObservation kind m phase observed conditions) = true <->
  om_DeletionTimestamp m = None /\ observed = om_Generation m /\
  exists c, List.find (fun c => (cd_Type c =? "Ready")%string) conditions = Some c /\ cd_Status c = "True" /\ cd_ObservedGeneration c = om_Generation m.
Proof.
  unfold doctorObservation. destruct (om_DeletionTimestamp m); simpl; [by split; [|intros []]|].
  destruct (observed =? _) eqn:E1; simpl; [apply Z.eqb_eq in E1|apply Z.eqb_neq in E1; by split; [|intros (_ & ? & _)]].
  destruct (List.find _ conditions) as [c|]; simpl; [|by split; [|intros (_ & _ & c & ? & _)]].
  destruct (cd_ObservedGeneration c =? _) eqn:E2; simpl; [apply Z.eqb_eq in E2|apply Z.eqb_neq in E2; split; [done|]; by intros (_ & _ & c' & [= <-] & _ & ?)].
  rewrite String.eqb_eq. split; [intros H; split_and!; try done; by exists c|by intros (_ & _ & c' & [= <-] & ? & _)].
Qed.

Notation reads := (fun _ : uhistory => reading).
Lemma okp_bindings r ns h : okp reads (bindings_of r ns) h (fun h' l => h' = h ++ [Ev (Client (Kube.ListObjects target KBinding (scope r ns))) (Ok l)]).
Proof. by apply okp_ulist. Qed.
Lemma okp_no_public message h : okp reads (no_public message) h (fun h' _ => no_public_left h').
Proof.
  unfold no_public, list_public. eapply okp_bind with (P := fun h' x => listing (k := KVPC) h' Everything (fst x) /\ listing (k := KSubnet) h' Everything (snd x)).
  - eapply okp_bind; [by apply okp_ulist|]. intros h1 vs _ ->. eapply okp_bind; [by apply okp_ulist|]. intros h2 ss _ ->.
    apply okp_Ok. split; [apply asked_app|]; apply asked_snoc.
  - intros h1 [vs ss] H1 [HV HS]. apply okp_stop. intros HZ%negb_false_iff%Nat.eqb_eq. apply okp_Ok. simpl in *.
    destruct vs; [|done]. destruct ss; [|done]. done.
Qed.
Lemma no_public_extends h h' : extends h h' -> no_public_left h -> no_public_left h'.
Proof. intros HE [H1 H2]. split; by eapply asked_extends. Qed.
Lemma okp_check_empty r ns h : okp reads (check_empty r ns) h (fun h' _ => cleaned r ns h').
Proof.
  unfold check_empty. destruct r; cbn [bool_decide]; simpl.
  - eapply okp_bind; [apply okp_no_public|]. intros h1 [] H1 HP. eapply okp_bind; [apply okp_bindings|]. intros h2 l H2 ->.
    apply okp_stop. intros HZ%Z.ltb_ge%pending_any. apply okp_Ok. split; [by eapply no_public_extends|]. subst l. apply asked_snoc.
  - apply okp_bind with (P := fun _ _ => True); [by apply okp_Ok|]. intros h1 [] H1 _. eapply okp_bind; [apply okp_bindings|]. intros h2 l H2 ->.
    apply okp_stop. intros HZ%Z.ltb_ge. eapply okp_bind; [by apply okp_ulist|]. intros h3 pods H3 ->. apply okp_stop.
    intros HN%negb_false_iff%Nat.eqb_eq. apply okp_Ok. destruct pods; [|done]. split; [|apply asked_snoc].
    exists l. split; [apply asked_app, asked_snoc|]. intros b Hb. by eapply completed_acknowledged, pending_none.
Qed.
Lemma okp_check_config r ns configMap path file h :
  okp reads (check_config r ns configMap path file) h (fun h' _ => config_allowed r ns configMap file h').
Proof.
  unfold check_config. apply okp_stop. intros _. eapply okp_bind; [by apply okp_uget|]. intros h1 cm _ ->.
  apply okp_check. intros desired Hf. apply okp_stop. intros _. fold (config_key r).
  destruct (unmarshal_map _) as [[before|]|] eqn:EB; [|by destruct (unmarshal_map desired) as [[]|]|done].
  destruct (unmarshal_map desired) as [[after|]|] eqn:EA; [|done..]. fold (compared r before) (compared r after).
  assert (forall h' , extends (h ++ [Ev (Client (Kube.Get target KConfigMap ns configMap)) (Ok cm)]) h' -> got (k := KConfigMap) h' ns configMap cm) as HG
    by (intros h' HE; eapply asked_extends; [exact HE|apply asked_snoc]).
  apply okp_if; [intros HE; apply okp_Ok; exists cm, desired, before, after; split_and!; try done; [by apply HG, extends_refl|by left]|intros _].
  apply okp_if; [intros [HR HL]%andb_true_iff; apply okp_Ok; exists cm, desired, before, after; split_and!; try done; [by apply HG, extends_refl|]|intros _].
  { right. left. apply bool_decide_eq_true in HR as ->. done. }
  eapply okp_bind; [apply okp_bindings|]. intros h2 l H2 ->. apply okp_stop. intros HN%negb_false_iff%Nat.eqb_eq. destruct l; [|done].
  eapply okp_mono with (P := fun h' _ => r = AuthorityRole -> no_public_left h').
  - unfold when. apply okp_if; [intros _; eapply okp_mono; [apply okp_no_public|done]|]. intros HN2%bool_decide_eq_false. by apply okp_Ok.
  - intros h3 [] H3 HP. exists cm, desired, before, after. split_and!; try done; [apply HG; extending|]. right. right. split; [|done].
    eapply asked_extends; [exact H3|apply asked_snoc].
Qed.
Lemma okp_verify_controller r ns deployment h :
  okp reads (verify_controller r ns deployment) h (fun h' _ => controller_verified r ns deployment h').
Proof.
  unfold verify_controller. apply okp_stop. intros _.
  eapply okp_bind; [apply okp_rollout; [done|]; by apply okp_get_deployment|]. intros h1 d _ (t1 & -> & ->).
  apply okp_check. intros i Hi. destruct (_ !! i) as [c|] eqn:EC; [|done].
  eapply okp_bind; [apply okp_rollout; [done|]; by apply okp_snapshot|]. intros h2 s H2 (t & -> & HS).
  apply okp_stop. intros HR%negb_false_iff.
  set (h2 := (h ++ _) ++ _) in *. assert (exists d i c pods t, asked h2 (Rollout (GetDeployment ns deployment)) (Ok d) /\ nativeContainerIndex d "controller" = Ok i /\
     pt_Containers (dm_Template d) !! i = Some c /\ (forall o x, asked t o x -> asked h2 (Rollout o) x) /\
     converged t d "controller" (cr_Image c) pods) as HC.
  { exists d, i, c, (sn_Pods s), t. split_and!; try done; [apply asked_app, asked_snoc| |by apply HS].
    intros o x Hx. unfold asked, h2. rewrite in_app_iff. right. by apply (in_map ran t (Ev o x)). }
  assert (forall h', extends h2 h' -> exists d i c pods t, asked h' (Rollout (GetDeployment ns deployment)) (Ok d) /\ nativeContainerIndex d "controller" = Ok i /\
     pt_Containers (dm_Template d) !! i = Some c /\ (forall o x, asked t o x -> asked h' (Rollout o) x) /\
     converged t d "controller" (cr_Image c) pods) as HC'.
  { intros h' HE. destruct HC as (d' & i' & c' & pods & t' & H4 & H5 & H6 & H7 & H8). exists d', i', c', pods, t'.
    split_and!; try done; [by eapply asked_extends|]. intros o x Hx. eapply asked_extends; [exact HE|auto]. }
  destruct r.
  - unfold list_public. eapply okp_bind with (P := fun h' x => listing (k := KVPC) h' Everything (fst x) /\ listing (k := KSubnet) h' Everything (snd x)).
    { eapply okp_bind; [by apply okp_ulist|]. intros h3 vs _ ->. eapply okp_bind; [by apply okp_ulist|]. intros h4 ss _ ->.
      apply okp_Ok. split; [apply asked_app|]; apply asked_snoc. }
    intros h3 [vs ss] H3 [HV HSs]. do 2 (apply okp_stop; intros ?%negb_false_iff). apply okp_Ok. split; [by apply HC'|]. simpl in *.
    exists vs, ss. split_and!; [done|done|..]; intros o Ho; [rewrite forallb_forall in H|rewrite forallb_forall in H0];
      unfold is_ready; simpl; eapply observation_ready; eauto.
  - eapply okp_bind; [apply okp_bindings|]. intros h3 l H3 ->. apply okp_stop. intros HF%negb_false_iff. apply okp_Ok.
    split; [by apply HC'|]. exists l. split; [apply asked_snoc|]. intros b Hb. rewrite forallb_forall in HF.
    specialize (HF b Hb). unfold binding_confirmed in HF. apply orb_true_iff in HF as [HF|HF]; [left; by apply completed_acknowledged|right].
    breflect. done.
Qed.
Lemma okp_platform_hook a r ns deployment configMap path file h :
  okp reads (runPlatformHook a r ns deployment configMap path file) h (fun h' _ => hook_passed a r ns deployment configMap file h').
Proof.
  unfold runPlatformHook. apply okp_stop. intros _. destruct a; [apply okp_check_empty|apply okp_check_config|apply okp_verify_controller].
Qed.

(** The chart hooks of the platform only read, and let Helm go on only when they saw it is
    safe. A component is removed when no public object and no binding is left (authority), or
    every binding left is an acknowledged cleanup snapshot and no gateway Pod runs (site). A
    configuration changes when it is equivalent, only adds locations, or nothing uses it. A
    rollout is confirmed when it converged and every object is Ready in its current
    generation, or its current revision is applied. *)
Theorem platform_hooks_pass_only_when_safe a r ns deployment configMap path file :
  obeys reads (runPlatformHook a r ns deployment configMap path file) /\
  forall h, exec (runPlatformHook a r ns deployment configMap path file) h (Ret (Ok tt)) -> hook_passed a r ns deployment configMap file h.
Proof.
  split; [eapply okp_obeys, okp_platform_hook|]. intros h HX. exact (okp_exec _ _ _ _ _ (okp_platform_hook a r ns deployment configMap path file []) HX).
Qed.

(** ** Added locations *)

Lemma strings_equal l l' : DeepEqual (JArr (map JStr l)) (JArr (map JStr l')) = true -> l = l'.
Proof.
  revert l'. induction l as [|x l IH]; intros [|y l']; try done.
  change ((x =? y)%string && DeepEqual (JArr (map JStr l)) (JArr (map JStr l')) = true -> x :: l = y :: l').
  intros [->%String.eqb_eq H]%andb_true_iff. f_equal. by apply IH.
Qed.
Lemma location_json_inj x y : nativeJSONEqual (location_json x) (location_json y) = true -> x = y.
Proof.
  destruct x as [n r s d b ps cs], y as [n' r' s' d' b' ps' cs'].
  change ((n =? n')%string && ((r =? r')%string && ((s =? s')%string && ((d =? d')%string && ((b =? b')%string &&
    (DeepEqual (JArr (map JStr ps)) (JArr (map JStr ps')) && (DeepEqual (JArr (map JStr cs)) (JArr (map JStr cs')) && true)))))) = true ->
    mkLocation n r s d b ps cs = mkLocation n' r' s' d' b' ps' cs').
  intros H. rewrite !andb_true_iff, !String.eqb_eq in H. destruct H as (-> & -> & -> & -> & -> & ->%strings_equal & ->%strings_equal & _). done.
Qed.
Lemma find_location_unique name project l x : NoDup (map loc_Name l) -> In x l -> loc_Name x = name ->
  find_location name project l = (if existsb (String.eqb project) (loc_AllowedProjects x) then Ok x else Err (Errorf ("project is not authorized for location " ++ name))).
Proof.
  induction l as [|y l IH]; [done|]. cbn [map find_location]. rewrite NoDup_cons. intros [HN HD] [->|Hx] E.
  - by rewrite E, String.eqb_refl.
  - destruct (loc_Name y =? name)%string eqn:EY; simpl; [|by apply IH]. apply String.eqb_eq in EY. destruct HN. rewrite EY, <- E.
    apply list_elem_of_In. by apply in_map.
Qed.
(** The exception for additive configuration changes is safe: when it applies, both
    configurations are valid, every registered location is still there, unchanged, so every
    lookup of a registered location answers as before, there are more locations, and nothing
    but the locations differs. *)
Theorem added_locations_keep_the_others before after : platformAddsLocations before after = true ->
  exists old new, decode_config before = Some old /\ decode_config after = Some new /\
    (List.length (Locations old) < List.length (Locations new))%nat /\
    (forall x, In x (Locations old) -> In x (Locations new)) /\
    (forall x project, In x (Locations old) -> lookupLocation new (loc_Name x) project = lookupLocation old (loc_Name x) project) /\
    nativeJSONEqual (JObj (without "locations" before)) (JObj (without "locations" after)) = true.
Proof.
  unfold platformAddsLocations. destruct (decode_config before) as [old|] eqn:EO; [|done]. destruct (decode_config after) as [new|] eqn:EN; [|done].
  destruct (_ <=? _)%nat eqn:EL; [done|]. apply Nat.leb_gt in EL. destruct (nativeJSONEqual _ _) eqn:EJ; [|done]. cbn [negb]. intros HF.
  assert (forall l c, decode_config l = Some c -> NoDup (map loc_Name (Locations c))) as HV.
  { intros l c. unfold decode_config. destruct (config_decoder _ _) as [c'|]; [|done]. destruct (PlatformConfig.Validate c') as [[]|] eqn:EV; [|done].
    intros [= <-]. by apply Validate_locations in EV as (? & _). }
  assert (forall x, In x (Locations old) -> In x (Locations new)) as HI.
  { intros x Hx. rewrite forallb_forall in HF. specialize (HF x Hx). unfold location_named in HF.
    destruct (List.find _ _) as [y|] eqn:EF; [|done]. apply find_some in EF as [Hy _]. apply location_json_inj in HF as ->. by apply in_rev. }
  exists old, new. split_and!; try done. intros x project Hx. unfold lookupLocation.
  rewrite (find_location_unique _ _ (Locations new) x), (find_location_unique _ _ (Locations old) x); eauto.
Qed.
End commands.
