(* ===== verification/NativeWitness.v ===== *)
(** * The native lifecycle on a small cluster

    A cluster whose Deployments follow their templates at once is planned, installed,
    upgraded, rolled back and returned to stock. *)
From S2P Require Import Prelude GoStd Json JsonDecode Validation DestinationRoute Prog Api Kube LocalWorld GlobalApi GlobalConfig Infra InfraWorld Ovn.
From S2P Require Import NativePlan NativeLifecycle NativeSafety NativeHook.
Open Scope Z_scope.

(** ** The libraries *)

Definition reading {A} (f : json -> option A) (j : json) (path : list string) : res (option A) :=
  match nested j path with
  | None => Ok None
  | Some v => match f v with Some a => Ok (Some a) | None => Err (Errorf "wrong type") end
  end.
#[export] Instance nested_reads : NestedReads := {|
  ReadString := reading (fun j => match j with JStr s => Some s | _ => None end);
  ReadSlice := reading (fun j => match j with JArr l => Some l | _ => None end);
  ReadInt64 := reading (fun j => match j with JNum n => ParseInt n | _ => None end);
  ReadField := reading Some |}.
#[export] Instance selectors : Selectors := {| LabelSelectorAsSelector _ := Ok tt |}.
Definition container_json (c : Container) : json :=
  JObj [("name", JStr (cr_Name c)); ("image", JStr (cr_Image c)); ("command", JArr (map JStr (cr_Command c)))].
#[export] Instance encoding : TemplateEncoding := {|
  TemplateJSON t := JObj [("containers", JArr (map container_json (pt_Containers t))); ("rest", pt_Rest t)] |}.

Lemma container_json_equal c d : DeepEqual (container_json c) (container_json d) =
  (cr_Name c =? cr_Name d)%string && ((cr_Image c =? cr_Image d)%string &&
    (DeepEqual (JArr (map JStr (cr_Command c))) (JArr (map JStr (cr_Command d))) && true)).
Proof. reflexivity. Qed.
Lemma images_are_shown name image a b : equal_templates a b -> equal_templates (set_image name image a) (set_image name image b).
Proof.
  unfold equal_templates, nativeJSONEqual. destruct a as [la ra], b as [lb rb]. unfold set_image. simpl pt_Containers. simpl pt_Rest.
  assert (forall l l' r r', DeepEqual (TemplateJSON (mkTemplate l r)) (TemplateJSON (mkTemplate l' r')) =
            DeepEqual (JArr (map container_json l)) (JArr (map container_json l')) && (DeepEqual r r' && true)) as HD by reflexivity.
  rewrite !HD, !andb_true_r. intros [HL ->]%andb_true_iff. rewrite andb_true_r. clear HD. revert lb HL.
  induction la as [|c la IH]; intros [|d lb]; try done.
  change (DeepEqual (container_json c) (container_json d) && DeepEqual (JArr (map container_json la)) (JArr (map container_json lb)) = true ->
    let f := fun c => if is_named name c then mkContainer (cr_Name c) image (cr_Command c) (cr_Args c) (cr_MountPaths c) else c in
    DeepEqual (container_json (f c)) (container_json (f d)) && DeepEqual (JArr (map container_json (map f la))) (JArr (map container_json (map f lb))) = true).
  intros [HC HL]%andb_true_iff f. apply andb_true_iff. split; [|by apply IH]. rewrite container_json_equal in *.
  apply andb_true_iff in HC as [HN HC]. apply String.eqb_eq in HN. unfold f, is_named. rewrite HN.
  destruct (cr_Name d =? name)%string; cbn [cr_Name cr_Image cr_Command]; rewrite ?HN, !String.eqb_refl; [|done].
  by apply andb_true_iff in HC as [_ HC].
Qed.

(** ** The cluster *)

Record cluster := mkCluster { k_spec : json; k_spec_version : Z; k_template : PodTemplate; k_version : Z }.
Definition native_name : string := "kube-ovn-controller".
Definition app (name : string) : LabelSelector := mkSelector {["app" := name]} [].
Definition owned_by_set (uid kind : string) (name : string) : ObjectMeta :=
  mkMeta name "kube-system" ("set-" ++ name) "1" 1 0 None ∅ ∅ [] [mkOwnerRef "apps/v1" kind "owner" uid (Some true) None].
Definition deployment (name : string) (version : Z) (t : PodTemplate) : Deployment :=
  mkDeployment (mkMeta name "kube-system" ("uid-" ++ name) (Itoa version) 1 0 None ∅ ∅ [] []) [] (Some 1) false (Some (app name)) t 1 1 1 1 1 0.
Definition digest (c : ascii) : string := ("@sha256:" ++ string_of_list_ascii (repeat c 64))%string.
Definition ovn_template : PodTemplate := mkTemplate [mkContainer "ovn-central" ("ovn" ++ digest "0") [] [] []] JNull.
Definition template_of (w : cluster) (name : string) : PodTemplate := if (name =? native_name)%string then k_template w else ovn_template.
Definition pod_of (w : cluster) (name : string) : Pod :=
  mkPod (owned_by_set ("set-" ++ name) "ReplicaSet" (name ++ "-0")) (map (fun c => (cr_Name c, cr_Image c)) (pt_Containers (template_of w name)))
    "Running" [mkStatus name true true ""] [mkCoreCondition "Ready" "True"].
Definition empty_table : string :=
  Marshal (JObj [("headings", JArr [JStr "_uuid"; JStr "external_ids"]);
                 ("data", JArr [JArr [JArr [JStr "uuid"; JStr "u-1"]; JArr [JStr "map"; JArr [JArr [JStr "vendor"; JStr "kube-ovn"]]]]])]).
Definition stock_spec : json :=
  JObj [("group", JStr "kubeovn.io");
        ("versions", JArr [JObj [("name", JStr "v1"); ("served", JBool true); ("storage", JBool true);
           ("schema", JObj [("openAPIV3Schema", JObj [("properties", JObj
              [("spec", JObj [("properties", JObj [("bfdPort", JObj [])])]); ("status", JObj [("properties", JObj [])])])])])]])].
(** The API server applies the additions to the first version, and the removals undo them. *)
Definition add_fragment (spec : json) (o : nativePatchOperation) : json :=
  if (po_Op o =? "remove")%string then stock_spec
  else if (po_Op o =? "add")%string then
    match spec with
    | JObj l =>
        match member "versions" l with
        | Some (JArr (v :: vs)) =>
            let section := if (po_Path o =? fragment_path "spec")%string then "spec" else "status" in
            match set_nested v (po_Value o) ["schema"; "openAPIV3Schema"; "properties"; section; "properties"; "destinationRoutes"]%string with
            | Ok v => JObj (Infra.set_member "versions" (JArr (v :: vs)) l)
            | Err _ => spec
            end
        | _ => spec
        end
    | _ => spec
    end
  else spec.
Definition patched_template (t : PodTemplate) (patch : list nativePatchOperation) : PodTemplate :=
  fold_left (fun t o => match po_Op o, po_Value o with "replace", JStr image => set_image native_name image t | _, _ => t end%string) patch t.
Definition step (o : nop) (w : cluster) : nans o * cluster :=
  match o return nans o * cluster with
  | GetNamespace _ => (Ok "cluster-1", w)
  | ListVpcs => (Ok [mkNative "kubeovn.io/v1" "Vpc" (newMeta "tenant" "" ∅ ∅) (JObj [])], w)
  | GetCRD => (Ok (mkCRD (mkNative "apiextensions.k8s.io/v1" "CustomResourceDefinition"
                            (mkMeta "vpcs.kubeovn.io" "" "crd-1" (Itoa (k_spec_version w)) 1 0 None ∅ ∅ [] [])
                            (JObj [("spec", k_spec w)])) []), w)
  | GetDeployment _ name => (Ok (deployment name (k_version w) (template_of w name)), w)
  | ListReplicaSets _ s => let name := get (ls_MatchLabels s) "app" in (Ok [mkReplicaSet (owned_by_set ("uid-" ++ name) "Deployment" name)], w)
  | ListPods _ s => (Ok [pod_of w (get (ls_MatchLabels s) "app")], w)
  | PatchCRD dry patch =>
      (Ok tt, if dry then w else mkCluster (fold_left add_fragment patch (k_spec w)) (k_spec_version w + 1) (k_template w) (k_version w))
  | PatchDeployment dry _ _ patch =>
      let t := patched_template (k_template w) patch in
      (Ok t, if dry then w else mkCluster (k_spec w) (k_spec_version w) t (k_version w + 1))
  | ExecPod _ _ _ _ => (Ok empty_table, w)
  | ContextErr | NextTick => (None, w)
  end.
Definition history {A} (p : nprog A) (w : cluster) : nhistory := fst (fst (Prog.run step p w)).
Definition outcome {A} (p : nprog A) (w : cluster) : A := snd (fst (Prog.run step p w)).
Definition world_after {A} (p : nprog A) (w : cluster) : cluster := snd (Prog.run step p w).
Lemma cluster_exec {A} (p : nprog A) w a : outcome p w = a -> exec p (history p w) (Ret a).
Proof. intros <-. apply run_history. Qed.

(** ** Planning and installing *)

Definition stock_image : string := ("registry/kube-ovn:v1.16.3" ++ digest "b")%string.
Definition stock : cluster :=
  mkCluster stock_spec 5 (mkTemplate [mkContainer native_name stock_image ["/kube-ovn/start-controller.sh"] [] []] (JStr "volumes")) 9.
Definition bundle (c : ascii) : NativeBundle :=
  mkBundle nativeAPIVersion "NativeBundle" "v1.16.3" "98af25ffae49193a8dc16bbc39bd8ca4110ec367" nativePatchSHA256
    ("registry/kube-ovn-vpc" ++ digest c) "linux/amd64" nativeSchema stock_image "" ∅.
Definition options : Options := mkOptions "admin" 0.
Definition no_plan : nativePlan :=
  Plan (mkFields "" "" (bundle "0") "" "" "" "" "" "" "" JNull "" "" ovn_template [] [] [] [] []) None.
Definition planned (x : res nativePlan) : nativePlan := match x with Ok p => p | Err _ => no_plan end.
Definition plan1 : nativePlan := planned (outcome (makeNativePlan "admin" "kube-system" native_name native_name (bundle "c")) stock).
Definition install1 : nprog (res unit) := installNativePlan plan1 options false.
Lemma plan1_valid : validateNativePlan plan1 = Ok tt.
Proof. vm_compute. reflexivity. Qed.
Lemma install1_succeeds : outcome install1 stock = Ok tt.
Proof. vm_compute. reflexivity. Qed.
Definition patched : cluster := world_after install1 stock.
(** The same plan is resumed without a change, and nothing is installed over a drifted schema. *)
Lemma install1_resumes : outcome install1 patched = Ok tt /\ world_after install1 patched = patched.
Proof. split; vm_compute; reflexivity. Qed.
Lemma install1_stale : outcome install1 (mkCluster (JObj []) 5 (k_template stock) 9) <> Ok tt.
Proof. vm_compute. discriminate. Qed.
Definition schema_history : nhistory := firstn 9 (history install1 stock).
Lemma schema_called : called (history install1 stock) schema_history (PatchCRD false (pf_CRDPatch (fields plan1))).
Proof. apply called_at. vm_compute. reflexivity. Qed.

Lemma native_installs_are_guarded_witness :
  in_place plan1 false (history install1 stock) /\ right_cluster schema_history plan1 options /\ listed schema_history (intents_allow plan1).
Proof.
  pose proof (cluster_exec install1 stock _ install1_succeeds) as HX.
  destruct (native_installs_are_guarded plan1 options false) as [HO HE]. split; [by apply HE|].
  exact (schema_call _ _ _ _ _ (called_permitted _ _ _ _ _ _ HO HX schema_called)).
Defined.

(** ** Upgrading and rolling back *)

Definition plan2 : nativePlan := planned (outcome (makeNativeUpgradePlan options plan1 (bundle "d")) patched).
Definition upgrade : nprog (res unit) := installNativePlan plan2 options false.
Lemma plan2_valid : validateNativePlan plan2 = Ok tt.
Proof. vm_compute. reflexivity. Qed.
Lemma upgrade_succeeds : outcome upgrade patched = Ok tt.
Proof. vm_compute. reflexivity. Qed.
Definition upgraded : cluster := world_after upgrade patched.

Definition rollback_target : restoration :=
  match nativeRestoreTarget plan2 false with Ok t => t | Err _ => mkRestoration JNull ovn_template "" false end.
Definition uninstall_target : restoration :=
  match nativeRestoreTarget plan2 true with Ok t => t | Err _ => mkRestoration JNull ovn_template "" false end.
Lemma valid_receipts_lead_back_witness :
  (List.length (receipts plan2) <= 33)%nat /\ same_target (fields plan2) (fields plan1) /\
  rt_Image rollback_target = nb_Image (bundle "c") /\ rt_Stock uninstall_target = true.
Proof.
  destruct (valid_receipts_lead_back images_are_shown plan2 plan2_valid) as (HL & HS & HR & HU). split_and!.
  - exact HL.
  - apply HS. vm_compute. right. by left.
  - destruct (HR plan1 rollback_target) as (e & _ & _ & _ & HI & _); [vm_compute; reflexivity|vm_compute; reflexivity|].
    rewrite HI. vm_compute. reflexivity.
  - apply (HU uninstall_target). vm_compute. reflexivity.
Defined.

(** ** Returning to stock *)

Definition ovn : nativeOVNOptions := mkOVNOptions "kube-system" "ovn-central" "ovn-central" "unix:/run/ovn/ovnnb_db.sock".
Definition rollback : nprog (res unit) := restoreNative plan2 options ovn false false.
Lemma rollback_returns : outcome rollback upgraded = Ok tt /\
  k_template (world_after rollback upgraded) = k_template patched /\ k_spec (world_after rollback upgraded) = k_spec patched.
Proof. split_and!; vm_compute; reflexivity. Qed.
Definition uninstall : nprog (res unit) := restoreNative plan2 options ovn false true.
Lemma uninstall_returns : outcome uninstall upgraded = Ok tt /\ k_spec (world_after uninstall upgraded) = stock_spec.
Proof. split; vm_compute; reflexivity. Qed.
Definition removal_history : nhistory := firstn 30 (history uninstall upgraded).
Definition upgraded_crd : VpcCRD := match fst (step GetCRD upgraded) with Ok c => c | Err _ => mkCRD (mkNative "" "" (newMeta "" "" ∅ ∅) JNull) [] end.
Lemma removal_called : called (history uninstall upgraded) removal_history
  (PatchCRD false (nativeSchemaRestorePatch upgraded_crd (nb_Schema (pf_Bundle (fields plan2))))).
Proof. apply called_at. vm_compute. reflexivity. Qed.

Lemma native_restorations_are_guarded_witness :
  restored plan2 true (history uninstall upgraded) /\
  exists t crd, rt_Stock t = true /\ after (stock_running plan2 t) (removable plan2 ovn false crd) removal_history.
Proof.
  pose proof (cluster_exec uninstall upgraded _ (proj1 uninstall_returns)) as HX.
  destruct (native_restorations_are_guarded plan2 options ovn false true) as [HO HE]. split; [by apply HE|].
  exact (removal_call _ _ _ _ _ _ _ (called_permitted _ _ _ _ _ _ HO HX removal_called)).
Defined.

(** ** Owned rows *)

Lemma accepted_tables_show_no_owned_row_witness : exists t data,
  decode_table empty_table = Ok t /\ tb_Data t = Some data /\
  forall row, In row data -> exists index entries, carries index row entries /\ without_owner entries.
Proof.
  destruct (proj1 (accepted_tables_show_no_owned_row empty_table)) as (t & data & index & HD & HT & _ & _ & HR).
  - vm_compute. reflexivity.
  - exists t, data. split_and!; [done|done|]. intros row Hr. destruct (HR row Hr) as (_ & entries & HC & HW). by exists index, entries.
Defined.

(** ** The Helm hook *)

Definition image_of (p : option nativePlan) : string := match p with Some p => nb_Image (pf_Bundle (fields p)) | None => "" end.
Definition catalogued (image : string) : option nativePlan := List.find (has_image image) [plan1; plan2].
(** A state is written as the images of its receipts. *)
#[export] Instance state_encoding : StateEncoding := {|
  MarshalState st := Ok (hs_Kind st ++ "|" ++ image_of (hs_Active st) ++ "|" ++ image_of (hs_Pending st))%string;
  UnmarshalState s st :=
    match cut_byte "|" s with
    | Some (kind, s) =>
        match cut_byte "|" s with
        | Some (active, pending) => Ok (mkHookState (hs_APIVersion st) kind (hs_Release st) (catalogued active) (catalogued pending))
        | None => Err (Errorf "invalid")
        end
    | None => Err (Errorf "invalid")
    end |}.
Definition named (s : string) : list string := if (s =? "")%string then ["required"]%string else [].
#[export] Instance names : Validation := {|
  IsDNS1123Label := named; IsDNS1123Subdomain := named; IsValidLabelValue := named; IsQualifiedName := named;
  ValidateLabelSelector _ := [] |}.
Record hook_world := mkHookWorld { hw_cluster : cluster; hw_secret : option Secret; hw_version : Z }.
Definition written (w : hook_world) (s : Secret) : res Secret * hook_world :=
  let s := mkSecret (mkMeta (om_Name (sc_Meta s)) (om_Namespace (sc_Meta s)) "receipt-1" (Itoa (hw_version w)) 1 0 None
                       (om_Labels (sc_Meta s)) (om_Annotations (sc_Meta s)) [] []) (sc_Immutable s) (sc_Type s) (sc_Data s) in
  (Ok s, mkHookWorld (hw_cluster w) (Some s) (hw_version w + 1)).
Definition hook_step (o : hop) (w : hook_world) : hans o * hook_world :=
  match o return hans o * hook_world with
  | Native o => let '(x, c) := step o (hw_cluster w) in (x, mkHookWorld c (hw_secret w) (hw_version w))
  | GetReceipt _ _ => (match hw_secret w with Some s => Ok s | None => Err (ErrAPI NotFound "no receipt") end, w)
  | CreateReceipt s => written w s
  | UpdateReceipt s =>
      if bool_decide (option_map (fun s => om_ResourceVersion (sc_Meta s)) (hw_secret w) = Some (om_ResourceVersion (sc_Meta s)))
      then written w s else (Err (ErrAPI Conflict "changed"), w)
  | DeleteReceipt _ _ _ => (Ok tt, mkHookWorld (hw_cluster w) None (hw_version w))
  end.
Definition hook_options (action : string) : nativeHookOptions :=
  mkHookOptions action "extension" "global-vpc-system" "native-receipt" "/bundle.json" "kube-system" native_name native_name ovn.
Definition hook (action : string) (image : ascii) : hprog (res unit) := runNativeHook (hook_options action) options (Ok (bundle image)).
Definition after_hook (p : hprog (res unit)) (w : hook_world) : hook_world := snd (Prog.run hook_step p w).
Definition hook_outcome (p : hprog (res unit)) (w : hook_world) : res unit := snd (fst (Prog.run hook_step p w)).
Definition hook_history (p : hprog (res unit)) (w : hook_world) : hhistory := fst (fst (Prog.run hook_step p w)).
Lemma hook_exec p w r : hook_outcome p w = r -> exec p (hook_history p w) (Ret r).
Proof. intros <-. apply run_history. Qed.

Definition bare : hook_world := mkHookWorld stock None 1.
Definition released : hook_world := after_hook (hook "reconcile" "c") bare.
Definition rereleased : hook_world := after_hook (hook "reconcile" "d") released.
Definition rolled_back : hook_world := after_hook (hook "reconcile" "c") rereleased.
(** Installing, upgrading, rolling back and uninstalling succeed, and lead back. *)
Lemma hooks_succeed :
  hook_outcome (hook "reconcile" "c") bare = Ok tt /\ hook_outcome (hook "reconcile" "d") released = Ok tt /\
  hook_outcome (hook "reconcile" "c") rereleased = Ok tt /\ hook_outcome (hook "verify" "c") rolled_back = Ok tt /\
  hook_outcome (hook "uninstall" "c") rolled_back = Ok tt.
Proof. split_and!; vm_compute; reflexivity. Qed.
Lemma hooks_lead_back :
  k_template (hw_cluster rolled_back) = k_template (hw_cluster released) /\
  k_spec (hw_cluster (after_hook (hook "uninstall" "c") rolled_back)) = stock_spec /\
  hw_secret (after_hook (hook "uninstall" "c") rolled_back) = None.
Proof. split_and!; vm_compute; reflexivity. Qed.
(** A pass cut off after its plan was stored is resumed by the next one; a different
    bundle is refused until then. *)
Definition interrupted : hook_world :=
  mkHookWorld stock (Some (mkSecret (mkMeta "native-receipt" "global-vpc-system" "receipt-1" "7" 1 0 None
    (om_Labels (sc_Meta (new_receipt (hook_options "reconcile") ""))) (om_Annotations (sc_Meta (new_receipt (hook_options "reconcile") ""))) [] [])
    None "Opaque" {["state.json" := ("NativeHelmState||" ++ nb_Image (bundle "c"))%string]})) 8.
Lemma hooks_resume :
  hook_outcome (hook "reconcile" "c") interrupted = Ok tt /\
  k_template (hw_cluster (after_hook (hook "reconcile" "c") interrupted)) = k_template (hw_cluster released) /\
  hook_outcome (hook "reconcile" "d") interrupted <> Ok tt /\ hook_outcome (hook "verify" "c") interrupted <> Ok tt.
Proof. split_and!; vm_compute; (reflexivity || discriminate). Qed.

Definition rollback_position : nat :=
  (fix go (n : nat) (l : hhistory) := match l with
   | [] => O
   | Ev (Native (PatchDeployment false _ _ _)) _ :: _ => n
   | _ :: l => go (S n) l
   end) O (hook_history (hook "reconcile" "c") rereleased).
Definition rollback_change : nop :=
  match option_map ev_op (nth_error (hook_history (hook "reconcile" "c") rereleased) rollback_position) with Some (Native c) => c | _ => GetCRD end.
Lemma rollback_called : called (hook_history (hook "reconcile" "c") rereleased)
  (firstn rollback_position (hook_history (hook "reconcile" "c") rereleased)) (Native rollback_change).
Proof. apply called_at. vm_compute. reflexivity. Qed.
Lemma rollback_changes : ~ harmless rollback_change.
Proof. vm_compute. tauto. Qed.

Lemma hooks_act_under_stored_receipts_witness :
  succeeded (hook_options "reconcile") options (Ok (bundle "c")) (hook_history (hook "reconcile" "c") rereleased) /\
  exists h1 c, called (hook_history (hook "reconcile" "c") rereleased) h1 (Native c) /\ ~ harmless c /\
    hook_call (hook_options "reconcile") options h1 (Native c).
Proof.
  destruct hooks_succeed as (_ & _ & HS & _). pose proof (hook_exec _ _ _ HS) as HX.
  destruct (hooks_act_under_stored_receipts (hook_options "reconcile") options (Ok (bundle "c"))) as [HO HE].
  split; [by apply HE|].
  pose proof (called_permitted _ _ _ _ _ _ HO HX rollback_called) as HC. eexists _, _. split_and!; [exact rollback_called|exact rollback_changes|exact HC].
Defined.
Lemma rollbacks_end_witness : (stored (hook_history (hook "reconcile" "c") rereleased) <= 67)%nat /\
  stored (hook_history (hook "reconcile" "c") rereleased) = 2%nat.
Proof.
  split; [|vm_compute; reflexivity]. destruct hooks_succeed as (_ & _ & HS & _).
  exact (rollbacks_end _ _ _ _ _ (hook_exec _ _ _ HS)).
Defined.

From S2P Require Import UserCommands Api PlatformConfig Kube PlatformPlan.

(** ** The public commands *)

#[export] Program Instance polling : Polling := {| PollUntilContextCancel A body := polls 3 body |}.
Next Obligation. intros A body. by exists 3%nat. Defined.
#[export] Program Instance conditions : Conditions := {| FindStatusCondition l t := List.find (fun c => (cd_Type c =? t)%string) l |}.
Next Obligation. done. Defined.

Record project := mkProject { j_vpcs : list VPC; j_subnets : list Subnet; j_bindings : list NetworkBinding }.
Definition not_named {A} (meta : A -> ObjectMeta) (name : string) (l : list A) : list A :=
  List.filter (fun x => negb (om_Name (meta x) =? name)%string) l.
Definition by_name {A} (meta : A -> ObjectMeta) (name : string) (l : list A) : res A :=
  match List.find (fun x => (om_Name (meta x) =? name)%string) l with Some x => Ok x | None => Err (ErrAPI NotFound "not found") end.
Definition user_step (o : uop) (w : project) : uans o * project :=
  match o return uans o * project with
  | Rollout c => let '(x, _) := step c stock in (x, w)
  | Client c =>
      match c return Kube.ans c * project with
      | Kube.Get _ k _ name =>
          (match k return res (object k) with
           | KVPC => by_name vpc_Meta name (j_vpcs w) | KSubnet => by_name sn_Meta name (j_subnets w)
           | _ => Err (ErrAPI NotFound "not found")
           end, w)
      | Kube.ListObjects _ k _ =>
          (match k return res (list (object k)) with
           | KVPC => Ok (j_vpcs w) | KSubnet => Ok (j_subnets w) | KBinding => Ok (j_bindings w) | _ => Ok []
           end, w)
      | Kube.Create _ k x => (Ok x, w)
      | Kube.Delete _ k _ name _ =>
          (Ok tt, match k with
                  | KVPC => mkProject (not_named vpc_Meta name (j_vpcs w)) (j_subnets w) (j_bindings w)
                  | KSubnet => mkProject (j_vpcs w) (not_named sn_Meta name (j_subnets w)) (j_bindings w)
                  | _ => w
                  end)
      | Kube.Update _ k _ | Kube.UpdateStatus _ k _ => (Err (Errorf "refused"), w)
      | Kube.RandRead _ | Kube.ReadFile _ _ | Kube.Probe _ _ => (Err (Errorf "refused"), w)
      end
  end.
Definition played {A} (p : prog uans A) (w : project) : list (event uans) := fst (fst (Prog.run user_step p w)).
Definition result {A} (p : prog uans A) (w : project) : A := snd (fst (Prog.run user_step p w)).
Lemma played_exec {A} (p : prog uans A) w a : result p w = a -> exec p (played p w) (Ret a).
Proof. intros <-. apply run_history. Qed.

Definition user_meta (name : string) : ObjectMeta := mkMeta name "demo" ("uid-" ++ name) "4" 1 0 None ∅ ∅ [] [].
Definition now_ready : list Condition := [mkCondition "Ready" "True" "Applied" "" 1 0].
Definition vpc1 : VPC := mkVPC (user_meta "net") (mkVPCSpec "default") (mkVPCStatus 1 1 "Ready" [] [] now_ready).
Definition subnet1 : Subnet :=
  mkSubnet (user_meta "app") (mkSubnetSpec "net" "dc-a" "10.60.1.0/24") (mkSubnetStatus 1 "Ready" "uid-net" "" "" "" now_ready).
Definition tombstone_spec : NetworkBindingSpec :=
  mkBindingSpec (mkIdentity "demo" "net" "uid-net") 1 64512 "dc-a" "default" "native" "geneve-bgp" [] None [] [] [] "" true.
Definition tombstone : NetworkBinding :=
  let spec := mkBindingSpec (nb_VPCRef tombstone_spec) 1 64512 "dc-a" "default" "native" "geneve-bgp" [] None [] [] [] (Revision tombstone_spec) true in
  mkBinding (mkMeta (BindingName "uid-net" "dc-a") "site" "uid-b" "9" 2 0 None ∅ {["platform.globalvpc.io/source-binding-uid" := "uid-0"]} [] []) spec
    (mkBindingStatus 2 "Deleted" (Revision tombstone_spec) [] [] [mkCondition "Ready" "False" "CleanupComplete" "" 2 0]).
Definition demo : project := mkProject [vpc1] [subnet1] [tombstone].
Definition project_settings : settings := mkSettings "demo" "table".
Definition ask (a : action) : request := mkRequest false a "net" "" false "" "" "default" false true.
Definition without_subnet : project := mkProject [vpc1] [] [tombstone].

(** A VPC with a Subnet is not deleted; one without is, and is seen gone. *)
Lemma vpc_commands :
  result (runResources Local project_settings (ask DoWait)) demo = Ok (Shown KVPC [vpc1]) /\
  result (runResources Local project_settings (ask DoDelete)) demo = Err (Errorf "VPC still has Subnets") /\
  result (runResources Local project_settings (ask DoDelete)) without_subnet = Ok (Deletion true).
Proof. split_and!; vm_compute; reflexivity. Qed.
Definition removal : prog uans (res output) := runResources Local project_settings (ask DoDelete).
Lemma vpc_removed : called (played removal without_subnet) (firstn 2 (played removal without_subnet)) (deletion Local (k := KVPC) vpc1).
Proof. apply called_at. vm_compute. reflexivity. Qed.
Definition waiting : prog uans (res output) := runResources Local project_settings (ask DoWait).
Lemma public_commands_are_guarded_witness :
  (exists o t, played waiting demo = [Ev (reads_object Local project_settings (ask DoWait)) (Ok o)] ++ t /\
     same_ready Local project_settings (ask DoWait) t o) /\
  (exists t, gone Local t KVPC "demo" "net") /\
  public_call Local project_settings (ask DoDelete) (firstn 2 (played removal without_subnet)) (deletion Local (k := KVPC) vpc1).
Proof.
  destruct vpc_commands as (HW & _ & HD). pose proof (played_exec _ _ _ HD) as HX. split; [|split].
  - exact (proj2 (public_commands_are_guarded Local project_settings (ask DoWait)) _ _ (played_exec _ _ _ HW)).
  - destruct (proj2 (public_commands_are_guarded Local project_settings (ask DoDelete)) _ _ HX) as (o & t1 & t & _ & HG).
    exists t. by apply HG.
  - exact (called_permitted _ _ _ _ _ _ (proj1 (public_commands_are_guarded Local project_settings (ask DoDelete))) HX vpc_removed).
Defined.

Definition drain : prog uans (res unit) := runDrain Local ["demo"] "".
Lemma drain_succeeds : result drain demo = Ok tt.
Proof. vm_compute. reflexivity. Qed.
Definition drain_history : list (event uans) := firstn 8 (played drain demo).
Lemma drain_reaches_the_vpc : called (played drain demo) drain_history (deletion Local (k := KVPC) vpc1).
Proof. apply called_at. vm_compute. reflexivity. Qed.
Lemma drains_are_ordered_witness :
  drain_call Local ["demo"] drain_history (deletion Local (k := KVPC) vpc1) /\
  then_seen (fun h => cleared Local ["demo"] KSubnet h /\ cleared Local ["demo"] KVPC h) (empty_projects Local ["demo"]) (played drain demo).
Proof.
  pose proof (played_exec _ _ _ drain_succeeds) as HX. destruct (drains_are_ordered Local ["demo"] "") as [HO HE]. split.
  - exact (called_permitted _ _ _ _ _ _ HO HX drain_reaches_the_vpc).
  - exact (HE _ HX).
Defined.

Definition check_site : prog uans (res unit) := runPlatformHook Local CheckEmpty SiteRole "site" "" "" "" (Ok "").
Lemma check_site_passes : result check_site demo = Ok tt.
Proof. vm_compute. reflexivity. Qed.
(** The authority's component stays while public objects are left. *)
Lemma check_authority_blocks :
  result (runPlatformHook Local CheckEmpty AuthorityRole "site" "" "" "" (Ok "")) demo = Err (Errorf "uninstall blocked: public objects remain").
Proof. vm_compute. reflexivity. Qed.
Lemma platform_hooks_pass_only_when_safe_witness : cleaned Local SiteRole "site" (played check_site demo).
Proof.
  destruct (platform_hooks_pass_only_when_safe Local CheckEmpty SiteRole "site" "" "" "" (Ok "")) as [_ HE].
  exact (HE _ (played_exec _ _ _ check_site_passes)).
Defined.

Definition place (name : string) : json :=
  JObj [("allowedProjects", JArr [JStr "demo"]); ("bindingNamespace", JStr ("ns-" ++ name)%string); ("cidrPools", JArr [JStr "10.60.0.0/16"]);
        ("dc", JStr name); ("name", JStr name); ("region", JStr "r"); ("site", JStr "s")].
Definition platform (l : list json) : list (string * json) :=
  [("locations", JArr l); ("networkClasses", JObj [("default", JObj [("transportProfile", JStr "geneve-bgp")])])].
Definition one_place := platform [place "dc-a"].
Definition two_places := platform [place "dc-b"; place "dc-a"].
Lemma two_places_add : platformAddsLocations one_place two_places = true /\ platformAddsLocations two_places one_place = false.
Proof. split; vm_compute; reflexivity. Qed.
Lemma added_locations_keep_the_others_witness : exists old new, decode_config one_place = Some old /\ decode_config two_places = Some new /\
  forall x, In x (Locations old) -> lookupLocation new (loc_Name x) "demo" = lookupLocation old (loc_Name x) "demo".
Proof.
  destruct (added_locations_keep_the_others one_place two_places (proj1 two_places_add)) as (old & new & H1 & H2 & _ & _ & HL & _).
  exists old, new. split_and!; [exact H1|exact H2|auto].
Defined.
