(* ===== verification/RouteWriter.v ===== *)
(** * [integration/kube-ovn/overlay]: the native writer of destination routes

    [pkg/ovs/ovn-nb-destination-route.go], which makes one guarded OVSDB transaction out
    of a compiled plan, and [pkg/controller/vpc_destination_routes.go], which acknowledges
    it. The overlay is compiled inside Kube-OVN: its client, its generated tables and the
    OVSDB library are outside the repository, so their calls have arbitrary answers and
    their constants are parameters. *)
From S2P Require Import Prelude GoStd Json NetIP NetIPFacts DestinationRoute Prog Api.
Open Scope Z_scope.

(** ** Rows

    The columns the code names, and the rest of a row. *)
Record StaticRoute := mkRoute {
  sr_UUID : string; sr_Policy : option string; sr_IPPrefix : string; sr_Nexthop : string; sr_BFD : option string;
  sr_RouteTable : string; sr_ExternalIDs : gmap string string; sr_Options : gmap string string;
  sr_SelectionFields : list string; sr_Rest : list (string * string) }.
Record BFDRow := mkBFDRow {
  bf_UUID : string; bf_LogicalPort : string; bf_DstIP : string; bf_MinRx : option Z; bf_MinTx : option Z;
  bf_DetectMult : option Z; bf_ExternalIDs : gmap string string; bf_Rest : list (string * string) }.
Record LogicalRouter := mkRouter { lr_UUID : string; lr_Ports : list string; lr_StaticRoutes : list string }.
Record RouterPort := mkPort { lp_Name : string; lp_Networks : list string; lp_Options : gmap string string }.
Record RouterPolicy := mkPolicy { py_BFDSessions : list string }.
#[export] Instance StaticRoute_eq_dec : EqDecision StaticRoute.
Proof. solve_decision. Defined.

(** The constants of Kube-OVN the code uses *)
Class KubeOVN := {
  CniTypeName : string; StaticRouteBfdEcmp : string; DefaultVpc : string; PolicySrc : string;
  LogicalRouterTable : string; BFDTable : string; LogicalRouterStaticRouteTable : string }.
(** [c.Create], [c.Where(...).Update], [c.Where(...).Delete] and
    [LogicalRouterUpdateStaticRouteOp] turn a request into operations of the library. *)
Inductive request :=
| CreateBFD (b : BFDRow)
| UpdateTimers (b : BFDRow)
| DeleteBFD (b : BFDRow)
| CreateRoute (r : StaticRoute)
| MutateRoutes (router : string) (ids : list string) (insert : bool).
Class OvsLibrary := { libop : Type; is_wait : libop -> bool }.
(** Each iteration over a Go map has an order of its own. *)
Class MapOrder := {
  shuffle : nat -> forall {A}, list A -> list A;
  shuffle_perm : forall n A (l : list A), Permutation (shuffle n l) l }.

(** A [wait] operation with timeout zero: [Equal] is its [until]. *)
Inductive value := VString (s : string) | VUUID (id : string) | VSet (ids : list string) | VMap (m : gmap string string).
Record wait := mkWait {
  w_Table : string; w_Where : list (string * value); w_Columns : list string; w_Equal : bool; w_Rows : list (list (string * value)) }.

Section writer.
Context {KOVN : KubeOVN} {LIB : OvsLibrary} {ORDER : MapOrder}.

Inductive operation := Wait (w : wait) | Lib (l : libop).
Definition mutates (o : operation) : bool := match o with Wait _ => false | Lib l => negb (is_wait l) end.

(** ** The VPC of the native controller *)

Record StaticRouteSpec := mkStatic { ss_CIDR : string; ss_RouteTable : string; ss_Policy : string }.
Record DestinationRoutesStatus := mkACK { ak_Capability : string; ak_ObservedGeneration : Z; ak_AppliedHash : string; ak_Ready : bool }.
(** [kv_DestinationRoutes] is [None] when nil; [kv_BFDEnabled] is [BFDPort.IsEnabled()]. *)
Record KVpc := mkKVpc {
  kv_Name : string; kv_UID : string; kv_Generation : Z; kv_DestinationRoutes : option (list Intent);
  kv_StaticRoutes : list (option StaticRouteSpec); kv_BFDEnabled : bool; kv_Default : bool; kv_ACK : DestinationRoutesStatus }.
Definition with_ack (a : DestinationRoutesStatus) (v : KVpc) : KVpc :=
  mkKVpc (kv_Name v) (kv_UID v) (kv_Generation v) (kv_DestinationRoutes v) (kv_StaticRoutes v) (kv_BFDEnabled v) (kv_Default v) a.

(** ** Calls *)

Inductive rop :=
| GetLogicalRouter (name : string)
| ListRoutes (router : string) (owner : option string)
| FindBFD
| GetPort (id : string)
| ListAllRoutes
| ListAllPolicies
| ListRouters
| NamedUUID
| Build (r : request)
| Transact (ops : list operation)
| ListVpcUIDs
| UpdateStatus (v : KVpc)
| AddAfter (name : string) (seconds : Z).
Definition rans (o : rop) : Type :=
  match o with
  | GetLogicalRouter _ => res (option LogicalRouter)
  | ListRoutes _ _ | ListAllRoutes => res (list StaticRoute)
  | FindBFD => res (list BFDRow)
  | GetPort _ => res RouterPort
  | ListAllPolicies => res (list RouterPolicy)
  | ListRouters | ListVpcUIDs => res (list string)
  | NamedUUID => string
  | Build _ => res (list libop)
  | Transact _ | UpdateStatus _ => res unit
  | AddAfter _ _ => unit
  end.
Notation rprog := (prog rans).
Definition get_router (name : string) : rprog (res (option LogicalRouter)) := call (GetLogicalRouter name).
Definition list_routes (router : string) (owner : option string) : rprog (res (list StaticRoute)) := call (ListRoutes router owner).
Definition find_bfd : rprog (res (list BFDRow)) := call FindBFD.
Definition get_port (id : string) : rprog (res RouterPort) := call (GetPort id).
Definition named_uuid : rprog string := call NamedUUID.
Definition build (r : request) : rprog (res (list operation)) := l <-! call (Build r) ;; Ret (Ok (map Lib l)).
Definition transact (ops : list operation) : rprog (res unit) := call (Transact ops).

(** ** Waits *)

Definition destinationWait (table key : string) (v : value) (column : string) (expected : value) : wait :=
  mkWait table [(key, v)] [column] true [[(column, expected)]].
Definition destinationBFDWait (port hop : string) (existing : option BFDRow) : wait :=
  let tuple := [("logical_port", VString port); ("dst_ip", VString hop)]%string in
  match existing with
  | None => mkWait BFDTable tuple ["logical_port"; "dst_ip"] false [tuple]
  | Some b => mkWait BFDTable tuple ["_uuid"; "external_ids"] true [[("_uuid", VUUID (bf_UUID b)); ("external_ids", VMap (bf_ExternalIDs b))]]
  end.
Definition router_wait (r : LogicalRouter) : wait :=
  destinationWait LogicalRouterTable "_uuid" (VUUID (lr_UUID r)) "static_routes" (VSet (lr_StaticRoutes r)).
Definition bfd_wait (b : BFDRow) : wait := destinationWait BFDTable "_uuid" (VUUID (bf_UUID b)) "external_ids" (VMap (bf_ExternalIDs b)).
Definition route_wait (r : StaticRoute) : wait :=
  destinationWait LogicalRouterStaticRouteTable "_uuid" (VUUID (sr_UUID r)) "external_ids" (VMap (sr_ExternalIDs r)).

(** ** The checks on the router *)

Definition route_owned (owner : string) (r : StaticRoute) : bool := (get (sr_ExternalIDs r) OwnerKey =? owner)%string.
Definition session_owned (owner : string) (b : BFDRow) : bool := (get (bf_ExternalIDs b) OwnerKey =? owner)%string.
(** A prefix, or the host prefix of an address *)
Definition prefix_or_host (s : string) : option Prefix :=
  match ParsePrefix s with
  | Some p => Some p
  | None => match ParseAddr s with Some host => Some (PrefixFrom host (BitLen host)) | None => None end
  end.
Definition at_or_within (dst : Prefix) (s : string) : bool :=
  match prefix_or_host s with
  | Some p => Overlaps dst p && (pbits dst <=? pbits p)
  | None => false
  end.
Definition foreign_conflict (owner : string) (dst : Prefix) (old : StaticRoute) : bool :=
  negb (route_owned owner old) && (sr_RouteTable old =? "")%string &&
  match sr_Policy old with None => true | Some p => (p =? "dst-ip")%string end && at_or_within dst (sr_IPPrefix old).
Definition connected_overlap (dst : Prefix) (raw : string) : bool :=
  match ParsePrefix raw with Some connected => Overlaps connected dst | None => false end.
(** [netip.MustParsePrefix] panics. *)
Definition ErrPanic : error := Errorf "panic".
Fixpoint check_routes (owner : string) (networks : list string) (current : list StaticRoute) (routes : list Intent) : res unit :=
  match routes with
  | [] => Ok tt
  | route :: rest =>
      match ParsePrefix (CIDR route) with
      | None => Err ErrPanic
      | Some dst =>
          reject existsb (connected_overlap dst) networks with Errorf "destination overlaps a connected network" ;;
          reject existsb (foreign_conflict owner dst) current with Errorf "destination conflicts with a foreign static route" ;;
          check_routes owner networks current rest
      end
  end.
(** The loop over the ports: whether the BFD port is ready, and the connected networks *)
Fixpoint read_ports (bfdPort : string) (ids : list string) (found : bool) (networks : list string) : rprog (res (bool * list string)) :=
  match ids with
  | [] => Ret (Ok (found, networks))
  | id :: ids =>
      port <-! get_port id ;;
      let bfd_only := (get (lp_Options port) "bfd-only" =? "true")%string in
      if (lp_Name port =? bfdPort)%string then read_ports bfdPort ids bfd_only networks
      else read_ports bfdPort ids found (if bfd_only then networks else networks ++ lp_Networks port)
  end.
Definition check_router (owner bfdPort : string) (plan : Plan) (lr : LogicalRouter) (current : list StaticRoute) : rprog (res unit) :=
  x <-! read_ports bfdPort (lr_Ports lr) false [] ;;
  stop negb (fst x) with Errorf "dedicated native BFD port is not ready" ;;
  stop negb (forallb (fun hop => ReachableGateway hop (snd x)) (map fst (map_to_list (Sessions plan))))
    with Errorf "destination gateway is not directly connected" ;;
  lift (check_routes owner (snd x) current (Routes plan)).

(** ** The sessions *)

Fixpoint sessions_by_hop (owner bfdPort : string) (wanted : gmap string BFD) (l : list BFDRow) (byHop : gmap string BFDRow)
    : res (gmap string BFDRow) :=
  match l with
  | [] => Ok byHop
  | b :: l =>
      if negb (bf_LogicalPort b =? bfdPort)%string || bool_decide (wanted !! bf_DstIP b = None)
      then sessions_by_hop owner bfdPort wanted l byHop
      else
        reject negb (session_owned owner b) || negb (match byHop !! bf_DstIP b with None => true | Some _ => false end)
          with Errorf "destination BFD tuple is foreign or duplicated" ;;
        sessions_by_hop owner bfdPort wanted l (<[bf_DstIP b := b]> byHop)
  end.
Definition marks (owner : string) : gmap string string := {["vendor" := CniTypeName; OwnerKey := owner]}.
Definition new_session (owner bfdPort hop id : string) (t : BFD) : BFDRow :=
  mkBFDRow id bfdPort hop (Some (MinRX t)) (Some (MinTX t)) (Some (Multiplier t)) (marks owner) [].
Definition with_timers (t : BFD) (b : BFDRow) : BFDRow :=
  mkBFDRow (bf_UUID b) (bf_LogicalPort b) (bf_DstIP b) (Some (MinRX t)) (Some (MinTX t)) (Some (Multiplier t)) (bf_ExternalIDs b) (bf_Rest b).
Definition has_timers (t : BFD) (b : BFDRow) : bool :=
  bool_decide (bf_MinRx b = Some (MinRX t)) && bool_decide (bf_MinTx b = Some (MinTX t)) && bool_decide (bf_DetectMult b = Some (Multiplier t)).
(** The operations for one hop, and its session *)
Definition session_ops (owner bfdPort : string) (byHop : gmap string BFDRow) (s : string * BFD) : rprog (res (list operation * BFDRow)) :=
  let '(hop, t) := s in
  let guard := Wait (destinationBFDWait bfdPort hop (byHop !! hop)) in
  match byHop !! hop with
  | None =>
      id <- named_uuid ;;
      let b := new_session owner bfdPort hop id t in
      next <-! build (CreateBFD b) ;;
      Ret (Ok (guard :: next, b))
  | Some old =>
      if has_timers t old then Ret (Ok ([guard], old))
      else
        next <-! build (UpdateTimers (with_timers t old)) ;;
        Ret (Ok (guard :: Wait (bfd_wait old) :: next, with_timers t old))
  end.

(** ** The routes *)

Definition destinationRouteKey (r : StaticRoute) : string := (sr_IPPrefix r ++ "|" ++ sr_Nexthop r)%string.
(** The rows without their identity, their fields sorted: a nil and an empty map or slice
    are the same here. *)
Definition comparable (r : StaticRoute) : StaticRoute :=
  mkRoute "" (sr_Policy r) (sr_IPPrefix r) (sr_Nexthop r) (sr_BFD r) (sr_RouteTable r) (sr_ExternalIDs r) (sr_Options r)
    (sort_strings (sr_SelectionFields r)) (sr_Rest r).
Definition destinationRouteEqual (a b : StaticRoute) : bool := bool_decide (comparable a = comparable b).
Definition put_route (desired : gmap string StaticRoute) (r : StaticRoute) : gmap string StaticRoute :=
  <[destinationRouteKey r := r]> desired.
Definition guard_route (ids : gmap string string) (i : Intent) : StaticRoute :=
  mkRoute "" (Some "dst-ip") (CIDR i) "discard" None "" ids ∅ [] [].
Definition hop_route (ids : gmap string string) (i : Intent) (child hop bfd : string) : StaticRoute :=
  mkRoute "" (Some "dst-ip") child hop (Some bfd) "" ids {[StaticRouteBfdEcmp := "true"]} (SelectionFields i) [].
Fixpoint hop_routes (ids : gmap string string) (byHop : gmap string BFDRow) (i : Intent) (child : string) (hops : list string) : res (list StaticRoute) :=
  match hops with
  | [] => Ok []
  | hop :: hops =>
      match byHop !! hop with
      | None => Err ErrPanic
      | Some b => l <-? hop_routes ids byHop i child hops ;; Ok (hop_route ids i child hop (bf_UUID b) :: l)
      end
  end.
Definition route_ids (owner : string) (i : Intent) : gmap string string :=
  {["vendor" := CniTypeName; OwnerKey := owner; RouteKey := CIDR i]}.
(** The rows of one destination: the discard guard, and both halves over every hop *)
Definition intent_routes (owner : string) (byHop : gmap string BFDRow) (i : Intent) : res (list StaticRoute) :=
  let ids := route_ids owner i in
  match Children (CIDR i) with
  | None => Err ErrPanic
  | Some (c1, c2) =>
      l1 <-? hop_routes ids byHop i c1 (NextHops i) ;;
      l2 <-? hop_routes ids byHop i c2 (NextHops i) ;;
      Ok (guard_route ids i :: l1 ++ l2)
  end.
Fixpoint plan_routes (owner : string) (byHop : gmap string BFDRow) (routes : list Intent) : res (list StaticRoute) :=
  match routes with
  | [] => Ok []
  | i :: routes =>
      l <-? intent_routes owner byHop i ;;
      l' <-? plan_routes owner byHop routes ;;
      Ok (l ++ l')
  end.
Definition desired_routes (owner : string) (byHop : gmap string BFDRow) (routes : list Intent) : res (gmap string StaticRoute) :=
  l <-? plan_routes owner byHop routes ;; Ok (fold_left put_route l ∅).
(** The loop over the current rows: the rows to delete, and what is left to create *)
Fixpoint retire (owner : string) (current : list StaticRoute) (desired : gmap string StaticRoute) : list StaticRoute * gmap string StaticRoute :=
  match current with
  | [] => ([], desired)
  | old :: current =>
      if negb (route_owned owner old) then retire owner current desired
      else
        let key := destinationRouteKey old in
        if match desired !! key with Some want => destinationRouteEqual old want | None => false end
        then retire owner current (delete key desired)
        else let '(retired, desired) := retire owner current desired in (old :: retired, desired)
  end.
Definition with_uuid (id : string) (r : StaticRoute) : StaticRoute :=
  mkRoute id (sr_Policy r) (sr_IPPrefix r) (sr_Nexthop r) (sr_BFD r) (sr_RouteTable r) (sr_ExternalIDs r) (sr_Options r)
    (sr_SelectionFields r) (sr_Rest r).
Definition create_route (r : StaticRoute) : rprog (res (list operation * string)) :=
  id <- named_uuid ;;
  next <-! build (CreateRoute (with_uuid id r)) ;;
  Ret (Ok (next, id)).
Definition mutate_routes (router : string) (ids : list string) (insert : bool) : rprog (res (list operation)) :=
  match ids with [] => Ret (Ok []) | _ => build (MutateRoutes router ids insert) end.

(** ** Obsolete sessions *)

Definition route_consumes (id : string) (delIDs : list string) (r : StaticRoute) : bool :=
  match sr_BFD r with Some b => (b =? id)%string | None => false end && negb (existsb (String.eqb (sr_UUID r)) delIDs).
Definition obsolete_ops (owner : string) (wanted delIDs : list string) (allRoutes : list StaticRoute) (allPolicies : list RouterPolicy)
    (s : BFDRow) : rprog (res (list operation)) :=
  if negb (session_owned owner s) || existsb (String.eqb (bf_UUID s)) wanted then Ret (Ok [])
  else
    stop existsb (route_consumes (bf_UUID s) delIDs) allRoutes with Errorf "obsolete destination BFD has another route consumer" ;;
    stop existsb (fun p => existsb (String.eqb (bf_UUID s)) (py_BFDSessions p)) allPolicies
      with Errorf "obsolete destination BFD has a policy consumer" ;;
    next <-! build (DeleteBFD s) ;;
    Ret (Ok (Wait (bfd_wait s) :: next)).

(** ** [ReconcileDestinationRoutes] *)

Definition put_session (byHop : gmap string BFDRow) (b : BFDRow) : gmap string BFDRow := <[bf_DstIP b := b]> byHop.
(** The part after the checks: every operation, in order *)
Definition plan_ops (router owner bfdPort : string) (plan : Plan) (lr : option LogicalRouter) (current : list StaticRoute) (sessions : list BFDRow)
    : rprog (res (list operation)) :=
  byHop <-! lift (sessions_by_hop owner bfdPort (Sessions plan) sessions ∅) ;;
  xs <-! collect (session_ops owner bfdPort byHop) (shuffle 0 (map_to_list (Sessions plan))) ;;
  let used := map snd xs in
  desired <-! lift (desired_routes owner (fold_left put_session used byHop) (Routes plan)) ;;
  let '(retired, missing) := retire owner current desired in
  let delIDs := map sr_UUID retired in
  ys <-! collect create_route (map snd (shuffle 1 (map_to_list missing))) ;;
  deletes <-! mutate_routes router delIDs false ;;
  inserts <-! mutate_routes router (map snd ys) true ;;
  allRoutes <-! (call ListAllRoutes : rprog (res (list StaticRoute))) ;;
  allPolicies <-! (call ListAllPolicies : rprog (res (list RouterPolicy))) ;;
  zs <-! collect (obsolete_ops owner (map bf_UUID used) delIDs allRoutes allPolicies) sessions ;;
  Ret (Ok (match lr with Some r => [Wait (router_wait r)] | None => [] end ++ List.concat (map fst xs) ++
           map (fun r => Wait (route_wait r)) retired ++ List.concat (map fst ys) ++ deletes ++ inserts ++ List.concat zs)).
Definition ReconcileDestinationRoutes (router owner bfdPort : string) (plan : Plan) : rprog (res unit) :=
  stop (owner =? "")%string with Errorf "destination routes require VPC UID" ;;
  lr <-! get_router router ;;
  stop bool_decide (lr = None) && negb (List.length (Routes plan) =? 0)%nat with Errorf "destination router absent" ;;
  current <-! match lr with None => Ret (Ok []) | Some _ => list_routes router None end ;;
  sessions <-! find_bfd ;;
  _ <-! match lr with
        | Some r => if negb (List.length (Routes plan) =? 0)%nat then check_router owner bfdPort plan r current else Ret (Ok tt)
        | None => Ret (Ok tt)
        end ;;
  ops <-! plan_ops router owner bfdPort plan lr current sessions ;;
  if existsb mutates ops then transact ops else Ret (Ok tt).

(** ** The controller *)

Definition check_statics (dst : Prefix) (l : list (option StaticRouteSpec)) : bool :=
  existsb (fun x => match x with
                    | None => false
                    | Some s => (ss_RouteTable s =? "")%string && negb (ss_Policy s =? PolicySrc)%string && at_or_within dst (ss_CIDR s)
                    end) l.
Fixpoint check_static_routes (statics : list (option StaticRouteSpec)) (routes : list Intent) : res unit :=
  match routes with
  | [] => Ok tt
  | r :: routes =>
      match ParsePrefix (CIDR r) with
      | None => Err ErrPanic
      | Some dst => reject check_statics dst statics with Errorf "destination conflicts with staticRoutes" ;; check_static_routes statics routes
      end
  end.
Definition validateVpcDestinationRoutes (v : KVpc) : res Plan :=
  plan <-? Compile (default [] (kv_DestinationRoutes v)) ;;
  if (List.length (Routes plan) =? 0)%nat then Ok plan
  else
    reject (kv_Name v =? DefaultVpc)%string || kv_Default v with Errorf "destination routes require a custom VPC" ;;
    reject negb (kv_BFDEnabled v) with Errorf "destination routes require enabled bfdPort" ;;
    _ <-? check_static_routes (kv_StaticRoutes v) (Routes plan) ;;
    Ok plan.
(** Nothing was ever asked of the capability. *)
Definition never_used (v : KVpc) : bool := bool_decide (kv_DestinationRoutes v = None) && (ak_Capability (kv_ACK v) =? "")%string.
(** [capable]: the client implements [destinationRouteClient]. It gives the VPC with its
    new status, and the error. *)
Definition acknowledge (v : KVpc) (r : res Plan) : rprog (KVpc * res unit) :=
  let v := with_ack (mkACK Capability (kv_Generation v) (match r with Ok plan => Hash plan | Err _ => "" end) (is_ok r)) v in
  match r with
  | Err e =>
      s <- call (UpdateStatus v) ;;
      Ret (v, match (s : res unit) with Ok _ => Err e | Err statusErr => Err statusErr end)
  | Ok plan =>
      if (List.length (Routes plan) =? 0)%nat then Ret (v, Ok tt)
      else _ <- call (AddAfter (kv_Name v) 30) ;; Ret (v, Ok tt)
  end.
Definition reconcileVpcDestinationRoutes (capable : bool) (v : KVpc) (bfdPort : string) : rprog (KVpc * res unit) :=
  match validateVpcDestinationRoutes v with
  | Err e => acknowledge v (Err e)
  | Ok plan =>
      if capable then
        x <- ReconcileDestinationRoutes (kv_Name v) (kv_UID v) bfdPort plan ;;
        acknowledge v (match x with Ok _ => Ok plan | Err e => Err e end)
      else if never_used v then Ret (v, Ok tt)
      else acknowledge v (Err (Errorf "native destination-route capability unavailable"))
  end.
(** [Compile(nil)]: the code ignores its error, which it never gives. *)
Definition empty_plan : Plan := match Compile [] with Ok p => p | Err _ => mkPlan [] ∅ "" end.
Definition deleteVpcDestinationRoutes (capable : bool) (v : KVpc) : rprog (res unit) :=
  if capable then ReconcileDestinationRoutes (kv_Name v) (kv_UID v) "" empty_plan
  else if never_used v then Ret (Ok tt)
  else Ret (Err (Errorf "native destination-route capability unavailable")).

Definition orphans (live : list string) (owners : list string) : list string :=
  List.filter (fun owner => negb (owner =? "")%string && negb (existsb (String.eqb owner) live)) owners.
(** The clean-up of one orphan's router, if it still has rows of it *)
Definition gc_router (owner router : string) : rprog (res unit) :=
  routes <-! list_routes router (Some owner) ;;
  if (List.length routes =? 0)%nat then Ret (Ok tt) else ReconcileDestinationRoutes router owner "" empty_plan.
Definition gc_owner (routers : list string) (owner : string) : rprog (res unit) :=
  _ <-! collect (gc_router owner) routers ;;
  ReconcileDestinationRoutes "" owner "" empty_plan.
Definition gcDestinationRoutes (capable : bool) : rprog (res unit) :=
  if negb capable then Ret (Ok tt)
  else
    live <-! (call ListVpcUIDs : rprog (res (list string))) ;;
    sessions <-! find_bfd ;;
    routers <-! (call ListRouters : rprog (res (list string))) ;;
    rows <-! collect (fun router => list_routes router None) routers ;;
    let owners := map (fun b => get (bf_ExternalIDs b) OwnerKey) sessions ++ map (fun r => get (sr_ExternalIDs r) OwnerKey) (List.concat rows) in
    _ <-! collect (gc_owner routers) (shuffle 2 (remove_dups (orphans live owners))) ;;
    Ret (Ok tt).

(** ** What a transaction is made of *)

(** A wait of the source, or a request with the operations the library built for it *)
Inductive piece := PWait (w : wait) | PBuilt (r : request) (l : list libop).
Definition flatten (p : piece) : list operation := match p with PWait w => [Wait w] | PBuilt _ l => map Lib l end.
Definition flat (ps : list piece) : list operation := List.concat (map flatten ps).
Definition requests (ps : list piece) : list request := omap (fun p => match p with PWait _ => None | PBuilt r _ => Some r end) ps.
Notation rhistory := (list (event rans)).
Definition built (h : rhistory) (ps : list piece) : Prop := forall r l, In (PBuilt r l) ps -> asked h (Build r) (Ok l).

Lemma flat_app ps qs : flat (ps ++ qs) = flat ps ++ flat qs.
Proof. unfold flat. by rewrite map_app, concat_app. Qed.
Lemma requests_app ps qs : requests (ps ++ qs) = requests ps ++ requests qs.
Proof. apply omap_app. Qed.
Lemma built_app h ps qs : built h ps -> built h qs -> built h (ps ++ qs).
Proof. intros H1 H2 r l [H|H]%in_app_iff; auto. Qed.
Lemma built_waits h ws : built h (map PWait ws).
Proof. intros r l (w & E & _)%in_map_iff. done. Qed.
Lemma built_extends h h' ps : extends h h' -> built h ps -> built h' ps.
Proof. intros HE H r l Hin. eapply asked_extends; [exact HE|auto]. Qed.
Lemma built_concat h pss : (forall ps, In ps pss -> built h ps) -> built h (List.concat pss).
Proof. intros H r l (ps & Hps & Hin)%in_concat. exact (H ps Hps r l Hin). Qed.
Lemma flat_waits ws : flat (map PWait ws) = map Wait ws.
Proof. unfold flat. induction ws as [|w ws IH]; simpl; [done|]. by rewrite IH. Qed.
Lemma flat_concat pss : flat (List.concat pss) = List.concat (map flat pss).
Proof. induction pss as [|ps pss IH]; simpl; [done|]. by rewrite flat_app, IH. Qed.
Lemma requests_waits ws : requests (map PWait ws) = [].
Proof. by induction ws. Qed.
Lemma requests_concat pss : requests (List.concat pss) = List.concat (map requests pss).
Proof. induction pss as [|ps pss IH]; simpl; [done|]. by rewrite requests_app, IH. Qed.
Lemma in_requests r ps : In r (requests ps) <-> exists l, In (PBuilt r l) ps.
Proof.
  unfold requests. rewrite <- list_elem_of_In, list_elem_of_omap. split.
  - intros (p & Hp%list_elem_of_In & E). destruct p as [w|r' l]; [done|]. injection E as ->. by exists l.
  - intros (l & Hl). exists (PBuilt r l). split; [by apply list_elem_of_In|done].
Qed.

(** ** The parts of the plan *)

Lemma sessions_by_hop_spec owner bfdPort wanted l m m' : sessions_by_hop owner bfdPort wanted l m = Ok m' ->
  m ⊆ m' /\
  (forall hop b, m' !! hop = Some b -> m !! hop = Some b \/
     In b l /\ bf_LogicalPort b = bfdPort /\ bf_DstIP b = hop /\ wanted !! hop <> None /\ session_owned owner b = true) /\
  (forall b, In b l -> bf_LogicalPort b = bfdPort -> wanted !! bf_DstIP b <> None -> m' !! bf_DstIP b = Some b).
Proof.
  revert m. induction l as [|b l IH]; intros m; cbn [sessions_by_hop].
  - intros [= <-]. split_and!; [done|by left|done].
  - destruct (_ || _) eqn:ES.
    + intros (H1 & H2 & H3)%IH. split_and!; [done| |].
      * intros hop b' Hb. destruct (H2 hop b' Hb) as [|(? & ?)]; [by left|right; split; [by right|done]].
      * intros b' [<-|Hb] HP HW; [|by apply H3]. apply orb_true_iff in ES as [ES|ES]; [|by apply bool_decide_eq_true in ES].
        apply negb_true_iff, String.eqb_neq in ES. done.
    + apply orb_false_iff in ES as [EP EW]. apply negb_false_iff, String.eqb_eq in EP. apply bool_decide_eq_false in EW.
      destruct (session_owned owner b) eqn:EO; [|done]. destruct (m !! bf_DstIP b) eqn:EM; [done|]. cbn [negb orb].
      intros (H1 & H2 & H3)%IH. assert (m' !! bf_DstIP b = Some b) as HB.
      { eapply lookup_weaken; [|exact H1]. apply lookup_insert_eq. }
      split_and!.
      * etrans; [|exact H1]. by apply insert_subseteq.
      * intros hop b' Hb. destruct (H2 hop b' Hb) as [HL|(? & ?)]; [|right; split; [by right|done]].
        apply lookup_insert_Some in HL as [[<- <-]|[_ HL]]; [|by left]. right. split_and!; try done. by left.
      * intros b' [<-|Hb] HP HW; [done|by apply H3].
Qed.

(** The pieces for one hop, and its session *)
Inductive session_step (owner bfdPort : string) (byHop : gmap string BFDRow) (hop : string) (t : BFD) : list piece -> BFDRow -> Prop :=
| step_new id l (HN : byHop !! hop = None) :
    session_step owner bfdPort byHop hop t
      [PWait (destinationBFDWait bfdPort hop None); PBuilt (CreateBFD (new_session owner bfdPort hop id t)) l] (new_session owner bfdPort hop id t)
| step_kept old (HO : byHop !! hop = Some old) (HT : has_timers t old = true) :
    session_step owner bfdPort byHop hop t [PWait (destinationBFDWait bfdPort hop (Some old))] old
| step_updated old l (HO : byHop !! hop = Some old) :
    session_step owner bfdPort byHop hop t
      [PWait (destinationBFDWait bfdPort hop (Some old)); PWait (bfd_wait old); PBuilt (UpdateTimers (with_timers t old)) l] (with_timers t old).
(** What the code may read of the library is not restricted here. *)
Section rules.
Context (R : rhistory -> rop -> Prop).
Definition local (o : rop) : Prop := match o with Transact _ | UpdateStatus _ | AddAfter _ _ => False | _ => True end.
Context (HR : forall h o, local o -> R h o).

Lemma okp_build r h : okp R (build r) h (fun h' ops => exists l, ops = map Lib l /\ asked h' (Build r) (Ok l)).
Proof.
  unfold build. split; [by apply HR|]. intros [l|e] _; simpl; [|done]. split; [apply extends_snoc|]. exists l. split; [done|apply asked_snoc].
Qed.
(** A name is new when no row has it. *)
Definition named (h : rhistory) (id : string) : Prop := asked h NamedUUID id.
Lemma okp_new_name {B} (f : string -> rprog (res B)) h Q :
  (forall h' id, extends h h' -> named h' id -> okp R (f id) h' Q) -> okp R (bind named_uuid f) h Q.
Proof.
  intros H. eapply okp_call with (P := fun h' id => extends h h' /\ named h' id).
  - split; [by apply HR|]. intros id _. split; [apply extends_snoc|apply asked_snoc].
  - intros h' id _ [HE HN]. by apply H.
Qed.
Lemma okp_session_ops owner bfdPort byHop s h :
  okp R (session_ops owner bfdPort byHop s) h (fun h' x => exists ps, fst x = flat ps /\ built h' ps /\
    session_step owner bfdPort byHop (fst s) (snd s) ps (snd x) /\
    (byHop !! fst s = None -> named h' (bf_UUID (snd x)))).
Proof.
  destruct s as [hop t]. unfold session_ops. cbn [fst snd]. destruct (byHop !! hop) as [old|] eqn:EH.
  - apply okp_if; intros ET.
    + apply okp_Ok. eexists [PWait _]. split_and!; [done|by intros r l [|[]]|by apply step_kept|done].
    + eapply okp_bind; [apply okp_build|]. intros h1 next _ (l & -> & HA). apply okp_Ok.
      eexists [PWait _; PWait _; PBuilt _ l]. split_and!; [unfold flat; simpl; by rewrite List.app_nil_r| |by apply step_updated|done].
      intros r l' Hin. simpl in Hin. destruct Hin as [|[|[[= <- <-]|[]]]]; done.
  - apply okp_new_name. intros h1 id H1 HN. eapply okp_bind; [apply okp_build|]. intros h2 next H2 (l & -> & HA). apply okp_Ok.
    eexists [PWait _; PBuilt _ l]. split_and!; [unfold flat; simpl; by rewrite List.app_nil_r| |by apply step_new|].
    + intros r l' Hin. simpl in Hin. destruct Hin as [|[[= <- <-]|[]]]; done.
    + intros _. eapply asked_extends; [exact H2|exact HN].
Qed.
(** The pieces that create a route, and its name *)
Definition create_step (h : rhistory) (r : StaticRoute) (x : list piece * string) : Prop :=
  (exists l, fst x = [PBuilt (CreateRoute (with_uuid (snd x) r)) l]) /\ named h (snd x).
Lemma okp_create_route r h : okp R (create_route r) h (fun h' x => exists ps, fst x = flat ps /\ built h' ps /\ create_step h' r (ps, snd x)).
Proof.
  unfold create_route. apply okp_new_name. intros h1 id H1 HN. eapply okp_bind; [apply okp_build|]. intros h2 next H2 (l & -> & HA).
  apply okp_Ok. eexists [PBuilt _ l]. split_and!; [unfold flat; simpl; by rewrite List.app_nil_r| |].
  - by intros r' l' [[= <- <-]|[]].
  - split; [by exists l|]. eapply asked_extends; [exact H2|exact HN].
Qed.
Lemma okp_mutate router ids insert h : okp R (mutate_routes router ids insert) h (fun h' ops => exists ps, ops = flat ps /\ built h' ps /\
  (ids = [] /\ ps = [] \/ ids <> [] /\ exists l, ps = [PBuilt (MutateRoutes router ids insert) l])).
Proof.
  unfold mutate_routes. destruct ids as [|id ids]; [apply okp_Ok; exists []; split_and!; [done|by intros r l []|by left]|].
  eapply okp_mono; [apply okp_build|]. intros h1 ops _ (l & -> & HA). eexists [PBuilt _ l].
  split_and!; [unfold flat; simpl; by rewrite List.app_nil_r| |right; split; [done|by exists l]].
  intros r l' [[= <- <-]|[]]. done.
Qed.
(** No other consumer of the session was seen. *)
Definition unconsumed (delIDs : list string) (allRoutes : list StaticRoute) (allPolicies : list RouterPolicy) (s : BFDRow) : Prop :=
  (forall r, In r allRoutes -> sr_BFD r = Some (bf_UUID s) -> In (sr_UUID r) delIDs) /\
  (forall p, In p allPolicies -> ~ In (bf_UUID s) (py_BFDSessions p)).
(** The pieces for one session read *)
Inductive obsolete_step (owner : string) (wanted delIDs : list string) (allRoutes : list StaticRoute) (allPolicies : list RouterPolicy)
    (s : BFDRow) : list piece -> Prop :=
| step_left (HL : session_owned owner s = false \/ In (bf_UUID s) wanted) : obsolete_step owner wanted delIDs allRoutes allPolicies s []
| step_deleted l (HO : session_owned owner s = true) (HW : ~ In (bf_UUID s) wanted) (HC : unconsumed delIDs allRoutes allPolicies s) :
    obsolete_step owner wanted delIDs allRoutes allPolicies s [PWait (bfd_wait s); PBuilt (DeleteBFD s) l].
Lemma okp_obsolete owner wanted delIDs allRoutes allPolicies s h :
  okp R (obsolete_ops owner wanted delIDs allRoutes allPolicies s) h (fun h' ops => exists ps, ops = flat ps /\ built h' ps /\
    obsolete_step owner wanted delIDs allRoutes allPolicies s ps).
Proof.
  unfold obsolete_ops. apply okp_if.
  - intros HO. apply okp_Ok. exists []. split_and!; [done|by intros r l []|]. apply step_left.
    apply orb_true_iff in HO as [HO|HO]; [left; by apply negb_true_iff in HO|right].
    apply existsb_exists in HO as (id & Hid & ->%String.eqb_eq). done.
  - intros [HO HW]%orb_false_iff. apply negb_false_iff in HO. apply okp_stop. intros HC. apply okp_stop. intros HP.
    eapply okp_bind; [apply okp_build|]. intros h1 next _ (l & -> & HA). apply okp_Ok. eexists [PWait _; PBuilt _ l].
    split_and!; [unfold flat; simpl; by rewrite List.app_nil_r| |].
    + intros r l' Hin. simpl in Hin. destruct Hin as [|[[= <- <-]|[]]]; done.
    + apply step_deleted; [done| |split].
      * intros Hin. apply (existsb_forall _ _ HW) in Hin. by rewrite String.eqb_refl in Hin.
      * intros r Hr E. apply (existsb_forall _ _ HC) in Hr. unfold route_consumes in Hr. rewrite E, String.eqb_refl in Hr.
        apply negb_false_iff, existsb_exists in Hr as (id & Hid & ->%String.eqb_eq). done.
      * intros p Hp Hin. apply (existsb_forall _ _ HP) in Hp. apply (existsb_forall _ _ Hp) in Hin. by rewrite String.eqb_refl in Hin.
Qed.

(** ** All the operations *)

Definition router_piece (lr : option LogicalRouter) : list piece := match lr with Some r => [PWait (router_wait r)] | None => [] end.
Definition created (c : StaticRoute * list libop) : piece := PBuilt (CreateRoute (fst c)) (snd c).
(** One mutation of the router's routes, if it has any *)
Definition mutation (router : string) (ids : list string) (insert : bool) (ps : list piece) : Prop :=
  ids = [] /\ ps = [] \/ ids <> [] /\ exists l, ps = [PBuilt (MutateRoutes router ids insert) l].
(** [drafted]: what [plan_ops] makes of what was read, and the parts of its operations:
    the pieces and the session of each hop, the rows to delete and to create, and the
    pieces of each session read. *)
Record draft := mkDraft {
  df_byHop : gmap string BFDRow; df_desired : gmap string StaticRoute;
  df_hops : list (list piece * BFDRow); df_retired : list StaticRoute; df_missing : list StaticRoute;
  df_created : list (StaticRoute * list libop); df_deletes : list piece; df_inserts : list piece; df_obsolete : list (list piece) }.
Definition df_pieces (lr : option LogicalRouter) (d : draft) : list piece :=
  router_piece lr ++ List.concat (map fst (df_hops d)) ++ map (fun r => PWait (route_wait r)) (df_retired d) ++
  map created (df_created d) ++ df_deletes d ++ df_inserts d ++ List.concat (df_obsolete d).
Definition df_used (d : draft) : list BFDRow := map snd (df_hops d).
Definition kept_session (h : rhistory) (owner bfdPort : string) (byHop : gmap string BFDRow) (s : string * BFD) (x : list piece * BFDRow) : Prop :=
  session_step owner bfdPort byHop (fst s) (snd s) (fst x) (snd x) /\ (byHop !! fst s = None -> named h (bf_UUID (snd x))).
Definition named_route (h : rhistory) (r : StaticRoute) (c : StaticRoute * list libop) : Prop :=
  exists id, fst c = with_uuid id r /\ named h id.
Record drafted (h : rhistory) (router owner bfdPort : string) (plan : Plan) (current : list StaticRoute) (sessions : list BFDRow)
    (allRoutes : list StaticRoute) (allPolicies : list RouterPolicy) (d : draft) : Prop := {
  dr_sessions : sessions_by_hop owner bfdPort (Sessions plan) sessions ∅ = Ok (df_byHop d);
  dr_hops : Forall2 (kept_session h owner bfdPort (df_byHop d)) (shuffle 0 (map_to_list (Sessions plan))) (df_hops d);
  dr_plan : desired_routes owner (fold_left put_session (df_used d) (df_byHop d)) (Routes plan) = Ok (df_desired d);
  dr_retire : exists missing, retire owner current (df_desired d) = (df_retired d, missing) /\ Permutation (map snd (map_to_list missing)) (df_missing d);
  dr_created : Forall2 (named_route h) (df_missing d) (df_created d);
  dr_deletes : mutation router (map sr_UUID (df_retired d)) false (df_deletes d);
  dr_inserts : mutation router (map (fun c => sr_UUID (fst c)) (df_created d)) true (df_inserts d);
  dr_obsolete : Forall2 (obsolete_step owner (map bf_UUID (df_used d)) (map sr_UUID (df_retired d)) allRoutes allPolicies) sessions (df_obsolete d) }.

Lemma okp_collect_ops {A B} (f : A -> rprog (res (list operation * B))) (J : rhistory -> A -> list piece * B -> Prop) l h :
  (forall h h' x y, extends h h' -> J h x y -> J h' x y) ->
  (forall h' x, In x l -> extends h h' ->
     okp R (f x) h' (fun h'' y => exists ps, fst y = flat ps /\ built h'' ps /\ J h'' x (ps, snd y))) ->
  okp R (collect f l) h (fun h' ys => exists zs, Forall2 (J h') l zs /\ built h' (List.concat (map fst zs)) /\
    List.concat (map fst ys) = flat (List.concat (map fst zs)) /\ map snd ys = map snd zs).
Proof.
  intros HJ HF. eapply okp_mono.
  { apply (okp_collect R f (fun h' x y => exists ps, fst y = flat ps /\ built h' ps /\ J h' x (ps, snd y))); [|exact HF].
    intros h1 h2 x y HE (ps & E & HB & H). exists ps. split_and!; [done|by eapply built_extends|by eapply HJ]. }
  intros h' ys _ H. clear HF. induction H as [|x y l ys (ps & E & HB & HJx) HF2 (zs & H1 & H2 & H3 & H4)].
  - exists []. split_and!; [constructor|by intros r l []|done|done].
  - exists ((ps, snd y) :: zs). split_and!; [by constructor| | |].
    + cbn [map fst List.concat]. by apply built_app.
    + cbn [map fst List.concat]. by rewrite E, H3, flat_app.
    + cbn [map snd]. by rewrite H4.
Qed.
Lemma created_draft h missing zs : Forall2 (create_step h) missing zs ->
  exists cs, Forall2 (named_route h) missing cs /\ List.concat (map fst zs) = map created cs /\ map snd zs = map (fun c => sr_UUID (fst c)) cs.
Proof.
  intros H. induction H as [|r [ps id] missing zs [[l E] HN] _ (cs & H1 & H2 & H3)]; [by exists []|].
  exists ((with_uuid id r, l) :: cs). cbn [fst snd] in *. split_and!.
  - constructor; [by exists id|done].
  - cbn [map List.concat fst]. by rewrite E, H2.
  - cbn [map snd]. by rewrite H3.
Qed.
Lemma okp_all_routes h : okp R (call ListAllRoutes : rprog (res (list StaticRoute))) h (fun h' l => asked h' ListAllRoutes (Ok l)).
Proof. split; [by apply HR|]. intros [l|e] _; simpl; [|done]. split; [apply extends_snoc|apply asked_snoc]. Qed.
Lemma okp_all_policies h : okp R (call ListAllPolicies : rprog (res (list RouterPolicy))) h (fun h' l => asked h' ListAllPolicies (Ok l)).
Proof. split; [by apply HR|]. intros [l|e] _; simpl; [|done]. split; [apply extends_snoc|apply asked_snoc]. Qed.
Lemma okp_collect_obsolete owner wanted delIDs allRoutes allPolicies sessions h :
  okp R (collect (obsolete_ops owner wanted delIDs allRoutes allPolicies) sessions) h (fun h' zs => exists pss,
    Forall2 (obsolete_step owner wanted delIDs allRoutes allPolicies) sessions pss /\ built h' (List.concat pss) /\
    List.concat zs = flat (List.concat pss)).
Proof.
  eapply okp_mono.
  { apply (okp_collect R _ (fun h' s ops => exists ps, ops = flat ps /\ built h' ps /\ obsolete_step owner wanted delIDs allRoutes allPolicies s ps)).
    - intros h1 h2 x y HE (ps & E & HB & H). exists ps. split_and!; [done|by eapply built_extends|done].
    - intros h' x _ _. apply okp_obsolete. }
  intros h' zs _ H. induction H as [|x y l ys (ps & E & HB & HJx) HF2 (pss & H1 & H2 & H3)].
  - exists []. split_and!; [constructor|by intros r l []|done].
  - exists (ps :: pss). split_and!; [by constructor| |].
    + cbn [List.concat]. by apply built_app.
    + cbn [List.concat]. by rewrite E, H3, flat_app.
Qed.
Lemma drafted_extends h h' x y z pl cs se ar ap d : extends h h' -> drafted h x y z pl cs se ar ap d -> drafted h' x y z pl cs se ar ap d.
Proof.
  intros HE []. constructor; try done.
  - eapply Forall2_impl; [eassumption|]. intros s b [H1 H2]. split; [done|]. intros HN. eapply asked_extends; [exact HE|by apply H2].
  - eapply Forall2_impl; [eassumption|]. intros r c (id & E & HN). exists id. split; [done|]. eapply asked_extends; [exact HE|exact HN].
Qed.
Lemma okp_plan_ops router owner bfdPort plan lr current sessions h :
  okp R (plan_ops router owner bfdPort plan lr current sessions) h (fun h' ops => exists d allRoutes allPolicies,
    ops = flat (df_pieces lr d) /\ built h' (df_pieces lr d) /\ asked h' ListAllRoutes (Ok allRoutes) /\
    asked h' ListAllPolicies (Ok allPolicies) /\ drafted h' router owner bfdPort plan current sessions allRoutes allPolicies d).
Proof.
  unfold plan_ops. apply okp_check. intros byHop EB.
  eapply okp_bind; [apply (okp_collect_ops _ (fun h' s x => kept_session h' owner bfdPort byHop s x))|].
  { intros h1 h2 x y HE [H1 H2]. split; [done|]. intros HN. eapply asked_extends; [exact HE|by apply H2]. }
  { intros h' x _ _. eapply okp_mono; [apply okp_session_ops|]. intros h'' y _ (ps & H1 & H2 & H3 & H4). exists ps. by split_and!. }
  intros h1 xs H1 (hops & HH & HHB & HHO & HHS). apply okp_check. intros desired ED.
  destruct (retire owner current desired) as [retired missing] eqn:ER.
  eapply okp_bind; [apply (okp_collect_ops _ create_step)|].
  { intros h2 h3 x y HE [H2 H3]. split; [done|]. eapply asked_extends; [exact HE|done]. }
  { intros h' x _ _. apply okp_create_route. }
  intros h2 ys H2 (cs0 & HC & HCB & HCO & HCS). eapply okp_bind; [apply okp_mutate|]. intros h3 dops H3 (dps & -> & HDB & HD).
  eapply okp_bind; [apply okp_mutate|]. intros h4 iops H4 (ips & -> & HIB & HI).
  eapply okp_bind; [apply okp_all_routes|]. intros h5 ar H5 HAR. eapply okp_bind; [apply okp_all_policies|]. intros h6 ap H6 HAP.
  eapply okp_bind; [apply okp_collect_obsolete|]. intros h7 zs H7 (pss & HZ & HZB & HZO). apply okp_Ok.
  destruct (created_draft _ _ _ HC) as (cs & HC1 & HC2 & HC3). rewrite HC2 in HCB, HCO. rewrite HCS, HC3 in *.
  assert (extends h1 h7 /\ extends h2 h7 /\ extends h3 h7 /\ extends h4 h7 /\ extends h5 h7 /\ extends h6 h7) as (E1 & E2 & E3 & E4 & E5 & E6)
    by (split_and!; backwards).
  exists (mkDraft byHop desired hops retired (map snd (shuffle 1 (map_to_list missing))) cs dps ips pss), ar, ap. split_and!.
  - unfold df_pieces. cbn [df_hops df_retired df_created df_deletes df_inserts df_obsolete].
    rewrite !flat_app, HHO, HCO, HZO. f_equal; [by destruct lr|]. do 2 f_equal.
    by rewrite <- (map_map route_wait PWait), flat_waits, map_map.
  - unfold df_pieces. cbn [df_hops df_retired df_created df_deletes df_inserts df_obsolete]. repeat apply built_app; try assumption; try (eapply built_extends; [|eassumption]; eassumption).
    + destruct lr; [|by intros r l []]. apply (built_waits _ [_]).
    + rewrite <- (map_map route_wait PWait). apply built_waits.
  - eapply asked_extends; [exact E5|exact HAR].
  - eapply asked_extends; [exact E6|exact HAP].
  - constructor; cbn.
    + done.
    + eapply Forall2_impl; [exact HH|]. intros s b [HS1 HS2]. split; [done|]. intros HN. eapply asked_extends; [exact E1|by apply HS2].
    + unfold df_used. cbn. by rewrite <- HHS.
    + exists missing. split; [done|]. apply Permutation_map. symmetry. apply shuffle_perm.
    + eapply Forall2_impl; [exact HC1|]. intros r c (id & E & HN). exists id. split; [done|]. eapply asked_extends; [exact E2|exact HN].
    + done.
    + done.
    + unfold df_used. cbn. by rewrite <- HHS.
Qed.
End rules.
End writer.
