(* ===== verification/RouteFacts.v ===== *)
(** * [integration/kube-ovn/overlay]: what the destination route writer guarantees

    Whatever the northbound database answers: which requests a transaction may hold and
    what guards them, which difference it makes, and when the controller acknowledges. *)
From S2P Require Import Prelude GoStd Json NetIP NetIPFacts DestinationRoute Prog Api RouteWriter.
Open Scope Z_scope.

Section facts.
Context {KOVN : KubeOVN} {LIB : OvsLibrary} {ORDER : MapOrder}.
Notation rprog := (prog rans).
Notation rhistory := (list (event rans)).

(** ** The sessions a plan uses *)

(** The session of one hop of the plan, with its timers and its owner *)
Definition serves (owner bfdPort : string) (plan : Plan) (b : BFDRow) : Prop :=
  bf_LogicalPort b = bfdPort /\ session_owned owner b = true /\
  exists t, Sessions plan !! bf_DstIP b = Some t /\ has_timers t b = true.

Lemma get_marks owner : get (marks owner) OwnerKey = owner.
Proof. unfold get, marks. rewrite lookup_insert_ne by done. by rewrite lookup_singleton_eq. Qed.
Lemma get_route_ids owner i : get (route_ids owner i) OwnerKey = owner.
Proof. unfold get, route_ids. rewrite lookup_insert_ne by done. by rewrite lookup_insert_eq. Qed.
Lemma with_timers_has t b : has_timers t (with_timers t b) = true.
Proof. unfold has_timers. cbn. by rewrite !bool_decide_eq_true_2. Qed.

Section drafted.
Context {h : rhistory} {router owner bfdPort : string} {plan : Plan} {current : list StaticRoute} {sessions : list BFDRow}
  {allRoutes : list StaticRoute} {allPolicies : list RouterPolicy} {d : draft}.
Context (D : drafted h router owner bfdPort plan current sessions allRoutes allPolicies d).

(** The sessions that are adopted were read as this owner's. *)
Lemma adopted hop b : df_byHop d !! hop = Some b ->
  In b sessions /\ bf_LogicalPort b = bfdPort /\ bf_DstIP b = hop /\ Sessions plan !! hop <> None /\ session_owned owner b = true.
Proof.
  intros H. destruct (sessions_by_hop_spec _ _ _ _ _ _ (dr_sessions _ _ _ _ _ _ _ _ _ _ D)) as (_ & H2 & _).
  by destruct (H2 hop b H) as [|].
Qed.
Lemma not_adopted hop b : df_byHop d !! hop = None -> Sessions plan !! hop <> None -> In b sessions ->
  ~ (bf_LogicalPort b = bfdPort /\ bf_DstIP b = hop).
Proof.
  intros HN HW Hb [HP <-]. destruct (sessions_by_hop_spec _ _ _ _ _ _ (dr_sessions _ _ _ _ _ _ _ _ _ _ D)) as (_ & _ & H3).
  by rewrite (H3 b Hb HP HW) in HN.
Qed.
Lemma in_hops ps b : In (ps, b) (df_hops d) -> exists hop t, Sessions plan !! hop = Some t /\ kept_session h owner bfdPort (df_byHop d) (hop, t) (ps, b).
Proof.
  intros H%list_elem_of_In%list_elem_of_lookup_1. destruct H as [i Hi].
  destruct (Forall2_lookup_r _ _ _ _ _ (dr_hops _ _ _ _ _ _ _ _ _ _ D) Hi) as ([hop t] & Hs & HK).
  exists hop, t. split; [|done]. apply elem_of_map_to_list. rewrite <- (shuffle_perm 0). by eapply list_elem_of_lookup_2.
Qed.
Lemma hop_used hop t : Sessions plan !! hop = Some t -> exists ps b, In (ps, b) (df_hops d) /\ bf_DstIP b = hop.
Proof.
  intros Ht%elem_of_map_to_list. rewrite <- (shuffle_perm 0) in Ht. apply list_elem_of_lookup_1 in Ht as [i Hi].
  destruct (Forall2_lookup_l _ _ _ _ _ (dr_hops _ _ _ _ _ _ _ _ _ _ D) Hi) as ([ps b] & Hs & HK & _).
  exists ps, b. split; [apply list_elem_of_In; by eapply list_elem_of_lookup_2|].
  cbn [fst snd] in HK. inversion HK; subst; [done| |]; by destruct (adopted _ _ HO) as (_ & _ & ? & _).
Qed.
Lemma step_serves hop t ps b : Sessions plan !! hop = Some t -> session_step owner bfdPort (df_byHop d) hop t ps b ->
  bf_DstIP b = hop /\ serves owner bfdPort plan b.
Proof.
  intros Ht HK. inversion HK; subst.
  - split; [done|]. split_and!; [done| |].
    + change ((get (marks owner) OwnerKey =? owner)%string = true). rewrite get_marks. apply String.eqb_refl.
    + exists t. split; [done|]. unfold has_timers. cbn. by rewrite !bool_decide_eq_true_2.
  - destruct (adopted _ _ HO) as (_ & HP & HD & _ & HS). split; [done|]. split_and!; [done|done|]. exists t. by rewrite HD.
  - destruct (adopted _ _ HO) as (_ & HP & HD & _ & HS). split; [done|]. split_and!; [done|done|]. exists t.
    split; [by rewrite <- HD in Ht|apply with_timers_has].
Qed.
Lemma used_serves b : In b (df_used d) -> serves owner bfdPort plan b.
Proof.
  unfold df_used. intros ([ps b'] & <- & Hin)%in_map_iff. destruct (in_hops _ _ Hin) as (hop & t & Ht & HK & _). by apply (step_serves hop t ps).
Qed.
(** The session a route of the plan refers to *)
Lemma lookup_puts l (m : gmap string BFDRow) hop b : fold_left put_session l m !! hop = Some b ->
  In b l /\ bf_DstIP b = hop \/ m !! hop = Some b /\ ~ In hop (map bf_DstIP l).
Proof.
  revert m. induction l as [|x l IH]; intros m; cbn [fold_left map]; [by right; split; [|intros []]|].
  intros [[H1 H2]|[H1 H2]]%IH; [left; split; [by right|done]|]. unfold put_session in H1.
  apply lookup_insert_Some in H1 as [[<- <-]|[Hne H1]]; [by left; split; [left|]|].
  right. split; [done|]. by intros [?|?].
Qed.
Lemma referred hop b : fold_left put_session (df_used d) (df_byHop d) !! hop = Some b -> In b (df_used d) /\ bf_DstIP b = hop.
Proof.
  intros [|[H1 H2]]%lookup_puts; [done|]. destruct (adopted _ _ H1) as (_ & _ & _ & HW & _).
  destruct (Sessions plan !! hop) as [t|] eqn:Ht; [|done]. destruct (hop_used _ _ Ht) as (ps & b' & Hin & HD).
  destruct H2. rewrite <- HD. apply in_map. unfold df_used. by apply (in_map snd _ (ps, b')).
Qed.
End drafted.

(** ** The rows a plan wants *)

(** A row of one destination: its discard guard, or one half over one hop, with a session
    of [used] *)
Definition row_of (owner : string) (used : list BFDRow) (i : Intent) (r : StaticRoute) : Prop :=
  r = guard_route (route_ids owner i) i \/
  exists c1 c2 child b, Children (CIDR i) = Some (c1, c2) /\ (child = c1 \/ child = c2) /\ In (bf_DstIP b) (NextHops i) /\ In b used /\
    r = hop_route (route_ids owner i) i child (bf_DstIP b) (bf_UUID b).

Lemma hop_routes_rows ids byHop i child hops l : hop_routes ids byHop i child hops = Ok l ->
  Forall2 (fun hop r => exists b, byHop !! hop = Some b /\ r = hop_route ids i child hop (bf_UUID b)) hops l.
Proof.
  revert l. induction hops as [|hop hops IH]; intros l; cbn [hop_routes]; [by intros [= <-]|].
  destruct (byHop !! hop) as [b|] eqn:EB; [|done]. destruct (hop_routes ids byHop i child hops) as [l'|]; [|done].
  intros [= <-]. constructor; [by exists b|by apply IH].
Qed.
Lemma intent_rows owner byHop i l : intent_routes owner byHop i = Ok l ->
  exists c1 c2 l1 l2, Children (CIDR i) = Some (c1, c2) /\ l = guard_route (route_ids owner i) i :: l1 ++ l2 /\
    hop_routes (route_ids owner i) byHop i c1 (NextHops i) = Ok l1 /\ hop_routes (route_ids owner i) byHop i c2 (NextHops i) = Ok l2.
Proof.
  unfold intent_routes. intros H. destruct (Children (CIDR i)) as [[c1 c2]|]; [|done].
  destruct (hop_routes _ byHop i c1 _) as [l1|] eqn:E1; [|done]. destruct (hop_routes _ byHop i c2 _) as [l2|] eqn:E2; [|done].
  injection H as <-. by exists c1, c2, l1, l2.
Qed.
Lemma plan_rows owner byHop used routes l r : (forall hop b, byHop !! hop = Some b -> In b used /\ bf_DstIP b = hop) ->
  plan_routes owner byHop routes = Ok l -> In r l -> exists i, In i routes /\ row_of owner used i r.
Proof.
  intros HU. revert l. induction routes as [|i routes IH]; intros l; cbn [plan_routes]; [by intros [= <-]|].
  destruct (intent_routes owner byHop i) as [l1|] eqn:EI; [|done]. destruct (plan_routes owner byHop routes) as [l2|]; [|done].
  intros [= <-]. intros [Hr|Hr]%in_app_iff; [|destruct (IH _ eq_refl Hr) as (j & Hj & HR); exists j; split; [by right|done]].
  exists i. split; [by left|]. destruct (intent_rows _ _ _ _ EI) as (c1 & c2 & l3 & l4 & HC & -> & H3%hop_routes_rows & H4%hop_routes_rows).
  assert (forall child l, child = c1 \/ child = c2 ->
    Forall2 (fun hop r => exists b, byHop !! hop = Some b /\ r = hop_route (route_ids owner i) i child hop (bf_UUID b)) (NextHops i) l ->
    In r l -> row_of owner used i r) as HF.
  { intros child l Hc HF [k Hk]%list_elem_of_In%list_elem_of_lookup_1.
    destruct (Forall2_lookup_r _ _ _ _ _ HF Hk) as (hop & Hh & b & HB & ->). destruct (HU _ _ HB) as [Hb <-].
    right. exists c1, c2, child, b. split_and!; try done. apply list_elem_of_In. by eapply list_elem_of_lookup_2. }
  destruct Hr as [<-|[Hr|Hr]%in_app_iff]; [by left| |]; [eapply (HF c1)|eapply (HF c2)]; eauto.
Qed.
Lemma puts_rows l (m : gmap string StaticRoute) k r : fold_left put_route l m !! k = Some r ->
  In r l /\ destinationRouteKey r = k \/ m !! k = Some r.
Proof.
  revert m. induction l as [|x l IH]; intros m; cbn [fold_left]; [by right|].
  intros [[H1 H2]|H1]%IH; [left; split; [by right|done]|]. unfold put_route in H1.
  apply lookup_insert_Some in H1 as [[<- <-]|[_ H1]]; [left; split; [by left|done]|by right].
Qed.
(** Each row read of this owner is kept as the row wanted under its key, or retired. *)
Lemma retire_spec owner current desired retired missing : retire owner current desired = (retired, missing) ->
  exists kept, Permutation (List.filter (route_owned owner) current) (kept ++ retired) /\
    Permutation (map comparable kept ++ map comparable (map snd (map_to_list missing))) (map comparable (map snd (map_to_list desired))) /\
    missing ⊆ desired.
Proof.
  revert desired retired missing. induction current as [|old current IH]; intros desired retired missing; cbn [retire List.filter].
  { intros [= <- <-]. by exists []. }
  destruct (route_owned owner old); cbn [negb]; [|apply IH].
  destruct (desired !! destinationRouteKey old) as [want|] eqn:EW; [destruct (destinationRouteEqual old want) eqn:EE|].
  - intros (kept & H1 & H2 & H3)%IH. exists (old :: kept). split_and!.
    + cbn. by constructor.
    + cbn [map app]. rewrite H2, <- (map_to_list_delete _ _ _ EW). cbn [map snd].
      apply bool_decide_eq_true in EE. by rewrite EE.
    + etrans; [exact H3|]. apply delete_subseteq.
  - destruct (retire owner current desired) as [ret miss] eqn:ER. intros [= <- <-]. destruct (IH _ _ _ ER) as (kept & H1 & H2 & H3).
    exists kept. split_and!; [|done|done]. by rewrite H1, Permutation_middle.
  - destruct (retire owner current desired) as [ret miss] eqn:ER. intros [= <- <-]. destruct (IH _ _ _ ER) as (kept & H1 & H2 & H3).
    exists kept. split_and!; [|done|done]. by rewrite H1, Permutation_middle.
Qed.

(** ** The checks on the router *)

Definition bfd_only (p : RouterPort) : bool := (get (lp_Options p) "bfd-only" =? "true")%string.
(** The ordinary connected networks of a router *)
Definition connected_networks (bfdPort : string) (ports : list RouterPort) : list string :=
  List.concat (map lp_Networks (List.filter (fun p => negb (lp_Name p =? bfdPort)%string && negb (bfd_only p)) ports)).
(** The ports read have the BFD port and reach every gateway, and no destination meets a
    connected network or a foreign route at or within it. *)
Definition admitted (h : rhistory) (owner bfdPort : string) (plan : Plan) (lr : LogicalRouter) (current : list StaticRoute) : Prop :=
  exists ports, Forall2 (fun id p => asked h (GetPort id) (Ok p)) (lr_Ports lr) ports /\
    (exists p, In p ports /\ lp_Name p = bfdPort /\ bfd_only p = true) /\
    (forall hop, Sessions plan !! hop <> None -> ReachableGateway hop (connected_networks bfdPort ports) = true) /\
    forall i, In i (Routes plan) -> exists dst, ParsePrefix (CIDR i) = Some dst /\
      (forall raw, In raw (connected_networks bfdPort ports) -> connected_overlap dst raw = false) /\
      (forall old, In old current -> foreign_conflict owner dst old = false).

Lemma check_routes_ok owner networks current routes : check_routes owner networks current routes = Ok tt ->
  forall i, In i routes -> exists dst, ParsePrefix (CIDR i) = Some dst /\
    (forall raw, In raw networks -> connected_overlap dst raw = false) /\ (forall old, In old current -> foreign_conflict owner dst old = false).
Proof.
  induction routes as [|r routes IH]; cbn [check_routes]; [by intros _ i []|].
  destruct (ParsePrefix (CIDR r)) as [dst|] eqn:EP; [|done]. destruct (existsb (connected_overlap dst) networks) eqn:E1; [done|].
  destruct (existsb (foreign_conflict owner dst) current) eqn:E2; [done|]. intros H i [<-|Hi]; [|by apply IH].
  exists dst. split_and!; [done|by apply existsb_forall|by apply existsb_forall].
Qed.
Section checks.
Context (R : rhistory -> rop -> Prop) (HR : forall h o, local o -> R h o).
Lemma okp_read_ports bfdPort ids found networks h :
  okp R (read_ports bfdPort ids found networks) h (fun h' x => exists ports,
    Forall2 (fun id p => asked h' (GetPort id) (Ok p)) ids ports /\ snd x = networks ++ connected_networks bfdPort ports /\
    (fst x = true -> found = true \/ exists p, In p ports /\ lp_Name p = bfdPort /\ bfd_only p = true)).
Proof.
  revert found networks h. induction ids as [|id ids IH]; intros found networks h; cbn [read_ports].
  { apply okp_Ok. exists []. split_and!; [done|by rewrite List.app_nil_r|by left]. }
  eapply okp_bind with (P := fun h' p => asked h' (GetPort id) (Ok p)).
  { split; [by apply HR|]. intros [p|e] _; simpl; [|done]. split; [apply extends_snoc|apply asked_snoc]. }
  intros h1 p H1 HA. unfold connected_networks. fold (bfd_only p). destruct (lp_Name p =? bfdPort)%string eqn:EN.
  - eapply okp_mono; [apply IH|]. intros h2 x H2 (ports & HF & HX & HB). exists (p :: ports). split_and!.
    + constructor; [|done]. eapply asked_extends; [exact H2|exact HA].
    + cbn [List.filter]. by rewrite EN.
    + intros HT. destruct (HB HT) as [HB'|(q & Hq & HQ)]; [|right; exists q; split; [by right|done]].
      right. exists p. split; [by left|]. split; [by apply String.eqb_eq|done].
  - eapply okp_mono; [apply IH|]. intros h2 x H2 (ports & HF & HX & HB). exists (p :: ports). split_and!.
    + constructor; [|done]. eapply asked_extends; [exact H2|exact HA].
    + cbn [List.filter]. rewrite EN, HX. destruct (bfd_only p); cbn [negb andb map List.concat]; [done|]. by rewrite <- List.app_assoc.
    + intros HT. destruct (HB HT) as [HB'|(q & Hq & HQ)]; [by left|]. right. exists q. split; [by right|done].
Qed.
Lemma okp_check_router owner bfdPort plan lr current h :
  okp R (check_router owner bfdPort plan lr current) h (fun h' _ => admitted h' owner bfdPort plan lr current).
Proof.
  unfold check_router. eapply okp_bind; [apply okp_read_ports|]. intros h1 [found networks] H1 (ports & HF & HX & HB). cbn [fst snd] in *. subst networks.
  apply okp_stop. intros EB%negb_false_iff. apply okp_stop. intros EG%negb_false_iff. apply okp_lift. intros [] EC.
  exists ports. split_and!; [done| | |by apply check_routes_ok].
  - by destruct (HB EB).
  - intros hop HS. destruct (Sessions plan !! hop) as [t|] eqn:Ht; [|done]. rewrite forallb_forall in EG. apply EG.
    apply elem_of_map_to_list, list_elem_of_In in Ht. by apply (in_map fst) in Ht.
Qed.
End checks.

(** ** One pass *)

(** What a pass has read when it makes the operations of [d] *)
Record reading (h : rhistory) (router owner bfdPort : string) (plan : Plan) (lr : option LogicalRouter) (current : list StaticRoute)
    (sessions : list BFDRow) (allRoutes : list StaticRoute) (allPolicies : list RouterPolicy) (d : draft) : Prop := {
  rd_owner : owner <> ""%string;
  rd_router : asked h (GetLogicalRouter router) (Ok lr);
  rd_routes : match lr with None => current = [] /\ Routes plan = [] | Some _ => asked h (ListRoutes router None) (Ok current) end;
  rd_sessions : asked h FindBFD (Ok sessions);
  rd_admitted : forall r, lr = Some r -> Routes plan <> [] -> admitted h owner bfdPort plan r current;
  rd_all_routes : asked h ListAllRoutes (Ok allRoutes);
  rd_all_policies : asked h ListAllPolicies (Ok allPolicies);
  rd_built : built h (df_pieces lr d);
  rd_drafted : drafted h router owner bfdPort plan current sessions allRoutes allPolicies d }.
Definition transacts (router owner bfdPort : string) (plan : Plan) (h : rhistory) (o : rop) : Prop :=
  match o with
  | Transact ops => exists lr current sessions ar ap d, ops = flat (df_pieces lr d) /\ reading h router owner bfdPort plan lr current sessions ar ap d
  | UpdateStatus _ | AddAfter _ _ => False
  | _ => True
  end.
(** The end of a pass that succeeds: its difference was committed, or it had none. *)
Definition settled (router owner bfdPort : string) (plan : Plan) (h : rhistory) : Prop :=
  exists lr current sessions ar ap d, reading h router owner bfdPort plan lr current sessions ar ap d /\
    (asked h (Transact (flat (df_pieces lr d))) (Ok tt) \/ existsb mutates (flat (df_pieces lr d)) = false).

Lemma admitted_extends h h' owner bfdPort plan r current : extends h h' -> admitted h owner bfdPort plan r current -> admitted h' owner bfdPort plan r current.
Proof.
  intros HE (ports & HF & H). exists ports. split; [|done]. eapply Forall2_impl; [exact HF|]. intros id p HA. eapply asked_extends; [exact HE|exact HA].
Qed.
Lemma reading_extends h h' router owner bfdPort plan lr current sessions ar ap d : extends h h' ->
  reading h router owner bfdPort plan lr current sessions ar ap d -> reading h' router owner bfdPort plan lr current sessions ar ap d.
Proof.
  intros HE []. constructor; try done; try (eapply asked_extends; [exact HE|assumption]).
  - destruct lr; [|done]. eapply asked_extends; [exact HE|assumption].
  - intros r E HN. eapply admitted_extends; [exact HE|]. by apply rd_admitted0.
  - by eapply built_extends.
  - by eapply drafted_extends.
Qed.
Section pass.
Context (R : rhistory -> rop -> Prop) (HR : forall h o, local o -> R h o).
Context (router owner bfdPort : string) (plan : Plan).
Context (HT : forall h o, transacts router owner bfdPort plan h o -> R h o).
Lemma okp_current (lr : option LogicalRouter) h : okp R (match lr with None => Ret (Ok []) | Some _ => list_routes router None end) h
  (fun h' l => match lr with None => l = [] | Some _ => asked h' (ListRoutes router None) (Ok l) end).
Proof.
  destruct lr; [|by apply okp_Ok]. split; [by apply HR|]. intros [rows|e] _; simpl; [|done]. split; [apply extends_snoc|apply asked_snoc].
Qed.
Lemma okp_admit lr current h :
  okp R (match lr with
         | Some r => if negb (List.length (Routes plan) =? 0)%nat then check_router owner bfdPort plan r current else Ret (Ok tt)
         | None => Ret (Ok tt)
         end) h (fun h' _ => forall r, lr = Some r -> Routes plan <> [] -> admitted h' owner bfdPort plan r current).
Proof.
  destruct lr as [r|]; [|by apply okp_Ok]. apply okp_if; intros EL.
  - eapply okp_mono; [by apply okp_check_router|]. by intros h' [] _ HA r' [= <-] _.
  - apply negb_false_iff, Nat.eqb_eq in EL. apply okp_Ok. intros r' _ HN. by destruct (Routes plan).
Qed.
Lemma okp_reconcile_routes h : okp R (ReconcileDestinationRoutes router owner bfdPort plan) h (fun h' _ => settled router owner bfdPort plan h').
Proof.
  unfold ReconcileDestinationRoutes. apply okp_stop. intros EO%String.eqb_neq.
  eapply okp_bind with (P := fun h' lr => asked h' (GetLogicalRouter router) (Ok lr)).
  { split; [by apply HR|]. intros [l|e] _; simpl; [|done]. split; [apply extends_snoc|apply asked_snoc]. }
  intros h1 lr H1 HL. apply okp_stop. intros EL. eapply okp_bind; [apply okp_current|]. intros h2 current H2 HC.
  eapply okp_bind with (P := fun h' l => asked h' FindBFD (Ok l)).
  { split; [by apply HR|]. intros [l|e] _; simpl; [|done]. split; [apply extends_snoc|apply asked_snoc]. }
  intros h3 sessions H3 HS. eapply okp_bind; [apply okp_admit|]. intros h4 [] H4 HA.
  eapply okp_bind; [by apply okp_plan_ops|]. intros h5 ops H5 (d & ar & ap & -> & HB & HAR & HAP & HD).
  assert (extends h1 h5 /\ extends h2 h5 /\ extends h3 h5 /\ extends h4 h5) as (E1 & E2 & E3 & E4) by (split_and!; backwards).
  assert (reading h5 router owner bfdPort plan lr current sessions ar ap d) as RD.
  { constructor; try done.
    - eapply asked_extends; [exact E1|exact HL].
    - destruct lr; [eapply asked_extends; [exact E2|exact HC]|]. split; [done|]. cbn in EL. apply negb_false_iff, Nat.eqb_eq in EL.
      by destruct (Routes plan).
    - eapply asked_extends; [exact E3|exact HS].
    - intros r E HN. eapply admitted_extends; [exact E4|]. by apply HA. }
  destruct (existsb mutates (flat (df_pieces lr d))) eqn:EM.
  - split; [apply HT; by exists lr, current, sessions, ar, ap, d|]. intros [[]|e] _; simpl; [|done]. split; [apply extends_snoc|].
    exists lr, current, sessions, ar, ap, d. split; [eapply reading_extends; [apply extends_snoc|exact RD]|]. left. apply asked_snoc.
  - apply okp_Ok. exists lr, current, sessions, ar, ap, d. split; [done|by right].
Qed.
End pass.

(** ** Every request is justified by what was read *)

Definition guarded_by (ps : list piece) (w : wait) : Prop := In (PWait w) ps.
Definition justified (h : rhistory) (router owner bfdPort : string) (plan : Plan) (current : list StaticRoute) (sessions : list BFDRow)
    (allRoutes : list StaticRoute) (allPolicies : list RouterPolicy) (ps : list piece) (r : request) : Prop :=
  match r with
  | CreateBFD b =>
      serves owner bfdPort plan b /\ named h (bf_UUID b) /\ guarded_by ps (destinationBFDWait bfdPort (bf_DstIP b) None) /\
      forall x, In x sessions -> ~ (bf_LogicalPort x = bfdPort /\ bf_DstIP x = bf_DstIP b)
  | UpdateTimers b =>
      serves owner bfdPort plan b /\ exists old t, In old sessions /\ session_owned owner old = true /\ b = with_timers t old /\
        guarded_by ps (destinationBFDWait bfdPort (bf_DstIP b) (Some old)) /\ guarded_by ps (bfd_wait old)
  | DeleteBFD b =>
      In b sessions /\ session_owned owner b = true /\ guarded_by ps (bfd_wait b) /\
      (forall p, In p allPolicies -> ~ In (bf_UUID b) (py_BFDSessions p)) /\
      forall x, In x allRoutes -> sr_BFD x = Some (bf_UUID b) -> exists ids, In (MutateRoutes router ids false) (requests ps) /\ In (sr_UUID x) ids
  | CreateRoute x =>
      named h (sr_UUID x) /\ exists i used, In i (Routes plan) /\ (forall b, In b used -> serves owner bfdPort plan b) /\
        row_of owner used i (with_uuid "" x)
  | MutateRoutes name ids false =>
      name = router /\ forall id, In id ids -> exists old, In old current /\ sr_UUID old = id /\ route_owned owner old = true /\ guarded_by ps (route_wait old)
  | MutateRoutes name ids true =>
      name = router /\ forall id, In id ids -> exists x, In (CreateRoute x) (requests ps) /\ sr_UUID x = id
  end.

Section guards.
Context {h : rhistory} {router owner bfdPort : string} {plan : Plan} {lr : option LogicalRouter} {current : list StaticRoute} {sessions : list BFDRow}
  {allRoutes : list StaticRoute} {allPolicies : list RouterPolicy} {d : draft}.
Context (D : drafted h router owner bfdPort plan current sessions allRoutes allPolicies d).
Notation ps := (df_pieces lr d).

Lemma retired_read old : In old (df_retired d) -> In old current /\ route_owned owner old = true.
Proof.
  intros H. destruct (dr_retire _ _ _ _ _ _ _ _ _ _ D) as (missing & (kept & HP & _)%retire_spec & _).
  assert (In old (List.filter (route_owned owner) current)) as [? ?]%filter_In; [|done].
  apply (Permutation_in _ (Permutation_sym HP)). apply in_app_iff. by right.
Qed.
Lemma retired_waits old : In old (df_retired d) -> guarded_by ps (route_wait old).
Proof. intros H. unfold guarded_by, df_pieces. rewrite !in_app_iff. do 2 right. left. by apply (in_map (fun r => PWait (route_wait r))). Qed.
Lemma hop_piece qs b p : In (qs, b) (df_hops d) -> In p qs -> In p ps.
Proof. intros H Hp. unfold df_pieces. rewrite !in_app_iff. right. left. apply in_concat. exists qs. split; [|done]. by apply (in_map fst) in H. Qed.
Lemma obsolete_piece qs p : In qs (df_obsolete d) -> In p qs -> In p ps.
Proof. intros H Hp. unfold df_pieces. rewrite !in_app_iff. do 6 right. apply in_concat. by exists qs. Qed.
Lemma created_row x l : In (x, l) (df_created d) -> exists r, In r (df_missing d) /\ exists id, x = with_uuid id r /\ named h id.
Proof.
  intros [k Hk]%list_elem_of_In%list_elem_of_lookup_1. destruct (Forall2_lookup_r _ _ _ _ _ (dr_created _ _ _ _ _ _ _ _ _ _ D) Hk) as (r & Hr & id & E & HN).
  exists r. split; [apply list_elem_of_In; by eapply list_elem_of_lookup_2|by exists id].
Qed.
Lemma missing_row r : In r (df_missing d) -> exists i, In i (Routes plan) /\ row_of owner (df_used d) i r.
Proof.
  intros H. destruct (dr_retire _ _ _ _ _ _ _ _ _ _ D) as (missing & (kept & _ & _ & HS)%retire_spec & HP).
  pose proof (Permutation_in _ (Permutation_sym HP) H) as HM. clear H. apply in_map_iff in HM as ([k r'] & <- & Hr%list_elem_of_In%elem_of_map_to_list). cbn [snd].
  pose proof (dr_plan _ _ _ _ _ _ _ _ _ _ D) as HD. unfold desired_routes in HD.
  destruct (plan_routes owner _ (Routes plan)) as [l|] eqn:EL; [|done]. injection HD as HD.
  eapply lookup_weaken in Hr; [|exact HS]. rewrite <- HD in Hr. apply puts_rows in Hr as [[Hr _]|Hr]; [|done].
  eapply plan_rows; [|exact EL|exact Hr]. intros hop b Hb. by apply (referred D).
Qed.
(** The request of one hop *)
Lemma hop_justified qs b r l : In (qs, b) (df_hops d) -> In (PBuilt r l) qs -> justified h router owner bfdPort plan current sessions allRoutes allPolicies ps r.
Proof.
  intros Hin Hr. destruct (in_hops D _ _ Hin) as (hop & t & Ht & HK & HN). destruct (step_serves D _ _ _ _ Ht HK) as [HD HS].
  cbn [fst snd] in *. inversion HK; subst qs b; cbn [In] in Hr; destruct_or! Hr; try done; injection Hr as <- <-.
  - split_and!; [done|by apply HN| |].
    + eapply hop_piece; [exact Hin|]. by left.
    + intros x Hx. apply (not_adopted D hop); [done| |done]. by rewrite Ht.
  - split; [done|]. destruct (adopted D _ _ HO) as (H1 & _ & _ & _ & H2). exists old, t. split_and!; try done.
    + eapply hop_piece; [exact Hin|]. rewrite HD. by left.
    + eapply hop_piece; [exact Hin|]. right. by left.
Qed.
Lemma obsolete_justified qs r l : In qs (df_obsolete d) -> In (PBuilt r l) qs -> justified h router owner bfdPort plan current sessions allRoutes allPolicies ps r.
Proof.
  intros Hin Hr. pose proof Hin as [k Hk]%list_elem_of_In%list_elem_of_lookup_1.
  destruct (Forall2_lookup_r _ _ _ _ _ (dr_obsolete _ _ _ _ _ _ _ _ _ _ D) Hk) as (s & Hs & HZ).
  inversion HZ; subst qs; [done|]. cbn [In] in Hr. destruct_or! Hr; try done. injection Hr as <- <-. destruct HC as [HC1 HC2].
  split_and!; [apply list_elem_of_In; by eapply list_elem_of_lookup_2|done| |done|].
  - eapply obsolete_piece; [exact Hin|]. by left.
  - intros x Hx E. pose proof (HC1 x Hx E) as HI. exists (map sr_UUID (df_retired d)). split; [|done].
    destruct (dr_deletes _ _ _ _ _ _ _ _ _ _ D) as [[HE _]|(_ & l' & E')]; [by rewrite HE in HI|].
    apply in_requests. exists l'. unfold df_pieces. rewrite !in_app_iff, E'. do 4 right. left. by left.
Qed.
Lemma requests_justified r : In r (requests ps) -> justified h router owner bfdPort plan current sessions allRoutes allPolicies ps r.
Proof.
  intros (l & H)%in_requests. unfold df_pieces in H. rewrite !in_app_iff in H. destruct H as [H|[H|[H|[H|[H|[H|H]]]]]].
  - by destruct lr; [destruct H as [|[]]|].
  - apply in_concat in H as (qs & ([qs' b] & <- & Hb)%in_map_iff & Hr). by eapply hop_justified.
  - by apply in_map_iff in H as (x & E & _).
  - apply in_map_iff in H as ([x l'] & [= <- <-] & Hx). destruct (created_row _ _ Hx) as (r' & Hr' & id & -> & HN).
    destruct (missing_row _ Hr') as (i & Hi & HR). split; [done|]. exists i, (df_used d). split_and!; [done|by apply (used_serves D)|].
    destruct HR as [->|(c1 & c2 & child & b & HC & Hc & HH & HU & ->)]; [by left|]. right. by exists c1, c2, child, b.
  - destruct (dr_deletes _ _ _ _ _ _ _ _ _ _ D) as [[_ E]|(_ & l' & E)]; rewrite E in H; [done|]. destruct H as [[= <- <-]|[]].
    split; [done|]. intros id (old & <- & Ho)%in_map_iff. exists old. destruct (retired_read _ Ho). split_and!; try done. by apply retired_waits.
  - destruct (dr_inserts _ _ _ _ _ _ _ _ _ _ D) as [[_ E]|(_ & l' & E)]; rewrite E in H; [done|]. destruct H as [[= <- <-]|[]].
    split; [done|]. intros id ([x l2] & <- & Hx)%in_map_iff. exists x. split; [|done]. apply in_requests. exists l2. unfold df_pieces.
    rewrite !in_app_iff. do 3 right. left. exact (in_map created _ (x, l2) Hx).
  - apply in_concat in H as (qs & Hq & Hr). by eapply obsolete_justified.
Qed.
End guards.

(** What a pass may send: one transaction, whose requests are justified and guarded, under
    the checks on the router *)
Definition route_call (router owner bfdPort : string) (plan : Plan) (h : rhistory) (o : rop) : Prop :=
  match o with
  | Transact ops => exists lr current sessions ar ap ps,
      asked h (GetLogicalRouter router) (Ok lr) /\ asked h FindBFD (Ok sessions) /\
      asked h ListAllRoutes (Ok ar) /\ asked h ListAllPolicies (Ok ap) /\
      match lr with
      | None => current = [] /\ Routes plan = []
      | Some r => asked h (ListRoutes router None) (Ok current) /\ guarded_by ps (router_wait r) /\
                  (Routes plan <> [] -> admitted h owner bfdPort plan r current)
      end /\
      ops = flat ps /\ built h ps /\ owner <> ""%string /\
      forall r, In r (requests ps) -> justified h router owner bfdPort plan current sessions ar ap ps r
  | UpdateStatus _ | AddAfter _ _ => False
  | _ => True
  end.
Lemma transacts_justified router owner bfdPort plan h o : transacts router owner bfdPort plan h o -> route_call router owner bfdPort plan h o.
Proof.
  destruct o; try done. intros (lr & current & sessions & ar & ap & d & -> & RD). exists lr, current, sessions, ar, ap, (df_pieces lr d).
  destruct RD. split_and!; try done; [|by intros r; apply requests_justified]. destruct lr as [r|]; [|done].
  split_and!; [done|by left|]. intros HN. by apply rd_admitted0.
Qed.
(** C20: Whatever the database answers and wherever a pass stops, the route writer sends at
    most guarded transactions for a VPC UID: under the checks on a router it read, a BFD
    session is created only for a hop of the plan with none, under a wait for its absence;
    changed or removed only when read as this owner's, under a wait on its marks, and
    removed only when no policy and no route that stays uses it; a route is created only
    as a row of the plan over such sessions and removed only when read as this owner's,
    under a wait. *)
Theorem destination_rows_are_never_adopted router owner bfdPort plan :
  obeys (route_call router owner bfdPort plan) (ReconcileDestinationRoutes router owner bfdPort plan).
Proof.
  eapply okp_obeys, okp_reconcile_routes; [by intros h []|]. intros h o. apply transacts_justified.
Qed.

(** ** The rows a compiled plan intends *)

Definition halves (cidr : string) : list string := match Children cidr with Some (c1, c2) => [c1; c2] | None => [] end.
(** A discard guard for the destination, and each half over each next hop with its session *)
Definition intended_rows (owner : string) (session : string -> string) (i : Intent) : list StaticRoute :=
  guard_route (route_ids owner i) i ::
  flat_map (fun child => map (fun hop => hop_route (route_ids owner i) i child hop (session hop)) (NextHops i)) (halves (CIDR i)).
Definition intended (owner : string) (session : string -> string) (plan : Plan) : list StaticRoute :=
  flat_map (intended_rows owner session) (Routes plan).
Definition session_of (byHop : gmap string BFDRow) (hop : string) : string :=
  match byHop !! hop with Some b => bf_UUID b | None => "" end.

Lemma hop_routes_map ids byHop i child hops l : hop_routes ids byHop i child hops = Ok l ->
  l = map (fun hop => hop_route ids i child hop (session_of byHop hop)) hops.
Proof.
  revert l. induction hops as [|hop hops IH]; intros l; cbn [hop_routes map]; [by intros [= <-]|]. unfold session_of at 1.
  destruct (byHop !! hop) as [b|]; [|done]. destruct (hop_routes ids byHop i child hops) as [l'|]; [|done].
  intros [= <-]. by rewrite (IH l').
Qed.
Lemma plan_routes_intended owner byHop routes l : plan_routes owner byHop routes = Ok l ->
  l = flat_map (intended_rows owner (session_of byHop)) routes.
Proof.
  revert l. induction routes as [|i routes IH]; intros l; cbn [plan_routes flat_map]; [by intros [= <-]|].
  destruct (intent_routes owner byHop i) as [l1|] eqn:EI; [|done]. destruct (plan_routes owner byHop routes) as [l2|]; [|done].
  intros [= <-]. rewrite (IH l2) by done. f_equal.
  destruct (intent_rows _ _ _ _ EI) as (c1 & c2 & l3 & l4 & HC & -> & ->%hop_routes_map & ->%hop_routes_map).
  unfold intended_rows, halves. rewrite HC. cbn [flat_map]. by rewrite List.app_nil_r.
Qed.

Fixpoint bar_free (s : string) : bool :=
  match s with EmptyString => true | String c s => negb (Ascii.eqb c "|") && bar_free s end.
Lemma bar_free_app s t : bar_free s = true -> bar_free t = true -> bar_free (s ++ t) = true.
Proof. induction s as [|c s IH]; [done|]. rewrite str_app_cons. cbn [bar_free]. intros [-> H]%andb_true_iff Ht. simpl. auto. Qed.
Lemma bar_free_digits s : all_digits s = true -> bar_free s = true.
Proof.
  induction s as [|c s IH]; [done|]. cbn [all_digits bar_free]. intros [Hc Hs]%andb_true_iff. rewrite IH by done.
  destruct (Ascii.eqb c "|") eqn:E; [|done]. apply Ascii.eqb_eq in E as ->. by vm_compute in Hc.
Qed.
Lemma bar_free_utoa n : 0 <= n -> bar_free (utoa n) = true.
Proof. intros. by apply bar_free_digits, all_digits_utoa. Qed.
#[local] Transparent string4.
Lemma bar_free_prefix p v b : prefix4 p v b -> bar_free (PrefixString p) = true.
Proof.
  intros (-> & _ & Hb). rewrite PrefixString_eq by done. apply bar_free_app.
  - unfold string4. repeat (apply bar_free_app; [by first [reflexivity|apply bar_free_utoa; apply octet_range; lia]|]).
    apply bar_free_utoa. apply octet_range. lia.
  - cbn [bar_free]. apply andb_true_iff. split; [done|]. apply bar_free_utoa; lia.
Qed.
#[local] Opaque string4.
Definition row_key (prefix hop : string) : string := (prefix ++ "|" ++ hop)%string.
Lemma row_key_inj a b x y : bar_free a = true -> bar_free b = true -> row_key a x = row_key b y -> a = b /\ x = y.
Proof.
  assert (forall t u, (u ++ "|" ++ t)%string = (u ++ String "|" t)%string) as EB by done.
  unfold row_key. rewrite !EB. revert b. induction a as [|c a IH]; intros [|e b]; rewrite ?str_app_cons, ?str_app_nil_l; cbn [bar_free].
  - by intros _ _ [= ->].
  - intros _ [He _]%andb_true_iff [= <- _]. done.
  - intros [Hc _]%andb_true_iff _ [= -> _]. done.
  - intros [_ Ha]%andb_true_iff [_ Hb]%andb_true_iff [= -> E]. by destruct (IH _ Ha Hb E) as [-> ->].
Qed.

(** The prefixes of a destination's rows lie inside it. *)
Definition inside (i : Intent) (s : string) : Prop :=
  exists q v b, s = PrefixString q /\ prefix4 q v b /\ (exists x, u32 x /\ Contains q (Addr4 x) = true) /\
    forall x, u32 x -> Contains q (Addr4 x) = true -> Contains (pref i) (Addr4 x) = true.
Lemma block_contains q v b : prefix4 q v b -> exists x, u32 x /\ Contains q (Addr4 x) = true.
Proof.
  intros Hq. pose proof Hq as (_ & Hv & Hb). exists v. split; [done|]. apply (Contains_range _ _ _ _ Hq). by apply block_range.
Qed.
Lemma destination_rows i : route_valid i -> exists c1 c2, Children (CIDR i) = Some (c1, c2) /\
  inside i (CIDR i) /\ inside i c1 /\ inside i c2 /\ CIDR i <> c1 /\ CIDR i <> c2 /\ c1 <> c2.
Proof.
  intros Hd%route_valid_dest. destruct (Children_halves _ _ Hd) as (v & b & Hp & Hb & Hal & Q1 & Q2 & EC).
  destruct (destination_ok _ _ Hd) as (_ & _ & _ & _ & _ & ES & _). do 2 eexists. split; [exact EC|].
  pose proof Hp as (_ & Hv & _). destruct (upper_half_block v b Hv Hb Hal) as (B1 & U2 & B2 & Hk).
  assert (forall q w c, prefix4 q w c -> block v b <= block w c -> block w c + 2 ^ (32 - c) <= block v b + 2 ^ (32 - b) ->
    inside i (PrefixString q)) as HI.
  { intros q w c Hq H1 H2. exists q, w, c. split_and!; [done|done|by eapply block_contains|].
    intros x Hx HC%(Contains_range _ _ _ _ Hq). apply (Contains_range _ _ _ _ Hp). lia. }
  split_and!.
  - rewrite <- ES. eapply HI; [exact Hp|lia|lia].
  - eapply HI; [exact Q1| |]; rewrite B1, ?Hal; [lia|]. replace (32 - (b + 1)) with (31 - b) by lia. lia.
  - eapply HI; [exact Q2| |]; rewrite B2, ?Hal; [lia|]. replace (32 - (b + 1)) with (31 - b) by lia. lia.
  - rewrite <- ES. intros E%(PrefixString_inj _ _ _ _ _ _ Hp Q1). destruct Hp as (EP & _). rewrite EP in E. injection E. lia.
  - rewrite <- ES. intros E%(PrefixString_inj _ _ _ _ _ _ Hp Q2). destruct Hp as (EP & _). rewrite EP in E. injection E. lia.
  - intros E%(PrefixString_inj _ _ _ _ _ _ Q1 Q2). injection E. lia.
Qed.

(** The rows of a compiled plan have keys of their own. *)
Lemma intended_keys owner session i c1 c2 : Children (CIDR i) = Some (c1, c2) ->
  map destinationRouteKey (intended_rows owner session i) =
  row_key (CIDR i) "discard" :: map (row_key c1) (NextHops i) ++ map (row_key c2) (NextHops i).
Proof.
  intros HC. unfold intended_rows, halves. rewrite HC. cbn [map flat_map]. f_equal. rewrite List.app_nil_r, map_app, !map_map. done.
Qed.
Lemma inside_bar_free i s : inside i s -> bar_free s = true.
Proof. intros (q & v & b & -> & Hq & _). by eapply bar_free_prefix. Qed.
Lemma inside_apart i j s : route_valid i -> route_valid j -> compatible i j -> inside i s -> inside j s -> False.
Proof.
  intros Hi%route_valid_dest Hj%route_valid_dest [HO _] (q & v & b & -> & Hq & (x & Hx & HC) & HI) (q' & v' & b' & E & Hq' & _ & HJ).
  apply (PrefixString_inj _ _ _ _ _ _ Hq Hq') in E as <-.
  destruct (destination_ok _ _ Hi) as (vi & bi & Hpi & _), (destination_ok _ _ Hj) as (vj & bj & Hpj & _).
  enough (Overlaps (pref i) (pref j) = true) as HT by (by rewrite HO in HT).
  apply (Overlaps_common _ _ _ _ _ _ Hpi Hpj). exists x. split_and!; [done|by apply HI|by apply HJ].
Qed.
Lemma row_keys_inj c hops : bar_free c = true -> NoDup hops -> NoDup (map (row_key c) hops).
Proof. intros HB HN. apply (NoDup_fmap_2_strong (row_key c)); [|done]. intros x y _ _ E. by destruct (row_key_inj _ _ _ _ HB HB E). Qed.
Lemma keys_inside owner session i k : route_valid i -> In k (map destinationRouteKey (intended_rows owner session i)) ->
  exists s hop, inside i s /\ k = row_key s hop.
Proof.
  intros HV. destruct (destination_rows _ HV) as (c1 & c2 & HC & I0 & I1 & I2 & _). rewrite (intended_keys _ _ _ _ _ HC).
  intros [<-|[(hop & <- & _)%in_map_iff|(hop & <- & _)%in_map_iff]%in_app_iff]; eauto.
Qed.
Lemma intent_keys_nodup owner session i : route_valid i -> NoDup (map destinationRouteKey (intended_rows owner session i)).
Proof.
  intros HV. destruct (destination_rows _ HV) as (c1 & c2 & HC & I0 & I1 & I2 & N1 & N2 & N3). rewrite (intended_keys _ _ _ _ _ HC).
  destruct HV as (p & _ & _ & _ & _ & HN & _).
  assert (forall a b x l, inside i a -> inside i b -> a <> b -> ~ row_key a x ∈ map (row_key b) l) as HD.
  { intros a b x l Ha Hb Hne (y & E & _)%list_elem_of_In%in_map_iff. apply row_key_inj in E as [E _]; [|eapply inside_bar_free; eassumption..]. by subst. }
  constructor; [rewrite elem_of_app; intros [H|H]; (eapply HD; [| | |exact H]; done)|]. apply NoDup_app. split_and!.
  - by apply row_keys_inj; [eapply inside_bar_free; eassumption|].
  - intros k (x & <- & _)%list_elem_of_In%in_map_iff. by apply HD.
  - by apply row_keys_inj; [eapply inside_bar_free; eassumption|].
Qed.
Lemma plan_keys_nodup owner session routes : list_ok routes -> NoDup (map destinationRouteKey (flat_map (intended_rows owner session) routes)).
Proof.
  induction routes as [|i routes IH]; intros [HF HP]; cbn [flat_map map]; [constructor|].
  apply List.Forall_cons_iff in HF as [HV HF]. inversion HP as [|?? HFC HP']; subst. rewrite map_app. apply NoDup_app. split_and!; [by apply intent_keys_nodup| |by apply IH].
  intros k Hk%list_elem_of_In (r & <- & (j & Hj & Hr)%in_flat_map)%list_elem_of_In%in_map_iff.
  rewrite List.Forall_forall in HF, HFC. pose proof (HF j Hj) as HJ. pose proof (HFC j Hj) as HC.
  destruct (keys_inside _ _ _ _ HJ (in_map destinationRouteKey _ _ Hr)) as (s & hop & Hs & E).
  apply keys_inside in Hk as (s' & hop' & Hs' & E'); [|done]. rewrite E in E'.
  apply row_key_inj in E' as [<- _]; [|eapply inside_bar_free; eassumption..]. by eapply (inside_apart i j).
Qed.
Lemma puts_perm l (m : gmap string StaticRoute) : NoDup (map destinationRouteKey l) -> (forall r, In r l -> m !! destinationRouteKey r = None) ->
  Permutation (map_to_list (fold_left put_route l m)) (map (fun r => (destinationRouteKey r, r)) l ++ map_to_list m).
Proof.
  revert m. induction l as [|r l IH]; intros m HN HM; cbn [fold_left map app]; [done|]. inversion HN as [|?? HK HN']; subst.
  rewrite IH; [|done|].
  - unfold put_route. rewrite map_to_list_insert by (apply HM; by left). by rewrite <- Permutation_middle.
  - intros r' Hr'. unfold put_route. rewrite lookup_insert_ne; [apply HM; by right|]. intros E. apply HK. rewrite E.
    apply list_elem_of_In. by apply in_map.
Qed.
Lemma desired_intended owner byHop plan input desired : Compile input = Ok plan -> desired_routes owner byHop (Routes plan) = Ok desired ->
  Permutation (map snd (map_to_list desired)) (intended owner (session_of byHop) plan).
Proof.
  intros HC. assert (list_ok (Routes plan)) as HL.
  { apply Compile_plan_of in HC as (HL & HO & ->). cbn [Routes plan_of]. apply (list_ok_perm (map normalize input)).
    - symmetry. apply sort_by_key_perm.
    - eapply same_list_ok; [|exact HO]. clear. induction input; constructor; [apply normalize_same|done]. }
  unfold desired_routes. destruct (plan_routes owner byHop (Routes plan)) as [l|] eqn:EL; [|done]. intros [= <-].
  apply plan_routes_intended in EL as ->. rewrite puts_perm; [|by apply plan_keys_nodup|done].
  rewrite map_app, map_map. cbn [snd]. rewrite map_id, map_to_list_empty. by rewrite List.app_nil_r.
Qed.

(** ** A pass that succeeds *)

(** [requests] turn the rows read into the rows intended: every row of this owner is kept or
    retired, what is kept and made is what the plan intends over the sessions used, and
    those are one for each hop of the plan, the only ones left. *)
Record realises (router owner bfdPort : string) (plan : Plan) (current : list StaticRoute) (sessions : list BFDRow)
    (kept retired made : list StaticRoute) (used : list BFDRow) (reqs : list request) : Prop := {
  re_rows : Permutation (List.filter (route_owned owner) current) (kept ++ retired);
  re_intended : exists session, (forall b, In b used -> session (bf_DstIP b) = bf_UUID b) /\
    Permutation (map comparable (kept ++ made)) (map comparable (intended owner session plan));
  re_hops : Permutation (map bf_DstIP used) (map fst (map_to_list (Sessions plan)));
  re_serves : forall b, In b used -> serves owner bfdPort plan b /\ (In b sessions \/ In (UpdateTimers b) reqs \/ In (CreateBFD b) reqs);
  re_obsolete : forall b, In b sessions -> session_owned owner b = true -> In (bf_UUID b) (map bf_UUID used) \/ In (DeleteBFD b) reqs;
  re_made : forall r, In r made -> In (CreateRoute r) reqs;
  re_inserted : made <> [] -> In (MutateRoutes router (map sr_UUID made) true) reqs;
  re_deleted : retired <> [] -> In (MutateRoutes router (map sr_UUID retired) false) reqs }.

Section realised.
Context {h : rhistory} {router owner bfdPort : string} {plan : Plan} {lr : option LogicalRouter} {current : list StaticRoute} {sessions : list BFDRow}
  {allRoutes : list StaticRoute} {allPolicies : list RouterPolicy} {d : draft}.
Context (D : drafted h router owner bfdPort plan current sessions allRoutes allPolicies d).
Notation ps := (df_pieces lr d).
Notation reqs := (requests ps).

Lemma request_of p r l : In p ps -> p = PBuilt r l -> In r reqs.
Proof. intros H ->. apply in_requests. by exists l. Qed.
Lemma used_hops : Permutation (map bf_DstIP (df_used d)) (map fst (map_to_list (Sessions plan))).
Proof.
  rewrite <- (shuffle_perm 0 _ (map_to_list (Sessions plan))). unfold df_used. rewrite map_map.
  enough (map (fun x => bf_DstIP (snd x)) (df_hops d) = map fst (shuffle 0 (map_to_list (Sessions plan)))) as -> by done.
  assert (forall s, In s (shuffle 0 (map_to_list (Sessions plan))) -> Sessions plan !! fst s = Some (snd s)) as HS.
  { intros [hop t] Hin%list_elem_of_In. rewrite (shuffle_perm 0) in Hin. by apply elem_of_map_to_list in Hin. }
  pose proof (dr_hops _ _ _ _ _ _ _ _ _ _ D) as HF. revert HF HS. generalize (df_hops d) as xs. generalize (shuffle 0 (map_to_list (Sessions plan))) as l.
  intros l xs HF. induction HF as [|s x l xs [HK _] _ IH]; intros HS; [done|]. cbn [map].
  rewrite IH by (intros; apply HS; by right). by destruct (step_serves D _ _ _ _ (HS s (or_introl eq_refl)) HK) as [-> _].
Qed.
Lemma used_lookup b : In b (df_used d) -> fold_left put_session (df_used d) (df_byHop d) !! bf_DstIP b = Some b.
Proof.
  assert (NoDup (map bf_DstIP (df_used d))) as HN by (rewrite used_hops; apply NoDup_fst_map_to_list).
  revert HN. generalize (df_byHop d) as m. induction (df_used d) as [|x l IH]; intros m HN Hb; [done|]. cbn [fold_left map] in *.
  inversion HN as [|?? HX HN']; subst. destruct Hb as [<-|Hb]; [|by apply IH].
  destruct (fold_left put_session l (put_session m x) !! bf_DstIP x) as [b|] eqn:E.
  - apply lookup_puts in E as [[H1 H2]|[H1 _]]; [|unfold put_session in H1; by rewrite lookup_insert_eq in H1].
    destruct HX. rewrite <- H2. apply list_elem_of_In. by apply in_map.
  - exfalso. revert E. assert (is_Some (put_session m x !! bf_DstIP x)) as HI by (unfold put_session; by rewrite lookup_insert_eq).
    revert HI. clear. generalize (put_session m x) as m'. generalize (bf_DstIP x) as k. intros k. induction l as [|y l IH]; intros m' HI; cbn [fold_left].
    + by destruct HI as [z ->].
    + apply IH. unfold put_session. destruct (decide (bf_DstIP y = k)) as [<-|]; [by rewrite lookup_insert_eq|by rewrite lookup_insert_ne].
Qed.
Lemma used_shown b : In b (df_used d) -> In b sessions \/ In (UpdateTimers b) reqs \/ In (CreateBFD b) reqs.
Proof.
  unfold df_used. intros ([qs b'] & <- & Hin)%in_map_iff. cbn [snd]. destruct (in_hops D _ _ Hin) as (hop & t & Ht & HK & _). cbn [fst snd] in HK.
  inversion HK; subst.
  - do 2 right. eapply request_of; [|reflexivity]. eapply (hop_piece (lr := lr)); [exact Hin|right; by left].
  - left. by destruct (adopted D _ _ HO).
  - right. left. eapply request_of; [|reflexivity]. eapply (hop_piece (lr := lr)); [exact Hin|do 2 right; by left].
Qed.
Lemma obsolete_gone b : In b sessions -> session_owned owner b = true -> In (bf_UUID b) (map bf_UUID (df_used d)) \/ In (DeleteBFD b) reqs.
Proof.
  intros [k Hk]%list_elem_of_In%list_elem_of_lookup_1 HO. destruct (Forall2_lookup_l _ _ _ _ _ (dr_obsolete _ _ _ _ _ _ _ _ _ _ D) Hk) as (qs & Hq & HZ).
  inversion HZ; subst; [left; by destruct HL as [HL|HL]; [rewrite HO in HL|]|].
  right. eapply request_of; [|reflexivity]. eapply (obsolete_piece (lr := lr)); [by eapply list_elem_of_In, list_elem_of_lookup_2|right; by left].
Qed.
Lemma made_rows : map comparable (map fst (df_created d)) = map comparable (df_missing d).
Proof. induction (dr_created _ _ _ _ _ _ _ _ _ _ D) as [|r c l cs (id & E & _) _ IH]; [done|]. cbn [map]. by rewrite IH, E. Qed.
Lemma draft_realises input : Compile input = Ok plan ->
  exists kept, realises router owner bfdPort plan current sessions kept (df_retired d) (map fst (df_created d)) (df_used d) reqs.
Proof.
  intros HC. destruct (dr_retire _ _ _ _ _ _ _ _ _ _ D) as (missing & (kept & H1 & H2 & _)%retire_spec & HP). exists kept. constructor.
  - done.
  - exists (session_of (fold_left put_session (df_used d) (df_byHop d))). split.
    + intros b Hb. unfold session_of. by rewrite (used_lookup _ Hb).
    + rewrite map_app, made_rows, <- HP, H2. apply Permutation_map. by eapply desired_intended, (dr_plan _ _ _ _ _ _ _ _ _ _ D).
  - apply used_hops.
  - intros b Hb. split; [by apply (used_serves D)|by apply used_shown].
  - apply obsolete_gone.
  - intros r ([x l] & <- & Hx)%in_map_iff. apply (request_of (created (x, l)) _ l); [|done]. unfold df_pieces. rewrite !in_app_iff.
    do 3 right. left. by apply in_map.
  - intros HN. rewrite map_map. destruct (dr_inserts _ _ _ _ _ _ _ _ _ _ D) as [[E _]|(_ & l & E)].
    + by destruct (df_created d).
    + eapply request_of; [|reflexivity]. unfold df_pieces. rewrite !in_app_iff, E. do 5 right. left. by left.
  - intros HN. destruct (dr_deletes _ _ _ _ _ _ _ _ _ _ D) as [[E _]|(_ & l & E)].
    + by destruct (df_retired d).
    + eapply request_of; [|reflexivity]. unfold df_pieces. rewrite !in_app_iff, E. do 4 right. left. by left.
Qed.
End realised.

Lemma nothing_requested h ps : (forall r l, asked h (Build r) (Ok l) -> existsb (fun o => negb (is_wait o)) l = true) ->
  built h ps -> existsb mutates (flat ps) = false -> requests ps = [].
Proof.
  intros HL HB HM. destruct (requests ps) as [|r rs] eqn:ER; [done|]. assert (In r (requests ps)) as (l & Hin)%in_requests by (rewrite ER; by left).
  pose proof (HL _ _ (HB _ _ Hin)) as (o & Ho & HW)%existsb_exists. exfalso. apply diff_true_false. rewrite <- HM. symmetry.
  apply existsb_exists. exists (Lib o). split; [|done]. unfold flat. apply in_concat. exists (map Lib l). split; [|by apply in_map].
  by apply (in_map flatten) in Hin.
Qed.
(** The pass read the rows and sessions, and the requests that realise the plan from them
    were committed in one transaction, or there were none. *)
Definition applied (h : rhistory) (router owner bfdPort : string) (plan : Plan) : Prop :=
  exists lr current sessions kept retired made used ps,
    asked h (GetLogicalRouter router) (Ok lr) /\ asked h FindBFD (Ok sessions) /\
    match lr with None => current = [] /\ Routes plan = [] | Some _ => asked h (ListRoutes router None) (Ok current) end /\
    realises router owner bfdPort plan current sessions kept retired made used (requests ps) /\ built h ps /\
    (asked h (Transact (flat ps)) (Ok tt) \/ requests ps = []).
(** Every request the library builds has an operation that is no wait. *)
Definition library_writes (h : rhistory) : Prop :=
  forall r l, asked h (Build r) (Ok l) -> existsb (fun o => negb (is_wait o)) l = true.
Lemma settled_applied router owner bfdPort input plan h : library_writes h -> Compile input = Ok plan ->
  settled router owner bfdPort plan h -> applied h router owner bfdPort plan.
Proof.
  intros HL HC (lr & current & sessions & ar & ap & d & RD & HE).
  destruct (draft_realises (lr := lr) (rd_drafted _ _ _ _ _ _ _ _ _ _ _ RD) _ HC) as (kept & HR).
  destruct RD. exists lr, current, sessions, kept, (df_retired d), (map fst (df_created d)), (df_used d), (df_pieces lr d). split_and!; try done.
  destruct HE as [HE|HE]; [by left|right]. by eapply nothing_requested.
Qed.
Lemma routes_settled_extends router owner bfdPort plan h h' : extends h h' -> settled router owner bfdPort plan h -> settled router owner bfdPort plan h'.
Proof.
  intros HE (lr & current & sessions & ar & ap & d & RD & HO). exists lr, current, sessions, ar, ap, d.
  split; [by eapply reading_extends|]. destruct HO as [HO|HO]; [left|by right]. eapply asked_extends; [exact HE|exact HO].
Qed.
(** C21: When a pass over a compiled plan succeeds, its one transaction was committed or it
    had nothing to request, and the requests realise the plan: each row read of this owner
    is kept or removed, the rows kept and created are, up to their names, exactly one
    discard guard for each destination and both halves over every next hop with that
    hop's session, the sessions used are exactly one for each hop with its timers, and
    every other session of this owner is removed. *)
Theorem transactions_realise_the_plan router owner bfdPort input plan h :
  library_writes h -> Compile input = Ok plan -> exec (ReconcileDestinationRoutes router owner bfdPort plan) h (Ret (Ok tt)) ->
  applied h router owner bfdPort plan.
Proof.
  intros HL HC HX. eapply settled_applied; [done..|].
  by apply (okp_exec (fun _ _ => True) _ _ (fun h' _ => settled router owner bfdPort plan h')) in HX; [|by apply okp_reconcile_routes].
Qed.

(** ** The controller *)

Definition acknowledged (v : KVpc) (hash : string) (ready : bool) : KVpc := with_ack (mkACK Capability (kv_Generation v) hash ready) v.
(** The controller transacts a plan its VPC was validated for, publishes at once only that
    a destination plan is not ready, and comes back only to a plan that was settled. *)
Definition vpc_call (v : KVpc) (bfdPort : string) (h : rhistory) (o : rop) : Prop :=
  match o with
  | Transact _ => exists plan, validateVpcDestinationRoutes v = Ok plan /\ route_call (kv_Name v) (kv_UID v) bfdPort plan h o
  | UpdateStatus v' => v' = acknowledged v "" false
  | AddAfter name _ => name = kv_Name v /\ exists plan, validateVpcDestinationRoutes v = Ok plan /\ settled (kv_Name v) (kv_UID v) bfdPort plan h
  | _ => True
  end.
(** What one reconciliation ends with *)
Definition vpc_result (v : KVpc) (bfdPort : string) (capable : bool) (h : rhistory) (x : KVpc * res unit) : Prop :=
  match snd x with
  | Ok _ =>
      (capable = false /\ never_used v = true /\ fst x = v) \/
      exists plan, validateVpcDestinationRoutes v = Ok plan /\ settled (kv_Name v) (kv_UID v) bfdPort plan h /\
        fst x = acknowledged v (Hash plan) true
  | Err _ => fst x = acknowledged v "" false /\ exists r, asked h (UpdateStatus (acknowledged v "" false)) r
  end.
Lemma wp_revoke capable v bfdPort e h : wp any_answer (vpc_call v bfdPort) (acknowledge v (Err e)) h (fun h' x => vpc_result v bfdPort capable h' x).
Proof.
  split; [done|]. intros x _. cbn. unfold vpc_result. destruct x as [u|e']; cbn [fst snd]; (split; [done|]); eexists; apply asked_snoc.
Qed.
Lemma wp_reconcile_destinations capable v bfdPort :
  wp any_answer (vpc_call v bfdPort) (reconcileVpcDestinationRoutes capable v bfdPort) [] (fun h x => vpc_result v bfdPort capable h x).
Proof.
  unfold reconcileVpcDestinationRoutes. destruct (validateVpcDestinationRoutes v) as [plan|e] eqn:EV; [|apply wp_revoke].
  destruct capable.
  - apply wp_bind. eapply wp_mono; [|apply (okp_reconcile_routes (vpc_call v bfdPort))].
    + intros h [u|e]; [intros [_ HS]|intros _; apply wp_revoke]. unfold acknowledge. cbn [is_ok].
      destruct (List.length (Routes plan) =? 0)%nat; [right; by exists plan|]. split; [split; [done|by exists plan]|].
      intros x _. right. exists plan. split_and!; [done| |done]. eapply routes_settled_extends; [apply extends_snoc|done].
    + by intros h [].
    + intros h o HT%transacts_justified. destruct o; try done. by exists plan.
  - destruct (never_used v) eqn:EN; [by left|apply wp_revoke].
Qed.
Lemma validate_compile v plan : validateVpcDestinationRoutes v = Ok plan -> exists input, Compile input = Ok plan.
Proof.
  unfold validateVpcDestinationRoutes. intros H. destruct (Compile _) as [p|] eqn:EC; [|done].
  enough (p = plan) as <- by eauto. destruct (List.length (Routes p) =? 0)%nat; [by injection H|].
  destruct (_ || _); [done|]. destruct (negb _); [done|]. destruct (check_static_routes _ _); [by injection H|done].
Qed.
(** C22: The native controller transacts only a plan its VPC was validated for. A
    reconciliation that succeeds leaves a ready acknowledgement with the plan's hash and
    the VPC's generation, and then that plan was realised, or it leaves a VPC that never
    used the capability alone; one that fails ends with a status update that revokes the
    acknowledgement. *)
Theorem acknowledgements_follow_the_transaction capable v bfdPort :
  obeys (vpc_call v bfdPort) (reconcileVpcDestinationRoutes capable v bfdPort) /\
  forall h v' r, library_writes h -> exec (reconcileVpcDestinationRoutes capable v bfdPort) h (Ret (v', r)) ->
    match r with
    | Err _ => v' = acknowledged v "" false /\ exists s, asked h (UpdateStatus v') s
    | Ok _ => capable = false /\ never_used v = true /\ v' = v \/
        exists plan, validateVpcDestinationRoutes v = Ok plan /\ applied h (kv_Name v) (kv_UID v) bfdPort plan /\
          v' = acknowledged v (Hash plan) true
    end.
Proof.
  split; [eapply wp_obeys, (wp_reconcile_destinations capable)|]. intros h v' r HL HX.
  pose proof (wp_ret_exec _ _ _ _ _ _ (wp_reconcile_destinations capable v bfdPort) HX (answered_any _ _)) as HR. unfold vpc_result in HR. cbn [fst snd] in HR.
  destruct r as [u|e]; [|by destruct HR as [-> HR]]. destruct HR as [|(plan & HV & HS & HE)]; [by left|right].
  destruct (validate_compile _ _ HV) as (input & HC). exists plan. split_and!; [done|by eapply settled_applied|done].
Qed.

(** ** Orphans *)

Definition orphan_call (h : rhistory) (o : rop) : Prop :=
  match o with
  | Transact _ => exists live router owner, asked h ListVpcUIDs (Ok live) /\ ~ In owner live /\
      (router = ""%string \/ exists routers rows, asked h ListRouters (Ok routers) /\ In router routers /\
         asked h (ListRoutes router (Some owner)) (Ok rows) /\ rows <> []) /\
      route_call router owner "" empty_plan h o
  | UpdateStatus _ | AddAfter _ _ => False
  | _ => True
  end.
(** Every call of a program comes after what preceded it. *)
Lemma wp_since (R : rhistory -> rop -> Prop) {A} (p : rprog A) h0 h Q : extends h0 h ->
  wp any_answer R p h Q -> wp any_answer (fun h' o => extends h0 h' /\ R h' o) p h Q.
Proof.
  revert h. induction p as [a|o k IH]; intros h HE; simpl; [done|]. intros [HR HK]. split; [done|]. intros x Hx.
  apply IH; [|by apply HK]. eapply extends_trans; [exact HE|apply extends_snoc].
Qed.
Lemma orphan_local h o : local o -> orphan_call h o.
Proof. by destruct o. Qed.
(** A clean-up of an orphan that was read as one *)
Lemma okp_clean router owner live h : asked h ListVpcUIDs (Ok live) -> ~ In owner live ->
  (router = ""%string \/ exists routers rows, asked h ListRouters (Ok routers) /\ In router routers /\
     asked h (ListRoutes router (Some owner)) (Ok rows) /\ rows <> []) ->
  okp orphan_call (ReconcileDestinationRoutes router owner "" empty_plan) h (fun _ _ => True).
Proof.
  intros HL HO HS. pose (R := fun h o => local o \/ transacts router owner "" empty_plan h o).
  assert (okp R (ReconcileDestinationRoutes router owner "" empty_plan) h (fun _ _ => True)) as HP.
  { eapply okp_mono; [apply okp_reconcile_routes; unfold R; tauto|done]. }
  unfold okp in *. eapply wp_weaken; [by intros ???| |by apply (wp_since R _ h h _ (extends_refl h))].
  intros h' o [HE [HR|HR]]; [by apply orphan_local|]. destruct o; try done. exists live, router, owner. split_and!.
  - eapply asked_extends; [exact HE|exact HL].
  - done.
  - destruct HS as [->|(routers & rows & H1 & H2 & H3 & H4)]; [by left|right]. exists routers, rows. split_and!; try done.
    + eapply asked_extends; [exact HE|exact H1].
    + eapply asked_extends; [exact HE|exact H3].
  - by apply transacts_justified.
Qed.
Lemma okp_gc_owner live routers owner h : asked h ListVpcUIDs (Ok live) -> ~ In owner live -> asked h ListRouters (Ok routers) ->
  okp orphan_call (gc_owner routers owner) h (fun _ _ => True).
Proof.
  intros HL HO HRS. unfold gc_owner. eapply okp_bind.
  - apply (okp_collect orphan_call _ (fun _ _ _ => True)); [done|]. intros h1 router Hr HE. unfold gc_router.
    eapply okp_bind with (P := fun h' l => asked h' (ListRoutes router (Some owner)) (Ok l)).
    { split; [done|]. intros [l|e] _; simpl; [|done]. split; [apply extends_snoc|apply asked_snoc]. }
    intros h2 rows H2 HA. apply okp_if; [by intros _; apply okp_Ok|]. intros HN. apply (okp_clean _ _ live); [|done|].
    + eapply asked_extends; [|exact HL]. by eapply extends_trans.
    + right. exists routers, rows. split_and!; [|done|done|by intros ->]. eapply asked_extends; [|exact HRS]. by eapply extends_trans.
  - intros h1 _ HE _. apply (okp_clean _ _ live); [|done|by left]. eapply asked_extends; [exact HE|exact HL].
Qed.
Lemma okp_gc capable : okp orphan_call (gcDestinationRoutes capable) [] (fun _ _ => True).
Proof.
  unfold gcDestinationRoutes. apply okp_if; [by intros _; apply okp_Ok|]. intros _.
  eapply okp_bind with (P := fun h' l => asked h' ListVpcUIDs (Ok l)).
  { split; [done|]. intros [l|e] _; simpl; [|done]. split; [by eexists [_]|by left]. }
  intros h1 live H1 HL. eapply okp_bind with (P := fun _ _ => True).
  { split; [done|]. intros [l|e] _; simpl; [|done]. split; [apply extends_snoc|done]. }
  intros h2 sessions H2 _. eapply okp_bind with (P := fun h' l => asked h' ListRouters (Ok l)).
  { split; [done|]. intros [l|e] _; simpl; [|done]. split; [apply extends_snoc|apply asked_snoc]. }
  intros h3 routers H3 HRS. eapply okp_bind.
  { apply (okp_collect orphan_call _ (fun _ _ _ => True)); [done|]. intros h' router _ _. split; [done|].
    intros [l|e] _; simpl; [|done]. split; [apply extends_snoc|done]. }
  intros h4 rows H4 _. eapply okp_bind; [|by intros; apply okp_Ok].
  apply (okp_collect orphan_call _ (fun _ _ _ => True)); [done|]. intros h5 owner Ho H5.
  apply (okp_gc_owner live).
  - eapply asked_extends; [|exact HL]. backwards.
  - rewrite (shuffle_perm 2), <- list_elem_of_In, elem_of_remove_dups, list_elem_of_In in Ho.
    unfold orphans in Ho. apply filter_In in Ho as [_ [_ Ho]%andb_true_iff]. intros Hin. apply negb_true_iff in Ho.
    apply (existsb_forall _ _ Ho) in Hin. by rewrite String.eqb_refl in Hin.
  - eapply asked_extends; [|exact HRS]. backwards.
Qed.
(** The collector transacts only for owners that are no UID of a listed VPC, on no router
    or on one that was read with rows of that owner, and then as the route writer does. *)
Theorem only_orphans_are_collected capable : obeys orphan_call (gcDestinationRoutes capable).
Proof. eapply okp_obeys, okp_gc. Qed.
End facts.

(** ** A pass over a small northbound database

    The library's operations are the requests themselves, and a transaction applies them. *)
Module RouteRun.
#[export] Instance kube_ovn : KubeOVN := {|
  CniTypeName := "kube-ovn"; StaticRouteBfdEcmp := "ecmp_symmetric_reply"; DefaultVpc := "ovn-cluster"; PolicySrc := "policySrc";
  LogicalRouterTable := "Logical_Router"; BFDTable := "BFD"; LogicalRouterStaticRouteTable := "Logical_Router_Static_Route" |}.
#[export] Instance library : OvsLibrary := {| libop := request; is_wait := fun _ => false |}.
#[export] Program Instance in_order : MapOrder := {| shuffle n A l := l |}.
Next Obligation. done. Defined.

Record northbound := mkNorthbound { nb_routes : list StaticRoute; nb_refs : list string; nb_bfd : list BFDRow; nb_next : nat; nb_vpc : option KVpc }.
Definition commit (w : northbound) (r : request) : northbound :=
  match r with
  | CreateBFD b => mkNorthbound (nb_routes w) (nb_refs w) (nb_bfd w ++ [b]) (nb_next w) (nb_vpc w)
  | UpdateTimers b =>
      mkNorthbound (nb_routes w) (nb_refs w) (map (fun x => if (bf_UUID x =? bf_UUID b)%string then b else x) (nb_bfd w)) (nb_next w) (nb_vpc w)
  | DeleteBFD b =>
      mkNorthbound (nb_routes w) (nb_refs w) (List.filter (fun x => negb (bf_UUID x =? bf_UUID b)%string) (nb_bfd w)) (nb_next w) (nb_vpc w)
  | CreateRoute x => mkNorthbound (nb_routes w ++ [x]) (nb_refs w) (nb_bfd w) (nb_next w) (nb_vpc w)
  | MutateRoutes _ ids true => mkNorthbound (nb_routes w) (nb_refs w ++ ids) (nb_bfd w) (nb_next w) (nb_vpc w)
  | MutateRoutes _ ids false =>
      let gone x := existsb (String.eqb x) ids in
      mkNorthbound (List.filter (fun x => negb (gone (sr_UUID x))) (nb_routes w)) (List.filter (fun x => negb (gone x)) (nb_refs w))
        (nb_bfd w) (nb_next w) (nb_vpc w)
  end.
Definition requested (ops : list operation) : list request := omap (fun o => match o with Wait _ => None | Lib r => Some r end) ops.
Definition ports : list RouterPort := [mkPort "bfd" [] {["bfd-only" := "true"]}; mkPort "lan" ["192.168.0.1/24"] ∅].
Definition db_step (o : rop) (w : northbound) : rans o * northbound :=
  match o with
  | GetLogicalRouter name =>
      (Ok (if (name =? "vpc-a")%string then Some (mkRouter "lr-1" (map lp_Name ports) (nb_refs w)) else None), w)
  | ListRoutes _ owner => (Ok (List.filter (fun r => match owner with None => true | Some x => route_owned x r end) (nb_routes w)), w)
  | FindBFD => (Ok (nb_bfd w), w)
  | GetPort id => (match List.find (fun p => (lp_Name p =? id)%string) ports with Some p => Ok p | None => Err (Errorf "no port") end, w)
  | ListAllRoutes => (Ok (nb_routes w), w)
  | ListAllPolicies => (Ok [], w)
  | ListRouters => (Ok ["vpc-a"], w)
  | NamedUUID => (("new-" ++ utoa (Z.of_nat (nb_next w)))%string, mkNorthbound (nb_routes w) (nb_refs w) (nb_bfd w) (S (nb_next w)) (nb_vpc w))
  | Build r => (Ok [r], w)
  | Transact ops => (Ok tt, fold_left commit (requested ops) w)
  | ListVpcUIDs => (Ok ["uid-a"], w)
  | UpdateStatus v => (Ok tt, mkNorthbound (nb_routes w) (nb_refs w) (nb_bfd w) (nb_next w) (Some v))
  | AddAfter _ _ => (tt, w)
  end.
Definition db_history {A} (p : prog rans A) (w : northbound) : list (event rans) := fst (fst (Prog.run db_step p w)).
Definition db_result {A} (p : prog rans A) (w : northbound) : A := snd (fst (Prog.run db_step p w)).
Definition db_after {A} (p : prog rans A) (w : northbound) : northbound := snd (Prog.run db_step p w).
Lemma db_exec {A} (p : prog rans A) w a : db_result p w = a -> exec p (db_history p w) (Ret a).
Proof. intros <-. apply run_history. Qed.
Definition writes_seen (h : list (event rans)) : bool :=
  forallb (fun e => match e with
                    | Ev (Build r) x => match (x : res (list libop)) with Ok l => existsb (fun o => negb (is_wait o)) l | Err _ => true end
                    | _ => true
                    end) h.
Lemma writes_seen_ok h : writes_seen h = true -> library_writes h.
Proof. intros H r l HA. unfold writes_seen in H. rewrite forallb_forall in H. exact (H _ HA). Qed.

Definition timers : BFD := mkBFD 300 300 3.
Definition intent : Intent := mkIntent "10.1.0.0/16" ["192.168.0.2"; "192.168.0.3"] timers ["ip_src"; "ip_dst"].
Definition compiled : Plan := match Compile [intent] with Ok p => p | Err _ => empty_plan end.
Definition session (id hop owner : string) (t : BFD) : BFDRow := new_session owner "bfd" hop id t.
(** A guard that is right, a row that is not, a foreign default route; a session with old
    timers, an obsolete one and a foreign one *)
Definition before : northbound :=
  mkNorthbound
    [with_uuid "r-guard" (guard_route (route_ids "uid-a" intent) intent);
     with_uuid "r-old" (hop_route (route_ids "uid-a" intent) intent "10.9.0.0/17" "192.168.0.9" "b-old");
     mkRoute "r-default" None "0.0.0.0/0" "192.168.0.254" None "" ∅ ∅ [] []]
    ["r-guard"; "r-old"; "r-default"]
    [session "b-2" "192.168.0.2" "uid-a" (mkBFD 1000 1000 3); session "b-old" "192.168.0.9" "uid-a" timers; session "b-x" "192.168.0.7" "uid-x" timers]
    0 None.
Definition pass : prog rans (res unit) := ReconcileDestinationRoutes "vpc-a" "uid-a" "bfd" compiled.
Definition transactions (h : list (event rans)) : list (list request) :=
  omap (fun e => match ev_op e with Transact ops => Some (requested ops) | _ => None end) h.
Definition kinds (l : list request) : list string :=
  map (fun r => match r with CreateBFD b => "bfd+" ++ bf_DstIP b | UpdateTimers b => "bfd~" ++ bf_DstIP b | DeleteBFD b => "bfd-" ++ bf_DstIP b
                | CreateRoute r => destinationRouteKey r | MutateRoutes _ ids true => "+" ++ String.concat "," ids
                | MutateRoutes _ ids false => "-" ++ String.concat "," ids end)%string l.
Lemma compiled_ok : Compile [intent] = Ok compiled.
Proof. vm_compute. reflexivity. Qed.
(** The pass transacts the difference, and a second pass transacts nothing. *)
Lemma pass_transacts :
  db_result pass before = Ok tt /\
  map kinds (transactions (db_history pass before)) =
    [["bfd+192.168.0.3"; "bfd~192.168.0.2"; "10.1.128.0/17|192.168.0.3"; "10.1.128.0/17|192.168.0.2"; "10.1.0.0/17|192.168.0.3";
      "10.1.0.0/17|192.168.0.2"; "-r-old"; "+new-1,new-2,new-3,new-4"; "bfd-192.168.0.9"]]%string /\
  db_result pass (db_after pass before) = Ok tt /\ transactions (db_history pass (db_after pass before)) = [].
Proof. split_and!; vm_compute; reflexivity. Qed.
Lemma transactions_realise_the_plan_witness :
  db_result pass before = Ok tt /\ applied (db_history pass before) "vpc-a" "uid-a" "bfd" compiled.
Proof.
  destruct pass_transacts as (HP & _). split; [done|].
  refine (transactions_realise_the_plan _ _ _ _ _ _ _ compiled_ok (db_exec _ _ _ HP)).
  apply writes_seen_ok. vm_compute. reflexivity.
Defined.

(** The last call of the pass is its transaction. *)
Definition pass_length : nat := pred (List.length (db_history pass before)).
Definition pass_call : rop := match option_map ev_op (nth_error (db_history pass before) pass_length) with Some o => o | None => FindBFD end.
Lemma route_pass_called : called (db_history pass before) (firstn pass_length (db_history pass before)) pass_call.
Proof. apply called_at. vm_compute. reflexivity. Qed.
Lemma destination_rows_are_never_adopted_witness :
  (exists ops, pass_call = Transact ops) /\
  route_call "vpc-a" "uid-a" "bfd" compiled (firstn pass_length (db_history pass before)) pass_call.
Proof.
  split; [by vm_compute; eexists|]. destruct pass_transacts as (HP & _).
  exact (called_permitted _ _ _ _ _ _ (destination_rows_are_never_adopted "vpc-a" "uid-a" "bfd" compiled) (db_exec _ _ _ HP) route_pass_called).
Defined.

Definition vpc : KVpc := mkKVpc "vpc-a" "uid-a" 4 (Some [intent]) [None; Some (mkStatic "0.0.0.0/0" "" "policyDst")] true false (mkACK "" 0 "" false).
Definition reconciled : prog rans (KVpc * res unit) := reconcileVpcDestinationRoutes true vpc "bfd".
Lemma reconciled_ready : db_result reconciled before = (acknowledged vpc (Hash compiled) true, Ok tt).
Proof. vm_compute. reflexivity. Qed.
(** Without its BFD port the VPC is acknowledged as not ready, at once. *)
Definition misplaced : prog rans (KVpc * res unit) := reconcileVpcDestinationRoutes true vpc "other".
Lemma misplaced_refused : exists e, db_result misplaced before = (acknowledged vpc "" false, Err e) /\
  nb_vpc (db_after misplaced before) = Some (acknowledged vpc "" false) /\ transactions (db_history misplaced before) = [].
Proof. eexists. split_and!; vm_compute; reflexivity. Qed.
Lemma acknowledgements_follow_the_transaction_witness :
  exists plan, validateVpcDestinationRoutes vpc = Ok plan /\ applied (db_history reconciled before) "vpc-a" "uid-a" "bfd" plan /\
    fst (db_result reconciled before) = acknowledged vpc (Hash plan) true.
Proof.
  destruct (acknowledgements_follow_the_transaction true vpc "bfd") as [_ HE]. pose proof (db_exec _ _ _ reconciled_ready) as HX.
  assert (library_writes (db_history reconciled before)) as HL by (apply writes_seen_ok; vm_compute; reflexivity).
  specialize (HE _ _ _ HL HX). cbv beta iota in HE. rewrite reconciled_ready. by destruct HE as [(H & _)|HE].
Defined.

(** The rows of a VPC that is gone are collected; those of a live one are left. *)
Definition orphaned : northbound :=
  mkNorthbound (nb_routes before) (nb_refs before) (nb_bfd before ++ [session "b-g" "192.168.0.8" "uid-gone" timers]) 0 None.
Lemma orphans_collected :
  db_result (gcDestinationRoutes true) orphaned = Ok tt /\
  map kinds (transactions (db_history (gcDestinationRoutes true) orphaned)) = [["bfd-192.168.0.7"]; ["bfd-192.168.0.8"]]%string.
Proof. split; vm_compute; reflexivity. Qed.
End RouteRun.
