(* ===== verification/CommandLine.v ===== *)
(** * [internal/vpcctl]: releases, issued access and Helm

    [release.go], [access.go], the token request of [kubernetes.go] and [helm.go]: what is
    accepted as a release descriptor, the private file a location's access is issued into,
    and the argument vectors Helm is run with. Files, the clock, HTTP, the API server and
    Helm itself answer anything; flags are parsed by a library. *)
From S2P Require Import Prelude GoStd Json JsonDecode Validation Prog Api NativePlan NativeLifecycle UserCommands.
Open Scope Z_scope.

(** ** Text *)

(** [strings.Split] at newlines *)
Fixpoint lines_from (current : string) (s : string) : list string :=
  match s with
  | EmptyString => [current]
  | String c s => if byte_val c =? 10 then current :: lines_from "" s else lines_from (current ++ String c "") s
  end.
Definition lines (s : string) : list string := lines_from "" s.
(** The length of the white space [s] starts with, as [unicode.IsSpace] has it: it is
    found by its bytes, which no other encoding contains. *)
Definition space_length (s : string) : nat :=
  match map byte_val (list_ascii_of_string (String.substring 0 3 s)) with
  | [] => 0%nat
  | a :: rest =>
      if (a =? 32) || ((9 <=? a) && (a <=? 13)) then 1%nat
      else match rest with
           | [] => 0%nat
           | b :: rest =>
               if (a =? 194) && ((b =? 133) || (b =? 160)) then 2%nat
               else match rest with
                    | [] => 0%nat
                    | c :: _ =>
                        if ((a =? 225) && (b =? 154) && (c =? 128)) ||
                           ((a =? 226) && (b =? 128) && (((128 <=? c) && (c <=? 138)) || (c =? 168) || (c =? 169) || (c =? 175))) ||
                           ((a =? 226) && (b =? 129) && (c =? 159)) || ((a =? 227) && (b =? 128) && (c =? 128))
                        then 3%nat else 0%nat
                    end
           end
  end.
(** [strings.Fields]: [skip] bytes of a white space are left. *)
Fixpoint fields_from (current : string) (skip : nat) (s : string) : list string :=
  let ended := if (current =? "")%string then [] else [current] in
  match s with
  | EmptyString => ended
  | String c s' =>
      match skip with
      | S skip => fields_from "" skip s'
      | O => match space_length s with
             | O => fields_from (current ++ String c "") 0 s'
             | S n => ended ++ fields_from "" n s'
             end
      end
  end.
Definition Fields (s : string) : list string := fields_from "" 0 s.

(** [releaseVersion.MatchString]: a number without leading zeros *)
Fixpoint digits_of (s : string) : string * string :=
  match s with
  | String c s' => if is_digit c then let '(d, r) := digits_of s' in (String c d, r) else ("", s)
  | EmptyString => ("", "")
  end%string.
Definition version_number (s : string) : option string :=
  let '(d, rest) := digits_of s in
  match d with
  | EmptyString => None
  | String c d' => if (byte_val c =? 48) && negb (d' =? "")%string then None else Some rest
  end.
Definition after_char (c : ascii) (s : string) : option string :=
  match s with String a s => if Ascii.eqb a c then Some s else None | EmptyString => None end.
Definition alphanumeric (c : ascii) : bool := is_digit c || in_range 65 90 c || in_range 97 122 c.
Definition version_suffix (s : string) : bool :=
  match s with
  | EmptyString => true
  | String "-" (String c s) => alphanumeric c && all_chars (fun c => alphanumeric c || (byte_val c =? 46) || (byte_val c =? 45)) s
  | _ => false
  end.
Definition obind {A B} (x : option A) (f : A -> option B) : option B := match x with Some a => f a | None => None end.
Definition releaseVersion (s : string) : bool :=
  match obind (after_char "v" s) (fun s => obind (version_number s) (fun s => obind (after_char "." s) (fun s =>
        obind (version_number s) (fun s => obind (after_char "." s) version_number)))) with
  | Some rest => version_suffix rest
  | None => false
  end.
Definition lower_hex (c : ascii) : bool := is_digit c || in_range 97 102 c.
Definition releaseCommit (s : string) : bool := (String.length s =? 40)%nat && all_chars lower_hex s.
Definition nativeBuildHashPattern (s : string) : bool := (String.length s =? 64)%nat && all_chars lower_hex s.

Example versions : map releaseVersion ["v1.2.3"; "v0.10.0-rc.1"; "v01.2.3"; "v1.2"; "v1.2.3-"; "v1.2.3-.a"; "1.2.3"; "v1.2.3 "]%string =
  [true; true; false; false; false; false; false; false].
Proof. reflexivity. Qed.
Example fields : Fields "  ab  *release.json " = ["ab"; "*release.json"]%string /\ Fields "" = [].
Proof. split; reflexivity. Qed.

(** ** Release descriptors *)

Record Release := mkRelease {
  rl_APIVersion : string; rl_Kind : string; rl_Version : string; rl_SourceCommit : string; rl_ControllerImage : string;
  rl_GatewayImage : string; rl_CLIImage : string; rl_Charts : gmap string string; rl_NativeBundles : gmap string NativeBundle }.
Fixpoint validate_bundles (l : list (string * NativeBundle)) : res unit :=
  match l with
  | [] => Ok tt
  | (target, bundle) :: l =>
      reject negb (target =? nb_Target bundle)%string with Errorf "release native bundle key does not match its target" ;;
      _ <-? (match validateNativeBundle bundle with Ok u => Ok u | Err e => Err (Wrapf ("release native " ++ target)%string e) end) ;;
      reject negb (digestImage (nb_BaseImage bundle)) || negb (nativeBuildHashPattern (nb_BinarySHA256 bundle)) ||
             negb (get (nb_Qualification bundle) "nativeUnitTests" =? "passed")%string
        with Errorf ("release native " ++ target ++ " is missing its base digest, binary hash or successful unit-test record")%string ;;
      validate_bundles l
  end.
(** The bundles are visited in some order; the first failure decides the error only. *)
Definition validateRelease (r : Release) : res unit :=
  reject negb (rl_APIVersion r =? nativeAPIVersion)%string || negb (rl_Kind r =? "Release")%string || negb (releaseVersion (rl_Version r)) ||
         negb (releaseCommit (rl_SourceCommit r))
    with Errorf "release requires the supported apiVersion/kind, a version and an exact source commit" ;;
  reject negb (digestImage (rl_ControllerImage r)) || negb (digestImage (rl_GatewayImage r))
    with Errorf "release controllerImage and gatewayImage must use immutable SHA256 digests" ;;
  reject negb (rl_CLIImage r =? "")%string && negb (digestImage (rl_CLIImage r))
    with Errorf "release cliImage must use an immutable SHA256 digest" ;;
  reject bool_decide (rl_NativeBundles r = ∅) with Errorf "release has no native extension bundles" ;;
  validate_bundles (map_to_list (rl_NativeBundles r)).

(** The strict decoder of a descriptor *)
Definition any_map_decoder : decoder json := fun j old => match j with JObj _ => Some (to_any j) | JNull => Some JNull | _ => None end.
Definition schema_decoder : decoder NativeSchema := strict_struct
  [field "spec" nsc_Spec (fun x s => mkNativeSchema x (nsc_Status s)) any_map_decoder;
   field "status" nsc_Status (fun x s => mkNativeSchema (nsc_Spec s) x) any_map_decoder].
Definition no_bundle : NativeBundle := mkBundle "" "" "" "" "" "" "" (mkNativeSchema JNull JNull) "" "" ∅.
Definition bundle_field (name : string) (get : NativeBundle -> string) (set : string -> NativeBundle -> NativeBundle) : string * decoder NativeBundle :=
  field name get set decode_string.
Definition bundle_decoder : decoder NativeBundle := strict_struct
  [bundle_field "apiVersion" nb_APIVersion (fun x b => mkBundle x (nb_Kind b) (nb_Target b) (nb_SourceCommit b) (nb_PatchSHA256 b) (nb_Image b) (nb_Platform b) (nb_Schema b) (nb_BaseImage b) (nb_BinarySHA256 b) (nb_Qualification b));
   bundle_field "kind" nb_Kind (fun x b => mkBundle (nb_APIVersion b) x (nb_Target b) (nb_SourceCommit b) (nb_PatchSHA256 b) (nb_Image b) (nb_Platform b) (nb_Schema b) (nb_BaseImage b) (nb_BinarySHA256 b) (nb_Qualification b));
   bundle_field "target" nb_Target (fun x b => mkBundle (nb_APIVersion b) (nb_Kind b) x (nb_SourceCommit b) (nb_PatchSHA256 b) (nb_Image b) (nb_Platform b) (nb_Schema b) (nb_BaseImage b) (nb_BinarySHA256 b) (nb_Qualification b));
   bundle_field "sourceCommit" nb_SourceCommit (fun x b => mkBundle (nb_APIVersion b) (nb_Kind b) (nb_Target b) x (nb_PatchSHA256 b) (nb_Image b) (nb_Platform b) (nb_Schema b) (nb_BaseImage b) (nb_BinarySHA256 b) (nb_Qualification b));
   bundle_field "patchSHA256" nb_PatchSHA256 (fun x b => mkBundle (nb_APIVersion b) (nb_Kind b) (nb_Target b) (nb_SourceCommit b) x (nb_Image b) (nb_Platform b) (nb_Schema b) (nb_BaseImage b) (nb_BinarySHA256 b) (nb_Qualification b));
   bundle_field "image" nb_Image (fun x b => mkBundle (nb_APIVersion b) (nb_Kind b) (nb_Target b) (nb_SourceCommit b) (nb_PatchSHA256 b) x (nb_Platform b) (nb_Schema b) (nb_BaseImage b) (nb_BinarySHA256 b) (nb_Qualification b));
   bundle_field "platform" nb_Platform (fun x b => mkBundle (nb_APIVersion b) (nb_Kind b) (nb_Target b) (nb_SourceCommit b) (nb_PatchSHA256 b) (nb_Image b) x (nb_Schema b) (nb_BaseImage b) (nb_BinarySHA256 b) (nb_Qualification b));
   field "schema" nb_Schema (fun x b => mkBundle (nb_APIVersion b) (nb_Kind b) (nb_Target b) (nb_SourceCommit b) (nb_PatchSHA256 b) (nb_Image b) (nb_Platform b) x (nb_BaseImage b) (nb_BinarySHA256 b) (nb_Qualification b)) schema_decoder;
   bundle_field "baseImage" nb_BaseImage (fun x b => mkBundle (nb_APIVersion b) (nb_Kind b) (nb_Target b) (nb_SourceCommit b) (nb_PatchSHA256 b) (nb_Image b) (nb_Platform b) (nb_Schema b) x (nb_BinarySHA256 b) (nb_Qualification b));
   bundle_field "binarySHA256" nb_BinarySHA256 (fun x b => mkBundle (nb_APIVersion b) (nb_Kind b) (nb_Target b) (nb_SourceCommit b) (nb_PatchSHA256 b) (nb_Image b) (nb_Platform b) (nb_Schema b) (nb_BaseImage b) x (nb_Qualification b));
   field "qualification" (fun b => Some (nb_Qualification b)) (fun x b => mkBundle (nb_APIVersion b) (nb_Kind b) (nb_Target b) (nb_SourceCommit b) (nb_PatchSHA256 b) (nb_Image b) (nb_Platform b) (nb_Schema b) (nb_BaseImage b) (nb_BinarySHA256 b) (default ∅ x)) (decode_map decode_string "")].
Definition no_release : Release := mkRelease "" "" "" "" "" "" "" ∅ ∅.
Definition release_decoder : decoder Release := strict_struct
  [field "apiVersion" rl_APIVersion (fun x r => mkRelease x (rl_Kind r) (rl_Version r) (rl_SourceCommit r) (rl_ControllerImage r) (rl_GatewayImage r) (rl_CLIImage r) (rl_Charts r) (rl_NativeBundles r)) decode_string;
   field "kind" rl_Kind (fun x r => mkRelease (rl_APIVersion r) x (rl_Version r) (rl_SourceCommit r) (rl_ControllerImage r) (rl_GatewayImage r) (rl_CLIImage r) (rl_Charts r) (rl_NativeBundles r)) decode_string;
   field "version" rl_Version (fun x r => mkRelease (rl_APIVersion r) (rl_Kind r) x (rl_SourceCommit r) (rl_ControllerImage r) (rl_GatewayImage r) (rl_CLIImage r) (rl_Charts r) (rl_NativeBundles r)) decode_string;
   field "sourceCommit" rl_SourceCommit (fun x r => mkRelease (rl_APIVersion r) (rl_Kind r) (rl_Version r) x (rl_ControllerImage r) (rl_GatewayImage r) (rl_CLIImage r) (rl_Charts r) (rl_NativeBundles r)) decode_string;
   field "controllerImage" rl_ControllerImage (fun x r => mkRelease (rl_APIVersion r) (rl_Kind r) (rl_Version r) (rl_SourceCommit r) x (rl_GatewayImage r) (rl_CLIImage r) (rl_Charts r) (rl_NativeBundles r)) decode_string;
   field "gatewayImage" rl_GatewayImage (fun x r => mkRelease (rl_APIVersion r) (rl_Kind r) (rl_Version r) (rl_SourceCommit r) (rl_ControllerImage r) x (rl_CLIImage r) (rl_Charts r) (rl_NativeBundles r)) decode_string;
   field "cliImage" rl_CLIImage (fun x r => mkRelease (rl_APIVersion r) (rl_Kind r) (rl_Version r) (rl_SourceCommit r) (rl_ControllerImage r) (rl_GatewayImage r) x (rl_Charts r) (rl_NativeBundles r)) decode_string;
   field "charts" (fun r => Some (rl_Charts r)) (fun x r => mkRelease (rl_APIVersion r) (rl_Kind r) (rl_Version r) (rl_SourceCommit r) (rl_ControllerImage r) (rl_GatewayImage r) (rl_CLIImage r) (default ∅ x) (rl_NativeBundles r)) (decode_map decode_string "");
   field "nativeBundles" (fun r => Some (rl_NativeBundles r)) (fun x r => mkRelease (rl_APIVersion r) (rl_Kind r) (rl_Version r) (rl_SourceCommit r) (rl_ControllerImage r) (rl_GatewayImage r) (rl_CLIImage r) (rl_Charts r) (default ∅ x)) (decode_map bundle_decoder no_bundle)].
(** One object and nothing after it *)
Definition decode_release (data : string) : res Release :=
  match UnmarshalInto release_decoder no_release data with
  | Some r => Ok r
  | None => Err (Errorf "invalid release descriptor")
  end.
(** The loop over the lines of the checksum file *)
Fixpoint find_checksum (filename : string) (l : list string) (expected : string) : res string :=
  match l with
  | [] => Ok expected
  | line :: l =>
      match Fields line with
      | [sum; name] =>
          if (TrimPrefix name "*" =? filename)%string then
            reject negb (expected =? "")%string with Errorf "duplicate release checksum entry" ;;
            find_checksum filename l sum
          else find_checksum filename l expected
      | _ => find_checksum filename l expected
      end
  end.
Definition verifyReleaseChecksum (data checksums filename : string) : res unit :=
  expected <-? find_checksum filename (lines checksums) "" ;;
  reject (expected =? "")%string || negb (expected =? sha256_hex data)%string with Errorf "release descriptor SHA256 verification failed" ;;
  Ok tt.

(** ** Calls *)

(** [url.URL]: the fields the code reads, and the rest. *)
Record URL := mkURL { u_Scheme : string; u_Host : string; u_User : bool; u_RawQuery : string; u_Fragment : string; u_Path : string; u_Rest : string }.
(** The kubeconfig types of client-go *)
Record KContext := mkContext { kx_Cluster : string; kx_AuthInfo : string; kx_Namespace : string }.
Record KCluster := mkKCluster {
  kc_Server : string; kc_InsecureSkipTLSVerify : bool; kc_CertificateAuthorityData : string; kc_CertificateAuthority : string;
  kc_LocationOfOrigin : string; kc_TLSServerName : string; kc_ProxyURL : string }.
Record KConfig := mkKConfig {
  kf_CurrentContext : string; kf_Contexts : gmap string KContext; kf_Clusters : gmap string KCluster; kf_Tokens : gmap string string }.
(** A PEM block: its type, its headers and its bytes *)
Record Block := mkBlock { pb_Type : string; pb_Headers : list (string * string); pb_Bytes : string }.
(** What is read of [net/url], [encoding/pem], [crypto/x509], [time] and client-go *)
Class Formats := {
  url_Parse : string -> option URL;
  url_String : URL -> string;
  Hostname : URL -> string;
  pem_Decode : string -> option (Block * string);
  pem_Encode : Block -> string;
  ParseCertificate : string -> bool;
  clientcmd_Write : KConfig -> res string;
  DurationString : Z -> string }.

(** A redirect policy sees the next address and the number of requests made so far. *)
Inductive cop :=
| OpenDescriptor (path : string)
| ReadLimited (limit : Z)
| NewRequest (location : string)
| HTTPGet (location : string) (redirect : URL -> nat -> res unit)
| ReadBody (limit : Z)
| ShowRelease (r : Release)
| RawConfig
| ReadFile (path : string)
| OpenExclusive (path : string)
| ChmodFile
| ContextErr
| NewClient
| CreateToken (ns account : string) (seconds : Z)
| Now
| WriteFile (data : string)
| SyncFile
| CloseFile
| RemoveFile (path : string)
| Report (ns account : string) (expiry : Z)
| LookPath (name : string)
| RunCommand (name : string) (argv : list string).
(** A limited read gives what it read and its error; a response has its status. *)
Definition cans (o : cop) : Type :=
  match o with
  | OpenDescriptor _ | NewRequest _ | ShowRelease _ | OpenExclusive _ | ChmodFile | NewClient | WriteFile _ | SyncFile | CloseFile | RemoveFile _
  | Report _ _ _ | LookPath _ | RunCommand _ _ => res unit
  | ReadLimited _ | ReadBody _ => string * option error
  | HTTPGet _ _ => res Z
  | RawConfig => res KConfig
  | ReadFile _ => res string
  | ContextErr => option error
  | CreateToken _ _ _ => res (string * Z)
  | Now => Z
  end.
Notation cprog := (prog cans).
Notation chistory := (list (event cans)).
(** A failure whose details are dropped *)
Definition masked {A} (msg : string) (p : cprog (res A)) : cprog (res A) :=
  x <- p ;; Ret (match x with Ok a => Ok a | Err _ => Err (Errorf msg) end).
Definition run_call (o : cop) (f : cans o -> res unit) : cprog (res unit) := x <- call o ;; Ret (f x).

Record Options := mkOptions { cl_Kubeconfig : string; cl_Context : string; cl_Namespace : string; cl_Output : string; cl_Timeout : Z }.

Section commands.
Context {VAL : Validation} {FMT : Formats}.

(** ** Loading a release *)

Definition MiB : Z := 2 ^ 20.
(** [copyClient.CheckRedirect], with the client's own policy *)
Definition CheckRedirect (previous : URL -> nat -> res unit) (u : URL) (via : nat) : res unit :=
  reject negb (u_Scheme u =? "https")%string || u_User u with Errorf "insecure release redirect refused" ;;
  reject (10 <=? via)%nat with Errorf "too many release redirects" ;;
  previous u via.
Definition releaseDownload (previous : URL -> nat -> res unit) (location : string) (maximum : Z) : cprog (res string) :=
  _ <-! masked "invalid release download URL" (call (NewRequest location) : cprog (res unit)) ;;
  status <-! masked "release download failed; check network access and release availability"
               (call (HTTPGet location (CheckRedirect previous)) : cprog (res Z)) ;;
  stop negb (status =? 200) with Errorf ("release asset unavailable (HTTP " ++ Itoa status ++ "); use a published version or a trusted local release.json")%string ;;
  x <- (call (ReadBody (maximum + 1)) : cprog (string * option error)) ;;
  match snd x with
  | Some e => Ret (Err (Wrapf "read release asset" e))
  | None =>
      stop maximum <? Z.of_nat (String.length (fst x)) with Errorf "release asset exceeds size limit" ;;
      Ret (Ok (fst x))
  end.
(** [path.Dir], [path.Base] and [path.Join] of two elements *)
Definition path_Dir (p : string) : string := match cut_last_byte "/" p with Some (d, _) => Clean (d ++ "/") | None => "." end.
Fixpoint trim_slashes (s : string) : string :=
  match s with
  | EmptyString => EmptyString
  | String c s' => match trim_slashes s' with EmptyString => if byte_val c =? 47 then EmptyString else String c EmptyString | r => String c r end
  end.
Definition path_Base (p : string) : string :=
  if (p =? "")%string then "."
  else match trim_slashes p with
       | EmptyString => "/"
       | t => match cut_last_byte "/" t with Some (_, b) => b | None => t end
       end.
Definition path_Join (d b : string) : string :=
  if (d =? "")%string then (if (b =? "")%string then "" else Clean b)
  else if (b =? "")%string then Clean d else Clean (d ++ "/" ++ b).
Definition published (version : string) : string :=
  ("https://github.com/yckao/kube-ovn-global-vpc/releases/download/" ++ version ++ "/release.json")%string.
Definition with_path (p : string) (u : URL) : URL := mkURL (u_Scheme u) (u_Host u) (u_User u) (u_RawQuery u) (u_Fragment u) p (u_Rest u).
Definition safe_url (u : URL) : bool :=
  negb (negb (u_Scheme u =? "https")%string || (u_Host u =? "")%string || u_User u || negb (u_RawQuery u =? "")%string || negb (u_Fragment u =? "")%string).
Definition checksum_url (u : URL) : URL := with_path (path_Join (path_Dir (u_Path u)) "SHA256SUMS") u.
(** A descriptor by its URL, with its checksum file beside it *)
Definition download_release (previous : URL -> nat -> res unit) (reference : string) : cprog (res string) :=
  match url_Parse reference with
  | None => Ret (Err (Errorf "release URL must be HTTPS without credentials, query or fragment"))
  | Some u =>
      stop negb (safe_url u) with Errorf "release URL must be HTTPS without credentials, query or fragment" ;;
      data <-! releaseDownload previous (url_String u) (4 * MiB) ;;
      checksums <-! wrapped "release checksum download failed" (releaseDownload previous (url_String (checksum_url u)) (2 * MiB)) ;;
      _ <-! lift (verifyReleaseChecksum data checksums (path_Base (u_Path u))) ;;
      Ret (Ok data)
  end.
Definition read_release (reference : string) : cprog (res string) :=
  stop (reference =? "")%string with Errorf "--release requires a version, HTTPS descriptor URL or local release.json" ;;
  _ <-! wrapped "read release descriptor" (call (OpenDescriptor reference) : cprog (res unit)) ;;
  x <- (call (ReadLimited (4 * MiB + 1)) : cprog (string * option error)) ;;
  stop 4 * MiB <? Z.of_nat (String.length (fst x)) with Errorf "release descriptor exceeds 4 MiB" ;;
  Ret (match snd x with Some e => Err e | None => Ok (fst x) end).
Definition loadRelease (previous : URL -> nat -> res unit) (reference : string) : cprog (res Release) :=
  let version := if releaseVersion reference then reference else "" in
  let reference := if releaseVersion reference then published reference else reference in
  data <-! (if Contains reference "://" then download_release previous reference else read_release reference) ;;
  r <-! lift (decode_release data) ;;
  _ <-! lift (validateRelease r) ;;
  stop negb (version =? "")%string && negb (rl_Version r =? version)%string with Errorf "downloaded release version differs from the requested version" ;;
  Ret (Ok r).
Definition hasHelp (args : list string) : bool := existsb (fun arg => (arg =? "--help")%string || (arg =? "-h")%string) args.
(** [release inspect]; usage texts are not modelled. *)
Definition runRelease (previous : URL -> nat -> res unit) (args : list string) : cprog (res unit) :=
  match args with
  | [] => Ret (Ok tt)
  | _ => if hasHelp args then Ret (Ok tt) else
  match args with
  | ["inspect"; reference]%string => r <-! loadRelease previous reference ;; call (ShowRelease r)
  | _ => Ret (Err (Errorf "use release inspect VERSION|FILE|HTTPS_URL"))
  end
  end.

(** ** Issued access *)

(** The flags of [access issue]; [aq_Positional] counts what is left after them, and
    [aq_Duration] is in nanoseconds. *)
Record access_request := mkAccess { aq_Namespace : string; aq_Account : string; aq_Output : string; aq_Duration : Z; aq_Positional : nat }.
(** The loop of [accessCA] over the blocks, on a fuel its input bounds; a text without
    fields is white space. *)
Definition ErrFuel : error := Errorf "out of fuel".
Fixpoint certificates (fuel : nat) (data acc : string) : res string :=
  if bool_decide (Fields data = []) then
    reject (acc =? "")%string with Errorf "selected cluster requires an explicit trusted certificate-authority" ;;
    Ok acc
  else
    match fuel with
    | O => Err ErrFuel
    | S fuel =>
        match pem_Decode data with
        | None => Err (Errorf "selected cluster requires an explicit PEM certificate-authority containing only certificates")
        | Some (b, rest) =>
            reject negb (pb_Type b =? "CERTIFICATE")%string || negb (List.length (pb_Headers b) =? 0)%nat
              with Errorf "selected cluster requires an explicit PEM certificate-authority containing only certificates" ;;
            reject negb (ParseCertificate (pb_Bytes b)) with Errorf "selected cluster has an invalid certificate-authority certificate" ;;
            certificates fuel rest (acc ++ pem_Encode b)
        end
    end.
Definition accessCA (data : string) : res string := certificates (String.length data) data "".
Definition selected_context (o : Options) (raw : KConfig) : string := if (cl_Context o =? "")%string then kf_CurrentContext raw else cl_Context o.
Definition source_cluster (o : Options) (raw : KConfig) : option KCluster :=
  match kf_Contexts raw !! selected_context o raw with Some c => kf_Clusters raw !! kx_Cluster c | None => None end.
Definition trusted_endpoint (source : KCluster) : bool :=
  match url_Parse (kc_Server source) with
  | None => false
  | Some u => negb (negb (u_Scheme u =? "https")%string || (Hostname u =? "")%string || u_User u || negb (u_RawQuery u =? "")%string ||
                    negb (u_Fragment u =? "")%string || kc_InsecureSkipTLSVerify source)
  end.
Definition ca_path (source : KCluster) : string :=
  let p := kc_CertificateAuthority source in if HasPrefix p "/" then p else path_Join (path_Dir (kc_LocationOfOrigin source)) p.
Definition authority_data (source : KCluster) : cprog (res string) :=
  if (kc_CertificateAuthorityData source =? "")%string && negb (kc_CertificateAuthority source =? "")%string
  then masked "cannot read the selected cluster's trusted CA file" (call (ReadFile (ca_path source)) : cprog (res string))
  else Ret (Ok (kc_CertificateAuthorityData source)).
Definition issued_cluster (source : KCluster) (ca : string) : KCluster := mkKCluster (kc_Server source) false ca "" "" (kc_TLSServerName source) "".
Definition accessCluster (o : Options) : cprog (res KCluster) :=
  raw <-! masked "cannot load Kubernetes access; check --kubeconfig and --context" (call RawConfig : cprog (res KConfig)) ;;
  match source_cluster o raw with
  | None => Ret (Err (Errorf "selected kubeconfig context has no cluster"))
  | Some source =>
      stop negb (trusted_endpoint source)
        with Errorf "location access requires an HTTPS endpoint without embedded credentials and with TLS verification enabled" ;;
      data <-! authority_data source ;;
      ca <-! lift (accessCA data) ;;
      Ret (Ok (issued_cluster source ca))
  end.
(** [App.requestToken], without a requester of its own *)
Definition requestToken (ns account : string) (duration : Z) : cprog (res (string * Z)) :=
  _ <-! (call NewClient : cprog (res unit)) ;;
  t <-! wrapped "request location-scoped access token" (call (CreateToken ns account (duration / second)) : cprog (res (string * Z))) ;;
  stop (fst t =? "")%string with Errorf "token issuer returned empty or expired access" ;;
  now <- (call Now : cprog Z) ;;
  stop snd t <=? now with Errorf "token issuer returned empty or expired access" ;;
  Ret (Ok t).
Definition issued_config (cluster : KCluster) (ns account token : string) : KConfig :=
  mkKConfig "authority" {["authority" := mkContext "authority" account ns]} {["authority" := cluster]} {[account := token]}.
Definition context_err : cprog (option error) := call ContextErr.
(** An expired context ends the command. [ctx.Err()] keeps the error it gave. *)
Definition check_context {A} (k : cprog (res A)) : cprog (res A) :=
  e <- context_err ;; match e with Some e => Ret (Err e) | None => k end.
Definition token_failed : cprog (res (string * Z)) :=
  e <- context_err ;;
  Ret (Err (match e with
            | Some e => e
            | None => Errorf "could not issue location access; verify the selected context, service account and TokenRequest RBAC"
            end)).
(** What happens to the file once it is created *)
Definition issue (q : access_request) (cluster : KCluster) : cprog (res unit) :=
  _ <-! masked "cannot protect the private output file" (call ChmodFile : cprog (res unit)) ;;
  check_context (
  t <-! (r <- requestToken (aq_Namespace q) (aq_Account q) (aq_Duration q) ;; match r with Ok t => Ret (Ok t) | Err _ => token_failed end) ;;
  stop (fst t =? "")%string with Errorf "the API server returned empty or expired location access" ;;
  now <- (call Now : cprog Z) ;;
  stop snd t <=? now with Errorf "the API server returned empty or expired location access" ;;
  check_context (
  data <-! masked "cannot encode private location access" (lift (clientcmd_Write (issued_config cluster (aq_Namespace q) (aq_Account q) (fst t)))) ;;
  _ <-! masked "cannot write private location access" (call (WriteFile data) : cprog (res unit)) ;;
  _ <-! masked "cannot persist private location access" (call SyncFile : cprog (res unit)) ;;
  _ <-! masked "cannot close private location access" (call CloseFile : cprog (res unit)) ;;
  masked "cannot report location access issuance; private output removed" (call (Report (aq_Namespace q) (aq_Account q) (snd t)) : cprog (res unit)))).
(** The deferred clean-up *)
Definition cleaned (output : string) (p : cprog (res unit)) : cprog (res unit) :=
  r <- p ;;
  _ <- (call CloseFile : cprog (res unit)) ;;
  match r with
  | Ok _ => Ret r
  | Err _ => _ <- (call (RemoveFile output) : cprog (res unit)) ;; Ret r
  end.
Definition runAccess (q : access_request) (o : Options) : cprog (res unit) :=
  stop negb (aq_Positional q =? 0)%nat || bad (IsDNS1123Label (aq_Namespace q)) || bad (IsDNS1123Subdomain (aq_Account q)) || (aq_Output q =? "")%string
    with Errorf "provide a valid --binding-namespace, --service-account and --output NEWFILE without positional arguments" ;;
  stop (aq_Duration q <? second) || negb (Z.rem (aq_Duration q) second =? 0) with Errorf "--duration must be a positive whole number of seconds" ;;
  cluster <-! accessCluster o ;;
  _ <-! masked "cannot create output: choose a new file in an existing writable private directory" (call (OpenExclusive (aq_Output q)) : cprog (res unit)) ;;
  cleaned (aq_Output q) (issue q cluster).

(** ** Helm *)

Inductive operation := Install | Plan | Upgrade | Status | History | Verify | Rollback | Uninstall | Values.
(** The values of the flags an operation has; the others stay zero. *)
Record helm_flags := mkFlags {
  hf_Component : string; hf_Chart : string; hf_Version : string; hf_Values : list string; hf_Set : list string;
  hf_SetString : list string; hf_SetFile : list string; hf_KeepHistory : bool }.
Definition helmCharts (component : string) : option string :=
  if (component =? "authority")%string then Some "global-vpc"%string
  else if (component =? "site")%string then Some "global-vpc-site"%string
  else if (component =? "native")%string then Some "kube-ovn-global-vpc-extension"%string else None.
Definition chartOperation (op : operation) : bool := match op with Install | Plan | Upgrade | Values => true | _ => false end.
Definition argument_count (op : operation) : nat := match op with Values => 0 | Rollback => 2 | _ => 1 end.
Definition operation_name (op : operation) : string :=
  match op with
  | Install => "install" | Plan => "plan" | Upgrade => "upgrade" | Status => "status" | History => "history"
  | Verify => "verify" | Rollback => "rollback" | Uninstall => "uninstall" | Values => "values"
  end.
Definition helm_namespace (o : Options) : string := if (cl_Namespace o =? "")%string then "global-vpc-system" else cl_Namespace o.
(** The chart reference of an operation on charts *)
Definition chart_of (f : helm_flags) : res string :=
  match helmCharts (hf_Component f) with
  | None => Err (Errorf "--component must be authority, site or native")
  | Some name =>
      chart <-? (if (hf_Chart f =? "")%string then
                   reject (hf_Version f =? "")%string with Errorf "--version is required; select a published prebuilt release" ;;
                   Ok ("oci://ghcr.io/yckao/kube-ovn-global-vpc/charts/" ++ name)%string
                 else Ok (hf_Chart f)) ;;
      reject HasPrefix chart "-" with Errorf "invalid chart reference" ;;
      reject negb (hf_Version f =? "")%string && negb (releaseVersion ("v" ++ TrimPrefix (hf_Version f) "v")) with Errorf "invalid chart release version" ;;
      Ok chart
  end.
Definition nth_arg (args : list string) (n : nat) : string := nth n args ""%string.
(** The switch that starts the command line *)
Definition helm_words (op : operation) (args : list string) (f : helm_flags) (o : Options) (chart : string) : res (list string) :=
  let name := nth_arg args 0 in
  match op with
  | Install | Plan => Ok ["upgrade"; "--install"; name; chart; "--create-namespace"]
  | Upgrade => Ok ["upgrade"; name; chart; "--reset-then-reuse-values"]
  | Values => Ok ["show"; "values"; chart]
  | Rollback =>
      match Atoi (nth_arg args 1) with
      | Some revision =>
          reject (revision <? 1)%Z with Errorf "rollback requires a positive Helm revision from history" ;;
          Ok ["rollback"; name; Itoa revision]
      | None => Err (Errorf "rollback requires a positive Helm revision from history")
      end
  | Verify => Ok ["test"; name; "--logs"]
  | Uninstall => Ok (["uninstall"; name]%string ++ (if hf_KeepHistory f then ["--keep-history"]%string else []))%list
  | Status | History => Ok ([operation_name op; name] ++ (if (cl_Output o =? "table")%string then [] else ["--output"%string; cl_Output o]))%list
  end%string.
Definition valued (flag : string) (l : list string) : list string := flat_map (fun v => [flag; v]) l.
Definition when_set (flag value : string) : list string := if (value =? "")%string then [] else [flag; value].
Definition waits (op : operation) : bool := match op with Install | Upgrade | Rollback | Uninstall => true | _ => false end.
Definition limited (op : operation) : bool := match op with Install | Plan | Upgrade | Rollback | Uninstall | Verify => true | _ => false end.
Definition helm_options (op : operation) (f : helm_flags) (o : Options) : list string :=
  ((if chartOperation op && negb (hf_Version f =? "")%string then ["--version"%string; TrimPrefix (hf_Version f) "v"] else []) ++
   valued "--values" (hf_Values f) ++ valued "--set" (hf_Set f) ++ valued "--set-string" (hf_SetString f) ++ valued "--set-file" (hf_SetFile f) ++
   (match op with
    | Values => []
    | _ => ["--namespace"%string; helm_namespace o] ++ when_set "--kube-context" (cl_Context o) ++ when_set "--kubeconfig" (cl_Kubeconfig o)
    end) ++
   (match op with Plan => ["--dry-run=server"; "--hide-secret"]%string | _ => [] end) ++
   (if waits op then ["--wait"]%string else []) ++
   (if limited op then ["--timeout"%string; DurationString (cl_Timeout o)] else [])).
Definition helm_command (op : operation) (args : list string) (f : helm_flags) (o : Options) : res (list string) :=
  reject negb (List.length args =? argument_count op)%nat with Errorf (operation_name op ++ " requires " ++ Itoa (Z.of_nat (argument_count op)) ++ " argument(s); use --help")%string ;;
  reject (0 <? argument_count op)%nat && ((53 <? String.length (nth_arg args 0))%nat || bad (IsDNS1123Label (nth_arg args 0)))
    with Errorf "Helm release name must be a DNS label of at most 53 characters" ;;
  reject bad (IsDNS1123Label (helm_namespace o)) with Errorf "invalid Helm release namespace" ;;
  chart <-? (if chartOperation op then chart_of f else Ok ""%string) ;;
  words <-? helm_words op args f o chart ;;
  Ok (words ++ helm_options op f o).
(** [custom]: the app has a command runner of its own *)
Definition runHelm (custom : bool) (op : operation) (args : list string) (f : helm_flags) (o : Options) : cprog (res unit) :=
  argv <-! lift (helm_command op args f o) ;;
  _ <-! (if custom then Ret (Ok tt)
         else masked "Helm 3.14+ or Helm 4 is required; install Helm, then retry (no build toolchain is needed)" (call (LookPath "helm") : cprog (res unit))) ;;
  call (RunCommand "helm" argv).

(** ** Checksums *)

(** The digests a checksum file has for a file *)
Definition entry_of (filename line : string) : option string :=
  match Fields line with
  | [sum; name] => if (TrimPrefix name "*" =? filename)%string then Some sum else None
  | _ => None
  end.
Definition entries (filename checksums : string) : list string := omap (entry_of filename) (lines checksums).

Lemma fields_nonempty current skip s x : In x (fields_from current skip s) -> x <> ""%string.
Proof.
  revert current skip. induction s as [|c s IH]; intros current skip; cbn [fields_from].
  - destruct (String.eqb_spec current ""); [by intros []|]. by intros [<-|[]].
  - destruct skip as [|n]; [|apply IH]. destruct (space_length (String c s)) as [|n]; [apply IH|].
    intros [H|H]%in_app_iff; [|by eapply IH]. destruct (String.eqb_spec current ""); [done|]. by destruct H as [<-|[]].
Qed.
Lemma entry_nonempty filename line x : entry_of filename line = Some x -> x <> ""%string.
Proof.
  unfold entry_of. destruct (Fields line) as [|sum [|name [|? ?]]] eqn:EF; try done. destruct (_ =? _)%string; [|done]. intros [= <-].
  apply (fields_nonempty "" 0 line). unfold Fields in EF. rewrite EF. by left.
Qed.
Lemma find_checksum_iff filename l expected x : find_checksum filename l expected = Ok x <->
  (expected = ""%string /\ (omap (entry_of filename) l = [] /\ x = ""%string \/ omap (entry_of filename) l = [x])) \/
  (expected <> ""%string /\ omap (entry_of filename) l = [] /\ x = expected).
Proof.
  revert expected. induction l as [|line l IH]; intros expected.
  - cbn. destruct (decide (expected = ""%string)); naive_solver.
  - assert (find_checksum filename (line :: l) expected =
      match entry_of filename line with
      | Some sum => if (expected =? "")%string then find_checksum filename l sum else Err (Errorf "duplicate release checksum entry")
      | None => find_checksum filename l expected
      end) as ->.
    { cbn [find_checksum]. unfold entry_of. destruct (Fields line) as [|sum [|name [|? ?]]]; try done. destruct (_ =? filename)%string; [|done].
      by destruct (expected =? "")%string. }
    cbn [omap list_omap]. destruct (entry_of filename line) as [sum|] eqn:EE; [|apply IH].
    pose proof (entry_nonempty _ _ _ EE) as HN. destruct (String.eqb_spec expected "") as [->|HX].
    + rewrite IH. split.
      * intros [[? _]|(_ & HL & ->)]; [done|]. left. split; [done|]. right. by rewrite HL.
      * intros [(_ & [[? _]|[= -> HL]])|[? _]]; [done| |done]. by right.
    + split; [done|]. intros [[? _]|(_ & ? & _)]; done.
Qed.
(** A descriptor passes its checksum file exactly when one line of it alone names the
    file, in two fields, and gives the SHA-256 of the descriptor. *)
Theorem checksums_admit_the_listed_digest data checksums filename :
  verifyReleaseChecksum data checksums filename = Ok tt <-> entries filename checksums = [sha256_hex data].
Proof.
  unfold verifyReleaseChecksum, entries. set (l := lines checksums). split.
  - intros H. destruct (find_checksum filename l "") as [x|] eqn:EF; [|done]. apply find_checksum_iff in EF.
    destruct (String.eqb_spec x "") as [->|HX]; [done|]. destruct (String.eqb_spec x (sha256_hex data)) as [->|]; [|done].
    destruct EF as [(_ & [[_ ?]|HE])|[? _]]; done.
  - intros HE. assert (find_checksum filename l "" = Ok (sha256_hex data)) as ->.
    { apply find_checksum_iff. left. split; [done|by right]. }
    assert (In (sha256_hex data) (omap (entry_of filename) l)) as HI by (rewrite HE; by left).
    apply list_elem_of_In, list_elem_of_omap in HI as (line & _ & HN%entry_nonempty).
    destruct (String.eqb_spec (sha256_hex data) "") as [E|_]; [done|]. by rewrite String.eqb_refl.
Qed.

(** ** Accepted releases *)

Definition bundle_ok (target : string) (b : NativeBundle) : Prop :=
  nb_Target b = target /\ validateNativeBundle b = Ok tt /\ digestImage (nb_BaseImage b) = true /\
  nativeBuildHashPattern (nb_BinarySHA256 b) = true /\ get (nb_Qualification b) "nativeUnitTests" = "passed"%string.
(** Every image is immutable, and every bundle is under its target with its tests passed. *)
Definition release_ok (r : Release) : Prop :=
  rl_APIVersion r = nativeAPIVersion /\ rl_Kind r = "Release"%string /\ releaseVersion (rl_Version r) = true /\ releaseCommit (rl_SourceCommit r) = true /\
  digestImage (rl_ControllerImage r) = true /\ digestImage (rl_GatewayImage r) = true /\
  (rl_CLIImage r = ""%string \/ digestImage (rl_CLIImage r) = true) /\
  rl_NativeBundles r <> ∅ /\ forall target b, rl_NativeBundles r !! target = Some b -> bundle_ok target b.
Lemma validate_bundles_ok l : validate_bundles l = Ok tt -> forall target b, In (target, b) l -> bundle_ok target b.
Proof.
  induction l as [|[t b] l IH]; cbn [validate_bundles]; [by intros _ ? ? []|]. intros H.
  destruct (String.eqb_spec t (nb_Target b)) as [->|]; [|done]. cbn [negb] in H.
  destruct (validateNativeBundle b) as [[]|] eqn:EV; [|done].
  destruct (digestImage (nb_BaseImage b)) eqn:E1; [|done]. destruct (nativeBuildHashPattern (nb_BinarySHA256 b)) eqn:E2; [|done].
  destruct (String.eqb_spec (get (nb_Qualification b) "nativeUnitTests") "passed") as [E3|]; [|done].
  intros target b' [[= <- <-]|Hin]; [done|by apply IH].
Qed.
Lemma validateRelease_ok r : validateRelease r = Ok tt -> release_ok r.
Proof.
  unfold validateRelease. intros H. unfold release_ok.
  destruct (String.eqb_spec (rl_APIVersion r) nativeAPIVersion); [|done]. destruct (String.eqb_spec (rl_Kind r) "Release"); [|done].
  destruct (releaseVersion (rl_Version r)); [|done]. destruct (releaseCommit (rl_SourceCommit r)); [|done].
  destruct (digestImage (rl_ControllerImage r)); [|done]. destruct (digestImage (rl_GatewayImage r)); [|done]. cbn [negb orb] in H.
  destruct (negb (rl_CLIImage r =? "")%string && _) eqn:EC; [done|]. case_bool_decide as EB; [done|]. split_and!; try done.
  - apply andb_false_iff in EC as [EC|EC]; [left|right; by apply negb_false_iff].
    apply negb_false_iff, String.eqb_eq in EC. done.
  - intros target b Hb. apply (validate_bundles_ok _ H). by apply list_elem_of_In, elem_of_map_to_list.
Qed.

(** An HTTPS address without credentials, query or fragment *)
Record plain_https (u : URL) : Prop := {
  ph_scheme : u_Scheme u = "https"%string;
  ph_host : u_Host u <> ""%string;
  ph_user : u_User u = false;
  ph_query : u_RawQuery u = ""%string;
  ph_fragment : u_Fragment u = ""%string }.
(** The file [SHA256SUMS] in the directory of an address *)
Definition beside (u : URL) : URL :=
  mkURL "https" (u_Host u) false "" "" (path_Join (path_Dir (u_Path u)) "SHA256SUMS") (u_Rest u).
(** A redirect is followed only over HTTPS, without credentials, within ten requests, and
    where the client's own policy follows it. *)
Definition careful (previous redirect : URL -> nat -> res unit) : Prop :=
  forall u via, redirect u via = Ok tt -> u_Scheme u = "https"%string /\ u_User u = false /\ (via < 10)%nat /\ previous u via = Ok tt.
Lemma safe_url_plain u : safe_url u = true -> plain_https u.
Proof.
  unfold safe_url. destruct u as [scheme host user query fragment path rest]; cbn. intros H%negb_true_iff.
  destruct (String.eqb_spec scheme "https"), (String.eqb_spec host ""), user, (String.eqb_spec query ""), (String.eqb_spec fragment ""); done.
Qed.
Lemma checksum_url_beside u : plain_https u -> checksum_url u = beside u.
Proof. intros [H1 _ H3 H4 H5]. unfold checksum_url, with_path, beside. by rewrite H1, H3, H4, H5. Qed.
Lemma CheckRedirect_careful previous : careful previous (CheckRedirect previous).
Proof.
  intros u via. unfold CheckRedirect. destruct (String.eqb_spec (u_Scheme u) "https"); [|done]. destruct (u_User u); [done|].
  cbn [negb orb]. destruct (Nat.leb_spec 10 via); [done|]. intros HP. split_and!; [done|done|lia|done].
Qed.
(** A download that was read whole, within its limit *)
Definition downloaded (previous : URL -> nat -> res unit) (h : chistory) (location : string) (maximum : Z) (data : string) : Prop :=
  (exists redirect, careful previous redirect /\ asked h (HTTPGet location redirect) (Ok 200)) /\
  asked h (ReadBody (maximum + 1)) (data, None) /\ Z.of_nat (String.length data) <= maximum.
(** Where the bytes of a descriptor came from *)
Definition from_url (previous : URL -> nat -> res unit) (h : chistory) (location data : string) : Prop :=
  exists u checksums, url_Parse location = Some u /\ plain_https u /\
    downloaded previous h (url_String u) (4 * MiB) data /\ downloaded previous h (url_String (beside u)) (2 * MiB) checksums /\
    entries (path_Base (u_Path u)) checksums = [sha256_hex data].
Definition from_file (h : chistory) (path data : string) : Prop :=
  asked h (OpenDescriptor path) (Ok tt) /\ asked h (ReadLimited (4 * MiB + 1)) (data, None) /\ Z.of_nat (String.length data) <= 4 * MiB.
Definition location_of (reference : string) : string :=
  if releaseVersion reference
  then ("https://github.com/yckao/kube-ovn-global-vpc/releases/download/" ++ reference ++ "/release.json")%string
  else reference.
(** Only HTTPS addresses without credentials are fetched, and redirects are held to that. *)
Definition release_call (previous : URL -> nat -> res unit) (reference : string) (h : chistory) (o : cop) : Prop :=
  match o with
  | HTTPGet location redirect => careful previous redirect /\
      exists u, url_Parse (location_of reference) = Some u /\ plain_https u /\ (location = url_String u \/ location = url_String (beside u))
  | NewRequest _ | ReadBody _ | ReadLimited _ => True
  | OpenDescriptor path => path = reference
  | _ => False
  end.
Section loading.
Context (previous : URL -> nat -> res unit) (reference : string).
Notation R := (release_call previous reference).
Lemma downloaded_extends h h' location maximum data : extends h h' -> downloaded previous h location maximum data -> downloaded previous h' location maximum data.
Proof. intros HE ((redirect & HR & H1) & H2 & H3). split_and!; [exists redirect; split; [done|]; eapply asked_extends; [exact HE|exact H1]|eapply asked_extends; [exact HE|exact H2]|done]. Qed.
Lemma okp_download location maximum h : (forall h, R h (HTTPGet location (CheckRedirect previous))) ->
  okp R (releaseDownload previous location maximum) h (fun h' data => downloaded previous h' location maximum data).
Proof.
  intros HR. unfold releaseDownload, masked. eapply okp_bind with (P := fun _ _ => True).
  { split; [done|]. intros [[]|e] _; simpl; [|done]. split; [apply extends_snoc|done]. }
  intros h0 _ _ _. eapply okp_bind with (P := fun h' status => asked h' (HTTPGet location (CheckRedirect previous)) (Ok status)).
  { split; [done|]. intros [status|e] _; simpl; [|done]. split; [apply extends_snoc|apply asked_snoc]. }
  intros h1 status H1 HA. apply okp_stop. intros ES%negb_false_iff%Z.eqb_eq. subst status.
  eapply (okp_call R (call (ReadBody (maximum + 1)) : cprog (string * option error)) _ h1 (fun h' x => asked h' (ReadBody (maximum + 1)) x)); [split; [done|intros x _; apply asked_snoc]|].
  intros h2 [data [e|]] H2 HB; [done|]. cbn [fst snd]. apply okp_stop. intros EL%Z.ltb_ge. apply okp_Ok.
  split_and!; [|done|done]. exists (CheckRedirect previous). split; [apply CheckRedirect_careful|]. eapply asked_extends; [exact H2|exact HA].
Qed.
Lemma okp_download_release h : okp R (download_release previous (location_of reference)) h (fun h' data => from_url previous h' (location_of reference) data).
Proof.
  unfold download_release. destruct (url_Parse (location_of reference)) as [u|] eqn:EU; [|done].
  apply okp_stop. intros ES%negb_false_iff%safe_url_plain. rewrite (checksum_url_beside u ES). eapply okp_bind.
  { apply okp_download. intros h'. split; [apply CheckRedirect_careful|]. exists u. split_and!; [done|done|by left]. }
  intros h1 data H1 HD. eapply okp_bind.
  { apply okp_wrapped, okp_download. intros h'. split; [apply CheckRedirect_careful|]. exists u. split_and!; [done|done|by right]. }
  intros h2 sums H2 HS. apply okp_check. intros [] EV. apply okp_Ok. exists u, sums. split_and!; try done.
  - by eapply downloaded_extends.
  - by apply checksums_admit_the_listed_digest.
Qed.
Lemma okp_read_release h : location_of reference = reference ->
  okp R (read_release (location_of reference)) h (fun h' data => from_file h' reference data).
Proof.
  intros ->. unfold read_release. apply okp_stop. intros _. eapply okp_bind with (P := fun h' _ => asked h' (OpenDescriptor reference) (Ok tt)).
  { apply okp_wrapped. split; [done|]. intros [[]|e] _; simpl; [|done]. split; [apply extends_snoc|apply asked_snoc]. }
  intros h1 [] H1 HO. eapply (okp_call R (call (ReadLimited (4 * MiB + 1)) : cprog (string * option error)) _ h1 (fun h' x => asked h' (ReadLimited (4 * MiB + 1)) x)); [split; [done|intros x _; apply asked_snoc]|].
  intros h2 [data e] H2 HR. cbn [fst snd]. apply okp_stop. intros EL%Z.ltb_ge. destruct e; [done|]. apply okp_Ok.
  split_and!; [eapply asked_extends; [exact H2|exact HO]|done|done].
Qed.
(** What a loaded release is *)
Definition loaded (h : chistory) (r : Release) : Prop := release_ok r /\ (releaseVersion reference = true -> rl_Version r = reference) /\
  exists data, decode_release data = Ok r /\
    (if Contains (location_of reference) "://" then from_url previous h (location_of reference) data else from_file h reference data).
Lemma okp_load_release h : okp R (loadRelease previous reference) h loaded.
Proof.
  unfold loadRelease. change (if releaseVersion reference then published reference else reference) with (location_of reference). eapply okp_bind with
    (P := fun h' data => if Contains (location_of reference) "://" then from_url previous h' (location_of reference) data else from_file h' reference data).
  { destruct (Contains (location_of reference) "://") eqn:EC; [apply okp_download_release|]. apply okp_read_release.
    unfold location_of in *. destruct (releaseVersion reference) eqn:EV; [|done]. exfalso. revert EC. unfold Contains. by cbn. }
  intros h1 data H1 HS. apply okp_check. intros r ED. apply okp_check. intros [] EV. apply okp_stop. intros EX. apply okp_Ok. split_and!.
  - by apply validateRelease_ok.
  - intros HV. rewrite HV in EX. apply andb_false_iff in EX as [EX|EX]; apply negb_false_iff, String.eqb_eq in EX; [by rewrite EX in HV|done].
  - by exists data.
Qed.
End loading.
(** C29: A release that loads has only immutable images and bundles under their targets with
    their tests passed, has the version it was asked by, and was decoded strictly from
    bytes that were read whole within their limit: of a local file, or of an HTTPS address
    without credentials, query or fragment whose checksum file, beside it, lists their
    SHA-256 once. Nothing else is fetched, and every fetch follows a redirect only over
    HTTPS, without credentials and within ten requests. *)
Theorem releases_are_verified previous reference :
  obeys (release_call previous reference) (loadRelease previous reference) /\
  forall h r, exec (loadRelease previous reference) h (Ret (Ok r)) -> loaded previous reference h r.
Proof. split; [eapply okp_obeys, okp_load_release|]. intros h r HX. exact (okp_exec _ _ _ _ _ (okp_load_release previous reference []) HX). Qed.

(** ** Issued access *)

(** The authority data is certificates and nothing else. *)
Inductive certificate_chain : string -> list Block -> Prop :=
| chain_end data : Fields data = [] -> certificate_chain data []
| chain_block data b rest bs : Fields data <> [] -> pem_Decode data = Some (b, rest) -> pb_Type b = "CERTIFICATE"%string ->
    pb_Headers b = [] -> ParseCertificate (pb_Bytes b) = true -> certificate_chain rest bs -> certificate_chain data (b :: bs).
Definition encoded (bs : list Block) : string := fold_left (fun acc b => acc ++ pem_Encode b)%string bs ""%string.
Lemma certificates_chain fuel data acc ca : certificates fuel data acc = Ok ca ->
  exists bs, certificate_chain data bs /\ ca = fold_left (fun acc b => acc ++ pem_Encode b)%string bs acc /\ ca <> ""%string.
Proof.
  revert data acc. induction fuel as [|fuel IH]; intros data acc; cbn [certificates]; case_bool_decide as EF.
  - destruct (String.eqb_spec acc ""); [done|]. intros [= <-]. exists []. split_and!; [by constructor|done|done].
  - done.
  - destruct (String.eqb_spec acc ""); [done|]. intros [= <-]. exists []. split_and!; [by constructor|done|done].
  - destruct (pem_Decode data) as [[b rest]|] eqn:ED; [|done]. destruct (String.eqb_spec (pb_Type b) "CERTIFICATE"); [|done].
    destruct (pb_Headers b) eqn:EH; [|done]. destruct (ParseCertificate (pb_Bytes b)) eqn:EP; [|done].
    intros (bs & H1 & H2 & H3)%IH. exists (b :: bs). split_and!; [by econstructor|done|done].
Qed.
(** [pem.Decode] consumes at least one byte of what it decodes. *)
Lemma certificates_end fuel data acc : (forall d b r, pem_Decode d = Some (b, r) -> (String.length r < String.length d)%nat) ->
  (String.length data <= fuel)%nat -> certificates fuel data acc <> Err ErrFuel.
Proof.
  intros HD. revert data acc. induction fuel as [|fuel IH]; intros data acc HL; cbn [certificates]; case_bool_decide as EF.
  - by destruct (acc =? "")%string.
  - destruct data; [by vm_compute in EF|]. cbn in HL. lia.
  - by destruct (acc =? "")%string.
  - destruct (pem_Decode data) as [[b rest]|] eqn:ED; [|done]. apply HD in ED.
    destruct (negb (pb_Type b =? "CERTIFICATE")%string || _); [done|]. destruct (negb (ParseCertificate _)); [done|]. apply IH. lia.
Qed.
Section issuing.
Context (q : access_request) (o : Options).
(** The cluster of the context asked for, or of the current one *)
Definition selected (raw : KConfig) (source : KCluster) : Prop :=
  exists context, kf_Contexts raw !! (if decide (cl_Context o = ""%string) then kf_CurrentContext raw else cl_Context o) = Some context /\
    kf_Clusters raw !! kx_Cluster context = Some source.
(** It is reached over verified TLS, at an address without credentials, query or fragment. *)
Definition verified (source : KCluster) : Prop :=
  kc_InsecureSkipTLSVerify source = false /\
  exists u, url_Parse (kc_Server source) = Some u /\ u_Scheme u = "https"%string /\ Hostname u <> ""%string /\
    u_User u = false /\ u_RawQuery u = ""%string /\ u_Fragment u = ""%string.
(** Its authority is the data of the record, or else the file it names. *)
Definition authority_of (h : chistory) (source : KCluster) (data : string) : Prop :=
  (kc_CertificateAuthorityData source <> ""%string /\ data = kc_CertificateAuthorityData source) \/
  (kc_CertificateAuthorityData source = ""%string /\ kc_CertificateAuthority source <> ""%string /\ asked h (ReadFile (ca_path source)) (Ok data)).
(** The record that is given away has its server, its TLS name and the certificates [ca],
    and no other setting. *)
Record given (source : KCluster) (ca : string) (cluster : KCluster) : Prop := {
  gc_server : kc_Server cluster = kc_Server source;
  gc_name : kc_TLSServerName cluster = kc_TLSServerName source;
  gc_authority : kc_CertificateAuthorityData cluster = ca;
  gc_secure : kc_InsecureSkipTLSVerify cluster = false;
  gc_file : kc_CertificateAuthority cluster = ""%string;
  gc_origin : kc_LocationOfOrigin cluster = ""%string;
  gc_proxy : kc_ProxyURL cluster = ""%string }.
Definition vetted (h : chistory) (cluster : KCluster) : Prop :=
  exists raw source data bs, asked h RawConfig (Ok raw) /\ selected raw source /\ verified source /\ authority_of h source data /\
    certificate_chain data bs /\ encoded bs <> ""%string /\ given source (encoded bs) cluster.
(** The kubeconfig: one context of the asked namespace, this cluster, and the account's token *)
Definition private_config (cluster : KCluster) (token : string) : KConfig :=
  mkKConfig "authority" {["authority" := mkContext "authority" (aq_Account q) (aq_Namespace q)]} {["authority" := cluster]} {[aq_Account q := token]}.
(** The new file is this command's, and private. *)
Definition opened (h : chistory) : Prop := asked h (OpenExclusive (aq_Output q)) (Ok tt).
Definition protected (h : chistory) : Prop := opened h /\ asked h ChmodFile (Ok tt).
(** The token of the account, not expired when it came *)
Definition token_issued (h : chistory) (token : string) (expiry : Z) : Prop :=
  asked h (CreateToken (aq_Namespace q) (aq_Account q) (aq_Duration q / second)) (Ok (token, expiry)) /\ token <> ""%string /\
  exists now, asked h Now now /\ now < expiry.
Definition written (h : chistory) (expiry : Z) : Prop :=
  exists cluster token data, vetted h cluster /\ protected h /\ token_issued h token expiry /\
    clientcmd_Write (private_config cluster token) = Ok data /\ asked h (WriteFile data) (Ok tt).
Definition stored_away (h : chistory) (expiry : Z) : Prop := written h expiry /\ asked h SyncFile (Ok tt) /\ asked h CloseFile (Ok tt).
Definition access_call (h : chistory) (c : cop) : Prop :=
  match c with
  | RawConfig | ReadFile _ | ContextErr | NewClient | Now => True
  | OpenExclusive path => path = aq_Output q /\ exists cluster, vetted h cluster
  | ChmodFile | SyncFile | CloseFile => opened h
  | CreateToken ns account seconds => protected h /\ ns = aq_Namespace q /\ account = aq_Account q /\ seconds = aq_Duration q / second
  | WriteFile data => exists cluster token expiry, vetted h cluster /\ protected h /\ token_issued h token expiry /\
      clientcmd_Write (private_config cluster token) = Ok data
  | Report ns account expiry => ns = aq_Namespace q /\ account = aq_Account q /\ stored_away h expiry
  | RemoveFile path => path = aq_Output q /\ opened h
  | _ => False
  end.
(** What the command reports when it fails: a fixed text, or the error of its context *)
Definition access_errors : list string :=
  ["provide a valid --binding-namespace, --service-account and --output NEWFILE without positional arguments";
   "--duration must be a positive whole number of seconds"; "cannot load Kubernetes access; check --kubeconfig and --context";
   "selected kubeconfig context has no cluster";
   "location access requires an HTTPS endpoint without embedded credentials and with TLS verification enabled";
   "cannot read the selected cluster's trusted CA file"; "out of fuel";
   "selected cluster requires an explicit PEM certificate-authority containing only certificates";
   "selected cluster has an invalid certificate-authority certificate"; "selected cluster requires an explicit trusted certificate-authority";
   "cannot create output: choose a new file in an existing writable private directory"; "cannot protect the private output file";
   "could not issue location access; verify the selected context, service account and TokenRequest RBAC";
   "the API server returned empty or expired location access"; "cannot encode private location access"; "cannot write private location access";
   "cannot persist private location access"; "cannot close private location access";
   "cannot report location access issuance; private output removed"]%string.
Definition discreet (h : chistory) (e : error) : Prop := (exists m, e = Errorf m /\ In m access_errors) \/ asked h ContextErr (Some e).

(** [okr]: the calls of [p] are permitted, [P] holds when it succeeds and [E] when it fails. *)
Definition okr (R : chistory -> cop -> Prop) (E : chistory -> error -> Prop) {A} (p : cprog (res A)) (h : chistory) (P : chistory -> A -> Prop) : Prop :=
  wp any_answer R p h (fun h' x => extends h h' /\ match x with Ok a => P h' a | Err e => E h' e end).
Section okr.
Context (R : chistory -> cop -> Prop) (E : chistory -> error -> Prop).
Lemma okr_bind {A B} (p : cprog (res A)) (f : A -> cprog (res B)) h P Q :
  okr R E p h P -> (forall h' a, extends h h' -> P h' a -> okr R E (f a) h' Q) -> okr R E (bind_ok p f) h Q.
Proof.
  intros HP HF. apply wp_bind_ok. eapply wp_mono; [|exact HP]. intros h' [a|e] [HE Ha]; [|done].
  eapply wp_mono; [|exact (HF h' a HE Ha)]. intros h2 x [HE2 Hx]. split; [by eapply extends_trans|done].
Qed.
Lemma okr_stop {A} (c : bool) err (k : cprog (res A)) h P : (c = true -> E h err) -> (c = false -> okr R E k h P) ->
  okr R E (if c then Ret (Err err) else k) h P.
Proof. destruct c; [|auto]. intros H _. split; [apply extends_refl|by apply H]. Qed.
Lemma okr_Ok {A} (a : A) h (P : chistory -> A -> Prop) : P h a -> okr R E (Ret (Ok a)) h P.
Proof. intros H. split; [apply extends_refl|done]. Qed.
Lemma okr_Err {A} err h (P : chistory -> A -> Prop) : E h err -> okr R E (Ret (Err err)) h P.
Proof. intros H. split; [apply extends_refl|done]. Qed.
End okr.

Lemma discreet_text h m : In m access_errors -> discreet h (Errorf m).
Proof. intros H. left. by exists m. Qed.
Lemma opened_snoc h c x : (c <> OpenExclusive (aq_Output q)) -> ~ opened h -> ~ opened (h ++ [Ev c x]).
Proof. intros Hc HN [H|[H|[]]]%in_app_iff; [done|]. injection H as -> _. done. Qed.
(** Inside the command the file stays. *)
Definition keeping (h : chistory) (c : cop) : Prop := access_call h c /\ forall path, c <> RemoveFile path.
(** Until the file is created nothing is opened, and failures are discreet. *)
Definition unopened (h : chistory) (e : error) : Prop := discreet h e /\ ~ opened h.
Ltac listed := apply discreet_text; cbn [access_errors In]; tauto.
Ltac calling := split; [|intros [ans|err] _; (split; [apply extends_snoc|])].
Lemma okr_authority source h : ~ opened h -> okr keeping unopened (authority_data source) h (fun h' data =>
  ~ opened h' /\ (data <> ""%string -> authority_of h' source data)).
Proof.
  intros HO. unfold authority_data, authority_of. destruct (String.eqb_spec (kc_CertificateAuthorityData source) "") as [ED|ED].
  2:{ apply okr_Ok. split; [done|]. intros _. by left. }
  destruct (String.eqb_spec (kc_CertificateAuthority source) "") as [EA|EA]; cbn [negb andb].
  - apply okr_Ok. by split.
  - calling; [by split| |].
    + split; [by apply opened_snoc|]. intros _. right. split_and!; [done|done|apply asked_snoc].
    + split; [listed|by apply opened_snoc].
Qed.
Lemma source_selected raw source : source_cluster o raw = Some source -> selected raw source.
Proof.
  unfold source_cluster, selected_context. destruct (kf_Contexts raw !! _) as [context|] eqn:EC; [|done]. intros H. exists context. split; [|done].
  by destruct (String.eqb_spec (cl_Context o) ""), (decide (cl_Context o = ""%string)).
Qed.
Lemma endpoint_verified source : trusted_endpoint source = true -> verified source.
Proof.
  unfold trusted_endpoint, verified. destruct (url_Parse (kc_Server source)) as [u|]; [|done]. intros H%negb_true_iff. breflect.
  split; [done|]. exists u. done.
Qed.
Lemma issued_given source ca : given source ca (issued_cluster source ca).
Proof. done. Qed.
Lemma encoded_nonempty data bs : certificate_chain data bs -> encoded bs <> ""%string -> data <> ""%string.
Proof. intros HC HN ->. inversion HC as [? ?|? ? ? ? HF]; subst; done. Qed.
Lemma certificates_errors fuel data acc e : certificates fuel data acc = Err e -> exists m, e = Errorf m /\ In m access_errors.
Proof.
  revert data acc. induction fuel as [|fuel IH]; intros data acc; cbn [certificates]; case_bool_decide.
  - destruct (acc =? "")%string; [|done]. intros [= <-]. eexists. split; [done|]. cbn [access_errors In]. tauto.
  - intros [= <-]. eexists. split; [done|]. cbn [access_errors In]. tauto.
  - destruct (acc =? "")%string; [|done]. intros [= <-]. eexists. split; [done|]. cbn [access_errors In]. tauto.
  - destruct (pem_Decode data) as [[b rest]|].
    + destruct (negb (pb_Type b =? "CERTIFICATE")%string || _); [intros [= <-]; eexists; split; [done|]; cbn [access_errors In]; tauto|].
      destruct (negb (ParseCertificate _)); [intros [= <-]; eexists; split; [done|]; cbn [access_errors In]; tauto|]. apply IH.
    + intros [= <-]. eexists. split; [done|]. cbn [access_errors In]. tauto.
Qed.
Lemma okr_cluster h : ~ opened h -> okr keeping unopened (accessCluster o) h (fun h' cluster => ~ opened h' /\ vetted h' cluster).
Proof.
  intros HO. unfold accessCluster. eapply okr_bind with (P := fun h' raw => ~ opened h' /\ asked h' RawConfig (Ok raw)).
  { calling; [by split| |]; [split; [by apply opened_snoc|apply asked_snoc]|split; [listed|by apply opened_snoc]]. }
  intros h1 raw H1 [HO1 HA]. destruct (source_cluster o raw) as [source|] eqn:ES; [|apply okr_Err; split; [listed|done]].
  apply okr_stop; [intros _; split; [listed|done]|]. intros ET%negb_false_iff%endpoint_verified.
  eapply okr_bind; [by apply okr_authority|]. intros h2 data H2 [HO2 HD]. unfold accessCA.
  destruct (certificates (String.length data) data "") as [ca|e] eqn:EC.
  - apply okr_Ok. split; [done|]. destruct (certificates_chain _ _ _ _ EC) as (bs & HC & -> & HN).
    exists raw, source, data, bs. split_and!; try done.
    + eapply asked_extends; [exact H2|exact HA].
    + by apply source_selected.
    + apply HD. by eapply encoded_nonempty.
  - apply okr_Err. split; [|done]. left. by apply certificates_errors in EC.
Qed.

Lemma opened_extends h h' : extends h h' -> opened h -> opened h'.
Proof. intros HE H. eapply asked_extends; [exact HE|exact H]. Qed.
Lemma protected_extends h h' : extends h h' -> protected h -> protected h'.
Proof. intros HE [H1 H2]. split; [by eapply opened_extends|]. eapply asked_extends; [exact HE|exact H2]. Qed.
Lemma vetted_extends h h' cluster : extends h h' -> vetted h cluster -> vetted h' cluster.
Proof.
  intros HE (raw & source & data & bs & H1 & H2 & H3 & H4 & H5). exists raw, source, data, bs.
  split; [eapply asked_extends; [exact HE|exact H1]|]. do 2 (split; [done|]). split; [|done].
  destruct H4 as [H4|(H4 & H6 & H7)]; [by left|right]. split_and!; [done|done|]. eapply asked_extends; [exact HE|exact H7].
Qed.
Lemma issued_extends h h' token expiry : extends h h' -> token_issued h token expiry -> token_issued h' token expiry.
Proof.
  intros HE (H1 & H2 & now & H3 & H4). split_and!; [eapply asked_extends; [exact HE|exact H1]|done|]. exists now. split; [|done].
  eapply asked_extends; [exact HE|exact H3].
Qed.
Lemma written_extends h h' expiry : extends h h' -> written h expiry -> written h' expiry.
Proof.
  intros HE (cluster & token & data & H1 & H2 & H3 & H4 & H5). exists cluster, token, data.
  split_and!; [by eapply vetted_extends|by eapply protected_extends|by eapply issued_extends|done|]. eapply asked_extends; [exact HE|exact H5].
Qed.
Lemma okr_request h : protected h -> okr keeping (fun _ _ => True) (requestToken (aq_Namespace q) (aq_Account q) (aq_Duration q)) h
  (fun h' t => asked h' (CreateToken (aq_Namespace q) (aq_Account q) (aq_Duration q / second)) (Ok t)).
Proof.
  intros HP. unfold requestToken. eapply okr_bind with (P := fun _ _ => True); [by calling; [split|done|done]|].
  intros h1 _ H1 _. eapply okr_bind with (P := fun h' t => asked h' (CreateToken (aq_Namespace q) (aq_Account q) (aq_Duration q / second)) (Ok t)).
  { calling; [split; [|done]; split_and!; try done; by eapply protected_extends|apply asked_snoc|done]. }
  intros h2 t H2 HA. apply okr_stop; [done|]. intros _. split; [done|]. intros now _. cbn.
  destruct (snd t <=? now); (split; [apply extends_snoc|]); [done|]. by apply asked_app.
Qed.
Lemma okr_context {A} (k : cprog (res A)) h P : (forall h', extends h h' -> okr keeping discreet k h' P) -> okr keeping discreet (check_context k) h P.
Proof.
  intros HK. split; [done|]. intros [e|] _; cbn; [split; [apply extends_snoc|right; apply asked_snoc]|].
  eapply wp_mono; [|apply HK, extends_snoc]. intros h' x [HE Hx]. split; [|done]. eapply extends_trans; [apply extends_snoc|exact HE].
Qed.
Lemma okr_now {A} (k : Z -> cprog (res A)) h P : (forall h' now, extends h h' -> asked h' Now now -> okr keeping discreet (k now) h' P) ->
  okr keeping discreet (now <- (call Now : cprog Z) ;; k now) h P.
Proof.
  intros HK. split; [by split|]. intros now _. eapply wp_mono; [|apply (HK _ now (extends_snoc _ _) (asked_snoc _ _ _))].
  intros h' x [HE Hx]. split; [|done]. eapply extends_trans; [apply extends_snoc|exact HE].
Qed.
Lemma okr_token h : protected h ->
  okr keeping discreet (r <- requestToken (aq_Namespace q) (aq_Account q) (aq_Duration q) ;; match r with Ok t => Ret (Ok t) | Err _ => token_failed end) h
    (fun h' t => asked h' (CreateToken (aq_Namespace q) (aq_Account q) (aq_Duration q / second)) (Ok t)).
Proof.
  intros HP. apply wp_bind. eapply wp_mono; [|by apply okr_request]. intros h1 [t|e] [H1 HA]; [done|].
  split; [done|]. intros [e'|] _; cbn; (split; [eapply extends_trans; [exact H1|apply extends_snoc]|]); [right; apply asked_snoc|listed].
Qed.
Lemma okr_issue cluster h : opened h -> vetted h cluster -> okr keeping discreet (issue q cluster) h (fun h' _ =>
  exists expiry, stored_away h' expiry /\ asked h' (Report (aq_Namespace q) (aq_Account q) expiry) (Ok tt)).
Proof.
  intros HO HV. unfold issue. eapply okr_bind with (P := fun h' _ => protected h').
  { calling; [by split| |listed]. destruct ans. split; [eapply opened_extends; [apply extends_snoc|done]|apply asked_snoc]. }
  intros h1 _ H1 HP. apply okr_context. intros h2 H2. eapply okr_bind; [apply okr_token; by eapply protected_extends|].
  intros h3 [token expiry] H3 HT. cbn [fst snd]. apply okr_stop; [intros _; listed|]. intros EN%String.eqb_neq.
  apply okr_now. intros h4 now H4 HN. apply okr_stop; [intros _; listed|]. intros EX%Z.leb_gt. apply okr_context. intros h5 H5.
  assert (vetted h5 cluster /\ protected h5 /\ token_issued h5 token expiry) as (V5 & P5 & T5).
  { split_and!; [eapply vetted_extends; [|exact HV]; backwards|eapply protected_extends; [|exact HP]; backwards|].
    split_and!; [eapply asked_extends; [|exact HT]; backwards|done|]. exists now. split; [|done]. eapply asked_extends; [exact H5|exact HN]. }
  eapply okr_bind with (P := fun h' data => h' = h5 /\ clientcmd_Write (private_config cluster token) = Ok data).
  { destruct (clientcmd_Write _); [by apply okr_Ok|apply okr_Err; listed]. }
  intros h' data _ [-> EW]. eapply okr_bind with (P := fun h' _ => written h' expiry).
  { calling; [split; [by exists cluster, token, expiry|done]| |listed]. destruct ans. exists cluster, token, data.
    pose proof (extends_snoc h5 (Ev (WriteFile data) (Ok tt))) as HE.
    split_and!; [by eapply vetted_extends|by eapply protected_extends|by eapply issued_extends|done|apply asked_snoc]. }
  intros h6 _ H6 HW. assert (opened h6) as O6 by (by destruct HW as (? & ? & ? & _ & [? _] & _)).
  eapply okr_bind with (P := fun h' _ => written h' expiry /\ asked h' SyncFile (Ok tt)).
  { calling; [by split| |listed]. destruct ans. split; [eapply written_extends; [apply extends_snoc|done]|apply asked_snoc]. }
  intros h7 _ H7 [W7 S7]. eapply okr_bind with (P := fun h' _ => stored_away h' expiry).
  { calling; [split; [by eapply opened_extends|done]| |listed]. destruct ans.
    split_and!; [eapply written_extends; [apply extends_snoc|done]|by apply asked_app|apply asked_snoc]. }
  intros h8 _ H8 (W8 & S8 & C8). calling; [by split| |listed]. destruct ans. exists expiry. split; [|apply asked_snoc].
  split_and!; [eapply written_extends; [apply extends_snoc|done]|by apply asked_app|by apply asked_app].
Qed.

Definition removes (c : cop) : Prop := exists path, c = RemoveFile path.
Lemma okr_kept {A} E (p : cprog (res A)) h P : never removes h -> okr keeping E p h P ->
  wp any_answer access_call p h (fun h' x => never removes h' /\ extends h h' /\ match x with Ok a => P h' a | Err e => E h' e end).
Proof.
  intros HN HP. eapply wp_weaken; [by intros ???| |eapply wp_never; [|exact HN|exact HP]]; [by intros h' c [? _]|].
  intros h' c [_ HK] [path ->]. by eapply HK.
Qed.
Definition access_result (h : chistory) (r : res unit) : Prop :=
  match r with
  | Ok _ => never removes h /\ exists expiry, stored_away h expiry /\ asked h (Report (aq_Namespace q) (aq_Account q) expiry) (Ok tt)
  | Err e => discreet h e /\ (opened h -> exists x, asked h (RemoveFile (aq_Output q)) x)
  end.
Lemma unopened_result h e : unopened h e -> access_result h (Err e).
Proof. by intros [? ?]. Qed.
Lemma wp_cleaned cluster h : opened h -> vetted h cluster -> never removes h ->
  wp any_answer access_call (cleaned (aq_Output q) (issue q cluster)) h access_result.
Proof.
  intros HO HV HN. apply wp_bind. eapply wp_mono; [|eapply okr_kept; [exact HN|by apply okr_issue]]. intros h1 r (N1 & E1 & HR).
  pose proof (opened_extends _ _ E1 HO) as O1. split; [done|]. intros x _. pose proof (extends_snoc h1 (Ev CloseFile x)) as HE.
  destruct r as [u|e].
  - split; [apply never_snoc; [done|by intros [? ?]]|]. destruct HR as (expiry & (W & S & C) & HR). exists expiry.
    split; [split_and!; [by eapply written_extends|by apply asked_app|by apply asked_app]|by apply asked_app].
  - split; [split; [done|by eapply opened_extends]|]. intros y _. split; [|intros _; exists y; apply asked_snoc].
    destruct HR as [HR|HR]; [by left|right]. by do 2 apply asked_app.
Qed.
Lemma wp_access : wp any_answer access_call (runAccess q o) [] access_result.
Proof.
  unfold runAccess. destruct (_ || _ || _ || _); [by apply unopened_result; split; [listed|intros []]|].
  destruct (_ || _); [by apply unopened_result; split; [listed|intros []]|]. apply wp_bind_ok.
  eapply wp_mono; [|eapply okr_kept; [by intros ? []|apply okr_cluster; by intros []]].
  intros h1 [cluster|e] (N1 & _ & HR); [|by apply unopened_result]. destruct HR as [O1 V1].
  split; [split; [done|by exists cluster]|]. intros [[]|e] _; cbn -[cleaned].
  - apply wp_cleaned; [apply asked_snoc|eapply vetted_extends; [apply extends_snoc|done]|]. apply never_snoc; [done|by intros [? ?]].
  - split; [listed|]. intros [H|[H|[]]]%in_app_iff; [done|].
    by apply (f_equal (fun e => match e with Ev (OpenExclusive _) x => is_ok (x : res unit) | _ => false end)) in H.
Qed.
End issuing.

(** C26: Issued access is written only into a file this command created and made private,
    as the token the API server gave for the asked account, not expired, with nothing of
    the administrator's configuration but the server, TLS name and certificates of the
    selected cluster, which is reached over verified TLS at an address without credentials:
    no proxy, no skipped verification, no file. Success means the file was written, synced, closed and reported and
    never removed; a failure after the file was created removes it; and an error is one
    of the fixed texts or the command's own context's, never an answer of the server. *)
Theorem access_files_are_complete_or_removed q o :
  obeys (access_call q o) (runAccess q o) /\ forall h r, exec (runAccess q o) h (Ret r) -> access_result q o h r.
Proof.
  split; [eapply wp_obeys, wp_access|]. intros h r HX. exact (wp_ret_exec _ _ _ _ _ _ (wp_access q o) HX (answered_any _ _)).
Qed.

(** ** Helm's command lines *)

(** How Helm reads an argument vector: operands, switches, and flags with a value *)
Inductive part := Operand (s : string) | Switch (s : string) | Valued (flag value : string).
Definition switches : list string :=
  ["--install"; "--create-namespace"; "--reset-then-reuse-values"; "--logs"; "--keep-history"; "--dry-run=server"; "--hide-secret"; "--wait"]%string.
Definition value_flags : list string :=
  ["--output"; "--version"; "--values"; "--set"; "--set-string"; "--set-file"; "--namespace"; "--kube-context"; "--kubeconfig"; "--timeout"]%string.
Fixpoint helm_parse (l : list string) : option (list part) :=
  match l with
  | [] => Some []
  | a :: l =>
      if negb (HasPrefix a "-") then option_map (cons (Operand a)) (helm_parse l)
      else if existsb (String.eqb a) switches then option_map (cons (Switch a)) (helm_parse l)
      else if existsb (String.eqb a) value_flags then
        match l with
        | v :: l => option_map (cons (Valued a v)) (helm_parse l)
        | [] => None
        end
      else None
  end.
Definition render (p : part) : list string := match p with Operand s | Switch s => [s] | Valued f v => [f; v] end.
Definition well_formed (p : part) : bool :=
  match p with
  | Operand s => negb (HasPrefix s "-")
  | Switch s => HasPrefix s "-" && existsb (String.eqb s) switches
  | Valued f _ => HasPrefix f "-" && negb (existsb (String.eqb f) switches) && existsb (String.eqb f) value_flags
  end.
Lemma helm_parse_render ps : forallb well_formed ps = true -> helm_parse (flat_map render ps) = Some ps.
Proof.
  induction ps as [|p ps IH]; [done|]. cbn [forallb flat_map]. intros [HP HPS]%andb_true_iff. specialize (IH HPS).
  destruct p as [s|s|f v]; cbn [render app helm_parse well_formed] in *.
  - by rewrite HP, IH.
  - apply andb_true_iff in HP as [-> ->]. cbn [negb]. by rewrite IH.
  - apply andb_true_iff in HP as [[-> H1]%andb_true_iff ->]. apply negb_true_iff in H1. rewrite H1. cbn [negb]. by rewrite IH.
Qed.

(** What each operation asks of Helm *)
Definition revision_of (args : list string) : string := match Atoi (nth_arg args 1) with Some n => Itoa n | None => "" end.
Definition asked_words (op : operation) (args : list string) (f : helm_flags) (o : Options) (chart : string) : list part :=
  let name := Operand (nth_arg args 0) in
  match op with
  | Install | Plan => [Operand "upgrade"; Switch "--install"; name; Operand chart; Switch "--create-namespace"]
  | Upgrade => [Operand "upgrade"; name; Operand chart; Switch "--reset-then-reuse-values"]
  | Values => [Operand "show"; Operand "values"; Operand chart]
  | Rollback => [Operand "rollback"; name; Operand (revision_of args)]
  | Verify => [Operand "test"; name; Switch "--logs"]
  | Uninstall => [Operand "uninstall"; name] ++ if hf_KeepHistory f then [Switch "--keep-history"] else []
  | Status | History => [Operand (operation_name op); name] ++ if (cl_Output o =? "table")%string then [] else [Valued "--output" (cl_Output o)]
  end.
Definition asked_value (flag value : string) : list part := if (value =? "")%string then [] else [Valued flag value].
Definition asked_options (op : operation) (f : helm_flags) (o : Options) : list part :=
  (if chartOperation op && negb (hf_Version f =? "")%string then [Valued "--version" (TrimPrefix (hf_Version f) "v")] else []) ++
  map (Valued "--values") (hf_Values f) ++ map (Valued "--set") (hf_Set f) ++ map (Valued "--set-string") (hf_SetString f) ++
  map (Valued "--set-file") (hf_SetFile f) ++
  match op with
  | Values => []
  | _ => [Valued "--namespace" (helm_namespace o)] ++ asked_value "--kube-context" (cl_Context o) ++ asked_value "--kubeconfig" (cl_Kubeconfig o)
  end ++
  match op with Plan => [Switch "--dry-run=server"; Switch "--hide-secret"] | _ => [] end ++
  (if waits op then [Switch "--wait"] else []) ++
  (if limited op then [Valued "--timeout" (DurationString (cl_Timeout o))] else []).
Lemma render_valued flag l : flat_map render (map (Valued flag) l) = valued flag l.
Proof. unfold valued. induction l as [|v l IH]; [done|]. cbn. by rewrite IH. Qed.
Lemma render_value flag v : flat_map render (asked_value flag v) = when_set flag v.
Proof. unfold asked_value, when_set. by destruct (v =? "")%string. Qed.
Lemma render_options op f o : flat_map render (asked_options op f o) = helm_options op f o.
Proof.
  unfold asked_options, helm_options. rewrite !flat_map_app, !render_valued. do 5 f_equal; [|f_equal].
  - by destruct (chartOperation op && _).
  - destruct op; cbn [flat_map render app]; rewrite ?flat_map_app, ?render_value; done.
  - destruct op; done.
Qed.

#[local] Transparent Itoa.
Lemma plain_number n : 1 <= n -> HasPrefix (Itoa n) "-" = false.
Proof.
  intros Hn. unfold Itoa. destruct (Z.ltb_spec n 0); [lia|]. destruct (utoa_head n ltac:(lia)) as (c & s & -> & Hc).
  cbn [HasPrefix]. destruct (Ascii.eqb_spec "-" c) as [<-|]; [by vm_compute in Hc|done].
Qed.
#[local] Opaque Itoa.
Lemma chart_plain f chart : chart_of f = Ok chart -> HasPrefix chart "-" = false.
Proof.
  unfold chart_of. destruct (helmCharts _); [|done]. intros H. destruct (if (hf_Chart f =? "")%string then _ else _) as [c|]; [|done]. cbn beta iota in H.
  destruct (HasPrefix c "-") eqn:EP; [done|]. destruct (_ && _); [done|]. by injection H as <-.
Qed.
Lemma render_words op args f o chart words : helm_words op args f o chart = Ok words ->
  words = flat_map render (asked_words op args f o chart) /\ (op = Rollback -> exists n, Atoi (nth_arg args 1) = Some n /\ 1 <= n).
Proof.
  destruct op; cbn [helm_words asked_words]; try (intros [= <-]; by split); unfold revision_of.
  - intros [= <-]. split; [|done]. by destruct (cl_Output o =? "table")%string.
  - intros [= <-]. split; [|done]. by destruct (cl_Output o =? "table")%string.
  - destruct (Atoi (nth_arg args 1)) as [n|]; [|done]. destruct (Z.ltb_spec n 1) as [|Hn]; [done|]. intros [= <-]. split; [done|]. intros _. by exists n.
  - intros [= <-]. split; [|done]. by destruct (hf_KeepHistory f).
Qed.
Lemma options_formed op f o : forallb well_formed (asked_options op f o) = true.
Proof.
  assert (forall flag l, (forall v, well_formed (Valued flag v) = true) -> forallb well_formed (map (Valued flag) l) = true) as HV.
  { intros flag l H. apply forallb_forall. by intros p (v & <- & _)%in_map_iff. }
  assert (forall flag v, (forall v, well_formed (Valued flag v) = true) -> forallb well_formed (asked_value flag v) = true) as HA.
  { intros flag v H. unfold asked_value. destruct (v =? "")%string; [done|]. cbn [forallb]. by rewrite H. }
  unfold asked_options. rewrite !forallb_app, !HV by done. cbn [andb].
  destruct (hf_Version f =? "")%string, op; cbn [chartOperation waits limited forallb andb negb]; rewrite ?forallb_app, ?HA by done; done.
Qed.
(** What Helm is asked: the operation, on plain operands *)
Definition asks_for (op : operation) (args : list string) (f : helm_flags) (o : Options) (argv : list string) : Prop :=
  exists chart, (chartOperation op = true -> chart_of f = Ok chart) /\
    helm_parse argv = Some (asked_words op args f o chart ++ asked_options op f o) /\
    List.length args = argument_count op /\ (op = Rollback -> exists n, Atoi (nth_arg args 1) = Some n /\ 1 <= n).
Lemma helm_command_asks op args f o argv : (forall s, IsDNS1123Label s = [] -> HasPrefix s "-" = false) ->
  helm_command op args f o = Ok argv -> asks_for op args f o argv.
Proof.
  intros HP. unfold helm_command. destruct (Nat.eqb_spec (List.length args) (argument_count op)) as [EL|]; [|done].
  destruct ((0 <? argument_count op)%nat && _) eqn:EN; [done|]. destruct (bad (IsDNS1123Label (helm_namespace o))); [done|].
  intros H. destruct (if chartOperation op then chart_of f else Ok ""%string) as [chart|] eqn:EC; [|done].
  cbn [negb] in H. destruct (helm_words op args f o chart) as [words|] eqn:EW; [|done]. injection H as <-. destruct (render_words _ _ _ _ _ _ EW) as [-> HR].
  exists chart. split_and!; [by intros HC; rewrite HC in EC| |done|done].
  rewrite <- render_options, <- flat_map_app. apply helm_parse_render. rewrite forallb_app, options_formed, andb_true_r.
  assert ((0 < argument_count op)%nat -> HasPrefix (nth_arg args 0) "-" = false) as HN.
  { intros HA. apply HP, bad_false. apply Nat.ltb_lt in HA. rewrite HA in EN. cbn [andb] in EN. by apply orb_false_iff in EN as [_ ?]. }
  assert (chartOperation op = true -> HasPrefix chart "-" = false) as HC by (intros HC; rewrite HC in EC; by eapply chart_plain).
  destruct op; cbn [chartOperation argument_count asked_words forallb well_formed app] in *; rewrite ?HN, ?HC by (done || lia); try done.
  - by destruct (cl_Output o =? "table")%string.
  - by destruct (cl_Output o =? "table")%string.
  - destruct (HR eq_refl) as (n & EA & Hn). unfold revision_of. by rewrite EA, plain_number.
  - by destruct (hf_KeepHistory f).
Qed.
Definition helm_call (op : operation) (args : list string) (f : helm_flags) (o : Options) (h : chistory) (c : cop) : Prop :=
  match c with
  | LookPath name => name = "helm"%string
  | RunCommand name argv => name = "helm"%string /\ asks_for op args f o argv
  | _ => False
  end.
(** C36: Every lifecycle command runs Helm alone, and reading the argument vector the way
    Helm does gives back exactly what was asked: the operation on its release and chart as
    plain operands, each value under its flag whatever it looks like, a plan always as a
    server-side dry run, changes always waited for, a rollback to a positive revision. *)
Theorem helm_runs_only_what_was_asked custom op args f o : (forall s, IsDNS1123Label s = [] -> HasPrefix s "-" = false) ->
  obeys (helm_call op args f o) (runHelm custom op args f o).
Proof.
  intros HP. eapply okp_obeys with (P := fun _ _ => True). unfold runHelm. apply okp_check. intros argv HA.
  eapply okp_bind with (P := fun _ _ => True).
  - destruct custom; [by apply okp_Ok|]. apply (okp_wrapped _ (fun _ => _)). split; [done|]. intros [[]|e] _; simpl; [|done]. split; [apply (extends_snoc [])|done].
  - intros h _ _ _. split; [split; [done|by apply helm_command_asks]|]. intros [[]|e] _; simpl; [|done]. split; [apply extends_snoc|done].
Qed.
End commands.

(** ** Concrete commands *)

Module CommandRun.
#[export] Instance validation : Validation := {|
  IsDNS1123Label s := if (s =? "")%string || HasPrefix s "-" then ["invalid"%string] else [];
  IsDNS1123Subdomain s := if (s =? "")%string then ["invalid"%string] else [];
  IsValidLabelValue _ := []; IsQualifiedName _ := []; ValidateLabelSelector _ := [] |}.
(** Addresses [scheme://host/path], a certificate on each line, and a kubeconfig that is
    written as its token. *)
Definition parse_url (s : string) : option URL :=
  if HasPrefix s "https://" then
    match cut_byte "/" (TrimPrefix s "https://") with
    | Some (host, path) => Some (mkURL "https" host false "" "" ("/" ++ path)%string "")
    | None => Some (mkURL "https" (TrimPrefix s "https://") false "" "" "" "")
    end
  else None.
Definition newline : ascii := byte_of 10.
#[export] Instance formats : Formats := {|
  url_Parse := parse_url;
  url_String u := (u_Scheme u ++ "://" ++ u_Host u ++ u_Path u)%string;
  Hostname := u_Host;
  pem_Decode s := match cut_byte newline s with Some (line, rest) => Some (mkBlock "CERTIFICATE" [] line, rest) | None => None end;
  pem_Encode b := (pb_Bytes b ++ String newline "")%string;
  ParseCertificate s := HasPrefix s "cert";
  clientcmd_Write k := Ok (Join "," (map snd (map_to_list (kf_Tokens k))));
  DurationString d := (Itoa (d / second) ++ "s")%string |}.

(** The outside: the bodies still to be served, the clock, and whether the file can be synced *)
Record world := mkWorld { wl_Bodies : list string; wl_Config : KConfig; wl_Now : Z; wl_Syncs : bool }.
Definition step (c : cop) (w : world) : cans c * world :=
  match c with
  | HTTPGet _ _ => (Ok 200, w)
  | ReadBody _ | ReadLimited _ =>
      match wl_Bodies w with
      | b :: l => ((b, None), mkWorld l (wl_Config w) (wl_Now w) (wl_Syncs w))
      | [] => ((""%string, Some (Errorf "no body")), w)
      end
  | RawConfig => (Ok (wl_Config w), w)
  | ReadFile _ => (Err (Errorf "no file"), w)
  | ContextErr => (None, w)
  | CreateToken _ _ seconds => (Ok ("secret-token"%string, wl_Now w + seconds), w)
  | Now => (wl_Now w, w)
  | SyncFile => (if wl_Syncs w then Ok tt else Err (Errorf "disk full"), w)
  | OpenDescriptor _ | NewRequest _ | ShowRelease _ | OpenExclusive _ | ChmodFile | NewClient | WriteFile _ | CloseFile | RemoveFile _
  | Report _ _ _ | LookPath _ | RunCommand _ _ => (Ok tt, w)
  end.
Definition history {A} (p : prog cans A) (w : world) : list (event cans) := fst (fst (Prog.run step p w)).
Definition result {A} (p : prog cans A) (w : world) : A := snd (fst (Prog.run step p w)).
Lemma command_exec {A} (p : prog cans A) w a : result p w = a -> exec p (history p w) (Ret a).
Proof. intros <-. apply run_history. Qed.

Definition repeat_char (n : nat) (c : string) : string := String.concat "" (repeat c n).
Definition image (name : string) : string := (name ++ "@sha256:" ++ repeat_char 64 "a")%string.
Definition bundle_object : json := JObj
  [("apiVersion", JStr nativeAPIVersion); ("kind", JStr "NativeBundle"); ("target", JStr "v1.16.3");
   ("sourceCommit", JStr (commit_of "v1.16.3")); ("patchSHA256", JStr nativePatchSHA256); ("image", JStr (image "native"));
   ("platform", JStr "linux/amd64"); ("schema", schema_json nativeSchema); ("baseImage", JStr (image "base"));
   ("binarySHA256", JStr (repeat_char 64 "b")); ("qualification", JObj [("nativeUnitTests", JStr "passed")])].
Definition descriptor : string := Marshal (JObj
  [("apiVersion", JStr nativeAPIVersion); ("kind", JStr "Release"); ("version", JStr "v1.2.0"); ("sourceCommit", JStr (repeat_char 40 "c"));
   ("controllerImage", JStr (image "controller")); ("gatewayImage", JStr (image "gateway")); ("nativeBundles", JObj [("v1.16.3", bundle_object)])]).
Definition checksum_file (name : string) : string :=
  (sha256_hex descriptor ++ "  " ++ name ++ String newline "" ++ repeat_char 64 "0" ++ "  other.json" ++ String newline "")%string.
Definition no_policy : URL -> nat -> res unit := fun _ _ => Ok tt.
Definition no_config : KConfig := mkKConfig "" ∅ ∅ ∅.
Definition serving (name : string) : world := mkWorld [descriptor; checksum_file name] no_config 0 true.
Definition load : prog cans (res Release) := loadRelease no_policy "v1.2.0".
Definition is_loaded (r : res Release) : bool := match r with Ok r => (rl_Version r =? "v1.2.0")%string | Err _ => false end.
(** The descriptor is loaded, and refused when the checksum file lists another name. *)
Lemma release_loads : is_loaded (result load (serving "release.json")) = true /\
  result load (serving "elsewhere.json") = Err (Errorf "release descriptor SHA256 verification failed").
Proof. split; vm_compute; reflexivity. Qed.
Definition loaded_release : Release := match result load (serving "release.json") with Ok r => r | Err _ => no_release end.
Lemma releases_are_verified_witness : loaded no_policy "v1.2.0" (history load (serving "release.json")) loaded_release.
Proof.
  assert (result load (serving "release.json") = Ok loaded_release) as HR.
  { unfold loaded_release. destruct release_loads as [HL _]. by destruct (result load (serving "release.json")). }
  exact (proj2 (releases_are_verified no_policy "v1.2.0") _ _ (command_exec _ _ _ HR)).
Defined.

Definition lines_of (l : list string) : string := String.concat "" (map (fun s => (s ++ String newline "")%string) l).
Definition admin (server ca : string) : KConfig :=
  mkKConfig "management" {["management" := mkContext "m" "admin" ""]}
    {["m" := mkKCluster server false ca "" "/root/.kube/config" "api.internal" "http://proxy"]} {["admin" := "admin-token"%string]}.
Definition location (server ca : string) (syncs : bool) : world := mkWorld [] (admin server ca) 100 syncs.
Definition wanted : access_request := mkAccess "location-a" "binding-reporter" "/private/site-a" (3600 * second) 0.
Definition flags : Options := mkOptions "" "" "" "table" (300 * second).
Definition issuing : prog cans (res unit) := runAccess wanted flags.
Definition good : world := location "https://api:6443" (lines_of ["cert one"; "cert two"]) true.
Definition events (h : list (event cans)) : list string :=
  omap (fun e => match ev_op e with
                 | OpenExclusive p => Some ("open " ++ p)%string | WriteFile d => Some ("write " ++ d)%string
                 | RemoveFile p => Some ("remove " ++ p)%string | Report _ _ expiry => Some ("report " ++ Itoa expiry)%string
                 | _ => None end) h.
(** The file is written and reported; a file that cannot be made durable is removed; an
    endpoint or an authority that cannot be trusted creates none. *)
Lemma access_runs :
  result issuing good = Ok tt /\ events (history issuing good) = ["open /private/site-a"; "write secret-token"; "report 3700"]%string /\
  events (history issuing (location "https://api:6443" (lines_of ["cert one"]) false)) =
    ["open /private/site-a"; "write secret-token"; "remove /private/site-a"]%string /\
  events (history issuing (location "http://api" (lines_of ["cert one"]) true)) = [] /\
  events (history issuing (location "https://api" (lines_of ["key"]) true)) = [].
Proof. split_and!; vm_compute; reflexivity. Qed.
Lemma access_files_are_complete_or_removed_witness : access_result wanted flags (history issuing good) (Ok tt).
Proof.
  exact (proj2 (access_files_are_complete_or_removed wanted flags) _ _ (command_exec _ _ _ (proj1 access_runs))).
Defined.

(** A dry run with a value that looks like a flag *)
Definition planned : helm_flags := mkFlags "site" "" "v1.2.0" ["site.yaml"] ["--no-hooks"] [] [] false.
Definition planning : prog cans (res unit) := runHelm false Plan ["global-vpc"] planned flags.
Definition plan_argv : list string :=
  ["upgrade"; "--install"; "global-vpc"; "oci://ghcr.io/yckao/kube-ovn-global-vpc/charts/global-vpc-site"; "--create-namespace";
   "--version"; "1.2.0"; "--values"; "site.yaml"; "--set"; "--no-hooks"; "--namespace"; "global-vpc-system"; "--dry-run=server"; "--hide-secret";
   "--timeout"; "300s"]%string.
Lemma plan_runs : result planning good = Ok tt /\
  called (history planning good) (firstn 1 (history planning good)) (RunCommand "helm" plan_argv).
Proof. split; [vm_compute; reflexivity|]. apply called_at. vm_compute. reflexivity. Qed.
Lemma labels_are_plain s : IsDNS1123Label s = [] -> HasPrefix s "-" = false.
Proof. cbn [IsDNS1123Label validation]. by destruct (s =? "")%string, (HasPrefix s "-"). Qed.
Lemma helm_runs_only_what_was_asked_witness : asks_for Plan ["global-vpc"%string] planned flags plan_argv.
Proof.
  pose proof (called_permitted _ _ _ _ _ _ (helm_runs_only_what_was_asked false Plan ["global-vpc"%string] planned flags labels_are_plain)
    (command_exec _ _ _ (proj1 plan_runs)) (proj2 plan_runs)) as [_ H]. exact H.
Defined.
End CommandRun.
